(* ===== verification/_CoqProject ===== *)
-Q . S2P
Prelude.v
Lock.v
PriorityQueue.v
HeapTheory.v
PriorityQueueSpec.v
Deque.v
PerfWindow.v
PerfWindowSpec.v
Admissions.v
Map.v
Bytes.v
WasmMemory.v
WasiSerdes.v
Globals.v
Module.v
Numeric.v
Runqueue.v
PsList.v
PsListSpec.v
Mtds.v
MtdsSpec.v
MtdsGlobal.v
MtdsGlobalSpec.v
Sandbox.v
Scheduler.v
SandboxSpec.v
SandboxSteps.v
SchedulerSpec.v
Conservation.v
Preemption.v
Lifecycle.v
Worker.v
Exits.v
MtdsPolicy.v
MtdsPolicySpec.v
Http.v
HttpSession.v
Listener.v
HttpSend.v
HttpParse.v
ListenerSpec.v
Wasi.v
WasiCalls.v
WasiSpec.v
ScratchStorage.v
Execution.v
Spared.v
ExecutionSpec.v
CallsSpec.v
Config.v
ConfigSpec.v
Tenants.v
TenantsSpec.v
Startup.v
StartupSpec.v
Metrics.v
MetricsSpec.v
