(* ===== verification/Prelude.v ===== *)
(** * SLEdge: a verification of the serverless runtime's core

    SLEdge ([src/runtime], [src/libsledge]) is a serverless runtime.  A
    listener thread turns HTTP requests into sandboxes (instances of
    ahead-of-time compiled WebAssembly modules) and hands them to worker threads
    through a global request scheduler.  Each worker multiplexes sandboxes on
    one kernel thread: a local runqueue, cooperative switches when a sandbox
    sleeps or exits, preemptive switches from a timer signal.  Admissions
    control turns requests away when the machine is full, from estimates a
    sliding window of execution times provides.

    This library models the C code of the core as executable Rocq functions
    and proves what makes it correct.

    ** How the C code is modelled

    A C function is a function that returns an [outcome]: a value, or the way
    the process stops (a failed assertion, a panic, an access the C standard
    gives no meaning to, a hardware fault).  Assertions are part of the model
    because the build leaves them enabled.  Unsigned integers are [Z] with
    their wrap-around written out ([u32], [u64]); pointers to heap objects are
    [Z] addresses into finite maps, NULL is [None]; arrays are lists, with an
    index out of range a [Stop].  State is passed explicitly.  What the
    surroundings decide is a parameter: the cycle counter is read as the
    arguments called [now], [t0], ..., an allocation or [mmap] succeeds or
    fails as a boolean argument says.  Loops that are not structural carry fuel
    bounded by the size of the data (heap depth by the number of elements,
    window loops by the capacity); [Fuel] is a fault of its own, and the
    theorems show that it does not occur.  A loop that the surroundings drive
    (reads of a socket, epoll events, reads of /dev/urandom) takes the list of
    their answers.

    Third-party code is a parameter with its documented behaviour as laws: the
    MCS spinlock (class [SpinLock]), and the HTTP tokenizer (a function that turns
    bytes into callback events); the tokens of a JSON text are an argument.  The
    records of function pointers that make the C code polymorphic are type classes with an instance per variant and a
    class of laws the clients rely on: [Runqueue]/[RunqueueLaws]
    (with [RunqueueNext] and [RunqueueUnbounded] for the variants that can tell
    their next sandbox and accept every one),
    [GlobalScheduler]/[GlobalSchedulerLaws], [Policy].
    The calls of generated code are [Calls]/[CallsLaws].

    ** Files

    - [Prelude]: outcomes, machine integers, tactics, arrays of pointers.
    - [Lock]: [lock.h], the time-accounting wrapper of the spinlock.
    - [PriorityQueue], [HeapTheory], [PriorityQueueSpec]: [priority_queue.h], a
      binary min-heap with a memoized minimum, against the bag it represents.
    - [Deque]: [deque.h], sequentially and as a step relation of its atomic
      accesses (one pusher, any number of stealers).
    - [PerfWindow], [PerfWindowSpec]: [perf_window.h], against the history of
      samples.
    - [Admissions]: [admissions_control.c] and [admissions_info.c]; the capacity
      in binary64 arithmetic, the shared counter as a step relation.
    - [Map]: [map.h], the hash map behind the tenants' scratch storage.
    - [Bytes], [WasmMemory]: [wasm_memory.h] and the memory instructions of
      [libsledge]; linear memories at byte level.
    - [Globals]: [vec.h], [wasm_globals.h], [variable_instructions.c].
    - [Module]: [wasm_table.h], [wasm_stack.h], [pool.h], [module.h],
      [module.c].
    - [Numeric]: [numeric_instructions.c], with IEEE-754 floats.
    - [Runqueue]: the local runqueues and global schedulers with their classes.
    - [PsList], [PsListSpec]: [ps_list.h], the intrusive rings of nodes in memory,
      and the linked code of the round-robin runqueue and of the cleanup queue,
      against the lists that stand for them elsewhere.
    - [Mtds], [MtdsSpec]: [local_runqueue_mtds.c], the runqueue of the
      multi-tenant policy, with the tenants' budgets and timeouts.
    - [MtdsGlobal], [MtdsGlobalSpec]: [global_request_scheduler_mtds.c], the queues
      of requests per tenant, and the states they reach.
    - [Sandbox]: the record of a sandbox, the [world] of a worker (everything
      its code can reach), all state transitions, allocation, preparation,
      release, the cleanup queue.
    - [Scheduler]: the policies EDF and FIFO, context variants, preemptive and
      cooperative switching, [current_sandbox.c], the signal handler.
    - [MtdsPolicy], [MtdsPolicySpec]: the multi-tenant policy as a [Policy] over its
      queues ([scheduler_mtds_get_next]), and its timer interrupts.
    - [SandboxSpec], [SandboxSteps]: the invariant of a worker ([wf]) and the
      theorems that the transitions implement the state diagram.
    - [SchedulerSpec], [Preemption], [Lifecycle]: preparation, the EDF choice,
      timer interrupts end to end, allocation and release.
    - [Conservation]: what every operation of a worker keeps (modules and their
      references, sessions, outfits), as a preorder and a database of hints.
    - [Worker], [Exits]: the invariant of a worker under EDF between two steps
      ([core]), through the release of finished sandboxes, cooperative switches, new
      requests, and the two ends of a sandbox.
    - [Http]: [http.h], [auto_buf.h], [http_request.h] and the parser callbacks of
      [http_parser_settings.c], over the bytes of the request buffer.
    - [HttpSession]: [http_session.h] and [tcp_session.h]; the [net] is the table of
      sessions, the epoll set, and what was sent and closed on each socket.
    - [Listener]: [http_router.h] and [listener_thread.c], the event loop that takes
      requests in and finishes responses; its state joins the [net], the [world] of
      the sandboxes and the global scheduler.
    - [HttpSend], [HttpParse], [ListenerSpec]: responses, requests, and the way of a
      request through the listener.
    - [WasiSerdes]: [wasi_serdes.h], values in linear memory, with a class of
      round-trip laws.
    - [Wasi], [WasiCalls]: [wasi.h], [wasi_impl_serverless.c], the calls of
      [sledge_abi.c] and the functions of [libsledge] that make them.
    - [Config], [ConfigSpec]: [json.h], [json_parse.h] and the parsers and checks of
      tenants and routes ([tenant_config_parse.h], [route_config_parse.h]).
    - [Tenants], [TenantsSpec]: [tenant_database.c], [module_database.c],
      [tenant_functions.h], [tenant.c], [tcp_server.h] and the loop of [main] that
      starts the configured tenants.
    - [Startup], [StartupSpec]: [main.c], the initialization in [runtime.c],
      [worker_thread.c], [software_interrupt.c] and [listener_thread.c], and the
      forwarding of timer signals.
    - [Metrics], [MetricsSpec]: [http_total.h], [http_route_total.h],
      [route_latency.h], [proc_stat.h], [metrics_server.c],
      [metrics_server_route_level_metrics.c] and the entries of the performance logs.
    - [WasiSpec], [ScratchStorage]: what a guest sees of its request, and the
      storage of its tenant.
    - [Execution]: the rest of [current_sandbox.c] ([current_sandbox_start]), the
      entry points of a module ([instantiation.c]), traps, and a worker as a machine
      that guests, timer signals and requests drive.  The code of a module is a
      parameter, a tree of what it does ([guest_code]); the calls it makes are the
      class [Calls], with the system interface as its instance.
    - [Spared]: what the policies do when a waiting request cannot be prepared,
      compared with a run in which it can.
    - [ExecutionSpec], [CallsSpec]: runs of a worker, against the laws [CallsLaws] of
      the calls, and the proof that the system interface keeps them.

    ** What the theorems show

    - The whole worker: from its start, through any schedule of requests, timer
      signals and guest code, whatever the allocators answer, a worker under EDF stays
      in order, answers 200 or 500 as the guests end, loses no request and answers
      none twice; the only ways to stop it are listed, a request whose preparation
      fails among them ([worker_run_safe]).
    - Scheduling: under EDF, after every timer interrupt the processor belongs
      to the earliest deadline of the worker and of the waiting requests
      ([edf_tick], [edf_get_next_earliest]); FIFO is round robin ([fifo_tick]).
      Under the multi-tenant policy guaranteed tenants with budget come first,
      no sandbox is lost and no call stops ([mtds_run_spec],
      [mtds_promotions_spec]), and a worker pulls a request that is earlier than its
      own choice or of a better class ([mtds_tick]); timer signals are forwarded to exactly the workers
      they should reach ([propagate_sigalrm_spec]); the global scheduler loses
      no request either ([mtds_global_conserves], [mtds_global_promotions]).
    - Sandboxes: every transition follows the state diagram or stops, whole
      runs account for every cycle and answer the client exactly once
      ([sandbox_step_spec], [sandbox_run_spec]); finished sandboxes are
      released completely ([sandbox_free_spec]).
    - Queues: the linked lists are lists ([linked_queues_refine_lists]), the heap is a priority bag ([pq_enqueue_spec] and following), the
      deque delivers each element once and in order under every interleaving
      ([deque_concurrent_fifo]).
    - Admissions: the counter is the sum of the admitted estimates and stays
      below the capacity under every interleaving ([admissions_safe]); the
      capacity is exact ([admissions_capacity_exact]); estimates are order
      statistics of the recent samples ([admissions_info_update_spec],
      [perf_window_history], [perf_window_percentile]).
    - Requests: the parser callbacks compute the reference reading of a URL
      ([on_url_spec]) and record headers within their limits or refuse the request
      ([headers_recorded]), bodies are received whole ([body_received]), the first matching route takes a request
      ([http_router_spec]), which is answered or becomes a queued sandbox
      ([request_fate]).
    - Responses: every response reaches its client whole, once and in order
      ([response_delivered]).
    - The system interface: a guest's arguments are those of its request, its
      standard input the body, its output the response ([arguments_roundtrip],
      [fd_read_delivers_body], [fd_write_appends_response]); storage is a map per
      tenant, as long as an uninitialised lock node holds zero
      ([scratch_storage_refines_map]); structures survive linear memory
      ([wasi_serdes_roundtrip]).
    - Configuration: the parsers accept exactly the valid documents and read them
      as they are written ([config_parse_spec]), and the documents start the tenants
      they describe ([configuration_started]).
    - Start-up: a process that starts has its workers, processors, signals, timer
      and queues in order, and it starts when the system grants what is asked for
      ([startup_spec]).
    - Metrics: a scraper reads from the page what was counted, and only input that
      begins like a request for the page gets it ([metrics_page_spec]).  Whether the
      tenants can be iterated is a parameter: the callback is declared with three
      arguments and called with two.
    - WebAssembly instances: memory round trips, bounds and growth, recycling,
      typed indirect calls, globals, stacks and pools ([WasmMemory],
      [Globals], [Module]); rotations, divisions and truncations ([Numeric]).
    - Defects: theorems that state what the code does where that is not what
      it is meant to do, among them [pq_delete_breaks_order],
      [map_delete_wrong_key], [wasm_memory_recycle_leaks],
      [prepare_failure_not_contained], [deque_array_exhausted],
      [request_parsing_defects], [wasi_call_defects], [mtds_global_defects],
      [config_defects], [startup_defects], [metrics_defects], [start_trap_undefined].

    The invariant of a worker and the scheduling theorems are for the default
    build, with admissions control compiled out ([ADMISSIONS_CONTROL] false);
    the functions themselves have it as a parameter.

    ** What is not modelled

    Register contents and assembly (a context is the way its registers are
    saved), the generated code of modules beyond what it does to its memory and
    which calls it makes, the HTTP tokenizer and the system calls
    themselves (their answers are arguments), the JSON tokenizer, and the printing of
    settings and debug output.  A worker's [world] records that it answered a client;
    the bytes of that answer are the business of [HttpSession], where the session of
    the sandbox is found by its address. *)

From Stdlib Require Import ZArith Lia.
From stdpp Require Export base list numbers gmap option.

#[global] Arguments Nat.div : simpl never.
#[global] Arguments Nat.modulo : simpl never.

(** ** Outcomes of C code

    A C call either returns a value or stops the process.  [Panic] is the
    runtime's [panic()], [AssertFail] a failed [assert] (the shipped Makefile
    leaves [NDEBUG] undefined, so assertions are live), [Undefined] an access
    the C standard gives no meaning to (NULL dereference, out-of-bounds index,
    call through an unset function pointer), [Deadlock] a spin on a lock the
    spinning thread already holds.  [Segv] and [Fpe] are the hardware faults
    SIGSEGV and SIGFPE, [Trap n] a WebAssembly trap raised with
    [sledge_abi__wasm_trap_raise(n)]; the last three end a sandbox, not the
    process, when they happen in user code.  [Fuel] is never produced by the
    code: it marks a loop whose fuel ran out, and every theorem about a loop
    shows that it does not occur. *)
Inductive fault :=
| Panic | AssertFail | Undefined | Deadlock
| Segv | Fpe | Trap (trapno : Z)
| Fuel.

Inductive outcome (A : Type) :=
| Ret (a : A)
| Stop (f : fault).
Arguments Ret {A} a.
Arguments Stop {A} f.

#[export] Instance fault_eq_dec : EqDecision fault.
Proof. solve_decision. Defined.

#[export] Instance outcome_eq_dec {A} `{EqDecision A} : EqDecision (outcome A).
Proof. solve_decision. Defined.

#[export] Instance outcome_ret : MRet outcome := @Ret.

#[export] Instance outcome_bind : MBind outcome :=
  fun A B (f : A -> outcome B) (m : outcome A) =>
    match m with
    | Ret a => f a
    | Stop e => Stop e
    end.

#[export] Instance outcome_fmap : FMap outcome :=
  fun A B (f : A -> B) (m : outcome A) =>
    match m with
    | Ret a => Ret (f a)
    | Stop e => Stop e
    end.

(** [assert(b)] *)
Definition assert (b : bool) : outcome unit :=
  if b then Ret tt else Stop AssertFail.

(** Dereferencing a pointer or reading an array cell that may not exist. *)
Definition deref {A} (o : option A) : outcome A :=
  match o with
  | Some a => Ret a
  | None => Stop Undefined
  end.

Definition is_Ret {A} (m : outcome A) : bool :=
  match m with Ret _ => true | Stop _ => false end.

(** ** Machine integers *)

Definition UINT8_MAX : Z := 2 ^ 8 - 1.
Definition UINT16_MAX : Z := 2 ^ 16 - 1.
Definition UINT32_MAX : Z := 2 ^ 32 - 1.
Definition UINT64_MAX : Z := 2 ^ 64 - 1.

(** Unsigned wrap-around at width [w]. *)
Definition wrap (w z : Z) : Z := (z mod 2 ^ w)%Z.
Definition u8 := wrap 8.
Definition u16 := wrap 16.
Definition u32 := wrap 32.
Definition u64 := wrap 64.

(** Two's complement reading of a [w]-bit pattern. *)
Definition swrap (w z : Z) : Z :=
  let r := (z mod 2 ^ w)%Z in
  if (r <? 2 ^ (w - 1))%Z then r else (r - 2 ^ w)%Z.

(** ** errno values the sources return (Linux numbering) *)
Definition ENOENT : Z := 2.
Definition EAGAIN : Z := 11.
Definition ENOSPC : Z := 28.

(** ** Automation *)

Create HintDb sledge.

(** Decompose a successful outcome into the successes of its steps. *)
Lemma bind_Ret_inv {A B} (m : outcome A) (f : A -> outcome B) b :
  m ≫= f = Ret b -> exists a, m = Ret a /\ f a = Ret b.
Proof. destruct m; [eauto | done]. Qed.

Lemma assert_Ret_inv b u : assert b = Ret u -> b = true.
Proof. by destruct b. Qed.

Lemma deref_Ret_inv {A} (o : option A) a : deref o = Ret a -> o = Some a.
Proof. destruct o; cbn; congruence. Qed.

Lemma assert_true b : b = true -> assert b = Ret tt.
Proof. by intros ->. Qed.

Ltac inv_outcome_step :=
  match goal with
  | H : Ret _ = Ret _ |- _ => injection H as H; subst
  | H : Stop _ = Ret _ |- _ => discriminate H
  | H : Ret _ = Stop _ |- _ => discriminate H
  | H : assert _ = Ret _ |- _ => apply assert_Ret_inv in H
  | H : deref _ = Ret _ |- _ => apply deref_Ret_inv in H
  | H : _ ≫= _ = Ret _ |- _ =>
      let a := fresh "a" in let E := fresh "E" in
      apply bind_Ret_inv in H as (a & E & H)
  end.

Ltac inv_outcome := repeat inv_outcome_step.

(** Run the outcome monad in the goal without unfolding the operations. *)
Ltac ostep := cbn [mbind outcome_bind fmap outcome_fmap deref assert].

(** Turn boolean comparisons into propositions. *)
Ltac reflect_bools :=
  repeat match goal with
  | H : andb _ _ = true |- _ => apply andb_true_iff in H as [? ?]
  | H : orb _ _ = false |- _ => apply orb_false_iff in H as [? ?]
  | H : negb _ = true |- _ => apply negb_true_iff in H
  | H : negb _ = false |- _ => apply negb_false_iff in H
  | H : (_ <? _)%Z = true |- _ => apply Z.ltb_lt in H
  | H : (_ <? _)%Z = false |- _ => apply Z.ltb_ge in H
  | H : (_ <=? _)%Z = true |- _ => apply Z.leb_le in H
  | H : (_ <=? _)%Z = false |- _ => apply Z.leb_gt in H
  | H : (_ =? _)%Z = true |- _ => apply Z.eqb_eq in H
  | H : (_ =? _)%Z = false |- _ => apply Z.eqb_neq in H
  | H : (_ <? _)%nat = true |- _ => apply Nat.ltb_lt in H
  | H : (_ <? _)%nat = false |- _ => apply Nat.ltb_ge in H
  | H : (_ <=? _)%nat = true |- _ => apply Nat.leb_le in H
  | H : (_ <=? _)%nat = false |- _ => apply Nat.leb_gt in H
  | H : (_ =? _)%nat = true |- _ => apply Nat.eqb_eq in H
  | H : (_ =? _)%nat = false |- _ => apply Nat.eqb_neq in H
  end.

(** ** Integers *)

Lemma wrap_small w z : (0 <= z < 2 ^ w)%Z -> wrap w z = z.
Proof. apply Z.mod_small. Qed.

Lemma wrap_range w z : (0 <= w)%Z -> (0 <= wrap w z < 2 ^ w)%Z.
Proof. intros Hw. apply Z.mod_pos_bound. by apply Z.pow_pos_nonneg. Qed.

Lemma u64_small z : (0 <= z <= UINT64_MAX)%Z -> u64 z = z.
Proof. intros H. apply wrap_small. unfold UINT64_MAX in H. lia. Qed.

Lemma u32_small z : (0 <= z <= UINT32_MAX)%Z -> u32 z = z.
Proof. intros H. apply wrap_small. unfold UINT32_MAX in H. lia. Qed.

Lemma u64_range z : (0 <= u64 z <= UINT64_MAX)%Z.
Proof. pose proof (wrap_range 64 z ltac:(lia)). unfold u64, UINT64_MAX. lia. Qed.

Lemma u32_range z : (0 <= u32 z <= UINT32_MAX)%Z.
Proof. pose proof (wrap_range 32 z ltac:(lia)). unfold u32, UINT32_MAX. lia. Qed.

#[export] Hint Resolve u64_range u32_range : sledge.

(** ** Arrays: exchanging two cells *)

Section exchange.
Context {A : Type}.
Implicit Types l : list A.

(** [tmp = l[i]; l[i] = l[j]; l[j] = tmp] with the two values already read. *)
Definition exchange l (i j : nat) (x y : A) : list A := <[j:=x]> (<[i:=y]> l).

Lemma length_exchange l i j x y : length (exchange l i j x y) = length l.
Proof. unfold exchange. by rewrite !length_insert. Qed.

Lemma lookup_exchange l i j x y k :
  l !! i = Some x -> l !! j = Some y ->
  exchange l i j x y !! k =
    if decide (k = j) then Some x else if decide (k = i) then Some y else l !! k.
Proof.
  intros Hi Hj. unfold exchange.
  apply lookup_lt_Some in Hi as Li. apply lookup_lt_Some in Hj as Lj.
  destruct (decide (k = j)) as [->|Hkj].
  { apply list_lookup_insert_eq. by rewrite length_insert. }
  rewrite list_lookup_insert_ne by done.
  destruct (decide (k = i)) as [->|Hki].
  - by apply list_lookup_insert_eq.
  - by apply list_lookup_insert_ne.
Qed.

Lemma insert_middle_permutation l i x y :
  l !! i = Some y -> x :: l ≡ₚ y :: <[i:=x]> l.
Proof.
  intros Hi. apply lookup_lt_Some in Hi as Li.
  rewrite insert_take_drop by done.
  rewrite <- (take_drop_middle l i y Hi) at 1.
  rewrite !Permutation_middle. by rewrite perm_swap.
Qed.

Lemma exchange_permutation l i j x y :
  l !! i = Some x -> l !! j = Some y -> exchange l i j x y ≡ₚ l.
Proof.
  intros Hi Hj. unfold exchange.
  destruct (decide (i = j)) as [->|Hne].
  { simplify_eq. rewrite !list_insert_id; [done | done |].
    rewrite list_insert_id; done. }
  apply (Permutation_cons_inv (a := y)).
  rewrite <- (insert_middle_permutation (<[i:=y]> l) j x y).
  - symmetry. by apply insert_middle_permutation.
  - by rewrite list_lookup_insert_ne.
Qed.
End exchange.

(** The non-NULL cells of an array of pointers. *)
Definition live {A} (items : list (option A)) : list A := omap id items.

Lemma live_permutation {A} (l k : list (option A)) : l ≡ₚ k -> live l ≡ₚ live k.
Proof. intros H. unfold live. by rewrite H. Qed.

Lemma elem_of_live {A} (l : list (option A)) a : a ∈ live l <-> Some a ∈ l.
Proof.
  unfold live. rewrite list_elem_of_omap. split.
  - intros (o & Ho & E). cbn in E. by subst.
  - intros H. eauto.
Qed.

Lemma lookup_live {A} (l : list (option A)) i a : l !! i = Some (Some a) -> a ∈ live l.
Proof. intros H. apply elem_of_live. by eapply list_elem_of_lookup_2. Qed.

Lemma live_insert_None {A} (l : list (option A)) i a :
  l !! i = Some None -> live (<[i:=Some a]> l) ≡ₚ a :: live l.
Proof.
  intros H. pose proof (insert_middle_permutation l i (Some a) None H) as P.
  apply live_permutation in P. cbn in P. symmetry. exact P.
Qed.

Lemma live_delete_Some {A} (l : list (option A)) i a :
  l !! i = Some (Some a) -> live l ≡ₚ a :: live (<[i:=None]> l).
Proof.
  intros H. pose proof (insert_middle_permutation l i None (Some a) H) as P.
  apply live_permutation in P. cbn in P. exact P.
Qed.
