(* ===== verification/Lock.v ===== *)
(** * Lock: the timed wrapper around the MCS spinlock

    [runtime/include/lock.h].  The spinlock itself (Concurrency Kit's
    [ck_spinlock_mcs]) is third-party code outside the repository: it is the
    class [SpinLock], whose laws are the documented behaviour of an uncontended
    lock.  What the repository adds is the accounting of hold times, modelled
    in full; the two timestamps a lock/unlock pair reads from the cycle counter
    are arguments. *)

From Stdlib Require Import ZArith Lia.
From S2P Require Import Prelude.
Local Open Scope Z_scope.

Class SpinLock (L : Type) := {
  mcs_init : L;
  mcs_locked : L -> bool;
  mcs_lock : L -> L;
  mcs_unlock : L -> L;
  mcs_init_unlocked : mcs_locked mcs_init = false;
  mcs_lock_locked l : mcs_locked l = false -> mcs_locked (mcs_lock l) = true;
  mcs_unlock_unlocked l : mcs_locked l = true -> mcs_locked (mcs_unlock l) = false;
}.

(** The simplest spinlock: a flag. *)
#[export] Program Instance flag_spinlock : SpinLock bool := {|
  mcs_init := false;
  mcs_locked := id;
  mcs_lock := fun _ => true;
  mcs_unlock := fun _ => false;
|}.
Next Obligation. done. Qed.
Next Obligation. done. Qed.
Next Obligation. done. Qed.

Record lock_t (L : Type) := mk_lock {
  longest_held : Z;
  total_held : Z;
  lock : L;
}.
Arguments mk_lock {L} _ _ _.
Arguments longest_held {L} _.
Arguments total_held {L} _.
Arguments lock {L} _.

Record lock_node_t := mk_lock_node { time_locked : Z }.

(** [lock_node_t node = {};] *)
Definition lock_node_zero : lock_node_t := mk_lock_node 0.

Section lock.
Context {L : Type} `{SpinLock L}.

Definition lock_init : lock_t L :=
  {| longest_held := 0; total_held := 0; lock := mcs_init |}.

Definition lock_is_locked (self : lock_t L) : bool := mcs_locked (lock self).

Definition lock_lock (self : lock_t L) (node : lock_node_t) (now : Z)
  : outcome (lock_t L * lock_node_t) :=
  assert (time_locked node =? 0) ;;
  if lock_is_locked self then Stop Deadlock else
  Ret ({| longest_held := longest_held self; total_held := total_held self;
          lock := mcs_lock (lock self) |},
       {| time_locked := now |}).

Definition lock_unlock (self : lock_t L) (node : lock_node_t) (now : Z)
  : outcome (lock_t L * lock_node_t) :=
  assert (0 <? time_locked node) ;;
  let unlocked := mcs_unlock (lock self) in
  assert (time_locked node <? now) ;;
  let duration := u64 (now - time_locked node) in
  let longest := if longest_held self <? duration then duration else longest_held self in
  Ret ({| longest_held := longest;
          total_held := u64 (total_held self + duration);
          lock := unlocked |},
       {| time_locked := 0 |}).

Lemma lock_lock_ok self now :
  lock_is_locked self = false ->
  exists self', lock_lock self lock_node_zero now = Ret (self', mk_lock_node now)
    /\ lock_is_locked self' = true
    /\ longest_held self' = longest_held self /\ total_held self' = total_held self.
Proof.
  intros Hu. unfold lock_lock. cbn. rewrite Hu. eexists.
  split; [done|]. repeat split. cbn. by apply mcs_lock_locked.
Qed.

Lemma lock_unlock_ok self t0 t1 :
  lock_is_locked self = true -> 0 < t0 -> t0 < t1 -> t1 <= UINT64_MAX ->
  exists self', lock_unlock self (mk_lock_node t0) t1 = Ret (self', lock_node_zero)
    /\ lock_is_locked self' = false
    /\ longest_held self' = Z.max (longest_held self) (t1 - t0)
    /\ total_held self' = u64 (total_held self + (t1 - t0)).
Proof.
  intros Hl H0 H1 H2. unfold lock_unlock. cbn.
  rewrite (proj2 (Z.ltb_lt _ _) H0). cbn. rewrite (proj2 (Z.ltb_lt _ _) H1). cbn.
  rewrite (u64_small (t1 - t0)) by lia.
  eexists. split; [done|]. cbn. split; [by apply mcs_unlock_unlocked|]. split; [|done].
  destruct (Z.ltb_spec (longest_held self) (t1 - t0)); lia.
Qed.
End lock.
