(* ===== verification/PriorityQueue.v ===== *)
(** * PriorityQueue: the array min-heap of [runtime/include/priority_queue.h]

    One definition per C function.  The struct's [items] array has
    [capacity + 1] cells, cell 0 unused, and [None] stands for NULL.  The
    struct's [get_priority_fn] reads the element through the heap at the moment
    of the call, so it is an argument: a component whose priorities change
    (the multi-tenant queues of queues) passes the function of its current
    state.  [listener] says whether the calling thread is the listener thread,
    which several assertions test.  Indices are natural numbers: a queue holds
    at most [capacity] pointers, far below the [int] range of the C indices. *)

From Stdlib Require Import ZArith Lia.
From S2P Require Import Prelude Lock.

Record priority_queue (L A : Type) := mk_pq {
  pq_use_lock : bool;
  pq_lock : lock_t L;
  highest_priority : Z;
  pq_size : nat;
  pq_capacity : nat;
  pq_items : list (option A);
}.
Arguments mk_pq {L A} _ _ _ _ _ _.
Arguments pq_use_lock {L A} _.
Arguments pq_lock {L A} _.
Arguments highest_priority {L A} _.
Arguments pq_size {L A} _.
Arguments pq_capacity {L A} _.
Arguments pq_items {L A} _.

Section priority_queue.
Context {L : Type} `{SpinLock L} {A : Type} `{EqDecision A}.
Context (get_priority_fn : A -> Z).
Abbreviation pq := (priority_queue L A).

Definition pq_set_lock (q : pq) (l : lock_t L) : pq :=
  mk_pq (pq_use_lock q) l (highest_priority q) (pq_size q) (pq_capacity q) (pq_items q).
Definition pq_set_highest (q : pq) (p : Z) : pq :=
  mk_pq (pq_use_lock q) (pq_lock q) p (pq_size q) (pq_capacity q) (pq_items q).
Definition pq_set_items (q : pq) (l : list (option A)) : pq :=
  mk_pq (pq_use_lock q) (pq_lock q) (highest_priority q) (pq_size q) (pq_capacity q) l.
Definition pq_set_size (q : pq) (n : nat) : pq :=
  mk_pq (pq_use_lock q) (pq_lock q) (highest_priority q) n (pq_capacity q) (pq_items q).

(** [!priority_queue->use_lock || lock_is_locked(&priority_queue->lock)] *)
Definition pq_accessible (q : pq) : bool :=
  negb (pq_use_lock q) || lock_is_locked (pq_lock q).

(** Read [items[i]]. *)
Definition pq_item (l : list (option A)) (i : nat) : outcome (option A) := deref (l !! i).

(** [get_priority_fn(items[i])]: dereferences the stored pointer. *)
Definition item_priority (l : list (option A)) (i : nat) : outcome Z :=
  o ← pq_item l i; a ← deref o; Ret (get_priority_fn a).

(** [items[i] = v] *)
Definition pq_store (l : list (option A)) (i : nat) (v : option A) : outcome (list (option A)) :=
  if decide (i < length l) then Ret (<[i:=v]> l) else Stop Undefined.

(** Swap two cells through a temporary. *)
Definition swap_items (l : list (option A)) (i j : nat) : outcome (list (option A)) :=
  x ← pq_item l i; y ← pq_item l j; Ret (exchange l i j x y).

Definition priority_queue_peek (q : pq) : Z := highest_priority q.

Definition priority_queue_update_highest_priority (q : pq) (p : Z) : pq := pq_set_highest q p.

Definition priority_queue_append (q : pq) (new_item : A) : outcome (Z * pq) :=
  assert (pq_accessible q) ;;
  if decide (pq_capacity q < pq_size q) then Stop Panic else
  if decide (pq_size q = pq_capacity q) then Ret ((- ENOSPC)%Z, q) else
  let n := S (pq_size q) in
  l ← pq_store (pq_items q) n (Some new_item);
  Ret (0%Z, pq_set_size (pq_set_items q l) n).

Definition priority_queue_is_empty (q : pq) : outcome bool :=
  assert (pq_accessible q) ;;
  Ret (bool_decide (pq_size q = 0)).

(** The loop of [priority_queue_percolate_up], from index [i]. *)
Fixpoint percolate_up_loop (fuel : nat) (q : pq) (i : nat) : outcome pq :=
  match fuel with
  | 0 => Stop Fuel
  | S fuel =>
    if decide (i / 2 = 0) then Ret q else
    pi ← item_priority (pq_items q) i;
    pp ← item_priority (pq_items q) (i / 2);
    if (pi <? pp)%Z then
      assert (negb (pi =? UINT64_MAX)%Z) ;;
      l ← swap_items (pq_items q) (i / 2) i;
      let q := pq_set_items q l in
      q ← (if decide (i / 2 = 1) then
             p ← item_priority (pq_items q) 1;
             Ret (priority_queue_update_highest_priority q p)
           else Ret q);
      percolate_up_loop fuel q (i / 2)
    else Ret q
  end.

Definition priority_queue_percolate_up (q : pq) : outcome pq :=
  assert (pq_accessible q) ;;
  if decide (pq_size q = 1) then
    p ← item_priority (pq_items q) 1;
    Ret (priority_queue_update_highest_priority q p)
  else percolate_up_loop (S (pq_size q)) q (pq_size q).

Definition priority_queue_find_smallest_child (q : pq) (parent_index : nat) : outcome nat :=
  assert (bool_decide (1 <= parent_index /\ parent_index <= pq_size q)) ;;
  assert (pq_accessible q) ;;
  let left_child_index := 2 * parent_index in
  let right_child_index := 2 * parent_index + 1 in
  left ← pq_item (pq_items q) left_child_index;
  assert (bool_decide (is_Some left)) ;;
  if decide (pq_size q < right_child_index) then Ret left_child_index else
  pl ← item_priority (pq_items q) left_child_index;
  pr ← item_priority (pq_items q) right_child_index;
  if (pl <? pr)%Z then Ret left_child_index else Ret right_child_index.

(** The loop of [priority_queue_percolate_down], from [parent_index]. *)
Fixpoint percolate_down_loop (fuel : nat) (q : pq) (parent_index : nat) : outcome pq :=
  match fuel with
  | 0 => Stop Fuel
  | S fuel =>
    let left_child_index := 2 * parent_index in
    if decide (2 <= left_child_index /\ left_child_index <= pq_size q) then
      smallest_child_index ← priority_queue_find_smallest_child q parent_index;
      pp ← item_priority (pq_items q) parent_index;
      pc ← item_priority (pq_items q) smallest_child_index;
      if (pp <=? pc)%Z then Ret q else
      l ← swap_items (pq_items q) smallest_child_index parent_index;
      percolate_down_loop fuel (pq_set_items q l) smallest_child_index
    else Ret q
  end.

Definition priority_queue_percolate_down (listener : bool) (q : pq) (parent_index : nat)
  : outcome pq :=
  assert (pq_accessible q) ;;
  assert (negb listener) ;;
  q ← percolate_down_loop (S (pq_size q)) q parent_index;
  if decide (parent_index = 1) then
    empty ← priority_queue_is_empty q;
    if (empty : bool) then Ret (priority_queue_update_highest_priority q UINT64_MAX) else
    p ← item_priority (pq_items q) 1;
    Ret (priority_queue_update_highest_priority q p)
  else Ret q.

(** [items[i] = pq_items[size]; pq_items[size--] = NULL;], in both removals. *)
Definition replace_with_last (q : pq) (i : nat) : outcome pq :=
  last ← pq_item (pq_items q) (pq_size q);
  l ← pq_store (pq_items q) i last;
  l ← pq_store l (pq_size q) None;
  Ret (pq_set_size (pq_set_items q l) (pq_size q - 1)).

(** Returns the code, the element written to [*dequeued_element] if any, and
    the queue. *)
Definition priority_queue_dequeue_if_earlier_nolock (listener : bool) (q : pq)
  (target_deadline : Z) : outcome (Z * option A * pq) :=
  assert (negb listener) ;;
  assert (pq_accessible q) ;;
  empty ← priority_queue_is_empty q;
  if (empty : bool) || (target_deadline <=? highest_priority q)%Z
  then Ret ((- ENOENT)%Z, None, q) else
  top ← pq_item (pq_items q) 1;
  q ← replace_with_last q 1;
  q ← priority_queue_percolate_down listener q 1;
  Ret (0%Z, top, q).

(** Run [body] between [lock_lock] and [lock_unlock] of the queue's own lock;
    [t0] and [t1] are the two cycle counts read. *)
Definition with_queue_lock {R} (t0 t1 : Z) (q : pq) (body : pq -> outcome (R * pq))
  : outcome (R * pq) :=
  '(lk, node) ← lock_lock (pq_lock q) lock_node_zero t0;
  '(r, q) ← body (pq_set_lock q lk);
  '(lk, _) ← lock_unlock (pq_lock q) node t1;
  Ret (r, pq_set_lock q lk).

Definition priority_queue_dequeue_if_earlier (listener : bool) (t0 t1 : Z) (q : pq)
  (target_deadline : Z) : outcome (Z * option A * pq) :=
  with_queue_lock t0 t1 q
    (fun q => priority_queue_dequeue_if_earlier_nolock listener q target_deadline).

Definition priority_queue_initialize (cap : nat) (locked : bool) : pq :=
  {| pq_use_lock := locked;
     pq_lock := lock_init;
     highest_priority := UINT64_MAX;
     pq_size := 0;
     pq_capacity := cap;
     pq_items := replicate (cap + 1) None |}.

(** [realloc] to the doubled pq_capacity; [None] is a failed allocation.  The
    grown cells have indeterminate content, given by [fresh]. *)
Definition priority_queue_grow_nolock (fresh : nat -> option A) (alloc_ok : bool) (q : pq)
  : option pq :=
  let cap := if decide (pq_capacity q = 0) then 1 else 2 * pq_capacity q in
  if alloc_ok then
    Some (mk_pq (pq_use_lock q) (pq_lock q) (highest_priority q) (pq_size q) cap
            (pq_items q ++ (fresh <$> seq (length (pq_items q)) (cap + 1 - length (pq_items q)))))
  else None.

Definition priority_queue_length_nolock (q : pq) : outcome nat :=
  assert (pq_accessible q) ;; Ret (pq_size q).

Definition priority_queue_length (t0 t1 : Z) (q : pq) : outcome (nat * pq) :=
  with_queue_lock t0 t1 q (fun q => n ← priority_queue_length_nolock q; Ret (n, q)).

Definition priority_queue_enqueue_nolock (q : pq) (value : A) : outcome (Z * pq) :=
  assert (pq_accessible q) ;;
  '(rc, q) ← priority_queue_append q value;
  if (rc =? - ENOSPC)%Z then Ret ((- ENOSPC)%Z, q) else
  q ← priority_queue_percolate_up q;
  Ret (0%Z, q).

Definition priority_queue_enqueue (t0 t1 : Z) (q : pq) (value : A) : outcome (Z * pq) :=
  with_queue_lock t0 t1 q (fun q => priority_queue_enqueue_nolock q value).

(** The scan of [priority_queue_delete_nolock] from index [i], [n] cells left. *)
Fixpoint delete_scan (listener : bool) (n : nat) (q : pq) (i : nat) (value : A)
  : outcome (Z * pq) :=
  match n with
  | 0 => Ret ((-1)%Z, q)
  | S n =>
    x ← pq_item (pq_items q) i;
    if decide (x = Some value) then
      q ← replace_with_last q i;
      q ← priority_queue_percolate_down listener q i;
      Ret (0%Z, q)
    else delete_scan listener n q (S i) value
  end.

Definition priority_queue_delete_nolock (listener : bool) (q : pq) (value : A)
  : outcome (Z * pq) :=
  assert (pq_accessible q) ;;
  delete_scan listener (pq_size q) q 1 value.

Definition priority_queue_delete (listener : bool) (t0 t1 : Z) (q : pq) (value : A)
  : outcome (Z * pq) :=
  with_queue_lock t0 t1 q (fun q => priority_queue_delete_nolock listener q value).

Definition priority_queue_dequeue (listener : bool) (t0 t1 : Z) (q : pq)
  : outcome (Z * option A * pq) :=
  priority_queue_dequeue_if_earlier listener t0 t1 q UINT64_MAX.

Definition priority_queue_dequeue_nolock (listener : bool) (q : pq)
  : outcome (Z * option A * pq) :=
  priority_queue_dequeue_if_earlier_nolock listener q UINT64_MAX.

Definition priority_queue_top_nolock (q : pq) : outcome (Z * option A) :=
  assert (pq_accessible q) ;;
  empty ← priority_queue_is_empty q;
  if (empty : bool) then Ret ((- ENOENT)%Z, None) else
  top ← pq_item (pq_items q) 1;
  Ret (0%Z, top).

Definition priority_queue_top (t0 t1 : Z) (q : pq) : outcome (Z * option A * pq) :=
  with_queue_lock t0 t1 q (fun q => r ← priority_queue_top_nolock q; Ret (r, q)).
End priority_queue.
