(* ===== verification/HeapTheory.v ===== *)
(** * HeapTheory: 1-based binary heaps over a priority function

    The order reasoning behind [priority_queue.h], separated from arrays: a
    heap of [n] nodes is a function from indices to priorities, node [j]'s
    parent is [j / 2].  [up_inv] and [down_inv] are the invariants of the two
    percolation loops: the heap order holds everywhere except at the edge the
    loop is repairing, and the neighbours of that edge are already ordered with
    each other. *)

From Stdlib Require Import ZArith Lia.
From S2P Require Import Prelude.
Local Open Scope nat_scope.

Definition is_heap (p : nat -> Z) (n : nat) : Prop :=
  forall j, 2 <= j <= n -> (p (j / 2)%nat <= p j)%Z.

Definition up_inv (p : nat -> Z) (n i : nat) : Prop :=
  (forall j, 2 <= j <= n -> j <> i -> (p (j / 2)%nat <= p j)%Z)
  /\ (forall j, 2 <= j <= n -> j / 2 = i -> 2 <= i -> (p (i / 2)%nat <= p j)%Z).

Definition down_inv (p : nat -> Z) (n i : nat) : Prop :=
  (forall j, 2 <= j <= n -> j / 2 <> i -> (p (j / 2)%nat <= p j)%Z)
  /\ (forall j, 2 <= j <= n -> j / 2 = i -> 2 <= i -> (p (i / 2)%nat <= p j)%Z).

(** The priorities after two nodes were exchanged. *)
Definition swapf (p : nat -> Z) (i j k : nat) : Z :=
  if decide (k = j) then p i else if decide (k = i) then p j else p k.

Ltac swapf_cases :=
  unfold swapf in *;
  repeat match goal with
  | |- context [decide ?P] => destruct (decide P)
  end.

Lemma up_inv_done p n i :
  up_inv p n i -> (i / 2 = 0 \/ (p (i / 2)%nat <= p i)%Z) -> is_heap p n.
Proof.
  intros [H1 H2] Hi j Hj. destruct (decide (j = i)) as [->|Hne]; [|auto].
  destruct Hi as [Hi|Hi]; [|done].
  apply Nat.div_small_iff in Hi; lia.
Qed.

Lemma up_inv_step p n i :
  2 <= i <= n -> up_inv p n i -> (p i < p (i / 2)%nat)%Z ->
  up_inv (swapf p (i / 2) i) n (i / 2).
Proof.
  intros Hi [H1 H2] Hlt.
  assert (Hlt2 : i / 2 < i) by (apply Nat.div_lt; lia).
  assert (Hge1 : 1 <= i / 2) by (apply Nat.div_le_lower_bound; lia).
  split.
  - intros j Hj Hne.
    assert (Hj2 : j / 2 < j) by (apply Nat.div_lt; lia).
    pose proof (H1 j Hj) as H1j. pose proof (H2 j Hj) as H2j.
    unfold swapf.
    destruct (decide (j / 2 = i)) as [E|E].
    { rewrite decide_False by lia. rewrite decide_False by lia. apply H2j; lia. }
    destruct (decide (j / 2 = i / 2)) as [E'|E'].
    { destruct (decide (j = i)) as [->|Hji]; [lia|].
      rewrite decide_False by lia. rewrite E' in H1j. specialize (H1j Hji). lia. }
    destruct (decide (j = i)) as [->|Hji]; [lia|].
    rewrite decide_False by lia. auto.
  - intros j Hj Hji Hi2.
    assert (Hj2 : j / 2 < j) by (apply Nat.div_lt; lia).
    assert (Hpi : i / 2 / 2 < i / 2) by (apply Nat.div_lt; lia).
    assert (Hpar : (p (i / 2 / 2)%nat <= p (i / 2)%nat)%Z) by (apply H1; lia).
    swapf_cases; subst; try lia.
    pose proof (H1 j Hj ltac:(lia)) as H1j. rewrite Hji in H1j. lia.
Qed.

Lemma down_inv_done p n i :
  down_inv p n i ->
  (forall j, 2 <= j <= n -> j / 2 = i -> (p i <= p j)%Z) -> is_heap p n.
Proof.
  intros [H1 H2] Hi j Hj.
  destruct (decide (j / 2 = i)) as [E|Hne]; [rewrite E; auto | auto].
Qed.

(** [c] is the smallest child of [i]: exchange and go on at [c]. *)
Lemma down_inv_step p n i c :
  1 <= i -> 2 <= c <= n -> c / 2 = i -> down_inv p n i ->
  (forall j, 2 <= j <= n -> j / 2 = i -> (p c <= p j)%Z) ->
  (p c < p i)%Z ->
  down_inv (swapf p c i) n c.
Proof.
  intros Hi Hc Hci [H1 H2] Hmin Hlt.
  assert (Hlt2 : c / 2 < c) by (apply Nat.div_lt; lia).
  split.
  - intros j Hj Hne.
    assert (Hj2 : j / 2 < j) by (apply Nat.div_lt; lia).
    pose proof (H1 j Hj) as H1j. pose proof (Hmin j Hj) as Hmj. pose proof (H2 c Hc) as H2c.
    swapf_cases; subst; try lia; auto.
    (* [j = i]: the new value at [i] against [i]'s parent *)
    all: try (apply H2c; lia).
    all: try (apply H1j; lia).
  - intros j Hj Hjc Hc2.
    assert (Hj2 : j / 2 < j) by (apply Nat.div_lt; lia).
    pose proof (H1 j Hj) as H1j.
    swapf_cases; subst; try lia; auto.
Qed.

(** The children of [i] within [n] are [2 * i] and [2 * i + 1]. *)
Lemma children i j : j / 2 = i -> j = 2 * i \/ j = 2 * i + 1.
Proof. intros <-. pose proof (Nat.div_mod_eq j 2). pose proof (Nat.mod_upper_bound j 2). lia. Qed.

(** The root of a heap is its minimum. *)
Lemma heap_root_min p n : is_heap p n -> forall j, 1 <= j <= n -> (p 1%nat <= p j)%Z.
Proof.
  intros Hh j. induction j as [j IH] using (well_founded_induction Nat.lt_wf_0). intros Hj.
  destruct (decide (j = 1)) as [->|Hne]; [lia|].
  assert (j / 2 < j) by (apply Nat.div_lt; lia).
  assert (1 <= j / 2) by (apply Nat.div_le_lower_bound; lia).
  specialize (IH (j / 2) ltac:(lia) ltac:(lia)). specialize (Hh j ltac:(lia)). lia.
Qed.

(** Dropping the last node of a heap and overwriting node [i] with it leaves
    the downward invariant, provided the moved node is not below [i]'s parent.
    For the root there is no parent and the condition is void. *)
Lemma down_inv_replace p q n i :
  is_heap p (S n) -> 1 <= i <= n ->
  (forall k, 1 <= k <= n -> k <> i -> q k = p k) ->
  q i = p (S n) ->
  (2 <= i -> (p (i / 2)%nat <= p (S n))%Z) ->
  down_inv q n i.
Proof.
  intros Hh Hi Hq Hqi Hpar. split.
  - intros j Hj Hne.
    assert (j / 2 < j) by (apply Nat.div_lt; lia).
    assert (1 <= j / 2) by (apply Nat.div_le_lower_bound; lia).
    rewrite (Hq (j / 2)) by lia.
    destruct (decide (j = i)) as [->|Hji]; [rewrite Hqi; apply Hpar; lia|].
    rewrite Hq by lia. apply Hh. lia.
  - intros j Hj Hji Hi2.
    assert (i / 2 < i) by (apply Nat.div_lt; lia).
    assert (1 <= i / 2) by (apply Nat.div_le_lower_bound; lia).
    assert (j / 2 < j) by (apply Nat.div_lt; lia).
    rewrite (Hq (i / 2)), (Hq j) by lia.
    transitivity (p i); [apply Hh; lia|]. rewrite <- Hji. apply Hh. lia.
Qed.

Lemma up_inv_append p q n :
  is_heap p n -> (forall k, 1 <= k <= n -> q k = p k) -> up_inv q (S n) (S n).
Proof.
  intros Hh Hq. split.
  - intros j Hj Hne.
    assert (j / 2 < j) by (apply Nat.div_lt; lia).
    assert (1 <= j / 2) by (apply Nat.div_le_lower_bound; lia).
    rewrite !Hq by lia. apply Hh. lia.
  - intros j Hj Hji Hi2. assert (j / 2 < j) by (apply Nat.div_lt; lia). lia.
Qed.
