(* ===== verification/PriorityQueueSpec.v ===== *)
(** * PriorityQueueSpec: the priority queue implements a bag with extract-min

    The abstract view of a queue is the bag of its elements.  [pq_repr q bag]
    says that [q] is a well-formed heap with a correct memoized minimum whose
    elements are [bag] up to order.  Enqueue, dequeue, top and peek refine the
    bag operations; delete refines removal of one occurrence but keeps the heap
    order only when the last element is not below the parent of the hole, and
    [delete_breaks_heap] exhibits a queue where it does not. *)

From Stdlib Require Import ZArith Lia Sorting.Sorted.
From S2P Require Import Prelude Lock PriorityQueue HeapTheory.
Local Open Scope nat_scope.

Section spec.
Context {L : Type} `{SpinLock L} {A : Type} `{EqDecision A}.
Context (prio : A -> Z).
Abbreviation pq := (priority_queue L A).
Implicit Types q : pq.

(** The priority stored at an index, as a total function. *)
Definition prio_at (l : list (option A)) (i : nat) : Z :=
  match l !! i with Some (Some a) => prio a | _ => 0%Z end.

(** The used cells and the elements of a queue. *)
Definition cells q : list (option A) := take (S (pq_size q)) (pq_items q).
Definition contents q : list A := live (cells q).

Record pq_wf q : Prop := {
  wf_length : length (pq_items q) = S (pq_capacity q);
  wf_size : pq_size q <= pq_capacity q;
  wf_zero : pq_items q !! 0 = Some None;
  wf_used : forall i, 1 <= i <= pq_size q -> exists a, pq_items q !! i = Some (Some a);
}.

Definition pq_heap q : Prop := is_heap (prio_at (pq_items q)) (pq_size q).

Definition pq_memo q : Prop :=
  highest_priority q = if decide (pq_size q = 0) then UINT64_MAX else prio_at (pq_items q) 1.

Definition pq_repr q (bag : list A) : Prop :=
  pq_wf q /\ pq_heap q /\ pq_memo q /\ contents q ≡ₚ bag.

(** The same without the heap order, which a deletion may lose. *)
Definition pq_bag q (bag : list A) : Prop :=
  pq_wf q /\ pq_memo q /\ contents q ≡ₚ bag.

Lemma pq_repr_bag q bag : pq_repr q bag <-> pq_bag q bag /\ pq_heap q.
Proof. unfold pq_repr, pq_bag. tauto. Qed.

(** Everything but the array and the memo is unchanged. *)
Definition same_frame q q' : Prop :=
  pq_use_lock q' = pq_use_lock q /\ pq_lock q' = pq_lock q
  /\ pq_size q' = pq_size q /\ pq_capacity q' = pq_capacity q.

Lemma same_frame_accessible q q' : same_frame q q' -> pq_accessible q' = pq_accessible q.
Proof. intros (E1 & E2 & _). unfold pq_accessible. by rewrite E1, E2. Qed.

Lemma same_frame_trans q1 q2 q3 : same_frame q1 q2 -> same_frame q2 q3 -> same_frame q1 q3.
Proof. unfold same_frame. intuition congruence. Qed.

(** What the loops establish about the queue they return. *)
Definition kept q q' : Prop :=
  same_frame q q' /\ pq_wf q' /\ contents q' ≡ₚ contents q.

(** ** Reading and exchanging cells *)

Lemma prio_at_Some l i a : l !! i = Some (Some a) -> prio_at l i = prio a.
Proof. intros E. unfold prio_at. by rewrite E. Qed.

Lemma item_priority_ok l i a :
  l !! i = Some (Some a) -> item_priority prio l i = Ret (prio_at l i).
Proof. intros E. unfold item_priority, pq_item, prio_at. by rewrite E. Qed.

Lemma item_priority_wf q i :
  pq_wf q -> 1 <= i <= pq_size q ->
  item_priority prio (pq_items q) i = Ret (prio_at (pq_items q) i).
Proof. intros W Hi. destruct (wf_used q W i Hi) as [a E]. by eapply item_priority_ok. Qed.

(** Execute the read of the priority at index [i] of the queue [W] is about. *)
Local Ltac read_priority W i :=
  let Ep := fresh "Ep" in
  pose proof (item_priority_wf _ i W ltac:(cbn; lia)) as Ep;
  cbn in Ep; rewrite Ep; clear Ep; cbn.

Lemma prio_at_exchange l i j x y k :
  l !! i = Some x -> l !! j = Some y ->
  prio_at (exchange l i j x y) k = swapf (prio_at l) i j k.
Proof.
  intros Hi Hj. unfold prio_at, swapf. rewrite (lookup_exchange _ _ _ x y) by done.
  repeat case_decide; subst; by rewrite ?Hi, ?Hj.
Qed.

(** Exchanging two used cells of a well-formed queue. *)
Lemma swap_items_ok q i j :
  pq_wf q -> 1 <= i <= pq_size q -> 1 <= j <= pq_size q ->
  exists l, swap_items (pq_items q) i j = Ret l
    /\ kept q (pq_set_items q l)
    /\ (forall k, prio_at l k = swapf (prio_at (pq_items q)) i j k)
    /\ (forall k, k <> i -> k <> j -> l !! k = pq_items q !! k).
Proof.
  intros W Hi Hj.
  destruct (wf_used q W i Hi) as [a Ea]. destruct (wf_used q W j Hj) as [b Eb].
  exists (exchange (pq_items q) i j (Some a) (Some b)). split; [|split; [|split]].
  - unfold swap_items, pq_item. by rewrite Ea, Eb.
  - split; [by repeat split|].
    destruct W as [W1 W2 W3 W4]. split; [split; cbn; [by rewrite length_exchange | done | |]|].
    + rewrite (lookup_exchange _ _ _ (Some a) (Some b)) by done.
      rewrite !decide_False by lia. done.
    + intros k Hk. rewrite (lookup_exchange _ _ _ (Some a) (Some b)) by done.
      repeat case_decide; eauto.
    + unfold contents, cells. cbn. apply live_permutation.
      unfold exchange. rewrite !take_insert_lt by lia.
      apply exchange_permutation; rewrite lookup_take_lt by lia; done.
  - intros k. by apply prio_at_exchange.
  - intros k Hki Hkj. rewrite (lookup_exchange _ _ _ (Some a) (Some b)) by done.
    by rewrite !decide_False.
Qed.

Lemma is_heap_ext p p' n : (forall k, p k = p' k) -> is_heap p n -> is_heap p' n.
Proof. intros E Hh j Hj. rewrite <- !E. auto. Qed.

Lemma up_inv_ext p p' n i : (forall k, p k = p' k) -> up_inv p n i -> up_inv p' n i.
Proof. intros E [H1 H2]. split; intros; rewrite <- !E; auto. Qed.

Lemma down_inv_ext p p' n i : (forall k, p k = p' k) -> down_inv p n i -> down_inv p' n i.
Proof. intros E [H1 H2]. split; intros; rewrite <- !E; auto. Qed.

(** ** Percolating up *)

Hypothesis prio_u64 : forall a, (0 <= prio a <= UINT64_MAX)%Z.

Lemma prio_at_u64 l i : (0 <= prio_at l i <= UINT64_MAX)%Z.
Proof. unfold prio_at. repeat case_match; try apply prio_u64; unfold UINT64_MAX; lia. Qed.

Lemma pq_wf_set_highest q p : pq_wf q -> pq_wf (pq_set_highest q p).
Proof. by intros []; split. Qed.

Lemma kept_refl q : pq_wf q -> kept q q.
Proof. intros W. by repeat split; try apply W. Qed.

Lemma kept_trans q q1 q' : kept q q1 -> kept q1 q' -> kept q q'.
Proof.
  intros (F & _ & C) (F' & W' & C'). split; [by eapply same_frame_trans|].
  split; [done|]. by rewrite C'.
Qed.

Lemma kept_set_highest q q' p : kept q q' -> kept q (pq_set_highest q' p).
Proof. intros (F & W & C). split; [done|]. split; [by apply pq_wf_set_highest | done]. Qed.

Lemma percolate_up_loop_ok fuel q i :
  i < fuel -> 1 <= i <= pq_size q -> pq_wf q ->
  highest_priority q = prio_at (pq_items q) 1 ->
  exists q', percolate_up_loop prio fuel q i = Ret q' /\ kept q q'
    /\ highest_priority q' = prio_at (pq_items q') 1
    /\ (up_inv (prio_at (pq_items q)) (pq_size q) i -> pq_heap q')
    /\ ((prio_at (pq_items q) 1 <= prio_at (pq_items q) i)%Z -> highest_priority q' = highest_priority q).
Proof.
  revert q i. induction fuel as [|fuel IH]; intros q i Hf Hi W M; [lia|]. cbn.
  destruct (decide (i / 2 = 0)) as [E|E].
  { exists q. split; [done|]. split; [by apply kept_refl|]. split; [done|]. split; [|done].
    intros U. eapply up_inv_done; eauto. }
  assert (Hi2 : 2 <= i) by (destruct i as [|[|i]]; [done | done | lia]).
  assert (Hlt : i / 2 < i) by (apply Nat.div_lt; lia).
  assert (Hge : 1 <= i / 2) by lia.
  rewrite !item_priority_wf by (done || lia). cbn.
  destruct (Z.ltb_spec (prio_at (pq_items q) i) (prio_at (pq_items q) (i / 2))) as [Hp|Hp].
  2: { exists q. split; [done|]. split; [by apply kept_refl|]. split; [done|]. split; [|done].
       intros U. eapply up_inv_done; eauto. }
  pose proof (prio_at_u64 (pq_items q) (i / 2)) as Hu.
  rewrite assert_true by (apply negb_true_iff, Z.eqb_neq; lia). cbn.
  destruct (swap_items_ok q (i / 2) i W) as (l & -> & K & P' & _); [lia..|].
  pose proof K as (_ & W' & _). cbn.
  assert (U' : up_inv (prio_at (pq_items q)) (pq_size q) i -> up_inv (prio_at l) (pq_size q) (i / 2)).
  { intros U. eapply up_inv_ext; [intros k; symmetry; apply P'|]. apply up_inv_step; [lia | done | done]. }
  destruct (decide (i / 2 = 1)) as [E1|E1].
  - read_priority W' 1.
    edestruct (IH (pq_set_highest (pq_set_items q l) (prio_at l 1)) (i / 2)) as (q' & Hq' & R & M' & Hh & _);
      [lia | cbn; lia | by apply pq_wf_set_highest | done |].
    exists q'. split; [done|]. split; [|split; [done | split; [eauto | rewrite E1 in Hp; lia]]].
    eapply kept_trans; [|exact R]. by apply kept_set_highest.
  - edestruct (IH (pq_set_items q l) (i / 2)) as (q' & Hq' & R & M' & Hh & Hk);
      [lia | cbn; lia | done | |].
    { cbn. rewrite M, P'. unfold swapf. rewrite !decide_False by lia. done. }
    exists q'. split; [done|]. split; [by eapply kept_trans | split; [done | split; [eauto|]]].
    intros Hle. rewrite Hk; [done|]. cbn. rewrite !P'. unfold swapf. repeat case_decide; lia.
Qed.

(** ** Appending and enqueueing *)

Lemma append_cells q v :
  pq_wf q -> pq_size q < pq_capacity q ->
  let q' := pq_set_size (pq_set_items q (<[S (pq_size q):=Some v]> (pq_items q))) (S (pq_size q)) in
  pq_wf q' /\ contents q' ≡ₚ v :: contents q
  /\ (forall k, 1 <= k <= pq_size q -> prio_at (pq_items q') k = prio_at (pq_items q) k).
Proof.
  intros [W1 W2 W3 W4] Hs q'. split; [split|split]; cbn.
  - by rewrite length_insert.
  - lia.
  - rewrite list_lookup_insert_ne by lia. done.
  - intros i Hi. destruct (decide (i = S (pq_size q))) as [->|Hne].
    + exists v. apply list_lookup_insert_eq. lia.
    + rewrite list_lookup_insert_ne by lia. apply W4. lia.
  - unfold contents, cells. cbn [pq_size pq_items q' pq_set_size pq_set_items].
    rewrite (take_S_r _ (S (pq_size q)) (Some v)) by (apply list_lookup_insert_eq; lia).
    rewrite take_insert_ge by lia. unfold live. rewrite omap_app. cbn.
    by rewrite Permutation_app_comm.
  - intros k Hk. unfold prio_at. cbn. rewrite list_lookup_insert_ne by lia. done.
Qed.

Lemma heap_set_highest q p : pq_heap (pq_set_highest q p) <-> pq_heap q.
Proof. done. Qed.

(** Enqueue with room left: the bag gains exactly the new element. *)
Lemma enqueue_bag q bag v :
  pq_bag q bag -> pq_accessible q = true -> pq_size q < pq_capacity q ->
  exists q', priority_queue_enqueue_nolock prio q v = Ret (0%Z, q')
    /\ pq_bag q' (v :: bag) /\ (pq_heap q -> pq_heap q') /\ pq_size q' = S (pq_size q)
    /\ pq_use_lock q' = pq_use_lock q /\ pq_lock q' = pq_lock q /\ pq_capacity q' = pq_capacity q
    /\ (0 < pq_size q -> (highest_priority q <= prio v)%Z -> highest_priority q' = highest_priority q).
Proof.
  intros (W & M & C) Hacc Hs.
  destruct (append_cells q v W Hs) as (W' & C' & P').
  unfold priority_queue_enqueue_nolock, priority_queue_append. rewrite Hacc. cbn.
  rewrite decide_False by lia. rewrite decide_False by lia.
  unfold pq_store. rewrite decide_True by (rewrite (wf_length q W); lia). cbn.
  unfold priority_queue_percolate_up.
  set (q1 := pq_set_size _ _) in *. change (pq_accessible q1) with (pq_accessible q). rewrite Hacc.
  cbn -[percolate_up_loop]. destruct (decide (S (pq_size q) = 1)) as [E1|E1].
  - read_priority W' 1.
    eexists. split; [done|]. split; [|split; [|do 4 (split; [done|]); lia]].
    + split; [by apply pq_wf_set_highest|]. split.
      * unfold pq_memo. by rewrite decide_False by (cbn; lia).
      * etransitivity; [exact C'|]. by rewrite C.
    + intros _ j Hj. cbn in Hj. lia.
  - destruct (percolate_up_loop_ok (S (S (pq_size q))) q1 (S (pq_size q)))
      as (q' & Hq' & (F & W2 & C2) & M2 & H2 & H3); [lia | cbn; lia | done | |].
    + cbn. rewrite M. rewrite decide_False by lia. symmetry. apply P'. lia.
    + exists q'. rewrite Hq'. cbn. split; [done|]. destruct F as (F1 & F2 & F3 & F4).
      split; [|rewrite F1, F2, F3, F4; split; [|do 4 (split; [done|]); intros Hpos Hle; apply H3]].
      * split; [done|]. split; [|by rewrite C2, C', C].
        unfold pq_memo. rewrite decide_False by (rewrite F3; cbn; lia). done.
      * intros Hh. apply H2. eapply up_inv_append; [exact Hh|]. intros k Hk. by apply P'.
      * rewrite P' by lia. unfold pq_memo in M. rewrite M, decide_False in Hle by lia.
        rewrite (prio_at_Some _ (S (pq_size q)) v); [done|]. cbn. apply list_lookup_insert_eq.
        rewrite (wf_length q W). lia.
Qed.

Lemma enqueue_nolock_ok q bag v :
  pq_repr q bag -> pq_accessible q = true -> pq_size q < pq_capacity q ->
  exists q', priority_queue_enqueue_nolock prio q v = Ret (0%Z, q')
    /\ pq_repr q' (v :: bag) /\ pq_size q' = S (pq_size q)
    /\ pq_use_lock q' = pq_use_lock q /\ pq_lock q' = pq_lock q /\ pq_capacity q' = pq_capacity q.
Proof.
  rewrite pq_repr_bag. intros [B Hh] Hacc Hs.
  destruct (enqueue_bag q bag v B Hacc Hs) as (q' & E & B' & Hh' & R).
  exists q'. rewrite pq_repr_bag. destruct R as (? & ? & ? & ? & _). auto 10.
Qed.

(** Enqueue on a full queue: -ENOSPC and no change. *)
Lemma enqueue_nolock_full q v :
  pq_accessible q = true -> pq_size q = pq_capacity q ->
  priority_queue_enqueue_nolock prio q v = Ret ((- ENOSPC)%Z, q).
Proof.
  intros Hacc Hs. unfold priority_queue_enqueue_nolock, priority_queue_append.
  rewrite Hacc. cbn. rewrite decide_False by lia. by rewrite decide_True.
Qed.

(** ** Percolating down *)

Lemma find_smallest_child_ok q i :
  pq_wf q -> pq_accessible q = true -> 1 <= i -> 2 * i <= pq_size q ->
  exists c, priority_queue_find_smallest_child prio q i = Ret c
    /\ 2 <= c <= pq_size q /\ c / 2 = i
    /\ forall j, 2 <= j <= pq_size q -> j / 2 = i ->
         (prio_at (pq_items q) c <= prio_at (pq_items q) j)%Z.
Proof.
  intros W Hacc Hi Hn.
  assert (E2 : 2 * i / 2 = i) by (rewrite Nat.mul_comm; apply Nat.div_mul; lia).
  assert (E3 : (2 * i + 1) / 2 = i).
  { rewrite Nat.mul_comm, Nat.div_add_l by lia. change (1 / 2) with 0. lia. }
  destruct (wf_used q W (2 * i) ltac:(lia)) as [a Ea].
  unfold priority_queue_find_smallest_child.
  rewrite (bool_decide_eq_true_2 (1 <= i /\ i <= pq_size q)) by lia. cbn -[Nat.mul].
  rewrite Hacc. cbn -[Nat.mul]. unfold pq_item at 1. rewrite Ea. cbn -[Nat.mul].
  destruct (decide (pq_size q < 2 * i + 1)) as [Hr|Hr].
  { exists (2 * i). repeat split; [lia | lia | done |].
    intros j Hj Hji. destruct (children i j Hji); subst j; lia. }
  rewrite !item_priority_wf by (done || lia). cbn -[Nat.mul].
  destruct (Z.ltb_spec (prio_at (pq_items q) (2 * i)) (prio_at (pq_items q) (2 * i + 1))).
  - exists (2 * i). repeat split; [lia | lia | done |].
    intros j Hj Hji. destruct (children i j Hji); subst j; lia.
  - exists (2 * i + 1). repeat split; [lia | lia | done |].
    intros j Hj Hji. destruct (children i j Hji); subst j; lia.
Qed.

Lemma percolate_down_loop_ok fuel q i :
  1 <= i -> 0 < fuel -> pq_size q + 1 < fuel + i -> pq_wf q -> pq_accessible q = true ->
  exists q', percolate_down_loop prio fuel q i = Ret q' /\ kept q q'
    /\ highest_priority q' = highest_priority q
    /\ (forall k, k < i -> pq_items q' !! k = pq_items q !! k)
    /\ (down_inv (prio_at (pq_items q)) (pq_size q) i -> pq_heap q').
Proof.
  revert q i. induction fuel as [|fuel IH]; intros q i Hi Hf0 Hf W Hacc.
  { lia. }
  cbn -[Nat.mul].
  destruct (decide (2 <= 2 * i /\ 2 * i <= pq_size q)) as [[_ Hn]|Hn].
  2: { exists q. split; [done|]. split; [by apply kept_refl|]. split; [done|]. split; [done|].
       intros D. eapply down_inv_done; [done|]. intros j Hj Hji.
       destruct (children i j Hji); lia. }
  destruct (find_smallest_child_ok q i W Hacc Hi Hn) as (c & -> & Hc & Hci & Hmin). cbn.
  rewrite !item_priority_wf by (done || lia). cbn.
  destruct (Z.leb_spec (prio_at (pq_items q) i) (prio_at (pq_items q) c)) as [Hp|Hp].
  { exists q. split; [done|]. split; [by apply kept_refl|]. split; [done|]. split; [done|].
    intros D. eapply down_inv_done; [done|]. intros j Hj Hji. specialize (Hmin j Hj Hji). lia. }
  assert (i < c) by (subst i; apply Nat.div_lt; lia).
  destruct (swap_items_ok q c i W) as (l & -> & K & P' & Same); [lia..|].
  pose proof K as (_ & W' & _). cbn.
  destruct (IH (pq_set_items q l) c) as (q' & Hq' & K' & M' & Pre & Hh);
    [lia | lia | cbn; lia | done | done |].
  exists q'. split; [done|]. split; [by eapply kept_trans|]. split; [done|]. split.
  - intros k Hk. rewrite Pre by lia. cbn. apply Same; lia.
  - intros D. apply Hh. cbn. eapply down_inv_ext; [intros k; symmetry; apply P'|].
    by apply down_inv_step.
Qed.

(** Percolating down from [i] keeps the elements, leaves the memo right, and
    restores the heap order when only the edges below [i] were broken. *)
Lemma percolate_down_ok q i :
  1 <= i -> pq_wf q -> pq_accessible q = true ->
  (i <> 1 -> pq_memo q) ->
  exists q', priority_queue_percolate_down prio false q i = Ret q' /\ kept q q'
    /\ pq_memo q' /\ (down_inv (prio_at (pq_items q)) (pq_size q) i -> pq_heap q').
Proof.
  intros Hi W Hacc M0. unfold priority_queue_percolate_down. rewrite Hacc.
  cbn -[percolate_down_loop].
  destruct (percolate_down_loop_ok (S (pq_size q)) q i) as (q1 & -> & K & M & Pre & Hh);
    [done | lia | lia | done..|].
  cbn. pose proof K as (F & W1 & C1). pose proof F as (_ & _ & Fs & _).
  destruct (decide (i = 1)) as [E|E].
  2: { exists q1. split; [done|]. split; [done|]. split; [|done].
       specialize (M0 E). unfold pq_memo, prio_at in *. rewrite M, M0, Fs.
       by rewrite (Pre 1) by lia. }
  unfold priority_queue_is_empty. rewrite (same_frame_accessible _ _ F), Hacc. cbn.
  destruct (decide (pq_size q1 = 0)) as [E0|E0].
  - rewrite bool_decide_eq_true_2 by done. eexists. split; [done|].
    split; [by apply kept_set_highest|]. split; [|done].
    unfold pq_memo. by rewrite decide_True.
  - rewrite bool_decide_eq_false_2 by done. read_priority W1 1.
    eexists. split; [done|]. split; [by apply kept_set_highest|]. split; [|done].
    unfold pq_memo. by rewrite decide_False.
Qed.

(** ** Moving the last element into a hole *)

Definition fill_hole q (i : nat) (z : A) : pq :=
  pq_set_size (pq_set_items q (<[pq_size q:=None]> (<[i:=Some z]> (pq_items q)))) (pq_size q - 1).

Lemma fill_hole_ok q i a z :
  pq_wf q -> 1 <= i <= pq_size q ->
  pq_items q !! i = Some (Some a) -> pq_items q !! pq_size q = Some (Some z) ->
  pq_wf (fill_hole q i z) /\ contents q ≡ₚ a :: contents (fill_hole q i z)
  /\ (forall k, 1 <= k <= pq_size q - 1 -> k <> i ->
        prio_at (pq_items (fill_hole q i z)) k = prio_at (pq_items q) k)
  /\ (i <= pq_size q - 1 ->
        prio_at (pq_items (fill_hole q i z)) i = prio_at (pq_items q) (pq_size q)).
Proof.
  intros [W1 W2 W3 W4] Hi Ea Ez. split; [split|split; [|split]]; cbn.
  - by rewrite !length_insert.
  - lia.
  - rewrite !list_lookup_insert_ne by lia. done.
  - intros k Hk. rewrite list_lookup_insert_ne by lia.
    destruct (decide (k = i)) as [->|Hne].
    + exists z. apply list_lookup_insert_eq. lia.
    + rewrite list_lookup_insert_ne by lia. apply W4. lia.
  - unfold contents, cells, fill_hole. cbn [pq_size pq_items pq_set_size pq_set_items].
    replace (S (pq_size q - 1)) with (pq_size q) by lia.
    rewrite take_insert_ge by lia. rewrite (take_S_r _ (pq_size q) (Some z)) by done.
    unfold live. rewrite omap_app. cbn. rewrite Permutation_app_comm. cbn.
    destruct (decide (i = pq_size q)) as [->|Hne].
    + rewrite take_insert_ge by lia. by simplify_eq.
    + rewrite take_insert_lt by lia.
      pose proof (insert_middle_permutation (take (pq_size q) (pq_items q)) i (Some z) (Some a)) as P.
      rewrite lookup_take_lt in P by lia. specialize (P Ea).
      apply live_permutation in P. exact P.
  - intros k Hk Hne. unfold prio_at, fill_hole. cbn. by rewrite !list_lookup_insert_ne by lia.
  - intros Hlt. unfold prio_at, fill_hole. cbn. rewrite list_lookup_insert_ne by lia.
    rewrite list_lookup_insert_eq by lia. by rewrite Ez.
Qed.

(** Filling the hole at [i] and percolating down from it. *)
Lemma remove_at_ok q i a z :
  pq_wf q -> (i <> 1 -> pq_memo q) -> pq_accessible q = true -> 1 <= i <= pq_size q ->
  pq_items q !! i = Some (Some a) -> pq_items q !! pq_size q = Some (Some z) ->
  exists q1 q', replace_with_last q i = Ret q1
    /\ priority_queue_percolate_down prio false q1 i = Ret q'
    /\ contents q ≡ₚ a :: contents q' /\ pq_wf q' /\ pq_memo q'
    /\ pq_size q' = pq_size q - 1 /\ pq_capacity q' = pq_capacity q
    /\ pq_use_lock q' = pq_use_lock q /\ pq_lock q' = pq_lock q
    /\ (pq_heap q -> (2 <= i -> (prio_at (pq_items q) (i / 2) <= prio z)%Z) -> pq_heap q').
Proof.
  intros W M Hacc Hi Ea Ez.
  destruct (fill_hole_ok q i a z W Hi Ea Ez) as (W1 & C1 & P1 & P1i).
  pose proof (wf_length q W) as Hl. pose proof (wf_size q W) as Hc.
  exists (fill_hole q i z).
  destruct (percolate_down_ok (fill_hole q i z) i) as (q' & Hq' & (F & W' & C') & M' & Hh);
    [lia | done | done | |].
  { intros Hne. specialize (M Hne). unfold pq_memo in *. cbn [pq_size fill_hole pq_set_size].
    change (highest_priority (fill_hole q i z)) with (highest_priority q). rewrite M.
    rewrite !decide_False by lia. symmetry. apply P1; lia. }
  destruct F as (F1 & F2 & F3 & F4).
  exists q'. split.
  { unfold replace_with_last, pq_item. rewrite Ez. cbn. unfold pq_store.
    rewrite decide_True by lia. cbn. rewrite decide_True by (rewrite length_insert; lia). done. }
  split; [done|]. split; [by rewrite C1, C'|].
  split; [done|]. split; [done|]. split; [done|]. split; [done|]. split; [done|]. split; [done|].
  intros Hheap Hpar. apply Hh. cbn [pq_size fill_hole pq_set_size].
  destruct (decide (i = pq_size q)) as [->|Hne].
  - (* the last element itself: no node is left below the hole *)
    split.
    + intros j Hj Hji. assert (j / 2 < j) by (apply Nat.div_lt; lia).
      assert (1 <= j / 2) by (apply Nat.div_le_lower_bound; lia).
      rewrite !P1 by lia. apply Hheap. lia.
    + intros j Hj Hji. assert (j / 2 < j) by (apply Nat.div_lt; lia). lia.
  - apply (down_inv_replace (prio_at (pq_items q))); [| lia | | |].
    + replace (S (pq_size q - 1)) with (pq_size q) by lia. done.
    + intros k Hk Hki. by apply P1.
    + replace (S (pq_size q - 1)) with (pq_size q) by lia. apply P1i. lia.
    + intros Hi2. replace (S (pq_size q - 1)) with (pq_size q) by lia.
      rewrite (prio_at_Some _ (pq_size q) z Ez). auto.
Qed.

(** ** Elements and the minimum *)

Lemma elem_of_contents q a :
  a ∈ contents q -> exists i, 1 <= i <= pq_size q /\ pq_items q !! i = Some (Some a) \/
                            pq_items q !! 0 = Some (Some a).
Proof.
  unfold contents, cells. rewrite elem_of_live, list_elem_of_lookup. intros [i Hi].
  apply lookup_take_Some in Hi as [Hi Hlt]. exists i.
  destruct i; [by right | left; split; [lia | done]].
Qed.

Lemma contents_lookup q i a :
  1 <= i <= pq_size q -> pq_items q !! i = Some (Some a) -> a ∈ contents q.
Proof.
  intros Hi E. unfold contents, cells. apply (lookup_live _ i).
  by rewrite lookup_take_lt by lia.
Qed.

Lemma root_is_min q a :
  pq_wf q -> pq_heap q -> a ∈ contents q -> (prio_at (pq_items q) 1 <= prio a)%Z.
Proof.
  intros W Hh Ha. apply elem_of_contents in Ha as (i & [(Hi & E)|E]).
  - rewrite <- (prio_at_Some _ i a E). by apply (heap_root_min _ (pq_size q)).
  - rewrite (wf_zero q W) in E. done.
Qed.

Lemma contents_nil q : pq_wf q -> pq_size q = 0 -> contents q = [].
Proof.
  intros W E. unfold contents, cells. rewrite E.
  pose proof (wf_zero q W) as Z0. destruct (pq_items q) as [|x l]; [done|].
  cbn in Z0. by simplify_eq.
Qed.

(** The elements a non-empty queue holds at its root and at its end. *)
Lemma wf_ends q :
  pq_wf q -> pq_size q <> 0 ->
  exists a z, pq_items q !! 1 = Some (Some a) /\ pq_items q !! pq_size q = Some (Some z).
Proof.
  intros W Hs. destruct (wf_used q W 1) as [a Ea]; [lia|].
  destruct (wf_used q W (pq_size q)) as [z Ez]; [lia|]. eauto.
Qed.

(** ** Dequeue *)

Lemma dequeue_nolock_ok q bag d :
  pq_repr q bag -> pq_accessible q = true ->
  (exists a bag' q',
     priority_queue_dequeue_if_earlier_nolock prio false q d = Ret (0%Z, Some a, q')
     /\ bag ≡ₚ a :: bag' /\ pq_repr q' bag'
     /\ (forall b, b ∈ bag -> (prio a <= prio b)%Z) /\ (prio a < d)%Z
     /\ pq_use_lock q' = pq_use_lock q /\ pq_lock q' = pq_lock q /\ pq_capacity q' = pq_capacity q)
  \/ (priority_queue_dequeue_if_earlier_nolock prio false q d = Ret ((- ENOENT)%Z, None, q)
      /\ forall b, b ∈ bag -> (d <= prio b)%Z).
Proof.
  intros (W & Hh & M & C) Hacc.
  unfold priority_queue_dequeue_if_earlier_nolock, priority_queue_is_empty.
  rewrite Hacc. cbn. destruct (decide (pq_size q = 0)) as [E0|E0].
  { right. rewrite bool_decide_eq_true_2 by done. split; [done|].
    rewrite contents_nil in C by done. intros b Hb. rewrite <- C in Hb.
    by apply not_elem_of_nil in Hb. }
  rewrite bool_decide_eq_false_2 by done. cbn.
  destruct (wf_ends q W E0) as (a & z & Ea & Ez).
  assert (HM : highest_priority q = prio a).
  { unfold pq_memo in M. rewrite decide_False in M by done.
    by rewrite M, (prio_at_Some _ 1 a Ea). }
  assert (Hmin : forall b, b ∈ bag -> (prio a <= prio b)%Z).
  { intros b Hb. rewrite <- C in Hb. rewrite <- (prio_at_Some _ 1 a Ea).
    by apply root_is_min. }
  rewrite HM. destruct (Z.leb_spec d (prio a)) as [Hd|Hd].
  { right. split; [done|]. intros b Hb. specialize (Hmin b Hb). lia. }
  left. unfold pq_item at 1. rewrite Ea. cbn.
  destruct (remove_at_ok q 1 a z) as (q1 & q' & -> & Hq' & C' & W' & M' & S' & Cap & U & Lk & Hh');
    [done | done | done | lia | done | done |].
  cbn. rewrite Hq'. cbn. exists a, (contents q'), q'.
  split; [done|]. split; [by rewrite <- C, C'|]. split; [|by repeat split].
  split; [done|]. split; [apply Hh'; [done | lia]|]. by split.
Qed.

(** ** Delete *)

(** The scan stops at the first occurrence, or runs off the end.  The memoized
    minimum matters only if the element is not at the root: its priority may
    have changed since it was queued. *)
Lemma delete_scan_ok q v n i :
  pq_wf q -> (pq_items q !! 1 <> Some (Some v) -> pq_memo q) -> pq_accessible q = true ->
  1 <= i -> i + n = S (pq_size q) -> (1 < i -> pq_items q !! 1 <> Some (Some v)) ->
  (exists k q', i <= k <= pq_size q /\ pq_items q !! k = Some (Some v)
     /\ delete_scan prio false n q i v = Ret (0%Z, q')
     /\ contents q ≡ₚ v :: contents q' /\ pq_wf q' /\ pq_memo q'
     /\ pq_size q' = pq_size q - 1 /\ pq_capacity q' = pq_capacity q
     /\ pq_use_lock q' = pq_use_lock q /\ pq_lock q' = pq_lock q
     /\ (pq_heap q -> (2 <= k -> (prio_at (pq_items q) (k / 2) <= prio_at (pq_items q) (pq_size q))%Z)
         -> pq_heap q'))
  \/ (delete_scan prio false n q i v = Ret ((-1)%Z, q)
      /\ forall k, i <= k <= pq_size q -> pq_items q !! k <> Some (Some v)).
Proof.
  intros W M Hacc. revert i. induction n as [|n IH]; intros i Hi Hn Hr.
  { right. split; [done|]. lia. }
  cbn. destruct (wf_used q W i) as [x Ex]; [lia|]. assert (Ei : pq_item (pq_items q) i = Ret (Some x)) by (unfold pq_item; by rewrite Ex).
  rewrite Ei. cbn. destruct (decide (Some x = Some v)) as [E|E].
  - injection E as ->. left. destruct (wf_used q W (pq_size q)) as [z Ez]; [lia|].
    destruct (remove_at_ok q i v z)
      as (q1 & q' & -> & Hq' & C' & W' & M' & S' & Cap & U & Lk & Hh');
      [done | intros Hne; apply M, Hr; lia | done | lia | done | done |].
    exists i, q'. cbn. rewrite Hq'. cbn.
    rewrite (prio_at_Some _ (pq_size q) z Ez). by repeat split; try lia; try apply W'.
  - destruct (IH (S i)) as [(k & q' & Hk & R)|[R Hno]]; [lia | lia | | |].
    { intros _. destruct (decide (i = 1)) as [->|Hne]; [rewrite Ex; congruence | apply Hr; lia]. }
    + left. exists k, q'. split; [lia | done].
    + right. split; [done|]. intros k Hk.
      destruct (decide (k = i)) as [->|Hne]; [rewrite Ex; congruence | apply Hno; lia].
Qed.

(** ** Initialization, growth, peek and top *)

Lemma initialize_ok cap locked :
  pq_repr (priority_queue_initialize (L := L) cap locked) [].
Proof.
  split; [split|split; [|split]]; cbn.
  - rewrite length_replicate. lia.
  - lia.
  - by rewrite lookup_replicate_2 by lia.
  - lia.
  - intros j Hj. cbn in Hj. lia.
  - done.
  - unfold contents, cells. cbn. replace (cap + 1) with (S cap) by lia. done.
Qed.

Lemma grow_bag fresh q bag :
  pq_bag q bag ->
  exists q', priority_queue_grow_nolock fresh true q = Some q'
    /\ pq_bag q' bag /\ (pq_heap q -> pq_heap q') /\ pq_size q' = pq_size q /\ pq_size q' < pq_capacity q'
    /\ pq_use_lock q' = pq_use_lock q /\ pq_lock q' = pq_lock q.
Proof.
  intros (W & M & C). pose proof W as [W1 W2 W3 W4].
  unfold priority_queue_grow_nolock.
  set (cap := if decide (pq_capacity q = 0) then 1 else 2 * pq_capacity q).
  assert (Hcap : pq_capacity q < cap) by (subst cap; case_decide; lia).
  set (extra := fresh <$> _).
  assert (Hle : length extra = cap + 1 - length (pq_items q))
    by (subst extra; by rewrite length_fmap, length_seq).
  assert (Hlk : forall k, k <= pq_size q -> (pq_items q ++ extra) !! k = pq_items q !! k)
    by (intros k Hk; apply lookup_app_l; lia).
  assert (Hpr : forall k, k <= pq_size q -> prio_at (pq_items q ++ extra) k = prio_at (pq_items q) k)
    by (intros k Hk; unfold prio_at; by rewrite Hlk).
  eexists. split; [done|]. split; [|split; [|cbn; repeat split; lia]].
  split; [split|split]; cbn.
  - rewrite length_app. lia.
  - lia.
  - rewrite Hlk by lia. done.
  - intros i Hi. rewrite Hlk by lia. auto.
  - unfold pq_memo in *. cbn. rewrite M. destruct (decide (pq_size q = 0)); [done|].
    by rewrite Hpr by lia.
  - unfold contents, cells in *. cbn [pq_size pq_items]. rewrite take_app_le by lia. done.
  - intros Hh j Hj. cbn in Hj. assert (j / 2 < j) by (apply Nat.div_lt; lia).
    cbn. rewrite !Hpr by lia. by apply Hh.
Qed.

Lemma grow_ok fresh q bag :
  pq_repr q bag ->
  exists q', priority_queue_grow_nolock fresh true q = Some q'
    /\ pq_repr q' bag /\ pq_size q' = pq_size q /\ pq_size q' < pq_capacity q'
    /\ pq_use_lock q' = pq_use_lock q /\ pq_lock q' = pq_lock q.
Proof.
  rewrite pq_repr_bag. intros [B Hh]. destruct (grow_bag fresh q bag B) as (q' & E & B' & Hh' & R).
  exists q'. rewrite pq_repr_bag. auto.
Qed.

Lemma top_bag q bag :
  pq_bag q bag -> pq_accessible q = true ->
  (exists a, priority_queue_top_nolock q = Ret (0%Z, Some a) /\ a ∈ bag
     /\ priority_queue_peek q = prio a /\ prio a = prio_at (pq_items q) 1)
  \/ (bag = [] /\ priority_queue_top_nolock q = Ret ((- ENOENT)%Z, None)
      /\ priority_queue_peek q = UINT64_MAX).
Proof.
  intros (W & M & C) Hacc. unfold priority_queue_top_nolock, priority_queue_is_empty.
  rewrite Hacc. cbn. unfold priority_queue_peek. rewrite M.
  destruct (decide (pq_size q = 0)) as [E0|E0].
  - right. rewrite bool_decide_eq_true_2 by done. split; [|done].
    apply Permutation_nil. by rewrite <- C, contents_nil.
  - left. rewrite bool_decide_eq_false_2 by done. cbn.
    destruct (wf_ends q W E0) as (a & z & Ea & Ez). unfold pq_item. rewrite Ea. cbn.
    exists a. split; [done|]. split; [rewrite <- C; eapply contents_lookup; [|done]; lia|].
    by rewrite (prio_at_Some _ 1 a Ea).
Qed.

Lemma top_nolock_ok q bag :
  pq_repr q bag -> pq_accessible q = true ->
  (exists a, priority_queue_top_nolock q = Ret (0%Z, Some a) /\ a ∈ bag
     /\ priority_queue_peek q = prio a /\ forall b, b ∈ bag -> (prio a <= prio b)%Z)
  \/ (bag = [] /\ priority_queue_top_nolock q = Ret ((- ENOENT)%Z, None)
      /\ priority_queue_peek q = UINT64_MAX).
Proof.
  rewrite pq_repr_bag. intros [B Hh] Hacc.
  destruct (top_bag q bag B Hacc) as [(a & E & Ha & Ep & Er)|R]; [left|by right].
  exists a. split; [done|]. split; [done|]. split; [done|]. intros b Hb.
  destruct B as (W & _ & C). rewrite <- C in Hb. rewrite Er. by apply root_is_min.
Qed.

Lemma peek_le q bag b : pq_repr q bag -> b ∈ bag -> (priority_queue_peek q <= prio b)%Z.
Proof.
  intros (W & Hh & M & C) Hb. unfold priority_queue_peek. rewrite M. rewrite <- C in Hb.
  case_decide as E0; [by rewrite contents_nil in Hb; [apply not_elem_of_nil in Hb|..]|].
  by apply root_is_min.
Qed.

(** The peek compares like the elements. *)
Lemma peek_lt q bag d :
  pq_repr q bag -> (d <= UINT64_MAX)%Z -> (priority_queue_peek q < d)%Z <-> exists b, b ∈ bag /\ (prio b < d)%Z.
Proof.
  intros R Hd. split.
  - pose proof R as (W & _ & M & C). unfold priority_queue_peek. rewrite M. case_decide as E0; [lia|]. intros Hlt.
    destruct (wf_ends q W E0) as (a & z & Ea & _). rewrite (prio_at_Some _ 1 a Ea) in Hlt. exists a. split; [|done].
    rewrite <- C. eapply contents_lookup; [|done]. lia.
  - intros (b & Hb & Hlt). pose proof (peek_le q bag b R Hb). lia.
Qed.

(** Deleting a pointer from a queue of which only the contents are known, and
    which is in order up to the priority of that pointer. *)
Lemma delete_stale q bag v :
  pq_wf q -> contents q ≡ₚ bag -> (pq_items q !! 1 <> Some (Some v) -> pq_memo q) -> pq_accessible q = true ->
  if decide (v ∈ bag)
  then exists q' bag', priority_queue_delete_nolock prio false q v = Ret (0%Z, q')
    /\ bag ≡ₚ v :: bag' /\ pq_bag q' bag'
    /\ pq_use_lock q' = pq_use_lock q /\ pq_lock q' = pq_lock q /\ pq_capacity q' = pq_capacity q
  else priority_queue_delete_nolock prio false q v = Ret ((-1)%Z, q).
Proof.
  intros W C M Hacc. unfold priority_queue_delete_nolock. rewrite Hacc. ostep.
  destruct (delete_scan_ok q v (pq_size q) 1 W M Hacc) as [(k & q' & Hk & Ek & E & C' & W' & M' & R)|[E Hno]];
    [lia | lia | lia | |].
  - assert (Hin : v ∈ bag) by (rewrite <- C; by eapply contents_lookup).
    rewrite decide_True by done. exists q', (contents q'). split; [done|].
    split; [by rewrite <- C, C'|]. split; [done|]. destruct R as (_ & Rc & Ru & Rl & _). done.
  - rewrite decide_False; [done|]. rewrite <- C. intros Hin.
    apply elem_of_contents in Hin as (i & [(Hi & Ei)|Ei]); [by apply (Hno i)|].
    rewrite (wf_zero q W) in Ei. done.
Qed.

Lemma delete_bag q bag v :
  pq_bag q bag -> pq_accessible q = true ->
  if decide (v ∈ bag)
  then exists q' bag', priority_queue_delete_nolock prio false q v = Ret (0%Z, q')
    /\ bag ≡ₚ v :: bag' /\ pq_bag q' bag'
    /\ pq_use_lock q' = pq_use_lock q /\ pq_lock q' = pq_lock q /\ pq_capacity q' = pq_capacity q
  else priority_queue_delete_nolock prio false q v = Ret ((-1)%Z, q).
Proof. intros (W & M & C). by apply delete_stale. Qed.

(** Deleting the element at the top keeps the order. *)
Lemma delete_top q bag v rc q' :
  pq_bag q bag -> pq_heap q -> pq_accessible q = true -> priority_queue_top_nolock q = Ret (0%Z, Some v) ->
  priority_queue_delete_nolock prio false q v = Ret (rc, q') -> pq_heap q'.
Proof.
  intros (W & M & C) Hh Hacc Ht Hd. unfold priority_queue_top_nolock in Ht. rewrite Hacc in Ht. revert Ht. ostep.
  unfold priority_queue_is_empty, priority_queue_delete_nolock in *. rewrite Hacc in Hd |- *. revert Hd. ostep. intros Hd.
  case_bool_decide as Hs; [done|]. intros Ht. inv_outcome. destruct (pq_size q) as [|n] eqn:En; [done|].
  cbn [delete_scan] in Hd. rewrite E in Hd. revert Hd. ostep. rewrite decide_True by done.
  destruct (wf_used q W (pq_size q)) as [z Ez]; [lia|].
  assert (E1 : pq_items q !! 1 = Some (Some v)) by (unfold pq_item in E; by apply deref_Ret_inv in E).
  destruct (remove_at_ok q 1 v z W) as (q1 & q2 & -> & Hq' & _ & _ & _ & _ & _ & _ & _ & Hh'); [done|done|lia|done|done|].
  ostep. rewrite Hq'. ostep. intros [= _ <-]. apply Hh'; [done|lia].
Qed.

Lemma bag_size q bag : pq_bag q bag -> pq_size q = length bag.
Proof.
  intros ([W1 W2 W3 W4] & _ & C). rewrite <- C. unfold contents, cells.
  destruct (pq_items q) as [|x l] eqn:El; [done|]. cbn in W3. injection W3 as ->. cbn.
  assert (Hall : forall n, n <= pq_size q -> length (live (take n l)) = n).
  { induction n as [|n IH]; intros Hn; [done|].
    destruct (W4 (S n)) as [a Ea]; [lia|]. cbn in Ea.
    rewrite (take_S_r _ _ _ Ea). unfold live. rewrite omap_app, length_app. cbn.
    fold (live (take n l)). rewrite IH; lia. }
  symmetry. by apply Hall.
Qed.

Lemma repr_size q bag : pq_repr q bag -> pq_size q = length bag.
Proof. rewrite pq_repr_bag. intros [B _]. by apply bag_size. Qed.

Lemma repr_perm q bag bag' : pq_repr q bag -> bag ≡ₚ bag' -> pq_repr q bag'.
Proof. intros (W & Hh & M & C) P. repeat split; try apply W; try done. by rewrite C. Qed.

(** ** Under the queue's own lock *)

Lemma repr_set_lock q l bag : pq_repr q bag -> pq_repr (pq_set_lock q l) bag.
Proof. intros (W & Hh & M & C). repeat split; try apply W; done. Qed.

Lemma accessible_locked q l : lock_is_locked l = true -> pq_accessible (pq_set_lock q l) = true.
Proof. intros E. unfold pq_accessible. cbn. rewrite E. apply orb_true_r. Qed.

(** A body that leaves the lock alone runs between lock and unlock, and the
    lock is free again afterwards. *)
Lemma with_queue_lock_ok {R} t0 t1 q (body : pq -> outcome (R * pq)) (P : R -> pq -> Prop) :
  lock_is_locked (pq_lock q) = false -> (0 < t0)%Z -> (t0 < t1)%Z -> (t1 <= UINT64_MAX)%Z ->
  (forall l, lock_is_locked l = true ->
     exists r q', body (pq_set_lock q l) = Ret (r, q') /\ pq_lock q' = l /\ P r q') ->
  exists r q' l', with_queue_lock t0 t1 q body = Ret (r, pq_set_lock q' l') /\ P r q'
    /\ lock_is_locked l' = false.
Proof.
  intros Hu H0 H1 H2 Hbody. unfold with_queue_lock.
  destruct (lock_lock_ok (pq_lock q) t0 Hu) as (l & -> & Hl & _ & _). cbn.
  destruct (Hbody l Hl) as (r & q' & -> & El & HP). cbn. rewrite El.
  destruct (lock_unlock_ok l t0 t1 Hl H0 H1 H2) as (l' & -> & Hl' & _ & _). cbn.
  by exists r, q', l'.
Qed.

(** Repeated dequeue, the way a worker empties a queue. *)
Fixpoint drain (fuel : nat) (q : pq) : outcome (list A * pq) :=
  match fuel with
  | 0 => Stop Fuel
  | S fuel =>
    '(rc, e, q) ← priority_queue_dequeue_nolock prio false q;
    match e with
    | None => Ret ([], q)
    | Some a => '(l, q) ← drain fuel q; Ret (a :: l, q)
    end
  end.

Lemma drain_S fuel q :
  drain (S fuel) q =
    ('(rc, e, q) ← priority_queue_dequeue_nolock prio false q;
     match e with
     | None => Ret ([], q)
     | Some a => '(l, q) ← drain fuel q; Ret (a :: l, q)
     end).
Proof. done. Qed.

Lemma drain_ok bag q :
  pq_repr q bag -> pq_accessible q = true -> (forall a, a ∈ bag -> (prio a < UINT64_MAX)%Z) ->
  exists out q', drain (S (length bag)) q = Ret (out, q')
    /\ out ≡ₚ bag /\ StronglySorted (fun a b => (prio a <= prio b)%Z) out.
Proof.
  remember (length bag) as n eqn:En. revert bag q En.
  induction n as [|n IH]; intros bag q En Hq Hacc Hlt;
    rewrite drain_S; unfold priority_queue_dequeue_nolock;
    destruct (dequeue_nolock_ok q bag UINT64_MAX Hq Hacc)
      as [(a & bag' & q' & -> & Hp & Hq' & Hmin & Ha & U & Lk & _)|[-> Hno]];
    cbn -[drain].
  - rewrite Hp in En. done.
  - destruct bag; [|done]. exists [], q. by repeat constructor.
  - rewrite Hp in En. injection En as En.
    assert (Hacc' : pq_accessible q' = true) by (unfold pq_accessible in *; by rewrite U, Lk).
    destruct (IH bag' q' En Hq' Hacc') as (out & q2 & Hd & Hp2 & Hs).
    { intros b Hb. apply Hlt. rewrite Hp. by right. }
    rewrite Hd. cbn.
    exists (a :: out), q2. split; [done|]. split; [by rewrite Hp2, Hp|].
    constructor; [done|]. apply Forall_forall. intros b Hb. apply Hmin.
    rewrite Hp. right. rewrite <- Hp2. by apply list_elem_of_In.
  - exfalso. destruct bag as [|b bag]; [done|].
    assert (Hb : b ∈ b :: bag) by constructor.
    specialize (Hno b Hb). specialize (Hlt b Hb). lia.
Qed.

(** ** The contract *)

(** C13: enqueueing refines insertion into the bag.  With room left the call
    returns 0 and the new queue is a well-formed heap with a correct memoized
    minimum that holds exactly one more element; on a full queue it returns
    -ENOSPC and changes nothing. *)
Theorem pq_enqueue_spec q bag v :
  pq_repr q bag -> pq_accessible q = true ->
  if decide (pq_size q = pq_capacity q)
  then priority_queue_enqueue_nolock prio q v = Ret ((- ENOSPC)%Z, q)
  else exists q', priority_queue_enqueue_nolock prio q v = Ret (0%Z, q')
                  /\ pq_repr q' (v :: bag) /\ pq_capacity q' = pq_capacity q.
Proof.
  intros Hq Hacc. pose proof Hq as (W & _). pose proof (wf_size q W).
  case_decide; [by apply enqueue_nolock_full|].
  destruct (enqueue_nolock_ok q bag v) as (q' & ? & ? & _ & _ & _ & ?); eauto; lia.
Qed.

(** C12: dequeueing refines extract-min with a deadline.  If some element is
    strictly earlier than the target, the call returns 0 with an element no
    other one precedes, which is earlier than the target, and the queue keeps
    exactly the rest; otherwise it returns -ENOENT and changes nothing. *)
Theorem pq_dequeue_spec q bag target :
  pq_repr q bag -> pq_accessible q = true ->
  (exists a bag' q',
     priority_queue_dequeue_if_earlier_nolock prio false q target = Ret (0%Z, Some a, q')
     /\ bag ≡ₚ a :: bag' /\ pq_repr q' bag'
     /\ (forall b, b ∈ bag -> (prio a <= prio b)%Z) /\ (prio a < target)%Z)
  \/ (priority_queue_dequeue_if_earlier_nolock prio false q target
        = Ret ((- ENOENT)%Z, None, q)
      /\ forall b, b ∈ bag -> (target <= prio b)%Z).
Proof.
  intros Hq Hacc. destruct (dequeue_nolock_ok q bag target Hq Hacc)
    as [(a & bag' & q' & ? & ? & ? & ? & ? & _)|?]; [left | by right].
  by exists a, bag', q'.
Qed.

(** Emptying a queue by repeated dequeue terminates and yields all its
    elements in order of priority (earliest deadline first), as long as no
    element has the priority UINT64_MAX that the code reserves for "empty". *)
Theorem pq_drain_sorted q bag :
  pq_repr q bag -> pq_accessible q = true -> (forall a, a ∈ bag -> (prio a < UINT64_MAX)%Z) ->
  exists out q', drain (S (length bag)) q = Ret (out, q')
    /\ out ≡ₚ bag /\ StronglySorted (fun a b => (prio a <= prio b)%Z) out.
Proof. apply drain_ok. Qed.

(** Deleting a pointer removes exactly one occurrence of it and keeps the
    array and the memoized minimum well-formed; if it is absent the call
    returns -1 and changes nothing.  The heap order survives when the element
    moved into the hole is not earlier than the parent of the hole. *)
Theorem pq_delete_spec q bag v :
  pq_repr q bag -> pq_accessible q = true ->
  (exists k q' bag', 1 <= k <= pq_size q /\ pq_items q !! k = Some (Some v)
     /\ priority_queue_delete_nolock prio false q v = Ret (0%Z, q')
     /\ bag ≡ₚ v :: bag' /\ contents q' ≡ₚ bag' /\ pq_wf q' /\ pq_memo q'
     /\ ((2 <= k -> (prio_at (pq_items q) (k / 2) <= prio_at (pq_items q) (pq_size q))%Z)
         -> pq_repr q' bag'))
  \/ ((v ∉ bag) /\ priority_queue_delete_nolock prio false q v = Ret ((-1)%Z, q)).
Proof.
  intros (W & Hh & M & C) Hacc. unfold priority_queue_delete_nolock. rewrite Hacc. cbn.
  destruct (delete_scan_ok q v (pq_size q) 1 W (fun _ => M) Hacc ltac:(lia) ltac:(lia) ltac:(lia))
    as [(k & q' & Hk & Ek & -> & C' & W' & M' & _ & _ & _ & _ & Hh')|[-> Hno]].
  - left. exists k, q', (contents q'). rewrite <- C. by repeat split; try apply W'; try lia; auto.
  - right. split; [|done]. rewrite <- C. intros Hv.
    apply elem_of_contents in Hv as (i & [(Hi & E)|E]); [by apply (Hno i)|].
    by rewrite (wf_zero q W) in E.
Qed.

(** Peek and top agree with the bag: an empty queue peeks UINT64_MAX and
    tops -ENOENT; otherwise top returns an element of minimal priority and
    peek, read without the lock, is that priority. *)
Theorem pq_top_peek_spec q bag :
  pq_repr q bag -> pq_accessible q = true ->
  (exists a, priority_queue_top_nolock q = Ret (0%Z, Some a) /\ a ∈ bag
     /\ priority_queue_peek q = prio a /\ forall b, b ∈ bag -> (prio a <= prio b)%Z)
  \/ (bag = [] /\ priority_queue_top_nolock q = Ret ((- ENOENT)%Z, None)
      /\ priority_queue_peek q = UINT64_MAX).
Proof. apply top_nolock_ok. Qed.

Lemma locked_dequeue_ok t0 t1 q bag target :
  pq_repr q bag -> lock_is_locked (pq_lock q) = false ->
  (0 < t0)%Z -> (t0 < t1)%Z -> (t1 <= UINT64_MAX)%Z ->
  exists rc e q', priority_queue_dequeue_if_earlier prio false t0 t1 q target = Ret (rc, e, q')
    /\ lock_is_locked (pq_lock q') = false
    /\ match e with
       | Some a => rc = 0%Z /\ (prio a < target)%Z /\ (forall b, b ∈ bag -> (prio a <= prio b)%Z)
                   /\ exists bag', bag ≡ₚ a :: bag' /\ pq_repr q' bag'
       | None => rc = (- ENOENT)%Z /\ pq_repr q' bag /\ forall b, b ∈ bag -> (target <= prio b)%Z
       end.
Proof.
  intros Hq Hu H0 H1 H2. unfold priority_queue_dequeue_if_earlier.
  destruct (with_queue_lock_ok t0 t1 q
    (fun q => priority_queue_dequeue_if_earlier_nolock prio false q target) (fun r q' => match r.2 with
       | Some a => r.1 = 0%Z /\ (prio a < target)%Z /\ (forall b, b ∈ bag -> (prio a <= prio b)%Z)
                   /\ exists bag', bag ≡ₚ a :: bag' /\ pq_repr q' bag'
       | None => r.1 = (- ENOENT)%Z /\ pq_repr q' bag /\ forall b, b ∈ bag -> (target <= prio b)%Z
       end) Hu H0 H1 H2) as (r & q' & l' & -> & HP & Hl').
  { intros l Hl. pose proof (accessible_locked q l Hl) as Hacc.
    destruct (dequeue_nolock_ok (pq_set_lock q l) bag target (repr_set_lock q l bag Hq) Hacc)
      as [(a & bag' & q' & -> & ? & ? & ? & ? & _ & Lk & _)|[-> ?]].
    - exists (0%Z, Some a), q'. split; [done|]. split; [done|]. cbn. eauto 10.
    - exists ((- ENOENT)%Z, None), (pq_set_lock q l). split; [done|]. split; [done|]. cbn.
      split; [done | split; [by apply repr_set_lock | done]]. }
  destruct r as [rc e]. exists rc, e, (pq_set_lock q' l'). split; [done|]. split; [done|].
  cbn in HP. destruct e as [a|].
  - destruct HP as (? & ? & ? & bag' & ? & ?). do 3 (split; [done|]).
    exists bag'. split; [done | by apply repr_set_lock].
  - destruct HP as (? & ? & ?). split; [done | split; [by apply repr_set_lock | done]].
Qed.

Lemma locked_enqueue_ok t0 t1 q bag v :
  pq_repr q bag -> lock_is_locked (pq_lock q) = false ->
  (0 < t0)%Z -> (t0 < t1)%Z -> (t1 <= UINT64_MAX)%Z ->
  exists rc q', priority_queue_enqueue prio t0 t1 q v = Ret (rc, q')
    /\ lock_is_locked (pq_lock q') = false
    /\ ((rc = 0%Z /\ pq_repr q' (v :: bag)) \/ (rc = (- ENOSPC)%Z /\ pq_repr q' bag)).
Proof.
  intros Hq Hu H0 H1 H2. unfold priority_queue_enqueue.
  destruct (with_queue_lock_ok t0 t1 q (fun q => priority_queue_enqueue_nolock prio q v)
    (fun r q' => (r = 0%Z /\ pq_repr q' (v :: bag)) \/ (r = (- ENOSPC)%Z /\ pq_repr q' bag))
    Hu H0 H1 H2) as (r & q' & l' & -> & HP & Hl').
  { intros l Hl. pose proof (accessible_locked q l Hl) as Hacc. pose proof (repr_set_lock q l bag Hq) as Hq'.
    pose proof (wf_size q (proj1 Hq)).
    destruct (decide (pq_size q = pq_capacity q)) as [E|E].
    - rewrite enqueue_nolock_full by done. eexists _, _. split; [done|]. split; [done|]. by right.
    - destruct (enqueue_nolock_ok (pq_set_lock q l) bag v Hq' Hacc) as (q' & -> & ? & _ & _ & Lk & _);
        [cbn; lia|]. exists 0%Z, q'. split; [done|]. split; [done|]. by left. }
  exists r, (pq_set_lock q' l'). split; [done|]. split; [done|].
  destruct HP as [[-> ?]|[-> ?]]; [left | right]; (split; [done | by apply repr_set_lock]).
Qed.

(** The locking dequeue of a shared queue takes the free lock, returns
    what the lock-free one does, and releases the lock. *)
Theorem pq_locked_dequeue_spec t0 t1 q bag target :
  pq_repr q bag -> lock_is_locked (pq_lock q) = false ->
  (0 < t0)%Z -> (t0 < t1)%Z -> (t1 <= UINT64_MAX)%Z ->
  exists rc e q', priority_queue_dequeue_if_earlier prio false t0 t1 q target = Ret (rc, e, q')
    /\ lock_is_locked (pq_lock q') = false
    /\ match e with
       | Some a => rc = 0%Z /\ (prio a < target)%Z /\ (forall b, b ∈ bag -> (prio a <= prio b)%Z)
                   /\ exists bag', bag ≡ₚ a :: bag' /\ pq_repr q' bag'
       | None => rc = (- ENOENT)%Z /\ pq_repr q' bag /\ forall b, b ∈ bag -> (target <= prio b)%Z
       end.
Proof. apply locked_dequeue_ok. Qed.
End spec.

(** ** Concrete queues *)

(** Four cells, three deadlines; the elements are their own 64-bit priority. *)
Definition demo_pq : priority_queue bool Z :=
  mk_pq false lock_init 3 3 4 [None; Some 3%Z; Some 5%Z; Some 4%Z; None].

Lemma demo_repr : pq_repr u64 demo_pq [3; 5; 4]%Z.
Proof.
  split; [split|split; [|split]]; try (cbn; lia); try done.
  - intros [|[|[|[|i]]]] Hi; cbn in *; try lia; eauto.
  - intros [|[|[|[|j]]]] Hj; cbn in Hj; try lia; vm_compute; discriminate.
Qed.

Lemma pq_enqueue_spec_witness :
  exists q', priority_queue_enqueue_nolock u64 demo_pq 1%Z = Ret (0%Z, q')
             /\ pq_repr u64 q' [1; 3; 5; 4]%Z /\ pq_capacity q' = pq_capacity demo_pq.
Proof. exact (pq_enqueue_spec u64 u64_range demo_pq [3; 5; 4]%Z 1%Z demo_repr eq_refl). Defined.

Lemma pq_dequeue_spec_witness :
  exists a bag' q',
    priority_queue_dequeue_if_earlier_nolock u64 false demo_pq 4%Z = Ret (0%Z, Some a, q')
    /\ [3; 5; 4]%Z ≡ₚ a :: bag' /\ pq_repr u64 q' bag'.
Proof.
  destruct (pq_dequeue_spec u64 demo_pq [3; 5; 4]%Z 4%Z demo_repr eq_refl)
    as [(a & bag' & q' & ? & ? & ? & _)|[E _]]; [eauto 10 | vm_compute in E; discriminate E].
Defined.

Lemma pq_drain_sorted_witness :
  exists out q', drain u64 4 demo_pq = Ret (out, q')
    /\ out ≡ₚ [3; 5; 4]%Z /\ StronglySorted (fun a b => (u64 a <= u64 b)%Z) out.
Proof.
  apply (pq_drain_sorted u64 demo_pq [3; 5; 4]%Z demo_repr eq_refl).
  intros a Ha. apply list_elem_of_In in Ha. cbn in Ha.
  destruct Ha as [<-|[<-|[<-|[]]]]; vm_compute; reflexivity.
Defined.

Lemma pq_delete_spec_witness :
  exists q' bag', priority_queue_delete_nolock u64 false demo_pq 5%Z = Ret (0%Z, q')
    /\ [3; 5; 4]%Z ≡ₚ 5%Z :: bag' /\ contents q' ≡ₚ bag'.
Proof.
  destruct (pq_delete_spec u64 demo_pq [3; 5; 4]%Z 5%Z demo_repr eq_refl)
    as [(k & q' & bag' & _ & _ & ? & ? & ? & _)|[_ E]];
    [eauto 10 | vm_compute in E; discriminate E].
Defined.

Lemma pq_top_peek_spec_witness :
  exists a, priority_queue_top_nolock demo_pq = Ret (0%Z, Some a)
            /\ priority_queue_peek demo_pq = u64 a.
Proof.
  destruct (pq_top_peek_spec u64 demo_pq [3; 5; 4]%Z demo_repr eq_refl)
    as [(a & ? & _ & ? & _)|[E _]]; [eauto | discriminate E].
Defined.

Lemma pq_locked_dequeue_spec_witness :
  exists rc e q', priority_queue_dequeue_if_earlier u64 false 10 20 demo_pq 9 = Ret (rc, e, q')
    /\ lock_is_locked (pq_lock q') = false.
Proof.
  destruct (pq_locked_dequeue_spec u64 10 20 demo_pq [3; 5; 4]%Z 9%Z demo_repr)
    as (rc & e & q' & ? & ? & _); [reflexivity | lia | lia | unfold UINT64_MAX; lia | eauto].
Defined.

(** [priority_queue_delete_nolock] does not keep the heap order.  A queue
    filled by seven enqueues, from which one element is then deleted, hands its
    remaining elements out in the order 1, 2, 4, 3, ...: the last array element
    (3) was moved below a parent with a later deadline (5) and only percolated
    down, never up. *)
Theorem pq_delete_breaks_order :
  (q ← (fix fill (l : list Z) (q : priority_queue bool Z) : outcome (priority_queue bool Z) :=
          match l with
          | [] => Ret q
          | v :: l => '(_, q) ← priority_queue_enqueue_nolock u64 q v; fill l q
          end) [2; 5; 4; 7; 6; 1; 3]%Z (priority_queue_initialize 8 false);
   '(rc, q) ← priority_queue_delete_nolock u64 false q 7%Z;
   '(out, _) ← drain u64 7 q;
   Ret (rc, out))
  = Ret (0%Z, [1; 2; 4; 3; 5; 6]%Z).
Proof. vm_compute. reflexivity. Qed.
