(* ===== verification/Deque.v ===== *)
(** * Deque: the work-stealing deque of [runtime/include/deque.h]

    The macro [DEQUE_PROTOTYPE(name, type)] at an element type [A] of pointers.
    [wrk] is the fixed array of [DEQUE_MAX_SZ] cells, zeroed by [memset]: a cell
    that was never written reads as NULL ([None]).  The three operations are
    given twice.  [deque_push], [deque_pop] and [deque_steal] are the C functions
    run without interference.  The relation [step] is the concurrent program the
    runtime executes in its FIFO mode: the listener pushes while any number of
    workers steal, and every access to the shared struct is one atomic step. *)

From Stdlib Require Import ZArith Lia.
From S2P Require Import Prelude.
Local Open Scope Z_scope.

Definition DEQUE_MAX_SZ : Z := 2 ^ 23.

Record deque (A : Type) := mk_deque {
  dq_wrk : gmap Z (option A);
  dq_size : Z;
  dq_top : Z;
  dq_bottom : Z;
}.
Arguments mk_deque {A} _ _ _ _.
Arguments dq_wrk {A} _.
Arguments dq_size {A} _.
Arguments dq_top {A} _.
Arguments dq_bottom {A} _.

Section deque.
Context {A : Type}.
Implicit Types q : deque A.

Definition set_top q (t : Z) : deque A := mk_deque (dq_wrk q) (dq_size q) t (dq_bottom q).
Definition set_bottom q (b : Z) : deque A := mk_deque (dq_wrk q) (dq_size q) (dq_top q) b.

(** [q->dq_wrk[i]], a bounds-checked array access. *)
Definition in_wrk (i : Z) : bool := (0 <=? i) && (i <? DEQUE_MAX_SZ).

Definition wrk_read q (i : Z) : outcome (option A) :=
  if in_wrk i then Ret (default None (dq_wrk q !! i)) else Stop Undefined.

Definition wrk_write q (i : Z) (w : option A) : outcome (deque A) :=
  if in_wrk i then Ret (mk_deque (<[i:=w]> (dq_wrk q)) (dq_size q) (dq_top q) (dq_bottom q))
  else Stop Undefined.

(** [__sync_bool_compare_and_swap] on [bottom] and on [top]. *)
Definition cas_bottom q (old new : Z) : bool * deque A :=
  if dq_bottom q =? old then (true, set_bottom q new) else (false, q).
Definition cas_top q (old new : Z) : bool * deque A :=
  if dq_top q =? old then (true, set_top q new) else (false, q).

Definition deque_init (sz : Z) : outcome (deque A) :=
  if sz =? 0 then Ret (mk_deque ∅ DEQUE_MAX_SZ 0 0) else
  assert (sz <=? DEQUE_MAX_SZ) ;;
  Ret (mk_deque ∅ sz 0 0).

Definition deque_push q (w : option A) : outcome (Z * deque A) :=
  let ct := dq_top q in
  let cb := dq_bottom q in
  if dq_size q - 1 <? cb - ct then Ret (- ENOSPC, q) else
  q ← wrk_write q cb w;
  let '(ok, q) := cas_bottom q cb (cb + 1) in
  assert ok ;;
  Ret (0, q).

(** The third component is what [*w] holds on return when it was written. *)
Definition deque_pop q : outcome (Z * option (option A) * deque A) :=
  let cb := dq_bottom q - 1 in
  let '(ok, q) := cas_bottom q (cb + 1) cb in
  assert ok ;;
  let ct := dq_top q in
  let sz := cb - ct in
  if sz <? 0 then
    let '(ok, q) := cas_bottom q cb ct in
    assert ok ;;
    Ret (- ENOENT, None, q)
  else
  w ← wrk_read q cb;
  if 0 <? sz then Ret (0, Some w, q) else
  let '(ret, q) := cas_top q ct (ct + 1) in
  let '(ok, q) := cas_bottom q cb (ct + 1) in
  assert ok ;;
  if negb ret then Ret (- ENOENT, Some None, q) else
  Ret (0, Some w, q).

Definition deque_steal q : outcome (Z * option (option A) * deque A) :=
  let ct := dq_top q in
  let cb := dq_bottom q in
  if cb <=? ct then Ret (- ENOENT, None, q) else
  w ← wrk_read q ct;
  let '(ok, q) := cas_top q ct (ct + 1) in
  if negb ok then Ret (- EAGAIN, Some w, q) else
  Ret (0, Some w, q).

(** ** The sequential contract: a FIFO queue read through [steal], a stack
    through [pop] *)

(** [q] holds [l], oldest first. *)
Definition deque_repr q (l : list A) : Prop :=
  0 <= dq_top q /\ dq_bottom q = dq_top q + Z.of_nat (length l) /\ dq_bottom q <= DEQUE_MAX_SZ
  /\ forall (i : nat) a, l !! i = Some a -> dq_wrk q !! (dq_top q + Z.of_nat i) = Some (Some a).

Lemma in_wrk_true i : 0 <= i < DEQUE_MAX_SZ -> in_wrk i = true.
Proof. intros. unfold in_wrk. apply andb_true_iff. split; [apply Z.leb_le | apply Z.ltb_lt]; lia. Qed.

Lemma wrk_read_ok q i w :
  0 <= i < DEQUE_MAX_SZ -> dq_wrk q !! i = Some w -> wrk_read q i = Ret w.
Proof. intros Hi E. unfold wrk_read. rewrite in_wrk_true by done. by rewrite E. Qed.

Lemma deque_push_ok q l a :
  deque_repr q l -> Z.of_nat (length l) < dq_size q -> dq_bottom q < DEQUE_MAX_SZ ->
  exists q', deque_push q (Some a) = Ret (0, q') /\ deque_repr q' (l ++ [a])
    /\ dq_top q' = dq_top q /\ dq_size q' = dq_size q.
Proof.
  intros (Ht & Hb & Hm & Hw) Hs Hr. unfold deque_push.
  destruct (Z.ltb_spec (dq_size q - 1) (dq_bottom q - dq_top q)); [lia|].
  unfold wrk_write. rewrite in_wrk_true by lia. cbn. unfold cas_bottom. cbn.
  rewrite Z.eqb_refl. cbn. eexists. split; [done|]. split; [|done].
  split; [done|]. split; [cbn; rewrite length_app; cbn; lia|]. split; [cbn; lia|].
  cbn. intros i b Hi. destruct (decide (i = length l)) as [->|Hne].
  - rewrite lookup_app_r, Nat.sub_diag in Hi by lia. cbn in Hi. simplify_eq.
    rewrite <- Hb. apply lookup_insert_eq.
  - apply lookup_lt_Some in Hi as Hlt. rewrite length_app in Hlt. cbn in Hlt.
    rewrite lookup_app_l in Hi by lia. rewrite lookup_insert_ne by lia. auto.
Qed.

Lemma deque_push_full q l a :
  deque_repr q l -> dq_size q <= Z.of_nat (length l) -> deque_push q (Some a) = Ret (- ENOSPC, q).
Proof.
  intros (Ht & Hb & Hm & Hw) Hs. unfold deque_push.
  destruct (Z.ltb_spec (dq_size q - 1) (dq_bottom q - dq_top q)); [done | lia].
Qed.

Lemma deque_steal_ok q l :
  deque_repr q l ->
  match l with
  | [] => deque_steal q = Ret (- ENOENT, None, q)
  | a :: l' => exists q', deque_steal q = Ret (0, Some (Some a), q') /\ deque_repr q' l'
                 /\ dq_top q' = dq_top q + 1 /\ dq_size q' = dq_size q
  end.
Proof.
  intros (Ht & Hb & Hm & Hw). unfold deque_steal. destruct l as [|a l]; cbn in Hb.
  { destruct (Z.leb_spec (dq_bottom q) (dq_top q)); [done | lia]. }
  destruct (Z.leb_spec (dq_bottom q) (dq_top q)); [lia|].
  specialize (Hw 0%nat a eq_refl) as H0. rewrite Z.add_0_r in H0.
  rewrite (wrk_read_ok q (dq_top q) (Some a)) by (done || lia). cbn.
  unfold cas_top. rewrite Z.eqb_refl. cbn. eexists. split; [done|]. split; [|done].
  split; [cbn; lia|]. split; [cbn; lia|]. split; [done|].
  cbn. intros i b Hi. replace (dq_top q + 1 + Z.of_nat i) with (dq_top q + Z.of_nat (S i)) by lia. by apply Hw.
Qed.

Lemma deque_pop_ok q l a :
  deque_repr q (l ++ [a]) ->
  exists q', deque_pop q = Ret (0, Some (Some a), q') /\ deque_repr q' l.
Proof.
  intros (Ht & Hb & Hm & Hw). rewrite length_app in Hb. cbn in Hb.
  unfold deque_pop, cas_bottom.
  replace (dq_bottom q - 1 + 1) with (dq_bottom q) by lia. rewrite Z.eqb_refl. cbn.
  destruct (Z.ltb_spec (dq_bottom q - 1 - dq_top q) 0); [lia|].
  assert (Ha : dq_wrk q !! (dq_bottom q - 1) = Some (Some a)).
  { replace (dq_bottom q - 1) with (dq_top q + Z.of_nat (length l)) by lia. apply Hw.
    rewrite lookup_app_r, Nat.sub_diag by lia. done. }
  rewrite (wrk_read_ok _ _ (Some a)) by (done || lia). cbn.
  destruct (Z.ltb_spec 0 (dq_bottom q - 1 - dq_top q)) as [Hs|Hs].
  - eexists. split; [done|]. split; [done|]. cbn. split; [lia|]. split; [lia|].
    intros i b Hi. apply Hw. by apply lookup_app_l_Some.
  - assert (Hl : length l = 0%nat) by lia. apply nil_length_inv in Hl. subst l.
    unfold cas_top. cbn. rewrite Z.eqb_refl. cbn. rewrite Z.eqb_refl. cbn.
    eexists. split; [done|]. split; [cbn; lia|]. cbn. split; [lia|]. split; [lia|]. done.
Qed.

Lemma deque_pop_empty q : deque_repr q [] -> deque_pop q = Ret (- ENOENT, None, q).
Proof.
  intros (Ht & Hb & Hm & Hw). cbn in Hb. unfold deque_pop, cas_bottom.
  replace (dq_bottom q - 1 + 1) with (dq_bottom q) by lia. rewrite Z.eqb_refl. cbn.
  destruct (Z.ltb_spec (dq_bottom q - 1 - dq_top q) 0); [|lia].
  rewrite Z.eqb_refl. cbn. f_equal. f_equal. destruct q as [w s t b]; cbn in *.
  unfold set_bottom. cbn. f_equal. lia.
Qed.

(** ** Concurrent pushes and steals

    Program counters hold what the C function has in its locals.  [Faulted]
    records an assertion failure or an out-of-bounds access of the pusher. *)
Inductive push_pc :=
| PushIdle
| PushReadTop (w : A) (ct : Z)
| PushReadBottom (w : A) (ct cb : Z)
| PushWrote (w : A) (cb : Z)
| PushFaulted (f : fault).

Inductive steal_pc :=
| StealIdle
| StealReadTop (ct : Z)
| StealReadBottom (ct cb : Z)
| StealReadItem (ct : Z) (w : option A)
| StealFaulted (f : fault).

(** [pushed] and [stolen] are history: the elements whose push returned 0, and
    the values written by the steals that returned 0, each in order. *)
Record system := mk_system {
  shared : deque A;
  pusher : push_pc;
  stealers : nat -> steal_pc;
  pushed : list A;
  stolen : list (option A);
}.

Definition set_stealer (f : nat -> steal_pc) (t : nat) (pc : steal_pc) : nat -> steal_pc :=
  fun u => if decide (u = t) then pc else f u.

Inductive step : system -> system -> Prop :=
(* ct = q->top *)
| push_read_top q f h s w :
    step (mk_system q PushIdle f h s) (mk_system q (PushReadTop w (dq_top q)) f h s)
(* cb = q->bottom *)
| push_read_bottom q f h s w ct :
    step (mk_system q (PushReadTop w ct) f h s)
         (mk_system q (PushReadBottom w ct (dq_bottom q)) f h s)
(* return -ENOSPC *)
| push_full q f h s w ct cb :
    (dq_size q - 1 <? cb - ct) = true ->
    step (mk_system q (PushReadBottom w ct cb) f h s) (mk_system q PushIdle f h s)
(* q->wrk[cb] = *w *)
| push_write q q' f h s w ct cb :
    (dq_size q - 1 <? cb - ct) = false -> wrk_write q cb (Some w) = Ret q' ->
    step (mk_system q (PushReadBottom w ct cb) f h s) (mk_system q' (PushWrote w cb) f h s)
| push_write_fault q f h s w ct cb e :
    (dq_size q - 1 <? cb - ct) = false -> wrk_write q cb (Some w) = Stop e ->
    step (mk_system q (PushReadBottom w ct cb) f h s) (mk_system q (PushFaulted e) f h s)
(* compare-and-swap of bottom, asserted to succeed *)
| push_publish q q' f h s w cb :
    cas_bottom q cb (cb + 1) = (true, q') ->
    step (mk_system q (PushWrote w cb) f h s) (mk_system q' PushIdle f (h ++ [w]) s)
| push_publish_fault q q' f h s w cb :
    cas_bottom q cb (cb + 1) = (false, q') ->
    step (mk_system q (PushWrote w cb) f h s) (mk_system q' (PushFaulted AssertFail) f h s)
(* ct = deque->top *)
| steal_read_top q p f h s t :
    f t = StealIdle ->
    step (mk_system q p f h s) (mk_system q p (set_stealer f t (StealReadTop (dq_top q))) h s)
(* cb = deque->bottom *)
| steal_read_bottom q p f h s t ct :
    f t = StealReadTop ct ->
    step (mk_system q p f h s)
         (mk_system q p (set_stealer f t (StealReadBottom ct (dq_bottom q))) h s)
(* return -ENOENT *)
| steal_empty q p f h s t ct cb :
    f t = StealReadBottom ct cb -> (cb <=? ct) = true ->
    step (mk_system q p f h s) (mk_system q p (set_stealer f t StealIdle) h s)
(* *w = deque->wrk[ct] *)
| steal_read_item q p f h s t ct cb w :
    f t = StealReadBottom ct cb -> (cb <=? ct) = false -> wrk_read q ct = Ret w ->
    step (mk_system q p f h s) (mk_system q p (set_stealer f t (StealReadItem ct w)) h s)
| steal_read_fault q p f h s t ct cb e :
    f t = StealReadBottom ct cb -> (cb <=? ct) = false -> wrk_read q ct = Stop e ->
    step (mk_system q p f h s) (mk_system q p (set_stealer f t (StealFaulted e)) h s)
(* the compare-and-swap of top wins: return 0 *)
| steal_win q q' p f h s t ct w :
    f t = StealReadItem ct w -> cas_top q ct (ct + 1) = (true, q') ->
    step (mk_system q p f h s) (mk_system q' p (set_stealer f t StealIdle) h (s ++ [w]))
(* it loses: return -EAGAIN *)
| steal_lose q q' p f h s t ct w :
    f t = StealReadItem ct w -> cas_top q ct (ct + 1) = (false, q') ->
    step (mk_system q p f h s) (mk_system q' p (set_stealer f t StealIdle) h s).

Definition initial (sz : Z) : system :=
  mk_system (mk_deque ∅ sz 0 0) PushIdle (fun _ => StealIdle) [] [].

(** ** The invariant of the concurrent deque *)

Definition push_inv q (pc : push_pc) : Prop :=
  match pc with
  | PushIdle => True
  | PushReadTop w ct => 0 <= ct <= dq_top q
  | PushReadBottom w ct cb => 0 <= ct <= dq_top q /\ cb = dq_bottom q
  | PushWrote w cb => cb = dq_bottom q /\ cb < DEQUE_MAX_SZ /\ dq_wrk q !! cb = Some (Some w)
                      /\ cb + 1 - dq_top q <= dq_size q
  | PushFaulted e => e = Undefined /\ dq_bottom q = DEQUE_MAX_SZ
  end.

Definition steal_inv q (pc : steal_pc) : Prop :=
  match pc with
  | StealIdle => True
  | StealReadTop ct => 0 <= ct <= dq_top q
  | StealReadBottom ct cb => 0 <= ct <= dq_top q /\ cb <= dq_bottom q
  | StealReadItem ct w => 0 <= ct <= dq_top q /\ ct < dq_bottom q /\ dq_wrk q !! ct = Some w
  | StealFaulted e => False
  end.

Record sys_inv (sz : Z) (st : system) : Prop := {
  inv_size : dq_size (shared st) = sz;
  inv_top : dq_top (shared st) = Z.of_nat (length (stolen st));
  inv_bottom : dq_bottom (shared st) = Z.of_nat (length (pushed st));
  inv_order : dq_top (shared st) <= dq_bottom (shared st) <= DEQUE_MAX_SZ;
  inv_room : dq_bottom (shared st) - dq_top (shared st) <= sz;
  inv_cells : forall (i : nat) a, pushed st !! i = Some a ->
                dq_wrk (shared st) !! Z.of_nat i = Some (Some a);
  inv_stolen : stolen st = Some <$> take (length (stolen st)) (pushed st);
  inv_pusher : push_inv (shared st) (pusher st);
  inv_stealers : forall t, steal_inv (shared st) (stealers st t);
}.

Lemma initial_inv sz : 0 <= sz -> sys_inv sz (initial sz).
Proof. intros Hs. split; cbn; try done; unfold DEQUE_MAX_SZ; lia. Qed.

Lemma set_stealer_inv q f t pc :
  (forall u, steal_inv q (f u)) -> steal_inv q pc -> forall u, steal_inv q (set_stealer f t pc u).
Proof. intros Hf Hp u. unfold set_stealer. case_decide; auto. Qed.

(** Moving [top] up and [bottom] up keeps what a stealer knows. *)
Lemma steal_inv_mono q q' pc :
  dq_top q <= dq_top q' -> dq_bottom q <= dq_bottom q' ->
  (forall i w, 0 <= i < dq_bottom q -> dq_wrk q !! i = Some w -> dq_wrk q' !! i = Some w) ->
  steal_inv q pc -> steal_inv q' pc.
Proof.
  intros Ht Hb Hw. destruct pc; cbn; try done; try lia.
  intros (H1 & H2 & H3). split; [lia|]. split; [lia|]. apply Hw; [lia | done].
Qed.

Lemma cas_top_true q old new q' :
  cas_top q old new = (true, q') -> dq_top q = old /\ q' = set_top q new.
Proof. unfold cas_top. destruct (Z.eqb_spec (dq_top q) old); intros; by simplify_eq. Qed.

Lemma cas_top_false q old new q' : cas_top q old new = (false, q') -> q' = q.
Proof. unfold cas_top. destruct (dq_top q =? old); intros; by simplify_eq. Qed.

Lemma cas_bottom_true q old new q' :
  cas_bottom q old new = (true, q') -> dq_bottom q = old /\ q' = set_bottom q new.
Proof. unfold cas_bottom. destruct (Z.eqb_spec (dq_bottom q) old); intros; by simplify_eq. Qed.

Lemma cas_bottom_false q old new q' : cas_bottom q old new = (false, q') -> dq_bottom q <> old.
Proof. unfold cas_bottom. destruct (Z.eqb_spec (dq_bottom q) old); intros; by simplify_eq. Qed.

Lemma wrk_write_Ret q i w q' :
  wrk_write q i w = Ret q' ->
  0 <= i < DEQUE_MAX_SZ
  /\ q' = mk_deque (<[i:=w]> (dq_wrk q)) (dq_size q) (dq_top q) (dq_bottom q).
Proof.
  unfold wrk_write, in_wrk. destruct (_ && _) eqn:E; [|done]. intros. reflect_bools.
  by simplify_eq.
Qed.

Lemma wrk_write_Stop q i w e :
  wrk_write q i w = Stop e -> e = Undefined /\ ~ (0 <= i < DEQUE_MAX_SZ).
Proof.
  unfold wrk_write. destruct (in_wrk i) eqn:E; [done|]. intros. simplify_eq. split; [done|].
  intros Hi. rewrite in_wrk_true in E; done.
Qed.

(** A pusher step: everything but the pusher's own knowledge is unchanged. *)
Lemma sys_inv_pusher sz q p p' f h s :
  sys_inv sz (mk_system q p f h s) -> push_inv q p' -> sys_inv sz (mk_system q p' f h s).
Proof. intros [] Hp. by split. Qed.

(** A stealer step that leaves the shared struct alone. *)
Lemma sys_inv_stealer sz q p f h s t pc :
  sys_inv sz (mk_system q p f h s) -> steal_inv q pc ->
  sys_inv sz (mk_system q p (set_stealer f t pc) h s).
Proof. intros [] Hp. split; try done. by apply set_stealer_inv. Qed.

(** Writing the cell past the end keeps the published cells. *)
Lemma sys_inv_write sz q f h s w ct :
  sys_inv sz (mk_system q (PushReadBottom w ct (dq_bottom q)) f h s) ->
  dq_bottom q < DEQUE_MAX_SZ -> (dq_size q - 1 <? dq_bottom q - ct) = false ->
  sys_inv sz (mk_system (mk_deque (<[dq_bottom q:=Some w]> (dq_wrk q)) (dq_size q) (dq_top q)
                           (dq_bottom q)) (PushWrote w (dq_bottom q)) f h s).
Proof.
  intros [I1 I2 I3 I4 I5 I6 I7 I8 I9] Hlt Hs. cbn in *. reflect_bools. split; cbn; try done.
  - intros i a Hi. apply lookup_lt_Some in Hi as Hl. rewrite lookup_insert_ne by lia. auto.
  - split; [done|]. split; [done|]. split; [apply lookup_insert_eq | lia].
  - intros t. eapply steal_inv_mono; [| | |apply I9]; cbn; try lia.
    intros i x Hi E. by rewrite lookup_insert_ne by lia.
Qed.

(** Publishing: the history gains the element just written. *)
Lemma sys_inv_publish sz q f h s w :
  sys_inv sz (mk_system q (PushWrote w (dq_bottom q)) f h s) ->
  sys_inv sz (mk_system (set_bottom q (dq_bottom q + 1)) PushIdle f (h ++ [w]) s).
Proof.
  intros [I1 I2 I3 I4 I5 I6 I7 I8 I9]. cbn in *. destruct I8 as (_ & Hlt & Hw & Hroom).
  split; cbn; try done; try lia.
  - rewrite length_app. cbn. lia.
  - intros i a Hi. destruct (decide (i = length h)) as [->|Hne].
    + rewrite lookup_app_r, Nat.sub_diag in Hi by lia. cbn in Hi. simplify_eq.
      by rewrite <- I3.
    + apply lookup_lt_Some in Hi as Hl. rewrite length_app in Hl. cbn in Hl.
      rewrite lookup_app_l in Hi by lia. auto.
  - rewrite take_app_le by lia. done.
  - intros t. eapply steal_inv_mono; [| | |apply I9]; cbn; auto; lia.
Qed.

(** A winning steal takes the oldest element not yet taken. *)
Lemma sys_inv_win sz q p f h s t w :
  sys_inv sz (mk_system q p f h s) -> f t = StealReadItem (dq_top q) w ->
  sys_inv sz (mk_system (set_top q (dq_top q + 1)) p (set_stealer f t StealIdle) h (s ++ [w])).
Proof.
  intros [I1 I2 I3 I4 I5 I6 I7 I8 I9] Et. cbn in *.
  pose proof (I9 t) as It. rewrite Et in It. cbn in It. destruct It as (_ & Hlt & Hw).
  destruct (lookup_lt_is_Some_2 h (length s)) as [a Ha]; [lia|].
  pose proof (I6 _ _ Ha) as Hc. rewrite <- I2, Hw in Hc. injection Hc as ->.
  split; cbn; try done; try lia.
  - rewrite length_app. cbn. lia.
  - rewrite length_app. cbn. rewrite Nat.add_1_r, (take_S_r _ _ _ Ha), fmap_app, <- I7. done.
  - destruct p; cbn in *; intuition lia.
  - apply set_stealer_inv; [|done]. intros u.
    eapply steal_inv_mono; [| | |apply I9]; cbn; auto; lia.
Qed.

Lemma step_inv sz st st' : sys_inv sz st -> step st st' -> sys_inv sz st'.
Proof.
  intros I Hs. destruct Hs; pose proof (inv_pusher _ _ I) as Ip; pose proof (inv_order _ _ I) as Io;
    pose proof (inv_top _ _ I) as It; cbn in Ip, Io, It.
  - eapply sys_inv_pusher; [done|]. cbn. lia.
  - eapply sys_inv_pusher; [done|]. cbn. lia.
  - by eapply sys_inv_pusher.
  - destruct Ip as [Hct ->]. apply wrk_write_Ret in H0 as [Hi ->].
    eapply sys_inv_write; [done | lia | done].
  - destruct Ip as [Hct ->]. apply wrk_write_Stop in H0 as [-> Hi].
    eapply sys_inv_pusher; [done|]. cbn. split; [done | lia].
  - destruct Ip as [-> _]. apply cas_bottom_true in H as [_ ->]. by apply sys_inv_publish.
  - destruct Ip as [-> _]. by apply cas_bottom_false in H.
  - eapply sys_inv_stealer; [done|]. cbn. lia.
  - eapply sys_inv_stealer; [done|]. pose proof (inv_stealers _ _ I t) as J. cbn in J.
    rewrite H in J. cbn in *. lia.
  - by eapply sys_inv_stealer.
  - pose proof (inv_stealers _ _ I t) as J. cbn in J. rewrite H in J. cbn in J. reflect_bools.
    eapply sys_inv_stealer; [done|]. cbn. split; [lia|]. split; [lia|].
    pose proof (inv_bottom _ _ I) as Ib. cbn in Ib.
    destruct (lookup_lt_is_Some_2 h (Z.to_nat ct)) as [a Ha]; [lia|].
    pose proof (inv_cells _ _ I _ _ Ha) as Hc. cbn in Hc. rewrite Z2Nat.id in Hc by lia.
    rewrite (wrk_read_ok q ct (Some a)) in H1 by (done || lia). by simplify_eq.
  - pose proof (inv_stealers _ _ I t) as J. cbn in J. rewrite H in J. cbn in J. reflect_bools.
    unfold wrk_read in H1. rewrite in_wrk_true in H1 by lia. done.
  - apply cas_top_true in H0 as [<- ->]. by apply sys_inv_win.
  - apply cas_top_false in H0 as ->. by eapply sys_inv_stealer.
Qed.

Lemma reachable_inv sz st : 0 <= sz -> rtc step (initial sz) st -> sys_inv sz st.
Proof.
  intros Hs. remember (initial sz) as st0 eqn:E. intros R.
  assert (I : sys_inv sz st0) by (subst; by apply initial_inv). clear E.
  induction R as [|x y z Hxy _ IH]; [done|]. apply IH. by eapply step_inv.
Qed.

(** ** The contract *)

(** C5: under every interleaving of one pusher with any number of stealers, the
    values returned by successful steals are exactly the pushed elements, each
    once and in the order pushed; at most [sz] elements are waiting; the
    pusher's compare-and-swap assertion never fails, and no stealer reads out of
    bounds.  The pusher can fault only by writing past the array, after
    DEQUE_MAX_SZ elements were pushed in total. *)
Theorem deque_concurrent_fifo sz st :
  0 <= sz -> rtc step (initial sz) st ->
  stolen st = Some <$> take (length (stolen st)) (pushed st)
  /\ Z.of_nat (length (pushed st)) - Z.of_nat (length (stolen st)) <= sz
  /\ (forall e, pusher st = PushFaulted e ->
        e = Undefined /\ Z.of_nat (length (pushed st)) = DEQUE_MAX_SZ)
  /\ (forall t e, stealers st t <> StealFaulted e).
Proof.
  intros Hs R. pose proof (reachable_inv _ _ Hs R) as [I1 I2 I3 I4 I5 I6 I7 I8 I9].
  split; [done|]. split; [lia|]. split.
  - intros e E. rewrite E in I8. cbn in I8. split; [apply I8 | lia].
  - intros t e E. specialize (I9 t). by rewrite E in I9.
Qed.

(** A push followed by a steal, [n] times. *)
Fixpoint cycles (n : nat) (a : A) (q : deque A) : outcome (deque A) :=
  match n with
  | O => Ret q
  | S n => q ← cycles n a q; '(_, q) ← deque_push q (Some a); '(_, _, q) ← deque_steal q; Ret q
  end.

Lemma cycles_ok n a sz :
  0 < sz -> Z.of_nat n <= DEQUE_MAX_SZ ->
  exists q, cycles n a (mk_deque ∅ sz 0 0) = Ret q /\ deque_repr q []
    /\ dq_top q = Z.of_nat n /\ dq_size q = sz.
Proof.
  intros Hs. induction n as [|n IH]; intros Hn.
  { eexists. split; [done|]. split; [|done]. by repeat split; cbn; try lia. }
  destruct IH as (q & Hc & Hq & Ht & Hsz); [lia|]. cbn [cycles]. rewrite Hc. cbn.
  pose proof Hq as (_ & Hb & _). cbn in Hb.
  destruct (deque_push_ok q [] a Hq) as (q1 & -> & Hq1 & Ht1 & Hs1); [cbn; lia | lia |]. cbn.
  destruct (deque_steal_ok q1 [a] Hq1) as (q2 & -> & Hq2 & Ht2 & Hs2). cbn.
  exists q2. split; [done|]. split; [done|]. lia.
Qed.

(** The array is not reused.  However small the deque is kept (here a push
    is always followed by a steal, so it is empty), after DEQUE_MAX_SZ pushes
    the next push writes outside the array. *)
Theorem deque_array_exhausted a sz :
  0 < sz ->
  exists q, cycles (Z.to_nat DEQUE_MAX_SZ) a (mk_deque ∅ sz 0 0) = Ret q
    /\ deque_repr q [] /\ deque_push q (Some a) = Stop Undefined.
Proof.
  intros Hs. destruct (cycles_ok (Z.to_nat DEQUE_MAX_SZ) a sz) as (q & Hc & Hq & Ht & Hsz);
    [done | unfold DEQUE_MAX_SZ; lia |].
  exists q. split; [done|]. split; [done|]. pose proof Hq as (_ & Hb & _). cbn in Hb.
  rewrite Z2Nat.id in Ht by (unfold DEQUE_MAX_SZ; lia).
  unfold deque_push. destruct (Z.ltb_spec (dq_size q - 1) (dq_bottom q - dq_top q)); [lia|].
  unfold wrk_write, in_wrk. rewrite (proj2 (Z.ltb_ge (dq_bottom q) DEQUE_MAX_SZ)) by lia.
  by rewrite andb_false_r.
Qed.
End deque.

(** ** Concrete runs *)

(** A push of 7 overlapping a steal that wins. *)
Definition demo_final : system (A := Z) :=
  mk_system (mk_deque {[0 := Some 7]} 4 1 1) PushIdle (set_stealer (set_stealer (set_stealer
    (set_stealer (fun _ => StealIdle) 0 (StealReadTop 0)) 0 (StealReadBottom 0 1))
    0 (StealReadItem 0 (Some 7))) 0 StealIdle) [7] [Some 7].

Lemma demo_run : rtc step (initial 4) demo_final.
Proof.
  unfold initial, demo_final.
  eapply rtc_l; [apply (push_read_top _ _ _ _ 7)|].
  eapply rtc_l; [by apply steal_read_top with (t := 0%nat)|].
  eapply rtc_l; [apply push_read_bottom|].
  eapply rtc_l; [by eapply push_write|].
  eapply rtc_l; [by eapply push_publish|].
  eapply rtc_l; [by eapply steal_read_bottom with (t := 0%nat)|].
  eapply rtc_l; [by eapply steal_read_item with (t := 0%nat)|].
  eapply rtc_l; [by eapply steal_win with (t := 0%nat)|].
  apply rtc_refl.
Qed.

Lemma deque_concurrent_fifo_witness :
  stolen demo_final = [Some 7] /\ pushed demo_final = [7]
  /\ forall t e, stealers demo_final t <> StealFaulted e.
Proof.
  destruct (deque_concurrent_fifo 4 demo_final ltac:(lia) demo_run) as (E & _ & _ & F).
  split; [exact E|]. split; [reflexivity | exact F].
Defined.

Lemma deque_array_exhausted_witness :
  exists q, cycles (Z.to_nat DEQUE_MAX_SZ) 7 (mk_deque ∅ (2 ^ 19) 0 0) = Ret q
    /\ deque_repr q [] /\ deque_push q (Some 7) = Stop Undefined.
Proof. apply (deque_array_exhausted 7 (2 ^ 19)). lia. Defined.
