(* ===== verification/PerfWindow.v ===== *)
(** * PerfWindow: the sorted circular buffer of execution times

    [runtime/include/perf_window_t.h] and [perf_window.h].  [by_duration] keeps
    the last [PERF_WINDOW_CAPACITY] samples sorted; [by_termination] is a
    circular buffer that maps arrival slots to positions in [by_duration], and
    each node points back to its slot.  The contract is that the structure
    represents the window of the most recent samples, so that reading at a
    fixed index is reading an order statistic of that window. *)

From Stdlib Require Import ZArith Lia.
From S2P Require Import Prelude Lock HeapTheory.
Local Open Scope nat_scope.

Definition PERF_WINDOW_CAPACITY : nat := 256.

Record execution_node := mk_execution_node {
  execution_time : Z;
  by_termination_idx : nat;
}.

Record perf_window (L : Type) := mk_perf_window {
  by_duration : list execution_node;
  by_termination : list nat;
  pw_count : Z;
  pw_lock : lock_t L;
}.
Arguments mk_perf_window {L} _ _ _ _.
Arguments by_duration {L} _.
Arguments by_termination {L} _.
Arguments pw_count {L} _.
Arguments pw_lock {L} _.

Section perf_window.
Context {L : Type} `{SpinLock L}.
Abbreviation CAP := PERF_WINDOW_CAPACITY.
Abbreviation pwindow := (perf_window L).
Implicit Types pw : pwindow.

Definition set_by_duration pw (d : list execution_node) : pwindow :=
  mk_perf_window d (by_termination pw) (pw_count pw) (pw_lock pw).
Definition set_by_termination pw (t : list nat) : pwindow :=
  mk_perf_window (by_duration pw) t (pw_count pw) (pw_lock pw).
Definition set_count pw (c : Z) : pwindow :=
  mk_perf_window (by_duration pw) (by_termination pw) c (pw_lock pw).

Definition perf_window_initialize : pwindow :=
  {| by_duration := replicate CAP (mk_execution_node 0 0);
     by_termination := replicate CAP 0;
     pw_count := 0;
     pw_lock := lock_init |}.

Definition perf_window_swap pw (first_by_duration_idx second_by_duration_idx : nat)
  : outcome pwindow :=
  assert (lock_is_locked (pw_lock pw)) ;;
  assert (bool_decide (first_by_duration_idx < CAP)) ;;
  assert (bool_decide (second_by_duration_idx < CAP)) ;;
  first ← deref (by_duration pw !! first_by_duration_idx);
  second ← deref (by_duration pw !! second_by_duration_idx);
  let first_by_termination_idx := by_termination_idx first in
  let second_by_termination_idx := by_termination_idx second in
  b1 ← deref (by_termination pw !! first_by_termination_idx);
  assert (b1 =? first_by_duration_idx) ;;
  b2 ← deref (by_termination pw !! second_by_termination_idx);
  assert (b2 =? second_by_duration_idx) ;;
  let first_execution_time := execution_time first in
  let second_execution_time := execution_time second in
  (* Swap indices *)
  let bt := <[second_by_termination_idx:=first_by_duration_idx]>
              (<[first_by_termination_idx:=second_by_duration_idx]> (by_termination pw)) in
  (* Swap nodes *)
  let bd := <[second_by_duration_idx:=first]> (<[first_by_duration_idx:=second]> (by_duration pw)) in
  i1 ← deref (bt !! first_by_termination_idx);
  n1 ← deref (bd !! i1);
  assert (execution_time n1 =? first_execution_time)%Z ;;
  i2 ← deref (bt !! second_by_termination_idx);
  n2 ← deref (bd !! i2);
  assert (execution_time n2 =? second_execution_time)%Z ;;
  Ret (set_by_duration (set_by_termination pw bt) bd).

Definition perf_window_fill pw (newest_execution_time : Z) : pwindow :=
  {| by_duration := (fun i => mk_execution_node newest_execution_time i) <$> seq 0 CAP;
     by_termination := seq 0 CAP;
     pw_count := Z.of_nat CAP;
     pw_lock := pw_lock pw |}.

(** [perf_window->by_duration[i].execution_time] *)
Definition time_of pw (i : nat) : outcome Z :=
  n ← deref (by_duration pw !! i); Ret (execution_time n).

(** [for (i = ...; i + 1 < CAP && d[i + 1] < d[i]; i++) swap(i, i + 1)] *)
Fixpoint shift_right (fuel : nat) pw (i : nat) : outcome pwindow :=
  match fuel with
  | 0 => Stop Fuel
  | S fuel =>
    if decide (i + 1 < CAP) then
      next ← time_of pw (i + 1);
      cur ← time_of pw i;
      if (next <? cur)%Z then
        pw ← perf_window_swap pw i (i + 1);
        shift_right fuel pw (i + 1)
      else Ret pw
    else Ret pw
  end.

(** [for (i = ...; i >= 1 && d[i - 1] > d[i]; i--) swap(i, i - 1)] *)
Fixpoint shift_left (fuel : nat) pw (i : nat) : outcome pwindow :=
  match fuel with
  | 0 => Stop Fuel
  | S fuel =>
    if decide (1 <= i) then
      prev ← time_of pw (i - 1);
      cur ← time_of pw i;
      if (cur <? prev)%Z then
        pw ← perf_window_swap pw i (i - 1);
        shift_left fuel pw (i - 1)
      else Ret pw
    else Ret pw
  end.

(** The ordering assertion over the whole array, from index [i], [n] to go. *)
Fixpoint assert_sorted (n : nat) pw (i : nat) : outcome unit :=
  match n with
  | 0 => Ret tt
  | S n =>
    a ← time_of pw (i - 1);
    b ← time_of pw i;
    assert (a <=? b)%Z ;;
    assert_sorted n pw (S i)
  end.

(** [perf_window->count % PERF_WINDOW_CAPACITY] *)
Definition oldest_slot pw : nat := Z.to_nat (pw_count pw mod Z.of_nat CAP).

Definition perf_window_add pw (newest_execution_time : Z) : outcome pwindow :=
  assert (0 <? newest_execution_time)%Z ;;
  if negb (lock_is_locked (pw_lock pw)) then Stop Panic else
  if (pw_count pw =? 0)%Z then Ret (perf_window_fill pw newest_execution_time) else
  idx_to_replace ← deref (by_termination pw !! oldest_slot pw);
  node ← deref (by_duration pw !! idx_to_replace);
  let previous_execution_time := execution_time node in
  let pw := set_by_duration pw (<[idx_to_replace :=
              mk_execution_node newest_execution_time (by_termination_idx node)]>
              (by_duration pw)) in
  pw ← (if (previous_execution_time <? newest_execution_time)%Z
        then shift_right (S CAP) pw idx_to_replace
        else shift_left (S CAP) pw idx_to_replace);
  idx ← deref (by_termination pw !! oldest_slot pw);
  t ← time_of pw idx;
  assert (t =? newest_execution_time)%Z ;;
  assert_sorted (CAP - 1) pw 1 ;;
  Ret (set_count pw (u64 (pw_count pw + 1))).

Definition perf_window_get_percentile pw (percentile precomputed_index : Z) : outcome Z :=
  assert ((50 <=? percentile) && (percentile <=? 99))%Z ;;
  if (pw_count pw =? 0)%Z then Ret 0%Z else
  let perf_window_size :=
    (if pw_count pw <? Z.of_nat CAP then pw_count pw else Z.of_nat CAP)%Z in
  let idx := (if (precomputed_index =? 0) || (pw_count pw <? Z.of_nat CAP)
              then perf_window_size * percentile / 100 else precomputed_index)%Z in
  if (idx <? 0)%Z then Stop Undefined else time_of pw (Z.to_nat idx).

Definition perf_window_get_count pw : Z := pw_count pw.
End perf_window.
