(* ===== verification/PerfWindowSpec.v ===== *)
(** * PerfWindowSpec: the perf window holds the most recent samples, sorted

    [links] is the structural invariant (the two arrays are mutually inverse),
    [sample] reads a slot of the circular buffer, and [window] lists the samples
    from oldest to newest.  Adding a sample shifts the window by one, and keeps
    [by_duration] a sorted rearrangement of it. *)

From Stdlib Require Import ZArith Lia Sorting.Sorted.
From S2P Require Import Prelude Lock HeapTheory PerfWindow.
Local Open Scope nat_scope.

(** ** Insertion into a sorted array by adjacent exchanges *)

Definition sorted_to (t : nat -> Z) (n : nat) : Prop :=
  forall a b, a <= b -> b < n -> (t a <= t b)%Z.

(** Sorted but for the element at [i], which is not smaller than what precedes it. *)
Definition right_inv (t : nat -> Z) (n i : nat) : Prop :=
  (forall a b, a <= b -> b < n -> a <> i -> b <> i -> (t a <= t b)%Z)
  /\ (forall a, a < i -> (t a <= t i)%Z).

(** Sorted but for the element at [i], which is not greater than what follows it. *)
Definition left_inv (t : nat -> Z) (n i : nat) : Prop :=
  (forall a b, a <= b -> b < n -> a <> i -> b <> i -> (t a <= t b)%Z)
  /\ (forall b, i < b < n -> (t i <= t b)%Z).

Lemma right_inv_done t n i :
  right_inv t n i -> (i + 1 < n -> (t i <= t (i + 1)%nat)%Z) -> sorted_to t n.
Proof.
  intros [H1 H2] Hd a b Hab Hb.
  destruct (decide (a = i)) as [->|Ha]; destruct (decide (b = i)) as [->|Hb'].
  - lia.
  - destruct (decide (b = i + 1)) as [->|]; [apply Hd; lia|].
    transitivity (t (i + 1)); [apply Hd; lia | apply H1; lia].
  - apply H2. lia.
  - auto.
Qed.

Lemma right_inv_step t n i :
  i + 1 < n -> right_inv t n i -> (t (i + 1)%nat < t i)%Z ->
  right_inv (swapf t i (i + 1)) n (i + 1).
Proof.
  intros Hi [H1 H2] Hlt. split.
  - intros a b Hab Hb Ha Hb'. unfold swapf. rewrite !(decide_False (P := _ = i + 1)) by done.
    destruct (decide (a = i)) as [->|]; destruct (decide (b = i)) as [->|]; try lia.
    + apply H1; lia.
    + apply H1; lia.
    + by apply H1.
  - intros a Ha. unfold swapf. rewrite (decide_True (P := i + 1 = i + 1)) by done.
    rewrite decide_False by lia. case_decide; [lia | apply H2; lia].
Qed.

Lemma left_inv_done t n i :
  i < n -> left_inv t n i -> (1 <= i -> (t (i - 1)%nat <= t i)%Z) -> sorted_to t n.
Proof.
  intros Hin [H1 H2] Hd a b Hab Hb.
  destruct (decide (a = i)) as [->|Ha]; destruct (decide (b = i)) as [->|Hb'].
  - lia.
  - apply H2. lia.
  - destruct (decide (a = i - 1)) as [->|]; [apply Hd; lia|].
    transitivity (t (i - 1)); [apply H1; lia | apply Hd; lia].
  - auto.
Qed.

Lemma left_inv_step t n i :
  1 <= i -> i < n -> left_inv t n i -> (t i < t (i - 1)%nat)%Z ->
  left_inv (swapf t i (i - 1)) n (i - 1).
Proof.
  intros Hi Hin [H1 H2] Hlt. split.
  - intros a b Hab Hb Ha Hb'. unfold swapf. rewrite !(decide_False (P := _ = i - 1)) by done.
    destruct (decide (a = i)) as [->|]; destruct (decide (b = i)) as [->|]; try lia.
    + apply H1; lia.
    + apply H1; lia.
    + by apply H1.
  - intros b Hb. unfold swapf. rewrite (decide_True (P := i - 1 = i - 1)) by done.
    rewrite decide_False by lia. case_decide; [lia | apply H2; lia].
Qed.

Section spec.
Context {L : Type} `{SpinLock L}.
Abbreviation CAP := PERF_WINDOW_CAPACITY.
Abbreviation pwindow := (perf_window L).
Implicit Types pw : pwindow.

(** The sorted times as a total function, and the sample in a slot. *)
Definition time_at pw (i : nat) : Z := from_option execution_time 0%Z (by_duration pw !! i).
Definition sample pw (j : nat) : Z := time_at pw (default 0 (by_termination pw !! j)).

(** The samples from oldest to newest. *)
Definition slot pw (k : nat) : nat := Z.to_nat ((pw_count pw + Z.of_nat k) mod Z.of_nat CAP).
Definition window pw : list Z := (fun k => sample pw (slot pw k)) <$> seq 0 CAP.

Record links pw : Prop := {
  links_bd : length (by_duration pw) = CAP;
  links_bt : length (by_termination pw) = CAP;
  links_fwd : forall j, j < CAP -> exists i n, by_termination pw !! j = Some i
                /\ by_duration pw !! i = Some n /\ by_termination_idx n = j;
  links_bwd : forall i, i < CAP -> exists n, by_duration pw !! i = Some n
                /\ by_termination_idx n < CAP
                /\ by_termination pw !! (by_termination_idx n) = Some i;
}.

Definition pw_wf pw : Prop := links pw /\ sorted_to (time_at pw) CAP /\ (0 < pw_count pw)%Z.

Lemma time_of_ok pw i : links pw -> i < CAP -> time_of pw i = Ret (time_at pw i).
Proof.
  intros K Hi. destruct (links_bwd pw K i Hi) as (n & E & _).
  unfold time_of, time_at. by rewrite E.
Qed.

(** Exchanging two positions keeps every sample in its slot. *)
Lemma swap_ok pw i j :
  links pw -> lock_is_locked (pw_lock pw) = true -> i < CAP -> j < CAP -> i <> j ->
  exists pw', perf_window_swap pw i j = Ret pw' /\ links pw'
    /\ (forall k, time_at pw' k = swapf (time_at pw) i j k)
    /\ (forall k, k < CAP -> sample pw' k = sample pw k)
    /\ pw_count pw' = pw_count pw /\ pw_lock pw' = pw_lock pw.
Proof.
  intros K Hl Hi Hj Hij. pose proof K as [K1 K2 K3 K4].
  destruct (K4 i Hi) as (ni & Ei & Bi & Ti). destruct (K4 j Hj) as (nj & Ej & Bj & Tj).
  assert (Hne : by_termination_idx ni <> by_termination_idx nj) by congruence.
  set (bt := <[by_termination_idx nj:=i]> (<[by_termination_idx ni:=j]> (by_termination pw))).
  set (bd := <[j:=ni]> (<[i:=nj]> (by_duration pw))).
  assert (T1 : bt !! by_termination_idx ni = Some j).
  { unfold bt. rewrite list_lookup_insert_ne by done. apply list_lookup_insert_eq. lia. }
  assert (T2 : bt !! by_termination_idx nj = Some i).
  { apply list_lookup_insert_eq. rewrite length_insert. lia. }
  assert (D1 : bd !! j = Some ni) by (apply list_lookup_insert_eq; rewrite length_insert; lia).
  assert (D2 : bd !! i = Some nj).
  { unfold bd. rewrite list_lookup_insert_ne by done. apply list_lookup_insert_eq. lia. }
  assert (T3 : forall k, k <> by_termination_idx ni -> k <> by_termination_idx nj ->
                 bt !! k = by_termination pw !! k).
  { intros k ? ?. unfold bt. by rewrite !list_lookup_insert_ne. }
  assert (D3 : forall k, k <> i -> k <> j -> bd !! k = by_duration pw !! k).
  { intros k ? ?. unfold bd. by rewrite !list_lookup_insert_ne. }
  exists (set_by_duration (set_by_termination pw bt) bd). split; [|split; [|split; [|split]]].
  - unfold perf_window_swap. rewrite Hl. cbn.
    rewrite (bool_decide_eq_true_2 (i < CAP)), (bool_decide_eq_true_2 (j < CAP)) by done. cbn.
    rewrite Ei, Ej. cbn. rewrite Ti. cbn. rewrite Nat.eqb_refl. cbn. rewrite Tj. cbn.
    rewrite Nat.eqb_refl. cbn. fold bt bd. rewrite T1. cbn. rewrite D1. cbn.
    rewrite Z.eqb_refl. cbn. rewrite T2. cbn. rewrite D2. cbn. rewrite Z.eqb_refl. done.
  - split; cbn; [unfold bd; by rewrite !length_insert | unfold bt; by rewrite !length_insert | |].
    + intros k Hk. destruct (decide (k = by_termination_idx ni)) as [->|N1]; [eauto|].
      destruct (decide (k = by_termination_idx nj)) as [->|N2]; [eauto|].
      rewrite T3 by done. destruct (K3 k Hk) as (p & n & E1 & E2 & E3). exists p, n.
      rewrite D3 by congruence. done.
    + intros k Hk. destruct (decide (k = i)) as [->|N1]; [exists nj; done|].
      destruct (decide (k = j)) as [->|N2]; [exists ni; done|].
      rewrite D3 by done. destruct (K4 k Hk) as (n & E1 & E2 & E3). exists n.
      rewrite T3 by congruence. done.
  - intros k. unfold time_at, swapf. cbn.
    destruct (decide (k = j)) as [->|N2]; [by rewrite D1, Ei|].
    destruct (decide (k = i)) as [->|N1]; [by rewrite D2, Ej|]. by rewrite D3.
  - intros k Hk. unfold sample, time_at. cbn.
    destruct (decide (k = by_termination_idx ni)) as [->|N1];
      [by rewrite T1, Ti; cbn; rewrite D1, Ei|].
    destruct (decide (k = by_termination_idx nj)) as [->|N2];
      [by rewrite T2, Tj; cbn; rewrite D2, Ej|].
    rewrite T3 by done. destruct (K3 k Hk) as (p & n & E1 & E2 & E3). rewrite E1. cbn.
    rewrite D3; [done | congruence | congruence].
  - done.
Qed.

(** What a shifting loop leaves unchanged. *)
Definition shifted pw pw' : Prop :=
  links pw' /\ (forall k, k < CAP -> sample pw' k = sample pw k)
  /\ pw_count pw' = pw_count pw /\ pw_lock pw' = pw_lock pw.

Lemma shift_right_ok fuel pw i :
  links pw -> lock_is_locked (pw_lock pw) = true -> i < CAP -> CAP < fuel + i ->
  right_inv (time_at pw) CAP i ->
  exists pw', shift_right fuel pw i = Ret pw' /\ shifted pw pw'
    /\ sorted_to (time_at pw') CAP.
Proof.
  revert pw i. induction fuel as [|fuel IH]; intros pw i K Hl Hi Hf R; [lia|]. cbn [shift_right].
  destruct (decide (i + 1 < CAP)) as [Hlt|Hlt].
  2: { exists pw. split; [done|]. split; [done|]. eapply right_inv_done; [done|]. lia. }
  rewrite !time_of_ok by (done || lia). cbn.
  destruct (Z.ltb_spec (time_at pw (i + 1)%nat) (time_at pw i)) as [Hc|Hc].
  2: { exists pw. split; [done|]. split; [done|]. by eapply right_inv_done. }
  destruct (swap_ok pw i (i + 1)) as (pw1 & -> & K1 & T1 & S1 & C1 & L1); [done..|lia|]. cbn.
  destruct (IH pw1 (i + 1)) as (pw' & -> & (K' & S' & C' & L') & Hs); [done | by rewrite L1 | lia | lia | |].
  { destruct (right_inv_step (time_at pw) CAP i) as [R1 R2]; [done..|].
    split; intros; rewrite !T1; auto. }
  exists pw'. split; [done|]. split; [|done]. split; [done|]. split; [|split; congruence].
  intros k Hk. rewrite S', S1 by done. done.
Qed.

Lemma shift_left_ok fuel pw i :
  links pw -> lock_is_locked (pw_lock pw) = true -> i < CAP -> i < fuel ->
  left_inv (time_at pw) CAP i ->
  exists pw', shift_left fuel pw i = Ret pw' /\ shifted pw pw'
    /\ sorted_to (time_at pw') CAP.
Proof.
  revert pw i. induction fuel as [|fuel IH]; intros pw i K Hl Hi Hf R; [lia|]. cbn [shift_left].
  destruct (decide (1 <= i)) as [Hlt|Hlt].
  2: { exists pw. split; [done|]. split; [done|]. eapply left_inv_done; [done..|]. lia. }
  rewrite !time_of_ok by (done || lia). cbn.
  destruct (Z.ltb_spec (time_at pw i) (time_at pw (i - 1)%nat)) as [Hc|Hc].
  2: { exists pw. split; [done|]. split; [done|]. by eapply left_inv_done. }
  destruct (swap_ok pw i (i - 1)) as (pw1 & -> & K1 & T1 & S1 & C1 & L1); [done..|lia|lia|]. cbn.
  destruct (IH pw1 (i - 1)) as (pw' & -> & (K' & S' & C' & L') & Hs); [done | by rewrite L1 | lia | lia | |].
  { destruct (left_inv_step (time_at pw) CAP i) as [R1 R2]; [done..|].
    split; intros; rewrite !T1; auto. }
  exists pw'. split; [done|]. split; [|done]. split; [done|]. split; [|split; congruence].
  intros k Hk. rewrite S', S1 by done. done.
Qed.

Lemma CAP_pos : 0 < CAP.
Proof. unfold PERF_WINDOW_CAPACITY. lia. Qed.

#[local] Opaque PERF_WINDOW_CAPACITY.

Lemma slot_lt pw k : slot pw k < CAP.
Proof.
  unfold slot. pose proof CAP_pos.
  pose proof (Z.mod_pos_bound (pw_count pw + Z.of_nat k) (Z.of_nat CAP) ltac:(lia)). lia.
Qed.

Lemma oldest_slot_eq pw : oldest_slot pw = slot pw 0.
Proof. unfold oldest_slot, slot. by rewrite Z.add_0_r. Qed.

(** Overwriting the time of the node in slot [j]. *)
Lemma overwrite_ok pw i n j t :
  links pw -> j < CAP -> by_termination pw !! j = Some i -> by_duration pw !! i = Some n ->
  by_termination_idx n = j ->
  let pw' := set_by_duration pw (<[i:=mk_execution_node t j]> (by_duration pw)) in
  links pw' /\ (forall k, time_at pw' k = if decide (k = i) then t else time_at pw k)
  /\ (forall k, k < CAP -> sample pw' k = if decide (k = j) then t else sample pw k).
Proof.
  intros K Hj Eb Ed En pw'. pose proof K as [K1 K2 K3 K4].
  apply lookup_lt_Some in Ed as Hi.
  assert (D1 : by_duration pw' !! i = Some (mk_execution_node t j))
    by (apply list_lookup_insert_eq; lia).
  assert (D2 : forall k, k <> i -> by_duration pw' !! k = by_duration pw !! k)
    by (intros k Hk; unfold pw'; cbn; by rewrite list_lookup_insert_ne).
  assert (T : forall k, time_at pw' k = if decide (k = i) then t else time_at pw k).
  { intros k. unfold time_at. destruct (decide (k = i)) as [->|Hk]; [by rewrite D1 | by rewrite D2]. }
  split; [|split; [done|]].
  - split; [unfold pw'; cbn; by rewrite length_insert | done | |].
    + intros k Hk. destruct (K3 k Hk) as (p & m & E1 & E2 & E3). cbn.
      destruct (decide (p = i)) as [->|Hp].
      * exists i, (mk_execution_node t j). split; [done|]. split; [done|]. cbn. congruence.
      * exists p, m. rewrite D2 by done. done.
    + intros k Hk. destruct (decide (k = i)) as [->|Hki]; [exists (mk_execution_node t j); done|].
      destruct (K4 k Hk) as (m & E1 & E2 & E3). exists m. rewrite D2 by done. done.
  - intros k Hk. unfold sample at 1. cbn. destruct (K3 k Hk) as (p & m & E1 & E2 & E3).
    rewrite E1. cbn. rewrite T. destruct (decide (k = j)) as [->|Hkj].
    + rewrite decide_True by congruence. done.
    + rewrite decide_False by congruence. unfold sample. by rewrite E1.
Qed.

Lemma assert_sorted_ok n pw i :
  links pw -> sorted_to (time_at pw) CAP -> 1 <= i -> n + i <= CAP -> assert_sorted n pw i = Ret tt.
Proof.
  intros K Hs. revert i. induction n as [|n IH]; intros i Hi Hn; [done|]. cbn.
  rewrite !time_of_ok by (done || lia). cbn.
  rewrite (proj2 (Z.leb_le _ _)) by (apply Hs; lia). cbn. apply IH; lia.
Qed.

(** Replacing the oldest sample: no assertion fails, and only its slot changes. *)
Lemma add_replace_ok pw t :
  pw_wf pw -> lock_is_locked (pw_lock pw) = true -> (0 < t)%Z ->
  exists pw', perf_window_add pw t = Ret pw' /\ links pw' /\ sorted_to (time_at pw') CAP
    /\ (forall k, k < CAP -> sample pw' k = if decide (k = slot pw 0) then t else sample pw k)
    /\ pw_count pw' = u64 (pw_count pw + 1) /\ pw_lock pw' = pw_lock pw.
Proof.
  intros (K & Hs & Hc) Hl Ht. unfold perf_window_add.
  rewrite (proj2 (Z.ltb_lt _ _) Ht), Hl. cbn -[shift_right shift_left assert_sorted].
  destruct (Z.eqb_spec (pw_count pw) 0) as [|_]; [lia|].
  rewrite oldest_slot_eq. pose proof (slot_lt pw 0) as Hj.
  destruct (links_fwd pw K _ Hj) as (i & n & Eb & Ed & En).
  apply lookup_lt_Some in Ed as Hi. rewrite (links_bd pw K) in Hi.
  rewrite Eb. cbn -[shift_right shift_left assert_sorted].
  rewrite Ed. cbn -[shift_right shift_left assert_sorted]. rewrite En.
  destruct (overwrite_ok pw i n (slot pw 0) t) as (K1 & T1 & S1); [done..|].
  set (pw1 := set_by_duration pw _) in *.
  assert (Hprev : execution_time n = time_at pw i) by (unfold time_at; by rewrite Ed).
  assert (Hshift : exists pw2,
    (if (execution_time n <? t)%Z then shift_right (S CAP) pw1 i else shift_left (S CAP) pw1 i)
      = Ret pw2 /\ shifted pw1 pw2 /\ sorted_to (time_at pw2) CAP).
  { destruct (Z.ltb_spec (execution_time n) t) as [Hlt|Hge].
    - apply shift_right_ok; [done | done | done | lia |]. split.
      + intros a b Hab Hb Ha Hb'. rewrite !T1, !decide_False by done. by apply Hs.
      + intros a Ha. rewrite !T1, decide_False, decide_True by (done || lia).
        pose proof (Hs a i ltac:(lia) ltac:(lia)). lia.
    - apply shift_left_ok; [done | done | done | lia |]. split.
      + intros a b Hab Hb Ha Hb'. rewrite !T1, !decide_False by done. by apply Hs.
      + intros b Hb. rewrite !T1, decide_True, decide_False by (done || lia).
        pose proof (Hs i b ltac:(lia) ltac:(lia)). lia. }
  destruct Hshift as (pw2 & -> & (K2 & S2 & C2 & L2) & Hs2).
  cbn -[assert_sorted].
  assert (Eslot : oldest_slot pw2 = slot pw 0) by (unfold oldest_slot, slot; by rewrite C2, Z.add_0_r).
  rewrite Eslot. destruct (links_fwd pw2 K2 _ Hj) as (i2 & n2 & Eb2 & Ed2 & En2).
  apply lookup_lt_Some in Ed2 as Hi2. rewrite (links_bd pw2 K2) in Hi2.
  rewrite Eb2. cbn -[assert_sorted]. rewrite time_of_ok by done. cbn -[assert_sorted].
  assert (Et : time_at pw2 i2 = t).
  { pose proof (S2 (slot pw 0) Hj) as E. rewrite S1, decide_True in E by done.
    unfold sample in E. rewrite Eb2 in E. done. }
  rewrite Et, Z.eqb_refl. cbn -[assert_sorted].
  rewrite assert_sorted_ok by (done || pose proof CAP_pos; lia). cbn.
  eexists. split; [done|]. split; [by destruct K2; split|]. split; [done|]. split.
  - intros k Hk. unfold sample, time_at. cbn. fold (time_at pw2 (default 0 (by_termination pw2 !! k))).
    fold (sample pw2 k). rewrite S2, S1 by done. done.
  - cbn. by rewrite C2, L2.
Qed.

(** ** The window *)

Lemma slot_succ pw pw' k :
  (0 < pw_count pw < UINT64_MAX)%Z -> pw_count pw' = u64 (pw_count pw + 1) ->
  slot pw' k = slot pw (S k).
Proof.
  intros Hc E. unfold slot. rewrite E, u64_small by lia. f_equal. f_equal. lia.
Qed.

Lemma slot_wrap pw : slot pw CAP = slot pw 0.
Proof.
  unfold slot. pose proof CAP_pos.
  replace (pw_count pw + Z.of_nat CAP)%Z with (pw_count pw + 0 + 1 * Z.of_nat CAP)%Z by lia.
  by rewrite Z_mod_plus_full.
Qed.

Lemma slot_inj pw a b : a < CAP -> b < CAP -> slot pw a = slot pw b -> a = b.
Proof.
  unfold slot. intros Ha Hb E. pose proof CAP_pos.
  pose proof (Z.mod_pos_bound (pw_count pw + Z.of_nat a) (Z.of_nat CAP) ltac:(lia)).
  pose proof (Z.mod_pos_bound (pw_count pw + Z.of_nat b) (Z.of_nat CAP) ltac:(lia)).
  apply Z2Nat.inj in E; [|lia..].
  pose proof (Z.div_mod (pw_count pw + Z.of_nat a) (Z.of_nat CAP) ltac:(lia)).
  pose proof (Z.div_mod (pw_count pw + Z.of_nat b) (Z.of_nat CAP) ltac:(lia)).
  set (q1 := ((pw_count pw + Z.of_nat a) / Z.of_nat CAP)%Z) in *.
  set (q2 := ((pw_count pw + Z.of_nat b) / Z.of_nat CAP)%Z) in *.
  assert (Ed : (Z.of_nat a - Z.of_nat b = Z.of_nat CAP * (q1 - q2))%Z) by lia.
  assert (q1 - q2 = 0)%Z by nia. lia.
Qed.

Lemma lookup_window pw k : k < CAP -> window pw !! k = Some (sample pw (slot pw k)).
Proof.
  intros Hk. unfold window. rewrite list_lookup_fmap, lookup_seq_lt by done. done.
Qed.

Lemma length_window pw : length (window pw) = CAP.
Proof. unfold window. by rewrite length_fmap, length_seq. Qed.

Lemma add_window pw pw' t :
  (0 < pw_count pw < UINT64_MAX)%Z -> pw_count pw' = u64 (pw_count pw + 1) ->
  (forall k, k < CAP -> sample pw' k = if decide (k = slot pw 0) then t else sample pw k) ->
  window pw' = drop 1 (window pw) ++ [t].
Proof.
  intros Hc Ec Hs. pose proof CAP_pos. apply list_eq. intros k.
  destruct (decide (k < CAP)) as [Hk|Hk].
  2: { rewrite lookup_ge_None_2 by (rewrite length_window; lia).
       rewrite lookup_ge_None_2; [done|].
       rewrite length_app, length_drop, length_window. cbn. lia. }
  rewrite lookup_window, (slot_succ pw pw' k Hc Ec), Hs by (done || apply slot_lt).
  destruct (decide (k = CAP - 1)) as [->|Hk1].
  - replace (S (CAP - 1)) with CAP by lia. rewrite slot_wrap, decide_True by done.
    rewrite lookup_app_r by (rewrite length_drop, length_window; lia).
    rewrite length_drop, length_window. by replace (CAP - 1 - (CAP - 1)) with 0 by lia.
  - rewrite decide_False by (intros E; apply slot_inj in E; lia).
    rewrite lookup_app_l by (rewrite length_drop, length_window; lia).
    rewrite lookup_drop. by rewrite lookup_window by lia.
Qed.

(** The sorted array is a rearrangement of the window. *)
Definition times pw : list Z := execution_time <$> by_duration pw.

Lemma lookup_times pw i : links pw -> i < CAP -> times pw !! i = Some (time_at pw i).
Proof.
  intros K Hi. destruct (links_bwd pw K i Hi) as (n & E & _).
  unfold times, time_at. by rewrite list_lookup_fmap, E.
Qed.

(** A function that is injective on [0, n) and stays there permutes it. *)
Lemma seq_injection_permutation (f : nat -> nat) n :
  (forall a, a < n -> f a < n) -> (forall a b, a < n -> b < n -> f a = f b -> a = b) ->
  f <$> seq 0 n ≡ₚ seq 0 n.
Proof.
  intros Hf Hinj. apply submseteq_length_Permutation.
  2: by rewrite length_fmap.
  apply NoDup_submseteq.
  - apply NoDup_fmap_2_strong; [|apply NoDup_seq].
    intros a b Ha Hb. rewrite elem_of_seq in Ha, Hb. apply Hinj; lia.
  - intros x Hx. apply list_elem_of_fmap in Hx as (a & -> & Ha). rewrite elem_of_seq in *.
    specialize (Hf a ltac:(lia)). lia.
Qed.

Lemma times_window pw : links pw -> times pw ≡ₚ window pw.
Proof.
  intros K.
  assert (Hbt : forall j, j < CAP -> exists i, by_termination pw !! j = Some i /\ i < CAP).
  { intros j Hj. destruct (links_fwd pw K j Hj) as (i & n & E1 & E2 & _).
    exists i. split; [done|]. apply lookup_lt_Some in E2. by rewrite (links_bd pw K) in E2. }
  trans (time_at pw <$> seq 0 CAP).
  { apply reflexive_eq, list_eq. intros i. rewrite list_lookup_fmap.
    destruct (decide (i < CAP)) as [Hi|Hi].
    - by rewrite lookup_times, lookup_seq_lt.
    - rewrite lookup_seq_ge by lia. apply lookup_ge_None_2. unfold times.
      rewrite length_fmap, (links_bd pw K). lia. }
  trans (sample pw <$> seq 0 CAP).
  - symmetry.
    change (sample pw) with (time_at pw ∘ (fun j => default 0 (by_termination pw !! j))).
    rewrite list_fmap_compose.
    apply fmap_Permutation, seq_injection_permutation.
    + intros a Ha. destruct (Hbt a Ha) as (i & -> & Hi). done.
    + intros a b Ha Hb. destruct (links_fwd pw K a Ha) as (i & n & -> & E2 & E3).
      destruct (links_fwd pw K b Hb) as (i' & n' & -> & E2' & E3'). cbn. intros ->. congruence.
  - symmetry. unfold window. change (fun k => sample pw (slot pw k)) with (sample pw ∘ slot pw).
    rewrite list_fmap_compose.
    apply fmap_Permutation, seq_injection_permutation; [intros; apply slot_lt | apply slot_inj].
Qed.

Lemma times_sorted pw :
  links pw -> sorted_to (time_at pw) CAP -> StronglySorted Z.le (times pw).
Proof.
  intros K Hs. assert (Hl : length (times pw) = CAP) by (unfold times; by rewrite length_fmap, (links_bd pw K)).
  assert (Hlk : forall a b x y, a <= b -> times pw !! a = Some x -> times pw !! b = Some y -> (x <= y)%Z).
  { intros a b x y Hab Ea Eb. apply lookup_lt_Some in Ea as La. apply lookup_lt_Some in Eb as Lb.
    rewrite lookup_times in Ea, Eb by (done || lia). simplify_eq. apply Hs; lia. }
  clear Hl. revert Hlk. generalize (times pw). intros l. induction l as [|x l IH]; intros Hlk;
    constructor.
  - apply IH. intros a b u v Hab Ea Eb. by apply (Hlk (S a) (S b)); [lia | |].
  - apply Forall_lookup_2. intros i y Ei. by apply (Hlk 0 (S i)); [lia | |].
Qed.

(** ** The first sample and histories *)

Lemma fill_ok pw t :
  let pw' := perf_window_fill pw t in
  pw_wf pw' /\ window pw' = replicate CAP t.
Proof.
  intros pw'. pose proof CAP_pos as HC.
  assert (D : forall i, i < CAP -> by_duration pw' !! i = Some (mk_execution_node t i)).
  { intros i Hi. cbn. by rewrite list_lookup_fmap, lookup_seq_lt. }
  assert (B : forall i, i < CAP -> by_termination pw' !! i = Some i)
    by (intros i Hi; cbn; by rewrite lookup_seq_lt).
  split; [split; [split|split]|].
  - cbn. by rewrite length_fmap, length_seq.
  - cbn. by rewrite length_seq.
  - intros j Hj. exists j, (mk_execution_node t j). rewrite D, B by done. done.
  - intros i Hi. exists (mk_execution_node t i). rewrite D, B by done. done.
  - intros a b Hab Hb. unfold time_at. rewrite !D by lia. done.
  - cbn. lia.
  - apply list_eq. intros k. destruct (decide (k < CAP)) as [Hk|Hk].
    + rewrite lookup_window, lookup_replicate_2 by done. unfold sample, time_at.
      rewrite B by apply slot_lt. cbn. by rewrite D by apply slot_lt.
    + rewrite !lookup_ge_None_2; [done | rewrite length_replicate; lia | rewrite length_window; lia].
Qed.

(** The last [CAP] samples of a history whose first sample fills the window. *)
Definition recent (hist : list Z) : list Z :=
  match hist with
  | [] => []
  | t :: rest => drop (length rest) (replicate CAP t ++ rest)
  end.

Lemma recent_snoc hist t : hist <> [] -> recent (hist ++ [t]) = drop 1 (recent hist) ++ [t].
Proof.
  destruct hist as [|x rest]; [done|]. intros _. pose proof CAP_pos. cbn.
  rewrite length_app. cbn. rewrite (app_assoc _ rest), drop_app_le, drop_drop.
  - done.
  - rewrite length_app, length_replicate. lia.
Qed.

Definition add_all pw (l : list Z) : outcome pwindow :=
  foldl (fun m t => pw ← m; perf_window_add pw t) (Ret pw) l.

Lemma add_all_snoc pw l t : add_all pw (l ++ [t]) = (pw ← add_all pw l; perf_window_add pw t).
Proof. unfold add_all. by rewrite foldl_app. Qed.

Lemma history_ok pw0 hist :
  pw_count pw0 = 0%Z -> lock_is_locked (pw_lock pw0) = true ->
  Forall (fun t => 0 < t)%Z hist -> hist <> [] ->
  (Z.of_nat (length hist) + Z.of_nat CAP < UINT64_MAX)%Z ->
  exists pw, add_all pw0 hist = Ret pw /\ pw_wf pw /\ window pw = recent hist
    /\ pw_count pw = (Z.of_nat CAP + Z.of_nat (length hist) - 1)%Z /\ pw_lock pw = pw_lock pw0.
Proof.
  intros Hc Hl. induction hist as [|t hist IH] using rev_ind; [done|]. intros Hpos _ Hlen.
  apply Forall_app in Hpos as [Hpos Ht]. apply Forall_inv in Ht.
  rewrite length_app in *. cbn [length] in *. rewrite add_all_snoc.
  pose proof CAP_pos as HC.
  destruct (decide (hist = [])) as [->|Hne].
  - cbn -[perf_window_fill]. unfold perf_window_add.
    rewrite (proj2 (Z.ltb_lt _ _) Ht), Hl, Hc. cbn -[perf_window_fill].
    destruct (fill_ok pw0 t) as [W E]. eexists. split; [done|]. split; [done|].
    split; [|cbn; split; [lia | done]]. rewrite E. cbn. by rewrite app_nil_r, drop_0.
  - destruct (IH Hpos Hne) as (pw & -> & W & Ew & Ec & El); [lia|]. cbn -[perf_window_add].
    destruct (add_replace_ok pw t W) as (pw' & -> & K' & S' & Sm & C' & L'); [by rewrite El | done |].
    assert (Hcnt : (0 < pw_count pw < UINT64_MAX)%Z) by (rewrite Ec; destruct hist; [done|cbn [length] in *; lia]).
    exists pw'. split; [done|]. split; [split; [done|]; split; [done|]|].
    { rewrite C', u64_small; lia. }
    split; [|split; [rewrite C', u64_small; lia | congruence]].
    rewrite recent_snoc by done. rewrite <- Ew. by apply add_window.
Qed.

(** ** The contract *)

(** C10: the perf window represents the recent past.  Starting from an empty
    window whose lock is held, every history of positive samples is recorded
    without an assertion failing, and afterwards [by_duration] is the sorted
    rearrangement of the last PERF_WINDOW_CAPACITY samples (the first sample
    standing for the ones that are missing). *)
Theorem perf_window_history pw0 hist :
  pw_count pw0 = 0%Z -> lock_is_locked (pw_lock pw0) = true ->
  Forall (fun t => 0 < t)%Z hist -> hist <> [] ->
  (Z.of_nat (length hist) + Z.of_nat CAP < UINT64_MAX)%Z ->
  exists pw, add_all pw0 hist = Ret pw
    /\ times pw ≡ₚ recent hist /\ StronglySorted Z.le (times pw)
    /\ length (times pw) = CAP.
Proof.
  intros Hc Hl Hp Hne Hlen. destruct (history_ok pw0 hist) as (pw & -> & W & Ew & _); [done..|].
  destruct W as (K & Hs & _). exists pw. split; [done|].
  split; [rewrite times_window, Ew by done; done|]. split; [by apply times_sorted|].
  unfold times. by rewrite length_fmap, (links_bd pw K).
Qed.

Lemma percentile_ok pw percentile precomputed :
  pw_wf pw -> (Z.of_nat CAP <= pw_count pw)%Z -> (50 <= percentile <= 99)%Z ->
  precomputed = 0%Z \/ precomputed = (Z.of_nat CAP * percentile / 100)%Z ->
  exists v below above,
    perf_window_get_percentile pw percentile precomputed = Ret v
    /\ window pw ≡ₚ below ++ v :: above
    /\ Forall (fun t => t <= v)%Z below /\ Forall (fun t => v <= t)%Z above
    /\ Z.of_nat (length below) = (Z.of_nat CAP * percentile / 100)%Z.
Proof.
  intros (K & Hs & Hc) Hcap Hp Hidx. pose proof CAP_pos as HC.
  assert (Hi : (0 <= Z.of_nat CAP * percentile / 100 < Z.of_nat CAP)%Z).
  { split; [apply Z.div_pos; lia | apply Z.div_lt_upper_bound; nia]. }
  set (idx := (Z.of_nat CAP * percentile / 100)%Z) in *.
  pose proof (lookup_times pw (Z.to_nat idx) K ltac:(lia)) as Ev.
  exists (time_at pw (Z.to_nat idx)), (take (Z.to_nat idx) (times pw)),
    (drop (S (Z.to_nat idx)) (times pw)).
  assert (Hl : length (times pw) = CAP) by (unfold times; by rewrite length_fmap, (links_bd pw K)).
  split; [|split; [|split; [|split]]].
  - unfold perf_window_get_percentile.
    rewrite (proj2 (Z.leb_le 50 percentile)), (proj2 (Z.leb_le percentile 99)) by lia. cbn -[time_of].
    destruct (Z.eqb_spec (pw_count pw) 0) as [|_]; [lia|].
    rewrite (proj2 (Z.ltb_ge (pw_count pw) (Z.of_nat CAP))) by done. rewrite orb_false_r.
    assert (E : (if (precomputed =? 0)%Z then (Z.of_nat CAP * percentile / 100)%Z else precomputed) = idx).
    { destruct (Z.eqb_spec precomputed 0); [done|]. by destruct Hidx. }
    rewrite E. rewrite (proj2 (Z.ltb_ge idx 0)) by lia. apply time_of_ok; [done | lia].
  - rewrite <- times_window by done. by rewrite (take_drop_middle _ _ _ Ev).
  - apply Forall_lookup_2. intros i x Ex. apply lookup_take_Some in Ex as [Ex Hlt].
    rewrite lookup_times in Ex by (done || lia). simplify_eq. apply Hs; lia.
  - apply Forall_lookup_2. intros i x Ex. rewrite lookup_drop in Ex.
    apply lookup_lt_Some in Ex as Hx. rewrite lookup_times in Ex by (done || lia).
    simplify_eq. apply Hs; lia.
  - rewrite length_take. lia.
Qed.

(** A percentile read is an order statistic of the window.  With the index
    the admissions code precomputes (or with none), the value returned for a
    percentile between 50 and 99 is a sample of the window, at least
    [CAP * percentile / 100 + 1] samples are not above it, and at least
    [CAP - CAP * percentile / 100] are not below it. *)
Theorem perf_window_percentile pw percentile precomputed :
  pw_wf pw -> (Z.of_nat CAP <= pw_count pw)%Z -> (50 <= percentile <= 99)%Z ->
  precomputed = 0%Z \/ precomputed = (Z.of_nat CAP * percentile / 100)%Z ->
  exists v below above,
    perf_window_get_percentile pw percentile precomputed = Ret v
    /\ window pw ≡ₚ below ++ v :: above
    /\ Forall (fun t => t <= v)%Z below /\ Forall (fun t => v <= t)%Z above
    /\ Z.of_nat (length below) = (Z.of_nat CAP * percentile / 100)%Z.
Proof. apply percentile_ok. Qed.
End spec.

(** ** Concrete windows *)

Definition demo_window : perf_window bool :=
  mk_perf_window (replicate PERF_WINDOW_CAPACITY (mk_execution_node 0 0))
    (replicate PERF_WINDOW_CAPACITY 0) 0 (mk_lock 0 0 true).

Lemma perf_window_history_witness :
  exists pw, add_all demo_window [30; 10; 20]%Z = Ret pw
    /\ times pw ≡ₚ recent [30; 10; 20]%Z /\ StronglySorted Z.le (times pw)
    /\ length (times pw) = PERF_WINDOW_CAPACITY.
Proof.
  apply (perf_window_history demo_window [30; 10; 20]%Z); try reflexivity; try discriminate.
  repeat constructor.
Defined.

Lemma perf_window_percentile_witness :
  exists v below above,
    perf_window_get_percentile (perf_window_fill demo_window 30) 90 230 = Ret v
    /\ window (perf_window_fill demo_window 30) ≡ₚ below ++ v :: above
    /\ Forall (fun t => t <= v)%Z below /\ Forall (fun t => v <= t)%Z above
    /\ Z.of_nat (length below) = 230%Z.
Proof.
  apply (perf_window_percentile (perf_window_fill demo_window 30) 90 230).
  - apply (fill_ok demo_window 30).
  - reflexivity || (vm_compute; discriminate).
  - lia.
  - right. reflexivity.
Defined.
