(* ===== verification/Admissions.v ===== *)
(** * Admissions: admissions control and per-route execution estimates

    [runtime/src/admissions_control.c], [runtime/src/admissions_info.c] and
    their headers.  The build flag ADMISSIONS_CONTROL is a boolean argument.
    The capacity is computed by the source in [double]; the computation is
    reproduced with the IEEE-754 binary64 operations of [SpecFloat].

    The counter of admitted work is shared: the listener thread reads it and
    adds to it, the workers subtract from it.  [adm_step] interleaves the
    atomic accesses of both, and [admissions_safe] is proved for every
    interleaving. *)

From Stdlib Require Import ZArith Lia SpecFloat.
From S2P Require Import Prelude Lock PerfWindow PerfWindowSpec.
Local Open Scope Z_scope.

Definition ADMISSIONS_CONTROL_GRANULARITY : Z := 1000000.

(** ** binary64 arithmetic, as the capacity computation uses it *)

Definition double_of_Z (z : Z) : spec_float := binary_normalize 53 1024 z 0 false.
Definition double_mul := SFmul 53 1024.
Definition double_sub := SFsub 53 1024.

(** Conversion of a non-negative double to an unsigned integer truncates. *)
Definition Z_of_double (d : spec_float) : Z :=
  match d with
  | S754_finite false m e => if 0 <=? e then Zpos m * 2 ^ e else Zpos m / 2 ^ (- e)
  | _ => 0
  end.

(** The double nearest to 0.2: 7205759403792794 * 2^-55. *)
Definition admissions_control_overhead : spec_float := S754_finite false 7205759403792794 (-55).

Section control.
Variable ADMISSIONS_CONTROL : bool.

(** The product of the worker count and the granularity is a 32-bit unsigned
    one; only then does the computation continue in [double]. *)
Definition admissions_control_initialize (runtime_worker_threads_count : Z) : Z * Z :=
  if ADMISSIONS_CONTROL then
    (0, Z_of_double (double_mul
          (double_of_Z (u32 (runtime_worker_threads_count * ADMISSIONS_CONTROL_GRANULARITY)))
          (double_sub (double_of_Z 1) admissions_control_overhead)))
  else (0, 0).

Definition admissions_control_add (admitted admissions_estimate : Z) : outcome Z :=
  if ADMISSIONS_CONTROL then
    assert (0 <? admissions_estimate) ;;
    Ret (u64 (admitted + admissions_estimate))
  else Ret admitted.

Definition admissions_control_subtract (admitted admissions_estimate : Z) : outcome Z :=
  if ADMISSIONS_CONTROL then
    if admitted <? admissions_estimate then Stop Panic else
    Ret (u64 (admitted - admissions_estimate))
  else Ret admitted.

Definition admissions_control_calculate_estimate (estimated_execution relative_deadline : Z)
  : outcome Z :=
  if ADMISSIONS_CONTROL then
    assert (negb (relative_deadline =? 0)) ;;
    let admissions_estimate :=
      u64 (estimated_execution * ADMISSIONS_CONTROL_GRANULARITY) / relative_deadline in
    if admissions_estimate =? 0 then Stop Panic else Ret admissions_estimate
  else Ret 0.

(** The 32-bit product wraps before it is widened. *)
Definition admissions_control_calculate_estimate_us
  (estimated_execution_us relative_deadline_us : Z) : outcome Z :=
  if ADMISSIONS_CONTROL then
    assert (negb (relative_deadline_us =? 0)) ;;
    Ret (u32 (estimated_execution_us * ADMISSIONS_CONTROL_GRANULARITY) / relative_deadline_us)
  else Ret 0.

(** Returns the work admitted (0: rejected) and the new counter. *)
Definition admissions_control_decide (capacity admitted admissions_estimate : Z)
  : outcome (Z * Z) :=
  if ADMISSIONS_CONTROL then
    if admissions_estimate =? 0 then Stop Panic else
    let total_admitted := admitted in
    if capacity <=? u64 (total_admitted + admissions_estimate) then Ret (0, admitted)
    else
      admitted ← admissions_control_add admitted admissions_estimate;
      Ret (admissions_estimate, admitted)
  else Ret (1, admitted).
End control.

(** ** Per-route estimates *)

Record admissions_info (L : Type) := mk_admissions_info {
  ai_perf_window : perf_window L;
  ai_percentile : Z;
  control_index : Z;
  estimate : Z;
  ai_relative_deadline : Z;
}.
Arguments mk_admissions_info {L} _ _ _ _ _.
Arguments ai_perf_window {L} _.
Arguments ai_percentile {L} _.
Arguments control_index {L} _.
Arguments estimate {L} _.
Arguments ai_relative_deadline {L} _.

Section info.
Context {L : Type} `{SpinLock L}.
Variable ADMISSIONS_CONTROL : bool.

Definition admissions_info_initialize (info : admissions_info L)
  (percentile expected_execution relative_deadline : Z) : outcome (admissions_info L) :=
  if ADMISSIONS_CONTROL then
    assert (0 <? relative_deadline) ;;
    assert (0 <? expected_execution) ;;
    estimate ← admissions_control_calculate_estimate ADMISSIONS_CONTROL
                 expected_execution relative_deadline;
    let perf_window := perf_window_initialize in
    if (percentile <? 50) || (99 <? percentile) then Stop Panic else
    Ret (mk_admissions_info perf_window percentile
           (Z.of_nat PERF_WINDOW_CAPACITY * percentile / 100) estimate relative_deadline)
  else Ret info.

Definition set_window_lock (pw : perf_window L) (l : lock_t L) : perf_window L :=
  mk_perf_window (by_duration pw) (by_termination pw) (pw_count pw) l.

(** [now] and [later] are the cycle counter at lock and unlock. *)
Definition admissions_info_update (info : admissions_info L) (execution_duration now later : Z)
  : outcome (admissions_info L) :=
  if ADMISSIONS_CONTROL then
    let perf_window := ai_perf_window info in
    '(l, node) ← lock_lock (pw_lock perf_window) lock_node_zero now;
    let perf_window := set_window_lock perf_window l in
    perf_window ← perf_window_add perf_window execution_duration;
    estimated_execution ← perf_window_get_percentile perf_window (ai_percentile info)
                            (control_index info);
    estimate ← admissions_control_calculate_estimate ADMISSIONS_CONTROL
                 estimated_execution (ai_relative_deadline info);
    '(l, _) ← lock_unlock (pw_lock perf_window) node later;
    Ret (mk_admissions_info (set_window_lock perf_window l) (ai_percentile info)
           (control_index info) estimate (ai_relative_deadline info))
  else Ret info.
End info.

(** ** The capacity is exactly four fifths of the workers *)

Lemma capacity_table :
  forallb (fun n => snd (admissions_control_initialize true (Z.of_nat n)) =? 800000 * Z.of_nat n)
    (seq 1 4294) = true.
Proof. vm_compute. reflexivity. Qed.

(** The capacity computed in floating point is exact.  For every worker
    count whose product with the granularity fits 32 bits (1 to 4294), the
    rounding of the double computation leaves no error: the counter starts at 0
    and the capacity is exactly 800000 units per worker, 80% of the machine. *)
Theorem admissions_capacity_exact n :
  1 <= n <= 4294 ->
  admissions_control_initialize true n = (0, 800000 * n).
Proof.
  intros Hn. pose proof capacity_table as T. rewrite forallb_forall in T.
  specialize (T (Z.to_nat n)). rewrite Z2Nat.id in T by lia.
  apply injective_projections; [done|]. apply Z.eqb_eq, T, in_seq. lia.
Qed.

Lemma admissions_capacity_exact_witness :
  admissions_control_initialize true 16 = (0, 12800000).
Proof. apply (admissions_capacity_exact 16). lia. Defined.

(** ** Interleavings of the listener and the workers *)

Fixpoint zsum (l : list Z) : Z :=
  match l with [] => 0 | x :: l => x + zsum l end.

Lemma zsum_app l k : zsum (l ++ k) = zsum l + zsum k.
Proof. induction l; cbn; lia. Qed.

Lemma zsum_nonneg l : Forall (fun e => 0 < e) l -> 0 <= zsum l.
Proof. induction 1; cbn; lia. Qed.

(** Where the listener is inside [admissions_control_decide]: outside, or
    between the atomic load and the atomic add. *)
Inductive decide_pc := DIdle | DLoaded (estimate total_admitted : Z).

(** [outstanding] are the estimates of admitted requests whose completion has
    not reached [admissions_control_subtract]; [subtracting] the ones a worker
    has compared with the counter but not yet subtracted. *)
Record adm_state := mk_adm_state {
  adm_counter : Z;
  adm_listener : decide_pc;
  outstanding : list Z;
  subtracting : list Z;
  adm_stopped : option fault;
}.

Section interleaving.
Variable capacity : Z.

Inductive adm_step : adm_state -> adm_state -> Prop :=
| adm_load c o s e :
    0 < e -> capacity + e <= UINT64_MAX ->
    adm_step (mk_adm_state c DIdle o s None) (mk_adm_state c (DLoaded e c) o s None)
| adm_reject c o s e t :
    (capacity <=? u64 (t + e)) = true ->
    adm_step (mk_adm_state c (DLoaded e t) o s None) (mk_adm_state c DIdle o s None)
| adm_admit c o s e t c' :
    (capacity <=? u64 (t + e)) = false ->
    admissions_control_add true c e = Ret c' ->
    adm_step (mk_adm_state c (DLoaded e t) o s None) (mk_adm_state c' DIdle (e :: o) s None)
| adm_add_fault c o s e t f :
    (capacity <=? u64 (t + e)) = false ->
    admissions_control_add true c e = Stop f ->
    adm_step (mk_adm_state c (DLoaded e t) o s None)
      (mk_adm_state c (DLoaded e t) o s (Some f))
| adm_compare c l o1 e o2 s :
    (c <? e) = false ->
    adm_step (mk_adm_state c l (o1 ++ e :: o2) s None)
      (mk_adm_state c l (o1 ++ o2) (e :: s) None)
| adm_underflow c l o1 e o2 s :
    (c <? e) = true ->
    adm_step (mk_adm_state c l (o1 ++ e :: o2) s None)
      (mk_adm_state c l (o1 ++ e :: o2) s (Some Panic))
| adm_subtract c l o s1 e s2 :
    adm_step (mk_adm_state c l o (s1 ++ e :: s2) None)
      (mk_adm_state (u64 (c - e)) l o (s1 ++ s2) None).

Definition adm_initial : adm_state := mk_adm_state 0 DIdle [] [] None.

Record adm_inv (st : adm_state) : Prop := {
  adm_sum : adm_counter st = zsum (outstanding st) + zsum (subtracting st);
  adm_below : 0 <= adm_counter st < capacity;
  adm_pos : Forall (fun e => 0 < e) (outstanding st ++ subtracting st);
  adm_fresh : match adm_listener st with
              | DIdle => True
              | DLoaded e t => 0 < e /\ capacity + e <= UINT64_MAX
                  /\ adm_counter st <= t < capacity
              end;
  adm_running : adm_stopped st = None;
}.

Hypothesis capacity_range : 0 < capacity <= UINT64_MAX.

Lemma adm_inv_initial : adm_inv adm_initial.
Proof. split; cbn; try done; try lia. Qed.

Lemma adm_sum_mid l1 e l2 : zsum (l1 ++ e :: l2) = e + zsum (l1 ++ l2).
Proof. rewrite !zsum_app. cbn. lia. Qed.

Lemma adm_step_inv st st' : adm_inv st -> adm_step st st' -> adm_inv st'.
Proof.
  intros [Hs Hb Hp Hf Hr] T. unfold UINT64_MAX in *.
  destruct T; cbn in *; try rewrite adm_sum_mid in Hs.
  - split; cbn; try done; lia.
  - split; cbn; done.
  - unfold admissions_control_add in H0. destruct Hf as (He & Hm & Ht).
    rewrite u64_small in H by (unfold UINT64_MAX; lia). apply Z.leb_gt in H.
    rewrite (proj2 (Z.ltb_lt 0 e)) in H0 by done. cbn in H0. injection H0 as <-.
    rewrite u64_small by (unfold UINT64_MAX; lia).
    split; cbn; try done; try lia. by constructor.
  - unfold admissions_control_add in H0. destruct Hf as (He & _).
    by rewrite (proj2 (Z.ltb_lt 0 e)) in H0.
  - split; cbn; try done; try lia.
    eapply Permutation_Forall; [|exact Hp]. by rewrite <- !Permutation_middle.
  - exfalso. apply Z.ltb_lt in H. rewrite Forall_app in Hp. destruct Hp as [Ho Hsu].
    rewrite Forall_app, Forall_cons_iff in Ho. destruct Ho as (H1 & H2 & H3).
    pose proof (zsum_nonneg s Hsu). pose proof (zsum_nonneg (o1 ++ o2) ltac:(by apply Forall_app)). lia.
  - rewrite !Forall_app, Forall_cons_iff in Hp. destruct Hp as (Ho & H1 & H2 & H3).
    pose proof (zsum_nonneg o Ho). pose proof (zsum_nonneg (s1 ++ s2) ltac:(by apply Forall_app)).
    rewrite u64_small by (unfold UINT64_MAX; lia).
    split; cbn; try done; try lia.
    + rewrite !Forall_app. done.
    + destruct l; [done|]. unfold UINT64_MAX; lia.
Qed.

(** C4: admissions control never over-commits, under every interleaving of
    the listener's load and add with the workers' compare and subtract.  In each
    reachable state the counter is the sum of the estimates still outstanding
    or being subtracted, it stays below the capacity, and neither the
    underflow panic nor an assertion is ever reached.  Estimates are positive and,
    added to the capacity, fit 64 bits. *)
Theorem admissions_safe st :
  rtc adm_step adm_initial st ->
  adm_counter st = zsum (outstanding st) + zsum (subtracting st)
  /\ 0 <= adm_counter st < capacity
  /\ adm_stopped st = None.
Proof.
  intros R. enough (adm_inv st) as [? ? ? ? ?] by done.
  pose proof adm_inv_initial as I0.
  induction R; [done|]. eauto using adm_step_inv.
Qed.

(** The sequential handler is the load and the add with nothing in between. *)
Lemma decide_steps c o s e w c' :
  0 < e -> capacity + e <= UINT64_MAX ->
  admissions_control_decide true capacity c e = Ret (w, c') ->
  rtc adm_step (mk_adm_state c DIdle o s None)
    (mk_adm_state c' DIdle (if w =? 0 then o else w :: o) s None).
Proof.
  intros He Hm. unfold admissions_control_decide.
  rewrite (proj2 (Z.eqb_neq e 0)) by lia.
  destruct (capacity <=? u64 (c + e)) eqn:E; intros R; inv_outcome.
  - eapply rtc_l; [by apply adm_load|]. by apply rtc_once, adm_reject.
  - rewrite (proj2 (Z.eqb_neq w 0)) by lia.
    eapply rtc_l; [by apply adm_load|]. by eapply rtc_once, adm_admit.
Qed.

(** A worker's subtraction is the comparison and the atomic subtraction. *)
Lemma subtract_steps c l o1 e o2 s c' :
  admissions_control_subtract true c e = Ret c' ->
  rtc adm_step (mk_adm_state c l (o1 ++ e :: o2) s None) (mk_adm_state c' l (o1 ++ o2) s None).
Proof.
  unfold admissions_control_subtract. destruct (c <? e) eqn:E; intros R; inv_outcome.
  eapply rtc_l; [by apply adm_compare|]. apply rtc_once, (adm_subtract c l (o1 ++ o2) [] e s).
Qed.
End interleaving.

Lemma admissions_safe_witness :
  admissions_control_decide true 100 0 60 = Ret (60, 60)
  /\ admissions_control_decide true 100 60 40 = Ret (0, 60)
  /\ 60 = zsum [60] + zsum [] /\ 0 <= 60 < 100 /\ @None fault = None.
Proof.
  split; [reflexivity|]. split; [reflexivity|].
  apply (admissions_safe 100 ltac:(unfold UINT64_MAX; lia) (mk_adm_state 60 DIdle [60] [] None)).
  apply (decide_steps 100 0 [] [] 60 60 60); [lia | unfold UINT64_MAX; lia | reflexivity].
Defined.

(** ** The estimate of a route follows the percentile of its recent executions *)

(** [v] has [k] elements of [l] before it in sorted order. *)
Definition order_statistic (l : list Z) (k v : Z) : Prop :=
  exists below above, l ≡ₚ below ++ v :: above
    /\ Forall (fun t => t <= v) below /\ Forall (fun t => v <= t) above
    /\ Z.of_nat (length below) = k.

Section estimates.
Context {L : Type} `{SpinLock L}.
Implicit Types info : admissions_info L.

(** The state of a route's estimator after the durations [hist]. *)
Record info_inv info (hist : list Z) : Prop := {
  info_percentile : 50 <= ai_percentile info <= 99;
  info_index : control_index info = Z.of_nat PERF_WINDOW_CAPACITY * ai_percentile info / 100;
  info_deadline : 0 < ai_relative_deadline info;
  info_unlocked : lock_is_locked (pw_lock (ai_perf_window info)) = false;
  info_window : match hist with
                | [] => pw_count (ai_perf_window info) = 0
                | _ => pw_wf (ai_perf_window info)
                    /\ window (ai_perf_window info) = recent hist
                    /\ pw_count (ai_perf_window info)
                       = Z.of_nat PERF_WINDOW_CAPACITY + Z.of_nat (length hist) - 1
                end;
}.

Lemma info_initialize_ok info percentile expected deadline :
  0 < deadline -> 0 < expected -> 50 <= percentile <= 99 ->
  0 < u64 (expected * ADMISSIONS_CONTROL_GRANULARITY) / deadline ->
  exists info', admissions_info_initialize true info percentile expected deadline = Ret info'
    /\ info_inv info' []
    /\ estimate info' = u64 (expected * ADMISSIONS_CONTROL_GRANULARITY) / deadline.
Proof.
  intros Hd He Hp Hq. unfold admissions_info_initialize, admissions_control_calculate_estimate.
  rewrite (proj2 (Z.ltb_lt 0 deadline)), (proj2 (Z.ltb_lt 0 expected)) by done. cbn.
  rewrite (proj2 (Z.eqb_neq deadline 0)) by lia. cbn.
  rewrite (proj2 (Z.eqb_neq _ 0)) by lia. cbn.
  rewrite (proj2 (Z.ltb_ge percentile 50)), (proj2 (Z.ltb_ge 99 percentile)) by lia. cbn.
  eexists. split; [done|]. split; [|done].
  split; cbn; try done. apply mcs_init_unlocked.
Qed.

(** Adding one duration to the locked window. *)
Lemma add_recent (pw : perf_window L) hist d :
  lock_is_locked (pw_lock pw) = true -> 0 < d ->
  Z.of_nat (length hist) + Z.of_nat PERF_WINDOW_CAPACITY < UINT64_MAX ->
  match hist with
  | [] => pw_count pw = 0
  | _ => pw_wf pw /\ window pw = recent hist
      /\ pw_count pw = Z.of_nat PERF_WINDOW_CAPACITY + Z.of_nat (length hist) - 1
  end ->
  exists pw', perf_window_add pw d = Ret pw' /\ pw_wf pw'
    /\ window pw' = recent (hist ++ [d])
    /\ pw_count pw' = Z.of_nat PERF_WINDOW_CAPACITY + Z.of_nat (length (hist ++ [d])) - 1
    /\ pw_lock pw' = pw_lock pw.
Proof.
  intros Hl Hd Hlen. destruct hist as [|x rest].
  - intros Hc. destruct (history_ok pw [d]) as (pw' & E & W & Ew & Ec & El); try done.
    { by constructor. }
    exists pw'. split; [|done]. rewrite <- E. unfold add_all. done.
  - intros (W & Ew & Ec).
    destruct (add_replace_ok pw d W Hl Hd) as (pw' & E & K & Hs & Hsam & Hc & Hlk).
    cbn [length] in *.
    assert (Hc2 : pw_count pw' = pw_count pw + 1) by (rewrite Hc; apply u64_small; lia).
    exists pw'. split; [done|]. split; [split; [done|]; split; [done|]; lia|].
    split; [|split; [|done]].
    + rewrite (add_window pw pw' d), Ew, recent_snoc; try done. destruct W as (_ & _ & ?). lia.
    + rewrite length_app. cbn [length]. lia.
Qed.

(** Taking or releasing the lock leaves the samples alone. *)
Lemma set_window_lock_wf (pw : perf_window L) l : pw_wf pw -> pw_wf (set_window_lock pw l).
Proof. intros ([? ? ? ?] & Hs & Hc). split; [by split | done]. Qed.

(** A route's estimate is the configured percentile of its recent
    executions over its deadline.  Recording a duration never fails an
    assertion and leaves the window's lock free; the new estimate is
    [v * granularity / deadline] for the value [v] of rank
    [256 * percentile / 100] among the last 256 durations, and the one way the
    update stops is the panic on an estimate of zero. *)
Theorem admissions_info_update_spec info hist d now later :
  info_inv info hist -> 0 < d -> 0 < now < later -> later <= UINT64_MAX ->
  Z.of_nat (length hist) + Z.of_nat PERF_WINDOW_CAPACITY < UINT64_MAX ->
  exists v, order_statistic (recent (hist ++ [d])) (control_index info) v
    /\ let e := u64 (v * ADMISSIONS_CONTROL_GRANULARITY) / ai_relative_deadline info in
       match admissions_info_update true info d now later with
       | Ret info' => e <> 0 /\ estimate info' = e /\ info_inv info' (hist ++ [d])
       | Stop f => e = 0 /\ f = Panic
       end.
Proof.
  intros [Hp Hi Hdl Hu Hw] Hd Hnow Hlater Hlen. unfold admissions_info_update.
  destruct (lock_lock_ok (pw_lock (ai_perf_window info)) now Hu) as (l & El & Hl & _ & _).
  rewrite El. cbn [mbind outcome_bind].
  set (pw := set_window_lock (ai_perf_window info) l).
  destruct (add_recent pw hist d) as (pw' & Ea & W & Ew & Ec & Elk); try done.
  { destruct hist; [done|]. destruct Hw as (? & ? & ?). split; [by apply set_window_lock_wf | done]. }
  rewrite Ea. cbn [mbind outcome_bind].
  destruct (percentile_ok pw' (ai_percentile info) (control_index info))
    as (v & below & above & Ev & Hperm & Hb & Ha & Hn); try done.
  { rewrite Ec, length_app. cbn [length]. lia. }
  { by right. }
  rewrite Ew in Hperm. exists v. split; [exists below, above; rewrite Hi; done|].
  rewrite Ev. cbn [mbind outcome_bind]. unfold admissions_control_calculate_estimate.
  rewrite (proj2 (Z.eqb_neq (ai_relative_deadline info) 0)) by lia. cbn [negb assert mbind outcome_bind].
  destruct (Z.eqb_spec (u64 (v * ADMISSIONS_CONTROL_GRANULARITY) / ai_relative_deadline info) 0)
    as [E0|E0]; [done|]. cbn [mbind outcome_bind].
  destruct (lock_unlock_ok (pw_lock pw') now later) as (l' & El' & Hl' & _ & _); try lia.
  { by rewrite Elk. }
  rewrite El'. cbn [mbind outcome_bind]. split; [done|]. split; [done|].
  split; cbn; try done.
  destruct (hist ++ [d]) eqn:Eh; [by destruct hist|].
  split; [by apply set_window_lock_wf | done].
Qed.
End estimates.

Definition demo_info : admissions_info bool :=
  mk_admissions_info perf_window_initialize 90 230 5000 200000.

Lemma admissions_info_update_spec_witness :
  exists v, order_statistic (recent ([] ++ [1000])) (control_index demo_info) v
    /\ let e := u64 (v * ADMISSIONS_CONTROL_GRANULARITY) / ai_relative_deadline demo_info in
       match admissions_info_update true demo_info 1000 10 20 with
       | Ret info' => e <> 0 /\ estimate info' = e /\ info_inv info' ([] ++ [1000])
       | Stop f => e = 0 /\ f = Panic
       end.
Proof.
  apply (admissions_info_update_spec demo_info [] 1000 10 20);
    [split; (done || (cbn; lia)) | lia | lia | done | done].
Defined.
