(* ===== verification/Map.v ===== *)
(** * Map: the tenants' key-value scratch storage

    [runtime/include/map.h].  A fixed array of buckets, each a linked list of
    nodes under its own lock.  A bucket's chain is the list of its nodes in
    link order; a key or value argument is the list of the [key_len] or
    [value_len] bytes the pointer addresses.  The lock node that [map_set],
    [map_delete] and [map_upsert] leave uninitialised is an argument.

    The abstract specification is a finite map keyed by the 32-bit hash: the
    code never compares the keys themselves. *)

From Stdlib Require Import ZArith Lia.
From S2P Require Import Prelude Lock.
Local Open Scope Z_scope.

Definition MAP_BUCKET_COUNT : nat := Z.to_nat 7907.

Record map_node := mk_map_node {
  mn_key : list Z;
  mn_value : list Z;
  mn_key_len : Z;
  mn_value_len : Z;
  mn_hash : Z;
}.

Record map_bucket (L : Type) := mk_map_bucket {
  mb_lock : lock_t L;
  mb_head : list map_node;
}.
Arguments mk_map_bucket {L} _ _.
Arguments mb_lock {L} _.
Arguments mb_head {L} _.

Record map (L : Type) := mk_map { buckets : list (map_bucket L) }.
Arguments mk_map {L} _.
Arguments buckets {L} _.

(** ** jenkins_hash *)

Definition jenkins_round (hash byte : Z) : Z :=
  let hash := u32 (hash + byte) in
  let hash := u32 (hash + u32 (Z.shiftl hash 10)) in
  Z.lxor hash (Z.shiftr hash 6).

Definition jenkins_finish (hash : Z) : Z :=
  let hash := u32 (hash + u32 (Z.shiftl hash 3)) in
  let hash := Z.lxor hash (Z.shiftr hash 11) in
  u32 (hash + u32 (Z.shiftl hash 15)).

Definition jenkins_hash (key : list Z) : Z := jenkins_finish (foldl jenkins_round 0 key).

Definition bucket_index (hash : Z) : nat := Z.to_nat (hash mod Z.of_nat MAP_BUCKET_COUNT).

(** The node with this hash: the loop every operation starts with. *)
Fixpoint chain_find (hash : Z) (chain : list map_node) : option map_node :=
  match chain with
  | [] => None
  | node :: chain => if mn_hash node =? hash then Some node else chain_find hash chain
  end.

Definition new_node (hash : Z) (key value : list Z) : map_node :=
  {| mn_key := key; mn_value := value; mn_key_len := Z.of_nat (length key);
     mn_value_len := Z.of_nat (length value); mn_hash := hash |}.

(** The in-place update of the first node with this hash. *)
Fixpoint chain_update (hash : Z) (value : list Z) (chain : list map_node) : list map_node :=
  match chain with
  | [] => []
  | node :: chain =>
    if mn_hash node =? hash
    then mk_map_node (mn_key node) value (mn_key_len node) (Z.of_nat (length value)) (mn_hash node)
         :: chain
    else node :: chain_update hash value chain
  end.

Section map.
Context {L : Type} `{SpinLock L}.

Abbreviation kv := (map L).

Definition map_init : kv := mk_map (replicate MAP_BUCKET_COUNT (mk_map_bucket lock_init [])).

(** Lock the bucket of [hash], run [body] on its chain, unlock it.  [now] and
    [later] are the cycle counter at the two calls. *)
Definition with_bucket {R} (m : kv) (hash : Z) (node : lock_node_t) (now later : Z)
  (body : list map_node -> outcome (R * list map_node)) : outcome (R * kv) :=
  let i := bucket_index hash in
  bucket ← deref (buckets m !! i);
  '(l, node) ← lock_lock (mb_lock bucket) node now;
  '(r, chain) ← body (mb_head bucket);
  '(l, _) ← lock_unlock l node later;
  Ret (r, mk_map (<[i := mk_map_bucket l chain]> (buckets m))).

(** Returns the value (NULL when absent) and [*ret_value_len]. *)
Definition map_get (m : kv) (key : list Z) (now later : Z)
  : outcome ((option (list Z) * Z) * kv) :=
  let hash := jenkins_hash key in
  with_bucket m hash lock_node_zero now later (fun chain =>
    match chain_find hash chain with
    | Some node => Ret ((Some (mn_value node), mn_value_len node), chain)
    | None => Ret ((None, 0), chain)
    end).

Definition map_set (m : kv) (key value : list Z) (node : lock_node_t) (now later : Z)
  : outcome (bool * kv) :=
  let hash := jenkins_hash key in
  with_bucket m hash node now later (fun chain =>
    match chain_find hash chain with
    | Some _ => Ret (false, chain)
    | None => Ret (true, new_node hash key value :: chain)
    end).

(** After the head, the loop's body deletes the node it looks at without
    comparing its hash; on an empty bucket [prev->next] reads through NULL. *)
Definition map_delete (m : kv) (key : list Z) (node : lock_node_t) (now later : Z)
  : outcome (bool * kv) :=
  let hash := jenkins_hash key in
  with_bucket m hash node now later (fun chain =>
    match chain with
    | [] => Stop Undefined
    | prev :: next =>
      if mn_hash prev =? hash then Ret (true, next)
      else match next with
           | [] => Ret (false, chain)
           | _ :: rest => Ret (true, prev :: rest)
           end
    end).

(** [realloc] to zero bytes returns NULL (glibc), which the code asserts against. *)
Definition map_upsert (m : kv) (key value : list Z) (node : lock_node_t) (now later : Z)
  : outcome (unit * kv) :=
  let hash := jenkins_hash key in
  with_bucket m hash node now later (fun chain =>
    match chain_find hash chain with
    | Some _ =>
      assert (negb (Z.of_nat (length value) =? 0)) ;;
      Ret (tt, chain_update hash value chain)
    | None => Ret (tt, new_node hash key value :: chain)
    end).

(** ** Representation *)

(** The chain holds exactly the entries of [M] whose hash falls into bucket [i],
    each once, with consistent lengths. *)
Record chain_repr (M : gmap Z (list Z)) (i : nat) (chain : list map_node) : Prop := {
  chain_nodup : NoDup (mn_hash <$> chain);
  chain_sound : Forall (fun n => bucket_index (mn_hash n) = i /\ M !! mn_hash n = Some (mn_value n)
                  /\ mn_value_len n = Z.of_nat (length (mn_value n))) chain;
  chain_complete h v : M !! h = Some v -> bucket_index h = i -> h ∈ (mn_hash <$> chain);
}.

Record map_repr (m : kv) (M : gmap Z (list Z)) : Prop := {
  repr_length : length (buckets m) = MAP_BUCKET_COUNT;
  repr_bucket i b : buckets m !! i = Some b ->
    lock_is_locked (mb_lock b) = false /\ chain_repr M i (mb_head b);
}.

Lemma bucket_index_lt h : (bucket_index h < MAP_BUCKET_COUNT)%nat.
Proof.
  unfold bucket_index. pose proof (Z.mod_pos_bound h (Z.of_nat MAP_BUCKET_COUNT) ltac:(done)). lia.
Qed.

Lemma map_init_repr : map_repr map_init ∅.
Proof.
  split; [apply length_replicate|]. intros i b [-> _]%lookup_replicate. cbn.
  split; [apply mcs_init_unlocked|]. split; [constructor | constructor|]. set_solver.
Qed.

(** A bucket operation that returns, seen from the outside. *)
Lemma with_bucket_ok {R} m M hash now later (body : list map_node -> outcome (R * list map_node))
  (P : R -> gmap Z (list Z) -> Prop) :
  map_repr m M -> 0 < now < later -> later <= UINT64_MAX ->
  (forall chain, chain_repr M (bucket_index hash) chain ->
    exists r chain' M', body chain = Ret (r, chain') /\ P r M'
      /\ chain_repr M' (bucket_index hash) chain'
      /\ forall h, bucket_index h <> bucket_index hash -> M' !! h = M !! h) ->
  exists r m' M', with_bucket m hash lock_node_zero now later body = Ret (r, m')
    /\ P r M' /\ map_repr m' M'.
Proof.
  intros [Hl Hb] Hn Hm Hbody. pose proof (bucket_index_lt hash) as Hi.
  destruct (lookup_lt_is_Some_2 (buckets m) (bucket_index hash) ltac:(lia)) as [b Eb].
  destruct (Hb _ _ Eb) as [Hu Hc].
  destruct (Hbody _ Hc) as (r & chain' & M' & E & HP & Hc' & Hother).
  destruct (lock_lock_ok (mb_lock b) now Hu) as (l & E1 & Hk & _ & _).
  destruct (lock_unlock_ok l now later Hk) as (l' & E2 & Hk' & _ & _); [lia..|].
  unfold with_bucket. rewrite Eb. ostep. rewrite E1. ostep. rewrite E. ostep. rewrite E2. ostep.
  exists r, (mk_map (<[bucket_index hash := mk_map_bucket l' chain']> (buckets m))), M'.
  split; [done|]. split; [done|]. split; cbn [buckets]; [by rewrite length_insert|].
  intros i b' Ei. destruct (decide (i = bucket_index hash)) as [->|Hne].
  - rewrite list_lookup_insert_eq in Ei by lia. injection Ei as <-. done.
  - rewrite list_lookup_insert_ne in Ei by done. destruct (Hb _ _ Ei) as [? [Hnd Hs Hco]].
    split; [done|]. split; [done| |].
    + eapply Forall_impl; [|exact Hs]. cbn. intros n (En & Em & ?).
      split; [done|]. split; [|done]. rewrite Hother; [done | congruence].
    + intros h v Eh Ehi. apply (Hco h v); [|done]. rewrite <- Hother; [done | congruence].
Qed.

(** The functions that declare their [lock_node_t] without an initializer stop at the
    lock's assertion, unless the stack held a zero there. *)
Lemma with_bucket_garbage {R} m M hash node now later (body : list map_node -> outcome (R * list map_node)) :
  map_repr m M -> time_locked node <> 0 -> with_bucket m hash node now later body = Stop AssertFail.
Proof.
  intros [Hl _] Hn. pose proof (bucket_index_lt hash) as Hi.
  destruct (lookup_lt_is_Some_2 (buckets m) (bucket_index hash) ltac:(lia)) as [b Eb].
  unfold with_bucket. rewrite Eb. ostep. unfold lock_lock. by rewrite (proj2 (Z.eqb_neq _ _)).
Qed.

Lemma chain_find_repr M i h chain :
  chain_repr M i chain -> bucket_index h = i ->
  match chain_find h chain with
  | Some n => n ∈ chain /\ mn_hash n = h /\ M !! h = Some (mn_value n)
      /\ mn_value_len n = Z.of_nat (length (mn_value n))
  | None => M !! h = None
  end.
Proof.
  intros [Hnd Hs Hco] Hi.
  assert (F : match chain_find h chain with
              | Some n => n ∈ chain /\ mn_hash n = h
              | None => h ∉ (mn_hash <$> chain)
              end).
  { clear Hnd Hs Hco. induction chain as [|n chain IH]; cbn; [set_solver|].
    destruct (Z.eqb_spec (mn_hash n) h) as [E|E]; [split; [constructor | done]|].
    destruct (chain_find h chain); [destruct IH; split; [by constructor | done]|].
    apply not_elem_of_cons. done. }
  destruct (chain_find h chain) as [n|].
  - destruct F as [Hin Eh]. rewrite Forall_forall in Hs.
    specialize (Hs n). rewrite <- list_elem_of_In in Hs.
    destruct (Hs Hin) as (_ & Em & Elen). rewrite <- Eh. done.
  - destruct (M !! h) eqn:E; [|done]. exfalso. by eapply F, Hco.
Qed.

(** Prepending a node with a fresh hash. *)
Lemma chain_repr_new M key value chain :
  let h := jenkins_hash key in
  chain_repr M (bucket_index h) chain -> M !! h = None ->
  chain_repr (<[h:=value]> M) (bucket_index h) (new_node h key value :: chain).
Proof.
  intros h [Hnd Hs Hco] Hnone.
  assert (Hfresh : h ∉ (mn_hash <$> chain)).
  { intros (n & En & Hin)%list_elem_of_fmap. rewrite Forall_forall in Hs.
    apply list_elem_of_In in Hin. destruct (Hs n Hin) as (_ & Em & _). congruence. }
  split.
  - cbn. by constructor.
  - constructor; cbn; [by rewrite lookup_insert_eq|].
    rewrite Forall_forall in *. intros n Hn. specialize (Hs n Hn) as (? & ? & ?).
    rewrite lookup_insert_ne; [done|]. intros ->. apply Hfresh, list_elem_of_fmap.
    exists n. by rewrite list_elem_of_In.
  - intros h' v. destruct (decide (h' = h)) as [->|Hne]; cbn.
    + intros. constructor.
    + rewrite lookup_insert_ne by done. intros. constructor. eauto.
Qed.

(** Overwriting the value of the node with this hash. *)
Lemma chain_update_hash h value chain :
  mn_hash <$> chain_update h value chain = mn_hash <$> chain.
Proof.
  induction chain as [|n chain IH]; cbn; [done|]. destruct (mn_hash n =? h); cbn; congruence.
Qed.

Lemma chain_repr_update M i h value chain :
  chain_repr M i chain -> is_Some (M !! h) ->
  chain_repr (<[h:=value]> M) i (chain_update h value chain).
Proof.
  intros [Hnd Hs Hco] [v0 E0]. split.
  - by rewrite chain_update_hash.
  - clear Hco. induction chain as [|n chain IH]; cbn; [constructor|].
    inversion Hnd as [|? ? Hn Hnd']; subst. apply Forall_cons_iff in Hs as [(Hb & Hv & Hl) Hs].
    destruct (Z.eqb_spec (mn_hash n) h) as [<-|Hne]; constructor; cbn; try rewrite lookup_insert_eq;
      try done.
    + rewrite Forall_forall in *. intros n' Hn'. destruct (Hs n' Hn') as (? & ? & ?).
      rewrite lookup_insert_ne; [done|]. intros E. apply Hn. rewrite E.
      apply list_elem_of_fmap. exists n'. by rewrite list_elem_of_In.
    + by rewrite lookup_insert_ne.
    + by apply IH.
  - intros h' v. rewrite chain_update_hash.
    destruct (decide (h' = h)) as [->|Hne]; [eauto|]. rewrite lookup_insert_ne by done. eauto.
Qed.

(** A read returns the value stored under the key's hash.  The map is
    unchanged, an absent key gives NULL with length 0, and the bucket's lock is
    free again. *)
Lemma map_get_ok m M key now later :
  map_repr m M -> 0 < now < later -> later <= UINT64_MAX ->
  exists r m', map_get m key now later = Ret (r, m') /\ map_repr m' M
    /\ r = match M !! jenkins_hash key with
           | Some v => (Some v, Z.of_nat (length v))
           | None => (None, 0)
           end.
Proof.
  intros Hm Hn Hl.
  enough (exists r m' M', map_get m key now later = Ret (r, m')
    /\ (M' = M /\ r = match M !! jenkins_hash key with
                     | Some v => (Some v, Z.of_nat (length v)) | None => (None, 0) end)
    /\ map_repr m' M') as (r & m' & M' & E & [-> Hr] & Hm') by (by exists r, m').
  apply (with_bucket_ok m M _ now later _ (fun r M' => M' = M /\ r = _)); [done..|].
  intros chain Hc. pose proof (chain_find_repr M _ (jenkins_hash key) chain Hc eq_refl) as F.
  destruct (chain_find (jenkins_hash key) chain) as [n|].
  - destruct F as (_ & _ & -> & ->). by eexists _, _, M.
  - rewrite F. by eexists _, _, M.
Qed.

(** [map_set] inserts only when the key's hash is absent, and says which
    it did; [map_upsert] of a non-empty value always binds the hash to the
    value.  Both leave the other entries alone and the locks free. *)
Lemma map_write_ok m M key value now later :
  map_repr m M -> 0 < now < later -> later <= UINT64_MAX ->
  (exists did_set m', map_set m key value lock_node_zero now later = Ret (did_set, m')
     /\ did_set = bool_decide (M !! jenkins_hash key = None)
     /\ map_repr m' (if did_set then <[jenkins_hash key := value]> M else M))
  /\ (value <> [] ->
      exists m', map_upsert m key value lock_node_zero now later = Ret (tt, m')
      /\ map_repr m' (<[jenkins_hash key := value]> M)).
Proof.
  intros Hm Hn Hl. split; [|intros Hv].
  - enough (exists d m' M', map_set m key value lock_node_zero now later = Ret (d, m')
      /\ (d = bool_decide (M !! jenkins_hash key = None)
          /\ M' = if d then <[jenkins_hash key := value]> M else M)
      /\ map_repr m' M') as (d & m' & M' & E & [Hd ->] & Hm') by (by exists d, m').
    apply (with_bucket_ok m M _ now later _
             (fun (d : bool) M' => d = bool_decide (M !! jenkins_hash key = None)
                /\ M' = if d then _ else _)); [done..|].
    intros chain Hc. pose proof (chain_find_repr M _ (jenkins_hash key) chain Hc eq_refl) as F.
    destruct (chain_find (jenkins_hash key) chain) as [n|].
    + destruct F as (_ & _ & E & _). rewrite E. by eexists _, _, M.
    + rewrite F. eexists _, _, (<[jenkins_hash key := value]> M). split; [done|].
      split; [done|]. split; [by apply chain_repr_new|].
      intros h Hh. apply lookup_insert_ne. congruence.
  - enough (exists u m' M', map_upsert m key value lock_node_zero now later = Ret (u, m')
      /\ M' = <[jenkins_hash key := value]> M /\ map_repr m' M')
      as ([] & m' & M' & E & -> & Hm') by (by exists m').
    apply (with_bucket_ok m M _ now later _ (fun _ M' => M' = <[jenkins_hash key := value]> M)); [done..|].
    intros chain Hc. pose proof (chain_find_repr M _ (jenkins_hash key) chain Hc eq_refl) as F.
    destruct (chain_find (jenkins_hash key) chain) as [n|];
      eexists tt, _, (<[jenkins_hash key := value]> M).
    + destruct F as (_ & _ & E & _). destruct value; [done|]. cbn [length].
      rewrite (proj2 (Z.eqb_neq _ 0)) by lia. split; [done|]. split; [done|].
      split; [apply chain_repr_update; eauto|]. intros h Hh. apply lookup_insert_ne. congruence.
    + split; [done|]. split; [done|]. split; [by apply chain_repr_new|].
      intros h Hh. apply lookup_insert_ne. congruence.
Qed.

(** The chain of a bucket with a single entry. *)
Lemma chain_repr_singleton M i h v chain :
  chain_repr M i chain -> M !! h = Some v -> bucket_index h = i ->
  (forall h', bucket_index h' = i -> is_Some (M !! h') -> h' = h) ->
  exists n, chain = [n] /\ mn_hash n = h.
Proof.
  intros [Hnd Hs Hco] Hv Hi Halone.
  assert (Hall : Forall (fun n => mn_hash n = h) chain).
  { eapply Forall_impl; [|exact Hs]. cbn. intros n (Hb & Hm & _). eauto. }
  specialize (Hco h v Hv Hi). destruct chain as [|n chain]; [by apply elem_of_nil in Hco|].
  apply Forall_cons_iff in Hall as [En Hall]. destruct chain as [|n' chain].
  { by exists n. }
  apply Forall_cons_iff in Hall as [En' _]. exfalso.
  inversion Hnd as [|? ? Hn _]. apply Hn. cbn. rewrite En, En'. constructor.
Qed.

(** What [map_delete] does to an uncrowded bucket.  A key that is the only
    entry of its bucket is removed; deleting a key whose bucket is empty reads
    through a NULL pointer. *)
Theorem map_delete_spec m M key now later :
  map_repr m M -> 0 < now < later -> later <= UINT64_MAX ->
  let hash := jenkins_hash key in
  (is_Some (M !! hash) ->
   (forall h, bucket_index h = bucket_index hash -> is_Some (M !! h) -> h = hash) ->
   exists m', map_delete m key lock_node_zero now later = Ret (true, m')
     /\ map_repr m' (delete hash M))
  /\ ((forall h, bucket_index h = bucket_index hash -> M !! h = None) ->
      map_delete m key lock_node_zero now later = Stop Undefined).
Proof.
  intros Hm Hn Hl hash. split.
  - intros [v Hv] Halone.
    enough (exists d m' M', map_delete m key lock_node_zero now later = Ret (d, m')
      /\ (d = true /\ M' = delete hash M) /\ map_repr m' M')
      as (d & m' & M' & E & [-> ->] & Hm') by (by exists m').
    apply (with_bucket_ok m M _ now later _ (fun d M' => d = true /\ M' = delete hash M)); [done..|].
    intros chain Hc. destruct (chain_repr_singleton _ _ _ _ _ Hc Hv eq_refl Halone) as (n & -> & En).
    rewrite En, Z.eqb_refl. eexists true, [], (delete hash M). do 2 (split; [done|]). split.
    + split; cbn; [constructor | constructor|]. intros h w Hw Hb.
      apply lookup_delete_Some in Hw as [Hne Hw]. exfalso. apply Hne. symmetry. eauto.
    + intros h Hne. apply lookup_delete_ne. by intros <-.
  - intros Hnone. destruct Hm as [Hlen Hb]. pose proof (bucket_index_lt hash) as Hi.
    destruct (lookup_lt_is_Some_2 (buckets m) (bucket_index hash) ltac:(lia)) as [b Eb].
    destruct (Hb _ _ Eb) as [Hu [_ Hs _]].
    destruct (lock_lock_ok (mb_lock b) now Hu) as (l & E1 & _).
    unfold map_delete, with_bucket. fold hash. rewrite Eb. ostep. rewrite E1. ostep.
    destruct (mb_head b) as [|n chain]; [done|].
    apply Forall_cons_iff in Hs as [(Hbk & Hv & _) _]. rewrite Hnone in Hv; done.
Qed.
End map.

(** ** Concrete maps *)

Definition aaa : list Z := [97; 97; 97].
Definition kgr : list Z := [107; 103; 114].
Definition ooa : list Z := [111; 111; 97].

(** Deleting an absent key can delete another key's entry.  "aaa", "kgr"
    and "ooa" have different hashes in the same bucket; after "aaa" and "kgr"
    are stored, deleting "ooa" reports success and "aaa" is gone. *)
Theorem map_delete_wrong_key :
  jenkins_hash ooa <> jenkins_hash aaa
  /\ (m ← (snd <$> map_set (map_init (L:=bool)) aaa [1] lock_node_zero 1 2);
      m ← (snd <$> map_set m kgr [2] lock_node_zero 3 4);
      '(before, m) ← map_get m aaa 5 6;
      '(did_delete, m) ← map_delete m ooa lock_node_zero 7 8;
      '(after, _) ← map_get m aaa 9 10;
      Ret (before, did_delete, after))
     = Ret ((Some [1], 1), true, (None, 0)).
Proof. split; vm_compute; [discriminate | reflexivity]. Qed.

Definition empty_map : map bool := map_init.
Definition no_entries : gmap Z (list Z) := ∅.

Lemma map_delete_spec_witness :
  map_delete empty_map aaa lock_node_zero 1 2 = Stop Undefined.
Proof.
  apply (map_delete_spec empty_map no_entries aaa 1 2); [apply map_init_repr | lia | done |].
  intros h _. apply lookup_empty.
Defined.
