(* ===== verification/Bytes.v ===== *)
(** * Bytes: little-endian values in byte memories

    Shared by the linear-memory accessors and the WASI serialisation.  A
    memory is a total function from addresses to bytes; who may touch which
    address is the business of the clients. *)

From Stdlib Require Import ZArith Lia.
From S2P Require Import Prelude.
Local Open Scope Z_scope.

Definition bytes := Z -> Z.

Definition zero_bytes : bytes := fun _ => 0.

(** The [n] bytes at [off]. *)
Definition load_bytes (buf : bytes) (off : Z) (n : nat) : list Z :=
  (fun k => buf (off + Z.of_nat k)) <$> seq 0 n.

(** [memcpy(&buf[off], l, length l)] *)
Definition store_bytes (buf : bytes) (off : Z) (l : list Z) : bytes :=
  fun a => if (off <=? a) && (a <? off + Z.of_nat (length l))
           then default 0 (l !! Z.to_nat (a - off)) else buf a.

(** [memset(&buf[off], 0, n)] *)
Definition clear_bytes (buf : bytes) (off n : Z) : bytes :=
  fun a => if (off <=? a) && (a <? off + n) then 0 else buf a.

Fixpoint le_combine (l : list Z) : Z :=
  match l with
  | [] => 0
  | b :: l => b + 256 * le_combine l
  end.

Fixpoint le_split (n : nat) (z : Z) : list Z :=
  match n with
  | O => []
  | S n => z mod 256 :: le_split n (z / 256)
  end.

Definition is_byte (b : Z) : Prop := 0 <= b < 256.

Lemma length_le_split n z : length (le_split n z) = n.
Proof. revert z. induction n; intros z; cbn; [done | by rewrite IHn]. Qed.

Lemma length_load_bytes buf off n : length (load_bytes buf off n) = n.
Proof. unfold load_bytes. by rewrite length_fmap, length_seq. Qed.

Lemma le_split_bytes n z : Forall is_byte (le_split n z).
Proof.
  revert z. induction n; intros z; cbn; constructor; [|done].
  apply Z.mod_pos_bound. lia.
Qed.

Lemma pow256_S n : 256 ^ Z.of_nat (S n) = 256 * 256 ^ Z.of_nat n.
Proof. rewrite Nat2Z.inj_succ, Z.pow_succ_r by lia. done. Qed.

Lemma le_combine_split n z : le_combine (le_split n z) = z mod 256 ^ Z.of_nat n.
Proof.
  revert z. induction n; intros z; cbn [le_combine le_split].
  - by rewrite Z.mod_1_r.
  - rewrite IHn, pow256_S, Z.rem_mul_r by lia. lia.
Qed.

Lemma le_combine_bound l : Forall is_byte l -> 0 <= le_combine l < 256 ^ Z.of_nat (length l).
Proof.
  induction 1 as [|b l Hb Hl IH]; cbn [le_combine length]; [lia|].
  rewrite pow256_S. unfold is_byte in Hb. lia.
Qed.

Lemma le_split_combine l : Forall is_byte l -> le_split (length l) (le_combine l) = l.
Proof.
  induction 1 as [|b l Hb Hl IH]; cbn [le_combine le_split length]; [done|].
  unfold is_byte in Hb. f_equal.
  - rewrite Z.mul_comm, Z.mod_add by lia. apply Z.mod_small. lia.
  - rewrite Z.add_comm, Z.mul_comm, Z.div_add_l, (Z.div_small b), Z.add_0_r by lia. done.
Qed.

Lemma lookup_load_bytes buf off n k :
  (k < n)%nat -> load_bytes buf off n !! k = Some (buf (off + Z.of_nat k)).
Proof. intros. unfold load_bytes. by rewrite list_lookup_fmap, lookup_seq_lt by done. Qed.

Lemma store_bytes_in buf off l k :
  (k < length l)%nat -> store_bytes buf off l (off + Z.of_nat k) = default 0 (l !! k).
Proof.
  intros Hk. unfold store_bytes. rewrite (proj2 (Z.leb_le _ _)), (proj2 (Z.ltb_lt _ _)) by lia.
  cbn. by replace (Z.to_nat (off + Z.of_nat k - off)) with k by lia.
Qed.

Lemma store_bytes_out buf off l a :
  a < off \/ off + Z.of_nat (length l) <= a -> store_bytes buf off l a = buf a.
Proof.
  intros Ha. unfold store_bytes.
  destruct (Z.leb_spec off a), (Z.ltb_spec a (off + Z.of_nat (length l))); cbn; try done; lia.
Qed.

Lemma clear_bytes_in buf off n a : off <= a < off + n -> clear_bytes buf off n a = 0.
Proof.
  intros. unfold clear_bytes. by rewrite (proj2 (Z.leb_le _ _)), (proj2 (Z.ltb_lt _ _)) by lia.
Qed.

Lemma clear_bytes_out buf off n a : a < off \/ off + n <= a -> clear_bytes buf off n a = buf a.
Proof.
  intros. unfold clear_bytes.
  destruct (Z.leb_spec off a), (Z.ltb_spec a (off + n)); cbn; try done; lia.
Qed.

(** A store is read back, and other addresses keep their bytes. *)
Lemma load_store_eq buf off l : load_bytes (store_bytes buf off l) off (length l) = l.
Proof.
  apply list_eq. intros k. destruct (decide (k < length l)%nat) as [Hk|Hk].
  - rewrite lookup_load_bytes, store_bytes_in by done.
    by destruct (lookup_lt_is_Some_2 l k Hk) as [x ->].
  - rewrite (lookup_ge_None_2 l) by lia. apply lookup_ge_None_2. rewrite length_load_bytes. lia.
Qed.

Lemma load_store_ne buf off l off' n :
  off' + Z.of_nat n <= off \/ off + Z.of_nat (length l) <= off' ->
  load_bytes (store_bytes buf off l) off' n = load_bytes buf off' n.
Proof.
  intros Hd. apply list_eq. intros k. destruct (decide (k < n)%nat) as [Hk|Hk].
  - rewrite !lookup_load_bytes by done. rewrite store_bytes_out by lia. done.
  - rewrite !lookup_ge_None_2; rewrite ?length_load_bytes; done || lia.
Qed.

Lemma load_bytes_ext buf buf' off n :
  (forall a, off <= a < off + Z.of_nat n -> buf a = buf' a) ->
  load_bytes buf off n = load_bytes buf' off n.
Proof.
  intros E. apply list_eq. intros k. destruct (decide (k < n)%nat) as [Hk|Hk].
  - rewrite !lookup_load_bytes by done. rewrite E by lia. done.
  - rewrite !lookup_ge_None_2; rewrite ?length_load_bytes; done || lia.
Qed.

(** Reading a signed value back from its two's-complement bytes. *)
Lemma swrap_wrap w z : 0 < w -> swrap w (z mod 2 ^ w) = swrap w z.
Proof. intros. unfold swrap. by rewrite Z.mod_mod by lia. Qed.

Lemma swrap_small w z : 0 < w -> - 2 ^ (w - 1) <= z < 2 ^ (w - 1) -> swrap w z = z.
Proof.
  intros Hw Hz. unfold swrap.
  assert (E : 2 ^ w = 2 * 2 ^ (w - 1)) by (rewrite <- Z.pow_succ_r by lia; f_equal; lia).
  destruct (Z.ltb_spec z 0).
  - replace (z mod 2 ^ w) with (z + 2 ^ w).
    + rewrite (proj2 (Z.ltb_ge _ _)); lia.
    + rewrite <- (Z.mod_add z 1 (2 ^ w)) by lia. symmetry. rewrite Z.mul_1_l. apply Z.mod_small. lia.
  - rewrite Z.mod_small by lia. rewrite (proj2 (Z.ltb_lt _ _)); lia.
Qed.
