(* ===== verification/WasmMemory.v ===== *)
(** * WasmMemory: WebAssembly linear memories

    [runtime/include/wasm_memory.h] (the runtime's accessors), the accessors
    compiled into the modules ([libsledge/src/memory_instructions.c]) and the
    two bounds checks of [runtime/src/sledge_abi.c].

    The backing buffer is 4 GiB of address space of which the pages below
    [wm_capacity] are readable and writable; any other access is the hardware
    fault [Segv].  A float is its bit pattern.  Results of [aligned_alloc],
    [mmap] and [mprotect] are boolean arguments. *)

From Stdlib Require Import ZArith Lia.
From S2P Require Import Prelude Bytes.
Local Open Scope Z_scope.

Definition PAGE_SIZE : Z := 4096.
Definition WASM_PAGE_SIZE : Z := 65536.
Definition WASM_MEMORY_MAX : Z := UINT32_MAX + 1.

Record wasm_memory := mk_wasm_memory {
  wm_size : Z;
  wm_capacity : Z;
  wm_max : Z;
  wm_buffer : option bytes;   (* None: NULL *)
}.

(** [mprotect] works in whole pages. *)
Definition page_up (n : Z) : Z := (n + PAGE_SIZE - 1) / PAGE_SIZE * PAGE_SIZE.

Definition accessible (m : wasm_memory) (off : Z) (n : nat) : bool :=
  (0 <=? off) && (off + Z.of_nat n <=? page_up (wm_capacity m)).

Definition set_buffer (m : wasm_memory) (buf : bytes) : wasm_memory :=
  mk_wasm_memory (wm_size m) (wm_capacity m) (wm_max m) (Some buf).

(** A CPU load or store of [n] bytes at [&buffer[off]]. *)
Definition mem_load (m : wasm_memory) (off : Z) (n : nat) : outcome Z :=
  buf ← deref (wm_buffer m);
  if accessible m off n then Ret (le_combine (load_bytes buf off n)) else Stop Segv.

Definition mem_store (m : wasm_memory) (off : Z) (l : list Z) : outcome wasm_memory :=
  buf ← deref (wm_buffer m);
  if accessible m off (length l) then Ret (set_buffer m (store_bytes buf off l)) else Stop Segv.

(** ** Lifecycle *)

Definition wasm_memory_init (initial max : Z) (mmap_ok mprotect_ok : bool)
  : outcome (Z * wasm_memory) :=
  assert (0 <? initial) ;;
  assert (initial <=? UINT32_MAX + 1) ;;
  assert (0 <? max) ;;
  assert (max <=? UINT32_MAX + 1) ;;
  if negb mmap_ok then Ret (-1, mk_wasm_memory 0 0 0 None) else
  if negb mprotect_ok then Ret (-1, mk_wasm_memory 0 0 0 None) else
  Ret (0, mk_wasm_memory initial initial max (Some zero_bytes)).

(** A failing initialisation runs into [assert(0)]. *)
Definition wasm_memory_alloc (initial max : Z) (aligned_alloc_ok mmap_ok mprotect_ok : bool)
  : outcome (option wasm_memory) :=
  if negb aligned_alloc_ok then Ret None else
  '(rc, m) ← wasm_memory_init initial max mmap_ok mprotect_ok;
  if rc <? 0 then Stop AssertFail else Ret (Some m).

Definition wasm_memory_deinit (m : wasm_memory) : outcome wasm_memory :=
  assert (bool_decide (is_Some (wm_buffer m))) ;;
  Ret (mk_wasm_memory 0 0 0 None).

(** Clears the bytes below [size], not those below [capacity]. *)
Definition wasm_memory_reinit (m : wasm_memory) (initial : Z) : outcome wasm_memory :=
  buf ← deref (wm_buffer m);
  if wm_size m <=? page_up (wm_capacity m) then
    Ret (mk_wasm_memory initial (wm_capacity m) (wm_max m)
           (Some (clear_bytes buf 0 (wm_size m))))
  else Stop Segv.

Definition wasm_memory_expand (m : wasm_memory) (size_to_expand : Z) (mprotect_ok : bool)
  : outcome (Z * wasm_memory) :=
  let target_size := u64 (wm_size m + size_to_expand) in
  if wm_max m <? target_size then Ret (-1, m) else
  if wm_capacity m <? target_size then
    if negb mprotect_ok then Ret (-1, m)
    else Ret (0, mk_wasm_memory target_size target_size (wm_max m) (wm_buffer m))
  else Ret (0, mk_wasm_memory target_size (wm_capacity m) (wm_max m) (wm_buffer m)).

Definition wasm_memory_get_size (m : wasm_memory) : Z := wm_size m.

Definition wasm_memory_get_page_count (m : wasm_memory) : Z := u32 (wm_size m / WASM_PAGE_SIZE).

Definition wasm_memory_initialize_region (m : wasm_memory) (offset : Z) (region : list Z)
  : outcome wasm_memory :=
  assert (offset + Z.of_nat (length region) <=? wm_size m) ;;
  mem_store m offset region.

(** ** The runtime's accessors *)

(** Both operands are [uint32_t]: the sum wraps at 32 bits. *)
Definition wasm_memory_get_ptr_void (m : wasm_memory) (offset size : Z) : outcome Z :=
  assert (u32 (offset + size) <=? wm_size m) ;;
  Ret offset.

(** Here the size is a [size_t] and the sum is 64 bits wide. *)
Definition checked_load (m : wasm_memory) (offset : Z) (n : nat) : outcome Z :=
  assert (u64 (offset + Z.of_nat n) <=? wm_size m) ;;
  mem_load m offset n.

Definition checked_store (m : wasm_memory) (offset : Z) (n : nat) (value : Z)
  : outcome wasm_memory :=
  assert (u64 (offset + Z.of_nat n) <=? wm_size m) ;;
  mem_store m offset (le_split n value).

Definition wasm_memory_get_char (m : wasm_memory) (offset : Z) : outcome Z :=
  swrap 8 <$> checked_load m offset 1.
Definition wasm_memory_get_f32 (m : wasm_memory) (offset : Z) : outcome Z :=
  checked_load m offset 4.
Definition wasm_memory_get_f64 (m : wasm_memory) (offset : Z) : outcome Z :=
  checked_load m offset 8.
Definition wasm_memory_get_i8 (m : wasm_memory) (offset : Z) : outcome Z :=
  swrap 8 <$> checked_load m offset 1.
Definition wasm_memory_get_i16 (m : wasm_memory) (offset : Z) : outcome Z :=
  swrap 16 <$> checked_load m offset 2.
Definition wasm_memory_get_i32 (m : wasm_memory) (offset : Z) : outcome Z :=
  swrap 32 <$> checked_load m offset 4.
Definition wasm_memory_get_i64 (m : wasm_memory) (offset : Z) : outcome Z :=
  swrap 64 <$> checked_load m offset 8.

(** [strnlen]: the number of bytes before the first zero, at most [size]. *)
Fixpoint strnlen (buf : bytes) (off : Z) (size : nat) : nat :=
  match size with
  | O => O
  | S size => if buf off =? 0 then O else S (strnlen buf (off + 1) size)
  end.

(** The string's offset, or None (NULL) without a terminator in range. *)
Definition wasm_memory_get_string (m : wasm_memory) (offset : Z) (size : nat)
  : outcome (option Z) :=
  assert (u64 (offset + Z.of_nat size) <=? wm_size m) ;;
  buf ← deref (wm_buffer m);
  if accessible m offset size then
    if bool_decide (strnlen buf offset size < size)%nat then Ret (Some offset) else Ret None
  else Stop Segv.

Definition wasm_memory_set_f32 (m : wasm_memory) (offset value : Z) := checked_store m offset 4 value.
Definition wasm_memory_set_f64 (m : wasm_memory) (offset value : Z) := checked_store m offset 8 value.
Definition wasm_memory_set_i8 (m : wasm_memory) (offset value : Z) := checked_store m offset 1 value.
Definition wasm_memory_set_i16 (m : wasm_memory) (offset value : Z) := checked_store m offset 2 value.
Definition wasm_memory_set_i32 (m : wasm_memory) (offset value : Z) := checked_store m offset 4 value.
Definition wasm_memory_set_i64 (m : wasm_memory) (offset value : Z) := checked_store m offset 8 value.

(** ** The accessors compiled into the modules: bounds are left to the hardware *)

Definition guest_load (m : wasm_memory) (offset : Z) (n : nat) : outcome Z :=
  assert (bool_decide (is_Some (wm_buffer m))) ;; mem_load m offset n.

Definition guest_store (m : wasm_memory) (offset : Z) (n : nat) (value : Z)
  : outcome wasm_memory :=
  assert (bool_decide (is_Some (wm_buffer m))) ;; mem_store m offset (le_split n value).

Definition instruction_memory_size (m : wasm_memory) : Z := u32 (wm_size m / WASM_PAGE_SIZE).
Definition get_f32 m offset := guest_load m offset 4.
Definition get_f64 m offset := guest_load m offset 8.
Definition get_i8 m offset := swrap 8 <$> guest_load m offset 1.
Definition get_i16 m offset := swrap 16 <$> guest_load m offset 2.
Definition get_i32 m offset := swrap 32 <$> guest_load m offset 4.
Definition get_i64 m offset := swrap 64 <$> guest_load m offset 8.
Definition set_f32 m offset value := guest_store m offset 4 value.
Definition set_f64 m offset value := guest_store m offset 8 value.
Definition set_i8 m offset value := guest_store m offset 1 value.
Definition set_i16 m offset value := guest_store m offset 2 value.
Definition set_i32 m offset value := guest_store m offset 4 value.
Definition set_i64 m offset value := guest_store m offset 8 value.

(** ** The ABI's growth and bounds checks *)

(** [page_count * WASM_PAGE_SIZE] is a 32-bit product.  The sandbox state
    changes around the call are in [Sandbox]. *)
Definition sledge_abi__wasm_memory_expand (m : wasm_memory) (page_count : Z) (mprotect_ok : bool)
  : outcome (Z * wasm_memory) :=
  let old_page_count := swrap 32 (wm_size m / WASM_PAGE_SIZE) in
  '(rc, m) ← wasm_memory_expand m (u32 (page_count * WASM_PAGE_SIZE)) mprotect_ok;
  if rc =? -1 then Ret (-1, m) else Ret (old_page_count, m).

Definition instruction_memory_grow := sledge_abi__wasm_memory_expand.

Definition get_memory_ptr_for_runtime (m : wasm_memory) (offset length : Z) : outcome Z :=
  assert (offset + length <? wm_size m) ;;
  Ret offset.

Definition check_bounds (m : wasm_memory) (offset bounds_check : Z) : outcome unit :=
  assert ((bounds_check <? WASM_PAGE_SIZE)
          || ((bounds_check <? wm_size m) && (offset <=? u64 (wm_size m - bounds_check)))).

(** ** Well-formed memories *)

Record mem_wf (m : wasm_memory) (buf : bytes) : Prop := {
  wf_buffer : wm_buffer m = Some buf;
  wf_size : 0 <= wm_size m <= wm_capacity m;
  wf_capacity : wm_capacity m <= WASM_MEMORY_MAX;
  wf_max : 0 <= wm_max m <= WASM_MEMORY_MAX;
  wf_bytes a : is_byte (buf a);
}.

Lemma page_up_ge n : n <= page_up n.
Proof. unfold page_up, PAGE_SIZE. pose proof (Z.div_mod (n + 4096 - 1) 4096). 
  pose proof (Z.mod_pos_bound (n + 4096 - 1) 4096). lia.
Qed.

Lemma page_up_multiple n : n mod PAGE_SIZE = 0 -> page_up n = n.
Proof.
  unfold page_up, PAGE_SIZE. intros E. pose proof (Z.div_mod n 4096 ltac:(lia)) as D.
  rewrite E, Z.add_0_r in D. rewrite D at 1.
  replace (4096 * (n / 4096) + 4096 - 1) with (4095 + n / 4096 * 4096) by lia.
  rewrite Z.div_add, (Z.div_small 4095) by lia. lia.
Qed.

Lemma accessible_in m buf off n :
  mem_wf m buf -> 0 <= off -> off + Z.of_nat n <= wm_size m -> accessible m off n = true.
Proof.
  intros W H0 H1. destruct (wf_size _ _ W). pose proof (page_up_ge (wm_capacity m)).
  unfold accessible. rewrite !(proj2 (Z.leb_le _ _)) by lia. done.
Qed.

Lemma store_bytes_byte buf off l a :
  (forall a, is_byte (buf a)) -> Forall is_byte l -> is_byte (store_bytes buf off l a).
Proof.
  intros Hb Hl. unfold store_bytes. destruct (_ && _); [|done].
  destruct (l !! _) eqn:E; cbn; [|unfold is_byte; lia].
  rewrite Forall_forall in Hl. apply Hl, list_elem_of_In. by eapply list_elem_of_lookup_2.
Qed.

Lemma mem_wf_store m buf off l :
  mem_wf m buf -> Forall is_byte l ->
  mem_wf (set_buffer m (store_bytes buf off l)) (store_bytes buf off l).
Proof. intros [? ? ? ? ?] ?. split; try done. intros a. by apply store_bytes_byte. Qed.

Lemma u64_in_memory m buf z : mem_wf m buf -> 0 <= z <= wm_size m -> u64 z = z.
Proof.
  intros W ?. destruct (wf_size _ _ W). pose proof (wf_capacity _ _ W).
  apply u64_small. unfold WASM_MEMORY_MAX, UINT32_MAX, UINT64_MAX in *. lia.
Qed.

(** A typed store in bounds, then a load of it. *)
Lemma checked_store_ok m buf off n v :
  mem_wf m buf -> 0 <= off -> off + Z.of_nat n <= wm_size m ->
  let buf' := store_bytes buf off (le_split n v) in
  checked_store m off n v = Ret (set_buffer m buf') /\ mem_wf (set_buffer m buf') buf'.
Proof.
  intros W H0 H1 buf'. split; [|by apply mem_wf_store; [|apply le_split_bytes]].
  unfold checked_store. rewrite (u64_in_memory m buf) by (done || lia).
  rewrite (proj2 (Z.leb_le _ _)) by lia. ostep. unfold mem_store.
  rewrite (wf_buffer _ _ W), length_le_split. ostep. by rewrite (accessible_in m buf).
Qed.

Lemma checked_load_ok m buf off n :
  mem_wf m buf -> 0 <= off -> off + Z.of_nat n <= wm_size m ->
  checked_load m off n = Ret (le_combine (load_bytes buf off n)).
Proof.
  intros W H0 H1. unfold checked_load. rewrite (u64_in_memory m buf) by (done || lia).
  rewrite (proj2 (Z.leb_le _ _)) by lia. ostep. unfold mem_load.
  rewrite (wf_buffer _ _ W). ostep. by rewrite (accessible_in m buf).
Qed.

(** Setters and getters of one width: what was written is read back, and a
    disjoint range inside the memory is unaffected. *)
Definition set_get_law (n : nat) (w : Z)
  (set : wasm_memory -> Z -> Z -> outcome wasm_memory) (get : wasm_memory -> Z -> outcome Z) : Prop :=
  forall m buf off v,
    mem_wf m buf -> 0 <= off -> off + Z.of_nat n <= wm_size m ->
    - 2 ^ (w - 1) <= v < 2 ^ (w - 1) ->
    exists m', set m off v = Ret m' /\ get m' off = Ret v
      /\ wm_size m' = wm_size m
      /\ forall off', 0 <= off' -> off' + Z.of_nat n <= wm_size m ->
         off' + Z.of_nat n <= off \/ off + Z.of_nat n <= off' ->
         get m' off' = get m off'.

Lemma set_get_ok n w :
  256 ^ Z.of_nat n = 2 ^ w -> 0 < w ->
  set_get_law n w (fun m off v => checked_store m off n v)
    (fun m off => swrap w <$> checked_load m off n).
Proof.
  intros Hw Hp m buf off v W H0 H1 Hv. destruct (checked_store_ok m buf off n v W H0 H1) as [E W'].
  eexists. split; [exact E|]. split; [|split; [done|]].
  - rewrite (checked_load_ok _ _ off n W' H0) by done. cbn.
    pose proof (load_store_eq buf off (le_split n v)) as L. rewrite length_le_split in L.
    rewrite L, le_combine_split, Hw, swrap_wrap, swrap_small by done. done.
  - intros off' H0' H1' Hd. rewrite (checked_load_ok _ _ off' n W' H0') by done.
    rewrite (checked_load_ok _ _ off' n W H0' H1').
    by rewrite load_store_ne by (rewrite length_le_split; done).
Qed.

(** C33: linear memory round trips.  For each integer width a value stored in
    bounds is read back, and a read of a disjoint location is unchanged by the
    store. *)
Theorem wasm_memory_set_get :
  set_get_law 1 8 wasm_memory_set_i8 wasm_memory_get_i8
  /\ set_get_law 2 16 wasm_memory_set_i16 wasm_memory_get_i16
  /\ set_get_law 4 32 wasm_memory_set_i32 wasm_memory_get_i32
  /\ set_get_law 8 64 wasm_memory_set_i64 wasm_memory_get_i64.
Proof. split; [|split; [|split]]; by apply set_get_ok. Qed.

(** [wasm_memory_get_ptr_void] is a bounds check only for ranges below
    4 GiB.  When the end of the range fits 32 bits the call succeeds exactly
    for ranges inside the memory; when the sum wraps, a range that starts
    outside the memory is accepted. *)
Theorem wasm_memory_get_ptr_void_spec m offset size :
  0 <= offset <= UINT32_MAX -> 0 <= size <= UINT32_MAX ->
  (offset + size <= UINT32_MAX ->
   is_Ret (wasm_memory_get_ptr_void m offset size) = (offset + size <=? wm_size m))
  /\ (UINT32_MAX < offset + size <= UINT32_MAX + 1 + wm_size m ->
      wasm_memory_get_ptr_void m offset size = Ret offset).
Proof.
  intros Ho Hs. unfold wasm_memory_get_ptr_void, u32, wrap, UINT32_MAX in *. split; intros Hsum.
  - rewrite Z.mod_small by lia. by destruct (_ <=? _).
  - replace ((offset + size) mod 2 ^ 32) with (offset + size - 2 ^ 32).
    + rewrite (proj2 (Z.leb_le _ _)) by lia. done.
    + rewrite <- (Z.mod_add _ (-1)) by lia. symmetry. apply Z.mod_small. lia.
Qed.

Lemma wasm_memory_get_ptr_void_spec_witness :
  wasm_memory_get_ptr_void (mk_wasm_memory 65536 65536 65536 (Some zero_bytes)) 4294967280 32
  = Ret 4294967280.
Proof.
  apply (wasm_memory_get_ptr_void_spec (mk_wasm_memory 65536 65536 65536 (Some zero_bytes))
           4294967280 32); unfold UINT32_MAX; cbn; lia.
Defined.

(** ** Recycling

    A sandbox's memory goes back to its module's pool through
    [wasm_memory_reinit] and is handed to the next sandbox of the module. *)

(** What can happen to a memory while a sandbox runs. *)
Inductive mem_op :=
| MGrow (page_count : Z) (mprotect_ok : bool)      (* memory.grow *)
| MRuntimeStore (offset : Z) (n : nat) (value : Z) (* a runtime accessor *)
| MRegion (offset : Z) (region : list Z)           (* data segments *)
| MGuestStore (offset : Z) (n : nat) (value : Z).  (* a store instruction *)

Definition mem_exec (m : wasm_memory) (op : mem_op) : outcome wasm_memory :=
  match op with
  | MGrow page_count ok => snd <$> sledge_abi__wasm_memory_expand m page_count ok
  | MRuntimeStore offset n value => checked_store m offset n value
  | MRegion offset region => wasm_memory_initialize_region m offset region
  | MGuestStore offset n value => guest_store m offset n value
  end.

Fixpoint mem_run (m : wasm_memory) (ops : list mem_op) : outcome wasm_memory :=
  match ops with
  | [] => Ret m
  | op :: ops => m ← mem_exec m op; mem_run m ops
  end.

(** Nothing is stored at or beyond the size, and the hardware bound is the size. *)
Record mem_tight (m : wasm_memory) (buf : bytes) : Prop := {
  tight_buffer : wm_buffer m = Some buf;
  tight_capacity : wm_capacity m = wm_size m;
  tight_pages : wm_size m mod WASM_PAGE_SIZE = 0;
  tight_bound : 0 <= wm_size m <= WASM_MEMORY_MAX;
  tight_max : wm_max m <= WASM_MEMORY_MAX;
  tight_zero a : wm_size m <= a -> buf a = 0;
}.

Lemma wasm_page_multiple n : n mod WASM_PAGE_SIZE = 0 -> n mod PAGE_SIZE = 0.
Proof.
  unfold WASM_PAGE_SIZE, PAGE_SIZE. intros [k ->]%Z.mod_divide; [|lia].
  apply Z.mod_divide; [lia|]. exists (k * 16). lia.
Qed.

Lemma tight_accessible m buf off n :
  mem_tight m buf -> accessible m off n = true -> off + Z.of_nat n <= wm_size m.
Proof.
  intros [? E ? ? ? ?]. unfold accessible. rewrite E, page_up_multiple by by apply wasm_page_multiple.
  rewrite andb_true_iff, !Z.leb_le. lia.
Qed.

Lemma tight_store m buf off l m' :
  mem_tight m buf -> mem_store m off l = Ret m' -> exists buf', mem_tight m' buf'.
Proof.
  intros T. unfold mem_store. rewrite (tight_buffer _ _ T). ostep.
  destruct (accessible m off (length l)) eqn:A; [|done]. intros E. injection E as <-.
  pose proof (tight_accessible _ _ _ _ T A). destruct T as [? ? ? ? ? Hz].
  eexists. split; try done. cbn. intros a Ha. rewrite store_bytes_out by lia. by apply Hz.
Qed.

Lemma tight_grow m buf page_count ok r m' :
  mem_tight m buf ->
  sledge_abi__wasm_memory_expand m page_count ok = Ret (r, m') -> exists buf', mem_tight m' buf'.
Proof.
  intros [Eb Ec Es Hs Hx Hz]. unfold sledge_abi__wasm_memory_expand, wasm_memory_expand.
  set (k := u32 (page_count * WASM_PAGE_SIZE)).
  assert (Hk : 0 <= k <= UINT32_MAX) by apply u32_range.
  assert (Hkm : k mod WASM_PAGE_SIZE = 0).
  { unfold k, u32, wrap, WASM_PAGE_SIZE. change (2 ^ 32) with (65536 * 2 ^ 16).
    rewrite (Z.mul_comm page_count), Zmult_mod_distr_l, Z.mul_comm. apply Z.mod_mul. lia. }
  rewrite u64_small by (unfold WASM_MEMORY_MAX, UINT32_MAX, UINT64_MAX in *; lia).
  destruct (Z.ltb_spec (wm_max m) (wm_size m + k)) as [|Hmx]; cbn.
  { intros E. injection E as _ <-. by exists buf. }
  rewrite Ec. destruct (Z.ltb_spec (wm_size m) (wm_size m + k)); [destruct ok|]; cbn;
    intros E; injection E as _ <-; exists buf; split; cbn; try done; try lia;
    try (intros a Ha; apply Hz; lia).
  all: rewrite Zplus_mod, Es, Hkm; done.
Qed.

Lemma tight_exec m buf op m' :
  mem_tight m buf -> mem_exec m op = Ret m' -> exists buf', mem_tight m' buf'.
Proof.
  intros T. destruct op; cbn [mem_exec].
  - destruct (sledge_abi__wasm_memory_expand _ _ _) as [[r m1]|] eqn:E; cbn; [|done].
    intros Em. injection Em as <-. by eapply tight_grow.
  - unfold checked_store. intros E. inv_outcome. by eapply tight_store.
  - unfold wasm_memory_initialize_region. intros E. inv_outcome. by eapply tight_store.
  - unfold guest_store. intros E. inv_outcome. by eapply tight_store.
Qed.

Lemma tight_run ops m buf m' :
  mem_tight m buf -> mem_run m ops = Ret m' -> exists buf', mem_tight m' buf'.
Proof.
  revert m buf. induction ops as [|op ops IH]; intros m buf T; cbn [mem_run].
  - intros E. injection E as <-. eauto.
  - intros E. inv_outcome. destruct (tight_exec _ _ _ _ T E0) as [buf1 T1]. eauto.
Qed.

(** The first recycling of a memory hands out zeroed pages.  Whatever a
    sandbox does with a freshly allocated memory (growing it, stores by the
    runtime, stores by the guest that the hardware lets through), recycling
    afterwards succeeds and leaves every byte of the buffer zero. *)
Theorem wasm_memory_first_recycle_clean starting max ops m0 m :
  starting mod WASM_PAGE_SIZE = 0 ->
  wasm_memory_alloc starting max true true true = Ret (Some m0) ->
  mem_run m0 ops = Ret m ->
  exists m' buf, wasm_memory_reinit m starting = Ret m'
    /\ wm_buffer m' = Some buf /\ wm_size m' = starting /\ forall a, 0 <= a -> buf a = 0.
Proof.
  intros Hp Ha Hr.
  assert (T0 : mem_tight m0 zero_bytes).
  { unfold wasm_memory_alloc, wasm_memory_init in Ha. cbn in Ha. inv_outcome.
    cbn in Ha. injection Ha as <-. reflect_bools. split; cbn; try done; unfold WASM_MEMORY_MAX; lia. }
  destruct (tight_run _ _ _ _ T0 Hr) as [buf [Eb Ec Es Hs Hx Hz]].
  exists (mk_wasm_memory starting (wm_capacity m) (wm_max m) (Some (clear_bytes buf 0 (wm_size m)))),
    (clear_bytes buf 0 (wm_size m)).
  split.
  - unfold wasm_memory_reinit. rewrite Eb. ostep. pose proof (page_up_ge (wm_capacity m)).
    by rewrite (proj2 (Z.leb_le _ _)) by lia.
  - do 2 (split; [done|]). intros a Ha'. destruct (Z.lt_ge_cases a (wm_size m)).
    + apply clear_bytes_in. lia.
    + rewrite clear_bytes_out by lia. by apply Hz.
Qed.

Lemma wasm_memory_first_recycle_clean_witness :
  let m0 := mk_wasm_memory 65536 65536 262144 (Some zero_bytes) in
  let m := mk_wasm_memory 131072 131072 262144
             (Some (store_bytes zero_bytes 70000 (le_split 4 77))) in
  exists m' buf, wasm_memory_reinit m 65536 = Ret m'
    /\ wm_buffer m' = Some buf /\ wm_size m' = 65536 /\ forall a, 0 <= a -> buf a = 0.
Proof.
  intros m0 m.
  apply (wasm_memory_first_recycle_clean 65536 262144 [MGrow 1 true; MGuestStore 70000 4 77] m0 m);
    reflexivity.
Defined.

(** A later recycling can leak one sandbox's data to another.  Sandbox A
    grows the memory to two pages; after recycling, sandbox B, whose memory is
    one page, stores at 70000, which is past its size but below the high-water
    mark, so the hardware lets it; recycling clears only B's one page; sandbox
    C grows the memory and reads B's value. *)
Theorem wasm_memory_recycle_leaks :
  (m ← wasm_memory_alloc 65536 131072 true true true;
   m ← deref m;
   m ← mem_run m [MGrow 1 true];                 (* A *)
   m ← wasm_memory_reinit m 65536;
   m ← mem_run m [MGuestStore 70000 4 1234567];  (* B *)
   m ← wasm_memory_reinit m 65536;
   m ← mem_run m [MGrow 1 true];                 (* C *)
   get_i32 m 70000) = Ret 1234567.
Proof. vm_compute. reflexivity. Qed.

(** C34: [memory.grow] adds the requested pages or fails.  With a page count
    whose byte size fits 32 bits, growth within the maximum returns the old
    page count, enlarges the memory by exactly those pages and keeps its
    contents (the system lets it change the protection of the pages); beyond
    the maximum it returns -1 and changes nothing.  A request for 65536 pages
    is reported as a success that grows nothing. *)
Theorem memory_grow_spec m buf page_count :
  mem_wf m buf -> 0 <= page_count ->
  (page_count < 65536 ->
   wm_size m + page_count * WASM_PAGE_SIZE <= wm_max m ->
   exists m', instruction_memory_grow m page_count true
       = Ret (swrap 32 (wm_size m / WASM_PAGE_SIZE), m')
     /\ wm_size m' = wm_size m + page_count * WASM_PAGE_SIZE
     /\ mem_wf m' buf)
  /\ (page_count < 65536 -> wm_max m < wm_size m + page_count * WASM_PAGE_SIZE ->
      instruction_memory_grow m page_count true = Ret (-1, m))
  /\ (page_count = 65536 -> wm_size m <= wm_max m ->
      instruction_memory_grow m page_count true = Ret (swrap 32 (wm_size m / WASM_PAGE_SIZE), m)).
Proof.
  intros W Hp. destruct W as [Hb Hs Hc Hx Hby].
  unfold instruction_memory_grow, sledge_abi__wasm_memory_expand, wasm_memory_expand,
    WASM_PAGE_SIZE, WASM_MEMORY_MAX, UINT32_MAX in *.
  split; [|split].
  - intros Hlt Hfit. rewrite (u32_small (page_count * 65536)) by (unfold UINT32_MAX; lia).
    rewrite u64_small by (unfold UINT64_MAX; lia). rewrite (proj2 (Z.ltb_ge _ _)) by lia.
    destruct (Z.ltb_spec (wm_capacity m) (wm_size m + page_count * 65536)); cbn;
      eexists; (split; [done|]); (split; [done|]); split; cbn; try done; try lia;
      unfold WASM_MEMORY_MAX, UINT32_MAX; lia.
  - intros Hlt Hno. rewrite (u32_small (page_count * 65536)) by (unfold UINT32_MAX; lia).
    rewrite u64_small by (unfold UINT64_MAX; lia). by rewrite (proj2 (Z.ltb_lt _ _)) by lia.
  - intros -> Hsm. change (u32 (65536 * 65536)) with 0. rewrite Z.add_0_r.
    rewrite u64_small by (unfold UINT64_MAX; lia). rewrite !(proj2 (Z.ltb_ge _ _)) by lia.
    cbn. by destruct m.
Qed.

Lemma memory_grow_spec_witness :
  let m := mk_wasm_memory 65536 65536 131072 (Some zero_bytes) in
  exists m', instruction_memory_grow m 1 true = Ret (1, m')
    /\ wm_size m' = 131072 /\ mem_wf m' zero_bytes.
Proof.
  intros m. apply (memory_grow_spec m zero_bytes 1); try lia; [|cbn; unfold WASM_PAGE_SIZE; lia].
  split; done.
Defined.
