(* ===== verification/WasiSerdes.v ===== *)
(** * WasiSerdes: WASI values in linear memory

    [runtime/include/wasi_serdes.h] and the types of [runtime/include/wasi.h]
    it serialises: integers as little-endian bytes, structures field by field
    at fixed offsets, and the vectors of buffers the read and write calls take.

    [ptr] is always the buffer of a linear memory, so the functions take the
    memory.  Offsets stay far below 2^64 (a 32-bit offset and at most 2^32
    entries of 8 bytes), so the [size_t] sums are exact.

    The class [Serdes] states what a pair of functions for one type promises:
    the value written is read back and no byte outside its slot changes. *)

From Stdlib Require Import ZArith Lia.
From S2P Require Import Prelude Bytes WasmMemory.
Local Open Scope Z_scope.

(** ** Integers *)

Definition wasi_serdes_write_uint8_t (m : wasm_memory) (offset value : Z) : outcome wasm_memory :=
  mem_store m offset [u8 value].

Definition wasi_serdes_write_uint16_t (m : wasm_memory) (offset value : Z) : outcome wasm_memory :=
  m ← wasi_serdes_write_uint8_t m offset (u8 value);
  wasi_serdes_write_uint8_t m (offset + 1) (Z.shiftr value 8).

Definition wasi_serdes_write_uint32_t (m : wasm_memory) (offset value : Z) : outcome wasm_memory :=
  m ← wasi_serdes_write_uint16_t m offset (u16 value);
  wasi_serdes_write_uint16_t m (offset + 2) (Z.shiftr value 16).

Definition wasi_serdes_write_uint64_t (m : wasm_memory) (offset value : Z) : outcome wasm_memory :=
  m ← wasi_serdes_write_uint32_t m offset (u32 value);
  wasi_serdes_write_uint32_t m (offset + 4) (Z.shiftr value 32).

Definition wasi_serdes_read_uint8_t (m : wasm_memory) (offset : Z) : outcome Z := mem_load m offset 1.

Definition wasi_serdes_read_uint16_t (m : wasm_memory) (offset : Z) : outcome Z :=
  low ← wasi_serdes_read_uint8_t m offset;
  high ← wasi_serdes_read_uint8_t m (offset + 1);
  Ret (Z.lor low (Z.shiftl high 8)).

Definition wasi_serdes_read_uint32_t (m : wasm_memory) (offset : Z) : outcome Z :=
  low ← wasi_serdes_read_uint16_t m offset;
  high ← wasi_serdes_read_uint16_t m (offset + 2);
  Ret (Z.lor low (Z.shiftl high 16)).

Definition wasi_serdes_read_uint64_t (m : wasm_memory) (offset : Z) : outcome Z :=
  low ← wasi_serdes_read_uint32_t m offset;
  high ← wasi_serdes_read_uint32_t m (offset + 4);
  Ret (Z.lor low (Z.shiftl high 32)).

(** The types that are names for an unsigned integer. *)
Definition wasi_serdes_write_advice_t := wasi_serdes_write_uint8_t.
Definition wasi_serdes_read_advice_t := wasi_serdes_read_uint8_t.
Definition wasi_serdes_write_clockid_t := wasi_serdes_write_uint32_t.
Definition wasi_serdes_read_clockid_t := wasi_serdes_read_uint32_t.
Definition wasi_serdes_write_device_t := wasi_serdes_write_uint64_t.
Definition wasi_serdes_read_device_t := wasi_serdes_read_uint64_t.
Definition wasi_serdes_write_dircookie_t := wasi_serdes_write_uint64_t.
Definition wasi_serdes_read_dircookie_t := wasi_serdes_read_uint64_t.
Definition wasi_serdes_write_errno_t := wasi_serdes_write_uint16_t.
Definition wasi_serdes_read_errno_t := wasi_serdes_read_uint16_t.
Definition wasi_serdes_write_eventrwflags_t := wasi_serdes_write_uint16_t.
Definition wasi_serdes_read_eventrwflags_t := wasi_serdes_read_uint16_t.
Definition wasi_serdes_write_eventtype_t := wasi_serdes_write_uint8_t.
Definition wasi_serdes_read_eventtype_t := wasi_serdes_read_uint8_t.
Definition wasi_serdes_write_exitcode_t := wasi_serdes_write_uint32_t.
Definition wasi_serdes_read_exitcode_t := wasi_serdes_read_uint32_t.
Definition wasi_serdes_write_fdflags_t := wasi_serdes_write_uint16_t.
Definition wasi_serdes_read_fdflags_t := wasi_serdes_read_uint16_t.
Definition wasi_serdes_write_filesize_t := wasi_serdes_write_uint64_t.
Definition wasi_serdes_read_filesize_t := wasi_serdes_read_uint64_t.
Definition wasi_serdes_write_filetype_t := wasi_serdes_write_uint8_t.
Definition wasi_serdes_read_filetype_t := wasi_serdes_read_uint8_t.
Definition wasi_serdes_write_fstflags_t := wasi_serdes_write_uint16_t.
Definition wasi_serdes_read_fstflags_t := wasi_serdes_read_uint16_t.
Definition wasi_serdes_write_inode_t := wasi_serdes_write_uint64_t.
Definition wasi_serdes_read_inode_t := wasi_serdes_read_uint64_t.
Definition wasi_serdes_write_linkcount_t := wasi_serdes_write_uint64_t.
Definition wasi_serdes_read_linkcount_t := wasi_serdes_read_uint64_t.
Definition wasi_serdes_write_lookupflags_t := wasi_serdes_write_uint32_t.
Definition wasi_serdes_read_lookupflags_t := wasi_serdes_read_uint32_t.
Definition wasi_serdes_write_oflags_t := wasi_serdes_write_uint16_t.
Definition wasi_serdes_read_oflags_t := wasi_serdes_read_uint16_t.
Definition wasi_serdes_write_preopentype_t := wasi_serdes_write_uint8_t.
Definition wasi_serdes_read_preopentype_t := wasi_serdes_read_uint8_t.
Definition wasi_serdes_write_riflags_t := wasi_serdes_write_uint16_t.
Definition wasi_serdes_read_riflags_t := wasi_serdes_read_uint16_t.
Definition wasi_serdes_write_rights_t := wasi_serdes_write_uint64_t.
Definition wasi_serdes_read_rights_t := wasi_serdes_read_uint64_t.
Definition wasi_serdes_write_roflags_t := wasi_serdes_write_uint16_t.
Definition wasi_serdes_read_roflags_t := wasi_serdes_read_uint16_t.
Definition wasi_serdes_write_sdflags_t := wasi_serdes_write_uint8_t.
Definition wasi_serdes_read_sdflags_t := wasi_serdes_read_uint8_t.
Definition wasi_serdes_write_siflags_t := wasi_serdes_write_uint16_t.
Definition wasi_serdes_read_siflags_t := wasi_serdes_read_uint16_t.
Definition wasi_serdes_write_signal_t := wasi_serdes_write_uint8_t.
Definition wasi_serdes_read_signal_t := wasi_serdes_read_uint8_t.
Definition wasi_serdes_write_size_t := wasi_serdes_write_uint32_t.
Definition wasi_serdes_read_size_t := wasi_serdes_read_uint32_t.
Definition wasi_serdes_write_subclockflags_t := wasi_serdes_write_uint16_t.
Definition wasi_serdes_read_subclockflags_t := wasi_serdes_read_uint16_t.
Definition wasi_serdes_write_timestamp_t := wasi_serdes_write_uint64_t.
Definition wasi_serdes_read_timestamp_t := wasi_serdes_read_uint64_t.
Definition wasi_serdes_write_userdata_t := wasi_serdes_write_uint64_t.
Definition wasi_serdes_read_userdata_t := wasi_serdes_read_uint64_t.
Definition wasi_serdes_write_whence_t := wasi_serdes_write_uint8_t.
Definition wasi_serdes_read_whence_t := wasi_serdes_read_uint8_t.

(** A file descriptor is an [int]. *)
Definition wasi_serdes_write_fd_t (m : wasm_memory) (offset value : Z) : outcome wasm_memory :=
  wasi_serdes_write_uint32_t m offset (u32 value).
Definition wasi_serdes_read_fd_t (m : wasm_memory) (offset : Z) : outcome Z :=
  swrap 32 <$> wasi_serdes_read_uint32_t m offset.

(** ** Structures *)

Record __wasi_dirent_t := mk_dirent { d_next : Z; d_ino : Z; d_namlen : Z; d_type : Z }.

Record __wasi_fdstat_t := mk_fdstat {
  fs_filetype : Z; fs_flags : Z; fs_rights_base : Z; fs_rights_inheriting : Z }.

Record __wasi_filestat_t := mk_filestat {
  st_dev : Z; st_ino : Z; st_filetype : Z; st_nlink : Z; st_size : Z; st_atim : Z; st_mtim : Z; st_ctim : Z }.

Record __wasi_prestat_t := mk_prestat { pr_tag : Z; pr_name_len : Z }.

Definition __WASI_EVENTTYPE_CLOCK : Z := 0.
Definition __WASI_EVENTTYPE_FD_READ : Z := 1.
Definition __WASI_EVENTTYPE_FD_WRITE : Z := 2.

Record __wasi_event_t := mk_event {
  ev_userdata : Z; ev_error : Z; ev_type : Z; ev_nbytes : Z; ev_flags : Z }.

(** The union of [__wasi_subscription_u_t]: the member last written. *)
Inductive __wasi_subscription_u_u_t :=
| u_clock (id timeout precision flags : Z)
| u_fd_read (file_descriptor : Z)
| u_fd_write (file_descriptor : Z).

Record __wasi_subscription_t := mk_subscription {
  sub_userdata : Z; sub_tag : Z; sub_u : __wasi_subscription_u_u_t }.

Definition wasi_serdes_write_dirent_t (m : wasm_memory) (offset : Z) (value : __wasi_dirent_t) : outcome wasm_memory :=
  m ← wasi_serdes_write_dircookie_t m (offset + 0) (d_next value);
  m ← wasi_serdes_write_inode_t m (offset + 8) (d_ino value);
  m ← wasi_serdes_write_uint32_t m (offset + 16) (d_namlen value);
  wasi_serdes_write_filetype_t m (offset + 20) (d_type value).

Definition wasi_serdes_read_dirent_t (m : wasm_memory) (offset : Z) : outcome __wasi_dirent_t :=
  d_next ← wasi_serdes_read_dircookie_t m (offset + 0);
  d_ino ← wasi_serdes_read_inode_t m (offset + 8);
  d_namlen ← wasi_serdes_read_uint32_t m (offset + 16);
  d_type ← wasi_serdes_read_filetype_t m (offset + 20);
  Ret (mk_dirent d_next d_ino d_namlen d_type).

Definition wasi_serdes_write_fdstat_t (m : wasm_memory) (offset : Z) (value : __wasi_fdstat_t) : outcome wasm_memory :=
  m ← wasi_serdes_write_filetype_t m (offset + 0) (fs_filetype value);
  m ← wasi_serdes_write_fdflags_t m (offset + 2) (fs_flags value);
  m ← wasi_serdes_write_rights_t m (offset + 8) (fs_rights_base value);
  wasi_serdes_write_rights_t m (offset + 16) (fs_rights_inheriting value).

Definition wasi_serdes_read_fdstat_t (m : wasm_memory) (offset : Z) : outcome __wasi_fdstat_t :=
  fs_filetype ← wasi_serdes_read_filetype_t m (offset + 0);
  fs_flags ← wasi_serdes_read_fdflags_t m (offset + 2);
  fs_rights_base ← wasi_serdes_read_rights_t m (offset + 8);
  fs_rights_inheriting ← wasi_serdes_read_rights_t m (offset + 16);
  Ret (mk_fdstat fs_filetype fs_flags fs_rights_base fs_rights_inheriting).

Definition wasi_serdes_write_filestat_t (m : wasm_memory) (offset : Z) (value : __wasi_filestat_t) : outcome wasm_memory :=
  m ← wasi_serdes_write_device_t m (offset + 0) (st_dev value);
  m ← wasi_serdes_write_inode_t m (offset + 8) (st_ino value);
  m ← wasi_serdes_write_filetype_t m (offset + 16) (st_filetype value);
  m ← wasi_serdes_write_linkcount_t m (offset + 24) (st_nlink value);
  m ← wasi_serdes_write_filesize_t m (offset + 32) (st_size value);
  m ← wasi_serdes_write_timestamp_t m (offset + 40) (st_atim value);
  m ← wasi_serdes_write_timestamp_t m (offset + 48) (st_mtim value);
  wasi_serdes_write_timestamp_t m (offset + 56) (st_ctim value).

Definition wasi_serdes_read_filestat_t (m : wasm_memory) (offset : Z) : outcome __wasi_filestat_t :=
  dev ← wasi_serdes_read_device_t m (offset + 0);
  ino ← wasi_serdes_read_inode_t m (offset + 8);
  filetype ← wasi_serdes_read_filetype_t m (offset + 16);
  nlink ← wasi_serdes_read_linkcount_t m (offset + 24);
  size ← wasi_serdes_read_filesize_t m (offset + 32);
  atim ← wasi_serdes_read_timestamp_t m (offset + 40);
  mtim ← wasi_serdes_read_timestamp_t m (offset + 48);
  ctim ← wasi_serdes_read_timestamp_t m (offset + 56);
  Ret (mk_filestat dev ino filetype nlink size atim mtim ctim).

Definition wasi_serdes_write_prestat_t (m : wasm_memory) (offset : Z) (value : __wasi_prestat_t) : outcome wasm_memory :=
  m ← wasi_serdes_write_preopentype_t m (offset + 0) (pr_tag value);
  wasi_serdes_write_uint32_t m (offset + 4) (pr_name_len value).

Definition wasi_serdes_read_prestat_t (m : wasm_memory) (offset : Z) : outcome __wasi_prestat_t :=
  tag ← wasi_serdes_read_preopentype_t m (offset + 0);
  pr_name_len ← wasi_serdes_read_uint32_t m (offset + 4);
  Ret (mk_prestat tag pr_name_len).

Definition is_readwrite (type : Z) : bool :=
  (type =? __WASI_EVENTTYPE_FD_READ) || (type =? __WASI_EVENTTYPE_FD_WRITE).

Definition wasi_serdes_write_event_t (m : wasm_memory) (offset : Z) (value : __wasi_event_t) : outcome wasm_memory :=
  m ← wasi_serdes_write_userdata_t m (offset + 0) (ev_userdata value);
  m ← wasi_serdes_write_errno_t m (offset + 8) (ev_error value);
  m ← wasi_serdes_write_eventtype_t m (offset + 10) (ev_type value);
  if is_readwrite (ev_type value) then
    m ← wasi_serdes_write_filesize_t m (offset + 16) (ev_nbytes value);
    wasi_serdes_write_eventrwflags_t m (offset + 24) (ev_flags value)
  else Ret m.

(** Reading fills in [value]; without a read or write event the rest of it stays. *)
Definition wasi_serdes_read_event_t (m : wasm_memory) (offset : Z) (value : __wasi_event_t) : outcome __wasi_event_t :=
  userdata ← wasi_serdes_read_userdata_t m (offset + 0);
  error ← wasi_serdes_read_errno_t m (offset + 8);
  type ← wasi_serdes_read_eventtype_t m (offset + 10);
  if is_readwrite type then
    nbytes ← wasi_serdes_read_filesize_t m (offset + 16);
    flags ← wasi_serdes_read_eventrwflags_t m (offset + 24);
    Ret (mk_event userdata error type nbytes flags)
  else Ret (mk_event userdata error type (ev_nbytes value) (ev_flags value)).

(** A union member other than the one last written holds unspecified bytes. *)
Definition wasi_serdes_write_subscription_t (m : wasm_memory) (offset : Z) (value : __wasi_subscription_t)
  : outcome wasm_memory :=
  m ← wasi_serdes_write_userdata_t m (offset + 0) (sub_userdata value);
  m ← wasi_serdes_write_eventtype_t m (offset + 8) (sub_tag value);
  if sub_tag value =? __WASI_EVENTTYPE_CLOCK then
    match sub_u value with
    | u_clock id timeout precision flags =>
      m ← wasi_serdes_write_clockid_t m (offset + 16) id;
      m ← wasi_serdes_write_timestamp_t m (offset + 24) timeout;
      m ← wasi_serdes_write_timestamp_t m (offset + 32) precision;
      wasi_serdes_write_subclockflags_t m (offset + 40) flags
    | _ => Stop Undefined
    end
  else if sub_tag value =? __WASI_EVENTTYPE_FD_READ then
    match sub_u value with
    | u_fd_read fd => wasi_serdes_write_fd_t m (offset + 16) fd
    | _ => Stop Undefined
    end
  else if sub_tag value =? __WASI_EVENTTYPE_FD_WRITE then
    match sub_u value with
    | u_fd_write fd => wasi_serdes_write_fd_t m (offset + 16) fd
    | _ => Stop Undefined
    end
  else Ret m.

Definition wasi_serdes_read_subscription_t (m : wasm_memory) (offset : Z) (value : __wasi_subscription_t)
  : outcome __wasi_subscription_t :=
  userdata ← wasi_serdes_read_userdata_t m (offset + 0);
  tag ← wasi_serdes_read_eventtype_t m (offset + 8);
  if tag =? __WASI_EVENTTYPE_CLOCK then
    id ← wasi_serdes_read_clockid_t m (offset + 16);
    timeout ← wasi_serdes_read_timestamp_t m (offset + 24);
    precision ← wasi_serdes_read_timestamp_t m (offset + 32);
    flags ← wasi_serdes_read_subclockflags_t m (offset + 40);
    Ret (mk_subscription userdata tag (u_clock id timeout precision flags))
  else if tag =? __WASI_EVENTTYPE_FD_READ then
    fd ← wasi_serdes_read_fd_t m (offset + 16);
    Ret (mk_subscription userdata tag (u_fd_read fd))
  else if tag =? __WASI_EVENTTYPE_FD_WRITE then
    fd ← wasi_serdes_read_fd_t m (offset + 16);
    Ret (mk_subscription userdata tag (u_fd_write fd))
  else Ret (mk_subscription userdata tag (sub_u value)).

(** ** Vectors of buffers *)

Definition __WASI_ERRNO_SUCCESS : Z := 0.
Definition __WASI_ERRNO_OVERFLOW : Z := 61.
Definition WASI_SERDES_SIZE_iovec_t : Z := 8.
Definition WASI_SERDES_SIZE_ciovec_t : Z := 8.

(** [buf] is an offset into the memory, [None] while it was not set. *)
Record __wasi_iovec_t := mk_iovec { iov_buf : option Z; iov_len : Z }.

Definition wasi_serdes_check_bounds (offset end_ size : Z) : bool :=
  (offset <? end_) && (size <=? u64 (end_ - offset)).

Definition wasi_serdes_check_array_bounds (offset end_ size count : Z) : outcome bool :=
  if offset <? end_ then
    if size =? 0 then Stop Fpe else
    Ret ((u64 (count * size) / size =? count) && (u64 (count * size) <=? u64 (end_ - offset)))
  else Ret false.

Definition wasi_serdes_read_iovec_t (m : wasm_memory) (end_ offset : Z) : outcome (Z * __wasi_iovec_t) :=
  buf_ptr ← wasi_serdes_read_uint32_t m offset;
  buf_len ← wasi_serdes_read_size_t m (offset + 4);
  if negb (wasi_serdes_check_bounds buf_ptr end_ buf_len)
  then Ret (__WASI_ERRNO_OVERFLOW, mk_iovec None buf_len)
  else Ret (__WASI_ERRNO_SUCCESS, mk_iovec (Some buf_ptr) buf_len).

Definition wasi_serdes_read_ciovec_t := wasi_serdes_read_iovec_t.

(** The entries read before an error are lost to the caller, which then does
    not use them. *)
Fixpoint wasi_serdes_readv_iovec_t (m : wasm_memory) (end_ offset : Z) (iovs_len : nat)
  : outcome (Z * list __wasi_iovec_t) :=
  match iovs_len with
  | O => Ret (__WASI_ERRNO_SUCCESS, [])
  | S iovs_len =>
    '(err, iov) ← wasi_serdes_read_iovec_t m end_ offset;
    if negb (err =? __WASI_ERRNO_SUCCESS) then Ret (err, []) else
    '(err, iovs) ← wasi_serdes_readv_iovec_t m end_ (offset + WASI_SERDES_SIZE_iovec_t) iovs_len;
    Ret (err, iov :: iovs)
  end.

Definition wasi_serdes_readv_ciovec_t := wasi_serdes_readv_iovec_t.

(** ** Slots of a memory *)

(** The bytes [off, off + n) can be accessed. *)
Definition slot (m : wasm_memory) (off : Z) (n : nat) : Prop :=
  is_Some (wm_buffer m) /\ accessible m off n = true.

(** They hold [v]. *)
Definition field_at (m : wasm_memory) (off : Z) (n : nat) (v : Z) : Prop :=
  exists buf, wm_buffer m = Some buf /\ accessible m off n = true /\ load_bytes buf off n = le_split n v.

(** [m'] is [m] with at most these bytes changed. *)
Definition wrote (m : wasm_memory) (off : Z) (n : nat) (m' : wasm_memory) : Prop :=
  wm_size m' = wm_size m /\ wm_capacity m' = wm_capacity m /\ wm_max m' = wm_max m
  /\ exists buf buf', wm_buffer m = Some buf /\ wm_buffer m' = Some buf'
    /\ forall a, a < off \/ off + Z.of_nat n <= a -> buf' a = buf a.

Lemma accessible_sub m off n off' n' :
  accessible m off n = true -> off <= off' -> off' + Z.of_nat n' <= off + Z.of_nat n -> accessible m off' n' = true.
Proof.
  unfold accessible. rewrite !andb_true_iff, !Z.leb_le. lia.
Qed.

Lemma accessible_dims m m' off n : wm_capacity m' = wm_capacity m -> accessible m' off n = accessible m off n.
Proof. intros E. unfold accessible. by rewrite E. Qed.

Lemma slot_sub m off n off' n' :
  slot m off n -> off <= off' -> off' + Z.of_nat n' <= off + Z.of_nat n -> slot m off' n'.
Proof. intros [Hb Ha] ? ?. split; [done|]. by eapply accessible_sub. Qed.

Lemma slot_wrote m off n m' off' n' : wrote m off n m' -> slot m off' n' -> slot m' off' n'.
Proof.
  intros (_ & Ec & _ & buf & buf' & _ & E & _) [_ Ha]. split; [eauto|]. by rewrite (accessible_dims m).
Qed.

Lemma field_wrote m off n m' off' n' v :
  wrote m off n m' -> field_at m off' n' v ->
  off' + Z.of_nat n' <= off \/ off + Z.of_nat n <= off' -> field_at m' off' n' v.
Proof.
  intros (_ & Ec & _ & buf & buf' & Eb & E & Hsame) (b & Eb' & Ha & Hl) Hd.
  assert (b = buf) as -> by congruence. exists buf'. split; [done|]. split; [by rewrite (accessible_dims m)|].
  rewrite <- Hl. apply load_bytes_ext. intros a Hin. apply Hsame. lia.
Qed.

Lemma wrote_trans m1 m2 m3 off n off1 n1 off2 n2 :
  wrote m1 off1 n1 m2 -> wrote m2 off2 n2 m3 ->
  off <= off1 -> off1 + Z.of_nat n1 <= off + Z.of_nat n -> off <= off2 -> off2 + Z.of_nat n2 <= off + Z.of_nat n ->
  wrote m1 off n m3.
Proof.
  intros (A1 & A2 & A3 & b1 & b2 & E1 & E2 & H1) (B1 & B2 & B3 & b2' & b3 & E2' & E3 & H2) ? ? ? ?.
  assert (b2' = b2) as -> by congruence.
  split; [congruence|]. split; [congruence|]. split; [congruence|]. exists b1, b3. split; [done|]. split; [done|].
  intros a Ha. rewrite H2, H1 by lia. done.
Qed.

Lemma wrote_sub m off n m' off' n' :
  wrote m off n m' -> off' <= off -> off + Z.of_nat n <= off' + Z.of_nat n' -> wrote m off' n' m'.
Proof.
  intros (A1 & A2 & A3 & b1 & b2 & E1 & E2 & H1) ? ?. do 3 (split; [done|]). exists b1, b2.
  split; [done|]. split; [done|]. intros a Ha. apply H1. lia.
Qed.

(** ** Doubling the width *)

Lemma le_split_app n1 n2 v :
  le_split (n1 + n2) v = le_split n1 v ++ le_split n2 (v / 256 ^ Z.of_nat n1).
Proof.
  revert v. induction n1 as [|n1 IH]; intros v; cbn [le_split Nat.add app]; [by rewrite Z.div_1_r|].
  rewrite IH. do 3 f_equal. rewrite pow256_S. apply Z.div_div; [lia|]. apply Z.pow_pos_nonneg; lia.
Qed.

Lemma load_bytes_app buf off n1 n2 :
  load_bytes buf off (n1 + n2) = load_bytes buf off n1 ++ load_bytes buf (off + Z.of_nat n1) n2.
Proof.
  apply list_eq. intros k. destruct (decide (k < n1 + n2)%nat) as [Hk|Hk].
  - rewrite lookup_load_bytes by done. destruct (decide (k < n1)%nat).
    + by rewrite lookup_app_l, lookup_load_bytes by (rewrite ?length_load_bytes; done).
    + rewrite lookup_app_r, length_load_bytes, lookup_load_bytes by (rewrite ?length_load_bytes; lia).
      do 2 f_equal. lia.
  - rewrite !lookup_ge_None_2; rewrite ?length_app, ?length_load_bytes; done || lia.
Qed.

Lemma le_split_mod n v : le_split n (v mod 256 ^ Z.of_nat n) = le_split n v.
Proof.
  rewrite <- le_combine_split. etransitivity; [|apply le_split_combine, le_split_bytes].
  by rewrite length_le_split.
Qed.

Lemma field_app m off n1 n2 v :
  field_at m off n1 v -> field_at m (off + Z.of_nat n1) n2 (v / 256 ^ Z.of_nat n1) -> field_at m off (n1 + n2) v.
Proof.
  intros (buf & E & A1 & H1) (buf' & E' & A2 & H2). assert (buf' = buf) as -> by congruence.
  exists buf. split; [done|]. split.
  - unfold accessible in *. rewrite andb_true_iff, !Z.leb_le in *. lia.
  - by rewrite load_bytes_app, le_split_app, H1, H2.
Qed.

(** A writer and a reader of [n]-byte integers. *)
Definition writes (n : nat) (write : wasm_memory -> Z -> Z -> outcome wasm_memory) : Prop :=
  forall m off v, slot m off n ->
    exists m', write m off v = Ret m' /\ wrote m off n m' /\ field_at m' off n v.

Definition reads (n : nat) (read : wasm_memory -> Z -> outcome Z) : Prop :=
  forall m off v, field_at m off n v -> read m off = Ret (v mod 256 ^ Z.of_nat n).

Lemma double_writes n write :
  writes n write ->
  writes (n + n) (fun m off v => m ← write m off (v mod 256 ^ Z.of_nat n);
                                 write m (off + Z.of_nat n) (Z.shiftr v (8 * Z.of_nat n))).
Proof.
  intros Hw m off v S.
  destruct (Hw m off (v mod 256 ^ Z.of_nat n)) as (m1 & -> & W1 & F1); [eapply slot_sub; [exact S|lia..]|]. ostep.
  destruct (Hw m1 (off + Z.of_nat n) (Z.shiftr v (8 * Z.of_nat n))) as (m2 & E2 & W2 & F2).
  { eapply slot_sub; [eapply slot_wrote; [exact W1|exact S]|lia..]. }
  exists m2. split; [done|]. split; [eapply (wrote_trans m m1 m2 off (n + n)); [exact W1|exact W2|lia..]|].
  apply field_app.
  - pose proof (field_wrote _ _ _ _ off n _ W2 F1) as (buf & E & A & Hl); [lia|]. exists buf.
    split; [done|]. split; [done|]. by rewrite Hl, le_split_mod.
  - replace (v / 256 ^ Z.of_nat n) with (Z.shiftr v (8 * Z.of_nat n)); [done|].
    rewrite Z.shiftr_div_pow2, Z.pow_mul_r by lia. done.
Qed.

Lemma lor_shifted a b k : 0 <= k -> 0 <= a < 2 ^ k -> 0 <= b -> Z.lor a (Z.shiftl b k) = a + b * 2 ^ k.
Proof.
  intros Hk Ha Hb. rewrite Z.shiftl_mul_pow2 by done.
  rewrite <- Z.lxor_lor; [symmetry; apply Z.add_nocarry_lxor|]; apply Z.bits_inj'; intros i Hi;
    rewrite Z.land_spec, Z.bits_0, <- Z.shiftl_mul_pow2, Z.shiftl_spec by done;
    (destruct (decide (i < k)); [rewrite (Z.testbit_neg_r b) by lia; apply andb_false_r|]);
    (replace a with (a mod 2 ^ k) by (by apply Z.mod_small)); by rewrite Z.mod_pow2_bits_high by lia.
Qed.

Lemma double_reads n read :
  (0 < n)%nat -> reads n read ->
  reads (n + n) (fun m off => low ← read m off; high ← read m (off + Z.of_nat n);
                              Ret (Z.lor low (Z.shiftl high (8 * Z.of_nat n)))).
Proof.
  intros Hn Hr m off v (buf & E & A & Hl). rewrite load_bytes_app, le_split_app in Hl.
  apply app_inj_1 in Hl as [H1 H2]; [|by rewrite length_load_bytes, length_le_split].
  rewrite (Hr m off v) by (exists buf; split; [done|]; split; [eapply accessible_sub; [exact A|lia..]|done]). ostep.
  rewrite (Hr m (off + Z.of_nat n) (v / 256 ^ Z.of_nat n))
    by (exists buf; split; [done|]; split; [eapply accessible_sub; [exact A|lia..]|done]). ostep.
  f_equal. assert (Hp : 2 ^ (8 * Z.of_nat n) = 256 ^ Z.of_nat n) by (rewrite Z.pow_mul_r by lia; done).
  assert (0 < 256 ^ Z.of_nat n) by (apply Z.pow_pos_nonneg; lia).
  rewrite lor_shifted, Hp; [|lia|rewrite Hp; apply Z.mod_pos_bound; lia|apply Z.mod_pos_bound; lia].
  rewrite Nat2Z.inj_add, Z.pow_add_r, Z.rem_mul_r by lia. lia.
Qed.

Lemma writes_uint8 : writes 1 wasi_serdes_write_uint8_t.
Proof.
  intros m off v [[buf E] A]. unfold wasi_serdes_write_uint8_t, mem_store. rewrite E. ostep. cbn [length]. rewrite A.
  eexists. split; [done|]. split.
  - do 3 (split; [done|]). exists buf, (store_bytes buf off [u8 v]). split; [done|]. split; [done|].
    intros a Ha. by apply store_bytes_out.
  - exists (store_bytes buf off [u8 v]). split; [done|]. split; [done|]. exact (load_store_eq buf off [u8 v]).
Qed.

Lemma writes_uint16 : writes 2 wasi_serdes_write_uint16_t.
Proof. exact (double_writes 1 _ writes_uint8). Qed.

Lemma writes_uint32 : writes 4 wasi_serdes_write_uint32_t.
Proof. exact (double_writes 2 _ writes_uint16). Qed.

Lemma writes_uint64 : writes 8 wasi_serdes_write_uint64_t.
Proof. exact (double_writes 4 _ writes_uint32). Qed.

Lemma reads_uint8 : reads 1 wasi_serdes_read_uint8_t.
Proof.
  intros m off v (buf & E & A & Hl). unfold wasi_serdes_read_uint8_t, mem_load. rewrite E. ostep. rewrite A, Hl.
  by rewrite le_combine_split.
Qed.

Lemma reads_uint16 : reads 2 wasi_serdes_read_uint16_t.
Proof. exact (double_reads 1 _ ltac:(lia) reads_uint8). Qed.

Lemma reads_uint32 : reads 4 wasi_serdes_read_uint32_t.
Proof. exact (double_reads 2 _ ltac:(lia) reads_uint16). Qed.

Lemma reads_uint64 : reads 8 wasi_serdes_read_uint64_t.
Proof. exact (double_reads 4 _ ltac:(lia) reads_uint32). Qed.

#[export] Hint Resolve writes_uint8 writes_uint16 writes_uint32 writes_uint64 : sledge.
#[export] Hint Resolve reads_uint8 reads_uint16 reads_uint32 reads_uint64 : sledge.

Lemma read_field n read m off v :
  reads n read -> field_at m off n v -> 0 <= v < 256 ^ Z.of_nat n -> read m off = Ret v.
Proof. intros R F Hv. rewrite (R m off v F). by rewrite Z.mod_small. Qed.

(** ** The interface *)

(** Reading into [old] after writing [v] gives [ser_merge old v]: [v], with the
    parts its writer skips taken from [old]. *)
Class Serdes (A : Type) := {
  ser_size : nat;
  ser_write : wasm_memory -> Z -> A -> outcome wasm_memory;
  ser_read : wasm_memory -> Z -> A -> outcome A;
  ser_valid : A -> Prop;
  ser_merge : A -> A -> A;
  (** Written, and read back also after writes elsewhere. *)
  ser_law m off v old : slot m off ser_size -> ser_valid v ->
    exists m', ser_write m off v = Ret m' /\ wrote m off ser_size m'
      /\ forall m'' off' n', wrote m' off' n' m'' ->
           off' + Z.of_nat n' <= off \/ off + Z.of_nat ser_size <= off' ->
           ser_read m'' off old = Ret (ser_merge old v);
}.

(** One field is written; the fields written before stay. *)
Ltac carry W :=
  repeat match goal with
  | F : field_at ?m _ _ _ |- _ =>
    match type of W with wrote m _ _ _ => apply (field_wrote _ _ _ _ _ _ _ W) in F; [|lia] end
  end.

Lemma write_field n write m0 off size m off' v :
  writes n write -> wrote m0 off size m -> slot m0 off size ->
  off <= off' -> off' + Z.of_nat n <= off + Z.of_nat size ->
  exists m', write m off' v = Ret m' /\ wrote m off' n m' /\ wrote m0 off size m' /\ field_at m' off' n v.
Proof.
  intros Hw W S H1 H2. destruct (Hw m off' v) as (m' & E & W' & F).
  { eapply slot_sub; [eapply slot_wrote; [exact W|exact S]|lia..]. }
  exists m'. split; [done|]. split; [done|]. split; [|done].
  eapply (wrote_trans m0 m m' off size off size); [done|done|lia..].
Qed.

Lemma wrote_refl m off n size : slot m off n -> wrote m off size m.
Proof. intros [[buf E] _]. do 3 (split; [done|]). by exists buf, buf. Qed.

Ltac write_one write :=
  match goal with
  | W : wrote ?m0 ?off ?size ?m, S : slot ?m0 ?off ?size |- context [write ?m ?off' ?v] =>
    let m' := fresh "m" in let E := fresh "E" in let W1 := fresh "W" in let W2 := fresh "W" in let F := fresh "F" in
    destruct (write_field _ write m0 off size m off' v ltac:(eauto with sledge nocore) W S ltac:(lia) ltac:(lia))
      as (m' & E & W1 & W2 & F); rewrite E; ostep; carry W1; clear W W1 E
  end.

Ltac write_fields :=
  repeat first [ write_one wasi_serdes_write_uint64_t | write_one wasi_serdes_write_uint32_t
               | write_one wasi_serdes_write_uint16_t | write_one wasi_serdes_write_uint8_t ].

Ltac read_fields :=
  repeat match goal with
  | F : field_at ?m ?off ?n ?v |- context [?read ?m ?off] =>
    rewrite (read_field n read m off v ltac:(eauto with sledge nocore) F ltac:(cbn; lia)); ostep
  end.

Definition below (n : nat) (v : Z) : Prop := 0 <= v < 256 ^ Z.of_nat n.

Ltac unfold_aliases :=
  unfold wasi_serdes_write_dircookie_t, wasi_serdes_write_inode_t, wasi_serdes_write_filetype_t,
    wasi_serdes_write_fdflags_t, wasi_serdes_write_rights_t, wasi_serdes_write_device_t,
    wasi_serdes_write_linkcount_t, wasi_serdes_write_filesize_t, wasi_serdes_write_timestamp_t,
    wasi_serdes_write_preopentype_t, wasi_serdes_write_userdata_t, wasi_serdes_write_errno_t,
    wasi_serdes_write_eventtype_t, wasi_serdes_write_eventrwflags_t, wasi_serdes_write_clockid_t,
    wasi_serdes_write_subclockflags_t, wasi_serdes_write_size_t, wasi_serdes_read_dircookie_t,
    wasi_serdes_read_inode_t, wasi_serdes_read_filetype_t, wasi_serdes_read_fdflags_t,
    wasi_serdes_read_rights_t, wasi_serdes_read_device_t, wasi_serdes_read_linkcount_t,
    wasi_serdes_read_filesize_t, wasi_serdes_read_timestamp_t, wasi_serdes_read_preopentype_t,
    wasi_serdes_read_userdata_t, wasi_serdes_read_errno_t, wasi_serdes_read_eventtype_t,
    wasi_serdes_read_eventrwflags_t, wasi_serdes_read_clockid_t, wasi_serdes_read_subclockflags_t,
    wasi_serdes_read_size_t.

(** The whole proof of a structure: write the fields, then read them. *)
Ltac serdes_law S off size :=
  let W := fresh "W" in pose proof (wrote_refl _ off size size S) as W;
  unfold below in *; cbn [Z.of_nat Pos.of_succ_nat Pos.succ] in *; unfold_aliases; write_fields;
  eexists; split; [reflexivity|]; split; [eassumption|];
  let m := fresh "m" in let o := fresh "o" in let n := fresh "n" in let Wr := fresh "Wr" in let D := fresh "D" in
  intros m o n Wr D; carry Wr; read_fields.

#[export] Program Instance dirent_serdes : Serdes __wasi_dirent_t := {|
  ser_size := 24;
  ser_write := wasi_serdes_write_dirent_t;
  ser_read m off _ := wasi_serdes_read_dirent_t m off;
  ser_valid v := below 8 (d_next v) /\ below 8 (d_ino v) /\ below 4 (d_namlen v) /\ below 1 (d_type v);
  ser_merge _ v := v;
|}.
Next Obligation.
  intros m off [v1 v2 v3 v4] _ S (H1 & H2 & H3 & H4). cbn [d_next d_ino d_namlen d_type] in *.
  unfold wasi_serdes_write_dirent_t, wasi_serdes_read_dirent_t. cbn [d_next d_ino d_namlen d_type].
  serdes_law S off 24%nat. done.
Qed.

#[export] Program Instance fdstat_serdes : Serdes __wasi_fdstat_t := {|
  ser_size := 24;
  ser_write := wasi_serdes_write_fdstat_t;
  ser_read m off _ := wasi_serdes_read_fdstat_t m off;
  ser_valid v := below 1 (fs_filetype v) /\ below 2 (fs_flags v) /\ below 8 (fs_rights_base v) /\ below 8
    (fs_rights_inheriting v);
  ser_merge _ v := v;
|}.
Next Obligation.
  intros m off [v1 v2 v3 v4] _ S (H1 & H2 & H3 & H4). cbn [fs_filetype fs_flags fs_rights_base fs_rights_inheriting] in *.
  unfold wasi_serdes_write_fdstat_t, wasi_serdes_read_fdstat_t. cbn [fs_filetype fs_flags fs_rights_base fs_rights_inheriting].
  serdes_law S off 24%nat. done.
Qed.

#[export] Program Instance filestat_serdes : Serdes __wasi_filestat_t := {|
  ser_size := 64;
  ser_write := wasi_serdes_write_filestat_t;
  ser_read m off _ := wasi_serdes_read_filestat_t m off;
  ser_valid v := below 8 (st_dev v) /\ below 8 (st_ino v) /\ below 1 (st_filetype v) /\ below 8 (st_nlink v) /\ below
    8 (st_size v) /\ below 8 (st_atim v) /\ below 8 (st_mtim v) /\ below 8 (st_ctim v);
  ser_merge _ v := v;
|}.
Next Obligation.
  intros m off [v1 v2 v3 v4 v5 v6 v7 v8] _ S (H1 & H2 & H3 & H4 & H5 & H6 & H7 & H8). cbn [st_dev st_ino st_filetype st_nlink st_size st_atim st_mtim st_ctim] in *.
  unfold wasi_serdes_write_filestat_t, wasi_serdes_read_filestat_t. cbn [st_dev st_ino st_filetype st_nlink st_size st_atim st_mtim st_ctim].
  serdes_law S off 64%nat. done.
Qed.

#[export] Program Instance prestat_serdes : Serdes __wasi_prestat_t := {|
  ser_size := 8;
  ser_write := wasi_serdes_write_prestat_t;
  ser_read m off _ := wasi_serdes_read_prestat_t m off;
  ser_valid v := below 1 (pr_tag v) /\ below 4 (pr_name_len v);
  ser_merge _ v := v;
|}.
Next Obligation.
  intros m off [v1 v2] _ S (H1 & H2). cbn [pr_tag pr_name_len] in *.
  unfold wasi_serdes_write_prestat_t, wasi_serdes_read_prestat_t. cbn [pr_tag pr_name_len].
  serdes_law S off 8%nat. done.
Qed.

#[export] Program Instance event_serdes : Serdes __wasi_event_t := {|
  ser_size := 32;
  ser_write := wasi_serdes_write_event_t;
  ser_read := wasi_serdes_read_event_t;
  ser_valid v := below 8 (ev_userdata v) /\ below 2 (ev_error v) /\ below 1 (ev_type v) /\ below 8 (ev_nbytes v)
    /\ below 2 (ev_flags v);
  ser_merge old v :=
    if is_readwrite (ev_type v) then v
    else mk_event (ev_userdata v) (ev_error v) (ev_type v) (ev_nbytes old) (ev_flags old);
|}.
Next Obligation.
  intros m off [v1 v2 v3 v4 v5] old S (H1 & H2 & H3 & H4 & H5).
  cbn [ev_userdata ev_error ev_type ev_nbytes ev_flags] in *.
  unfold wasi_serdes_write_event_t, wasi_serdes_read_event_t. cbn [ev_userdata ev_error ev_type ev_nbytes ev_flags].
  destruct (is_readwrite v3) eqn:E; serdes_law S off 32%nat; by rewrite E; read_fields.
Qed.

(** The union member that the tag announces; other tags have none. *)
Definition subscription_valid (v : __wasi_subscription_t) : Prop :=
  below 8 (sub_userdata v) /\ below 1 (sub_tag v)
  /\ match sub_u v with
     | u_clock id timeout precision flags =>
         sub_tag v <> __WASI_EVENTTYPE_FD_READ /\ sub_tag v <> __WASI_EVENTTYPE_FD_WRITE
         /\ below 4 id /\ below 8 timeout /\ below 8 precision /\ below 2 flags
     | u_fd_read fd => sub_tag v <> __WASI_EVENTTYPE_CLOCK /\ sub_tag v <> __WASI_EVENTTYPE_FD_WRITE
         /\ - 2 ^ 31 <= fd < 2 ^ 31
     | u_fd_write fd => sub_tag v <> __WASI_EVENTTYPE_CLOCK /\ sub_tag v <> __WASI_EVENTTYPE_FD_READ
         /\ - 2 ^ 31 <= fd < 2 ^ 31
     end.

Definition tag_known (tag : Z) : bool :=
  (tag =? __WASI_EVENTTYPE_CLOCK) || (tag =? __WASI_EVENTTYPE_FD_READ) || (tag =? __WASI_EVENTTYPE_FD_WRITE).

Lemma u32_below v : 0 <= u32 v < 256 ^ Z.of_nat 4.
Proof. apply Z.mod_pos_bound. done. Qed.

Lemma swrap_u32 v : - 2 ^ 31 <= v < 2 ^ 31 -> swrap 32 (u32 v) = v.
Proof. intros Hv. unfold u32, wrap. rewrite swrap_wrap by done. by apply swrap_small. Qed.

#[export] Program Instance subscription_serdes : Serdes __wasi_subscription_t := {|
  ser_size := 48;
  ser_write := wasi_serdes_write_subscription_t;
  ser_read := wasi_serdes_read_subscription_t;
  ser_valid := subscription_valid;
  ser_merge old v := if tag_known (sub_tag v) then v else mk_subscription (sub_userdata v) (sub_tag v) (sub_u old);
|}.
Next Obligation.
  intros m off [v1 v2 u] old S (H1 & H2 & H3). cbn [sub_userdata sub_tag sub_u] in *.
  unfold wasi_serdes_write_subscription_t, wasi_serdes_read_subscription_t, wasi_serdes_write_fd_t, wasi_serdes_read_fd_t,
    tag_known. cbn [sub_userdata sub_tag sub_u].
  destruct (Z.eqb_spec v2 __WASI_EVENTTYPE_CLOCK) as [Ec|Ec];
    [|destruct (Z.eqb_spec v2 __WASI_EVENTTYPE_FD_READ) as [Er|Er];
    [|destruct (Z.eqb_spec v2 __WASI_EVENTTYPE_FD_WRITE) as [Ew|Ew]]]; cbn [orb].
  - destruct u as [id timeout precision flags|fd|fd]; [|by destruct H3..]. destruct H3 as (_ & _ & H4 & H5 & H6 & H7).
    serdes_law S off 48%nat. by rewrite (proj2 (Z.eqb_eq _ _) Ec); read_fields.
  - destruct u as [|fd|]; [destruct H3 as (? & ? & _); done| |by destruct H3 as (_ & ? & _)]. destruct H3 as (_ & _ & Hfd).
    pose proof (u32_below fd) as Hu.
    serdes_law S off 48%nat. rewrite (proj2 (Z.eqb_neq _ _) Ec), (proj2 (Z.eqb_eq _ _) Er); read_fields.
    by rewrite swrap_u32.
  - destruct u as [|fd|fd]; [destruct H3 as (? & ? & _); done|by destruct H3 as (_ & ? & _)|]. destruct H3 as (_ & _ & Hfd).
    pose proof (u32_below fd) as Hu.
    serdes_law S off 48%nat.
    rewrite (proj2 (Z.eqb_neq _ _) Ec), (proj2 (Z.eqb_neq _ _) Er), (proj2 (Z.eqb_eq _ _) Ew); read_fields.
    by rewrite swrap_u32.
  - clear H3. serdes_law S off 48%nat.
    by rewrite (proj2 (Z.eqb_neq _ _) Ec), (proj2 (Z.eqb_neq _ _) Er), (proj2 (Z.eqb_neq _ _) Ew).
Qed.

(** What is written is read back, whatever was there before, and nothing
    outside the bytes of the structure changes. *)
Definition round_trip (A : Type) {H : Serdes A} : Prop :=
  forall m off v old, slot m off ser_size -> ser_valid v ->
    exists m', ser_write m off v = Ret m' /\ ser_read m' off old = Ret (ser_merge old v) /\ wrote m off ser_size m'.

Lemma serdes_round_trip A {H : Serdes A} : round_trip A.
Proof.
  intros m off v old S Hv. destruct (ser_law m off v old S Hv) as (m' & E & W & R). exists m'.
  split; [done|]. split; [|done]. apply (R m' (off - 1) 1%nat); [|lia].
  destruct W as (_ & _ & _ & buf & buf' & _ & E' & _). do 3 (split; [done|]). by exists buf', buf'.
Qed.

(** C32: Every structure of the WASI interface that the runtime serialises
    ([dirent], [fdstat], [filestat], [prestat], [event], [subscription]) is read
    back from linear memory as it was written: the reader returns the value of
    the writer, with the union parts that the tag does not announce taken from
    the variable it reads into, and the writer changes no byte outside the
    structure. *)
Theorem wasi_serdes_roundtrip :
  round_trip __wasi_dirent_t /\ round_trip __wasi_fdstat_t /\ round_trip __wasi_filestat_t
  /\ round_trip __wasi_prestat_t /\ round_trip __wasi_event_t /\ round_trip __wasi_subscription_t.
Proof. repeat split; apply serdes_round_trip. Qed.

(** ** Vectors of buffers: what the guest's array says *)

Definition iovec_at (buf : bytes) (off : Z) : Z * Z :=
  (le_combine (load_bytes buf off 4), le_combine (load_bytes buf (off + 4) 4)).

Definition iovec_entries (buf : bytes) (off : Z) (n : nat) : list (Z * Z) :=
  (fun i : nat => iovec_at buf (off + 8 * Z.of_nat i)) <$> seq 0 n.

Definition iovec_in_bounds (end_ : Z) (e : Z * Z) : Prop := e.1 < end_ /\ e.1 + e.2 <= end_.

#[export] Instance iovec_in_bounds_dec end_ e : Decision (iovec_in_bounds end_ e).
Proof. unfold iovec_in_bounds. apply _. Defined.

Lemma iovec_entries_S buf off n :
  iovec_entries buf off (S n) = iovec_at buf off :: iovec_entries buf (off + 8) n.
Proof.
  unfold iovec_entries. cbn [seq]. rewrite fmap_cons, Z.mul_0_r, Z.add_0_r. f_equal.
  rewrite <- (seq_shift n 0). rewrite <- list_fmap_compose. apply list_fmap_ext. intros i x _. cbn [compose].
  f_equal. lia.
Qed.

Lemma load_range buf off n : (forall a, is_byte (buf a)) -> 0 <= le_combine (load_bytes buf off n) < 256 ^ Z.of_nat n.
Proof.
  intros Hb. pose proof (le_combine_bound (load_bytes buf off n)) as R. rewrite length_load_bytes in R. apply R.
  unfold load_bytes. apply Forall_fmap, Forall_forall. intros i _. apply Hb.
Qed.

Lemma reads_load n read m buf off :
  reads n read -> (forall a, is_byte (buf a)) -> wm_buffer m = Some buf -> accessible m off n = true ->
  read m off = Ret (le_combine (load_bytes buf off n)).
Proof.
  intros Hr Hb E A. pose proof (load_range buf off n Hb) as R.
  rewrite (read_field n read m off (le_combine (load_bytes buf off n)) Hr); [done| |done].
  exists buf. do 2 (split; [done|]). pose proof (le_split_combine (load_bytes buf off n)) as S.
  rewrite length_load_bytes in S. symmetry. apply S.
  unfold load_bytes. apply Forall_fmap, Forall_forall. intros i _. apply Hb.
Qed.

Lemma check_bounds_iff end_ e :
  0 <= end_ <= 2 ^ 32 -> 0 <= e.1 -> wasi_serdes_check_bounds e.1 end_ e.2 = bool_decide (iovec_in_bounds end_ e).
Proof.
  intros H1 H2. unfold wasi_serdes_check_bounds, iovec_in_bounds.
  destruct (Z.ltb_spec e.1 end_); cbn [andb].
  - rewrite u64_small by (unfold UINT64_MAX; lia). apply Bool.eq_iff_eq_true.
    rewrite bool_decide_eq_true, Z.leb_le. lia.
  - symmetry. apply bool_decide_false. lia.
Qed.

(** The array is decoded entry by entry; an entry that leaves the memory is an
    error, of which the caller learns no entry. *)
Lemma readv_ok m buf end_ n : forall off,
  wm_buffer m = Some buf -> (forall a, is_byte (buf a)) -> 0 <= end_ <= 2 ^ 32 -> accessible m off (8 * n) = true ->
  if decide (Forall (iovec_in_bounds end_) (iovec_entries buf off n))
  then wasi_serdes_readv_iovec_t m end_ off n
       = Ret (__WASI_ERRNO_SUCCESS, (fun e => mk_iovec (Some e.1) e.2) <$> iovec_entries buf off n)
  else exists iovs, wasi_serdes_readv_iovec_t m end_ off n = Ret (__WASI_ERRNO_OVERFLOW, iovs).
Proof.
  induction n as [|n IH]; intros off E Hb He A.
  - rewrite decide_True by constructor. done.
  - rewrite iovec_entries_S. cbn [wasi_serdes_readv_iovec_t]. unfold wasi_serdes_read_iovec_t, wasi_serdes_read_size_t.
    assert (A1 : accessible m off 4 = true) by (eapply accessible_sub; [exact A|lia..]).
    assert (A2 : accessible m (off + 4) 4 = true) by (eapply accessible_sub; [exact A|lia..]).
    rewrite (reads_load 4 wasi_serdes_read_uint32_t m buf off) by auto with sledge. ostep.
    rewrite (reads_load 4 wasi_serdes_read_uint32_t m buf (off + 4)) by auto with sledge. ostep.
    change (le_combine (load_bytes buf off 4)) with (iovec_at buf off).1.
    change (le_combine (load_bytes buf (off + 4) 4)) with (iovec_at buf off).2.
    rewrite check_bounds_iff by (try done; apply (load_range buf off 4 Hb)).
    specialize (IH (off + 8) E Hb He ltac:(eapply accessible_sub; [exact A|lia..])).
    destruct (decide (iovec_in_bounds end_ (iovec_at buf off))) as [Hi|Hi].
    + rewrite (bool_decide_true (iovec_in_bounds end_ (iovec_at buf off))) by done. cbn [negb]. ostep. cbn [negb Z.eqb].
      unfold WASI_SERDES_SIZE_iovec_t.
      destruct (decide (Forall (iovec_in_bounds end_) (iovec_entries buf (off + 8) n))) as [Hf|Hf].
      * rewrite decide_True by by constructor. rewrite IH. done.
      * rewrite decide_False by by inversion 1. destruct IH as [iovs ->]. by eexists.
    + rewrite (bool_decide_false (iovec_in_bounds end_ (iovec_at buf off))) by done.
      rewrite decide_False by by inversion 1. by eexists.
Qed.
