(* ===== verification/Globals.v ===== *)
(** * Globals: growable vectors and the WebAssembly globals kept in them

    [runtime/include/vec.h], [runtime/include/wasm_globals.h] and
    [libsledge/src/variable_instructions.c].  A vector's cells are optional:
    [None] is a cell [realloc] added and nothing has written.  Whether an
    allocation succeeds is a boolean argument. *)

From Stdlib Require Import ZArith Lia.
From S2P Require Import Prelude Bytes.
Local Open Scope Z_scope.

Record vec (A : Type) := mk_vec {
  vec_len : nat;
  vec_cap : nat;
  vec_buffer : option (list (option A));  (* None: NULL *)
}.
Arguments mk_vec {A} _ _ _.
Arguments vec_len {A} _.
Arguments vec_cap {A} _.
Arguments vec_buffer {A} _.

Section vec.
Context {A : Type}.
(** What [calloc] leaves in a cell. *)
Variable zeroed : A.
Implicit Types v : vec A.

Definition vec_init v (capacity : nat) (calloc_ok : bool) : Z * vec A :=
  if decide (capacity = 0%nat) then (0, mk_vec 0 capacity None)
  else if negb calloc_ok then (-1, mk_vec (vec_len v) (vec_cap v) None)
  else (0, mk_vec 0 capacity (Some (replicate capacity (Some zeroed)))).

Definition vec_deinit v : outcome (vec A) :=
  if decide (vec_cap v = 0%nat) then
    assert (bool_decide (vec_buffer v = None)) ;;
    assert (bool_decide (vec_len v = 0%nat)) ;;
    Ret v
  else
    assert (negb (bool_decide (vec_buffer v = None))) ;;
    Ret (mk_vec 0 0 None).

Definition vec_free v : outcome unit := vec_deinit v ;; Ret tt.

(** [calloc] of the struct gives zeroes and a NULL buffer. *)
Definition vec_alloc (capacity : nat) (calloc_struct_ok calloc_ok : bool)
  : outcome (option (vec A)) :=
  if negb calloc_struct_ok then Ret None else
  let '(rc, v) := vec_init (mk_vec 0 0 None) capacity calloc_ok in
  if rc <? 0 then vec_free v ;; Ret None else Ret (Some v).

(** [realloc]: the old cells, cut or extended with unwritten ones. *)
Definition realloc_cells (cells : option (list (option A))) (n : nat) : list (option A) :=
  let old := default [] cells in
  take n old ++ replicate (n - length old) None.

Definition vec_resize v (capacity : nat) (realloc_ok : bool) : Z * vec A :=
  if decide (vec_cap v = capacity) then (0, v)
  else if negb realloc_ok then (-1, v)
  else (0, mk_vec (vec_len v) capacity (Some (realloc_cells (vec_buffer v) capacity))).

Definition vec_grow v (realloc_ok : bool) : Z * vec A :=
  let capacity := if decide (vec_cap v = 0%nat) then 1%nat else (vec_cap v * 2)%nat in
  vec_resize v capacity realloc_ok.

(** [vec->buffer[idx] = value] *)
Definition vec_write v (idx : nat) (value : A) : outcome (vec A) :=
  cells ← deref (vec_buffer v);
  if decide (idx < length cells)%nat
  then Ret (mk_vec (vec_len v) (vec_cap v) (Some (<[idx := Some value]> cells)))
  else Stop Undefined.

Definition vec_insert v (idx : nat) (value : A) (realloc_ok : bool) : outcome (Z * vec A) :=
  let '(rc, v) := if decide (vec_len v = vec_cap v) then vec_grow v realloc_ok else (0, v) in
  if negb (rc =? 0) then Ret (-1, v) else
  v ← vec_write v idx value;
  Ret (0, v).

(** The cell's address is its index; [None] is NULL. *)
Definition vec_get v (idx : nat) : option nat :=
  if decide (vec_cap v <= idx)%nat then None else Some idx.

Definition vec_push v (value : A) (realloc_ok : bool) : outcome (Z * vec A) :=
  let '(rc, v) := if decide (vec_len v = vec_cap v) then vec_grow v realloc_ok else (0, v) in
  if negb (rc =? 0) then Ret (-1, v) else
  v ← vec_write v (vec_len v) value;
  Ret (0, mk_vec (S (vec_len v)) (vec_cap v) (vec_buffer v)).

(** Reading through the pointer [vec_get] returns. *)
Definition vec_read v (idx : nat) : outcome A :=
  cells ← deref (vec_buffer v);
  cell ← deref (cells !! idx);
  deref cell.

(** The pushed elements, in order. *)
Definition vec_repr v (l : list A) : Prop :=
  vec_len v = length l /\ (length l <= vec_cap v)%nat
  /\ match vec_buffer v with
     | None => vec_cap v = 0%nat
     | Some cells => length cells = vec_cap v /\ take (length l) cells = Some <$> l
     end.

Lemma vec_grow_repr v l :
  vec_repr v l -> exists v', vec_grow v true = (0, v') /\ vec_repr v' l
    /\ (vec_cap v < vec_cap v')%nat /\ is_Some (vec_buffer v').
Proof.
  intros (Hl & Hc & Hb). unfold vec_grow, vec_resize.
  set (c := if decide (vec_cap v = 0%nat) then 1%nat else (vec_cap v * 2)%nat).
  assert (Hlt : (vec_cap v < c)%nat) by (unfold c; case_decide; lia).
  rewrite decide_False by lia. cbn. eexists. split; [done|]. split; [|by cbn; eauto].
  unfold vec_repr. cbn. split; [done|]. split; [lia|]. unfold realloc_cells.
  destruct (vec_buffer v) as [cells|]; cbn.
  - destruct Hb as [Hn Ht]. rewrite length_app, length_take, length_replicate.
    split; [lia|]. rewrite take_app_le by (rewrite length_take; lia).
    by rewrite take_take, Nat.min_l by lia.
  - rewrite take_nil. cbn. rewrite length_replicate. split; [lia|].
    destruct l; [done|cbn in *; lia].
Qed.

Lemma vec_push_ok v l a :
  vec_repr v l -> exists v', vec_push v a true = Ret (0, v') /\ vec_repr v' (l ++ [a]).
Proof.
  intros R. unfold vec_push.
  assert (G : exists v1, (if decide (vec_len v = vec_cap v) then vec_grow v true else (0, v)) = (0, v1)
    /\ vec_repr v1 l /\ (length l < vec_cap v1)%nat /\ is_Some (vec_buffer v1)).
  { case_decide as E.
    - destruct (vec_grow_repr v l R) as (v1 & -> & R1 & Hlt & Hs).
      exists v1. split; [done|]. split; [done|]. destruct R as (? & _). split; [lia | done].
    - exists v. split; [done|]. split; [done|]. destruct R as (Hl & Hc & Hb).
      split; [lia|]. destruct (vec_buffer v); [eauto | lia]. }
  destruct G as (v1 & -> & (Hl & Hc & Hb) & Hlt & [cells Ec]). cbn.
  rewrite Ec in Hb. destruct Hb as [Hn Ht]. unfold vec_write. rewrite Ec. ostep.
  rewrite decide_True by lia. cbn. eexists. split; [done|].
  unfold vec_repr. cbn. rewrite length_app. cbn. split; [lia|]. split; [lia|].
  rewrite length_insert. split; [done|]. rewrite Hl, Nat.add_1_r, (take_S_r _ _ (Some a)).
  - rewrite take_insert_ge by lia. rewrite Ht, fmap_app. done.
  - apply list_lookup_insert_eq. lia.
Qed.

Lemma vec_read_ok v l i a : vec_repr v l -> l !! i = Some a -> vec_read v i = Ret a.
Proof.
  intros (Hl & Hc & Hb) Hi. pose proof (lookup_lt_Some _ _ _ Hi). unfold vec_read.
  destruct (vec_buffer v) as [cells|]; [|lia]. destruct Hb as [Hn Ht]. ostep.
  assert (E : cells !! i = Some (Some a)).
  { rewrite <- (lookup_take_lt cells (length l)) by lia. rewrite Ht, list_lookup_fmap, Hi. done. }
  rewrite E. done.
Qed.

Lemma vec_init_repr v n ok v' : vec_init v n ok = (0, v') -> vec_repr v' [].
Proof.
  unfold vec_init. case_decide as E.
  - intros [= <-]. unfold vec_repr. cbn. subst. done.
  - destruct ok; cbn; [|done]. intros [= <-]. unfold vec_repr. cbn.
    rewrite length_replicate. split; [done|]. split; [lia | done].
Qed.
End vec.

(** Pushing a list, stopping at the first failure. *)
Definition vec_push_all {A} (v : vec A) (l : list A) : outcome (vec A) :=
  foldl (fun m a => v ← m; '(_, v) ← vec_push v a true; Ret v) (Ret v) l.

Lemma vec_push_all_ok {A} (v : vec A) l0 l :
  vec_repr v l0 -> exists v', vec_push_all v l = Ret v' /\ vec_repr v' (l0 ++ l).
Proof.
  revert v l0. induction l as [|a l IH]; intros v l0 R; cbn.
  - exists v. by rewrite app_nil_r.
  - destruct (vec_push_ok v l0 a R) as (v' & E & R'). rewrite E. cbn.
    destruct (IH v' (l0 ++ [a]) R') as (v2 & E2 & R2). exists v2. rewrite <- app_assoc in R2. done.
Qed.

(** A vector is the sequence of the values pushed to it.  From a fresh
    vector of any capacity, with allocations succeeding, every sequence of
    pushes succeeds and each element is read back at its index, through
    however many reallocations it took. *)
Theorem vec_push_get {A} (zeroed : A) (capacity : nat) v0 l i a :
  vec_init zeroed (mk_vec 0 0 None) capacity true = (0, v0) -> l !! i = Some a ->
  exists v, vec_push_all v0 l = Ret v /\ vec_len v = length l
    /\ vec_get v i = Some i /\ vec_read v i = Ret a.
Proof.
  intros E Hi. destruct (vec_push_all_ok v0 [] l (vec_init_repr _ _ _ _ _ E)) as (v & Ev & R).
  exists v. split; [done|]. split; [apply R|]. split; [|by eapply vec_read_ok].
  unfold vec_get. rewrite decide_False; [done|]. destruct R as (_ & Hc & _).
  apply lookup_lt_Some in Hi. cbn in Hc. lia.
Qed.

Lemma vec_push_get_witness :
  exists v, vec_push_all (mk_vec 0 0 None) [10; 20; 30; 40; 50] = Ret v /\ vec_len v = 5%nat
    /\ vec_get v 3 = Some 3%nat /\ vec_read v 3 = Ret 40.
Proof. apply (vec_push_get 0 0 (mk_vec 0 0 None) [10; 20; 30; 40; 50] 3 40); reflexivity. Defined.

(** ** WebAssembly globals *)

Inductive wasm_global_type := WASM_GLOBAL_TYPE_UNUSED | WASM_GLOBAL_TYPE_I32 | WASM_GLOBAL_TYPE_I64.

#[export] Instance wasm_global_type_eq_dec : EqDecision wasm_global_type.
Proof. solve_decision. Defined.

(** The union of an [int32_t] and an [int64_t] is its 64-bit pattern; the
    [i32] member is the low half. *)
Record wasm_global := mk_wasm_global {
  g_type : wasm_global_type;
  g_mut : bool;
  g_value : Z;
}.

Definition zero_global : wasm_global := mk_wasm_global WASM_GLOBAL_TYPE_UNUSED false 0.

Definition global_i32 (g : wasm_global) : Z := swrap 32 (g_value g).
Definition global_i64 (g : wasm_global) : Z := swrap 64 (g_value g).

(** The initializer [.value = value] of the union initialises its first
    member, [i32]: the value is converted to [int32_t].  The other four bytes
    of the union are unspecified: [pad]. *)
Definition union_init (value pad : Z) : Z := u32 value + 2 ^ 32 * u32 pad.

Definition wasm_globals_init (globals : vec wasm_global) (capacity : nat) (calloc_ok : bool) :=
  vec_init zero_global globals capacity calloc_ok.

Definition wasm_globals_deinit (globals : vec wasm_global) := vec_deinit globals.

(** [global->type] and the like, through the pointer [vec_get] returned. *)
Definition global_at (globals : vec wasm_global) (idx : nat) : outcome wasm_global :=
  match vec_get globals idx with
  | None => Stop Undefined
  | Some i => vec_read globals i
  end.

Definition wasm_globals_update_if_used (globals : vec wasm_global) (idx : nat) (dest : Z) : outcome Z :=
  global ← global_at globals idx;
  if decide (g_type global = WASM_GLOBAL_TYPE_UNUSED) then Ret dest
  else Ret (u64 (global_i64 global)).

(** The return code and [*return_val]. *)
Definition wasm_globals_get (type : wasm_global_type) (value : wasm_global -> Z)
  (globals : vec wasm_global) (idx : nat) (return_val : Z) : outcome (Z * Z) :=
  match vec_get globals idx with
  | None => Ret (-1, return_val)
  | Some i =>
    global ← vec_read globals i;
    if decide (g_type global = type) then Ret (0, value global) else Ret (-2, return_val)
  end.

Definition wasm_globals_get_i32 := wasm_globals_get WASM_GLOBAL_TYPE_I32 global_i32.
Definition wasm_globals_get_i64 := wasm_globals_get WASM_GLOBAL_TYPE_I64 global_i64.

Definition wasm_globals_set (type : wasm_global_type) (globals : vec wasm_global) (idx : nat)
  (value : Z) (is_mutable : bool) (pad : Z) (realloc_ok : bool) : outcome (Z * vec wasm_global) :=
  current ← global_at globals idx;
  if negb (bool_decide (g_type current = WASM_GLOBAL_TYPE_UNUSED)) && negb (g_mut current)
  then Ret (-2, globals)
  else vec_insert globals idx (mk_wasm_global type is_mutable (union_init value pad)) realloc_ok.

Definition wasm_globals_set_i32 := wasm_globals_set WASM_GLOBAL_TYPE_I32.
Definition wasm_globals_set_i64 := wasm_globals_set WASM_GLOBAL_TYPE_I64.

(** ** The instructions of the modules: global 0 is cached in the instance *)

(** [sledge_abi__wasm_globals_get_i32] and friends, between their two sandbox
    state changes. *)
Definition globals_get_or_trap (rc_val : outcome (Z * Z)) : outcome Z :=
  '(rc, result) ← rc_val;
  if rc =? -1 then Stop (Trap 1) else
  if rc =? -2 then Stop (Trap 2) else Ret result.

Definition globals_set_or_trap (r : outcome (Z * vec wasm_global)) : outcome (vec wasm_global) :=
  '(rc, globals) ← r;
  if rc =? -1 then Stop (Trap 1) else
  if rc =? -2 then Stop (Trap 2) else Ret globals.

(** [uninit] is the indeterminate local [result]. *)
Definition sledge_abi__wasm_globals_get_i32 globals idx uninit :=
  globals_get_or_trap (wasm_globals_get_i32 globals idx uninit).
Definition sledge_abi__wasm_globals_get_i64 globals idx uninit :=
  globals_get_or_trap (wasm_globals_get_i64 globals idx uninit).
(** The mutability argument is ignored: every global is set as mutable. *)
Definition sledge_abi__wasm_globals_set_i32 globals idx value (is_mutable : bool) pad realloc_ok :=
  globals_set_or_trap (wasm_globals_set_i32 globals idx value true pad realloc_ok).
Definition sledge_abi__wasm_globals_set_i64 globals idx value (is_mutable : bool) pad realloc_ok :=
  globals_set_or_trap (wasm_globals_set_i64 globals idx value true pad realloc_ok).

Definition get_global_i32 (wasmg_0 : Z) globals (idx : nat) uninit : outcome Z :=
  if decide (idx = 0%nat) then Ret (swrap 32 wasmg_0)
  else sledge_abi__wasm_globals_get_i32 globals idx uninit.
Definition get_global_i64 (wasmg_0 : Z) globals (idx : nat) uninit : outcome Z :=
  if decide (idx = 0%nat) then Ret (swrap 64 wasmg_0)
  else sledge_abi__wasm_globals_get_i64 globals idx uninit.
Definition set_global_i32 (wasmg_0 : Z) globals (idx : nat) value pad realloc_ok
  : outcome (Z * vec wasm_global) :=
  if decide (idx = 0%nat) then Ret (u64 value, globals)
  else (fun g => (wasmg_0, g)) <$> sledge_abi__wasm_globals_set_i32 globals idx value true pad realloc_ok.
Definition set_global_i64 (wasmg_0 : Z) globals (idx : nat) value pad realloc_ok
  : outcome (Z * vec wasm_global) :=
  if decide (idx = 0%nat) then Ret (u64 value, globals)
  else (fun g => (wasmg_0, g)) <$> sledge_abi__wasm_globals_set_i64 globals idx value true pad realloc_ok.

(** The globals of an instance: every cell initialised, none pushed. *)
Definition globals_wf (globals : vec wasm_global) (gs : list wasm_global) : Prop :=
  vec_len globals = 0%nat /\ (0 < vec_cap globals)%nat /\ length gs = vec_cap globals
  /\ vec_buffer globals = Some (Some <$> gs).

Lemma globals_init_wf globals n :
  (0 < n)%nat -> exists globals', wasm_globals_init globals n true = (0, globals')
    /\ globals_wf globals' (replicate n zero_global).
Proof.
  intros Hn. unfold wasm_globals_init, vec_init. rewrite decide_False by lia. cbn.
  eexists. split; [done|]. unfold globals_wf. cbn. rewrite length_replicate, fmap_replicate. done.
Qed.

Lemma global_read_ok globals gs idx g :
  globals_wf globals gs -> gs !! idx = Some g ->
  vec_get globals idx = Some idx /\ vec_read globals idx = Ret g.
Proof.
  intros (_ & _ & Hl & Hb) Hi. pose proof (lookup_lt_Some _ _ _ Hi).
  unfold vec_get, vec_read. rewrite decide_False by lia. rewrite Hb. ostep.
  by rewrite list_lookup_fmap, Hi.
Qed.

Lemma globals_set_ok type globals gs idx g value is_mutable pad ok :
  globals_wf globals gs -> gs !! idx = Some g ->
  g_type g = WASM_GLOBAL_TYPE_UNUSED \/ g_mut g = true ->
  exists globals', wasm_globals_set type globals idx value is_mutable pad ok = Ret (0, globals')
    /\ globals_wf globals' (<[idx := mk_wasm_global type is_mutable (union_init value pad)]> gs).
Proof.
  intros W Hi Hg. destruct (global_read_ok _ _ _ _ W Hi) as [Eg Er].
  unfold wasm_globals_set, global_at. rewrite Eg, Er. ostep.
  assert (Hm : negb (bool_decide (g_type g = WASM_GLOBAL_TYPE_UNUSED)) && negb (g_mut g) = false).
  { destruct Hg as [-> | ->]; [done | apply andb_false_r]. }
  rewrite Hm. destruct W as (H0 & Hp & Hl & Hb). unfold vec_insert.
  rewrite decide_False by lia. cbn. unfold vec_write. rewrite Hb. ostep.
  rewrite length_fmap. pose proof (lookup_lt_Some _ _ _ Hi). rewrite decide_True by lia. cbn.
  eexists. split; [done|]. unfold globals_wf. cbn.
  rewrite length_insert, list_fmap_insert. done.
Qed.

(** Globals keep what is written, up to 32 bits.  Setting a global that is
    unused or mutable succeeds; reading it back at the same type gives the
    value for [i32], and for [i64] the value truncated to its low 32 bits with
    unspecified high bits; reading it at the other type reports -2; a global
    set immutable refuses the next write with -2; other globals are untouched. *)
Theorem wasm_globals_set_get globals gs idx g value is_mutable pad ok uninit :
  globals_wf globals gs -> gs !! idx = Some g ->
  g_type g = WASM_GLOBAL_TYPE_UNUSED \/ g_mut g = true ->
  exists g32 g64,
    wasm_globals_set_i32 globals idx value is_mutable pad ok = Ret (0, g32)
    /\ wasm_globals_set_i64 globals idx value is_mutable pad ok = Ret (0, g64)
    /\ (- 2 ^ 31 <= value < 2 ^ 31 -> wasm_globals_get_i32 g32 idx uninit = Ret (0, value))
    /\ wasm_globals_get_i64 g64 idx uninit = Ret (0, swrap 64 (u32 value + 2 ^ 32 * u32 pad))
    /\ wasm_globals_get_i64 g32 idx uninit = Ret (-2, uninit)
    /\ wasm_globals_get_i32 g64 idx uninit = Ret (-2, uninit)
    /\ (is_mutable = false -> forall v', wasm_globals_set_i32 g32 idx v' true pad ok = Ret (-2, g32))
    /\ (forall j h, j <> idx -> gs !! j = Some h ->
        vec_read g32 j = Ret h /\ vec_read g64 j = Ret h).
Proof.
  intros W Hi Hg. pose proof (lookup_lt_Some _ _ _ Hi) as Hlt.
  destruct (globals_set_ok WASM_GLOBAL_TYPE_I32 globals gs idx g value is_mutable pad ok W Hi Hg)
    as (g32 & E32 & W32).
  destruct (globals_set_ok WASM_GLOBAL_TYPE_I64 globals gs idx g value is_mutable pad ok W Hi Hg)
    as (g64 & E64 & W64).
  destruct (global_read_ok _ _ idx _ W32 (list_lookup_insert_eq _ _ _ Hlt)) as [P32 R32].
  destruct (global_read_ok _ _ idx _ W64 (list_lookup_insert_eq _ _ _ Hlt)) as [P64 R64].
  exists g32, g64. do 2 (split; [done|]).
  unfold wasm_globals_get_i32, wasm_globals_get_i64, wasm_globals_get.
  rewrite P32, P64, R32, R64. ostep. cbn [g_type].
  split; [|split; [done|split; [done|split; [done|split]]]].
  - intros Hv. rewrite decide_True by done. do 2 f_equal. unfold global_i32. cbn [g_value].
    rewrite <- (swrap_wrap 32) by lia. unfold union_init.
    rewrite (Z.mul_comm (2 ^ 32)), Z.mod_add by lia. unfold u32, wrap.
    rewrite Z.mod_mod, swrap_wrap, swrap_small by lia. done.
  - intros -> v'. unfold wasm_globals_set_i32, wasm_globals_set, global_at. by rewrite P32, R32.
  - intros j h Hj Hh. split; eapply (global_read_ok _ _ j); eauto;
      rewrite list_lookup_insert_ne; done.
Qed.

Definition demo_globals : vec wasm_global := snd (wasm_globals_init (mk_vec 0 0 None) 4 true).

(** Storing -1 as an [i64] and reading it back gives 4294967295. *)
Lemma wasm_globals_set_get_witness :
  exists g32 g64,
    wasm_globals_set_i32 demo_globals 1 (-1) true 0 true = Ret (0, g32)
    /\ wasm_globals_set_i64 demo_globals 1 (-1) true 0 true = Ret (0, g64)
    /\ (- 2 ^ 31 <= -1 < 2 ^ 31 -> wasm_globals_get_i32 g32 1 0 = Ret (0, -1))
    /\ wasm_globals_get_i64 g64 1 0 = Ret (0, 4294967295)
    /\ wasm_globals_get_i64 g32 1 0 = Ret (-2, 0)
    /\ wasm_globals_get_i32 g64 1 0 = Ret (-2, 0)
    /\ (true = false -> forall v', wasm_globals_set_i32 g32 1 v' true 0 true = Ret (-2, g32))
    /\ (forall j h, j <> 1%nat -> replicate 4 zero_global !! j = Some h ->
        vec_read g32 j = Ret h /\ vec_read g64 j = Ret h).
Proof.
  apply (wasm_globals_set_get demo_globals (replicate 4 zero_global) 1 zero_global (-1) true 0 true 0).
  - repeat split; (reflexivity || (vm_compute; lia)).
  - reflexivity.
  - left. reflexivity.
Defined.
