(* ===== verification/Module.v ===== *)
(** * Module: what a loaded WebAssembly module owns

    [runtime/include/wasm_table.h], [libsledge/src/table_instructions.c],
    [runtime/include/wasm_stack.h], [runtime/include/pool.h],
    [runtime/include/module.h] and the object-pool and reference-count parts of
    [runtime/src/module.c].  A pool's linked list is the list of the pooled
    objects from the head.  Allocation results are arguments; an address is an
    integer. *)

From Stdlib Require Import ZArith Lia.
From S2P Require Import Prelude Lock Bytes WasmMemory.
Local Open Scope Z_scope.

(** ** Indirect-call tables *)

Definition WASM_TRAP_INVALID_INDEX : Z := 1.
Definition WASM_TRAP_MISMATCHED_TYPE : Z := 2.
Definition INDIRECT_TABLE_SIZE : nat := 1024.

Record wasm_table_entry := mk_wasm_table_entry {
  type_id : Z;
  func_pointer : option Z;    (* None: NULL *)
}.

#[export] Instance wasm_table_entry_eq_dec : EqDecision wasm_table_entry.
Proof. solve_decision. Defined.

Record wasm_table := mk_wasm_table {
  wt_length : nat;
  wt_capacity : nat;
  wt_buffer : option (list wasm_table_entry);
}.

Definition empty_entry : wasm_table_entry := mk_wasm_table_entry 0 None.

Definition wasm_table_init (t : wasm_table) (capacity : nat) (calloc_ok : bool) : Z * wasm_table :=
  if decide (0 < capacity)%nat then
    if negb calloc_ok then (-1, mk_wasm_table (wt_length t) (wt_capacity t) None)
    else (0, mk_wasm_table 0 capacity (Some (replicate capacity empty_entry)))
  else (0, mk_wasm_table 0 capacity (wt_buffer t)).

Definition wasm_table_alloc (capacity : nat) (calloc_struct_ok calloc_ok : bool) : option wasm_table :=
  if negb calloc_struct_ok then None else
  let '(rc, t) := wasm_table_init (mk_wasm_table 0 0 None) capacity calloc_ok in
  if rc <? 0 then None else Some t.

(** The capacity test is the wrong way round: a table that holds a buffer
    fails the assertion that it does not. *)
Definition wasm_table_deinit (t : wasm_table) : outcome wasm_table :=
  if decide (0 < wt_capacity t)%nat then
    assert (bool_decide (wt_buffer t = None)) ;;
    assert (bool_decide (wt_length t = 0%nat)) ;;
    Ret t
  else
    assert (negb (bool_decide (wt_buffer t = None))) ;;
    Ret (mk_wasm_table 0 0 None).

Definition table_entry (t : wasm_table) (idx : nat) : outcome wasm_table_entry :=
  cells ← deref (wt_buffer t);
  deref (cells !! idx).

(** The runtime's lookup asserts the type, the modules' lookup traps on it. *)
Definition wasm_table_get (t : wasm_table) (idx : nat) (ty : Z) : outcome Z :=
  if decide (wt_capacity t <= idx)%nat then Stop (Trap WASM_TRAP_INVALID_INDEX) else
  f ← table_entry t idx;
  assert (type_id f =? ty) ;;
  match func_pointer f with
  | None => Stop AssertFail
  | Some p => Ret p
  end.

Definition get_function_from_table (t : wasm_table) (idx : nat) (ty : Z) : outcome Z :=
  if decide (wt_capacity t <= idx)%nat then Stop (Trap WASM_TRAP_INVALID_INDEX) else
  f ← table_entry t idx;
  if negb (type_id f =? ty) then Stop (Trap WASM_TRAP_MISMATCHED_TYPE) else
  match func_pointer f with
  | None => Stop (Trap WASM_TRAP_MISMATCHED_TYPE)
  | Some p => Ret p
  end.

Definition table_write (t : wasm_table) (idx : nat) (ty : Z) (pointer : Z) : outcome wasm_table :=
  cells ← deref (wt_buffer t);
  e ← deref (cells !! idx);
  if (type_id e =? ty) && bool_decide (func_pointer e = Some pointer) then Ret t
  else Ret (mk_wasm_table (wt_length t) (wt_capacity t)
              (Some (<[idx := mk_wasm_table_entry ty (Some pointer)]> cells))).

Definition wasm_table_set (t : wasm_table) (idx : nat) (ty : Z) (pointer : option Z)
  : outcome wasm_table :=
  if decide (wt_capacity t <= idx)%nat then Stop (Trap WASM_TRAP_INVALID_INDEX) else
  match pointer with
  | None => Stop AssertFail
  | Some p => table_write t idx ty p
  end.

Definition add_function_to_table (t : wasm_table) (idx : nat) (ty : Z) (pointer : option Z)
  : outcome wasm_table :=
  assert (bool_decide (idx < wt_capacity t)%nat) ;;
  match pointer with
  | None => Stop AssertFail
  | Some p => table_write t idx ty p
  end.

Definition table_wf (t : wasm_table) : Prop :=
  exists cells, wt_buffer t = Some cells /\ length cells = wt_capacity t.

(** C36: indirect calls are type-checked.  In a well-formed table, storing a
    function in range succeeds; calling through the slot afterwards returns
    that function exactly when the expected type is the one it was stored
    with and traps otherwise; other slots behave as before; an index outside
    the table traps. *)
Theorem indirect_call_typed t idx ty p :
  table_wf t -> (idx < wt_capacity t)%nat ->
  exists t', add_function_to_table t idx ty (Some p) = Ret t' /\ table_wf t'
    /\ (forall ty', get_function_from_table t' idx ty'
          = if ty' =? ty then Ret p else Stop (Trap WASM_TRAP_MISMATCHED_TYPE))
    /\ (forall j ty', j <> idx -> get_function_from_table t' j ty' = get_function_from_table t j ty')
    /\ (forall j ty', (wt_capacity t <= j)%nat ->
          get_function_from_table t' j ty' = Stop (Trap WASM_TRAP_INVALID_INDEX)).
Proof.
  intros (cells & Eb & Hl) Hi. destruct (lookup_lt_is_Some_2 cells idx ltac:(lia)) as [e Ee].
  unfold add_function_to_table, table_write. rewrite bool_decide_true by done. ostep.
  rewrite Eb. ostep. rewrite Ee. ostep.
  destruct ((type_id e =? ty) && bool_decide (func_pointer e = Some p)) eqn:C.
  - apply andb_true_iff in C as [C1 C2]. apply Z.eqb_eq in C1. apply bool_decide_eq_true in C2.
    exists t. split; [done|]. split; [by exists cells|]. split; [|split; [done|]].
    + intros ty'. unfold get_function_from_table, table_entry. rewrite decide_False by lia.
      rewrite Eb. ostep. rewrite Ee. ostep. rewrite C1, C2, Z.eqb_sym. by destruct (ty' =? ty).
    + intros j ty' Hj. unfold get_function_from_table. by rewrite decide_True.
  - eexists. split; [done|]. unfold table_wf, get_function_from_table, table_entry. cbn [wt_buffer wt_capacity].
    split; [eexists; split; [done|]; by rewrite length_insert|]. split; [|split].
    + intros ty'. rewrite decide_False by lia. ostep. rewrite list_lookup_insert_eq by lia. ostep.
      cbn [type_id func_pointer]. rewrite Z.eqb_sym. by destruct (ty' =? ty).
    + intros j ty' Hj. rewrite Eb. ostep. by rewrite list_lookup_insert_ne.
    + intros j ty' Hj. by rewrite decide_True.
Qed.

Lemma indirect_call_typed_witness :
  let t := mk_wasm_table 0 2 (Some [empty_entry; empty_entry]) in
  exists t', add_function_to_table t 1 7 (Some 4096) = Ret t' /\ table_wf t'
    /\ (forall ty', get_function_from_table t' 1 ty'
          = if ty' =? 7 then Ret 4096 else Stop (Trap WASM_TRAP_MISMATCHED_TYPE))
    /\ (forall j ty', j <> 1%nat -> get_function_from_table t' j ty' = get_function_from_table t j ty')
    /\ (forall j ty', (2 <= j)%nat ->
          get_function_from_table t' j ty' = Stop (Trap WASM_TRAP_INVALID_INDEX)).
Proof.
  intros t. apply (indirect_call_typed t 1 7 4096); [|cbn; lia].
  exists [empty_entry; empty_entry]. split; reflexivity.
Defined.

(** ** Execution stacks *)

Record wasm_stack := mk_wasm_stack {
  ws_capacity : Z;
  ws_high : option Z;
  ws_low : option Z;
  ws_buffer : option Z;
  ws_bytes : bytes;      (* contents, by address *)
}.

Definition zero_stack : wasm_stack := mk_wasm_stack 0 None None None zero_bytes.

(** [mmap] is the address of the mapping, [None] for MAP_FAILED. *)
Definition wasm_stack_init (s : wasm_stack) (capacity : Z) (mmap : option Z) (mprotect_ok : bool)
  : Z * wasm_stack :=
  match mmap with
  | None => (-1, mk_wasm_stack (ws_capacity s) (ws_high s) (ws_low s) None (ws_bytes s))
  | Some buffer =>
    let low := buffer + PAGE_SIZE in
    let high := low + capacity in
    if mprotect_ok then (0, mk_wasm_stack capacity (Some high) (Some low) (Some buffer) zero_bytes)
    else (-1, mk_wasm_stack capacity (Some high) (Some low) None (ws_bytes s))
  end.

Definition wasm_stack_deinit (s : wasm_stack) : outcome wasm_stack :=
  assert (bool_decide (is_Some (ws_buffer s))) ;;
  Ret (mk_wasm_stack (ws_capacity s) None None None (ws_bytes s)).

Definition wasm_stack_free (s : wasm_stack) : outcome unit :=
  assert (bool_decide (is_Some (ws_buffer s))) ;;
  wasm_stack_deinit s ;;
  Ret tt.

(** The error path frees a stack whose buffer [wasm_stack_init] just reset. *)
Definition wasm_stack_alloc (capacity : Z) (mmap : option Z) (mprotect_ok : bool)
  : outcome (option wasm_stack) :=
  let '(rc, s) := wasm_stack_init zero_stack capacity mmap mprotect_ok in
  if rc <? 0 then wasm_stack_free s ;; Ret None else Ret (Some s).

Definition wasm_stack_reinit (s : wasm_stack) : outcome wasm_stack :=
  match ws_buffer s, ws_low s with
  | Some buffer, Some low =>
    assert (low =? buffer + PAGE_SIZE) ;;
    assert (bool_decide (ws_high s = Some (low + ws_capacity s))) ;;
    Ret (mk_wasm_stack (ws_capacity s) (ws_high s) (ws_low s) (ws_buffer s)
           (clear_bytes (ws_bytes s) low (ws_capacity s)))
  | _, _ => Stop AssertFail
  end.

(** The usable range lies directly above its guard page. *)
Definition stack_wf (s : wasm_stack) (capacity : Z) : Prop :=
  exists buffer, ws_buffer s = Some buffer /\ ws_low s = Some (buffer + PAGE_SIZE)
    /\ ws_high s = Some (buffer + PAGE_SIZE + capacity) /\ ws_capacity s = capacity.

(** A stack is either usable above its guard page, or the process stops:
    [wasm_stack_alloc] never reports failure with NULL, because its cleanup
    asserts on the buffer it has just reset. *)
Theorem wasm_stack_alloc_never_null capacity mmap mprotect_ok :
  match wasm_stack_alloc capacity mmap mprotect_ok with
  | Ret (Some s) => stack_wf s capacity /\ (forall a, ws_bytes s a = 0)
  | Ret None => False
  | Stop f => f = AssertFail
  end.
Proof.
  unfold wasm_stack_alloc, wasm_stack_init. destruct mmap as [buffer|]; [destruct mprotect_ok|]; cbn.
  - split; [|done]. by exists buffer.
  - done.
  - done.
Qed.

Lemma wasm_stack_reinit_ok s capacity :
  stack_wf s capacity -> exists s', wasm_stack_reinit s = Ret s' /\ stack_wf s' capacity
    /\ forall low a, ws_low s = Some low -> low <= a < low + capacity -> ws_bytes s' a = 0.
Proof.
  intros (buffer & Eb & El & Eh & Ec). unfold wasm_stack_reinit. rewrite Eb, El, Z.eqb_refl. ostep.
  rewrite Ec, bool_decide_true by done. ostep. eexists. split; [done|].
  split; [by exists buffer|]. cbn. intros low a [= <-] Ha. apply clear_bytes_in. lia.
Qed.

(** ** Object pools *)

Record pool (L A : Type) := mk_pool {
  pool_use_lock : bool;
  pool_lock : lock_t L;
  pool_list : list A;
}.
Arguments mk_pool {L A} _ _ _.
Arguments pool_use_lock {L A} _.
Arguments pool_lock {L A} _.
Arguments pool_list {L A} _.

Section pool.
Context {L A : Type} `{SpinLock L}.
Implicit Types self : pool L A.

Definition pool_is_empty self : bool := bool_decide (pool_list self = []).

Definition pool_init self (use_lock : bool) : pool L A :=
  mk_pool use_lock (if use_lock then lock_init else pool_lock self) [].

(** Removes and destroys the objects from the head. *)
Definition pool_deinit self (dtor : A -> outcome unit) : outcome (pool L A) :=
  foldl (fun m obj => m ;; dtor obj) (Ret tt) (pool_list self) ;;
  Ret (mk_pool (pool_use_lock self) (pool_lock self) []).

Definition pool_guard self : bool := negb (pool_use_lock self) || lock_is_locked (pool_lock self).

Definition pool_remove_nolock self : outcome (option A * pool L A) :=
  assert (pool_guard self) ;;
  match pool_list self with
  | [] => Ret (None, self)
  | obj :: rest => Ret (Some obj, mk_pool (pool_use_lock self) (pool_lock self) rest)
  end.

Definition pool_add_nolock self (obj : A) : outcome (pool L A) :=
  assert (pool_guard self) ;;
  Ret (mk_pool (pool_use_lock self) (pool_lock self) (obj :: pool_list self)).

Definition set_pool_lock self (l : lock_t L) : pool L A :=
  mk_pool (pool_use_lock self) l (pool_list self).

Definition pool_remove self (now later : Z) : outcome (option A * pool L A) :=
  assert (pool_use_lock self) ;;
  if pool_is_empty self then Ret (None, self) else
  '(l, node) ← lock_lock (pool_lock self) lock_node_zero now;
  '(obj, self) ← pool_remove_nolock (set_pool_lock self l);
  '(l, _) ← lock_unlock (pool_lock self) node later;
  Ret (obj, set_pool_lock self l).

Definition pool_add self (obj : A) (now later : Z) : outcome (pool L A) :=
  assert (pool_use_lock self) ;;
  '(l, node) ← lock_lock (pool_lock self) lock_node_zero now;
  self ← pool_add_nolock (set_pool_lock self l) obj;
  '(l, _) ← lock_unlock (pool_lock self) node later;
  Ret (set_pool_lock self l).

(** A locked pool hands objects out in last-in first-out order: adding an
    object to a pool whose lock is free and removing one returns that object
    and the pool as it was, with the lock free. *)
Theorem pool_add_remove self obj t0 t1 t2 t3 :
  pool_use_lock self = true -> lock_is_locked (pool_lock self) = false ->
  0 < t0 < t1 -> t1 <= UINT64_MAX -> 0 < t2 < t3 -> t3 <= UINT64_MAX ->
  exists self1 self2, pool_add self obj t0 t1 = Ret self1
    /\ pool_remove self1 t2 t3 = Ret (Some obj, self2)
    /\ pool_list self2 = pool_list self /\ lock_is_locked (pool_lock self2) = false.
Proof.
  intros Hu Hl H01 H1 H23 H3. unfold pool_add, pool_remove, pool_add_nolock, pool_remove_nolock, pool_guard.
  destruct (lock_lock_ok (pool_lock self) t0 Hl) as (l1 & E1 & K1 & _).
  destruct (lock_unlock_ok l1 t0 t1 K1) as (l2 & E2 & K2 & _); [lia..|].
  destruct (lock_lock_ok l2 t2 K2) as (l3 & E3 & K3 & _).
  destruct (lock_unlock_ok l3 t2 t3 K3) as (l4 & E4 & K4 & _); [lia..|].
  rewrite Hu. ostep. rewrite E1. ostep. cbn [set_pool_lock pool_use_lock pool_lock pool_list].
  rewrite Hu, K1. cbn [negb orb]. ostep. cbn [pool_lock]. rewrite E2. ostep.
  eexists _, _. split; [done|]. cbn [set_pool_lock pool_use_lock pool_lock pool_list]. ostep.
  unfold pool_is_empty. cbn [pool_list]. rewrite bool_decide_false by done.
  rewrite E3. ostep. cbn [set_pool_lock pool_use_lock pool_lock pool_list]. rewrite K3. cbn [negb orb]. ostep.
  cbn [pool_lock]. rewrite E4. ostep. split; [done|]. done.
Qed.
End pool.

Lemma pool_add_remove_witness :
  let p : pool bool Z := mk_pool true (mk_lock 0 0 false) [5] in
  exists self1 self2, pool_add p 9 1 2 = Ret self1
    /\ pool_remove self1 3 4 = Ret (Some 9, self2)
    /\ pool_list self2 = [5] /\ lock_is_locked (pool_lock self2) = false.
Proof. intros p. apply (pool_add_remove p 9 1 2 3 4); try reflexivity; try lia; done. Defined.

(** ** Modules *)

Record module_pool (L : Type) := mk_module_pool {
  mp_memory : pool L wasm_memory;
  mp_stack : pool L wasm_stack;
}.
Arguments mk_module_pool {L} _ _.
Arguments mp_memory {L} _.
Arguments mp_stack {L} _.

(** The values read from the *.so file. *)
Record abi_symbols := mk_abi_symbols {
  starting_pages : Z;
  max_pages : Z;
  globals_len : Z;
}.

Record module (L : Type) := mk_module {
  mod_path : list Z;
  stack_size : Z;
  abi : abi_symbols;
  reference_count : Z;
  indirect_table : option wasm_table;
  pools : list (module_pool L);
}.
Arguments mk_module {L} _ _ _ _ _ _.
Arguments mod_path {L} _.
Arguments stack_size {L} _.
Arguments abi {L} _.
Arguments reference_count {L} _.
Arguments indirect_table {L} _.
Arguments pools {L} _.

Definition WASM_STACK_SIZE : Z := 2 ^ 19.

Section module.
Context {L : Type} `{SpinLock L}.
Implicit Types m : module L.

Definition set_pools m ps : module L :=
  mk_module (mod_path m) (stack_size m) (abi m) (reference_count m) (indirect_table m) ps.
Definition set_reference_count m n : module L :=
  mk_module (mod_path m) (stack_size m) (abi m) n (indirect_table m) (pools m).

Definition module_acquire m : outcome (module L) :=
  assert (reference_count m <? UINT32_MAX) ;;
  Ret (set_reference_count m (u32 (reference_count m + 1))).

Definition module_release m : outcome (module L) :=
  assert (0 <? reference_count m) ;;
  Ret (set_reference_count m (u32 (reference_count m - 1))).

Definition module_initialize_pools m : module L :=
  set_pools m ((fun p => mk_module_pool (pool_init (mp_memory p) false) (pool_init (mp_stack p) false))
               <$> pools m).

(** [initialize_tables] is the function aWsm generated for the module; it
    fills the table through [add_function_to_table]. *)
Definition module_alloc_table m (initialize_tables : wasm_table -> outcome wasm_table)
  (calloc_struct_ok calloc_ok : bool) : outcome (Z * module L) :=
  let with_table t := mk_module (mod_path m) (stack_size m) (abi m) (reference_count m) t (pools m) in
  match wasm_table_alloc INDIRECT_TABLE_SIZE calloc_struct_ok calloc_ok with
  | None => Ret (-1, with_table None)
  | Some t => t ← initialize_tables t; Ret (0, with_table (Some t))
  end.

(** [symbols] is the result of loading the library ([None]: it fails);
    [blank] are the [calloc]ed pools, one per worker.  A failing table
    allocation is not reported. *)
Definition module_init (path : list Z) (symbols : option abi_symbols)
  (blank : list (module_pool L)) (initialize_tables : wasm_table -> outcome wasm_table)
  (calloc_struct_ok calloc_ok : bool) : outcome (Z * option (module L)) :=
  assert (negb (bool_decide (path = []))) ;;
  match symbols with
  | None => Ret (-1, None)
  | Some symbols =>
    '(_, m) ← module_alloc_table
                (mk_module path (page_up WASM_STACK_SIZE) symbols 0 None blank)
                initialize_tables calloc_struct_ok calloc_ok;
    Ret (0, Some (module_initialize_pools m))
  end.

Definition module_free (m : option (module L)) : outcome unit :=
  match m with
  | None => Ret tt
  | Some m => assert (reference_count m =? 0) ;; Stop Panic
  end.

Definition module_allocate_stack m (worker_thread_idx : nat) (mmap : option Z) (mprotect_ok : bool)
  : outcome (option wasm_stack * module L) :=
  p ← deref (pools m !! worker_thread_idx);
  '(stack, sp) ← pool_remove_nolock (mp_stack p);
  let m := set_pools m (<[worker_thread_idx := mk_module_pool (mp_memory p) sp]> (pools m)) in
  match stack with
  | Some _ => Ret (stack, m)
  | None => stack ← wasm_stack_alloc (stack_size m) mmap mprotect_ok; Ret (stack, m)
  end.

Definition module_free_stack m (worker_thread_idx : nat) (stack : wasm_stack) : outcome (module L) :=
  stack ← wasm_stack_reinit stack;
  p ← deref (pools m !! worker_thread_idx);
  sp ← pool_add_nolock (mp_stack p) stack;
  Ret (set_pools m (<[worker_thread_idx := mk_module_pool (mp_memory p) sp]> (pools m))).

Definition module_allocate_linear_memory m (worker_thread_idx : nat)
  (aligned_alloc_ok mmap_ok mprotect_ok : bool) : outcome (option wasm_memory * module L) :=
  let starting_bytes := u64 (starting_pages (abi m) * WASM_PAGE_SIZE) in
  let max_bytes := u64 (max_pages (abi m) * WASM_PAGE_SIZE) in
  assert (starting_bytes <=? UINT32_MAX + 1) ;;
  assert (max_bytes <=? UINT32_MAX + 1) ;;
  p ← deref (pools m !! worker_thread_idx);
  '(memory, mp) ← pool_remove_nolock (mp_memory p);
  let m := set_pools m (<[worker_thread_idx := mk_module_pool mp (mp_stack p)]> (pools m)) in
  match memory with
  | Some _ => Ret (memory, m)
  | None =>
    memory ← wasm_memory_alloc starting_bytes max_bytes aligned_alloc_ok mmap_ok mprotect_ok;
    Ret (memory, m)
  end.

(** Here the product is taken at 32 bits. *)
Definition module_free_linear_memory m (worker_thread_idx : nat) (memory : wasm_memory)
  : outcome (module L) :=
  memory ← wasm_memory_reinit memory (u32 (starting_pages (abi m) * WASM_PAGE_SIZE));
  p ← deref (pools m !! worker_thread_idx);
  mp ← pool_add_nolock (mp_memory p) memory;
  Ret (set_pools m (<[worker_thread_idx := mk_module_pool mp (mp_stack p)]> (pools m))).

(** ** The resources a module hands out *)

(** A memory ready for a new instance. *)
Definition memory_ready m (mem : wasm_memory) : Prop :=
  wm_size mem = starting_pages (abi m) * WASM_PAGE_SIZE /\ wm_size mem <= wm_capacity mem
  /\ is_Some (wm_buffer mem).

Record module_wf m : Prop := {
  mod_start : 0 < starting_pages (abi m) < 65536;
  mod_max : 0 < max_pages (abi m) <= 65536;
  mod_pools i p : pools m !! i = Some p ->
    pool_use_lock (mp_memory p) = false /\ pool_use_lock (mp_stack p) = false
    /\ Forall (memory_ready m) (pool_list (mp_memory p))
    /\ Forall (fun s => stack_wf s (stack_size m)) (pool_list (mp_stack p));
}.

Lemma module_wf_insert m i p :
  module_wf m ->
  pool_use_lock (mp_memory p) = false -> pool_use_lock (mp_stack p) = false ->
  Forall (memory_ready m) (pool_list (mp_memory p)) ->
  Forall (fun s => stack_wf s (stack_size m)) (pool_list (mp_stack p)) ->
  module_wf (set_pools m (<[i := p]> (pools m))).
Proof.
  intros [Hs Hm Hp] H1 H2 H3 H4. split; try done. cbn. intros j q Hj.
  apply list_lookup_insert_Some in Hj as [(-> & <- & _)|[_ Hj]]; [done|]. by eapply Hp.
Qed.

Lemma starting_bytes_ok m :
  module_wf m ->
  u64 (starting_pages (abi m) * WASM_PAGE_SIZE) = starting_pages (abi m) * WASM_PAGE_SIZE
  /\ u32 (starting_pages (abi m) * WASM_PAGE_SIZE) = starting_pages (abi m) * WASM_PAGE_SIZE
  /\ 0 < starting_pages (abi m) * WASM_PAGE_SIZE <= UINT32_MAX + 1.
Proof.
  intros [? ? ?]. unfold WASM_PAGE_SIZE, UINT32_MAX in *.
  split; [apply u64_small; unfold UINT64_MAX; lia|].
  split; [apply u32_small; unfold UINT32_MAX; lia | lia].
Qed.

(** Giving a memory back: the pool keeps its invariant, the module its symbols. *)
Lemma free_linear_memory_ok m w mem :
  module_wf m -> (w < length (pools m))%nat ->
  is_Some (wm_buffer mem) -> wm_size mem <= wm_capacity mem ->
  starting_pages (abi m) * WASM_PAGE_SIZE <= wm_capacity mem ->
  exists m', module_free_linear_memory m w mem = Ret m' /\ module_wf m'
    /\ abi m' = abi m /\ length (pools m') = length (pools m).
Proof.
  intros W Hw [buf Eb] Hcap Hst. destruct (lookup_lt_is_Some_2 _ _ Hw) as [p Ep].
  destruct (starting_bytes_ok m W) as (E64 & E32 & Hr).
  destruct (mod_pools m W w p Ep) as (Hu & Hus & Hf & Hfs).
  unfold module_free_linear_memory, wasm_memory_reinit.
  rewrite E32, Eb. ostep. pose proof (page_up_ge (wm_capacity mem)).
  rewrite (proj2 (Z.leb_le _ _)) by lia. ostep. rewrite Ep. ostep.
  unfold pool_add_nolock, pool_guard. rewrite Hu. cbn [negb orb]. ostep.
  eexists. split; [done|]. split; [|cbn; by rewrite length_insert].
  apply module_wf_insert; try done. cbn.
  constructor; [|done]. split; [done|]. cbn. split; [done | eauto].
Qed.

(** Taking one: pooled or new, it is ready for an instance. *)
Lemma allocate_linear_memory_ok m w :
  module_wf m -> (w < length (pools m))%nat ->
  exists mem m', module_allocate_linear_memory m w true true true = Ret (Some mem, m')
    /\ memory_ready m mem /\ module_wf m' /\ abi m' = abi m /\ stack_size m' = stack_size m
    /\ length (pools m') = length (pools m).
Proof.
  intros W Hw. destruct (lookup_lt_is_Some_2 _ _ Hw) as [p Ep].
  destruct (starting_bytes_ok m W) as (E64 & E32 & Hr).
  destruct (mod_pools m W w p Ep) as (Hu & Hus & Hf & Hfs).
  unfold module_allocate_linear_memory. rewrite E64.
  assert (Em : u64 (max_pages (abi m) * WASM_PAGE_SIZE) = max_pages (abi m) * WASM_PAGE_SIZE).
  { destruct (mod_max m W). apply u64_small. unfold WASM_PAGE_SIZE, UINT64_MAX. lia. }
  rewrite Em. destruct (mod_max m W). rewrite !(proj2 (Z.leb_le _ _)); [|unfold WASM_PAGE_SIZE, UINT32_MAX in *; lia..].
  ostep. rewrite Ep. ostep. unfold pool_remove_nolock, pool_guard. rewrite Hu. cbn [negb orb]. ostep.
  destruct (pool_list (mp_memory p)) as [|mem rest] eqn:El; ostep.
  - assert (Ea : wasm_memory_alloc (starting_pages (abi m) * WASM_PAGE_SIZE)
              (max_pages (abi m) * WASM_PAGE_SIZE) true true true
            = Ret (Some (mk_wasm_memory (starting_pages (abi m) * WASM_PAGE_SIZE)
                (starting_pages (abi m) * WASM_PAGE_SIZE)
                (max_pages (abi m) * WASM_PAGE_SIZE) (Some zero_bytes)))).
    { unfold wasm_memory_alloc, wasm_memory_init. cbn [negb].
      rewrite !(proj2 (Z.ltb_lt _ _)), !(proj2 (Z.leb_le _ _)); try done;
        unfold WASM_PAGE_SIZE, UINT32_MAX in *; lia. }
    rewrite Ea. ostep. eexists _, _. split; [done|]. split; [split; [done|]; split; [done | eauto]|].
    split; [|cbn; by rewrite length_insert]. apply module_wf_insert; try done. cbn. by rewrite El.
  - apply Forall_cons_iff in Hf as [Hmem Hrest]. eexists _, _. split; [done|]. split; [done|].
    split; [|cbn; by rewrite length_insert]. by apply module_wf_insert.
Qed.

Lemma allocate_stack_ok m w buffer :
  module_wf m -> (w < length (pools m))%nat ->
  exists stack m', module_allocate_stack m w (Some buffer) true = Ret (Some stack, m')
    /\ stack_wf stack (stack_size m) /\ module_wf m' /\ abi m' = abi m
    /\ length (pools m') = length (pools m).
Proof.
  intros W Hw. destruct (lookup_lt_is_Some_2 _ _ Hw) as [p Ep].
  destruct (mod_pools m W w p Ep) as (Hu & Hus & Hf & Hfs).
  unfold module_allocate_stack. rewrite Ep. ostep. unfold pool_remove_nolock, pool_guard.
  rewrite Hus. cbn [negb orb]. ostep.
  destruct (pool_list (mp_stack p)) as [|stack rest] eqn:El; ostep.
  - eexists _, _. split; [done|]. split; [by exists buffer|]. split; [|cbn; by rewrite length_insert].
    apply module_wf_insert; try done. cbn. by rewrite El.
  - apply Forall_cons_iff in Hfs as [Hs Hrest]. eexists _, _. split; [done|]. split; [done|].
    split; [|cbn; by rewrite length_insert]. by apply module_wf_insert.
Qed.

(** The life cycle of a module's linear memories.  With the mappings
    succeeding, a worker always gets a memory of the module's starting size
    with a mapped buffer, whether pooled or new; giving back any memory whose
    size is within its capacity succeeds; both keep the pools' invariant. *)
Theorem module_memory_cycle m w :
  module_wf m -> (w < length (pools m))%nat ->
  (exists mem m', module_allocate_linear_memory m w true true true = Ret (Some mem, m')
     /\ memory_ready m mem /\ module_wf m')
  /\ (forall mem, is_Some (wm_buffer mem) -> wm_size mem <= wm_capacity mem ->
      starting_pages (abi m) * WASM_PAGE_SIZE <= wm_capacity mem ->
      exists m', module_free_linear_memory m w mem = Ret m' /\ module_wf m').
Proof.
  intros W Hw. split.
  - destruct (allocate_linear_memory_ok m w W Hw) as (mem & m' & ? & ? & ? & _). eauto.
  - intros mem Hb Hcap Hst.
    destruct (free_linear_memory_ok m w mem W Hw Hb Hcap Hst) as (m' & E & W' & _). eauto.
Qed.

(** Acquiring and releasing are inverse below the counter's limit. *)
Lemma module_acquire_release m :
  0 <= reference_count m < UINT32_MAX ->
  exists m', module_acquire m = Ret m' /\ reference_count m' = reference_count m + 1
    /\ module_release m' = Ret m.
Proof.
  intros Hr. unfold module_acquire, module_release. rewrite (proj2 (Z.ltb_lt _ _)) by lia. ostep.
  rewrite u32_small by lia. eexists. split; [done|]. split; [done|]. cbn.
  rewrite (proj2 (Z.ltb_lt _ _)) by lia. ostep. rewrite u32_small by lia.
  unfold set_reference_count. cbn. rewrite Z.add_simpl_r. by destruct m.
Qed.
End module.

Definition demo_module : module bool :=
  mk_module [47] 524288 (mk_abi_symbols 1 16 1) 0 None
    [mk_module_pool (mk_pool false (mk_lock 0 0 false) []) (mk_pool false (mk_lock 0 0 false) [])].

Lemma demo_module_wf : module_wf demo_module.
Proof.
  split; cbn; try lia. intros [|i] p; cbn; [|done]. intros [= <-]. repeat split; constructor.
Qed.

Lemma module_memory_cycle_witness :
  (exists mem m', module_allocate_linear_memory demo_module 0 true true true = Ret (Some mem, m')
     /\ memory_ready demo_module mem /\ module_wf m')
  /\ (forall mem, is_Some (wm_buffer mem) -> wm_size mem <= wm_capacity mem ->
      65536 <= wm_capacity mem ->
      exists m', module_free_linear_memory demo_module 0 mem = Ret m' /\ module_wf m').
Proof. apply (module_memory_cycle demo_module 0); [apply demo_module_wf | cbn; lia]. Defined.
