(* ===== verification/Numeric.v ===== *)
(** * Numeric: the numeric instructions of a WebAssembly module

    [libsledge/src/numeric_instructions.c]: rotations, division, remainder,
    truncation of floats to integers, minimum and maximum, as the code of a
    compiled module calls them.

    Integers are [Z] in the range of their C type.  Floats are the IEEE-754
    numbers of [SpecFloat], binary32 as precision 24 and exponent bound 128,
    binary64 as 53 and 1024.  An integer division the hardware refuses stops
    with [Fpe] (SIGFPE, which the runtime's handler turns into a trap); the
    conversion of a float outside the range of its target has no meaning in C
    and stops with [Undefined]. *)

From Stdlib Require Import ZArith Lia SpecFloat Zpow_facts.
From S2P Require Import Prelude.
Local Open Scope Z_scope.

Definition INT32_MIN : Z := - 2 ^ 31.
Definition INT32_MAX : Z := 2 ^ 31 - 1.
Definition INT64_MIN : Z := - 2 ^ 63.
Definition INT64_MAX : Z := 2 ^ 63 - 1.
Definition WASM_TRAP_ILLEGAL_ARITHMETIC_OPERATION : Z := 5.

(** ** Rotations *)

(** [unsigned int c = count % (CHAR_BIT * sizeof(n)); c &= mask], and the two
    shifts at the width of [n]; [-c] is an [unsigned int]. *)
Definition rotl_u32 (n c_u32 : Z) : Z :=
  let mask := 31 in
  let c := Z.land (u32 (c_u32 mod 32)) mask in
  Z.lor (u32 (Z.shiftl n c)) (Z.shiftr n (Z.land (u32 (- c)) mask)).

Definition rotr_u32 (n c_u32 : Z) : Z :=
  let mask := 31 in
  let c := Z.land (u32 (c_u32 mod 32)) mask in
  Z.lor (Z.shiftr n c) (u32 (Z.shiftl n (Z.land (u32 (- c)) mask))).

Definition rotl_u64 (n c_u64 : Z) : Z :=
  let mask := 63 in
  let c := Z.land (u32 (c_u64 mod 64)) mask in
  Z.lor (u64 (Z.shiftl n c)) (Z.shiftr n (Z.land (u32 (- c)) mask)).

Definition rotr_u64 (n c_u64 : Z) : Z :=
  let mask := 63 in
  let c := Z.land (u32 (c_u64 mod 64)) mask in
  Z.lor (Z.shiftr n c) (u64 (Z.shiftl n (Z.land (u32 (- c)) mask))).

(** ** Division and remainder *)

Definition u32_div (a b : Z) : outcome Z := if b =? 0 then Stop Fpe else Ret (a / b).
Definition u32_rem (a b : Z) : outcome Z := if b =? 0 then Stop Fpe else Ret (a mod b).
Definition u64_div (a b : Z) : outcome Z := if b =? 0 then Stop Fpe else Ret (a / b).
Definition u64_rem (a b : Z) : outcome Z := if b =? 0 then Stop Fpe else Ret (a mod b).

(** The signed division instruction computes both quotient and remainder, and
    refuses the quotient that does not fit. *)
Definition idiv_refuses (min a b : Z) : bool := (b =? 0) || ((a =? min) && (b =? -1)).

Definition i32_div (a b : Z) : outcome Z := if idiv_refuses INT32_MIN a b then Stop Fpe else Ret (Z.quot a b).
Definition i32_rem (a b : Z) : outcome Z := if idiv_refuses INT32_MIN a b then Stop Fpe else Ret (Z.rem a b).
Definition i64_div (a b : Z) : outcome Z := if idiv_refuses INT64_MIN a b then Stop Fpe else Ret (Z.quot a b).
Definition i64_rem (a b : Z) : outcome Z := if idiv_refuses INT64_MIN a b then Stop Fpe else Ret (Z.rem a b).

(** ** Floats *)

Definition float_of_Z (z : Z) : spec_float := binary_normalize 24 128 z 0 false.
Definition double_of_int (z : Z) : spec_float := binary_normalize 53 1024 z 0 false.

(** A [float] operand next to a [double] one. *)
Definition double_of_float (f : spec_float) : spec_float :=
  match f with
  | S754_finite s m e => binary_normalize 53 1024 (if s then Zneg m else Zpos m) e s
  | _ => f
  end.

Definition signed (s : bool) (m : positive) : Z := if s then Zneg m else Zpos m.

(** The value of a finite float rounded down, up and towards zero. *)
Definition floor_of (x e : Z) : Z := if 0 <=? e then x * 2 ^ e else x / 2 ^ (- e).
Definition ceil_of (x e : Z) : Z := - floor_of (- x) e.
Definition trunc_of (s : bool) (m : positive) (e : Z) : Z :=
  if s then ceil_of (Zneg m) e else floor_of (Zpos m) e.

(** [(T)f] for an integer type [T] with the range [min] to [max]. *)
Definition int_of_float (min max : Z) (f : spec_float) : outcome Z :=
  match f with
  | S754_zero _ => Ret 0
  | S754_finite s m e =>
    let z := trunc_of s m e in
    if (min <=? z) && (z <=? max) then Ret z else Stop Undefined
  | _ => Stop Undefined
  end.

Definition fgtb (f g : spec_float) : bool := SFltb g f.

Definition u32_trunc_f32 (f : spec_float) : outcome Z :=
  if SFltb f (float_of_Z 0) || fgtb f (float_of_Z UINT32_MAX)
  then Stop (Trap WASM_TRAP_ILLEGAL_ARITHMETIC_OPERATION) else int_of_float 0 UINT32_MAX f.

Definition i32_trunc_f32 (f : spec_float) : outcome Z :=
  if SFltb f (float_of_Z INT32_MIN) || fgtb f (float_of_Z INT32_MAX)
  then Stop (Trap WASM_TRAP_ILLEGAL_ARITHMETIC_OPERATION) else int_of_float INT32_MIN INT32_MAX f.

Definition u32_trunc_f64 (f : spec_float) : outcome Z :=
  if SFltb f (double_of_int 0) || fgtb f (double_of_int UINT32_MAX)
  then Stop (Trap WASM_TRAP_ILLEGAL_ARITHMETIC_OPERATION) else int_of_float 0 UINT32_MAX f.

Definition i32_trunc_f64 (f : spec_float) : outcome Z :=
  if SFltb f (double_of_int INT32_MIN) || fgtb f (double_of_int INT32_MAX)
  then Stop (Trap WASM_TRAP_ILLEGAL_ARITHMETIC_OPERATION) else int_of_float INT32_MIN INT32_MAX f.

Definition u64_trunc_f32 (f : spec_float) : outcome Z :=
  if SFltb f (float_of_Z 0) || fgtb f (float_of_Z UINT64_MAX)
  then Stop (Trap WASM_TRAP_ILLEGAL_ARITHMETIC_OPERATION) else int_of_float 0 UINT64_MAX f.

Definition i64_trunc_f32 (f : spec_float) : outcome Z :=
  if SFltb f (float_of_Z INT64_MIN) || fgtb f (float_of_Z INT64_MAX)
  then Stop (Trap WASM_TRAP_ILLEGAL_ARITHMETIC_OPERATION) else int_of_float INT64_MIN INT64_MAX f.

(** The source compares with [(float)UINT64_MAX] here. *)
Definition u64_trunc_f64 (f : spec_float) : outcome Z :=
  if SFltb f (double_of_int 0) || fgtb f (double_of_float (float_of_Z UINT64_MAX))
  then Stop (Trap WASM_TRAP_ILLEGAL_ARITHMETIC_OPERATION) else int_of_float 0 UINT64_MAX f.

Definition i64_trunc_f64 (f : spec_float) : outcome Z :=
  if SFltb f (double_of_int INT64_MIN) || fgtb f (double_of_int INT64_MAX)
  then Stop (Trap WASM_TRAP_ILLEGAL_ARITHMETIC_OPERATION) else int_of_float INT64_MIN INT64_MAX f.

Definition f32_min (a b : spec_float) : spec_float := if SFltb a b then a else b.
Definition f32_max (a b : spec_float) : spec_float := if fgtb a b then a else b.
Definition f64_min (a b : spec_float) : spec_float := if SFltb a b then a else b.
Definition f64_max (a b : spec_float) : spec_float := if fgtb a b then a else b.

(** ** Bits of a rotation *)

Section rotation.
Variable w : Z.
Hypothesis w_pos : 0 < w.

Definition rotl (n c : Z) : Z := Z.lor (wrap w (Z.shiftl n c)) (Z.shiftr n ((- c) mod w)).
Definition rotr (n c : Z) : Z := Z.lor (Z.shiftr n c) (wrap w (Z.shiftl n ((- c) mod w))).

Lemma testbit_high n i : 0 <= n < 2 ^ w -> w <= i -> Z.testbit n i = false.
Proof.
  intros Hn Hi. destruct (decide (n = 0)) as [->|Hne]; [by rewrite Z.bits_0|].
  apply Z.bits_above_log2; [lia|]. apply Z.log2_lt_pow2; [lia|]. eapply Z.lt_le_trans; [apply Hn|].
  apply Z.pow_le_mono_r; lia.
Qed.

Lemma neg_mod c : 0 <= c < w -> (- c) mod w = if c =? 0 then 0 else w - c.
Proof.
  intros Hc. destruct (Z.eqb_spec c 0) as [->|Hne]; [apply Z.mod_0_l; lia|].
  symmetry. apply (Z.mod_unique _ _ (-1)); lia.
Qed.

Lemma neg_neg_mod c : 0 <= c < w -> (- ((- c) mod w)) mod w = c.
Proof.
  intros Hc. rewrite (neg_mod c) by lia. destruct (Z.eqb_spec c 0) as [->|Hne]; [apply Z.mod_0_l; lia|].
  symmetry. apply (Z.mod_unique _ _ (-1)); lia.
Qed.

Lemma shifted_mod i c : 0 <= c < w -> 0 <= i < w -> (i - c) mod w = if c <=? i then i - c else i - c + w.
Proof.
  intros Hc Hi. destruct (Z.leb_spec c i); [apply Z.mod_small; lia|].
  symmetry. apply (Z.mod_unique _ _ (-1)); lia.
Qed.

Lemma rotl_bits n c i :
  0 <= n < 2 ^ w -> 0 <= c < w -> 0 <= i < w -> Z.testbit (rotl n c) i = Z.testbit n ((i - c) mod w).
Proof.
  intros Hn Hc Hi. unfold rotl, wrap. rewrite Z.lor_spec, Z.mod_pow2_bits_low, Z.shiftl_spec by lia.
  rewrite neg_mod by lia. rewrite shifted_mod by lia. rewrite Z.shiftr_spec by lia.
  destruct (Z.eqb_spec c 0) as [->|Hne].
  - rewrite (proj2 (Z.leb_le 0 i)) by lia. by rewrite Z.sub_0_r, Z.add_0_r, orb_diag.
  - destruct (Z.leb_spec c i).
    + rewrite (testbit_high n (i + _)) by lia. apply orb_false_r.
    + rewrite (Z.testbit_neg_r n (i - c)) by lia. cbn. f_equal. lia.
Qed.

Lemma rotr_rotl n c : 0 <= n < 2 ^ w -> 0 <= c < w -> rotr n c = rotl n ((- c) mod w).
Proof.
  intros Hn Hc. unfold rotl, rotr. rewrite Z.lor_comm. do 2 f_equal. rewrite !neg_mod; [|lia|].
  - destruct (Z.eqb_spec c 0) as [->|?]; [done|]. rewrite (proj2 (Z.eqb_neq (w - c) 0)); lia.
  - rewrite neg_mod by lia. destruct (Z.eqb_spec c 0); lia.
Qed.

Lemma rotl_range n c : 0 <= n < 2 ^ w -> 0 <= c < w -> 0 <= rotl n c < 2 ^ w.
Proof.
  intros Hn Hc. unfold rotl, wrap.
  assert (0 <= Z.shiftl n c) by (apply Z.shiftl_nonneg; lia).
  assert (Hm : 0 <= Z.shiftl n c mod 2 ^ w < 2 ^ w) by (apply Z.mod_pos_bound; lia).
  assert (H0 : 0 <= Z.shiftr n ((- c) mod w)) by (apply Z.shiftr_nonneg; lia).
  split; [apply Z.lor_nonneg; lia|]. apply Z.lt_nge. intros Hge.
  set (x := Z.lor _ _) in *. assert (Hx : 0 < x) by lia.
  assert (Hb : w <= Z.log2 x) by (apply Z.log2_le_pow2; lia).
  pose proof (Z.bit_log2 x Hx) as Hbit. unfold x in Hbit at 1. rewrite Z.lor_spec in Hbit.
  rewrite (testbit_high (_ mod _)) in Hbit by lia.
  rewrite Z.shiftr_spec in Hbit by lia. rewrite testbit_high in Hbit; [done | lia |].
  pose proof (Z.mod_pos_bound (- c) w w_pos). lia.
Qed.

Lemma rotl_inverse n c : 0 <= n < 2 ^ w -> 0 <= c < w -> rotl (rotl n c) ((- c) mod w) = n.
Proof.
  intros Hn Hc. assert (Hc' : 0 <= (- c) mod w < w) by (apply Z.mod_pos_bound; lia).
  pose proof (rotl_range n c Hn Hc) as Hr. apply Z.bits_inj'. intros i Hi. destruct (decide (i < w)) as [Hw|Hw].
  - rewrite !rotl_bits; try lia; [|apply Z.mod_pos_bound; lia].
    f_equal. rewrite Zminus_mod_idemp_l.
    replace (i - (- c) mod w - c) with (i - c - (- c) mod w) by lia.
    rewrite Zminus_mod_idemp_r. replace (i - c - - c) with i by lia. apply Z.mod_small. lia.
  - rewrite !testbit_high; try done; try lia. by apply rotl_range.
Qed.
End rotation.

(** The four functions are rotations by the count modulo the width. *)
Lemma rotate_count w mask c : (w = 32 \/ w = 64) -> mask = w - 1 ->
  Z.land (u32 (c mod w)) mask = c mod w
  /\ Z.land (u32 (- (c mod w))) mask = (- (c mod w)) mod w.
Proof.
  intros Hw ->. pose proof (Z.mod_pos_bound c w) as Hc.
  assert (Hl : forall z, Z.land z (w - 1) = z mod w).
  { intros z. destruct Hw as [-> | ->]; [change (32 - 1) with (Z.ones 5) | change (64 - 1) with (Z.ones 6)];
      by rewrite Z.land_ones by lia. }
  rewrite !Hl. unfold u32, wrap. split.
  - rewrite (Z.mod_small _ (2 ^ 32)) by lia. apply Z.mod_mod. lia.
  - apply Z.mod_mod_divide.
    destruct Hw as [-> | ->]; [exists (2 ^ 27) | exists (2 ^ 26)]; done.
Qed.

Lemma rotl_u32_ok n c : rotl_u32 n c = rotl 32 n (c mod 32).
Proof. unfold rotl_u32, rotl. destruct (rotate_count 32 31 c) as [E1 E2]; [by left | done |]. by rewrite E1, E2. Qed.

Lemma rotr_u32_ok n c : rotr_u32 n c = rotr 32 n (c mod 32).
Proof. unfold rotr_u32, rotr. destruct (rotate_count 32 31 c) as [E1 E2]; [by left | done |]. by rewrite E1, E2. Qed.

Lemma rotl_u64_ok n c : rotl_u64 n c = rotl 64 n (c mod 64).
Proof. unfold rotl_u64, rotl. destruct (rotate_count 64 63 c) as [E1 E2]; [by right | done |]. by rewrite E1, E2. Qed.

Lemma rotr_u64_ok n c : rotr_u64 n c = rotr 64 n (c mod 64).
Proof. unfold rotr_u64, rotr. destruct (rotate_count 64 63 c) as [E1 E2]; [by right | done |]. by rewrite E1, E2. Qed.

(** ** Comparisons of floats are comparisons of their values *)

Lemma digits_bounds m : 2 ^ (Zpos (digits2_pos m) - 1) <= Zpos m < 2 ^ Zpos (digits2_pos m).
Proof.
  induction m as [m IH|m IH|]; cbn [digits2_pos]; [| |cbn; lia];
    rewrite Pos2Z.inj_succ; replace (Z.succ (Zpos (digits2_pos m)) - 1) with (Zpos (digits2_pos m)) by lia;
    rewrite Z.pow_succ_r by lia;
    replace (Zpos (digits2_pos m)) with (Z.succ (Zpos (digits2_pos m) - 1)) at 1 by lia;
    rewrite Z.pow_succ_r by lia; lia.
Qed.

Section values.
Variables prec emax : Z.
Hypothesis prec_pos : 0 < prec.

(** The value of a float in units of [2 ^ k]. *)
Definition scaled (k x e : Z) : Z := x * 2 ^ (e - k).

Lemma magnitude_lt m1 e1 m2 e2 k :
  bounded prec emax m1 e1 = true -> bounded prec emax m2 e2 = true -> e1 < e2 -> k <= e1 ->
  scaled k (Zpos m1) e1 < scaled k (Zpos m2) e2.
Proof.
  unfold bounded, canonical_mantissa, fexp, scaled.
  intros [H1%Z.eqb_eq _]%andb_true_iff [H2%Z.eqb_eq _]%andb_true_iff He Hk.
  pose proof (digits_bounds m1) as B1. pose proof (digits_bounds m2) as B2.
  set (d1 := Zpos (digits2_pos m1)) in *. set (d2 := Zpos (digits2_pos m2)) in *.
  assert (Hd1 : d1 <= prec) by lia. assert (Hd2 : d2 = prec) by lia.
  apply (Z.lt_le_trans _ (2 ^ prec * 2 ^ (e1 - k))).
  - apply Z.mul_lt_mono_pos_r; [apply Z.pow_pos_nonneg; lia|]. eapply Z.lt_le_trans; [apply B1|].
    apply Z.pow_le_mono_r; lia.
  - apply (Z.le_trans _ (2 ^ (d2 - 1) * 2 ^ (e2 - k))).
    + rewrite <- !Z.pow_add_r by lia. apply Z.pow_le_mono_r; lia.
    + apply Z.mul_le_mono_nonneg_r; [apply Z.pow_nonneg; lia | apply B2].
Qed.

Lemma magnitude_compare m1 e1 m2 e2 k :
  bounded prec emax m1 e1 = true -> bounded prec emax m2 e2 = true -> k <= e1 -> k <= e2 ->
  match Z.compare e1 e2 with Lt => Lt | Gt => Gt | Eq => Pos.compare_cont Eq m1 m2 end
  = Z.compare (scaled k (Zpos m1) e1) (scaled k (Zpos m2) e2).
Proof.
  intros V1 V2 K1 K2. destruct (Z.compare_spec e1 e2) as [->|He|He].
  - change (Pos.compare_cont Eq m1 m2) with (Zpos m1 ?= Zpos m2). unfold scaled.
    assert (P : 0 < 2 ^ (e2 - k)) by (apply Z.pow_pos_nonneg; lia). symmetry.
    destruct (Z.compare_spec (Zpos m1) (Zpos m2)) as [E|Hlt|Hgt];
      [by rewrite E, Z.compare_refl | apply Z.compare_lt_iff; nia | apply Z.compare_gt_iff; nia].
  - symmetry. apply Z.compare_lt_iff. by apply magnitude_lt.
  - symmetry. apply Z.compare_gt_iff. by apply magnitude_lt.
Qed.

Lemma compare_values s1 m1 e1 s2 m2 e2 k :
  bounded prec emax m1 e1 = true -> bounded prec emax m2 e2 = true -> k <= e1 -> k <= e2 ->
  SFcompare (S754_finite s1 m1 e1) (S754_finite s2 m2 e2)
  = Some (Z.compare (scaled k (signed s1 m1) e1) (scaled k (signed s2 m2) e2)).
Proof.
  intros V1 V2 K1 K2. pose proof (magnitude_compare m1 e1 m2 e2 k V1 V2 K1 K2) as M.
  assert (P1 : 0 < 2 ^ (e1 - k)) by (apply Z.pow_pos_nonneg; lia).
  assert (P2 : 0 < 2 ^ (e2 - k)) by (apply Z.pow_pos_nonneg; lia).
  unfold SFcompare, signed. f_equal. destruct s1, s2.
  - replace (scaled k (Zneg m1) e1) with (- scaled k (Zpos m1) e1) by (unfold scaled; lia).
    replace (scaled k (Zneg m2) e2) with (- scaled k (Zpos m2) e2) by (unfold scaled; lia).
    rewrite Z.compare_opp, (Z.compare_antisym (scaled k (Zpos m1) e1)), <- M. by destruct (e1 ?= e2).
  - symmetry. apply Z.compare_lt_iff. unfold scaled. nia.
  - symmetry. apply Z.compare_gt_iff. unfold scaled. nia.
  - done.
Qed.

(** A float whose value is the integer [c]. *)
Definition is_int (f : spec_float) (c : Z) : bool :=
  match f with
  | S754_zero _ => c =? 0
  | S754_finite s m e =>
    bounded prec emax m e && (signed s m * 2 ^ Z.max e 0 =? c * 2 ^ Z.max (- e) 0)
  | _ => false
  end.

Lemma is_int_scaled s m e c k :
  is_int (S754_finite s m e) c = true -> k <= e -> k <= 0 -> scaled k (signed s m) e = c * 2 ^ (- k).
Proof.
  cbn. intros [_ H%Z.eqb_eq]%andb_true_iff Hk H0. unfold scaled. destruct (decide (0 <= e)).
  - rewrite Z.max_l, Z.max_r, Z.mul_1_r in H by lia. rewrite <- H.
    replace (e - k) with (e + - k) by lia. rewrite Z.pow_add_r by lia. lia.
  - rewrite Z.max_r, Z.max_l, Z.mul_1_r in H by lia. rewrite H, <- Z.mul_assoc, <- Z.pow_add_r by lia.
    do 2 f_equal. lia.
Qed.

Lemma floor_le c x e k : k <= e -> k <= 0 -> c <= floor_of x e <-> c * 2 ^ (- k) <= scaled k x e.
Proof.
  intros Hk H0. unfold floor_of, scaled. assert (P : 0 < 2 ^ (- k)) by (apply Z.pow_pos_nonneg; lia).
  destruct (Z.leb_spec 0 e) as [He|He].
  - replace (e - k) with (e + - k) by lia. rewrite Z.pow_add_r by lia. nia.
  - assert (P1 : 0 < 2 ^ (- e)) by (apply Z.pow_pos_nonneg; lia).
    assert (P2 : 0 < 2 ^ (e - k)) by (apply Z.pow_pos_nonneg; lia).
    replace (- k) with (- e + (e - k)) by lia. rewrite Z.pow_add_r, Z.mul_assoc by lia.
    rewrite <- Z.mul_le_mono_pos_r by done. split.
    + intros Hc. pose proof (Z.mul_div_le x (2 ^ (- e)) P1). nia.
    + intros Hc. apply Z.div_le_lower_bound; lia.
Qed.

Lemma ceil_le c x e k : k <= e -> k <= 0 -> ceil_of x e <= c <-> scaled k x e <= c * 2 ^ (- k).
Proof.
  intros Hk H0. unfold ceil_of.
  pose proof (floor_le (- c) (- x) e k Hk H0) as F. unfold scaled in *. rewrite !Z.mul_opp_l in F. lia.
Qed.

Lemma ltb_int s m e f c :
  bounded prec emax m e = true -> is_int f c = true ->
  SFltb (S754_finite s m e) f = negb (c <=? floor_of (signed s m) e)
  /\ SFltb f (S754_finite s m e) = negb (ceil_of (signed s m) e <=? c).
Proof.
  intros V I. set (x := signed s m).
  set (k := match f with S754_finite _ _ ec => Z.min e (Z.min ec 0) | _ => Z.min e 0 end).
  assert (Hk : k <= e /\ k <= 0) by (unfold k; destruct f; lia). destruct Hk as [Hk H0].
  pose proof (floor_le c x e k Hk H0) as F. pose proof (ceil_le c x e k Hk H0) as C.
  assert (P : 0 < 2 ^ (e - k)) by (apply Z.pow_pos_nonneg; lia).
  assert (E : SFltb (S754_finite s m e) f = (scaled k x e <? c * 2 ^ (- k))
           /\ SFltb f (S754_finite s m e) = (c * 2 ^ (- k) <? scaled k x e)).
  { destruct f as [z|z| |z mc ec]; try done.
    - apply Z.eqb_eq in I as ->. unfold SFltb, SFcompare, scaled, x, signed. destruct s.
      + rewrite (proj2 (Z.ltb_lt _ _)), (proj2 (Z.ltb_ge _ _)) by nia. done.
      + rewrite (proj2 (Z.ltb_ge _ _)), (proj2 (Z.ltb_lt _ _)) by nia. done.
    - pose proof I as I'. cbn in I'. apply andb_true_iff in I' as [V' _]. unfold SFltb.
      assert (K1 : k <= e) by lia. assert (K2 : k <= ec) by lia.
      rewrite (compare_values s m e z mc ec k V V' K1 K2), (compare_values z mc ec s m e k V' V K2 K1).
      rewrite (is_int_scaled z mc ec c k I K2 H0). unfold Z.ltb. fold x. done. }
  destruct E as [-> ->]. split.
  - destruct (Z.leb_spec c (floor_of x e)); destruct (Z.ltb_spec (scaled k x e) (c * 2 ^ (- k))); try done; lia.
  - destruct (Z.leb_spec (ceil_of x e) c); destruct (Z.ltb_spec (c * 2 ^ (- k)) (scaled k x e)); try done; lia.
Qed.

(** ** Truncation *)

(** What a truncation with the bounds [lo] and [hi] and the target range [min]
    to [max] does, in integer arithmetic. *)
Definition trunc_result (lo hi min max : Z) (f : spec_float) : outcome Z :=
  match f with
  | S754_nan => Stop Undefined
  | S754_infinity _ => Stop (Trap WASM_TRAP_ILLEGAL_ARITHMETIC_OPERATION)
  | S754_zero _ => Ret 0
  | S754_finite s m e =>
    let z := trunc_of s m e in
    if (lo <=? floor_of (signed s m) e) && (ceil_of (signed s m) e <=? hi)
    then if (min <=? z) && (z <=? max) then Ret z else Stop Undefined
    else Stop (Trap WASM_TRAP_ILLEGAL_ARITHMETIC_OPERATION)
  end.

Lemma trunc_ok lo hi flo fhi min max f :
  valid_binary prec emax f = true -> is_int flo lo = true -> is_int fhi hi = true -> lo <= 0 <= hi ->
  (if SFltb f flo || fgtb f fhi
   then Stop (Trap WASM_TRAP_ILLEGAL_ARITHMETIC_OPERATION) else int_of_float min max f)
  = trunc_result lo hi min max f.
Proof.
  intros V L U Hr. unfold fgtb. destruct f as [s|s| |s m e]; cbn [int_of_float trunc_result].
  - assert (SFltb (S754_zero s) flo = false) as ->.
    { destruct flo as [| | |z mc ec]; try done. destruct z; [done|]. cbn in L.
      apply andb_true_iff in L as [_ L%Z.eqb_eq].
      assert (0 < 2 ^ Z.max ec 0) by (apply Z.pow_pos_nonneg; lia).
      assert (0 < 2 ^ Z.max (- ec) 0) by (apply Z.pow_pos_nonneg; lia). cbn in L. nia. }
    assert (SFltb fhi (S754_zero s) = false) as ->; [|done].
    destruct fhi as [| | |z mc ec]; try done. destruct z; [|done]. cbn in U.
    apply andb_true_iff in U as [_ U%Z.eqb_eq].
    assert (0 < 2 ^ Z.max ec 0) by (apply Z.pow_pos_nonneg; lia).
    assert (0 < 2 ^ Z.max (- ec) 0) by (apply Z.pow_pos_nonneg; lia). cbn in U. nia.
  - destruct flo as [| | |z1 m1 e1]; try done; destruct fhi as [| | |z2 m2 e2]; try done; by destruct s.
  - destruct flo; try done; destruct fhi; done.
  - destruct (ltb_int s m e flo lo V L) as [-> _]. destruct (ltb_int s m e fhi hi V U) as [_ ->].
    rewrite <- negb_andb. by destruct (_ && _).
Qed.
End values.

(** The WebAssembly operation. *)
Definition wasm_trunc (min max : Z) (f : spec_float) : outcome Z :=
  match f with
  | S754_zero _ => Ret 0
  | S754_finite s m e =>
    let z := trunc_of s m e in
    if (min <=? z) && (z <=? max) then Ret z else Stop (Trap WASM_TRAP_ILLEGAL_ARITHMETIC_OPERATION)
  | _ => Stop (Trap WASM_TRAP_ILLEGAL_ARITHMETIC_OPERATION)
  end.

Lemma trunc_result_wasm lo hi min max f z :
  trunc_result lo hi min max f = Ret z -> wasm_trunc min max f = Ret z.
Proof.
  intros E. destruct f as [s|s| |s m e]; try done. cbn [trunc_result wasm_trunc] in *.
  destruct (_ && _) in E; [|done]. by destruct (_ && _).
Qed.

(** ** Minimum and maximum *)

(** With a NaN the second operand is returned, so a NaN can be lost, and the two
    zeros are not ordered; WebAssembly propagates the NaN and orders -0 below +0. *)
Lemma min_max_nan a :
  f32_min S754_nan a = a /\ f32_max S754_nan a = a /\ f64_min S754_nan a = a /\ f64_max S754_nan a = a
  /\ f32_min a S754_nan = S754_nan /\ f32_max a S754_nan = S754_nan
  /\ f32_min (S754_zero true) (S754_zero false) = S754_zero false.
Proof. by destruct a. Qed.

(** ** Quotients and remainders *)

Lemma unsigned_div_rem max a b :
  0 <= a <= max -> 0 <= b <= max -> b <> 0 ->
  exists q r, (if b =? 0 then Stop Fpe else Ret (a / b)) = Ret q /\ (if b =? 0 then Stop Fpe else Ret (a mod b)) = Ret r
    /\ a = b * q + r /\ 0 <= r < b /\ 0 <= q <= max.
Proof.
  intros Ha Hb Hne. rewrite (proj2 (Z.eqb_neq b 0)) by done. exists (a / b), (a mod b).
  split; [done|]. split; [done|]. split; [apply Z.div_mod; lia|]. split; [apply Z.mod_pos_bound; lia|].
  split; [apply Z.div_pos; lia|]. apply (Z.le_trans _ a); [|lia]. apply Z.div_le_upper_bound; nia.
Qed.

Lemma signed_div_rem k a b :
  0 < k -> - 2 ^ k <= a <= 2 ^ k - 1 -> - 2 ^ k <= b <= 2 ^ k - 1 -> idiv_refuses (- 2 ^ k) a b = false ->
  exists q r, Ret (Z.quot a b) = Ret q /\ Ret (Z.rem a b) = Ret r /\ a = b * q + r
    /\ Z.abs r < Z.abs b /\ 0 <= a * r /\ - 2 ^ k <= q <= 2 ^ k - 1.
Proof.
  intros Hk Ha Hb [Hb0%Z.eqb_neq Hov]%orb_false_iff. exists (Z.quot a b), (Z.rem a b).
  split; [done|]. split; [done|]. pose proof (Z.quot_rem a b Hb0) as E. split; [done|].
  pose proof (Z.rem_bound_abs a b Hb0) as Hr. split; [lia|].
  assert (Hs : 0 <= a * Z.rem a b) by (pose proof (Z.rem_sign_mul a b Hb0); lia).
  split; [done|]. assert (Hq : Z.abs b * Z.abs (Z.quot a b) <= Z.abs a).
  { rewrite <- Z.quot_abs by done. apply Z.mul_quot_le; lia. }
  destruct (decide (Z.abs b = 1)) as [Hb1|Hb1].
  - apply andb_false_iff in Hov as [H%Z.eqb_neq|H%Z.eqb_neq]; [lia|]. assert (b = 1) as -> by lia.
    rewrite Z.quot_1_r. lia.
  - assert (2 * Z.abs (Z.quot a b) <= Z.abs a) by nia. lia.
Qed.

(** ** Claims *)

(** Rotations.  For an operand of the width and any count, bit [i] of a
    left rotation is bit [i - count] of the operand, modulo the width, and a
    right rotation by the same count undoes it (and the other way round). *)
Theorem numeric_rotate_spec (n c : Z) :
  (0 <= n <= UINT32_MAX ->
     (forall i, 0 <= i < 32 -> Z.testbit (rotl_u32 n c) i = Z.testbit n ((i - c) mod 32))
     /\ rotr_u32 (rotl_u32 n c) c = n /\ rotl_u32 (rotr_u32 n c) c = n)
  /\ (0 <= n <= UINT64_MAX ->
     (forall i, 0 <= i < 64 -> Z.testbit (rotl_u64 n c) i = Z.testbit n ((i - c) mod 64))
     /\ rotr_u64 (rotl_u64 n c) c = n /\ rotl_u64 (rotr_u64 n c) c = n).
Proof.
  assert (R : forall w, 0 < w -> 0 <= n < 2 ^ w ->
    (forall i, 0 <= i < w -> Z.testbit (rotl w n (c mod w)) i = Z.testbit n ((i - c) mod w))
    /\ rotr w (rotl w n (c mod w)) (c mod w) = n /\ rotl w (rotr w n (c mod w)) (c mod w) = n).
  { intros w Hw Hn. assert (Hc : 0 <= c mod w < w) by (apply Z.mod_pos_bound; lia).
    assert (Hc' : 0 <= (- (c mod w)) mod w < w) by (apply Z.mod_pos_bound; lia). split; [|split].
    - intros i Hi. rewrite rotl_bits by lia. f_equal. apply Zminus_mod_idemp_r.
    - rewrite rotr_rotl by (try apply rotl_range; lia). by apply rotl_inverse.
    - rewrite rotr_rotl by lia. pose proof (rotl_inverse w Hw n _ Hn Hc') as I. by rewrite neg_neg_mod in I by lia. }
  split; intros Hn; rewrite ?rotl_u32_ok, ?rotr_u32_ok, ?rotl_u64_ok, ?rotr_u64_ok.
  - apply (R 32); unfold UINT32_MAX in Hn; lia.
  - apply (R 64); unfold UINT64_MAX in Hn; lia.
Qed.

Lemma numeric_rotate_witness :
  0 <= 2147483649 <= UINT32_MAX /\ rotl_u32 2147483649 33 = 3 /\ rotr_u32 (rotl_u32 2147483649 33) 33 = 2147483649.
Proof.
  split; [unfold UINT32_MAX; lia|]. split; [by vm_compute|].
  destruct (numeric_rotate_spec 2147483649 33) as [H _]. apply H. unfold UINT32_MAX. lia.
Defined.

(** Division and remainder.  For operands in range, the functions stop
    exactly where the hardware refuses: on a zero divisor and, signed, on the
    quotient of the smallest number and -1, for the remainder too (where
    WebAssembly defines the remainder 0).  Otherwise quotient and remainder are
    in range, the dividend is their combination, and the remainder is smaller
    than the divisor and has the sign of the dividend. *)
Theorem numeric_div_rem_spec (a b : Z) :
  (0 <= a <= UINT32_MAX -> 0 <= b <= UINT32_MAX -> b <> 0 ->
     exists q r, u32_div a b = Ret q /\ u32_rem a b = Ret r /\ a = b * q + r /\ 0 <= r < b /\ 0 <= q <= UINT32_MAX)
  /\ (0 <= a <= UINT64_MAX -> 0 <= b <= UINT64_MAX -> b <> 0 ->
     exists q r, u64_div a b = Ret q /\ u64_rem a b = Ret r /\ a = b * q + r /\ 0 <= r < b /\ 0 <= q <= UINT64_MAX)
  /\ (INT32_MIN <= a <= INT32_MAX -> INT32_MIN <= b <= INT32_MAX ->
     if idiv_refuses INT32_MIN a b then i32_div a b = Stop Fpe /\ i32_rem a b = Stop Fpe
     else exists q r, i32_div a b = Ret q /\ i32_rem a b = Ret r /\ a = b * q + r
       /\ Z.abs r < Z.abs b /\ 0 <= a * r /\ INT32_MIN <= q <= INT32_MAX)
  /\ (INT64_MIN <= a <= INT64_MAX -> INT64_MIN <= b <= INT64_MAX ->
     if idiv_refuses INT64_MIN a b then i64_div a b = Stop Fpe /\ i64_rem a b = Stop Fpe
     else exists q r, i64_div a b = Ret q /\ i64_rem a b = Ret r /\ a = b * q + r
       /\ Z.abs r < Z.abs b /\ 0 <= a * r /\ INT64_MIN <= q <= INT64_MAX)
  /\ (u32_div a 0 = Stop Fpe /\ u32_rem a 0 = Stop Fpe /\ u64_div a 0 = Stop Fpe /\ u64_rem a 0 = Stop Fpe).
Proof.
  split; [|split; [|split; [|split]]]; [| | | |done].
  - unfold u32_div, u32_rem. by apply unsigned_div_rem.
  - unfold u64_div, u64_rem. by apply unsigned_div_rem.
  - unfold i32_div, i32_rem. intros Ha Hb. pose proof (signed_div_rem 31 a b) as S. unfold INT32_MIN, INT32_MAX in *.
    destruct (idiv_refuses _ a b) eqn:E; [done|]. apply S; lia || done.
  - unfold i64_div, i64_rem. intros Ha Hb. pose proof (signed_div_rem 63 a b) as S. unfold INT64_MIN, INT64_MAX in *.
    destruct (idiv_refuses _ a b) eqn:E; [done|]. apply S; lia || done.
Qed.

Lemma numeric_div_rem_witness :
  INT32_MIN <= -7 <= INT32_MAX
  /\ (exists q r, i32_div (-7) 2 = Ret q /\ i32_rem (-7) 2 = Ret r /\ -7 = 2 * q + r
       /\ Z.abs r < Z.abs 2 /\ 0 <= -7 * r /\ INT32_MIN <= q <= INT32_MAX).
Proof.
  split; [by vm_compute|]. destruct (numeric_div_rem_spec (-7) 2) as (_ & _ & H & _).
  apply H; by vm_compute.
Defined.

(** C35: truncation.  For every float the eight functions do what
    [trunc_result] says in integer arithmetic: trap outside the bounds, which
    are those of the target type rounded to the float type, and otherwise
    truncate towards zero.  A value they return is the one WebAssembly defines.
    They differ from it where WebAssembly traps and the conversion has no
    meaning in C (a NaN, and the upper bound itself where it was rounded up,
    such as 2^32 for [u32_trunc_f32]), and where they trap although
    WebAssembly truncates (a fraction between -1 and 0 for the unsigned types,
    or next to an exact bound). *)
Theorem numeric_trunc_spec (f : spec_float) :
  (valid_binary 24 128 f = true ->
     u32_trunc_f32 f = trunc_result 0 (2 ^ 32) 0 UINT32_MAX f
     /\ i32_trunc_f32 f = trunc_result INT32_MIN (2 ^ 31) INT32_MIN INT32_MAX f
     /\ u64_trunc_f32 f = trunc_result 0 (2 ^ 64) 0 UINT64_MAX f
     /\ i64_trunc_f32 f = trunc_result INT64_MIN (2 ^ 63) INT64_MIN INT64_MAX f)
  /\ (valid_binary 53 1024 f = true ->
     u32_trunc_f64 f = trunc_result 0 UINT32_MAX 0 UINT32_MAX f
     /\ i32_trunc_f64 f = trunc_result INT32_MIN INT32_MAX INT32_MIN INT32_MAX f
     /\ u64_trunc_f64 f = trunc_result 0 (2 ^ 64) 0 UINT64_MAX f
     /\ i64_trunc_f64 f = trunc_result INT64_MIN (2 ^ 63) INT64_MIN INT64_MAX f)
  /\ (forall lo hi min max z, trunc_result lo hi min max f = Ret z -> wasm_trunc min max f = Ret z).
Proof.
  split; [|split; [|intros; by eapply trunc_result_wasm]].
  - intros V. repeat split; apply (trunc_ok 24 128); (done || by vm_compute).
  - intros V. repeat split; apply (trunc_ok 53 1024); (done || by vm_compute).
Qed.

(** 3.75 truncates to 3; a NaN and 2^32 have no meaning; -0.5 traps. *)
Lemma numeric_trunc_witness :
  u32_trunc_f32 (S754_finite false 15728640 (-22)) = Ret 3
  /\ u32_trunc_f32 S754_nan = Stop Undefined /\ wasm_trunc 0 UINT32_MAX S754_nan = Stop (Trap 5)
  /\ u32_trunc_f32 (float_of_Z (2 ^ 32)) = Stop Undefined /\ wasm_trunc 0 UINT32_MAX (float_of_Z (2 ^ 32)) = Stop (Trap 5)
  /\ u32_trunc_f32 (S754_finite true 8388608 (-24)) = Stop (Trap 5)
  /\ wasm_trunc 0 UINT32_MAX (S754_finite true 8388608 (-24)) = Ret 0.
Proof.
  split; [|by vm_compute]. destruct (numeric_trunc_spec (S754_finite false 15728640 (-22))) as [H _].
  destruct H as [-> _]; by vm_compute.
Defined.
