(* ===== verification/Runqueue.v ===== *)
(** * Runqueue: the worker-local runqueues and the global request schedulers

    [runtime/src/local_runqueue*.c] and
    [runtime/src/global_request_scheduler*.c].  The C code is polymorphic
    through records of function pointers; here the records are the classes
    [Runqueue] and [GlobalScheduler], with an instance per variant.  The
    classes [RunqueueLaws] and [GlobalSchedulerLaws] state what every variant
    promises to the sandbox and scheduler code.

    Sandboxes are referred to by address.  Functions that order sandboxes read
    their absolute deadlines through the store: the deadline function [dl]
    stands for [((struct sandbox * )p)->absolute_deadline]. *)

From Stdlib Require Import ZArith Lia.
From S2P Require Import Prelude Lock PriorityQueue HeapTheory PriorityQueueSpec Deque.
Local Open Scope Z_scope.

(** ** The interfaces *)

Class Runqueue (RQ : Type) := {
  rq_add_fn : (Z -> Z) -> RQ -> Z -> outcome RQ;
  rq_is_empty_fn : RQ -> outcome bool;
  rq_delete_fn : (Z -> Z) -> RQ -> Z -> outcome RQ;
}.

(** The function that answers the next sandbox, for the variants where it only
    reads.  That of the multi-tenant variant moves tenants: its policy calls it
    directly. *)
Class RunqueueNext (RQ : Type) := {
  rq_get_next_fn : RQ -> outcome (option Z);
}.

Definition local_runqueue_add {RQ} `{Runqueue RQ} := rq_add_fn.
Definition local_runqueue_delete {RQ} `{Runqueue RQ} := rq_delete_fn.
Definition local_runqueue_is_empty {RQ} `{Runqueue RQ} := rq_is_empty_fn.
Definition local_runqueue_get_next {RQ} `{RunqueueNext RQ} := rq_get_next_fn.

(** Deadlines are 64-bit. *)
Definition deadlines_u64 (dl : Z -> Z) : Prop := forall p, 0 <= dl p <= UINT64_MAX.

(** A runqueue holds a set of sandboxes: adding and deleting change exactly
    that set, where a variant may only accept some sandboxes.  The order is the
    variant's own. *)
Class RunqueueLaws (RQ : Type) `{Runqueue RQ} := {
  rq_repr : (Z -> Z) -> RQ -> list Z -> Prop;
  rq_accepts : RQ -> list Z -> Z -> Prop;
  rq_repr_perm dl q l l' : rq_repr dl q l -> l ≡ₚ l' -> rq_repr dl q l';
  rq_repr_ext dl dl' q l : (forall p, p ∈ l -> dl p = dl' p) -> rq_repr dl q l -> rq_repr dl' q l;
  rq_add_ok dl q l p : deadlines_u64 dl -> rq_repr dl q l -> p ∉ l -> rq_accepts q l p ->
    exists q', local_runqueue_add dl q p = Ret q' /\ rq_repr dl q' (p :: l);
  rq_delete_ok dl q l p : deadlines_u64 dl -> rq_repr dl q (p :: l) -> p ∉ l ->
    exists q', local_runqueue_delete dl q p = Ret q' /\ rq_repr dl q' l;
  rq_is_empty_ok dl q l : rq_repr dl q l -> local_runqueue_is_empty q = Ret (bool_decide (l = []));
}.

(** A runqueue that accepts every sandbox. *)
Class RunqueueUnbounded (RQ : Type) `{RunqueueLaws RQ} := rq_accepts_all : forall q l p, rq_accepts q l p.

(** The next sandbox is one of the queue, if there is any. *)
Class RunqueueNextLaws (RQ : Type) `{RunqueueLaws RQ} `{RunqueueNext RQ} := rq_get_next_ok : forall dl q l, rq_repr dl q l ->
  exists r, local_runqueue_get_next q = Ret r /\ match r with None => l = [] | Some p => p ∈ l end.

(** [now] and [later] are the cycle counter around a critical section;
    [listener] is [listener_thread_is_running()]. *)
Class GlobalScheduler (G : Type) := {
  gs_add_fn : (Z -> Z) -> bool -> Z -> Z -> G -> Z -> outcome (option Z * G);
  gs_remove_fn : (Z -> Z) -> bool -> Z -> Z -> G -> outcome (Z * option Z * G);
  gs_remove_if_earlier_fn : (Z -> Z) -> bool -> Z -> Z -> G -> Z -> outcome (Z * option Z * G);
  gs_peek_fn : G -> outcome Z;
}.

Definition global_request_scheduler_add {G} `{GlobalScheduler G} := gs_add_fn.
Definition global_request_scheduler_remove {G} `{GlobalScheduler G} := gs_remove_fn.
Definition global_request_scheduler_remove_if_earlier {G} `{GlobalScheduler G} := gs_remove_if_earlier_fn.
Definition global_request_scheduler_peek {G} `{GlobalScheduler G} := gs_peek_fn.

(** ** The round-robin list (FIFO) *)

Record runqueue_list := mk_runqueue_list { rql_list : list Z }.

Definition local_runqueue_list_is_empty (q : runqueue_list) : outcome bool :=
  Ret (bool_decide (rql_list q = [])).

Definition local_runqueue_list_get_head (q : runqueue_list) : outcome Z := deref (head (rql_list q)).

(** Unlinking a node takes it out of the list it is in. *)
Definition unlink (p : Z) (l : list Z) : list Z := filter (fun x => x <> p) l.

Definition local_runqueue_list_remove (q : runqueue_list) (p : Z) : outcome runqueue_list :=
  Ret (mk_runqueue_list (unlink p (rql_list q))).

Definition local_runqueue_list_remove_and_return (q : runqueue_list) : outcome (Z * runqueue_list) :=
  p ← local_runqueue_list_get_head q;
  Ret (p, mk_runqueue_list (unlink p (rql_list q))).

(** The assertion is that the node is in no list. *)
Definition local_runqueue_list_append (q : runqueue_list) (p : Z) : outcome runqueue_list :=
  assert (bool_decide (p ∉ rql_list q)) ;;
  Ret (mk_runqueue_list (rql_list q ++ [p])).

(** [interrupted p] is [p->state == SANDBOX_INTERRUPTED]. *)
Definition local_runqueue_list_rotate (interrupted : Z -> bool) (q : runqueue_list)
  : outcome runqueue_list :=
  match rql_list q with
  | [_] => Ret q
  | _ =>
    '(p, q) ← local_runqueue_list_remove_and_return q;
    assert (interrupted p) ;;
    local_runqueue_list_append q p
  end.

Definition local_runqueue_list_get_next (q : runqueue_list) : outcome (option Z) :=
  empty ← local_runqueue_list_is_empty q;
  if (empty : bool) then Ret None else Some <$> local_runqueue_list_get_head q.

Definition local_runqueue_list_initialize : runqueue_list := mk_runqueue_list [].

#[export] Instance list_runqueue : Runqueue runqueue_list := {|
  rq_add_fn := fun _ => local_runqueue_list_append;
  rq_is_empty_fn := local_runqueue_list_is_empty;
  rq_delete_fn := fun _ => local_runqueue_list_remove;
|}.

#[export] Instance list_runqueue_next : RunqueueNext runqueue_list := {| rq_get_next_fn := local_runqueue_list_get_next |}.

Lemma unlink_notin p l : p ∉ l -> unlink p l = l.
Proof.
  induction l as [|x l IH]; intros Hn; [done|]. unfold unlink in *.
  apply not_elem_of_cons in Hn as [? ?]. rewrite filter_cons_True by done. by rewrite IH.
Qed.

Lemma unlink_head p l : p ∉ l -> unlink p (p :: l) = l.
Proof. intros Hn. unfold unlink. rewrite filter_cons_False by naive_solver. by apply unlink_notin. Qed.

Lemma unlink_perm p l l' : l ≡ₚ p :: l' -> p ∉ l' -> unlink p l ≡ₚ l'.
Proof.
  intros P Hn. unfold unlink. rewrite P. fold (unlink p (p :: l')). by rewrite unlink_head.
Qed.

#[export] Program Instance list_runqueue_laws : RunqueueLaws runqueue_list := {|
  rq_repr := fun _ q l => rql_list q ≡ₚ l;
  rq_accepts := fun _ _ _ => True;
|}.
Next Obligation. intros dl q l l' H1 H2. cbn in *. by rewrite H1. Qed.
Next Obligation. done. Qed.
Next Obligation.
  intros dl q l p _ R Hn _. cbn in *. unfold local_runqueue_add. cbn. unfold local_runqueue_list_append.
  rewrite bool_decide_true by (by rewrite R). ostep. eexists. split; [done|]. cbn.
  by rewrite R, Permutation_app_comm.
Qed.
Next Obligation.
  intros dl q l p _ R Hn. cbn in *. unfold local_runqueue_delete. cbn.
  eexists. split; [done|]. cbn. by apply unlink_perm.
Qed.
Next Obligation.
  intros dl q l R. cbn in *. unfold local_runqueue_is_empty. cbn. unfold local_runqueue_list_is_empty.
  f_equal. apply bool_decide_ext. split; intros E; rewrite E in R.
  - by apply Permutation_nil in R.
  - by apply Permutation_nil_r in R.
Qed.

#[export] Instance list_runqueue_unbounded : RunqueueUnbounded runqueue_list.
Proof. done. Qed.

#[export] Instance list_runqueue_next_laws : RunqueueNextLaws runqueue_list.
Proof.
  intros dl q l R. cbn in *. unfold local_runqueue_get_next. cbn.
  unfold local_runqueue_list_get_next, local_runqueue_list_is_empty, local_runqueue_list_get_head. ostep.
  destruct (rql_list q) as [|p rest]; cbn.
  - exists None. split; [done|]. by apply Permutation_nil in R.
  - exists (Some p). split; [done|]. rewrite <- R. constructor.
Qed.

(** ** The deadline heap (EDF) *)

Definition RUNTIME_RUNQUEUE_SIZE : nat := 256.

Section minheap.
Context {L : Type} `{SpinLock L}.
Abbreviation heap := (priority_queue L Z).

Definition local_runqueue_minheap_is_empty (q : heap) : outcome bool :=
  n ← priority_queue_length_nolock q; Ret (bool_decide (n = 0%nat)).

(** [grow_ok] and [fresh]: whether [realloc] succeeds and what the new cells hold. *)
Definition local_runqueue_minheap_add (grow_ok : bool) (fresh : nat -> option Z)
  (dl : Z -> Z) (q : heap) (sandbox : Z) : outcome heap :=
  '(return_code, q) ← priority_queue_enqueue_nolock dl q sandbox;
  if return_code =? - ENOSPC then
    match priority_queue_grow_nolock fresh grow_ok q with
    | None => Stop Panic
    | Some temp =>
      '(return_code, q) ← priority_queue_enqueue_nolock dl temp sandbox;
      if return_code =? - ENOSPC then Stop Panic else Ret q
    end
  else Ret q.

Definition local_runqueue_minheap_delete (dl : Z -> Z) (q : heap) (sandbox : Z) : outcome heap :=
  '(rc, q) ← priority_queue_delete_nolock dl false q sandbox;
  if rc =? -1 then Stop Panic else Ret q.

Definition local_runqueue_minheap_get_next (q : heap) : outcome (option Z) :=
  '(rc, next) ← priority_queue_top_nolock q;
  if rc =? - ENOENT then Ret None else Ret next.

Definition local_runqueue_minheap_initialize : heap :=
  priority_queue_initialize RUNTIME_RUNQUEUE_SIZE false.

#[export] Instance minheap_runqueue : Runqueue heap := {|
  rq_add_fn := local_runqueue_minheap_add true (fun _ => None);
  rq_is_empty_fn := local_runqueue_minheap_is_empty;
  rq_delete_fn := local_runqueue_minheap_delete;
|}.

#[export] Instance minheap_runqueue_next : RunqueueNext heap := {| rq_get_next_fn := local_runqueue_minheap_get_next |}.

(** The priorities of the elements are all a queue reads of the deadlines. *)
Lemma prio_at_ext dl dl' (q : heap) bag i :
  (forall p, p ∈ bag -> dl p = dl' p) -> contents q ≡ₚ bag ->
  (1 <= i <= pq_size q)%nat -> prio_at dl (pq_items q) i = prio_at dl' (pq_items q) i.
Proof.
  intros E C Hi. unfold prio_at. destruct (pq_items q !! i) as [[a|]|] eqn:Ea; try done.
  apply E. rewrite <- C. by eapply contents_lookup.
Qed.

Lemma pq_bag_ext dl dl' (q : heap) bag :
  (forall p, p ∈ bag -> dl p = dl' p) -> pq_bag dl q bag -> pq_bag dl' q bag.
Proof.
  intros E (W & M & C). split; [done|]. split; [|done]. unfold pq_memo in *. rewrite M.
  case_decide; [done|]. eapply prio_at_ext; eauto. lia.
Qed.

Lemma pq_heap_ext dl dl' (q : heap) bag :
  (forall p, p ∈ bag -> dl p = dl' p) -> contents q ≡ₚ bag -> pq_heap dl q -> pq_heap dl' q.
Proof.
  intros E C Hh j Hj. assert (j / 2 < j)%nat by (apply Nat.div_lt; lia).
  assert (1 <= j / 2)%nat by (apply Nat.div_le_lower_bound; lia).
  rewrite <- !(prio_at_ext dl dl' q bag) by (done || lia). by apply Hh.
Qed.

Lemma minheap_add_ok dl q bag p :
  deadlines_u64 dl -> pq_bag dl q bag -> pq_use_lock q = false ->
  exists q', local_runqueue_minheap_add true (fun _ => None) dl q p = Ret q'
    /\ pq_bag dl q' (p :: bag) /\ pq_use_lock q' = false /\ (pq_heap dl q -> pq_heap dl q').
Proof.
  intros Hu B Hl. assert (Hacc : pq_accessible q = true) by (unfold pq_accessible; by rewrite Hl).
  unfold local_runqueue_minheap_add. pose proof (wf_size q (proj1 B)).
  destruct (decide (pq_size q = pq_capacity q)) as [Ef|Ef].
  - rewrite (enqueue_nolock_full dl q p Hacc Ef). ostep. rewrite Z.eqb_refl.
    destruct (grow_bag dl (fun _ => None) q bag B) as (q1 & -> & B1 & Hh1 & Es & Hs & U1 & L1).
    assert (Hacc1 : pq_accessible q1 = true) by (unfold pq_accessible; by rewrite U1, Hl).
    destruct (enqueue_bag dl Hu q1 bag p B1 Hacc1) as (q2 & -> & B2 & Hh2 & _ & U2 & _); [lia|].
    ostep. exists q2. split; [done|]. split; [done|]. split; [congruence | auto].
  - destruct (enqueue_bag dl Hu q bag p B Hacc) as (q2 & -> & B2 & Hh2 & _ & U2 & _); [lia|].
    ostep. exists q2. split; [done|]. split; [done|]. split; [congruence | auto].
Qed.

#[export] Program Instance minheap_runqueue_laws : RunqueueLaws heap := {|
  rq_repr := fun dl q l => pq_bag dl q l /\ pq_use_lock q = false;
  rq_accepts := fun _ _ _ => True;
|}.
Next Obligation.
  intros dl q l l' [(W & M & C) U] P. split; [|done]. split; [done|]. split; [done|]. by rewrite C.
Qed.
Next Obligation. intros dl dl' q l E [B U]. split; [by eapply pq_bag_ext | done]. Qed.
Next Obligation.
  intros dl q l p Hu [B U] _ _. destruct (minheap_add_ok dl q l p Hu B U) as (q' & E & B' & U' & _).
  by exists q'.
Qed.
Next Obligation.
  intros dl q l p Hu [B U] Hn. unfold local_runqueue_delete. cbn. unfold local_runqueue_minheap_delete.
  assert (Hacc : pq_accessible q = true) by (unfold pq_accessible; by rewrite U).
  pose proof (delete_bag dl q (p :: l) p B Hacc) as D. rewrite decide_True in D by constructor.
  destruct D as (q' & bag' & -> & P & (W & M & C) & U' & _). cbn. exists q'.
  split; [done|]. rewrite U'. split; [|done]. split; [done|]. split; [done|].
  rewrite C. symmetry. by eapply Permutation_cons_inv.
Qed.
Next Obligation.
  intros dl q l [B U]. unfold local_runqueue_is_empty. cbn.
  unfold local_runqueue_minheap_is_empty, priority_queue_length_nolock, pq_accessible. rewrite U. cbn.
  f_equal. apply bool_decide_ext. pose proof (bag_size dl q l B) as Hs. rewrite Hs.
  destruct l; naive_solver.
Qed.

#[export] Instance minheap_runqueue_unbounded : RunqueueUnbounded heap.
Proof. done. Qed.

#[export] Instance minheap_runqueue_next_laws : RunqueueNextLaws heap.
Proof.
  intros dl q l [B U]. unfold local_runqueue_get_next. cbn. unfold local_runqueue_minheap_get_next.
  assert (Hacc : pq_accessible q = true) by (unfold pq_accessible; by rewrite U).
  destruct (top_bag dl q l B Hacc) as [(a & -> & Ha & _)|(-> & -> & _)]; cbn.
  - by exists (Some a).
  - by exists None.
Qed.
End minheap.

(** ** The global deadline heap (EDF) *)

Section global_minheap.
Context {L : Type} `{SpinLock L}.
Abbreviation heap := (priority_queue L Z).

Definition global_request_scheduler_minheap_add (dl : Z -> Z) (listener : bool) (now later : Z)
  (g : heap) (sandbox : Z) : outcome (option Z * heap) :=
  if negb listener then Stop Panic else
  '(return_code, g) ← priority_queue_enqueue dl now later g sandbox;
  if negb (return_code =? 0) then Ret (None, g) else Ret (Some sandbox, g).

Definition global_request_scheduler_minheap_remove (dl : Z -> Z) (listener : bool) (now later : Z)
  (g : heap) : outcome (Z * option Z * heap) :=
  priority_queue_dequeue dl listener now later g.

Definition global_request_scheduler_minheap_remove_if_earlier (dl : Z -> Z) (listener : bool)
  (now later : Z) (g : heap) (target_deadline : Z) : outcome (Z * option Z * heap) :=
  priority_queue_dequeue_if_earlier dl listener now later g target_deadline.

Definition global_request_scheduler_minheap_peek (g : heap) : outcome Z :=
  Ret (priority_queue_peek g).

Definition global_request_scheduler_minheap_initialize : heap :=
  priority_queue_initialize (Z.to_nat 4096) true.

#[export] Instance minheap_scheduler : GlobalScheduler heap := {|
  gs_add_fn := global_request_scheduler_minheap_add;
  gs_remove_fn := global_request_scheduler_minheap_remove;
  gs_remove_if_earlier_fn := global_request_scheduler_minheap_remove_if_earlier;
  gs_peek_fn := global_request_scheduler_minheap_peek;
|}.
End global_minheap.

(** ** The global deque (FIFO) *)

Definition GLOBAL_REQUEST_SCHEDULER_DEQUE_CAPACITY : Z := 2 ^ 19.

Definition global_request_scheduler_deque_add (g : deque Z) (sandbox : Z)
  : outcome (option Z * deque Z) :=
  '(return_code, g) ← deque_push g (Some sandbox);
  if negb (return_code =? 0) then Ret (None, g) else Ret (Some sandbox, g).

(** [*removed_sandbox] keeps its NULL when nothing is written to it. *)
Definition global_request_scheduler_deque_remove (g : deque Z) : outcome (Z * option Z * deque Z) :=
  '(rc, w, g) ← deque_steal g;
  Ret (rc, default None w, g).

Definition global_request_scheduler_deque_initialize : outcome (deque Z) :=
  deque_init GLOBAL_REQUEST_SCHEDULER_DEQUE_CAPACITY.

(** The variant registers no peek function: peeking calls through NULL. *)
#[export] Instance deque_scheduler : GlobalScheduler (deque Z) := {|
  gs_add_fn := fun _ _ _ _ => global_request_scheduler_deque_add;
  gs_remove_fn := fun _ _ _ _ => global_request_scheduler_deque_remove;
  gs_remove_if_earlier_fn := fun _ _ _ _ _ _ => Stop Panic;
  gs_peek_fn := fun _ => Stop Undefined;
|}.

(** ** What a global scheduler promises *)

(** A request handed over by the listener is queued or refused; a worker takes
    out one queued request, or nothing. *)
Class GlobalSchedulerLaws (G : Type) `{GlobalScheduler G} := {
  gs_repr : (Z -> Z) -> G -> list Z -> Prop;
  gs_repr_ext dl dl' g l : (forall p, p ∈ l -> dl p = dl' p) -> gs_repr dl g l -> gs_repr dl' g l;
  gs_room : G -> Prop;
  gs_add_ok dl now later g l p :
    deadlines_u64 dl -> gs_repr dl g l -> gs_room g -> 0 < now < later -> later <= UINT64_MAX ->
    exists r g' l', global_request_scheduler_add dl true now later g p = Ret (r, g')
      /\ gs_repr dl g' l'
      /\ match r with Some p' => p' = p /\ l' ≡ₚ p :: l | None => l' ≡ₚ l end;
  gs_remove_ok dl now later g l :
    deadlines_u64 dl -> gs_repr dl g l -> 0 < now < later -> later <= UINT64_MAX ->
    exists rc r g' l', global_request_scheduler_remove dl false now later g = Ret (rc, r, g')
      /\ gs_repr dl g' l'
      /\ match r with Some p => rc = 0 /\ l ≡ₚ p :: l' | None => rc < 0 /\ l' = l end;
}.

Section global_minheap_laws.
Context {L : Type} `{SpinLock L}.
Abbreviation heap := (priority_queue L Z).

#[export] Program Instance minheap_scheduler_laws : GlobalSchedulerLaws heap := {|
  gs_repr := fun dl g l => pq_repr dl g l /\ lock_is_locked (pq_lock g) = false;
  gs_room := fun _ => True;
|}.
Next Obligation.
  intros dl dl' g l E [(W & Hh & M & C) Hl]. split; [|done]. rewrite pq_repr_bag.
  split; [eapply pq_bag_ext; [exact E|]; done | by eapply pq_heap_ext].
Qed.
Next Obligation.
  intros dl now later g l p Hu [R Hl] _ Hn Hm.
  destruct (locked_enqueue_ok dl Hu now later g l p R Hl) as (rc & g' & E & Hl' & HR); [lia..|].
  change (global_request_scheduler_add dl true now later g p)
    with (global_request_scheduler_minheap_add dl true now later g p).
  unfold global_request_scheduler_minheap_add. cbn [negb].
  rewrite E. ostep. destruct HR as [[-> R']|[-> R']]; cbn.
  - exists (Some p), g', (p :: l). done.
  - exists None, g', l. done.
Qed.
Next Obligation.
  intros dl now later g l Hu [R Hl] Hn Hm.
  destruct (locked_dequeue_ok dl now later g l UINT64_MAX R Hl) as (rc & e & g' & E & Hl' & HR); [lia..|].
  change (global_request_scheduler_remove dl false now later g)
    with (priority_queue_dequeue_if_earlier dl false now later g UINT64_MAX). rewrite E.
  destruct e as [a|].
  - destruct HR as (-> & _ & _ & l' & P & R'). exists 0, (Some a), g', l'. done.
  - destruct HR as (-> & R' & _). exists (- ENOENT), None, g', l. done.
Qed.
End global_minheap_laws.

#[export] Program Instance deque_scheduler_laws : GlobalSchedulerLaws (deque Z) := {|
  gs_repr := fun _ => deque_repr;
  gs_room := fun g => dq_bottom g < DEQUE_MAX_SZ;
|}.
Next Obligation. done. Qed.
Next Obligation.
  intros dl now later g l p _ R Hr _ _. unfold global_request_scheduler_add. cbn.
  unfold global_request_scheduler_deque_add.
  destruct (Z.lt_ge_cases (Z.of_nat (length l)) (dq_size g)) as [Hs|Hs].
  - destruct (deque_push_ok g l p R Hs Hr) as (g' & -> & R' & _). cbn.
    exists (Some p), g', (l ++ [p]). split; [done|]. split; [done|]. split; [done|].
    by rewrite Permutation_app_comm.
  - rewrite (deque_push_full g l p R) by lia. cbn. exists None, g, l. done.
Qed.
Next Obligation.
  intros dl now later g l _ R _ _. unfold global_request_scheduler_remove. cbn.
  unfold global_request_scheduler_deque_remove. pose proof (deque_steal_ok g l R) as S.
  destruct l as [|a l].
  - rewrite S. cbn. exists (- ENOENT), None, g, []. done.
  - destruct S as (g' & -> & R' & _). cbn. exists 0, (Some a), g', l. done.
Qed.
