(* ===== verification/PsList.v ===== *)
(** * PsList: the intrusive lists under the queues

    [runtime/include/ps_list.h], and on top of it the linked code of
    [runtime/src/local_runqueue_list.c] and [runtime/src/local_cleanup_queue.c].
    A list is a ring of nodes with a head; a sandbox has one node, which the
    runqueue and the cleanup queue share.  The node is the first member of a
    sandbox, so that both have the same address and [ps_container] is the
    identity. *)

From Stdlib Require Import ZArith Lia.
From S2P Require Import Prelude Lock PriorityQueue Runqueue.
Local Open Scope Z_scope.

(** [struct ps_list]: the fields [n] and [p]. *)
Record ps_list := mk_ps_list { ps_n : Z; ps_p : Z }.

(** The nodes of allocated memory, by address. *)
Abbreviation store := (gmap Z ps_list).
Implicit Types st : store.

Definition ps_get st (l : Z) : outcome ps_list := deref (st !! l).

Definition set_n st (l x : Z) : outcome store := node ← ps_get st l; Ret (<[l := mk_ps_list x (ps_p node)]> st).
Definition set_p st (l x : Z) : outcome store := node ← ps_get st l; Ret (<[l := mk_ps_list (ps_n node) x]> st).

Definition ps_list_ll_init st (l : Z) : outcome store := st ← set_p st l l; set_n st l l.

Definition ps_list_head_init := ps_list_ll_init.

Definition ps_list_ll_empty st (l : Z) : outcome bool := node ← ps_get st l; Ret (ps_n node =? l).

Definition ps_list_ll_one_node st (l : Z) : outcome bool :=
  node ← ps_get st l;
  Ret (negb (ps_n node =? l) && (ps_n node =? ps_p node)).

Definition ps_list_head_one_node := ps_list_ll_one_node.
Definition ps_list_head_empty := ps_list_ll_empty.

Definition ps_list_ll_add st (l new : Z) : outcome store :=
  node ← ps_get st l;
  st ← set_n st new (ps_n node);
  st ← set_p st new l;
  st ← set_n st l new;
  node ← ps_get st new;
  set_p st (ps_n node) new.

Definition ps_list_ll_rem st (l : Z) : outcome store :=
  node ← ps_get st l;
  st ← set_p st (ps_n node) (ps_p node);
  node ← ps_get st l;
  st ← set_n st (ps_p node) (ps_n node);
  st ← set_n st l l;
  set_p st l l.

(** The macros, for the default name of the field. *)
Definition ps_list_singleton_d := ps_list_ll_empty.
Definition ps_list_rem_d := ps_list_ll_rem.
Definition ps_list_head_add_d := ps_list_ll_add.
Definition ps_list_next_d st (o : Z) : outcome Z := node ← ps_get st o; Ret (ps_n node).
Definition ps_list_head_append_d st (lh o : Z) : outcome store := node ← ps_get st lh; ps_list_ll_add st (ps_p node) o.
Definition ps_list_head_first_d st (lh : Z) : outcome Z := node ← ps_get st lh; Ret (ps_n node).

(** [ps_list_foreach_del_d(head, iter, tmp) body]: the successor is read before
    the body runs. *)
Fixpoint foreach_del {S} (body : store -> S -> Z -> outcome (store * S)) (fuel : nat) st (s : S) (lh iter tmp : Z) : outcome (store * S) :=
  match fuel with
  | O => Stop Fuel
  | S fuel =>
    if lh =? iter then Ret (st, s) else
    '(st, s) ← body st s iter;
    next ← ps_list_next_d st tmp;
    foreach_del body fuel st s lh tmp next
  end.

Definition ps_list_foreach_del_d {S} (body : store -> S -> Z -> outcome (store * S)) st (s : S) (lh : Z) : outcome (store * S) :=
  iter ← ps_list_head_first_d st lh;
  tmp ← ps_list_next_d st iter;
  foreach_del body (Datatypes.S (size st)) st s lh iter tmp.

(** ** The round-robin runqueue *)

Section runqueue.
Variable local_runqueue_list : Z.   (* the address of the head *)

Definition linked_is_empty st : outcome bool := ps_list_head_empty st local_runqueue_list.
Definition linked_get_head st : outcome Z := ps_list_head_first_d st local_runqueue_list.
Definition linked_remove st (sandbox_to_remove : Z) : outcome store := ps_list_rem_d st sandbox_to_remove.

Definition linked_remove_and_return st : outcome (Z * store) :=
  sandbox_to_remove ← ps_list_head_first_d st local_runqueue_list;
  st ← ps_list_rem_d st sandbox_to_remove;
  Ret (sandbox_to_remove, st).

Definition linked_append st (sandbox_to_append : Z) : outcome store :=
  singleton ← ps_list_singleton_d st sandbox_to_append;
  assert singleton ;;
  ps_list_head_append_d st local_runqueue_list sandbox_to_append.

(** [interrupted p] is [p->state == SANDBOX_INTERRUPTED], if [p] is a sandbox. *)
Definition linked_rotate (interrupted : Z -> option bool) st : outcome store :=
  one ← ps_list_head_one_node st local_runqueue_list;
  if (one : bool) then Ret st else
  '(sandbox_at_head, st) ← linked_remove_and_return st;
  b ← deref (interrupted sandbox_at_head);
  assert b ;;
  linked_append st sandbox_at_head.

Definition linked_get_next st : outcome (option Z) :=
  empty ← linked_is_empty st;
  if (empty : bool) then Ret None else Some <$> linked_get_head st.
End runqueue.

(** ** The cleanup queue *)

Section cleanup.
Variable local_cleanup_queue : Z.

Definition linked_cleanup_add st (sandbox : Z) : outcome store :=
  singleton ← ps_list_singleton_d st sandbox;
  assert singleton ;;
  st ← ps_list_head_append_d st local_cleanup_queue sandbox;
  empty ← ps_list_head_empty st local_cleanup_queue;
  assert (negb empty) ;;
  Ret st.

(** [sandbox_free] acts on the rest of the world as [free] says and gives the
    memory of the sandbox, with its node, back. *)
Definition cleanup_body {S} (free : S -> Z -> outcome S) st (s : S) (sandbox_iterator : Z) : outcome (store * S) :=
  st ← ps_list_rem_d st sandbox_iterator;
  s ← free s sandbox_iterator;
  Ret (delete sandbox_iterator st, s).

Definition linked_cleanup_free {S} (free : S -> Z -> outcome S) st (s : S) : outcome (store * S) :=
  ps_list_foreach_del_d (cleanup_body free) st s local_cleanup_queue.
End cleanup.
