(* ===== verification/PsListSpec.v ===== *)
(** * PsListSpec: the linked lists are lists

    The nodes in memory form rings; adding and removing a node changes one ring
    and leaves the others alone.  The linked queues of a worker behave like the
    lists that stand for them in the rest of the development. *)

From Stdlib Require Import ZArith Lia.
From S2P Require Import Prelude Lock PriorityQueue Runqueue PsList.
Local Open Scope Z_scope.

Implicit Types st : store.

(** ** Rings *)

Definition nxt st (a : Z) : option Z := ps_n <$> st !! a.
Definition prv st (a : Z) : option Z := ps_p <$> st !! a.

Definition edge st (a b : Z) : Prop := nxt st a = Some b /\ prv st b = Some a.

(** [xs] follow [a], in both directions. *)
Fixpoint links st (a : Z) (xs : list Z) : Prop :=
  match xs with
  | [] => True
  | b :: xs => edge st a b /\ links st b xs
  end.

(** The list [l] with the head [h]. *)
Definition ring st (h : Z) (l : list Z) : Prop := NoDup (h :: l) /\ links st h (l ++ [h]).

(** The end of a path and the start of the rest of a ring. *)
Definition final (a : Z) (xs : list Z) : Z := default a (list.last xs).
Definition first (xs : list Z) (h : Z) : Z := default h (head xs).

Lemma final_cons a b xs : final a (b :: xs) = final b xs.
Proof. unfold final. rewrite last_cons. by destruct (list.last xs). Qed.

Lemma final_snoc a xs x : final a (xs ++ [x]) = x.
Proof. unfold final. by rewrite last_snoc. Qed.

Lemma final_elem a xs : final a xs ∈ a :: xs.
Proof. unfold final. destruct (list.last xs) eqn:E; [right; by apply last_Some_elem_of | left]. Qed.

Lemma first_elem xs h : first xs h ∈ h :: xs.
Proof. destruct xs; [left | right; left]. Qed.

Lemma links_app st xs ys : forall a, links st a (xs ++ ys) <-> links st a xs /\ links st (final a xs) ys.
Proof.
  induction xs as [|b xs IH]; intros a; cbn.
  - unfold final. cbn. tauto.
  - rewrite final_cons, IH. tauto.
Qed.

(** A path depends on the forward fields of all nodes but the last and on the
    backward fields of all but the first. *)
Lemma links_frame st st' xs : forall a,
  links st a xs -> NoDup (a :: xs) ->
  (forall c, c ∈ a :: xs -> c <> final a xs -> nxt st' c = nxt st c) -> (forall c, c ∈ xs -> prv st' c = prv st c) ->
  links st' a xs.
Proof.
  induction xs as [|b xs IH]; intros a Hl Hnd Hn Hp; [done|]. destruct Hl as [[En Ep] Hl].
  pose proof Hnd as [Ha Hnd']%list.NoDup_cons. rewrite final_cons in Hn. split.
  - split; [rewrite Hn; [done | left|] | rewrite Hp; [done | left]]. intros E. apply Ha. rewrite E. apply final_elem.
  - apply IH; [done..| |]; intros c Hc; [intros Hf; apply Hn; [by right | done] | apply Hp; by right].
Qed.

Lemma ring_ext st st' h l : ring st h l -> (forall c, c ∈ h :: l -> st' !! c = st !! c) -> ring st' h l.
Proof.
  intros [Hnd Hl] He. split; [done|]. assert (Hf : forall c, c ∈ h :: l -> nxt st' c = nxt st c /\ prv st' c = prv st c).
  { intros c Hc. unfold nxt, prv. by rewrite (He c Hc). }
  apply links_app in Hl as [Hl Hb]. apply links_app. split.
  - apply (links_frame st); [done..| |]; intros c Hc; [intros _; by apply Hf | apply Hf; by right].
  - destruct Hb as [[En Ep] _]. split; [|done]. split; [rewrite (proj1 (Hf _ (final_elem h l))) | rewrite (proj2 (Hf h ltac:(left)))]; done.
Qed.

Lemma ring_known st h l c : ring st h l -> c ∈ h :: l -> is_Some (st !! c).
Proof.
  intros [_ Hl] Hc. assert (H : prv st c <> None).
  { assert (Hc' : c ∈ l ++ [h]) by (apply elem_of_app; apply elem_of_cons in Hc as [->|Hc]; [right; by left | by left]). clear Hc.
    revert Hl Hc'. generalize h at 1. generalize (l ++ [h]). induction l0 as [|b xs IH]; intros a; [by intros _ ?%elem_of_nil|].
    intros [[_ Ep] Hl] [->|Hc]%elem_of_cons; [by rewrite Ep | by eapply IH]. }
  unfold prv in H. destruct (st !! c); [done|]. by destruct H.
Qed.

Lemma ring_edges st h l1 l2 : ring st h (l1 ++ l2) -> edge st (final h l1) (first l2 h).
Proof.
  intros [_ Hl]. rewrite <- app_assoc in Hl. apply links_app in Hl as [_ Hl]. destruct l2 as [|b l2]; cbn in Hl; by destruct Hl.
Qed.

Lemma final_first_nodup h l1 l2 : NoDup (h :: l1 ++ l2) ->
  NoDup (h :: l1) /\ (forall c, c ∈ l1 -> c <> first l2 h) /\ (forall c, c ∈ l2 -> c <> final h l1).
Proof.
  intros [Hh Hnd]%list.NoDup_cons. apply list.NoDup_app in Hnd as (N1 & Hd & N2). rewrite not_elem_of_app in Hh. destruct Hh as [H1 H2].
  split; [by apply list.NoDup_cons|]. split; intros c Hc ->.
  - pose proof (first_elem l2 h) as [E|E]%elem_of_cons; [by rewrite E in Hc | by apply (Hd _ Hc)].
  - pose proof (final_elem h l1) as [E|E]%elem_of_cons; [by rewrite E in Hc | by apply (Hd _ E)].
Qed.

(** The parts of a ring on both sides of a place, after fields at that place changed. *)
Lemma ring_left st st' h l1 l2 :
  ring st h (l1 ++ l2) -> (forall c, c ∈ h :: l1 -> c <> final h l1 -> nxt st' c = nxt st c) -> (forall c, c ∈ l1 -> prv st' c = prv st c) ->
  links st' h l1.
Proof.
  intros [Hnd Hl] Hn Hp. destruct (final_first_nodup h l1 l2 Hnd) as (N1 & _ & _). rewrite <- app_assoc in Hl.
  apply links_app in Hl as [Hl1 _]. by apply (links_frame st).
Qed.

Lemma ring_right st st' h l1 b l2 :
  ring st h (l1 ++ b :: l2) -> (forall c, c ∈ b :: l2 -> nxt st' c = nxt st c) ->
  (forall c, c ∈ h :: l2 -> c <> b -> prv st' c = prv st c) -> links st' b (l2 ++ [h]).
Proof.
  intros [Hnd Hl] Hn Hp. rewrite <- app_assoc in Hl. apply links_app in Hl as [_ Hl]. cbn in Hl. destruct Hl as [_ Hl].
  assert (Hnd2 : NoDup (b :: l2 ++ [h])).
  { apply list.NoDup_cons in Hnd as [Hh Hnd]. apply list.NoDup_app in Hnd as (_ & _ & N2). apply (list.NoDup_app (b :: l2) [h]).
    split; [done|]. split; [|apply list.NoDup_singleton]. intros c Hc ->%list_elem_of_singleton. apply Hh, elem_of_app. by right. }
  apply (links_frame st); [done..| |]; intros c Hc.
  - rewrite final_snoc. intros Hf. apply Hn. set_solver.
  - apply list.NoDup_cons in Hnd2 as [Hb _]. apply Hp; [set_solver | by intros ->].
Qed.

(** ** The operations on rings *)

Lemma known_nxt st a : is_Some (st !! a) <-> is_Some (nxt st a).
Proof. unfold nxt. by rewrite fmap_is_Some. Qed.

Lemma known_prv st a : is_Some (st !! a) <-> is_Some (prv st a).
Proof. unfold prv. by rewrite fmap_is_Some. Qed.

Lemma ps_get_ok st a b : nxt st a = Some b -> exists node, ps_get st a = Ret node /\ st !! a = Some node /\ ps_n node = b.
Proof. unfold nxt, ps_get. destruct (st !! a) as [node|]; [|done]. intros [= E]. by exists node. Qed.

Lemma set_n_ok st a x : is_Some (st !! a) -> exists st', set_n st a x = Ret st' /\ dom st' = dom st
  /\ (forall c, nxt st' c = if decide (c = a) then Some x else nxt st c) /\ (forall c, prv st' c = prv st c).
Proof.
  intros [node E]. unfold set_n, ps_get. rewrite E. ostep. eexists. split; [done|]. split; [apply dom_insert_lookup_L; by eexists|].
  unfold nxt, prv. split; intros c; destruct (decide (c = a)) as [->|Hc]; rewrite ?lookup_insert_eq, ?lookup_insert_ne, ?E by done; done.
Qed.

Lemma set_p_ok st a x : is_Some (st !! a) -> exists st', set_p st a x = Ret st' /\ dom st' = dom st
  /\ (forall c, prv st' c = if decide (c = a) then Some x else prv st c) /\ (forall c, nxt st' c = nxt st c).
Proof.
  intros [node E]. unfold set_p, ps_get. rewrite E. ostep. eexists. split; [done|]. split; [apply dom_insert_lookup_L; by eexists|].
  unfold nxt, prv. split; intros c; destruct (decide (c = a)) as [->|Hc]; rewrite ?lookup_insert_eq, ?lookup_insert_ne, ?E by done; done.
Qed.

Lemma same_dom st st' a : dom st' = dom st -> is_Some (st !! a) -> is_Some (st' !! a).
Proof. intros E. rewrite <- !elem_of_dom. by rewrite E. Qed.

Lemma lookup_fields st st' c : nxt st' c = nxt st c -> prv st' c = prv st c -> st' !! c = st !! c.
Proof.
  unfold nxt, prv. destruct (st' !! c) as [[]|], (st !! c) as [[]|]; cbn; try done. by intros [= ->] [= ->].
Qed.

Lemma ll_add_ok st l new b :
  nxt st l = Some b -> is_Some (st !! b) -> is_Some (st !! new) -> new <> l -> new <> b ->
  exists st', ps_list_ll_add st l new = Ret st' /\ dom st' = dom st
    /\ (forall c, nxt st' c = if decide (c = l) then Some new else if decide (c = new) then Some b else nxt st c)
    /\ (forall c, prv st' c = if decide (c = b) then Some new else if decide (c = new) then Some l else prv st c).
Proof.
  intros El Hb Hnew Hne1 Hne2. assert (Hl : is_Some (st !! l)) by (apply known_nxt; by rewrite El).
  destruct (ps_get_ok st l b El) as (node & Eg & _ & En). unfold ps_list_ll_add. rewrite Eg. ostep. rewrite En.
  destruct (set_n_ok st new b Hnew) as (st1 & -> & D1 & N1 & P1). ostep.
  destruct (set_p_ok st1 new l (same_dom _ _ _ D1 Hnew)) as (st2 & -> & D2 & P2 & N2). ostep. rewrite D1 in D2.
  destruct (set_n_ok st2 l new (same_dom _ _ _ D2 Hl)) as (st3 & -> & D3 & N3 & P3). ostep. rewrite D2 in D3.
  destruct (ps_get_ok st3 new b) as (node' & -> & _ & En').
  { rewrite N3, decide_False by done. by rewrite N2, N1, decide_True. }
  ostep. rewrite En'. destruct (set_p_ok st3 b new (same_dom _ _ _ D3 Hb)) as (st4 & -> & D4 & P4 & N4).
  exists st4. split; [done|]. split; [by rewrite D4|]. split; intros c.
  - by rewrite N4, N3, N2, N1.
  - by rewrite P4, P3, P2, P1.
Qed.

Lemma ll_rem_ok st l a b :
  nxt st l = Some b -> prv st l = Some a -> nxt st a = Some l -> prv st b = Some l ->
  exists st', ps_list_ll_rem st l = Ret st' /\ dom st' = dom st
    /\ (forall c, nxt st' c = if decide (c = l) then Some l else if decide (c = a) then Some b else nxt st c)
    /\ (forall c, prv st' c = if decide (c = l) then Some l else if decide (c = b) then Some a else prv st c).
Proof.
  intros Eb Ea Ha Hb. assert (Hl : is_Some (st !! l)) by (apply known_nxt; by rewrite Eb).
  assert (Ka : is_Some (st !! a)) by (apply known_nxt; by rewrite Ha). assert (Kb : is_Some (st !! b)) by (apply known_prv; by rewrite Hb).
  unfold ps_list_ll_rem. destruct (ps_get_ok st l b Eb) as (node & -> & Es & En). ostep.
  assert (Ep : ps_p node = a) by (unfold prv in Ea; rewrite Es in Ea; by injection Ea). rewrite En, Ep.
  destruct (set_p_ok st b a Kb) as (st1 & -> & D1 & P1 & N1). ostep.
  destruct (ps_get_ok st1 l b) as (node' & -> & Es' & En'); [by rewrite N1|]. ostep.
  assert (Ep' : ps_p node' = a).
  { pose proof (P1 l) as Hp. unfold prv at 1 in Hp. rewrite Es' in Hp. cbn in Hp. case_decide; [congruence|]. congruence. }
  rewrite En', Ep'. destruct (set_n_ok st1 a b (same_dom _ _ _ D1 Ka)) as (st2 & -> & D2 & N2 & P2). ostep. rewrite D1 in D2.
  destruct (set_n_ok st2 l l (same_dom _ _ _ D2 Hl)) as (st3 & -> & D3 & N3 & P3). ostep. rewrite D2 in D3.
  destruct (set_p_ok st3 l l (same_dom _ _ _ D3 Hl)) as (st4 & -> & D4 & P4 & N4).
  exists st4. split; [done|]. split; [by rewrite D4|]. split; intros c.
  - by rewrite N4, N3, N2, N1.
  - by rewrite P4, P3, P2, P1.
Qed.

(** Nodes outside keep their fields. *)
Definition untouched (inside : list Z) st st' : Prop := forall c, c ∉ inside -> st' !! c = st !! c.

(** Adding after the last of [l1]. *)
Lemma ring_insert st h l1 l2 new :
  ring st h (l1 ++ l2) -> is_Some (st !! new) -> (new ∉ h :: l1 ++ l2) ->
  exists st', ps_list_ll_add st (final h l1) new = Ret st' /\ dom st' = dom st /\ ring st' h (l1 ++ new :: l2)
    /\ untouched (h :: l1 ++ new :: l2) st st'.
Proof.
  intros R Hnew Hn. pose proof R as [Hnd Hl]. destruct (ring_edges st h l1 l2 R) as [En Ep].
  pose proof (final_elem h l1) as Hf. pose proof (first_elem l2 h) as Hb.
  assert (Hin1 : final h l1 ∈ h :: l1 ++ l2) by set_solver. assert (Hin2 : first l2 h ∈ h :: l1 ++ l2) by set_solver.
  destruct (ll_add_ok st (final h l1) new (first l2 h)) as (st' & E & D & N & P);
    [done | by eapply ring_known | done | by intros -> | by intros -> |].
  destruct (final_first_nodup h l1 l2 Hnd) as (_ & F1 & F2).
  assert (Hne : forall c, c ∈ h :: l1 ++ l2 -> c <> new) by by intros c Hc ->.
  exists st'. split; [done|]. split; [done|]. split; [split|].
  - apply list.NoDup_cons in Hnd as [Hh Hnd]. apply list.NoDup_cons. split; [set_solver|].
    rewrite <- Permutation_middle, list.NoDup_cons. split; [set_solver | done].
  - rewrite <- app_assoc. apply links_app. split; [|cbn; split; [split|]].
    + apply (ring_left st st' h l1 l2 R); intros c Hc; [intros Hx; rewrite N | rewrite P]; rewrite !decide_False; auto; apply Hne; set_solver.
    + by rewrite N, decide_True.
    + rewrite P, decide_False by by intros ->. by rewrite decide_True.
    + assert (Hedge : edge st' new (first l2 h)).
      { split; [|by rewrite P, decide_True]. rewrite N, decide_False by by intros ->. by rewrite decide_True. }
      destruct l2 as [|b l2]; [by split|]. split; [exact Hedge|].
      apply (ring_right st st' h l1 b l2 R); intros c Hc; [rewrite N | intros Hx; rewrite P]; rewrite !decide_False; auto; apply Hne; set_solver.
  - intros c Hc. assert (c <> new /\ c <> final h l1 /\ c <> first l2 h) as (? & ? & ?) by set_solver.
    apply lookup_fields; [rewrite N | rewrite P]; by rewrite !decide_False.
Qed.

Lemma ring_remove st h l1 x l2 :
  ring st h (l1 ++ x :: l2) ->
  exists st', ps_list_ll_rem st x = Ret st' /\ dom st' = dom st /\ ring st' h (l1 ++ l2) /\ ring st' x []
    /\ untouched (h :: l1 ++ x :: l2) st st'.
Proof.
  intros R. pose proof R as [Hnd Hl]. pose proof (ring_edges st h l1 (x :: l2) R) as [E1 E2].
  assert (R' : ring st h ((l1 ++ [x]) ++ l2)) by by rewrite <- app_assoc.
  pose proof (ring_edges st h (l1 ++ [x]) l2 R') as [E3 E4]. rewrite final_snoc in E3, E4. cbn [first head default] in E1, E2.
  destruct (ll_rem_ok st x (final h l1) (first l2 h)) as (st' & E & D & N & P); [done..|].
  assert (Hsplit : (x ∉ h :: l1 ++ l2) /\ NoDup (h :: l1 ++ l2)).
  { assert (Hp : h :: l1 ++ x :: l2 ≡ₚ x :: h :: l1 ++ l2) by by rewrite <- Permutation_middle, Permutation_swap.
    rewrite <- list.NoDup_cons. by rewrite <- Hp. }
  destruct Hsplit as [Hx Hnd']. pose proof (final_elem h l1) as Hf. pose proof (first_elem l2 h) as Hb.
  assert (Hne : forall c, c ∈ h :: l1 ++ l2 -> c <> x) by by intros c Hc ->.
  assert (Hfx : final h l1 <> x) by (apply Hne; set_solver). assert (Hbx : first l2 h <> x) by (apply Hne; set_solver).
  destruct (final_first_nodup h l1 l2 Hnd') as (_ & F1 & F2).
  exists st'. split; [done|]. split; [done|]. split; [split; [done|] | split; [split; [apply list.NoDup_singleton|]|]].
  - rewrite <- app_assoc. apply links_app. split.
    + apply (ring_left st st' h l1 (x :: l2) R); intros c Hc; [intros Hc'; rewrite N | rewrite P]; rewrite !decide_False; auto; apply Hne; set_solver.
    + assert (Hedge : edge st' (final h l1) (first l2 h)).
      { split; [rewrite N | rewrite P]; rewrite decide_False by done; by rewrite decide_True. }
      destruct l2 as [|b l2]; [by split|]. split; [exact Hedge|].
      apply (ring_right st st' h (l1 ++ [x]) b l2 R'); intros c Hc; [rewrite N | intros Hc'; rewrite P]; rewrite !decide_False; auto; apply Hne; set_solver.
  - split; [|done]. split; [by rewrite N, decide_True | by rewrite P, decide_True].
  - intros c Hc. assert (c <> x /\ c <> final h l1 /\ c <> first l2 h) as (? & ? & ?) by set_solver.
    apply lookup_fields; [rewrite N | rewrite P]; by rewrite !decide_False.
Qed.

(** ** Several rings in one memory *)

Definition nodes (rs : list (Z * list Z)) : list Z := concat ((fun r => r.1 :: r.2) <$> rs).

(** The memory holds exactly the rings [rs]. *)
Record rings st (rs : list (Z * list Z)) : Prop := {
  rg_nodup : NoDup (nodes rs);
  rg_ring h l : (h, l) ∈ rs -> ring st h l;
  rg_dom c : is_Some (st !! c) <-> c ∈ nodes rs;
}.

#[export] Instance nodes_perm : Proper ((≡ₚ) ==> (≡ₚ)) nodes.
Proof. intros rs rs' P. unfold nodes. by rewrite P. Qed.

Lemma rings_perm st rs rs' : rs ≡ₚ rs' -> rings st rs -> rings st rs'.
Proof.
  intros P [N R D]. split; [by rewrite <- P | intros h l; rewrite <- P; apply R | intros c; rewrite <- P; apply D].
Qed.

Lemma nodes_cons h l rs : nodes ((h, l) :: rs) = (h :: l) ++ nodes rs.
Proof. done. Qed.

Lemma nodes_elem h l rs c : (h, l) ∈ rs -> c ∈ h :: l -> c ∈ nodes rs.
Proof.
  intros Hr Hc. unfold nodes. apply list_elem_of_In, in_concat. exists (h :: l). split; [|by apply list_elem_of_In].
  apply list_elem_of_In, list_elem_of_fmap. by exists (h, l).
Qed.

(** Rings beside the ones that changed stay. *)
Lemma rings_others st st' inside rs :
  (forall h l, (h, l) ∈ rs -> ring st h l) -> (forall c, c ∈ inside -> c ∉ nodes rs) -> untouched inside st st' ->
  forall h l, (h, l) ∈ rs -> ring st' h l.
Proof.
  intros R Hd U h l Hr. apply (ring_ext st); [by apply R|]. intros c Hc. apply U. intros Hi. by apply (Hd c Hi), (nodes_elem h l).
Qed.

Lemma rings_insert st h l1 l2 x rs :
  rings st ((h, l1 ++ l2) :: (x, []) :: rs) ->
  exists st', ps_list_ll_add st (final h l1) x = Ret st' /\ rings st' ((h, l1 ++ x :: l2) :: rs).
Proof.
  intros [N R D]. assert (Hx : is_Some (st !! x)) by (apply D; rewrite !nodes_cons, elem_of_app; right; left).
  assert (P : nodes ((h, l1 ++ l2) :: (x, []) :: rs) ≡ₚ nodes ((h, l1 ++ x :: l2) :: rs)).
  { rewrite !nodes_cons. cbn. f_equiv. rewrite <- !Permutation_middle. done. }
  pose proof N as N'. rewrite !nodes_cons in N'. apply list.NoDup_app in N' as (_ & Hd & _).
  destruct (ring_insert st h l1 l2 x) as (st' & E & Dm & R' & U); [apply R; left | done | |].
  { intros Hi. apply (Hd x Hi). left. }
  exists st'. split; [done|]. split; [by rewrite <- P | |].
  - intros h' l' [[= -> ->]|Hr]%elem_of_cons; [done|]. revert h' l' Hr. apply (rings_others st st' (h :: l1 ++ x :: l2)); [|clear R|done].
    + intros h' l' Hr. apply R. by do 2 right.
    + intros c Hc Hc'. rewrite P, nodes_cons in N. apply list.NoDup_app in N as (_ & Hd' & _). by apply (Hd' c).
  - intros c. rewrite <- P, <- D, <- !elem_of_dom. by rewrite Dm.
Qed.

Lemma rings_remove st h l1 x l2 rs :
  rings st ((h, l1 ++ x :: l2) :: rs) ->
  exists st', ps_list_ll_rem st x = Ret st' /\ rings st' ((h, l1 ++ l2) :: (x, []) :: rs).
Proof.
  intros [N R D]. assert (P : nodes ((h, l1 ++ x :: l2) :: rs) ≡ₚ nodes ((h, l1 ++ l2) :: (x, []) :: rs)).
  { rewrite !nodes_cons. cbn. f_equiv. rewrite <- !Permutation_middle. done. }
  destruct (ring_remove st h l1 x l2) as (st' & E & Dm & R' & R'' & U); [apply R; left|].
  exists st'. split; [done|]. split; [by rewrite <- P | |].
  - intros h' l' [[= -> ->]|[[= -> ->]|Hr]%elem_of_cons]%elem_of_cons; [done..|]. revert h' l' Hr.
    apply (rings_others st st' (h :: l1 ++ x :: l2)); [|clear R|done].
    + intros h' l' Hr. apply R. by right.
    + intros c Hc Hc'. rewrite nodes_cons in N. apply list.NoDup_app in N as (_ & Hd' & _). by apply (Hd' c).
  - intros c. rewrite <- P, <- D, <- !elem_of_dom. by rewrite Dm.
Qed.

Lemma rings_delete st x rs : rings st ((x, []) :: rs) -> rings (delete x st) rs.
Proof.
  intros [N R D]. rewrite nodes_cons in N. apply list.NoDup_cons in N as [Hx N]. split; [done | |].
  - apply (rings_others st (delete x st) [x]); [intros h l Hr; apply R; by right | by intros c ->%list_elem_of_singleton|].
    intros c Hc. apply lookup_delete_ne. intros ->. apply Hc. left.
  - intros c. rewrite lookup_delete_is_Some, D, nodes_cons, elem_of_app, elem_of_cons, elem_of_nil. split.
    + intros [Hne [[->|[]]|Hc]]; done.
    + intros Hc. split; [by intros -> | by right].
Qed.

(** A new node. *)
Lemma rings_init st x junk rs : rings st rs -> (x ∉ nodes rs) ->
  exists st', ps_list_ll_init (<[x := junk]> st) x = Ret st' /\ rings st' ((x, []) :: rs).
Proof.
  intros [N R D] Hx. unfold ps_list_ll_init, set_p, set_n, ps_get. rewrite !lookup_insert_eq. ostep. rewrite !lookup_insert_eq. ostep.
  eexists. split; [done|]. rewrite !insert_insert_eq. cbn. split.
  - rewrite nodes_cons. by apply list.NoDup_cons.
  - intros h l [[= -> ->]|Hr]%elem_of_cons.
    + split; [apply list.NoDup_singleton|]. by repeat split; unfold nxt, prv; rewrite lookup_insert_eq.
    + revert h l Hr. apply (rings_others st _ [x]); [done | by intros c ->%list_elem_of_singleton|].
      intros c Hc. apply lookup_insert_ne. intros ->. apply Hc. left.
  - intros c. rewrite nodes_cons, elem_of_app, list_elem_of_singleton. destruct (decide (c = x)) as [->|Hne].
    + rewrite lookup_insert_eq. split; [by left | by eexists].
    + rewrite lookup_insert_ne, D by done. naive_solver.
Qed.

(** ** Reading a ring *)

Lemma ring_first st h l : ring st h l -> ps_list_head_first_d st h = Ret (first l h).
Proof.
  intros R. destruct (ring_edges st h [] l R) as [En _]. destruct (ps_get_ok st h (first l h) En) as (node & E & _ & Ex).
  unfold ps_list_head_first_d. rewrite E. ostep. by rewrite Ex.
Qed.

Lemma ring_empty st h l : ring st h l -> ps_list_ll_empty st h = Ret (bool_decide (l = [])).
Proof.
  intros R. destruct (ring_edges st h [] l R) as [En _]. destruct (ps_get_ok st h (first l h) En) as (node & E & _ & Ex).
  unfold ps_list_ll_empty. rewrite E. ostep. rewrite Ex. f_equal. destruct R as [[Hh _]%list.NoDup_cons _]. destruct l as [|x l]; cbn.
  - by rewrite Z.eqb_refl.
  - apply Z.eqb_neq. intros ->. apply Hh. left.
Qed.

(** A node of a list is not alone. *)
Lemma ring_member st h l x : ring st h l -> x ∈ l -> ps_list_ll_empty st x = Ret false.
Proof.
  intros R (l1 & l2 & ->)%list_elem_of_split. rewrite cons_middle, app_assoc in R. destruct (ring_edges st h (l1 ++ [x]) l2 R) as [En _].
  rewrite final_snoc in En. destruct (ps_get_ok st x (first l2 h) En) as (node & E & _ & Ex).
  unfold ps_list_ll_empty. rewrite E. ostep. rewrite Ex. f_equal. apply Z.eqb_neq. destruct R as [Hnd _]. rewrite <- app_assoc in Hnd.
  assert (Hp : h :: l1 ++ [x] ++ l2 ≡ₚ x :: h :: l1 ++ l2) by (cbn; by rewrite <- Permutation_middle, Permutation_swap).
  rewrite Hp in Hnd. apply list.NoDup_cons in Hnd as [Hx _]. intros E'. apply Hx. rewrite <- E'.
  pose proof (first_elem l2 h) as [->|Hf]%elem_of_cons; [left | right; apply elem_of_app; by right].
Qed.

Lemma ring_prev st h l : ring st h l -> exists node, ps_get st h = Ret node /\ ps_n node = first l h /\ ps_p node = final h l.
Proof.
  intros R. destruct (ring_edges st h [] l R) as [En _]. assert (R' : ring st h (l ++ [])) by by rewrite app_nil_r.
  destruct (ring_edges st h l [] R') as [_ Ep]. cbn in Ep. destruct (ps_get_ok st h (first l h) En) as (node & E & Es & Ex).
  exists node. split; [done|]. split; [done|]. unfold prv in Ep. rewrite Es in Ep. by injection Ep.
Qed.

Lemma ring_one_node st h l : ring st h l -> ps_list_head_one_node st h = Ret (bool_decide (length l = 1%nat)).
Proof.
  intros R. destruct (ring_prev st h l R) as (node & E & En & Ep). unfold ps_list_head_one_node, ps_list_ll_one_node. rewrite E. ostep.
  rewrite En, Ep. f_equal. destruct R as [[Hh Hnd]%list.NoDup_cons _]. destruct l as [|x [|y l]]; [cbn; by rewrite Z.eqb_refl|..];
    change (first (x :: ?[r]) h) with x; rewrite (proj2 (Z.eqb_neq x h)) by (intros ->; apply Hh; left).
  - change (final h [x]) with x. by rewrite Z.eqb_refl.
  - rewrite (proj2 (Z.eqb_neq x (final h (x :: y :: l)))); [done|]. rewrite !final_cons. intros ->. apply list.NoDup_cons in Hnd as [Hx _].
    apply Hx, final_elem.
Qed.

Lemma rings_append st h l x rs : rings st ((h, l) :: (x, []) :: rs) ->
  exists st', ps_list_head_append_d st h x = Ret st' /\ rings st' ((h, l ++ [x]) :: rs).
Proof.
  intros G. destruct (ring_prev st h l) as (node & E & _ & Ep); [apply (rg_ring _ _ G); left|].
  unfold ps_list_head_append_d. rewrite E. ostep. rewrite Ep. apply (rings_insert st h l []). by rewrite app_nil_r.
Qed.

(** ** Freeing while iterating *)

Definition all_freed {S} (free : S -> Z -> outcome S) (s : S) (l : list Z) : outcome S :=
  foldl (fun m p => s ← m; free s p) (Ret s) l.

Lemma all_freed_cons {S} (free : S -> Z -> outcome S) s p l : all_freed free s (p :: l) = (s ← free s p; all_freed free s l).
Proof.
  unfold all_freed. cbn. ostep. destruct (free s p) as [s'|f]; [done|]. ostep. by induction l.
Qed.

Section free.
Context {S : Type} (free : S -> Z -> outcome S) (c : Z).

Lemma cleanup_body_ok st s x l rs : rings st ((c, x :: l) :: rs) ->
  match free s x with
  | Ret s' => exists st', cleanup_body free st s x = Ret (st', s') /\ rings st' ((c, l) :: rs)
  | Stop f => cleanup_body free st s x = Stop f
  end.
Proof.
  intros G. destruct (rings_remove st c [] x l rs G) as (st' & E & G'). unfold cleanup_body. unfold ps_list_rem_d. rewrite E. ostep.
  destruct (free s x) as [s'|f]; ostep; [|done]. eexists. split; [done|]. apply rings_delete. revert G'. apply rings_perm, Permutation_swap.
Qed.

Lemma foreach_ok l : forall fuel st s rs tmp,
  (length l < fuel)%nat -> rings st ((c, l) :: rs) -> nxt st (first l c) = Some tmp ->
  match all_freed free s l with
  | Ret s' => exists st', foreach_del (cleanup_body free) fuel st s c (first l c) tmp = Ret (st', s') /\ rings st' ((c, []) :: rs)
  | Stop f => foreach_del (cleanup_body free) fuel st s c (first l c) tmp = Stop f
  end.
Proof.
  induction l as [|x l IH]; intros [|fuel] st s rs tmp Hf G Et; cbn in Hf; try lia; cbn [foreach_del first head default].
  - cbn. rewrite Z.eqb_refl. by exists st.
  - pose proof (rg_ring _ _ G c (x :: l) ltac:(left)) as R. assert (Hx : c <> x) by (destruct R as [[Hh _]%list.NoDup_cons _]; intros ->; apply Hh; left).
    assert (tmp = first l c) as ->.
    { destruct (ring_edges st c [x] l R) as [En _]. cbn in En. cbn in Et. congruence. }
    change (id x) with x. rewrite (proj2 (Z.eqb_neq c x) Hx), all_freed_cons. pose proof (cleanup_body_ok st s x l rs G) as Hb.
    destruct (free s x) as [s'|f]; ostep; [|by rewrite Hb]. destruct Hb as (st' & -> & G'). ostep.
    pose proof (rg_ring _ _ G' c l ltac:(left)) as R'. destruct (nxt st' (first l c)) as [next|] eqn:En.
    + destruct (ps_get_ok st' (first l c) next En) as (node & E & _ & Ex). unfold ps_list_next_d. rewrite E. ostep. rewrite Ex.
      apply IH; [lia | done | done].
    + exfalso. apply (is_Some_None (A := Z)). rewrite <- En. apply known_nxt. eapply ring_known; [exact R' | apply first_elem].
Qed.

Lemma nodes_length st rs : rings st rs -> length (nodes rs) = size st.
Proof.
  intros [N _ D]. rewrite <- size_dom. rewrite <- (size_list_to_set (C := gset Z)) by done. f_equal. apply set_eq. intros x.
  by rewrite elem_of_list_to_set, elem_of_dom, D.
Qed.

Lemma cleanup_free_ok st s l rs : rings st ((c, l) :: rs) ->
  match all_freed free s l with
  | Ret s' => exists st', linked_cleanup_free c free st s = Ret (st', s') /\ rings st' ((c, []) :: rs)
  | Stop f => linked_cleanup_free c free st s = Stop f
  end.
Proof.
  intros G. pose proof (rg_ring _ _ G c l ltac:(left)) as R. unfold linked_cleanup_free, ps_list_foreach_del_d. rewrite (ring_first st c l R). ostep.
  destruct (nxt st (first l c)) as [tmp|] eqn:En.
  - destruct (ps_get_ok st (first l c) tmp En) as (node & E & _ & Ex). unfold ps_list_next_d at 1 2. rewrite E. ostep. rewrite Ex.
    apply foreach_ok; [|done..]. pose proof (nodes_length st _ G) as Hl. rewrite nodes_cons, length_app in Hl. cbn in Hl. lia.
  - exfalso. apply (is_Some_None (A := Z)). rewrite <- En. apply known_nxt. eapply ring_known; [exact R | apply first_elem].
Qed.
End free.

(** ** The queues of a worker *)

Section queues.
Context {S : Type} (free : S -> Z -> outcome S).
Variables (r c : Z).   (* the heads of the runqueue and of the cleanup queue *)

(** The calls, with the state of the sandboxes at a rotation. *)
Inductive call :=
| Init (x : Z) (junk : ps_list)   (* [ps_list_init_d] of new memory *)
| Append (x : Z)
| Remove (x : Z)
| Rotate (interrupted : Z -> option bool)
| GetNext
| IsEmpty
| CleanupAdd (x : Z)
| CleanupFree.

Inductive answer := Done | Next (o : option Z) | Empty (b : bool).

Definition linked_call (st : store) (s : S) (k : call) : outcome (answer * store * S) :=
  match k with
  | Init x junk => st ← ps_list_ll_init (<[x := junk]> st) x; Ret (Done, st, s)
  | Append x => st ← linked_append r st x; Ret (Done, st, s)
  | Remove x => st ← linked_remove st x; Ret (Done, st, s)
  | Rotate interrupted => st ← linked_rotate r interrupted st; Ret (Done, st, s)
  | GetNext => o ← linked_get_next r st; Ret (Next o, st, s)
  | IsEmpty => b ← linked_is_empty r st; Ret (Empty b, st, s)
  | CleanupAdd x => st ← linked_cleanup_add c st x; Ret (Done, st, s)
  | CleanupFree => '(st, s) ← linked_cleanup_free c free st s; Ret (Done, st, s)
  end.

(** The same with lists: the runqueue of [Runqueue], the cleanup queue and the
    sandboxes that are on neither. *)
Record lists := mk_lists { ls_queue : list Z; ls_cleanup : list Z; ls_idle : list Z }.

Definition list_call (l : lists) (s : S) (k : call) : outcome (answer * lists * S) :=
  let q := mk_runqueue_list (ls_queue l) in
  match k with
  | Init x _ => Ret (Done, mk_lists (ls_queue l) (ls_cleanup l) (x :: ls_idle l), s)
  | Append x =>
    assert (bool_decide (x ∉ ls_cleanup l)) ;;
    q ← local_runqueue_list_append q x;
    Ret (Done, mk_lists (rql_list q) (ls_cleanup l) (unlink x (ls_idle l)), s)
  | Remove x =>
    q ← local_runqueue_list_remove q x;
    Ret (Done, mk_lists (rql_list q) (unlink x (ls_cleanup l)) (x :: unlink x (ls_idle l)), s)
  | Rotate interrupted =>
    q ← local_runqueue_list_rotate (fun x => default false (interrupted x)) q;
    Ret (Done, mk_lists (rql_list q) (ls_cleanup l) (ls_idle l), s)
  | GetNext => o ← local_runqueue_list_get_next q; Ret (Next o, l, s)
  | IsEmpty => b ← local_runqueue_list_is_empty q; Ret (Empty b, l, s)
  | CleanupAdd x =>
    assert (bool_decide (x ∉ ls_queue l)) ;;
    assert (bool_decide (x ∉ ls_cleanup l)) ;;
    Ret (Done, mk_lists (ls_queue l) (ls_cleanup l ++ [x]) (unlink x (ls_idle l)), s)
  | CleanupFree =>
    s ← foldl (fun m p => s ← m; free s p) (Ret s) (ls_cleanup l);
    Ret (Done, mk_lists (ls_queue l) [] (ls_idle l), s)
  end.

Definition sandboxes_of (l : lists) : list Z := ls_queue l ++ ls_cleanup l ++ ls_idle l.

(** What the callers see to: a call is about a sandbox that exists, a new one
    is not in use, and at a rotation the sandboxes, and only they, have a state. *)
Definition proper (l : lists) (k : call) : Prop :=
  match k with
  | Init x _ => x ∉ r :: c :: sandboxes_of l
  | Append x | Remove x | CleanupAdd x => x ∈ sandboxes_of l
  | Rotate interrupted => interrupted r = None /\ forall x, x ∈ ls_queue l -> is_Some (interrupted x)
  | GetNext | IsEmpty | CleanupFree => True
  end.

Definition represents (st : store) (l : lists) : Prop :=
  rings st ((r, ls_queue l) :: (c, ls_cleanup l) :: ((fun x => (x, [])) <$> ls_idle l)).

Lemma nodes_idle xs : nodes ((fun x => (x, [])) <$> xs) = xs.
Proof. induction xs as [|x xs IH]; [done|]. rewrite fmap_cons, nodes_cons, IH. done. Qed.

Lemma represents_nodup st l : represents st l -> NoDup (r :: ls_queue l ++ c :: ls_cleanup l ++ ls_idle l).
Proof. intros [N _ _]. by rewrite !nodes_cons, nodes_idle, <- ?app_assoc in N. Qed.

Lemma idle_split x xs : x ∈ xs -> NoDup xs -> xs ≡ₚ x :: unlink x xs.
Proof.
  intros (l1 & l2 & ->)%list_elem_of_split Hnd. assert (P : l1 ++ x :: l2 ≡ₚ x :: l1 ++ l2) by by rewrite <- Permutation_middle.
  rewrite P in Hnd. apply list.NoDup_cons in Hnd as [Hx _]. rewrite (unlink_perm x _ _ P Hx). exact P.
Qed.

Lemma unlink_middle x l1 l2 : NoDup (l1 ++ x :: l2) -> unlink x (l1 ++ x :: l2) = l1 ++ l2.
Proof.
  intros (_ & Hd & [Hx _]%list.NoDup_cons)%list.NoDup_app. unfold unlink. rewrite list.filter_app. f_equal.
  - apply unlink_notin. intros H1. apply (Hd x H1). left.
  - by apply unlink_head.
Qed.

(** A sandbox is on one of the lists only. *)
Lemma represents_where st l x : represents st l -> x ∈ sandboxes_of l ->
  x <> r /\ x <> c /\
  ((x ∈ ls_queue l) /\ (x ∉ ls_cleanup l) /\ (x ∉ ls_idle l)
   \/ (x ∉ ls_queue l) /\ (x ∈ ls_cleanup l) /\ (x ∉ ls_idle l)
   \/ (x ∉ ls_queue l) /\ (x ∉ ls_cleanup l) /\ (x ∈ ls_idle l)).
Proof.
  intros N%represents_nodup Hx. unfold sandboxes_of in Hx. apply list.NoDup_cons in N as [Hr N]. apply list.NoDup_app in N as (_ & Hq & N).
  apply list.NoDup_cons in N as [Hc N]. apply list.NoDup_app in N as (_ & Hcl & _).
  rewrite elem_of_app, elem_of_cons, elem_of_app in Hr. rewrite elem_of_app in Hc.
  assert (Hq' : forall y, y ∈ ls_queue l -> y <> c /\ (y ∉ ls_cleanup l) /\ (y ∉ ls_idle l)).
  { intros y Hy. pose proof (Hq y Hy) as Hn. rewrite elem_of_cons, elem_of_app in Hn. tauto. }
  rewrite !elem_of_app in Hx. destruct Hx as [Hx|[Hx|Hx]].
  - destruct (Hq' x Hx) as (? & ? & ?). split; [intros ->; tauto|]. tauto.
  - assert (x ∉ ls_queue l) by (intros Hy; by destruct (Hq' x Hy) as (_ & ? & _)). pose proof (Hcl x Hx).
    split; [intros ->; tauto|]. split; [intros ->; tauto|]. tauto.
  - assert (x ∉ ls_queue l) by (intros Hy; by destruct (Hq' x Hy) as (_ & _ & ?)). assert (x ∉ ls_cleanup l) by (intros Hy; by apply (Hcl x Hy)).
    split; [intros ->; tauto|]. split; [intros ->; tauto|]. tauto.
Qed.

Lemma represents_rings st l : represents st l ->
  ring st r (ls_queue l) /\ ring st c (ls_cleanup l) /\ (forall x, x ∈ ls_idle l -> ring st x []) /\ NoDup (ls_idle l).
Proof.
  intros G. split; [apply (rg_ring _ _ G); left|]. split; [apply (rg_ring _ _ G); right; left|]. split.
  - intros x Hx. apply (rg_ring _ _ G). do 2 right. apply list_elem_of_fmap. by exists x.
  - apply represents_nodup in G. apply list.NoDup_cons in G as [_ G]. apply list.NoDup_app in G as (_ & _ & G).
    apply list.NoDup_cons in G as [_ G]. by apply list.NoDup_app in G as (_ & _ & G).
Qed.

(** Taking one sandbox out of the idle ones. *)
Lemma represents_take st l x : represents st l -> x ∈ ls_idle l ->
  rings st ((r, ls_queue l) :: (c, ls_cleanup l) :: (x, []) :: ((fun x => (x, [])) <$> unlink x (ls_idle l))).
Proof.
  intros G Hx. destruct (represents_rings st l G) as (_ & _ & _ & Hnd). revert G. apply rings_perm. do 2 f_equiv.
  rewrite <- (fmap_cons (fun x => (x, []))). f_equiv. by apply idle_split.
Qed.

Lemma rem_alone st x : ring st x [] -> ps_list_ll_rem st x = Ret st.
Proof.
  intros R. destruct (ring_edges st x [] [] R) as [En Ep]. cbn in En, Ep. destruct (ll_rem_ok st x x x) as (st' & E & _ & N & P); [done..|].
  rewrite E. f_equal. apply map_eq. intros a. apply lookup_fields; [rewrite N | rewrite P]; by case_decide as Ha; [rewrite Ha|].
Qed.

(** The two calls that append to a list. *)
Lemma alone_idle st l x : represents st l -> x ∈ sandboxes_of l ->
  ps_list_singleton_d st x = Ret (bool_decide (x ∉ ls_queue l ++ ls_cleanup l)).
Proof.
  intros G Hx. destruct (represents_rings st l G) as (Rq & Rc & Ri & _).
  destruct (represents_where st l x G Hx) as (_ & _ & [(H1 & H2 & _)|[(H1 & H2 & _)|(H1 & H2 & H3)]]); unfold ps_list_singleton_d.
  - rewrite (ring_member st r _ x Rq H1). f_equal. symmetry. apply bool_decide_false. rewrite elem_of_app. tauto.
  - rewrite (ring_member st c _ x Rc H2). f_equal. symmetry. apply bool_decide_false. rewrite elem_of_app. tauto.
  - rewrite (ring_empty st x [] (Ri x H3)). f_equal. rewrite !bool_decide_true; [done | rewrite elem_of_app; tauto | done].
Qed.

Lemma append_step st l x : represents st l -> x ∈ ls_idle l ->
  exists st', ps_list_head_append_d st r x = Ret st'
    /\ represents st' (mk_lists (ls_queue l ++ [x]) (ls_cleanup l) (unlink x (ls_idle l))).
Proof.
  intros G Hx. pose proof (represents_take st l x G Hx) as G'. destruct (rings_append st r (ls_queue l) x
    ((c, ls_cleanup l) :: ((fun x => (x, [])) <$> unlink x (ls_idle l)))) as (st' & E & G''); [|by exists st'].
  revert G'. apply rings_perm. f_equiv. apply Permutation_swap.
Qed.

Lemma cleanup_step st l x : represents st l -> x ∈ ls_idle l ->
  exists st', ps_list_head_append_d st c x = Ret st'
    /\ represents st' (mk_lists (ls_queue l) (ls_cleanup l ++ [x]) (unlink x (ls_idle l))).
Proof.
  intros G Hx. pose proof (represents_take st l x G Hx) as G'. destruct (rings_append st c (ls_cleanup l) x
    ((r, ls_queue l) :: ((fun x => (x, [])) <$> unlink x (ls_idle l)))) as (st' & E & G''); [|exists st'; split; [done|]].
  - revert G'. apply rings_perm. rewrite Permutation_swap. f_equiv. apply Permutation_swap.
  - revert G''. apply rings_perm, Permutation_swap.
Qed.

Lemma remove_step st l x : represents st l -> x ∈ sandboxes_of l ->
  exists st', ps_list_ll_rem st x = Ret st'
    /\ represents st' (mk_lists (unlink x (ls_queue l)) (unlink x (ls_cleanup l)) (x :: unlink x (ls_idle l))).
Proof.
  intros G Hx. destruct (represents_rings st l G) as (Rq & Rc & Ri & Hnd).
  destruct (represents_where st l x G Hx) as (_ & _ & [(H1 & H2 & H3)|[(H1 & H2 & H3)|(H1 & H2 & H3)]]).
  - rewrite (unlink_notin x (ls_cleanup l)), (unlink_notin x (ls_idle l)) by done. apply list_elem_of_split in H1 as (l1 & l2 & E).
    rewrite E, unlink_middle by (destruct Rq as [[_ Nq]%list.NoDup_cons _]; by rewrite <- E). unfold represents in G. rewrite E in G.
    destruct (rings_remove st r l1 x l2 _ G) as (st' & Es & G'). exists st'. split; [done|]. revert G'. apply rings_perm. f_equiv. apply Permutation_swap.
  - rewrite (unlink_notin x (ls_queue l)), (unlink_notin x (ls_idle l)) by done. apply list_elem_of_split in H2 as (l1 & l2 & E).
    rewrite E, unlink_middle by (destruct Rc as [[_ Nq]%list.NoDup_cons _]; by rewrite <- E). unfold represents in G. rewrite E in G.
    apply (rings_perm _ _ _ (Permutation_swap _ _ _)) in G.
    destruct (rings_remove st c l1 x l2 _ G) as (st' & Es & G'). exists st'. split; [done|]. revert G'. apply rings_perm.
    symmetry. apply (Permutation_middle [_; _]).
  - rewrite (unlink_notin x (ls_queue l)), (unlink_notin x (ls_cleanup l)) by done. exists st. split; [by apply rem_alone, Ri|].
    revert G. apply rings_perm. do 2 f_equiv. cbn [ls_idle]. f_equiv. by apply idle_split.
Qed.

(** A call on the linked lists agrees with the one on lists. *)
Definition agrees (m : outcome (answer * store * S)) (l : outcome (answer * lists * S)) : Prop :=
  match l with
  | Ret (a, l', s') => exists st', m = Ret (a, st', s') /\ represents st' l'
  | Stop f => m = Stop f
  end.

Lemma init_agrees st s l x junk : represents st l -> proper l (Init x junk) -> agrees (linked_call st s (Init x junk)) (list_call l s (Init x junk)).
Proof.
  intros G Hp. destruct (rings_init st x junk _ G) as (st' & E & G').
  { intros Hx. apply Hp. rewrite !nodes_cons, nodes_idle in Hx. unfold sandboxes_of. set_solver. }
  cbn [agrees list_call linked_call]. rewrite E. ostep. eexists. split; [done|]. revert G'. apply rings_perm.
  symmetry. apply (Permutation_middle [_; _] _ (x, [])) || (symmetry; apply (Permutation_middle [_; _] _ (x, []))).
Qed.

Lemma append_agrees st s l x : represents st l -> proper l (Append x) -> agrees (linked_call st s (Append x)) (list_call l s (Append x)).
Proof.
  intros G Hp. cbn [list_call linked_call]. unfold linked_append, local_runqueue_list_append. rewrite (alone_idle st l x G Hp). ostep.
  destruct (represents_where st l x G Hp) as (_ & _ & [(H1 & H2 & _)|[(H1 & H2 & _)|(H1 & H2 & H3)]]).
  - rewrite (bool_decide_true (x ∉ ls_cleanup l)), (bool_decide_false (x ∉ ls_queue l)), (bool_decide_false (x ∉ _ ++ _)) by set_solver. done.
  - rewrite (bool_decide_false (x ∉ ls_cleanup l)), (bool_decide_false (x ∉ _ ++ _)) by set_solver. done.
  - rewrite (bool_decide_true (x ∉ ls_cleanup l)), (bool_decide_true (x ∉ ls_queue l)), (bool_decide_true (x ∉ _ ++ _)) by set_solver.
    destruct (append_step st l x G H3) as (st' & E & G'). ostep. rewrite E. ostep. by exists st'.
Qed.

Lemma cleanup_agrees st s l x : represents st l -> proper l (CleanupAdd x) -> agrees (linked_call st s (CleanupAdd x)) (list_call l s (CleanupAdd x)).
Proof.
  intros G Hp. cbn [list_call linked_call]. unfold linked_cleanup_add. rewrite (alone_idle st l x G Hp). ostep.
  destruct (represents_where st l x G Hp) as (_ & _ & [(H1 & H2 & _)|[(H1 & H2 & _)|(H1 & H2 & H3)]]).
  - rewrite (bool_decide_false (x ∉ ls_queue l)), (bool_decide_false (x ∉ _ ++ _)) by set_solver. done.
  - rewrite (bool_decide_true (x ∉ ls_queue l)), (bool_decide_false (x ∉ ls_cleanup l)), (bool_decide_false (x ∉ _ ++ _)) by set_solver. done.
  - rewrite (bool_decide_true (x ∉ ls_queue l)), (bool_decide_true (x ∉ ls_cleanup l)), (bool_decide_true (x ∉ _ ++ _)) by set_solver.
    destruct (cleanup_step st l x G H3) as (st' & E & G'). ostep. rewrite E. ostep.
    destruct (represents_rings st' _ G') as (_ & Rc & _). unfold ps_list_head_empty. rewrite (ring_empty st' c _ Rc). ostep. cbn [ls_cleanup].
    rewrite (bool_decide_false (ls_cleanup l ++ [x] = [])) by (by destruct (ls_cleanup l)). by exists st'.
Qed.

Lemma rotate_agrees st s l f : represents st l -> proper l (Rotate f) -> agrees (linked_call st s (Rotate f)) (list_call l s (Rotate f)).
Proof.
  intros G [Hr Hq]. destruct (represents_rings st l G) as (Rq & _ & _). cbn [list_call linked_call]. unfold linked_rotate, linked_remove_and_return.
  rewrite (ring_one_node st r _ Rq). ostep. unfold local_runqueue_list_rotate, local_runqueue_list_remove_and_return, local_runqueue_list_get_head.
  destruct l as [[|x [|y q]] cl idle]; cbn [ls_queue rql_list length] in *.
  - rewrite bool_decide_false by done. ostep. rewrite (ring_first st r [] Rq). ostep. unfold ps_list_rem_d. cbn [first head default].
    rewrite (rem_alone st r) by done. ostep. by rewrite Hr.
  - rewrite bool_decide_true by done. ostep. by exists st.
  - rewrite bool_decide_false by done. ostep. rewrite (ring_first st r _ Rq). ostep. change (first (x :: y :: q) r) with x.
    assert (Hx : x ∈ sandboxes_of (mk_lists (x :: y :: q) cl idle)) by left.
    destruct (remove_step st _ x G Hx) as (st1 & E1 & G1). unfold ps_list_rem_d. rewrite E1. ostep. destruct (Hq x ltac:(left)) as [b Eb]. rewrite Eb. cbn [head]. ostep. rewrite ?Eb.
    cbn [default from_option id head]. destruct b; ostep; [|done]. destruct (represents_where st _ x G Hx) as (_ & _ & Hw). cbn [ls_queue ls_cleanup ls_idle] in *.
    assert (Hn : (x ∉ cl) /\ (x ∉ idle)) by (destruct Hw as [(_ & ? & ?)|[(Hw & _)|(Hw & _)]]; [done | by destruct Hw; left | by destruct Hw; left]).
    assert (Hxq : x ∉ y :: q) by by destruct Rq as [[_ [? _]%list.NoDup_cons]%list.NoDup_cons _].
    rewrite (unlink_head x (y :: q) Hxq), (unlink_notin x cl), (unlink_notin x idle) in * by tauto.
    unfold linked_append, local_runqueue_list_append. cbn [rql_list].
    rewrite (alone_idle st1 _ x G1) by (unfold sandboxes_of; cbn; set_solver). cbn [ls_queue ls_cleanup].
    rewrite (bool_decide_true (x ∉ y :: q)), (bool_decide_true (x ∉ _ ++ _)) by set_solver. ostep.
    destruct (append_step st1 _ x G1 ltac:(left)) as (st2 & E2 & G2). cbn [ls_queue ls_cleanup ls_idle] in G2. rewrite E2. ostep.
    exists st2. split; [done|]. by rewrite (unlink_head x idle) in G2 by tauto.
Qed.

Lemma call_agrees st s l k : represents st l -> proper l k -> agrees (linked_call st s k) (list_call l s k).
Proof.
  intros G Hp. destruct (represents_rings st l G) as (Rq & _ & _). destruct k.
  - by apply init_agrees.
  - by apply append_agrees.
  - cbn. destruct (remove_step st l x G Hp) as (st' & E & G'). unfold linked_remove, ps_list_rem_d. rewrite E. ostep. by exists st'.
  - by apply rotate_agrees.
  - cbn. unfold linked_get_next, linked_is_empty, ps_list_head_empty, local_runqueue_list_get_next, local_runqueue_list_is_empty, linked_get_head.
    rewrite (ring_empty st r _ Rq), (ring_first st r _ Rq). ostep. cbn [rql_list]. unfold local_runqueue_list_get_head. cbn [rql_list].
    destruct (ls_queue l) as [|x q]; by exists st.
  - cbn. unfold linked_is_empty, ps_list_head_empty. rewrite (ring_empty st r _ Rq). ostep. by exists st.
  - by apply cleanup_agrees.
  - cbn [linked_call list_call]. pose proof (cleanup_free_ok free c st s (ls_cleanup l) ((r, ls_queue l) :: ((fun x => (x, [])) <$> ls_idle l))
      (rings_perm _ _ _ (Permutation_swap _ _ _) G)) as Hf. unfold all_freed in Hf. destruct (foldl _ _ _) as [s'|f]; ostep.
    + destruct Hf as (st' & -> & G'). ostep. exists st'. split; [done|]. revert G'. apply rings_perm, Permutation_swap.
    + by rewrite Hf.
Qed.

(** Sequences of calls, with their answers. *)
Fixpoint linked_run (st : store) (s : S) (ks : list call) : outcome (list answer * store * S) :=
  match ks with
  | [] => Ret ([], st, s)
  | k :: ks => '(a, st, s) ← linked_call st s k; '(rest, st, s) ← linked_run st s ks; Ret (a :: rest, st, s)
  end.

Fixpoint list_run (l : lists) (s : S) (ks : list call) : outcome (list answer * lists * S) :=
  match ks with
  | [] => Ret ([], l, s)
  | k :: ks => '(a, l, s) ← list_call l s k; '(rest, l, s) ← list_run l s ks; Ret (a :: rest, l, s)
  end.

Fixpoint proper_run (l : lists) (s : S) (ks : list call) : Prop :=
  match ks with
  | [] => True
  | k :: ks => proper l k /\ match list_call l s k with Ret (_, l', s') => proper_run l' s' ks | Stop _ => True end
  end.

(** The two heads, after [ps_list_head_init]. *)
Definition initial : outcome store :=
  st ← ps_list_head_init {[ r := mk_ps_list 0 0 ]} r;
  ps_list_head_init (<[c := mk_ps_list 0 0]> st) c.

Lemma initial_ok : r <> c -> exists st, initial = Ret st /\ represents st (mk_lists [] [] []).
Proof.
  intros Hne. assert (rings ∅ []) as G0 by (split; [constructor | by intros ? ? ?%elem_of_nil | intros x; by rewrite lookup_empty, elem_of_nil, is_Some_alt]).
  destruct (rings_init ∅ r (mk_ps_list 0 0) [] G0) as (st1 & E1 & G1); [apply not_elem_of_nil|].
  destruct (rings_init st1 c (mk_ps_list 0 0) _ G1) as (st2 & E2 & G2); [cbn; by intros ?%list_elem_of_singleton|].
  exists st2. split; [|revert G2; apply rings_perm, Permutation_swap].
  unfold initial, ps_list_head_init. change {[r := mk_ps_list 0 0]} with (<[r := mk_ps_list 0 0]> (∅ : store)). rewrite E1. ostep. exact E2.
Qed.

(** C23: the linked queues are lists.  The intrusive rings of a worker, in which
    every sandbox has one node for both queues, answer any sequence of calls like
    the lists that stand for the runqueue and the cleanup queue, stop when those stop
    and with the same fault, end in rings for the lists those end with, and
    free every sandbox of the cleanup queue once, in order, without touching
    freed memory; the loop over the cleanup queue ends. *)
Theorem linked_queues_refine_lists ks s :
  r <> c -> proper_run (mk_lists [] [] []) s ks ->
  exists st, initial = Ret st
    /\ match list_run (mk_lists [] [] []) s ks with
       | Ret (answers, l, s') => exists st', linked_run st s ks = Ret (answers, st', s') /\ represents st' l
       | Stop f => linked_run st s ks = Stop f
       end.
Proof.
  intros Hne Hp. destruct (initial_ok Hne) as (st & E & G). exists st. split; [done|]. clear E Hne. revert st s G Hp.
  generalize (mk_lists [] [] []). induction ks as [|k ks IH]; intros l st s G Hp; cbn; [by exists st|]. destruct Hp as [Hk Hp].
  pose proof (call_agrees st s l k G Hk) as Ha. destruct (list_call l s k) as [[[a l'] s']|f]; cbn [agrees] in Ha; [|by rewrite Ha].
  destruct Ha as (st' & -> & G'). ostep. specialize (IH l' st' s' G' Hp). destruct (list_run l' s' ks) as [[[rest l''] s'']|f]; ostep.
  - destruct IH as (st'' & -> & G''). ostep. by exists st''.
  - by rewrite IH.
Qed.
End queues.

(** Three sandboxes: two rotate on the runqueue, one is released, and the head
    of the runqueue is put on the cleanup queue while it is still queued. *)
Lemma linked_queues_refine_lists_witness :
  let calls := [Init 10 (mk_ps_list 0 0); Init 20 (mk_ps_list 0 0); Init 30 (mk_ps_list 0 0); Append 10; Append 20; CleanupAdd 30;
                Rotate (fun x => if decide (x = 1) then None else Some true); GetNext; CleanupFree; Remove 20; IsEmpty] in
  let free := fun (freed : list Z) (x : Z) => Ret (freed ++ [x]) in
  exists st st', initial 1 2 = Ret st
    /\ linked_run free 1 2 st [] calls
       = Ret ([Done; Done; Done; Done; Done; Done; Done; Next (Some 20); Done; Done; Empty false], st', [30])
    /\ represents 1 2 st' (mk_lists [10] [] [20])
    /\ linked_run free 1 2 st [] (take 5 calls ++ [CleanupAdd 10]) = Stop AssertFail.
Proof.
  cbv zeta. set (calls := [Init 10 _; _; _; _; _; _; _; _; _; _; _]). set (free := fun _ _ => _).
  destruct (linked_queues_refine_lists free 1 2 calls []) as (st & E & st' & Er & G).
  - done.
  - cbn. do 6 (split; [apply (bool_decide_unpack _); by vm_compute|]). split; [split; [done|]|].
    + intros x Hx. destruct (decide (x = 1)) as [->|]; [|by eexists]. exfalso.
      do 2 (apply elem_of_cons in Hx as [Hx|Hx]; [done|]). by apply elem_of_nil in Hx.
    + do 2 (split; [done|]). split; [apply (bool_decide_unpack _); by vm_compute | done].
  - exists st, st'. split; [done|]. split; [exact Er|]. split; [exact G|].
    destruct (linked_queues_refine_lists free 1 2 (take 5 calls ++ [CleanupAdd 10]) []) as (st2 & E2 & Er2); [done | |].
    + cbn. by repeat (split; [apply (bool_decide_unpack _); by vm_compute|]).
    + rewrite E in E2. injection E2 as <-. exact Er2.
Defined.
