(* ===== verification/Mtds.v ===== *)
(** * Mtds: the multi-tenant runqueue of a worker

    [runtime/src/local_runqueue_mtds.c] and the parts of
    [runtime/include/tenant_functions.h] and [tenant.h] it uses.  A worker keeps
    one queue of sandboxes per tenant (PWT) and two heaps of tenants, the
    guaranteed and the default one, ordered by the deadline of each tenant's
    first sandbox; a third heap orders the paid tenants by the time their
    budget is replenished.

    A tenant has one PWT per worker, which is embedded in the tenant, and one
    timeout embedded in the PWT: all three pointers are the tenant's address
    here.  The heaps hold addresses and read the priorities through them, so a
    priority changes while its tenant is in a heap when the tenant's own queue
    changes; the model does the same. *)

From Stdlib Require Import ZArith Lia.
From S2P Require Import Prelude Lock PriorityQueue HeapTheory PriorityQueueSpec Runqueue.
Local Open Scope Z_scope.

Inductive MULTI_TENANCY_CLASS := MT_DEFAULT | MT_GUARANTEED.

#[export] Instance mt_class_eq_dec : EqDecision MULTI_TENANCY_CLASS.
Proof. solve_decision. Defined.

Definition RUNTIME_MAX_TENANT_COUNT : nat := 32.
Definition RUNTIME_TENANT_QUEUE_SIZE : nat := Z.to_nat 4096.

Record perworker_tenant_sandbox_queue (L : Type) := mk_pwt {
  pwt_sandboxes : priority_queue L Z;
  pwt_timeout : Z;                       (* tenant_timeout.timeout *)
  pwt_mt_class : MULTI_TENANCY_CLASS;
}.
Arguments mk_pwt {L} _ _ _.
Arguments pwt_sandboxes {L} _.
Arguments pwt_timeout {L} _.
Arguments pwt_mt_class {L} _.

Record mtds_runqueue (L : Type) := mk_mtds {
  mtds_pwt : gmap Z (perworker_tenant_sandbox_queue L);   (* by tenant *)
  mtds_guaranteed : priority_queue L Z;
  mtds_default : priority_queue L Z;
  worker_thread_timeout_queue : priority_queue L Z;
}.
Arguments mk_mtds {L} _ _ _ _.
Arguments mtds_pwt {L} _.
Arguments mtds_guaranteed {L} _.
Arguments mtds_default {L} _.
Arguments worker_thread_timeout_queue {L} _.

(** What the code reads of sandboxes and tenants, and of the clock. *)
Record mtds_env := mk_mtds_env {
  env_deadline : Z -> Z;      (* sandbox->absolute_deadline *)
  env_tenant : Z -> Z;        (* sandbox->tenant *)
  env_period : Z -> Z;        (* tenant->replenishment_period *)
  env_boot : Z;               (* runtime_boot_timestamp *)
}.

Definition env_paid (env : mtds_env) (t : Z) : bool := 0 <? env_period env t.

Definition get_next_timeout_of_tenant (boot replenishment_period now : Z) : outcome Z :=
  assert (negb (replenishment_period =? 0)) ;;
  Ret (u64 (boot + u64 (u64 (u64 (now - boot) / replenishment_period + 1) * replenishment_period))).

Section mtds.
Context {L : Type} `{SpinLock L}.
Abbreviation heap := (priority_queue L Z).
Abbreviation pwt := (perworker_tenant_sandbox_queue L).
Abbreviation mtds := (mtds_runqueue L).
Variable env : mtds_env.

(** The deadline of the tenant's first sandbox. *)
Definition perworker_tenant_get_priority (pwts : gmap Z pwt) (t : Z) : Z :=
  match pwts !! t with
  | Some w => match priority_queue_top_nolock (pwt_sandboxes w) with
              | Ret (_, Some sandbox) => env_deadline env sandbox
              | _ => UINT64_MAX
              end
  | None => UINT64_MAX
  end.

Definition tenant_timeout_get_priority (pwts : gmap Z pwt) (t : Z) : Z :=
  match pwts !! t with Some w => pwt_timeout w | None => 0 end.

Definition set_mtds_pwt (q : mtds) (t : Z) (w : pwt) : mtds :=
  mk_mtds (<[t := w]> (mtds_pwt q)) (mtds_guaranteed q) (mtds_default q) (worker_thread_timeout_queue q).

Definition class_queue (q : mtds) (c : MULTI_TENANCY_CLASS) : heap :=
  match c with MT_GUARANTEED => mtds_guaranteed q | MT_DEFAULT => mtds_default q end.

Definition set_class_queue (q : mtds) (c : MULTI_TENANCY_CLASS) (h : heap) : mtds :=
  match c with
  | MT_GUARANTEED => mk_mtds (mtds_pwt q) h (mtds_default q) (worker_thread_timeout_queue q)
  | MT_DEFAULT => mk_mtds (mtds_pwt q) (mtds_guaranteed q) h (worker_thread_timeout_queue q)
  end.

Definition set_timeouts (q : mtds) (h : heap) : mtds :=
  mk_mtds (mtds_pwt q) (mtds_guaranteed q) (mtds_default q) h.

Definition pwt_at (q : mtds) (t : Z) : outcome pwt := deref (mtds_pwt q !! t).

(** Operations on a heap of tenants, with the priorities of the moment. *)
Definition class_enqueue (q : mtds) (c : MULTI_TENANCY_CLASS) (t : Z) : outcome (Z * mtds) :=
  '(rc, h) ← priority_queue_enqueue_nolock (perworker_tenant_get_priority (mtds_pwt q)) (class_queue q c) t;
  Ret (rc, set_class_queue q c h).

Definition class_delete (q : mtds) (c : MULTI_TENANCY_CLASS) (t : Z) : outcome (Z * mtds) :=
  '(rc, h) ← priority_queue_delete_nolock (perworker_tenant_get_priority (mtds_pwt q)) false (class_queue q c) t;
  Ret (rc, set_class_queue q c h).

Definition timeout_enqueue (q : mtds) (t : Z) : outcome (Z * mtds) :=
  '(rc, h) ← priority_queue_enqueue_nolock (tenant_timeout_get_priority (mtds_pwt q)) (worker_thread_timeout_queue q) t;
  Ret (rc, set_timeouts q h).

Definition timeout_delete (q : mtds) (t : Z) : outcome (Z * mtds) :=
  '(rc, h) ← priority_queue_delete_nolock (tenant_timeout_get_priority (mtds_pwt q)) false
               (worker_thread_timeout_queue q) t;
  Ret (rc, set_timeouts q h).

Definition local_runqueue_mtds_is_empty (q : mtds) : outcome bool :=
  n ← priority_queue_length_nolock (mtds_guaranteed q);
  if decide (n = 0%nat) then
    m ← priority_queue_length_nolock (mtds_default q); Ret (bool_decide (m = 0%nat))
  else Ret false.

Definition local_runqueue_mtds_add (now : Z) (q : mtds) (sandbox : Z) : outcome mtds :=
  let t := env_tenant env sandbox in
  w ← pwt_at q t;
  let destination_queue := pwt_mt_class w in
  let prev_pwt_deadline := priority_queue_peek (pwt_sandboxes w) in
  '(rc, inner) ← priority_queue_enqueue_nolock (env_deadline env) (pwt_sandboxes w) sandbox;
  if rc =? - ENOSPC then Stop Panic else
  let q := set_mtds_pwt q t (mk_pwt inner (pwt_timeout w) (pwt_mt_class w)) in
  n ← priority_queue_length_nolock inner;
  if decide (n = 1%nat) then
    q ← (if env_paid env t then
           timeout ← get_next_timeout_of_tenant (env_boot env) (env_period env t) now;
           '(_, q) ← timeout_enqueue (set_mtds_pwt q t (mk_pwt inner timeout (pwt_mt_class w))) t;
           Ret q
         else Ret q);
    '(_, q) ← class_enqueue q destination_queue t;
    Ret q
  else if env_deadline env sandbox <? prev_pwt_deadline then
    '(rc, q) ← class_delete q destination_queue t;
    assert (rc =? 0) ;;
    '(rc, q) ← class_enqueue q destination_queue t;
    if rc =? - ENOSPC then Stop Panic else Ret q
  else Ret q.

Definition local_runqueue_mtds_delete (q : mtds) (sandbox : Z) : outcome mtds :=
  let t := env_tenant env sandbox in
  w ← pwt_at q t;
  '(rc, inner) ← priority_queue_delete_nolock (env_deadline env) false (pwt_sandboxes w) sandbox;
  if rc =? -1 then Stop Panic else
  let q := set_mtds_pwt q t (mk_pwt inner (pwt_timeout w) (pwt_mt_class w)) in
  '(rc, q) ← class_delete q (pwt_mt_class w) t;
  if rc =? -1 then Stop Panic else
  n ← priority_queue_length_nolock inner;
  if decide (0 < n)%nat then
    '(_, q) ← class_enqueue q (pwt_mt_class w) t; Ret q
  else if env_paid env t then
    '(_, q) ← timeout_delete q t;
    Ret (set_mtds_pwt q t (mk_pwt inner (pwt_timeout w) MT_GUARANTEED))
  else Ret q.

Definition local_runqueue_mtds_promote (q : mtds) (t : Z) : outcome mtds :=
  '(rc, q) ← class_delete q MT_DEFAULT t;
  if rc =? -1 then Stop Panic else
  '(rc, q) ← class_enqueue q MT_GUARANTEED t;
  if rc =? - ENOSPC then Stop Panic else Ret q.

Definition local_runqueue_mtds_demote (q : mtds) (t : Z) : outcome mtds :=
  '(rc, q) ← class_delete q MT_GUARANTEED t;
  if rc =? -1 then Stop Panic else
  '(rc, q) ← class_enqueue q MT_DEFAULT t;
  if rc =? - ENOSPC then Stop Panic else Ret q.

(** [pwt->mt_class = c] *)
Definition set_class (q : mtds) (t : Z) (c : MULTI_TENANCY_CLASS) : outcome mtds :=
  w ← pwt_at q t; Ret (set_mtds_pwt q t (mk_pwt (pwt_sandboxes w) (pwt_timeout w) c)).

(** The demotions of [local_runqueue_mtds_get_next]: the head of the guaranteed
    queue after them, if any.  Other workers change [remaining_budget]; a call
    reads the budget of a tenant at most once, since a demoted tenant leaves the
    queue, so [budget] is what this call reads. *)
Fixpoint demote_exhausted (budget : Z -> Z) (fuel : nat) (q : mtds) : outcome (option Z * mtds) :=
  match fuel with
  | O => Stop Fuel
  | S fuel =>
    '(rc, next_pwt) ← priority_queue_top_nolock (mtds_guaranteed q);
    if rc =? - ENOENT then Ret (None, q) else
    t ← deref next_pwt;
    if budget t <=? 0 then
      q ← local_runqueue_mtds_demote q t;
      q ← set_class q t MT_DEFAULT;
      demote_exhausted budget fuel q
    else Ret (Some t, q)
  end.

Definition first_sandbox (q : mtds) (t : Z) : outcome Z :=
  w ← pwt_at q t;
  '(_, next_sandbox) ← priority_queue_top_nolock (pwt_sandboxes w);
  match next_sandbox with Some p => Ret p | None => Stop AssertFail end.

Definition local_runqueue_mtds_get_next (budget : Z -> Z) (q : mtds) : outcome (option Z * mtds) :=
  '(next_pwt, q) ← demote_exhausted budget (S (pq_size (mtds_guaranteed q))) q;
  match next_pwt with
  | Some t => p ← first_sandbox q t; Ret (Some p, q)
  | None =>
    '(rc, next_pwt) ← priority_queue_top_nolock (mtds_default q);
    if rc =? - ENOENT then Ret (None, q) else
    t ← deref next_pwt;
    p ← first_sandbox q t;
    Ret (Some p, q)
  end.

(** A tenant whose timeout has passed: back to the guaranteed class, and queued
    again with the timeout that follows the clock's [reading]. *)
Definition promote_tenant (reading : Z) (q : mtds) (t : Z) : outcome mtds :=
  w ← pwt_at q t;
  n ← priority_queue_length_nolock (pwt_sandboxes w);
  assert (bool_decide (0 < n)%nat) ;;
  q ← (if decide (pwt_mt_class w = MT_DEFAULT)
       then q ← local_runqueue_mtds_promote q t; set_class q t MT_GUARANTEED
       else Ret q);
  '(_, q) ← timeout_delete q t;
  timeout ← get_next_timeout_of_tenant (env_boot env) (env_period env t) reading;
  w ← pwt_at q t;
  '(_, q) ← timeout_enqueue (set_mtds_pwt q t (mk_pwt (pwt_sandboxes w) timeout (pwt_mt_class w))) t;
  Ret q.

(** [now] is read once; the clock is read again for every new timeout. *)
Fixpoint promote_expired (fuel : nat) (now : Z) (clock : nat -> Z) (q : mtds) (t : Z) : outcome mtds :=
  match fuel with
  | O => Stop Fuel
  | S fuel =>
    w ← pwt_at q t;
    if pwt_timeout w <=? now then
      q ← promote_tenant (clock fuel) q t;
      '(_, top) ← priority_queue_top_nolock (worker_thread_timeout_queue q);
      promote_expired fuel now clock q (default t top)
    else Ret q
  end.

Definition local_timeout_queue_process_promotions (fuel : nat) (now : Z) (clock : nat -> Z) (q : mtds) : outcome mtds :=
  '(_, top) ← priority_queue_top_nolock (worker_thread_timeout_queue q);
  match top with
  | None => Ret q
  | Some t => promote_expired fuel now clock q t
  end.

(** The entry of a tenant for one worker, as [tenant_policy_specific_init] sets it. *)
Definition pwt_init (replenishment_period : Z) : pwt :=
  mk_pwt (priority_queue_initialize RUNTIME_TENANT_QUEUE_SIZE false) 0
    (if replenishment_period =? 0 then MT_DEFAULT else MT_GUARANTEED).

(** The worker's heaps; [pwts] are the entries of the tenants, and the timeout
    heap is the one [worker_thread_main] creates. *)
Definition local_runqueue_mtds_initialize (pwts : gmap Z pwt) : mtds :=
  mk_mtds pwts (priority_queue_initialize RUNTIME_MAX_TENANT_COUNT false)
    (priority_queue_initialize RUNTIME_MAX_TENANT_COUNT false)
    (priority_queue_initialize RUNTIME_MAX_TENANT_COUNT false).
End mtds.
