(* ===== verification/MtdsSpec.v ===== *)
(** * MtdsSpec: the multi-tenant runqueue keeps its sandboxes and classes

    The invariant of the multi-tenant runqueue and its preservation: every
    sandbox is in the queue of its tenant, every tenant with sandboxes is in the
    heap of its class and no other, every paid one in the timeout heap.  The
    statements are about what the heaps contain: [priority_queue_delete_nolock]
    may lose the order of a heap, and with it the choice of the earliest
    tenant (see [PriorityQueueSpec]). *)

From Stdlib Require Import ZArith Lia.
From S2P Require Import Prelude Lock PriorityQueue HeapTheory PriorityQueueSpec Runqueue Mtds.
Local Open Scope Z_scope.

(** ** Timeouts *)

Lemma next_timeout_ok boot period now :
  0 <= boot <= now -> 0 < period -> now + period <= UINT64_MAX ->
  exists r, get_next_timeout_of_tenant boot period now = Ret r
    /\ now < r <= now + period /\ (r - boot) mod period = 0.
Proof.
  intros Hb Hp Hm. unfold get_next_timeout_of_tenant. rewrite (proj2 (Z.eqb_neq period 0)) by lia. cbn [negb]. ostep.
  assert (Hd : 0 <= (now - boot) / period <= now - boot).
  { split; [apply Z.div_pos; lia | apply Z.div_le_upper_bound; nia]. }
  pose proof (Z.mul_div_le (now - boot) period Hp) as H1.
  pose proof (Z.mul_succ_div_gt (now - boot) period Hp) as H2.
  rewrite (u64_small (now - boot)) by lia.
  rewrite (u64_small ((now - boot) / period + 1)) by (unfold UINT64_MAX in *; nia).
  rewrite (u64_small (_ * period)) by nia. rewrite u64_small by nia.
  eexists. split; [done|]. split; [nia|].
  replace (boot + ((now - boot) / period + 1) * period - boot) with (((now - boot) / period + 1) * period) by lia.
  apply Z.mod_mul. lia.
Qed.

(** ** Sequences of calls *)

Inductive mtds_event :=
| EAdd (now sandbox : Z)
| EDelete (sandbox : Z)
| ENext (budget : Z -> Z)
| EPromotions (now : Z) (clock : nat -> Z).

Definition mtds_exec {L} `{SpinLock L} (env : mtds_env) (q : mtds_runqueue L) (e : mtds_event) : outcome (mtds_runqueue L) :=
  match e with
  | EAdd now p => local_runqueue_mtds_add env now q p
  | EDelete p => local_runqueue_mtds_delete env q p
  | ENext budget => '(_, q) ← local_runqueue_mtds_get_next env budget q; Ret q
  | EPromotions now clock => local_timeout_queue_process_promotions env (S (size (mtds_pwt q))) now clock q
  end.

Fixpoint mtds_run {L} `{SpinLock L} (env : mtds_env) (q : mtds_runqueue L) (es : list mtds_event)
  : outcome (mtds_runqueue L) :=
  match es with
  | [] => Ret q
  | e :: es => q ← mtds_exec env q e; mtds_run env q es
  end.

Section spec.
Context {L : Type} `{SpinLock L}.
Abbreviation heap := (priority_queue L Z).
Abbreviation mtds := (mtds_runqueue L).
Variable env : mtds_env.
Hypothesis deadlines : forall p, 0 <= env_deadline env p <= UINT64_MAX.

Implicit Types q : mtds.
Abbreviation prio := (perworker_tenant_get_priority env).

Lemma prio_range pwts t : 0 <= prio pwts t <= UINT64_MAX.
Proof.
  unfold perworker_tenant_get_priority. destruct (pwts !! t) as [w|]; [|unfold UINT64_MAX; lia].
  destruct (priority_queue_top_nolock _) as [[? [p|]]|]; [apply deadlines | unfold UINT64_MAX; lia..].
Qed.

(** ** Heaps of tenants *)

(** The heap holds exactly the tenants with [P], and has room for [n]. *)
Definition holds (f : Z -> Z) (n : nat) (h : heap) (P : Z -> Prop) : Prop :=
  exists l, pq_bag f h l /\ NoDup l /\ (forall t, t ∈ l <-> P t)
    /\ pq_use_lock h = false /\ (n <= pq_capacity h)%nat.

Lemma holds_ext f g n h P Q :
  (forall t, P t -> f t = g t) -> (forall t, P t <-> Q t) -> holds f n h P -> holds g n h Q.
Proof.
  intros Ef EP (l & B & Hn & Hl & Hu & Hc). exists l. split; [|split; [done|]].
  - eapply pq_bag_ext; [|exact B]. intros t Ht. by apply Ef, Hl.
  - split; [|done]. intros t. by rewrite Hl.
Qed.

Lemma holds_enqueue f n (D : gset Z) h P t :
  (forall a, 0 <= f a <= UINT64_MAX) -> holds f n h P -> ~ P t ->
  (forall a, P a -> a ∈ D) -> t ∈ D -> (size D <= n)%nat ->
  exists h', priority_queue_enqueue_nolock f h t = Ret (0, h') /\ holds f n h' (fun a => a = t \/ P a).
Proof.
  intros Hf (l & B & Hn & Hl & Hu & Hc) Ht HD HtD Hs.
  assert (Hni : t ∉ l) by (by rewrite Hl).
  assert (Hlen : (S (length l) <= size D)%nat).
  { change (S (length l)) with (length (t :: l)).
    rewrite <- (size_list_to_set (C := gset Z) (t :: l)) by (by constructor).
    apply subseteq_size. intros a. rewrite elem_of_list_to_set, elem_of_cons.
    intros [->|Ha]; [done|]. by apply HD, Hl. }
  destruct (enqueue_bag f Hf h l t B) as (h' & E & B' & _ & _ & Hu' & _ & Hc' & _).
  - unfold pq_accessible. by rewrite Hu.
  - rewrite (bag_size _ _ _ B). lia.
  - exists h'. split; [done|]. exists (t :: l). split; [done|]. split; [by constructor|].
    split; [intros a; by rewrite elem_of_cons, Hl|]. split; [congruence | lia].
Qed.

(** Deleting a tenant whose own priority has changed. *)
Lemma holds_delete f g n h P t :
  holds f n h P -> P t -> (forall a, a <> t -> P a -> f a = g a) ->
  exists h', priority_queue_delete_nolock g false h t = Ret (0, h') /\ holds g n h' (fun a => a <> t /\ P a).
Proof.
  intros (l & (W & M & C) & Hn & Hl & Hu & Hc) Ht Hfg.
  pose proof (delete_stale g h l t W C) as D. destruct (decide (t ∈ l)) as [Hin|Hin]; [|by rewrite Hl in Hin].
  destruct D as (h' & l' & E & P' & B' & Hu' & _ & Hc').
  - intros Hroot. unfold pq_memo in *. rewrite M. case_decide as Hs; [done|].
    destruct (wf_used h W 1) as [a Ea]; [lia|]. unfold prio_at. rewrite Ea. apply Hfg; [congruence|].
    apply Hl. rewrite <- C. eapply contents_lookup; [|exact Ea]. lia.
  - unfold pq_accessible. by rewrite Hu.
  - exists h'. split; [done|]. exists l'. split; [done|].
    rewrite P' in Hn. inversion Hn as [|? ? Hni Hn']; subst. split; [done|]. split; [|split; [congruence | lia]].
    intros a. rewrite <- Hl, P', elem_of_cons. split; [intros Ha; split; [by intros ->|by right]|].
    intros [Hne [->|?]]; done.
Qed.

Lemma holds_head f n h P :
  holds f n h P ->
  (exists t, priority_queue_top_nolock h = Ret (0, Some t) /\ P t /\ priority_queue_peek h = f t
     /\ (pq_heap f h -> forall a, P a -> f t <= f a))
  \/ (priority_queue_top_nolock h = Ret (- ENOENT, None) /\ (forall t, ~ P t) /\ priority_queue_peek h = UINT64_MAX).
Proof.
  intros (l & B & Hn & Hl & Hu & Hc). assert (Hacc : pq_accessible h = true) by (unfold pq_accessible; by rewrite Hu).
  destruct (top_bag f h l B Hacc) as [(t & E & Ht & Ep & _)|(-> & E & Ep)].
  - left. exists t. split; [done|]. split; [by apply Hl|]. split; [done|]. intros Hh a Pa.
    destruct (top_nolock_ok f h l) as [(t' & E' & _ & _ & Hmin)|(-> & _)]; [by apply pq_repr_bag|done| |by apply not_elem_of_nil in Ht].
    rewrite E in E'. injection E' as <-. by apply Hmin, Hl.
  - right. split; [done|]. split; [|done]. intros t Pt. apply Hl in Pt. by apply not_elem_of_nil in Pt.
Qed.

Lemma holds_top f n h P :
  holds f n h P ->
  (exists t, priority_queue_top_nolock h = Ret (0, Some t) /\ P t)
  \/ (priority_queue_top_nolock h = Ret (- ENOENT, None) /\ forall t, ~ P t).
Proof. intros Hh. destruct (holds_head _ _ _ _ Hh) as [(t & E & Pt & _)|(E & Hno & _)]; [left; by exists t|by right]. Qed.

(** ** The three heaps together *)

(** The class heaps hold the tenants [P], ordered by [f], the timeout heap the
    tenants [T], ordered by [g]; [f] and [g] may lag behind the priorities of
    the moment. *)
Record layout q (f g : Z -> Z) (P : MULTI_TENANCY_CLASS -> Z -> Prop) (T : Z -> Prop) : Prop := {
  lay_class c : holds f (size (mtds_pwt q)) (class_queue q c) (P c);
  lay_timeouts : holds g (size (mtds_pwt q)) (worker_thread_timeout_queue q) T;
  lay_dom c t : P c t -> t ∈ dom (mtds_pwt q);
  lay_dom_timeouts t : T t -> t ∈ dom (mtds_pwt q);
}.

Lemma layout_ext q q' f f' g g' P P' T T' :
  layout q f g P T -> dom (mtds_pwt q') = dom (mtds_pwt q) ->
  (forall c, class_queue q' c = class_queue q c) -> worker_thread_timeout_queue q' = worker_thread_timeout_queue q ->
  (forall c t, P c t -> f t = f' t) -> (forall t, T t -> g t = g' t) ->
  (forall c t, P c t <-> P' c t) -> (forall t, T t <-> T' t) -> layout q' f' g' P' T'.
Proof.
  intros [Hc Ht Hd Hdt] Ed Ec Et Ef Eg EP ET.
  assert (Es : size (mtds_pwt q') = size (mtds_pwt q)) by (by rewrite <- !size_dom, Ed).
  split; rewrite ?Es, ?Et, ?Ed.
  - intros c. rewrite Ec. eapply holds_ext; [|apply EP|apply Hc]. intros t Pt. by eapply Ef.
  - eapply holds_ext; [|apply ET|apply Ht]. done.
  - intros c t Pt. apply (Hd c), EP, Pt.
  - intros t Tt. apply Hdt, ET, Tt.
Qed.

Lemma class_queue_set q c h d :
  class_queue (set_class_queue q c h) d = if decide (d = c) then h else class_queue q d.
Proof. by destruct c, d. Qed.

Lemma set_class_queue_same q c h :
  mtds_pwt (set_class_queue q c h) = mtds_pwt q
  /\ worker_thread_timeout_queue (set_class_queue q c h) = worker_thread_timeout_queue q.
Proof. by destruct c. Qed.

Lemma class_enqueue_ok q g P T c t :
  layout q (prio (mtds_pwt q)) g P T -> ~ P c t -> t ∈ dom (mtds_pwt q) ->
  exists q', class_enqueue env q c t = Ret (0, q') /\ mtds_pwt q' = mtds_pwt q
    /\ layout q' (prio (mtds_pwt q')) g (fun d a => (d = c /\ a = t) \/ P d a) T.
Proof.
  intros [Hc Ht Hd Hdt] Hn Hin. unfold class_enqueue.
  destruct (holds_enqueue (prio (mtds_pwt q)) (size (mtds_pwt q)) (dom (mtds_pwt q)) (class_queue q c) (P c) t)
    as (h & -> & Hh); [apply prio_range | apply Hc | done | apply Hd | done | by rewrite size_dom |].
  ostep. destruct (set_class_queue_same q c h) as [E1 E2]. eexists. split; [done|]. split; [done|].
  split; rewrite ?E1, ?E2; try done.
  - intros d. rewrite class_queue_set. case_decide as Hdc.
    + subst d. eapply holds_ext; [..|exact Hh]; [done|]. intros a. cbn. tauto.
    + eapply holds_ext; [..|apply Hc]; [done|]. intros a. cbn. tauto.
  - intros d a [[-> ->]|Pa]; [done | by eapply Hd].
Qed.

Lemma class_delete_ok q f g P T c t :
  layout q f g P T -> P c t -> (forall d, d <> c -> ~ P d t) ->
  (forall a, a <> t -> f a = prio (mtds_pwt q) a) ->
  exists q', class_delete env q c t = Ret (0, q') /\ mtds_pwt q' = mtds_pwt q
    /\ layout q' (prio (mtds_pwt q')) g (fun d a => a <> t /\ P d a) T.
Proof.
  intros [Hc Ht Hd Hdt] Pt Hother Hf. unfold class_delete.
  destruct (holds_delete f (prio (mtds_pwt q)) (size (mtds_pwt q)) (class_queue q c) (P c) t (Hc c) Pt)
    as (h & -> & Hh); [auto|].
  ostep. destruct (set_class_queue_same q c h) as [E1 E2]. eexists. split; [done|]. split; [done|].
  split; rewrite ?E1, ?E2; try done.
  - intros d. rewrite class_queue_set. case_decide as Hdc; [by subst d|].
    eapply holds_ext; [..|apply Hc]; intros a.
    + intros Pa. apply Hf. intros ->. by eapply Hother.
    + cbn. split; [|tauto]. intros Pa. split; [|done]. intros ->. by eapply Hother.
  - intros d a [_ Pa]. by eapply Hd.
Qed.

Lemma timeout_enqueue_ok q f P T t :
  layout q f (tenant_timeout_get_priority (mtds_pwt q)) P T ->
  (forall a, 0 <= tenant_timeout_get_priority (mtds_pwt q) a <= UINT64_MAX) ->
  ~ T t -> t ∈ dom (mtds_pwt q) ->
  exists q', timeout_enqueue q t = Ret (0, q') /\ mtds_pwt q' = mtds_pwt q
    /\ layout q' f (tenant_timeout_get_priority (mtds_pwt q')) P (fun a => a = t \/ T a).
Proof.
  intros [Hc Ht Hd Hdt] Hr Hn Hin. unfold timeout_enqueue.
  destruct (holds_enqueue (tenant_timeout_get_priority (mtds_pwt q)) (size (mtds_pwt q)) (dom (mtds_pwt q))
              (worker_thread_timeout_queue q) T t) as (h & -> & Hh); [done | done | done | done | done | by rewrite size_dom |].
  ostep. eexists. split; [done|]. split; [done|]. split; try done.
  intros a [->|Ta]; [done|by apply Hdt].
Qed.

Lemma timeout_delete_ok q f g P T t :
  layout q f g P T -> T t -> (forall a, a <> t -> g a = tenant_timeout_get_priority (mtds_pwt q) a) ->
  exists q', timeout_delete q t = Ret (0, q') /\ mtds_pwt q' = mtds_pwt q
    /\ layout q' f (tenant_timeout_get_priority (mtds_pwt q')) P (fun a => a <> t /\ T a).
Proof.
  intros [Hc Ht Hd Hdt] Tt Hg. unfold timeout_delete.
  destruct (holds_delete g (tenant_timeout_get_priority (mtds_pwt q)) (size (mtds_pwt q))
              (worker_thread_timeout_queue q) T t Ht Tt) as (h & -> & Hh); [auto|].
  ostep. eexists. split; [done|]. split; [done|]. split; try done. intros a [_ Ta]. by apply Hdt.
Qed.

(** ** The invariant *)

(** [B t] are the sandboxes of tenant [t] on this worker. *)
Definition in_class q (B : Z -> list Z) (c : MULTI_TENANCY_CLASS) (t : Z) : Prop :=
  exists w, mtds_pwt q !! t = Some w /\ pwt_mt_class w = c /\ B t <> [].

Definition in_timeouts q (B : Z -> list Z) (t : Z) : Prop :=
  is_Some (mtds_pwt q !! t) /\ env_paid env t = true /\ B t <> [].

(** A tenant's queue: without a lock, with the size it was created with. *)
Definition plain (h : heap) : Prop := pq_use_lock h = false /\ pq_capacity h = RUNTIME_TENANT_QUEUE_SIZE.

Lemma plain_accessible h : plain h -> pq_accessible h = true.
Proof. intros [Hu _]. unfold pq_accessible. by rewrite Hu. Qed.

Record mtds_wf q (B : Z -> list Z) : Prop := {
  mq_pwt t w : mtds_pwt q !! t = Some w ->
    pq_bag (env_deadline env) (pwt_sandboxes w) (B t) /\ plain (pwt_sandboxes w)
    /\ 0 <= pwt_timeout w <= UINT64_MAX;
  mq_none t : mtds_pwt q !! t = None -> B t = [];
  mq_owner t p : p ∈ B t -> env_tenant env p = t;
  mq_nodup t : NoDup (B t);
  mq_layout : layout q (prio (mtds_pwt q)) (tenant_timeout_get_priority (mtds_pwt q))
    (in_class q B) (in_timeouts q B);
}.

Lemma mtds_wf_B q B B' : (forall t, B t ≡ₚ B' t) -> mtds_wf q B -> mtds_wf q B'.
Proof.
  intros EB [W1 W2 W3 W4 W5].
  assert (En : forall t, B t <> [] <-> B' t <> []).
  { intros t. specialize (EB t). split; intros Hne Hnil; rewrite Hnil in EB; destruct Hne.
    - by apply Permutation_nil.
    - by apply Permutation_nil. }
  split.
  - intros t w E. destruct (W1 t w E) as [(? & ? & C) ?]. split; [|done]. split; [done|]. split; [done|]. by rewrite <- EB.
  - intros t E. apply Permutation_nil. rewrite <- EB. by rewrite W2.
  - intros t p. rewrite <- EB. apply W3.
  - intros t. rewrite <- EB. apply W4.
  - eapply layout_ext; [exact W5 | done..| |]; unfold in_class, in_timeouts; intros; by setoid_rewrite En.
Qed.

(** The priority of a tenant with sandboxes is the memo of its queue. *)
Lemma prio_memo pwts t w b :
  pwts !! t = Some w -> pq_bag (env_deadline env) (pwt_sandboxes w) b -> plain (pwt_sandboxes w) ->
  prio pwts t = highest_priority (pwt_sandboxes w).
Proof.
  intros E B Hu. unfold perworker_tenant_get_priority. rewrite E.
  destruct (top_bag _ _ b B) as [(p & Et & _ & Hp & _)|(_ & Et & Hp)];
    [by apply plain_accessible| |]; rewrite Et; unfold priority_queue_peek in Hp; by rewrite Hp.
Qed.

Lemma prio_other pwts t w a : a <> t -> prio (<[t := w]> pwts) a = prio pwts a.
Proof. intros Hne. unfold perworker_tenant_get_priority. by rewrite lookup_insert_ne. Qed.

Lemma timeout_other (pwts : gmap Z (perworker_tenant_sandbox_queue L)) t w a :
  a <> t -> tenant_timeout_get_priority (<[t := w]> pwts) a = tenant_timeout_get_priority pwts a.
Proof. intros Hne. unfold tenant_timeout_get_priority. by rewrite lookup_insert_ne. Qed.

Definition upd (B : Z -> list Z) (t : Z) (l : list Z) : Z -> list Z := fun a => if decide (a = t) then l else B a.

Lemma upd_eq B t l : upd B t l t = l.
Proof. unfold upd. by rewrite decide_True. Qed.

Lemma upd_ne B t l a : a <> t -> upd B t l a = B a.
Proof. intros. unfold upd. by rewrite decide_False. Qed.

Lemma timeouts_range (pwts : gmap Z (perworker_tenant_sandbox_queue L)) :
  (forall t w, pwts !! t = Some w -> 0 <= pwt_timeout w <= UINT64_MAX) ->
  forall a, 0 <= tenant_timeout_get_priority pwts a <= UINT64_MAX.
Proof.
  intros Hr a. unfold tenant_timeout_get_priority. destruct (pwts !! a) eqn:E; [by eapply Hr | unfold UINT64_MAX; lia].
Qed.

Lemma pwt_insert_range q B t w :
  mtds_wf q B -> 0 <= pwt_timeout w <= UINT64_MAX ->
  forall a v, <[t := w]> (mtds_pwt q) !! a = Some v -> 0 <= pwt_timeout v <= UINT64_MAX.
Proof.
  intros W Hw a v. destruct (decide (a = t)) as [->|Hne].
  - rewrite lookup_insert_eq. by intros [= <-].
  - rewrite lookup_insert_ne by done. intros E. apply (mq_pwt _ _ W a v E).
Qed.

(** Rebuilding the invariant after the queue of one tenant changed. *)
Lemma mtds_wf_rebuild q q' B t w' l :
  mtds_wf q B -> is_Some (mtds_pwt q !! t) -> mtds_pwt q' = <[t := w']> (mtds_pwt q) ->
  pq_bag (env_deadline env) (pwt_sandboxes w') l -> plain (pwt_sandboxes w') ->
  0 <= pwt_timeout w' <= UINT64_MAX -> NoDup l -> (forall p, p ∈ l -> env_tenant env p = t) ->
  layout q' (prio (mtds_pwt q')) (tenant_timeout_get_priority (mtds_pwt q'))
    (in_class q' (upd B t l)) (in_timeouts q' (upd B t l)) ->
  mtds_wf q' (upd B t l).
Proof.
  intros W Ht Eq Bg Hu Hr Hnd Hown Lay. split; [| | | |done].
  - intros a v. rewrite Eq. destruct (decide (a = t)) as [->|Hne].
    + rewrite lookup_insert_eq, upd_eq. by intros [= <-].
    + rewrite lookup_insert_ne, upd_ne by done. apply (mq_pwt _ _ W).
  - intros a. rewrite Eq. destruct (decide (a = t)) as [->|Hne]; [by rewrite lookup_insert_eq|].
    rewrite lookup_insert_ne, upd_ne by done. apply (mq_none _ _ W).
  - intros a p. destruct (decide (a = t)) as [->|Hne]; [rewrite upd_eq; apply Hown|].
    rewrite upd_ne by done. apply (mq_owner _ _ W).
  - intros a. destruct (decide (a = t)) as [->|Hne]; [by rewrite upd_eq|].
    rewrite upd_ne by done. apply (mq_nodup _ _ W).
Qed.

Lemma in_class_upd q q' B t w' l c a :
  mtds_pwt q' = <[t := w']> (mtds_pwt q) ->
  in_class q' (upd B t l) c a <-> (a = t /\ pwt_mt_class w' = c /\ l <> []) \/ (a <> t /\ in_class q B c a).
Proof.
  intros Eq. unfold in_class. rewrite Eq. destruct (decide (a = t)) as [->|Hne].
  - rewrite lookup_insert_eq, upd_eq. split.
    + intros (v & [= <-] & ? & ?). by left.
    + intros [(_ & ? & ?)|[[] _]]; [eauto | done].
  - rewrite lookup_insert_ne, upd_ne by done. split; [by right|]. by intros [[? _]|[_ ?]].
Qed.

Lemma in_timeouts_upd q q' B t w' l a :
  mtds_pwt q' = <[t := w']> (mtds_pwt q) ->
  in_timeouts q' (upd B t l) a
  <-> (a = t /\ env_paid env t = true /\ l <> []) \/ (a <> t /\ in_timeouts q B a).
Proof.
  intros Eq. unfold in_timeouts. rewrite Eq. destruct (decide (a = t)) as [->|Hne].
  - rewrite lookup_insert_eq, upd_eq. split; [intros (_ & ? & ?); by left|].
    intros [(_ & ? & ?)|[[] _]]; [by split; [eexists|] | done].
  - rewrite lookup_insert_ne, upd_ne by done. split; [by right|]. by intros [[? _]|[_ ?]].
Qed.

(** ** Adding *)

Lemma dom_insert_same q t w : is_Some (mtds_pwt q !! t) -> dom (<[t := w]> (mtds_pwt q)) = dom (mtds_pwt q).
Proof. intros Ht. apply dom_insert_lookup_L, Ht. Qed.

Definition class_of q (t : Z) : option MULTI_TENANCY_CLASS := pwt_mt_class <$> mtds_pwt q !! t.

Lemma class_of_set q q' t w w' :
  mtds_pwt q' = <[t := w']> (mtds_pwt q) -> mtds_pwt q !! t = Some w -> pwt_mt_class w' = pwt_mt_class w ->
  forall a, class_of q' a = class_of q a.
Proof.
  intros Eq E Ec a. unfold class_of. rewrite Eq. destruct (decide (a = t)) as [->|Hne].
  - rewrite lookup_insert_eq, E. cbn. by rewrite Ec.
  - by rewrite lookup_insert_ne.
Qed.

(** The timeout of a paid tenant is set and queued with its first sandbox. *)
Definition add_timeout now q (t : Z) (inner : heap) (c : MULTI_TENANCY_CLASS) : outcome mtds :=
  if env_paid env t then
    timeout ← get_next_timeout_of_tenant (env_boot env) (env_period env t) now;
    '(_, q) ← timeout_enqueue (set_mtds_pwt q t (mk_pwt inner timeout c)) t;
    Ret q
  else Ret q.

Lemma no_heaps q B t : B t = [] -> (forall c, ~ in_class q B c t) /\ ~ in_timeouts q B t.
Proof. intros EB. split; [intros c (? & _ & _ & Hne)|intros (_ & _ & Hne)]; by rewrite EB in Hne. Qed.

(** The heaps of [q], without [t], read with any new entry for [t]. *)
Lemma layout_without q B t w2 :
  mtds_wf q B -> is_Some (mtds_pwt q !! t) -> B t = [] ->
  layout (set_mtds_pwt q t w2) (prio (<[t := w2]> (mtds_pwt q)))
    (tenant_timeout_get_priority (<[t := w2]> (mtds_pwt q))) (in_class q B) (in_timeouts q B).
Proof.
  intros W Hsome EB. destruct (no_heaps q B t EB) as [HnC HnT].
  eapply layout_ext; [apply (mq_layout _ _ W) | by apply dom_insert_same | by intros [] | done | | |done..].
  - intros c a Ha. rewrite prio_other; [done|]. intros ->. by eapply HnC.
  - intros a Ha. rewrite timeout_other; [done|]. intros ->. by apply HnT.
Qed.

Definition clock_ok now t : Prop :=
  env_paid env t = true -> 0 <= env_boot env <= now /\ now + env_period env t <= UINT64_MAX.

Lemma add_timeout_ok now q B t w w1 :
  mtds_wf q B -> mtds_pwt q !! t = Some w -> B t = [] -> clock_ok now t ->
  w1 = mk_pwt (pwt_sandboxes w1) (pwt_timeout w) (pwt_mt_class w) ->
  exists q1 w2, add_timeout now (set_mtds_pwt q t w1) t (pwt_sandboxes w1) (pwt_mt_class w) = Ret q1
     /\ mtds_pwt q1 = <[t := w2]> (mtds_pwt q) /\ pwt_sandboxes w2 = pwt_sandboxes w1
     /\ pwt_mt_class w2 = pwt_mt_class w /\ 0 <= pwt_timeout w2 <= UINT64_MAX
     /\ layout q1 (prio (mtds_pwt q1)) (tenant_timeout_get_priority (mtds_pwt q1)) (in_class q B)
          (fun a => (a = t /\ env_paid env t = true) \/ in_timeouts q B a).
Proof.
  intros W E EB Hclock Ew. assert (Hsome : is_Some (mtds_pwt q !! t)) by eauto.
  pose proof (layout_without q B t) as Lay. destruct (no_heaps q B t EB) as [HnC HnT].
  unfold add_timeout, clock_ok in *. destruct (env_paid env t) eqn:Hpd.
  - destruct (Hclock eq_refl) as [Hb Hm]. unfold env_paid in Hpd. apply Z.ltb_lt in Hpd.
    destruct (next_timeout_ok (env_boot env) (env_period env t) now Hb Hpd Hm) as (r & -> & Hr & _). ostep.
    set (w2 := mk_pwt (pwt_sandboxes w1) r (pwt_mt_class w)).
    assert (Eqq : set_mtds_pwt (set_mtds_pwt q t w1) t w2 = set_mtds_pwt q t w2)
      by (unfold set_mtds_pwt; cbn; by rewrite insert_insert_eq).
    rewrite Eqq.
    destruct (timeout_enqueue_ok (set_mtds_pwt q t w2) (prio (<[t := w2]> (mtds_pwt q))) (in_class q B) (in_timeouts q B) t)
      as (q1 & -> & Ep & L1);
      [by apply Lay | | done | cbn; rewrite dom_insert_same by done; by apply elem_of_dom |].
    { apply timeouts_range. eapply pwt_insert_range; [exact W|]. cbn. lia. }
    ostep. exists q1, w2. split; [done|]. rewrite Ep in L1 |- *. do 3 (split; [done|]). split; [cbn; lia|].
    eapply layout_ext; [exact L1 | by rewrite Ep | done..|]. intros a. cbn. tauto.
  - exists (set_mtds_pwt q t w1), w1. split; [done|]. split; [done|]. split; [done|]. rewrite Ew. cbn [pwt_mt_class pwt_timeout].
    split; [done|]. split; [apply (mq_pwt _ _ W t w E)|]. rewrite <- Ew.
    eapply layout_ext; [by apply (Lay w1) | done..|]. intros a. cbn. split; [by right|]. by intros [[_ ?]|?].
Qed.

(** The first sandbox of a tenant brings the tenant into its heaps. *)
Lemma add_first_ok now q B t w w1 p :
  mtds_wf q B -> mtds_pwt q !! t = Some w -> B t = [] -> env_tenant env p = t ->
  pq_bag (env_deadline env) (pwt_sandboxes w1) [p] -> plain (pwt_sandboxes w1) ->
  w1 = mk_pwt (pwt_sandboxes w1) (pwt_timeout w) (pwt_mt_class w) -> clock_ok now t ->
  exists q',
    (q1 ← add_timeout now (set_mtds_pwt q t w1) t (pwt_sandboxes w1) (pwt_mt_class w);
     '(_, q1) ← class_enqueue env q1 (pwt_mt_class w) t;
     Ret q1) = Ret q'
    /\ mtds_wf q' (upd B t [p]) /\ (forall a, class_of q' a = class_of q a).
Proof.
  intros W E EB Hp Bg Hu Ew Hclock. assert (Hsome : is_Some (mtds_pwt q !! t)) by eauto.
  destruct (no_heaps q B t EB) as [HnC HnT].
  destruct (add_timeout_ok now q B t w w1 W E EB Hclock Ew) as (q1 & w2 & -> & E1 & Es2 & Ec2 & Hr2 & L1).
  ostep. destruct (class_enqueue_ok q1 _ _ _ (pwt_mt_class w) t L1) as (q2 & -> & E2 & L2);
    [apply HnC | rewrite E1, dom_insert_same by done; by apply elem_of_dom |]. ostep.
  assert (Eq : mtds_pwt q2 = <[t := w2]> (mtds_pwt q)) by congruence.
  exists q2. split; [done|]. split; [|by eapply class_of_set].
  eapply (mtds_wf_rebuild q q2 B t w2 [p]); try done; try congruence.
  - apply NoDup_singleton.
  - intros a Ha. apply list_elem_of_singleton in Ha as ->. done.
  - eapply layout_ext; [exact L2 | done..| by rewrite E2 | | ].
    + intros c a. cbn. rewrite (in_class_upd q q2 B t w2) by done. rewrite Ec2.
      split; [intros [[-> ->]|Ha]|intros [(-> & -> & _)|[_ Ha]]]; auto.
      right. split; [|done]. intros ->. by eapply HnC.
    + intros a. cbn. rewrite (in_timeouts_upd q q2 B t w2) by done.
      split; [intros [[-> ?]|Ha]|intros [(-> & ? & _)|[_ Ha]]]; auto.
      right. split; [|done]. by intros ->.
Qed.

Lemma class_unique q B c d t : in_class q B c t -> in_class q B d t -> c = d.
Proof. intros (w & E & <- & _) (v & E' & <- & _). congruence. Qed.

(** The heaps of [q] after a change of the entry of [t] that keeps its timeout;
    the class heaps are still ordered by the old priorities. *)
Lemma layout_set q B t w w1 :
  mtds_wf q B -> mtds_pwt q !! t = Some w -> pwt_timeout w1 = pwt_timeout w ->
  layout (set_mtds_pwt q t w1) (prio (mtds_pwt q)) (tenant_timeout_get_priority (<[t := w1]> (mtds_pwt q)))
    (in_class q B) (in_timeouts q B).
Proof.
  intros W E Et. eapply layout_ext; [apply (mq_layout _ _ W) | apply dom_insert_same; eauto | by intros [] | done | done | |done..].
  intros a _. unfold tenant_timeout_get_priority. destruct (decide (a = t)) as [->|Hne].
  - by rewrite lookup_insert_eq, E.
  - by rewrite lookup_insert_ne.
Qed.

(** Deleting a tenant from its class heap and adding it again. *)
Lemma reheap_ok q f g P T c t :
  layout q f g P T -> P c t -> (forall d, d <> c -> ~ P d t) ->
  (forall a, a <> t -> f a = prio (mtds_pwt q) a) ->
  exists q1 q2, class_delete env q c t = Ret (0, q1) /\ class_enqueue env q1 c t = Ret (0, q2)
    /\ mtds_pwt q2 = mtds_pwt q /\ layout q2 (prio (mtds_pwt q2)) g P T.
Proof.
  intros Lay Pt Hother Hf. destruct (class_delete_ok q f g P T c t Lay Pt Hother Hf) as (q1 & E1 & M1 & L1).
  destruct (class_enqueue_ok q1 _ _ _ c t L1) as (q2 & E2 & M2 & L2);
    [by intros [? _] | rewrite M1; by eapply lay_dom |].
  exists q1, q2. split; [done|]. split; [done|]. split; [congruence|].
  eapply layout_ext; [exact L2 | done..| |done]. intros d a. cbn. split.
  - by intros [[-> ->]|[_ ?]].
  - intros Pa. destruct (decide (a = t)) as [->|Hne]; [|by right]. destruct (decide (d = c)) as [->|Hdc]; [by left|].
    by destruct (Hother d Hdc).
Qed.

(** The invariant for a tenant that stays in its heaps. *)
Lemma mtds_wf_stay q q' B t w w' l :
  mtds_wf q B -> mtds_pwt q !! t = Some w -> mtds_pwt q' = <[t := w']> (mtds_pwt q) -> B t <> [] -> l <> [] ->
  pq_bag (env_deadline env) (pwt_sandboxes w') l -> plain (pwt_sandboxes w') ->
  pwt_timeout w' = pwt_timeout w -> pwt_mt_class w' = pwt_mt_class w ->
  NoDup l -> (forall p, p ∈ l -> env_tenant env p = t) ->
  layout q' (prio (mtds_pwt q')) (tenant_timeout_get_priority (mtds_pwt q')) (in_class q B) (in_timeouts q B) ->
  mtds_wf q' (upd B t l).
Proof.
  intros W E Eq HB Hl Bg Hu Et Ec Hnd Hown Lay. assert (Hsome : is_Some (mtds_pwt q !! t)) by eauto.
  eapply (mtds_wf_rebuild q q' B t w' l); try done.
  - rewrite Et. apply (mq_pwt _ _ W t w E).
  - eapply layout_ext; [exact Lay | done..| |].
    + intros c a. rewrite (in_class_upd q q' B t w') by done. split.
      * intros Ha. destruct (decide (a = t)) as [->|Hne]; [left|by right].
        destruct Ha as (v & Ev & Hc & _). split; [done|]. split; [congruence|done].
      * intros [(-> & Hc & _)|[_ Ha]]; [|done]. exists w. split; [done|]. split; [congruence|done].
    + intros a. rewrite (in_timeouts_upd q q' B t w') by done. split.
      * intros Ha. destruct (decide (a = t)) as [->|Hne]; [left|by right]. split; [done|]. split; [apply Ha|done].
      * intros [(-> & Hp & _)|[_ Ha]]; [|done]. by split.
Qed.

(** A further sandbox moves the tenant in its heap when it is its earliest. *)
Lemma add_more_ok q B t w w1 p :
  mtds_wf q B -> mtds_pwt q !! t = Some w -> B t <> [] -> env_tenant env p = t -> (p ∉ B t) ->
  pq_bag (env_deadline env) (pwt_sandboxes w1) (p :: B t) -> plain (pwt_sandboxes w1) ->
  w1 = mk_pwt (pwt_sandboxes w1) (pwt_timeout w) (pwt_mt_class w) ->
  (highest_priority (pwt_sandboxes w) <= env_deadline env p ->
   highest_priority (pwt_sandboxes w1) = highest_priority (pwt_sandboxes w)) ->
  exists q',
    (if env_deadline env p <? priority_queue_peek (pwt_sandboxes w) then
       '(rc, q1) ← class_delete env (set_mtds_pwt q t w1) (pwt_mt_class w) t;
       assert (rc =? 0) ;;
       '(rc, q1) ← class_enqueue env q1 (pwt_mt_class w) t;
       if rc =? - ENOSPC then Stop Panic else Ret q1
     else Ret (set_mtds_pwt q t w1)) = Ret q'
    /\ mtds_wf q' (upd B t (p :: B t)) /\ (forall a, class_of q' a = class_of q a).
Proof.
  intros W E HB Hp Hni Bg Hu Ew Hmemo.
  assert (Et : pwt_timeout w1 = pwt_timeout w) by (by rewrite Ew).
  assert (Ec : pwt_mt_class w1 = pwt_mt_class w) by (by rewrite Ew).
  pose proof (layout_set q B t w w1 W E Et) as Lay.
  assert (Hin : in_class q B (pwt_mt_class w) t) by (by exists w).
  assert (Hnd : NoDup (p :: B t)) by (constructor; [done | apply (mq_nodup _ _ W)]).
  assert (Hown : forall a, a ∈ p :: B t -> env_tenant env a = t).
  { intros a [->|Ha]%elem_of_cons; [done | by apply (mq_owner _ _ W)]. }
  unfold priority_queue_peek. destruct (Z.ltb_spec (env_deadline env p) (highest_priority (pwt_sandboxes w))) as [Hlt|Hge].
  - destruct (reheap_ok (set_mtds_pwt q t w1) _ _ _ _ (pwt_mt_class w) t Lay Hin) as (q1 & q2 & -> & E2 & M & L2).
    + intros d Hd Hc. by destruct Hd; eapply class_unique.
    + intros a Ha. cbn. by rewrite prio_other.
    + ostep. rewrite E2. ostep. cbn [Z.eqb]. exists q2. split; [done|]. cbn [set_mtds_pwt mtds_pwt] in M.
      split; [|by eapply class_of_set].
      eapply (mtds_wf_stay q q2 B t w w1); try done. by rewrite M in L2 |- *.
  - exists (set_mtds_pwt q t w1). split; [done|]. split; [|by eapply class_of_set].
    eapply (mtds_wf_stay q _ B t w w1); try done.
    eapply layout_ext; [exact Lay | done..| |done|done|done]. intros c a _. cbn.
    destruct (decide (a = t)) as [->|Hne]; [|by rewrite prio_other].
    destruct (mq_pwt _ _ W t w E) as (Bg0 & Hu0 & _).
    rewrite (prio_memo (mtds_pwt q) t w (B t)), (prio_memo (<[t := w1]> (mtds_pwt q)) t w1 (p :: B t));
      rewrite ?lookup_insert_eq; auto. symmetry. apply Hmemo. lia.
Qed.

(** Adding a sandbox of a known tenant, when the tenant's queue has room. *)
Lemma add_ok now q B p w :
  mtds_wf q B -> mtds_pwt q !! env_tenant env p = Some w -> (p ∉ B (env_tenant env p)) ->
  clock_ok now (env_tenant env p) -> (length (B (env_tenant env p)) < RUNTIME_TENANT_QUEUE_SIZE)%nat ->
  exists q', local_runqueue_mtds_add env now q p = Ret q'
    /\ mtds_wf q' (upd B (env_tenant env p) (p :: B (env_tenant env p)))
    /\ forall a, class_of q' a = class_of q a.
Proof.
  intros W E Hni Hclock Hroom. set (t := env_tenant env p) in *.
  destruct (mq_pwt _ _ W t w E) as (Bg & Hu & Hr). pose proof (bag_size _ _ _ Bg) as Hs.
  destruct (enqueue_bag (env_deadline env) deadlines (pwt_sandboxes w) (B t) p Bg)
    as (inner & Ei & Bg' & _ & Hs' & Hu' & _ & Hc' & Hmemo); [by apply plain_accessible | rewrite (proj2 Hu); lia |].
  assert (Hp1 : plain inner) by (destruct Hu; split; congruence).
  unfold local_runqueue_mtds_add. fold t. unfold pwt_at. rewrite E. cbn [deref]. ostep. rewrite Ei. ostep.
  cbn [Z.eqb]. change (0 =? - ENOSPC) with false. cbn match.
  unfold priority_queue_length_nolock. rewrite (plain_accessible _ Hp1). ostep.
  set (w1 := mk_pwt inner (pwt_timeout w) (pwt_mt_class w)).
  destruct (decide (B t = [])) as [EB|HB].
  - rewrite decide_True by (rewrite Hs', Hs, EB; done). rewrite EB in *.
    apply (add_first_ok now q B t w w1 p); done.
  - rewrite decide_False by (rewrite Hs', Hs; destruct (B t); [done | cbn; lia]).
    apply (add_more_ok q B t w w1 p); try done. cbn.
    apply Hmemo. rewrite Hs. destruct (B t); [done | cbn; lia].
Qed.

(** ** Deleting *)

(** The last sandbox of a tenant takes the tenant out of its heaps, and a paid
    tenant back to the guaranteed class. *)
Lemma delete_last_ok q B t w w1 :
  mtds_wf q B -> mtds_pwt q !! t = Some w -> B t <> [] ->
  pq_bag (env_deadline env) (pwt_sandboxes w1) [] -> plain (pwt_sandboxes w1) ->
  w1 = mk_pwt (pwt_sandboxes w1) (pwt_timeout w) (pwt_mt_class w) ->
  exists q1 q', class_delete env (set_mtds_pwt q t w1) (pwt_mt_class w) t = Ret (0, q1)
    /\ (if env_paid env t then
          '(_, q1) ← timeout_delete q1 t;
          Ret (set_mtds_pwt q1 t (mk_pwt (pwt_sandboxes w1) (pwt_timeout w) MT_GUARANTEED))
        else Ret q1) = Ret q'
    /\ mtds_wf q' (upd B t [])
    /\ forall a, class_of q' a = if bool_decide (a = t) && env_paid env t then Some MT_GUARANTEED else class_of q a.
Proof.
  intros W E HB Bg Hu Ew. assert (Hsome : is_Some (mtds_pwt q !! t)) by eauto.
  assert (Et : pwt_timeout w1 = pwt_timeout w) by (by rewrite Ew).
  assert (Ec : pwt_mt_class w1 = pwt_mt_class w) by (by rewrite Ew).
  destruct (mq_pwt _ _ W t w E) as (_ & _ & Hr).
  destruct (class_delete_ok (set_mtds_pwt q t w1) _ _ _ _ (pwt_mt_class w) t (layout_set q B t w w1 W E Et))
    as (q1 & -> & M1 & L1); [by exists w | intros d Hd Hc; by destruct Hd; eapply class_unique; [|exists w] | |].
  { intros a Ha. cbn. by rewrite prio_other. }
  cbn [set_mtds_pwt mtds_pwt] in M1. rewrite <- M1 in L1 at 1. destruct (env_paid env t) eqn:Hpd.
  - destruct (timeout_delete_ok q1 _ _ _ _ t L1) as (q2 & E2 & M2 & L2); [by split | by rewrite M1|].
    exists q1. eexists. split; [done|]. rewrite E2. ostep. split; [done|].
    set (w2 := mk_pwt (pwt_sandboxes w1) (pwt_timeout w) MT_GUARANTEED).
    assert (Eq : mtds_pwt (set_mtds_pwt q2 t w2) = <[t := w2]> (mtds_pwt q))
      by (cbn; by rewrite M2, M1, insert_insert_eq).
    split.
    + eapply (mtds_wf_rebuild q _ B t w2 []); try done; [constructor | by intros a ?%not_elem_of_nil |].
      eapply layout_ext; [exact L2 | | by intros [] | done | | | |].
      * rewrite Eq, M2, M1. by rewrite !dom_insert_same.
      * intros c a [Ha _]. rewrite Eq, M1. by rewrite !prio_other.
      * intros a [Ha _]. rewrite Eq, M2, M1. by rewrite !timeout_other.
      * intros c a. cbn. rewrite (in_class_upd q _ B t w2) by done. tauto.
      * intros a. cbn. rewrite (in_timeouts_upd q _ B t w2) by done. tauto.
    + intros a. unfold class_of. rewrite Eq. destruct (decide (a = t)) as [->|Hne].
      * rewrite lookup_insert_eq, bool_decide_true by done. done.
      * rewrite lookup_insert_ne, bool_decide_false by done. done.
  - exists q1, q1. split; [done|]. split; [done|]. split.
    + eapply (mtds_wf_rebuild q q1 B t w1 []); try done; [by rewrite Et | constructor | by intros a ?%not_elem_of_nil |].
      eapply layout_ext; [exact L1 | done..| by rewrite M1 | |].
      * intros c a. cbn. rewrite (in_class_upd q _ B t w1) by done. tauto.
      * intros a. rewrite (in_timeouts_upd q _ B t w1) by done. split; [|tauto].
        intros Ha. right. split; [|done]. intros ->. destruct Ha as (_ & Ha & _). congruence.
    + intros a. rewrite andb_false_r. by eapply class_of_set.
Qed.

(** Deleting one of several sandboxes moves the tenant in its heap. *)
Lemma delete_more_ok q B t w w1 l :
  mtds_wf q B -> mtds_pwt q !! t = Some w -> B t <> [] -> l <> [] ->
  NoDup l -> (forall p, p ∈ l -> env_tenant env p = t) ->
  pq_bag (env_deadline env) (pwt_sandboxes w1) l -> plain (pwt_sandboxes w1) ->
  w1 = mk_pwt (pwt_sandboxes w1) (pwt_timeout w) (pwt_mt_class w) ->
  exists q1 q', class_delete env (set_mtds_pwt q t w1) (pwt_mt_class w) t = Ret (0, q1)
    /\ class_enqueue env q1 (pwt_mt_class w) t = Ret (0, q')
    /\ mtds_wf q' (upd B t l) /\ (forall a, class_of q' a = class_of q a).
Proof.
  intros W E HB Hl Hnd Hown Bg Hu Ew.
  assert (Et : pwt_timeout w1 = pwt_timeout w) by (by rewrite Ew).
  assert (Ec : pwt_mt_class w1 = pwt_mt_class w) by (by rewrite Ew).
  destruct (reheap_ok (set_mtds_pwt q t w1) _ _ _ _ (pwt_mt_class w) t (layout_set q B t w w1 W E Et))
    as (q1 & q2 & E1 & E2 & M & L2);
    [by exists w | intros d Hd Hc; by destruct Hd; eapply class_unique; [|exists w] | intros a Ha; cbn; by rewrite prio_other |].
  cbn [set_mtds_pwt mtds_pwt] in M. exists q1, q2. split; [done|]. split; [done|].
  split; [|by eapply class_of_set]. eapply (mtds_wf_stay q q2 B t w w1); try done. by rewrite M in L2 |- *.
Qed.

Definition class_after_delete q t (l : list Z) (a : Z) : option MULTI_TENANCY_CLASS :=
  if bool_decide (a = t) && bool_decide (l = []) && env_paid env t then Some MT_GUARANTEED else class_of q a.

Lemma delete_ok q B p w :
  mtds_wf q B -> mtds_pwt q !! env_tenant env p = Some w ->
  if decide (p ∈ B (env_tenant env p)) then
    exists q' l, local_runqueue_mtds_delete env q p = Ret q' /\ B (env_tenant env p) ≡ₚ p :: l
      /\ mtds_wf q' (upd B (env_tenant env p) l)
      /\ forall a, class_of q' a = class_after_delete q (env_tenant env p) l a
  else local_runqueue_mtds_delete env q p = Stop Panic.
Proof.
  intros W E. set (t := env_tenant env p) in *. destruct (mq_pwt _ _ W t w E) as (Bg & Hu & Hr).
  pose proof (plain_accessible _ Hu) as Hacc.
  pose proof (delete_bag (env_deadline env) (pwt_sandboxes w) (B t) p Bg Hacc) as D.
  unfold local_runqueue_mtds_delete. fold t. unfold pwt_at. rewrite E. cbn [deref]. ostep.
  destruct (decide (p ∈ B t)) as [Hin|Hin]; [|by rewrite D]. destruct D as (inner & l & -> & HP & Bg' & Hu' & _ & Hcap).
  ostep. cbn [Z.eqb Z.opp]. set (w1 := mk_pwt inner (pwt_timeout w) (pwt_mt_class w)).
  assert (HB : B t <> []) by (intros HB; by rewrite HB in Hin; apply not_elem_of_nil in Hin).
  assert (Hnd : NoDup l) by (pose proof (mq_nodup _ _ W t) as N; rewrite HP in N; by inversion N).
  assert (Hown : forall a, a ∈ l -> env_tenant env a = t)
    by (intros a Ha; apply (mq_owner _ _ W); rewrite HP; by right).
  assert (Hu1 : plain inner) by (destruct Hu; split; congruence).
  unfold priority_queue_length_nolock. rewrite (plain_accessible _ Hu1).
  rewrite (bag_size _ _ _ Bg'). unfold class_after_delete. destruct l as [|x l'].
  - destruct (delete_last_ok q B t w w1 W E HB Bg' Hu1 eq_refl) as (q1 & q' & -> & E2 & W' & Hc).
    ostep. cbn [Z.eqb Z.opp]. rewrite decide_False by (cbn; lia). exists q', []. split; [exact E2|].
    split; [done|]. split; [done|]. intros a. rewrite Hc. by rewrite (bool_decide_true (@nil Z = [])), andb_true_r by done.
  - destruct (delete_more_ok q B t w w1 (x :: l') W E HB ltac:(done) Hnd Hown Bg' Hu1 eq_refl)
      as (q1 & q' & -> & E2 & W' & Hc).
    ostep. cbn [Z.eqb Z.opp]. rewrite decide_True by (cbn; lia). rewrite E2. ostep. exists q', (x :: l').
    split; [done|]. split; [done|]. split; [done|]. intros a. rewrite Hc.
    by rewrite (bool_decide_false (x :: l' = [])), andb_false_r by done.
Qed.

(** ** Choosing the next sandbox *)

(** Moving a tenant from class [c] to class [d]. *)
Lemma move_class_ok q B t w c d :
  mtds_wf q B -> mtds_pwt q !! t = Some w -> pwt_mt_class w = c -> d <> c -> B t <> [] ->
  exists q1 q2 q3, class_delete env q c t = Ret (0, q1) /\ class_enqueue env q1 d t = Ret (0, q2)
    /\ set_class q2 t d = Ret q3 /\ mtds_wf q3 B
    /\ mtds_pwt q3 = <[t := mk_pwt (pwt_sandboxes w) (pwt_timeout w) d]> (mtds_pwt q).
Proof.
  intros W E Hc Hdc HB. pose proof (mq_layout _ _ W) as Lay.
  assert (Hin : in_class q B c t) by (by exists w). assert (Hsome : is_Some (mtds_pwt q !! t)) by eauto.
  destruct (class_delete_ok q _ _ _ _ c t Lay Hin) as (q1 & E1 & M1 & L1);
    [intros e He Hce; by destruct He; eapply class_unique | done |].
  destruct (class_enqueue_ok q1 _ _ _ d t L1) as (q2 & E2 & M2 & L2);
    [by intros [? _] | rewrite M1; by apply elem_of_dom; exists w |].
  assert (E3 : mtds_pwt q2 !! t = Some w) by (by rewrite M2, M1).
  set (w3 := mk_pwt (pwt_sandboxes w) (pwt_timeout w) d).
  exists q1, q2, (set_mtds_pwt q2 t w3). split; [done|]. split; [done|].
  split; [unfold set_class, pwt_at; rewrite E3; done|].
  assert (Eq : mtds_pwt (set_mtds_pwt q2 t w3) = <[t := w3]> (mtds_pwt q)) by (cbn; by rewrite M2, M1).
  split; [|done]. destruct (mq_pwt _ _ W t w E) as (Bg & Hu & Hr).
  assert (Hf : forall a, prio (mtds_pwt q2) a = prio (mtds_pwt (set_mtds_pwt q2 t w3)) a
     /\ tenant_timeout_get_priority (mtds_pwt q) a = tenant_timeout_get_priority (mtds_pwt (set_mtds_pwt q2 t w3)) a).
  { intros a. rewrite Eq, M2, M1. destruct (decide (a = t)) as [->|Hne]; [|by rewrite prio_other, timeout_other].
    unfold perworker_tenant_get_priority, tenant_timeout_get_priority. by rewrite lookup_insert_eq, E. }
  assert (Wf : mtds_wf (set_mtds_pwt q2 t w3) (upd B t (B t))).
  { eapply (mtds_wf_rebuild q _ B t w3 (B t)); try done; [apply (mq_nodup _ _ W) | apply (mq_owner _ _ W) |].
    eapply layout_ext; [exact L2 | | by intros [] | done | intros; apply Hf | intros; apply Hf | |].
    - rewrite Eq, M2, M1. by apply dom_insert_same.
    - intros e a. cbn. rewrite (in_class_upd q _ B t w3) by done. cbn. split.
      + intros [[-> ->]|[Ha ?]]; [by left | by right].
      + intros [(-> & -> & _)|[? ?]]; [by left | by right].
    - intros a. rewrite (in_timeouts_upd q _ B t w3) by done. split; [|intros [(-> & ? & _)|[_ ?]]; [|done]].
      + intros Ha. destruct (decide (a = t)) as [->|Hne]; [left; split; [done|]; split; [apply Ha|done] | by right].
      + split; [by exists w | done]. }
  revert Wf. apply mtds_wf_B. intros a. unfold upd. case_decide; [by subst|done].
Qed.

Lemma holds_size f g n m h h' P Q t :
  holds f n h P -> holds g m h' Q -> (forall a, Q a -> P a) -> P t -> ~ Q t -> (pq_size h' < pq_size h)%nat.
Proof.
  intros (l & B & Hn & Hl & _) (l' & B' & Hn' & Hl' & _) HQP Pt Qt.
  rewrite (bag_size _ _ _ B), (bag_size _ _ _ B').
  assert (Hsub : (t :: l') ⊆+ l); [|apply submseteq_length in Hsub; cbn in Hsub; lia].
  apply NoDup_submseteq; [constructor; [by rewrite Hl' | done]|].
  intros a [->|Ha]%elem_of_cons; apply Hl; [done|]. by apply HQP, Hl'.
Qed.

(** A tenant changes class only from [c] to [d], and only when [P] holds of it. *)
Definition reclassified (c d : MULTI_TENANCY_CLASS) (P : Z -> Prop) q q' : Prop :=
  forall a, class_of q' a = class_of q a \/ (class_of q a = Some c /\ class_of q' a = Some d /\ P a).

Lemma reclassified_refl c d P q : reclassified c d P q q.
Proof. by left. Qed.

Lemma reclassified_step c d (P : Z -> Prop) q q1 q2 t w w' :
  mtds_pwt q1 = <[t := w']> (mtds_pwt q) -> mtds_pwt q !! t = Some w -> pwt_mt_class w = c -> pwt_mt_class w' = d ->
  P t -> d <> c -> reclassified c d P q1 q2 -> reclassified c d P q q2.
Proof.
  intros Eq E Hc Hd Pt Hne R a. specialize (R a). unfold class_of in *. rewrite Eq in R.
  destruct (decide (a = t)) as [->|Ha].
  - rewrite lookup_insert_eq in R. rewrite E. right. cbn in R |- *. rewrite Hc. rewrite Hd in R.
    split; [done|]. split; [|done]. destruct R as [R|[R _]]; [done|congruence].
  - by rewrite lookup_insert_ne in R.
Qed.

Definition exhausted (budget : Z -> Z) (t : Z) : Prop := budget t <= 0.

Lemma demote_exhausted_ok budget B fuel q :
  mtds_wf q B -> (pq_size (mtds_guaranteed q) < fuel)%nat ->
  exists r q', demote_exhausted env budget fuel q = Ret (r, q') /\ mtds_wf q' B
    /\ reclassified MT_GUARANTEED MT_DEFAULT (exhausted budget) q q'
    /\ match r with
       | Some t => in_class q' B MT_GUARANTEED t /\ 0 < budget t
       | None => forall t, ~ in_class q' B MT_GUARANTEED t
       end.
Proof.
  revert q. induction fuel as [|fuel IH]; intros q W Hf; [lia|].
  cbn [demote_exhausted]. pose proof (lay_class _ _ _ _ _ (mq_layout _ _ W) MT_GUARANTEED) as Hg.
  destruct (holds_top _ _ _ _ Hg) as [(t & Et & Ht)|(Et & Hno)]; cbn [class_queue] in Et; rewrite Et; ostep.
  - change (0 =? - ENOENT) with false. cbn [deref]. ostep. destruct (Z.leb_spec (budget t) 0) as [Hb|Hb].
    + pose proof Ht as (w & E & Hc & HB).
      destruct (move_class_ok q B t w MT_GUARANTEED MT_DEFAULT W E Hc ltac:(done) HB) as (q1 & q2 & q3 & E1 & E2 & E3 & W3 & M3).
      unfold local_runqueue_mtds_demote. rewrite E1. ostep. cbn [Z.eqb Z.opp]. rewrite E2. ostep.
      change (0 =? - ENOSPC) with false. ostep. rewrite E3. ostep.
      destruct (IH q3 W3) as (r & q' & Er & W' & R & Hr).
      { enough (pq_size (mtds_guaranteed q3) < pq_size (mtds_guaranteed q))%nat by lia.
        apply (holds_size _ _ _ _ _ _ _ _ t Hg (lay_class _ _ _ _ _ (mq_layout _ _ W3) MT_GUARANTEED)); [|done|].
        - intros a (v & Ev & Hv & Ha). rewrite M3 in Ev. destruct (decide (a = t)) as [->|Hne]; [done|].
          rewrite lookup_insert_ne in Ev by done. by exists v.
        - intros (v & Ev & Hv & _). rewrite M3, lookup_insert_eq in Ev. by injection Ev as <-. }
      exists r, q'. split; [done|]. split; [done|]. split; [|done]. by eapply reclassified_step.
    + exists (Some t), q. split; [done|]. split; [done|]. split; [apply reclassified_refl | done].
  - exists None, q. split; [done|]. split; [done|]. split; [apply reclassified_refl | done].
Qed.

Lemma first_sandbox_ok q B c t :
  mtds_wf q B -> in_class q B c t ->
  exists p, first_sandbox q t = Ret p /\ p ∈ B t /\ env_tenant env p = t
    /\ prio (mtds_pwt q) t = env_deadline env p.
Proof.
  intros W (w & E & _ & HB). destruct (mq_pwt _ _ W t w E) as (Bg & Hu & _).
  unfold first_sandbox, pwt_at, perworker_tenant_get_priority. rewrite E. cbn [deref]. ostep.
  destruct (top_bag _ _ _ Bg) as [(p & -> & Hp & _)|(Hn & _)]; [by apply plain_accessible| |done].
  ostep. exists p. split; [done|]. split; [done|]. split; [by apply (mq_owner _ _ W) | done].
Qed.

Lemma class_of_in q B c t : in_class q B c t -> class_of q t = Some c.
Proof. intros (w & E & <- & _). unfold class_of. by rewrite E. Qed.

(** What [local_runqueue_mtds_get_next] may return in the state [q']. *)
Definition next_choice (budget : Z -> Z) q' (B : Z -> list Z) (r : option Z) : Prop :=
  match r with
  | Some p => let t := env_tenant env p in
      p ∈ B t /\ prio (mtds_pwt q') t = env_deadline env p
      /\ ((class_of q' t = Some MT_GUARANTEED /\ 0 < budget t)
          \/ (class_of q' t = Some MT_DEFAULT /\ forall a, ~ in_class q' B MT_GUARANTEED a))
  | None => forall t, B t = []
  end.

(** The call always returns, and terminates its demotions; it demotes only
    guaranteed tenants whose budget is used up, and keeps every sandbox. *)
Lemma get_next_ok budget q B :
  mtds_wf q B ->
  exists r q', local_runqueue_mtds_get_next env budget q = Ret (r, q') /\ mtds_wf q' B
    /\ reclassified MT_GUARANTEED MT_DEFAULT (exhausted budget) q q' /\ next_choice budget q' B r.
Proof.
  intros W. unfold local_runqueue_mtds_get_next.
  destruct (demote_exhausted_ok budget B (S (pq_size (mtds_guaranteed q))) q W) as ([t|] & q' & -> & W' & R & Hr); [lia|..]; ostep.
  - destruct Hr as [Ht Hb]. destruct (first_sandbox_ok q' B _ t W' Ht) as (p & -> & Hp & Ep & Ed). ostep.
    exists (Some p), q'. split; [done|]. split; [done|]. split; [done|]. cbn. rewrite Ep.
    split; [done|]. split; [done|]. left. split; [by eapply class_of_in | done].
  - pose proof (lay_class _ _ _ _ _ (mq_layout _ _ W') MT_DEFAULT) as Hg.
    destruct (holds_top _ _ _ _ Hg) as [(t & Et & Ht)|(Et & Hno)]; cbn [class_queue] in Et; rewrite Et; ostep.
    + change (0 =? - ENOENT) with false. cbn [deref]. ostep.
      destruct (first_sandbox_ok q' B _ t W' Ht) as (p & -> & Hp & Ep & Ed). ostep.
      exists (Some p), q'. split; [done|]. split; [done|]. split; [done|]. cbn. rewrite Ep.
      split; [done|]. split; [done|]. right. split; [by eapply class_of_in | done].
    + exists None, q'. split; [done|]. split; [done|]. split; [done|]. intros t.
      destruct (mtds_pwt q' !! t) as [w|] eqn:E; [|by apply (mq_none _ _ W')].
      destruct (B t) as [|x l] eqn:EB; [done|]. exfalso.
      assert (Hin : in_class q' B (pwt_mt_class w) t) by (exists w; by rewrite EB).
      destruct (pwt_mt_class w); [by eapply Hno | by eapply Hr].
Qed.

(** ** Promotions *)

Definition timeout_of q (t : Z) : Z := tenant_timeout_get_priority (mtds_pwt q) t.

Lemma timeout_at q t w : mtds_pwt q !! t = Some w -> timeout_of q t = pwt_timeout w.
Proof. intros E. unfold timeout_of, tenant_timeout_get_priority. by rewrite E. Qed.

(** A tenant's timeout is queued again after the clock's reading. *)
Lemma requeue_ok reading q B t w :
  mtds_wf q B -> mtds_pwt q !! t = Some w -> in_timeouts q B t -> clock_ok reading t ->
  exists q1 r q', timeout_delete q t = Ret (0, q1)
    /\ get_next_timeout_of_tenant (env_boot env) (env_period env t) reading = Ret r /\ reading < r
    /\ mtds_pwt q1 !! t = Some w
    /\ timeout_enqueue (set_mtds_pwt q1 t (mk_pwt (pwt_sandboxes w) r (pwt_mt_class w))) t = Ret (0, q')
    /\ mtds_pwt q' = <[t := mk_pwt (pwt_sandboxes w) r (pwt_mt_class w)]> (mtds_pwt q) /\ mtds_wf q' B.
Proof.
  intros W E Ht Hclock. pose proof (mq_layout _ _ W) as Lay. pose proof Ht as (Hsome & Hpd & HB).
  destruct (Hclock Hpd) as [Hb Hm]. unfold env_paid in Hpd. apply Z.ltb_lt in Hpd.
  destruct (next_timeout_ok (env_boot env) (env_period env t) reading Hb Hpd Hm) as (r & Er & Hr & _).
  destruct (timeout_delete_ok q _ _ _ _ t Lay Ht) as (q1 & E1 & M1 & L1); [done|].
  set (w2 := mk_pwt (pwt_sandboxes w) r (pwt_mt_class w)).
  assert (Hsame : forall a, prio (mtds_pwt q) a = prio (<[t := w2]> (mtds_pwt q)) a).
  { intros a. destruct (decide (a = t)) as [->|Hne]; [|by rewrite prio_other].
    unfold perworker_tenant_get_priority. by rewrite lookup_insert_eq, E. }
  destruct (timeout_enqueue_ok (set_mtds_pwt q1 t w2) (prio (<[t := w2]> (mtds_pwt q))) (in_class q B)
              (fun a => a <> t /\ in_timeouts q B a) t) as (q' & E2 & M2 & L2).
  - cbn. eapply layout_ext; [exact L1 | cbn; rewrite M1; by apply dom_insert_same | by intros [] | done | done | |done..].
    intros a [Ha _]. by rewrite timeout_other.
  - cbn. rewrite M1. apply timeouts_range. eapply pwt_insert_range; [exact W|]. cbn. lia.
  - by intros [? _].
  - cbn. rewrite M1, dom_insert_same by done. by apply elem_of_dom.
  - cbn [set_mtds_pwt mtds_pwt] in M2. rewrite M1 in M2. exists q1, r, q'. rewrite M1.
    split; [done|]. split; [done|]. split; [lia|]. do 3 (split; [done|]).
    destruct (mq_pwt _ _ W t w E) as (Bg & Hu & _).
    assert (Wf : mtds_wf q' (upd B t (B t))).
    { eapply (mtds_wf_rebuild q q' B t w2 (B t)); try done; [cbn; lia | apply (mq_nodup _ _ W) | apply (mq_owner _ _ W) |].
      eapply layout_ext; [exact L2 | done..| by rewrite M2 | done | |].
      - intros c a. rewrite (in_class_upd q q' B t w2) by done. cbn. split.
        + intros Ha. destruct (decide (a = t)) as [->|Hne]; [left|by right].
          destruct Ha as (v & Ev & Hc & _). split; [done|]. split; [congruence|done].
        + intros [(-> & Hc & _)|[_ Ha]]; [by exists w | done].
      - intros a. cbn. rewrite (in_timeouts_upd q q' B t w2) by done. unfold env_paid. rewrite (proj2 (Z.ltb_lt 0 _) Hpd). tauto. }
    revert Wf. apply mtds_wf_B. intros a. unfold upd. case_decide; [by subst|done].
Qed.

Lemma promote_tenant_ok reading q B t w :
  mtds_wf q B -> mtds_pwt q !! t = Some w -> in_timeouts q B t -> clock_ok reading t ->
  exists q' w', promote_tenant env reading q t = Ret q' /\ mtds_wf q' B
    /\ mtds_pwt q' = <[t := w']> (mtds_pwt q) /\ pwt_sandboxes w' = pwt_sandboxes w
    /\ pwt_mt_class w' = MT_GUARANTEED /\ reading < pwt_timeout w'.
Proof.
  intros W E Ht Hclock. pose proof Ht as (_ & Hpd & HB).
  destruct (mq_pwt _ _ W t w E) as (Bg & Hu & _). unfold promote_tenant, pwt_at. rewrite E. cbn [deref]. ostep.
  unfold priority_queue_length_nolock. rewrite (plain_accessible _ Hu). ostep.
  rewrite (bag_size _ _ _ Bg), (bool_decide_true (0 < length (B t))%nat) by (destruct (B t); [done | cbn; lia]). ostep.
  assert (exists q1 w1, (if decide (pwt_mt_class w = MT_DEFAULT)
       then q1 ← local_runqueue_mtds_promote env q t; set_class q1 t MT_GUARANTEED else Ret q) = Ret q1
     /\ mtds_wf q1 B /\ mtds_pwt q1 = <[t := w1]> (mtds_pwt q) /\ pwt_sandboxes w1 = pwt_sandboxes w
     /\ pwt_mt_class w1 = MT_GUARANTEED)
    as (q1 & w1 & -> & W1 & M1 & Hs1 & Hc1).
  { case_decide as Hc.
    - destruct (move_class_ok q B t w MT_DEFAULT MT_GUARANTEED W E Hc ltac:(done) HB) as (q1 & q2 & q3 & E1 & E2 & E3 & W3 & M3).
      unfold local_runqueue_mtds_promote. rewrite E1. ostep. cbn [Z.eqb Z.opp]. rewrite E2. ostep.
      change (0 =? - ENOSPC) with false. ostep. rewrite E3. by eexists _, _.
    - exists q, w. rewrite insert_id by done. by destruct (pwt_mt_class w). }
  ostep. assert (E1 : mtds_pwt q1 !! t = Some w1) by (by rewrite M1, lookup_insert_eq).
  destruct (requeue_ok reading q1 B t w1 W1 E1) as (q2 & r & q3 & -> & -> & Hr & E2 & E3 & M3 & W3);
    [by split; [exists w1|] | done |].
  ostep. rewrite E2. cbn [deref]. ostep. rewrite E3. ostep.
  eexists q3, _. split; [done|]. split; [done|]. rewrite M3, M1, insert_insert_eq. by split.
Qed.

(** The tenants whose timeout has passed. *)
Definition expired now q := filter (fun tw => pwt_timeout tw.2 <= now) (mtds_pwt q).

Lemma expired_shrinks now q q' t w w' :
  mtds_pwt q !! t = Some w -> pwt_timeout w <= now -> mtds_pwt q' = <[t := w']> (mtds_pwt q) -> now < pwt_timeout w' ->
  (size (expired now q') < size (expired now q))%nat.
Proof.
  intros E Hw Eq Hw'. unfold expired. rewrite Eq, map_filter_insert_False by (cbn; lia).
  assert (Ef : filter (fun tw => pwt_timeout tw.2 <= now) (mtds_pwt q) !! t = Some w)
    by (by apply map_lookup_filter_Some_2).
  rewrite map_filter_delete, map_size_delete_Some by eauto.
  assert (Hne : size (filter (fun tw => pwt_timeout tw.2 <= now) (mtds_pwt q)) <> 0%nat); [|lia].
  rewrite map_size_ne_0_lookup. by exists t, w.
Qed.

(** What processing the promotions does to classes and timeouts: a tenant is
    untouched or its timeout had passed, and it is guaranteed with a timeout
    after [now]. *)
Definition promoted now q q' : Prop :=
  forall a, mtds_pwt q' !! a = mtds_pwt q !! a
    \/ exists w w', mtds_pwt q !! a = Some w /\ mtds_pwt q' !! a = Some w' /\ pwt_sandboxes w' = pwt_sandboxes w
         /\ pwt_timeout w <= now < pwt_timeout w' /\ pwt_mt_class w' = MT_GUARANTEED.

Lemma promoted_step now q q1 q2 t w w' :
  mtds_pwt q !! t = Some w -> pwt_timeout w <= now -> mtds_pwt q1 = <[t := w']> (mtds_pwt q) ->
  pwt_sandboxes w' = pwt_sandboxes w -> now < pwt_timeout w' -> pwt_mt_class w' = MT_GUARANTEED ->
  promoted now q1 q2 -> promoted now q q2.
Proof.
  intros E Hw Eq Hs Hw' Hc HP a. specialize (HP a). rewrite Eq in HP. destruct (decide (a = t)) as [->|Hne].
  - rewrite lookup_insert_eq in HP. right. exists w.
    destruct HP as [HP|(v & v' & [= <-] & _ & _ & Hv & _)]; [by exists w' | lia].
  - by rewrite lookup_insert_ne in HP.
Qed.

(** The timeout at the head of the queue, if any, is after [now]. *)
Definition head_pending now q : Prop :=
  match priority_queue_top_nolock (worker_thread_timeout_queue q) with
  | Ret (_, Some t) => now < timeout_of q t
  | Ret (_, None) => True
  | Stop _ => False
  end.

Lemma promote_expired_ok now clock B fuel q t :
  (forall k a, now <= clock k /\ clock_ok (clock k) a) -> mtds_wf q B ->
  priority_queue_top_nolock (worker_thread_timeout_queue q) = Ret (0, Some t) -> in_timeouts q B t ->
  (size (expired now q) < fuel)%nat ->
  exists q', promote_expired env fuel now clock q t = Ret q' /\ mtds_wf q' B
    /\ promoted now q q' /\ head_pending now q'.
Proof.
  intros Hclock. revert q t. induction fuel as [|fuel IH]; intros q t W Htop Ht Hf; [lia|].
  cbn [promote_expired]. pose proof Ht as ((w & E) & _ & HB). unfold pwt_at. rewrite E. cbn [deref]. ostep.
  destruct (Z.leb_spec (pwt_timeout w) now) as [Hle|Hgt].
  - destruct (promote_tenant_ok (clock fuel) q B t w W E Ht) as (q1 & w1 & -> & W1 & M1 & Hs1 & Hc1 & Hr1); [apply Hclock|].
    destruct (Hclock fuel t) as [Hge _]. ostep.
    assert (Ht1 : in_timeouts q1 B t).
    { destruct Ht as (_ & ? & ?). split; [|done]. rewrite M1, lookup_insert_eq. eauto. }
    destruct (holds_top _ _ _ _ (lay_timeouts _ _ _ _ _ (mq_layout _ _ W1))) as [(t1 & Et & Hin)|(_ & Hno)];
      [|by destruct (Hno t)].
    rewrite Et. ostep. cbn [default]. destruct (IH q1 t1 W1 Et Hin) as (q' & Eq & W' & HP & Hh).
    { pose proof (expired_shrinks now q q1 t w w1 E Hle M1) as Hs. lia. }
    exists q'. split; [done|]. split; [done|]. split; [|done]. eapply promoted_step; try done. lia.
  - exists q. split; [done|]. split; [done|]. split; [by left|]. unfold head_pending. rewrite Htop.
    by rewrite (timeout_at q t w).
Qed.

Lemma promotions_ok now clock B fuel q :
  (forall k a, now <= clock k /\ clock_ok (clock k) a) -> mtds_wf q B -> (size (expired now q) < fuel)%nat ->
  exists q', local_timeout_queue_process_promotions env fuel now clock q = Ret q' /\ mtds_wf q' B
    /\ promoted now q q' /\ head_pending now q'.
Proof.
  intros Hclock W Hf. unfold local_timeout_queue_process_promotions.
  destruct (holds_top _ _ _ _ (lay_timeouts _ _ _ _ _ (mq_layout _ _ W))) as [(t & Et & Hin)|(Et & Hno)]; rewrite Et; ostep.
  - by apply (promote_expired_ok now clock B).
  - exists q. split; [done|]. split; [done|]. split; [by left|]. unfold head_pending. by rewrite Et.
Qed.

(** ** Whole runs *)

Lemma is_empty_ok q B :
  mtds_wf q B -> exists b, local_runqueue_mtds_is_empty q = Ret b /\ (b = true <-> forall t, B t = []).
Proof.
  intros W. unfold local_runqueue_mtds_is_empty, priority_queue_length_nolock.
  destruct (lay_class _ _ _ _ _ (mq_layout _ _ W) MT_GUARANTEED) as (lg & Bg & _ & Hg & Ug & _).
  destruct (lay_class _ _ _ _ _ (mq_layout _ _ W) MT_DEFAULT) as (ld & Bd & _ & Hd & Ud & _).
  cbn [class_queue] in *. unfold pq_accessible. rewrite Ug, Ud. cbn [negb orb]. ostep.
  rewrite (bag_size _ _ _ Bg), (bag_size _ _ _ Bd).
  assert (Hall : (lg = [] /\ ld = []) <-> forall t, B t = []).
  { split.
    - intros [-> ->] t. destruct (mtds_pwt q !! t) as [w|] eqn:E; [|by apply (mq_none _ _ W)].
      destruct (B t) as [|x l] eqn:EB; [done|]. exfalso.
      assert (Hin : in_class q B (pwt_mt_class w) t) by (exists w; by rewrite EB).
      destruct (pwt_mt_class w); [apply Hd in Hin | apply Hg in Hin]; by apply not_elem_of_nil in Hin.
    - intros EB. split.
      + destruct lg as [|x lg]; [done|]. destruct (Hg x) as [(_ & _ & _ & Hx) _]; [by left | by rewrite EB in Hx].
      + destruct ld as [|x ld]; [done|]. destruct (Hd x) as [(_ & _ & _ & Hx) _]; [by left | by rewrite EB in Hx]. }
  case_decide as Hl; eexists; (split; [done|]); rewrite <- Hall.
  - rewrite bool_decide_eq_true, length_zero_iff_nil. apply length_zero_iff_nil in Hl. tauto.
  - split; [done|]. by intros [-> _].
Qed.

Definition bag_of_event (B : Z -> list Z) (e : mtds_event) : Z -> list Z :=
  match e with
  | EAdd _ p => upd B (env_tenant env p) (p :: B (env_tenant env p))
  | EDelete p => upd B (env_tenant env p) (filter (fun a => a <> p) (B (env_tenant env p)))
  | ENext _ | EPromotions _ _ => B
  end.

(** When a call is in order: a sandbox is added once, while its tenant's queue
    has room, and deleted while present; the clock does not run backwards. *)
Definition event_ok (tenants : gset Z) (B : Z -> list Z) (e : mtds_event) : Prop :=
  match e with
  | EAdd now p => let t := env_tenant env p in
      t ∈ tenants /\ (p ∉ B t) /\ clock_ok now t /\ (length (B t) < RUNTIME_TENANT_QUEUE_SIZE)%nat
  | EDelete p => p ∈ B (env_tenant env p)
  | ENext _ => True
  | EPromotions now clock => forall k a, now <= clock k /\ clock_ok (clock k) a
  end.

Lemma filter_others (p : Z) (l l' : list Z) : NoDup l -> l ≡ₚ p :: l' -> l' ≡ₚ filter (fun a => a <> p) l.
Proof.
  intros Hnd HP. pose proof Hnd as Hnd'. rewrite HP in Hnd'. inversion Hnd' as [|? ? Hni Hnd'']; subst.
  apply NoDup_Permutation; [done | |].
  - by apply list.NoDup_filter.
  - intros a. rewrite list_elem_of_filter, HP, elem_of_cons. split; [intros Ha; split; [by intros -> | by right]|].
    by intros [Hne [->|Ha]].
Qed.

Lemma event_ok_step q B e :
  mtds_wf q B -> event_ok (dom (mtds_pwt q)) B e ->
  exists q', mtds_exec env q e = Ret q' /\ mtds_wf q' (bag_of_event B e) /\ dom (mtds_pwt q') = dom (mtds_pwt q).
Proof.
  intros W. assert (Hdom : forall q', (forall a, is_Some (class_of q' a) <-> is_Some (class_of q a)) ->
    dom (mtds_pwt q') = dom (mtds_pwt q)).
  { intros q' Hc. apply set_eq. intros a. rewrite !elem_of_dom. specialize (Hc a). unfold class_of in Hc.
    by rewrite !fmap_is_Some in Hc. }
  destruct e as [now p | p | budget | now clock]; cbn [event_ok mtds_exec bag_of_event].
  - intros ((w & E)%elem_of_dom & Hni & Hclock & Hroom).
    destruct (add_ok now q B p w W E Hni Hclock Hroom) as (q' & -> & W' & Hc).
    exists q'. split; [done|]. split; [done|]. apply Hdom. intros a. by rewrite Hc.
  - intros Hin. destruct (mtds_pwt q !! env_tenant env p) as [w|] eqn:E;
      [|rewrite (mq_none _ _ W _ E) in Hin; by apply not_elem_of_nil in Hin].
    pose proof (delete_ok q B p w W E) as D. rewrite decide_True in D by done.
    destruct D as (q' & l & -> & HP & W' & Hc). exists q'. split; [done|]. split.
    + revert W'. apply mtds_wf_B. intros a. unfold upd. case_decide; [|done]. apply filter_others; [apply (mq_nodup _ _ W)|done].
    + apply Hdom. intros a. rewrite Hc. unfold class_after_delete.
      destruct (decide (a = env_tenant env p)) as [->|Hne].
      * case_match; [|done]. unfold class_of. rewrite E. split; eauto.
      * by rewrite bool_decide_false.
  - intros _. destruct (get_next_ok budget q B W) as (r & q' & -> & W' & R & _). ostep. exists q'.
    split; [done|]. split; [done|]. apply Hdom. intros a. destruct (R a) as [->|(-> & -> & _)]; split; eauto.
  - intros Hclock. destruct (promotions_ok now clock B (S (size (mtds_pwt q))) q Hclock W) as (q' & -> & W' & HP & _).
    { unfold expired. apply le_n_S. apply map_size_filter. }
    exists q'. split; [done|]. split; [done|]. apply Hdom. intros a.
    unfold class_of. destruct (HP a) as [->|(w & w' & -> & -> & _)]; [done|]. split; eauto.
Qed.

(** The calls of a run are in order one after the other. *)
Fixpoint run_allowed (tenants : gset Z) (B : Z -> list Z) (es : list mtds_event) : Prop :=
  match es with
  | [] => True
  | e :: es => event_ok tenants B e /\ run_allowed tenants (bag_of_event B e) es
  end.

Fixpoint bag_of_run (B : Z -> list Z) (es : list mtds_event) : Z -> list Z :=
  match es with [] => B | e :: es => bag_of_run (bag_of_event B e) es end.

Lemma run_ok es q B :
  mtds_wf q B -> run_allowed (dom (mtds_pwt q)) B es ->
  exists q', mtds_run env q es = Ret q' /\ mtds_wf q' (bag_of_run B es).
Proof.
  revert q B. induction es as [|e es IH]; intros q B W; cbn [run_allowed mtds_run bag_of_run]; [by exists q|].
  intros [He Hes]. destruct (event_ok_step q B e W He) as (q1 & -> & W1 & D1). ostep.
  apply IH; [done|]. by rewrite D1.
Qed.

(** The heaps a worker starts with, for tenants as they are initialized. *)
Lemma initialize_wf (pwts : gmap Z (perworker_tenant_sandbox_queue L)) :
  (size pwts <= RUNTIME_MAX_TENANT_COUNT)%nat ->
  (forall t w, pwts !! t = Some w -> w = pwt_init (env_period env t)) ->
  mtds_wf (local_runqueue_mtds_initialize pwts) (fun _ => []).
Proof.
  intros Hs Hw. assert (Hempty : forall f n P, (n <= RUNTIME_MAX_TENANT_COUNT)%nat -> (forall t : Z, ~ P t) ->
    holds f n (priority_queue_initialize RUNTIME_MAX_TENANT_COUNT false) P).
  { intros f n P Hn HP. exists []. split; [apply pq_repr_bag, initialize_ok|]. split; [constructor|].
    split; [|done]. intros t. split; [by intros ?%not_elem_of_nil | by intros ?%HP]. }
  split; try done.
  - intros t w E. rewrite (Hw t w E). split; [apply pq_repr_bag, initialize_ok|]. by split.
  - intros t p Hp. by apply not_elem_of_nil in Hp.
  - intros t. constructor.
  - split.
    + intros []; apply Hempty; try done; by intros t (? & ? & ? & []).
    + apply Hempty; [done|]. by intros t (? & ? & []).
    + intros c t (w & E & _). by apply elem_of_dom.
    + intros t (E & _). by apply elem_of_dom.
Qed.

(** ** Claims *)

(** C16: a worker under the multi-tenant policy loses no sandbox and does not
    stop.  Start from the heaps a worker is initialized with, for at most
    RUNTIME_MAX_TENANT_COUNT tenants, and run any sequence of additions,
    deletions, choices of the next sandbox (with whatever budgets the tenants
    have at the time) and promotions, where a sandbox is added once and deleted
    while present and no tenant exceeds its queue.  Every call returns: no
    panic, no failed assertion.  Afterwards each tenant's queue holds exactly
    the sandboxes added and not deleted, each tenant with sandboxes is in the
    heap of its class and no other, each paid one in the timeout heap, and the
    emptiness test is right. *)
Theorem mtds_run_spec (pwts : gmap Z (perworker_tenant_sandbox_queue L)) (es : list mtds_event) :
  (size pwts <= RUNTIME_MAX_TENANT_COUNT)%nat ->
  (forall t w, pwts !! t = Some w -> w = pwt_init (env_period env t)) ->
  run_allowed (dom pwts) (fun _ => []) es ->
  exists q' empty, mtds_run env (local_runqueue_mtds_initialize pwts) es = Ret q'
    /\ mtds_wf q' (bag_of_run (fun _ => []) es)
    /\ local_runqueue_mtds_is_empty q' = Ret empty
    /\ (empty = true <-> forall t, bag_of_run (fun _ => []) es t = []).
Proof.
  intros Hs Hw Hall.
  destruct (run_ok es _ _ (initialize_wf pwts Hs Hw) Hall) as (q' & E & W).
  destruct (is_empty_ok q' _ W) as (b & Eb & Hb). by exists q', b.
Qed.

(** Processing the promotions terminates and gives back the guarantee.
    With a clock that does not run backwards, the loop ends after at most one
    round per tenant without a timeout in the future; every tenant it touches had an expired timeout,
    keeps its sandboxes, is guaranteed afterwards and has a timeout in the
    future; the tenant at the head of the timeout heap is not expired. *)
Theorem mtds_promotions_spec (now : Z) (clock : nat -> Z) (fuel : nat) q (B : Z -> list Z) :
  (forall k a, now <= clock k /\ clock_ok (clock k) a) -> mtds_wf q B -> (size (expired now q) < fuel)%nat ->
  exists q', local_timeout_queue_process_promotions env fuel now clock q = Ret q' /\ mtds_wf q' B
    /\ promoted now q q' /\ head_pending now q'.
Proof. apply promotions_ok. Qed.
End spec.

(** ** A worker with a paid and an unpaid tenant *)

Definition two_tenants_env : mtds_env :=
  {| env_deadline p := if (0 <=? p) && (p <=? UINT64_MAX) then p else 0;
     env_tenant p := if Z.odd p then 1 else 2;
     env_period t := if t =? 1 then 10 else 0;
     env_boot := 0 |}.

Definition two_tenants : gmap Z (perworker_tenant_sandbox_queue bool) :=
  {[ 1 := pwt_init 10; 2 := pwt_init 0 ]}.

(** Three sandboxes arrive, the paid tenant is demoted and promoted again, and
    one of its sandboxes leaves. *)
Definition two_tenants_run : list mtds_event :=
  [EAdd 5 101; EAdd 6 100; EAdd 7 99; ENext (fun _ => 0); EPromotions 12 (fun _ => 13); EDelete 101].

Lemma two_tenants_deadlines p : 0 <= env_deadline two_tenants_env p <= UINT64_MAX.
Proof.
  cbn. destruct (Z.leb_spec 0 p); cbn; [|unfold UINT64_MAX; lia]. destruct (Z.leb_spec p UINT64_MAX); unfold UINT64_MAX in *; lia.
Qed.

Lemma two_tenants_clock now t : 0 <= now <= 100 -> clock_ok two_tenants_env now t.
Proof. intros Hn _. cbn. destruct (t =? 1); unfold UINT64_MAX; lia. Qed.

Lemma two_tenants_allowed : run_allowed two_tenants_env (dom two_tenants) (fun _ => []) two_tenants_run.
Proof.
  assert (Hroom : forall n, (n < 5)%nat -> (n < RUNTIME_TENANT_QUEUE_SIZE)%nat).
  { intros n Hn. apply (Nat.lt_le_trans _ 5); [done|]. apply Nat.leb_le. by vm_compute. }
  cbn [run_allowed two_tenants_run event_ok].
  repeat match goal with
  | |- _ /\ _ => split
  | |- clock_ok _ _ _ => apply two_tenants_clock; lia
  | |- (_ < RUNTIME_TENANT_QUEUE_SIZE)%nat => apply Hroom; vm_compute; lia
  | |- _ ∈ dom _ => apply elem_of_dom; eexists; by vm_compute
  | |- True => done
  end; try (by apply (bool_decide_unpack _); vm_compute).
  intros k a. split; [done|]. apply two_tenants_clock. lia.
Qed.

Lemma two_tenants_init t w :
  two_tenants !! t = Some w -> w = pwt_init (env_period two_tenants_env t).
Proof.
  unfold two_tenants. rewrite lookup_insert_Some, lookup_singleton_Some.
  intros [[<- <-]|[_ [<- <-]]]; done.
Qed.

Lemma mtds_run_witness :
  exists q' empty, mtds_run two_tenants_env (local_runqueue_mtds_initialize two_tenants) two_tenants_run = Ret q'
    /\ mtds_wf two_tenants_env q' (bag_of_run two_tenants_env (fun _ => []) two_tenants_run)
    /\ local_runqueue_mtds_is_empty q' = Ret empty
    /\ (empty = true <-> forall t, bag_of_run two_tenants_env (fun _ => []) two_tenants_run t = []).
Proof.
  apply (mtds_run_spec two_tenants_env two_tenants_deadlines two_tenants two_tenants_run).
  - apply Nat.leb_le. by vm_compute.
  - apply two_tenants_init.
  - apply two_tenants_allowed.
Defined.

Definition after_calls (es : list mtds_event) : mtds_runqueue bool :=
  match mtds_run two_tenants_env (local_runqueue_mtds_initialize two_tenants) es with
  | Ret q => q
  | Stop _ => local_runqueue_mtds_initialize two_tenants
  end.

Lemma run_allowed_app env tenants B es es' :
  run_allowed env tenants B (es ++ es') -> run_allowed env tenants B es.
Proof.
  revert B. induction es as [|e es IH]; intros B; cbn [app run_allowed]; [done|].
  intros [He Hes]. split; [done | by apply IH].
Qed.

Lemma after_calls_wf n :
  mtds_wf two_tenants_env (after_calls (take n two_tenants_run))
    (bag_of_run two_tenants_env (fun _ => []) (take n two_tenants_run)).
Proof.
  destruct (run_ok two_tenants_env two_tenants_deadlines (take n two_tenants_run)
              (local_runqueue_mtds_initialize two_tenants) (fun _ => [])) as (q & E & W).
  - apply initialize_wf; [apply Nat.leb_le; by vm_compute | apply two_tenants_init].
  - apply (run_allowed_app _ _ _ _ (drop n two_tenants_run)). rewrite take_drop. apply two_tenants_allowed.
  - unfold after_calls. by rewrite E.
Qed.

(** The demoted tenant is promoted again when its period is over. *)
Lemma mtds_promotions_witness :
  class_of (after_calls (take 4 two_tenants_run)) 1 = Some MT_DEFAULT
  /\ exists q', local_timeout_queue_process_promotions two_tenants_env 3 12 (fun _ => 13) (after_calls (take 4 two_tenants_run)) = Ret q'
    /\ class_of q' 1 = Some MT_GUARANTEED /\ timeout_of q' 1 = 20 /\ head_pending 12 q'.
Proof.
  split; [by vm_compute|].
  destruct (mtds_promotions_spec two_tenants_env two_tenants_deadlines 12 (fun _ => 13) 3 (after_calls (take 4 two_tenants_run))
              (bag_of_run two_tenants_env (fun _ => []) (take 4 two_tenants_run))) as (q' & E & _ & _ & Hh).
  - intros k a. split; [done|]. apply two_tenants_clock. lia.
  - apply after_calls_wf.
  - apply Nat.ltb_lt. by vm_compute.
  - exists q'. split; [done|].
    assert (E' : (fun x : outcome (mtds_runqueue bool) => match x with Ret q => Some (class_of q 1, timeout_of q 1) | _ => None end)
              (local_timeout_queue_process_promotions two_tenants_env 3 12 (fun _ => 13) (after_calls (take 4 two_tenants_run)))
            = Some (Some MT_GUARANTEED, 20)) by (by vm_compute).
    rewrite E in E'. cbv beta match in E'. apply (inj Some) in E'. apply pair_equal_spec in E' as [E1 E2].
    split; [exact E1 | split; [exact E2 | exact Hh]].
Defined.
