(* ===== verification/MtdsGlobal.v ===== *)
(** * MtdsGlobal: the global scheduler of the multi-tenant policy

    [runtime/src/global_request_scheduler_mtds.c].  Requests wait in one queue per
    tenant (TGRQ); two heaps of tenants, the guaranteed and the default one, are
    ordered by the earliest request of each tenant; a third heap orders the paid
    tenants by the time their budget is replenished.  One lock guards the two
    class heaps.

    A [struct tenant_global_request_queue] has the fields of a worker's
    [struct perworker_tenant_sandbox_queue] (a queue, the tenant, a timeout, a
    class), and the priorities are read the same way, so both are one record
    here and the heap operations of [Mtds] serve both. *)

From Stdlib Require Import ZArith Lia.
From S2P Require Import Prelude Lock PriorityQueue HeapTheory PriorityQueueSpec Runqueue Mtds.
Local Open Scope Z_scope.

Abbreviation tenant_global_request_queue := perworker_tenant_sandbox_queue.

(** [gs_queues] are the TGRQs of the tenants, [global_request_scheduler_mtds_guaranteed],
    [global_request_scheduler_mtds_default] and [global_tenant_timeout_queue];
    [gs_budget] is [tenant->remaining_budget]. *)
Record mtds_scheduler (L : Type) := mk_mtds_scheduler {
  gs_queues : mtds_runqueue L;
  global_lock : lock_t L;
  gs_budget : gmap Z Z;
}.
Arguments mk_mtds_scheduler {L} _ _ _.
Arguments gs_queues {L} _.
Arguments global_lock {L} _.
Arguments gs_budget {L} _.

Section scheduler.
Context {L : Type} `{SpinLock L}.
Abbreviation heap := (priority_queue L Z).
Abbreviation tgrq := (tenant_global_request_queue L).
Abbreviation queues := (mtds_runqueue L).
Abbreviation scheduler := (mtds_scheduler L).
Variable env : mtds_env.
Variable max_budget : Z -> Z.   (* tenant->max_budget *)

Definition tenant_request_queue_get_priority (tgrqs : gmap Z tgrq) (t : Z) : Z := perworker_tenant_get_priority env tgrqs t.

Definition set_queues (g : scheduler) (q : queues) : scheduler := mk_mtds_scheduler q (global_lock g) (gs_budget g).

(** [lock_lock(&global_lock, &node)], the work, [lock_unlock]. *)
Definition with_global_lock {A} (t0 t1 : Z) (g : scheduler) (body : queues -> outcome (A * queues)) : outcome (A * scheduler) :=
  '(l, node) ← lock_lock (global_lock g) lock_node_zero t0;
  '(r, q) ← body (gs_queues g);
  '(l, _) ← lock_unlock l node t1;
  Ret (r, mk_mtds_scheduler q l (gs_budget g)).

Definition global_request_scheduler_mtds_demote_nolock (q : queues) (t : Z) : outcome queues :=
  w ← pwt_at q t;
  if decide (pwt_mt_class w = MT_DEFAULT) then Ret q else
  '(rc, q) ← class_delete env q MT_GUARANTEED t;
  if rc =? -1 then Stop Panic else
  '(rc, q) ← class_enqueue env q MT_DEFAULT t;
  if rc =? - ENOSPC then Stop Panic else Ret q.

(** [priority_queue_delete_nolock] of a class heap, on the listener thread. *)
Definition listener_delete (q : queues) (c : MULTI_TENANCY_CLASS) (t : Z) : outcome (Z * queues) :=
  '(rc, h) ← priority_queue_delete_nolock (tenant_request_queue_get_priority (mtds_pwt q)) true (class_queue q c) t;
  Ret (rc, set_class_queue q c h).

Definition add_request (q : queues) (sandbox : Z) : outcome (Z * queues) :=
  let t := env_tenant env sandbox in
  w ← pwt_at q t;
  let destination_queue := pwt_mt_class w in
  let last_mrq_deadline := priority_queue_peek (pwt_sandboxes w) in
  '(rc, requests) ← priority_queue_enqueue_nolock (env_deadline env) (pwt_sandboxes w) sandbox;
  if rc =? - ENOSPC then Stop Panic else
  let q := set_mtds_pwt q t (mk_pwt requests (pwt_timeout w) (pwt_mt_class w)) in
  if priority_queue_peek requests <? last_mrq_deadline then
    '(_, q) ← listener_delete q destination_queue t;
    '(rc, q) ← class_enqueue env q destination_queue t;
    if rc =? - ENOSPC then Stop Panic else Ret (sandbox, q)
  else Ret (sandbox, q).

(** [listener]: whether the listener thread calls. *)
Definition global_request_scheduler_mtds_add (listener : bool) (t0 t1 : Z) (g : scheduler) (sandbox : Z)
  : outcome (Z * scheduler) :=
  if negb listener then Stop Panic else
  with_global_lock t0 t1 g (fun q => add_request q sandbox).

Definition global_request_scheduler_mtds_remove : Z := -1.
Definition global_request_scheduler_mtds_remove_if_earlier (target_deadline : Z) : Z := -1.

(** The removal itself: the earliest request of [t], which is in the heap of [c]. *)
Definition take_request (q : queues) (c : MULTI_TENANCY_CLASS) (t : Z) : outcome (Z * option Z * queues) :=
  w ← pwt_at q t;
  '(rc, removed, requests) ← priority_queue_dequeue_nolock (env_deadline env) false (pwt_sandboxes w);
  assert (rc =? 0) ;;
  let q := set_mtds_pwt q t (mk_pwt requests (pwt_timeout w) (pwt_mt_class w)) in
  '(rc', q) ← class_delete env q c t;
  if rc' =? -1 then Stop Panic else
  n ← priority_queue_length_nolock requests;
  if decide (0 < n)%nat then '(_, q) ← class_enqueue env q c t; Ret (rc, removed, q)
  else Ret (rc, removed, q).

(** The early exit on the deadlines of the two heaps. *)
Definition not_earlier (q : queues) (target_deadline : Z) (target_mt_class : MULTI_TENANCY_CLASS) : bool :=
  let global_guaranteed_deadline := priority_queue_peek (mtds_guaranteed q) in
  let global_default_deadline := priority_queue_peek (mtds_default q) in
  match target_mt_class with
  | MT_GUARANTEED => target_deadline <=? global_guaranteed_deadline
  | MT_DEFAULT => (global_guaranteed_deadline =? UINT64_MAX) && (target_deadline <=? global_default_deadline)
  end.

Definition remove_request (budget : gmap Z Z) (q : queues) (target_deadline : Z) (target_mt_class : MULTI_TENANCY_CLASS)
  : outcome (Z * option Z * queues) :=
  if not_earlier q target_deadline target_mt_class then Ret (- ENOENT, None, q) else
  '(rc, top_tgrq) ← priority_queue_top_nolock (mtds_guaranteed q);
  if rc =? - ENOENT then
    if decide (target_mt_class = MT_GUARANTEED) then Ret (rc, None, q) else
    '(rc, top_tgrq) ← priority_queue_top_nolock (mtds_default q);
    if rc =? - ENOENT then Ret (rc, None, q) else
    match top_tgrq with
    | None => Stop AssertFail
    | Some t => take_request q MT_DEFAULT t
    end
  else
    t ← deref top_tgrq;
    w ← pwt_at q t;
    b ← deref (budget !! t);
    if bool_decide (pwt_mt_class w = MT_GUARANTEED) && (b <=? 0) then
      q ← global_request_scheduler_mtds_demote_nolock q t;
      q ← set_class q t MT_DEFAULT;
      Ret (- ENOENT, None, q)
    else take_request q MT_GUARANTEED t.

Definition global_request_scheduler_mtds_remove_with_mt_class (t0 t1 : Z) (g : scheduler) (target_deadline : Z)
  (target_mt_class : MULTI_TENANCY_CLASS) : outcome (Z * option Z * scheduler) :=
  with_global_lock t0 t1 g (fun q => remove_request (gs_budget g) q target_deadline target_mt_class).

Definition global_request_scheduler_mtds_guaranteed_peek (g : scheduler) : Z := priority_queue_peek (mtds_guaranteed (gs_queues g)).
Definition global_request_scheduler_mtds_default_peek (g : scheduler) : Z := priority_queue_peek (mtds_default (gs_queues g)).

Definition global_request_scheduler_mtds_peek (g : scheduler) : Z :=
  let val := global_request_scheduler_mtds_guaranteed_peek g in
  if val =? UINT64_MAX then global_request_scheduler_mtds_default_peek g else val.

(** The queue of a tenant as [tenant_policy_specific_init] makes it.  Its timeout is
    not set: it is what the memory of [malloc] held, until the first
    [global_timeout_queue_add]. *)
Definition tgrq_init (uninit replenishment_period : Z) : tgrq :=
  mk_pwt (priority_queue_initialize RUNTIME_TENANT_QUEUE_SIZE false) (u64 uninit)
    (if replenishment_period =? 0 then MT_DEFAULT else MT_GUARANTEED).

Definition global_request_scheduler_mtds_initialize (tgrqs : gmap Z tgrq) (budget : gmap Z Z) : scheduler :=
  mk_mtds_scheduler
    (mk_mtds tgrqs (priority_queue_initialize RUNTIME_MAX_TENANT_COUNT false)
       (priority_queue_initialize RUNTIME_MAX_TENANT_COUNT false)
       (priority_queue_initialize RUNTIME_MAX_TENANT_COUNT false))
    lock_init budget.

(** The result of the enqueue is not looked at. *)
Definition global_timeout_queue_add (now : Z) (g : scheduler) (t : Z) : outcome scheduler :=
  w ← pwt_at (gs_queues g) t;
  timeout ← get_next_timeout_of_tenant (env_boot env) (env_period env t) now;
  '(_, q) ← timeout_enqueue (set_mtds_pwt (gs_queues g) t (mk_pwt (pwt_sandboxes w) timeout (pwt_mt_class w))) t;
  Ret (set_queues g q).

Definition promote_request (q : queues) (t : Z) : outcome (unit * queues) :=
  w ← pwt_at q t;
  if decide (pwt_mt_class w = MT_GUARANTEED) then Ret (tt, q) else
  n ← priority_queue_length_nolock (pwt_sandboxes w);
  if decide (n = 0%nat) then Ret (tt, q) else
  '(rc, q) ← class_delete env q MT_DEFAULT t;
  if rc =? -1 then Stop Panic else
  '(rc, q) ← class_enqueue env q MT_GUARANTEED t;
  if rc =? - ENOSPC then Stop Panic else Ret (tt, q).

Definition global_request_scheduler_mtds_promote_lock (t0 t1 : Z) (g : scheduler) (t : Z) : outcome scheduler :=
  snd <$> with_global_lock t0 t1 g (fun q => promote_request q t).

(** What the clock shows during one turn of the promotions: at the lock, its
    release, the new timeout and the end of the turn. *)
Record turn := mk_turn { tn_lock : Z; tn_unlock : Z; tn_timeout : Z; tn_now : Z }.

(** One expired tenant: promoted if it was demoted, its budget replenished, and
    queued again with its next timeout. *)
Definition promote_tenant_globally (k : turn) (g : scheduler) (t : Z) : outcome scheduler :=
  w ← pwt_at (gs_queues g) t;
  g ← (if decide (pwt_mt_class w = MT_DEFAULT) then
         n ← priority_queue_length_nolock (pwt_sandboxes w);
         g ← (if decide (0 < n)%nat then global_request_scheduler_mtds_promote_lock (tn_lock k) (tn_unlock k) g t else Ret g);
         q ← set_class (gs_queues g) t MT_GUARANTEED;
         Ret (set_queues g q)
       else Ret g);
  let g := mk_mtds_scheduler (gs_queues g) (global_lock g) (<[t := max_budget t]> (gs_budget g)) in
  '(_, q) ← timeout_delete (gs_queues g) t;
  timeout ← get_next_timeout_of_tenant (env_boot env) (env_period env t) (tn_timeout k);
  w ← pwt_at q t;
  '(_, q) ← timeout_enqueue (set_mtds_pwt q t (mk_pwt (pwt_sandboxes w) timeout (pwt_mt_class w))) t;
  Ret (set_queues g q).

(** Here the clock is read again after every turn. *)
Fixpoint promotions_loop (turns : list turn) (now : Z) (g : scheduler) (t : Z) : outcome scheduler :=
  w ← pwt_at (gs_queues g) t;
  if pwt_timeout w <=? now then
    match turns with
    | [] => Stop Fuel
    | k :: turns =>
      g ← promote_tenant_globally k g t;
      '(_, top) ← priority_queue_top_nolock (worker_thread_timeout_queue (gs_queues g));
      promotions_loop turns (tn_now k) g (default t top)
    end
  else Ret g.

Definition global_timeout_queue_process_promotions (now : Z) (turns : list turn) (g : scheduler) : outcome scheduler :=
  '(_, top) ← priority_queue_top_nolock (worker_thread_timeout_queue (gs_queues g));
  match top with
  | None => Ret g
  | Some t => promotions_loop turns now g t
  end.
End scheduler.
