(* ===== verification/MtdsGlobalSpec.v ===== *)
(** * MtdsGlobalSpec: the global scheduler keeps every request

    The invariant of the multi-tenant global scheduler: every request is in the
    queue of its tenant, every tenant with requests in the heap of its class and
    no other, every registered tenant in the timeout heap, the lock free between
    calls.  Workers' calls keep it; the listener's call keeps it except where it
    has to move a tenant in its heap, which the heap refuses on that thread. *)

From Stdlib Require Import ZArith Lia.
From S2P Require Import Prelude Lock PriorityQueue HeapTheory PriorityQueueSpec Runqueue Mtds MtdsSpec MtdsGlobal.
Local Open Scope Z_scope.

Lemma sum_list_with_lt {A} (f f' : A -> nat) l x :
  x ∈ l -> (forall a, a ∈ l -> (f' a <= f a)%nat) -> (f' x < f x)%nat -> (sum_list_with f' l < sum_list_with f l)%nat.
Proof.
  intros Hx Hle Hlt. assert (Hall : forall k, (forall a, a ∈ k -> a ∈ l) -> (sum_list_with f' k <= sum_list_with f k)%nat).
  { induction k as [|b k IH]; intros Hk; [done|]. cbn. pose proof (Hle b (Hk b ltac:(by left))).
    specialize (IH (fun a Ha => Hk a ltac:(by right))). lia. }
  destruct (list_elem_of_split l x Hx) as (l1 & l2 & ->). rewrite !sum_list_with_app. cbn.
  pose proof (Hall l1 (fun a Ha => proj2 (elem_of_app _ _ _) (or_introl Ha))).
  pose proof (Hall l2 (fun a Ha => proj2 (elem_of_app _ _ _) (or_intror (proj2 (elem_of_cons _ _ _) (or_intror Ha))))). lia.
Qed.

Section spec.
Context {L : Type} `{SpinLock L}.
Abbreviation queues := (mtds_runqueue L).
Abbreviation scheduler := (mtds_scheduler L).
Variable env : mtds_env.
Variable max_budget : Z -> Z.
Hypothesis deadlines : forall p, 0 <= env_deadline env p < UINT64_MAX.
Implicit Types q : queues.
Implicit Types g : scheduler.
Abbreviation prio := (perworker_tenant_get_priority env).
Abbreviation timeout_of := tenant_timeout_get_priority.

Lemma deadlines_range p : 0 <= env_deadline env p <= UINT64_MAX.
Proof. pose proof (deadlines p). lia. Qed.

(** [B t] are the waiting requests of tenant [t], [R] the tenants with a timeout. *)
Record qwf (R : gset Z) q (B : Z -> list Z) : Prop := {
  qw_tgrq t w : mtds_pwt q !! t = Some w ->
    pq_repr (env_deadline env) (pwt_sandboxes w) (B t) /\ plain (pwt_sandboxes w) /\ 0 <= pwt_timeout w <= UINT64_MAX;
  qw_none t : mtds_pwt q !! t = None -> B t = [];
  qw_owner t p : p ∈ B t -> env_tenant env p = t;
  qw_nodup t : NoDup (B t);
  qw_layout : layout q (prio (mtds_pwt q)) (timeout_of (mtds_pwt q)) (in_class q B) (fun t => t ∈ R);
}.

(** After a change of the entry of [t], the heaps are those of [q], ordered by
    the old priorities. *)
Lemma layout_lag R q B t w1 :
  qwf R q B -> is_Some (mtds_pwt q !! t) ->
  layout (set_mtds_pwt q t w1) (prio (mtds_pwt q)) (timeout_of (mtds_pwt q)) (in_class q B) (fun t => t ∈ R).
Proof. intros W Hs. eapply layout_ext; [apply (qw_layout _ _ _ W) | by apply dom_insert_same | by intros [] | done..]. Qed.

(** The same with timeouts of the moment, when that of [t] is kept. *)
Lemma layout_lag_class R q B t w w1 :
  qwf R q B -> mtds_pwt q !! t = Some w -> pwt_timeout w1 = pwt_timeout w ->
  layout (set_mtds_pwt q t w1) (prio (mtds_pwt q)) (timeout_of (<[t := w1]> (mtds_pwt q))) (in_class q B) (fun t => t ∈ R).
Proof.
  intros W E Et. eapply layout_ext; [by apply (layout_lag R q B t w1); eauto | done..| |done|done].
  intros a _. unfold tenant_timeout_get_priority. destruct (decide (a = t)) as [->|Hne].
  - by rewrite lookup_insert_eq, E.
  - by rewrite lookup_insert_ne.
Qed.

Lemma qwf_rebuild R q q' B t w' l :
  qwf R q B -> is_Some (mtds_pwt q !! t) -> mtds_pwt q' = <[t := w']> (mtds_pwt q) ->
  pq_repr (env_deadline env) (pwt_sandboxes w') l -> plain (pwt_sandboxes w') ->
  0 <= pwt_timeout w' <= UINT64_MAX -> NoDup l -> (forall p, p ∈ l -> env_tenant env p = t) ->
  layout q' (prio (mtds_pwt q')) (timeout_of (mtds_pwt q')) (in_class q' (upd B t l)) (fun t => t ∈ R) ->
  qwf R q' (upd B t l).
Proof.
  intros W Ht Eq Bg Hu Hr Hnd Hown Lay. split; [| | | |done].
  - intros a v. rewrite Eq. destruct (decide (a = t)) as [->|Hne].
    + rewrite lookup_insert_eq, upd_eq. by intros [= <-].
    + rewrite lookup_insert_ne, upd_ne by done. apply (qw_tgrq _ _ _ W).
  - intros a. rewrite Eq. destruct (decide (a = t)) as [->|Hne]; [by rewrite lookup_insert_eq|].
    rewrite lookup_insert_ne, upd_ne by done. apply (qw_none _ _ _ W).
  - intros a p. destruct (decide (a = t)) as [->|Hne]; [rewrite upd_eq; apply Hown|].
    rewrite upd_ne by done. apply (qw_owner _ _ _ W).
  - intros a. destruct (decide (a = t)) as [->|Hne]; [by rewrite upd_eq|].
    rewrite upd_ne by done. apply (qw_nodup _ _ _ W).
Qed.

(** A tenant that stays in the heap of its class. *)
Lemma qwf_stay R q q' B t w w' l :
  qwf R q B -> mtds_pwt q !! t = Some w -> mtds_pwt q' = <[t := w']> (mtds_pwt q) -> B t <> [] -> l <> [] ->
  pq_repr (env_deadline env) (pwt_sandboxes w') l -> plain (pwt_sandboxes w') ->
  pwt_timeout w' = pwt_timeout w -> pwt_mt_class w' = pwt_mt_class w ->
  NoDup l -> (forall p, p ∈ l -> env_tenant env p = t) ->
  layout q' (prio (mtds_pwt q')) (timeout_of (mtds_pwt q')) (in_class q B) (fun t => t ∈ R) ->
  qwf R q' (upd B t l).
Proof.
  intros W E Eq HB Hl Bg Hu Et Ec Hnd Hown Lay. assert (Hsome : is_Some (mtds_pwt q !! t)) by eauto.
  eapply (qwf_rebuild R q q' B t w' l); try done; [rewrite Et; apply (qw_tgrq _ _ _ W t w E) |].
  eapply layout_ext; [exact Lay | done..| |done]. intros c a. rewrite (in_class_upd q q' B t w') by done. split.
  - intros Ha. destruct (decide (a = t)) as [->|Hne]; [left|by right].
    destruct Ha as (v & Ev & Hc & _). split; [done|]. split; [congruence|done].
  - intros [(-> & Hc & _)|[_ Ha]]; [|done]. exists w. split; [done|]. split; [congruence|done].
Qed.

Lemma bag_of_repr prio_ (h : priority_queue L Z) b : pq_repr prio_ h b -> pq_bag prio_ h b.
Proof. intros R. by apply pq_repr_bag in R as [? _]. Qed.

Lemma prio_is_peek R q B t w : qwf R q B -> mtds_pwt q !! t = Some w -> prio (mtds_pwt q) t = priority_queue_peek (pwt_sandboxes w).
Proof.
  intros W E. destruct (qw_tgrq _ _ _ W t w E) as (Rp & Hu & _).
  by apply (prio_memo env (mtds_pwt q) t w (B t)); [|apply bag_of_repr|].
Qed.

(** ** Adding *)

(** On the listener thread a heap finds an absent tenant absent, and stops at a
    present one. *)
Lemma listener_scan f (h : priority_queue L Z) v n : forall i,
  pq_wf h -> pq_accessible h = true -> (1 <= i)%nat -> (i + n = S (pq_size h))%nat ->
  (delete_scan f true n h i v = Stop AssertFail /\ exists k, (i <= k <= pq_size h)%nat /\ pq_items h !! k = Some (Some v))
  \/ (delete_scan f true n h i v = Ret (-1, h) /\ forall k, (i <= k <= pq_size h)%nat -> pq_items h !! k <> Some (Some v)).
Proof.
  induction n as [|n IH]; intros i W Hacc Hi Hn; cbn [delete_scan].
  { right. split; [done|]. lia. }
  destruct (wf_used h W i) as [x Ex]; [lia|].
  assert (Ei : pq_item (pq_items h) i = Ret (Some x)) by (unfold pq_item; by rewrite Ex).
  rewrite Ei. ostep. destruct (decide (Some x = Some v)) as [E|E].
  - injection E as ->. left. split; [|exists i; split; [lia|done]].
    destruct (wf_used h W (pq_size h)) as [z Ez]; [lia|]. unfold replace_with_last, pq_item. rewrite Ez. ostep.
    unfold pq_store. pose proof (wf_length h W) as Hl. pose proof (wf_size h W). rewrite decide_True by lia. ostep.
    rewrite decide_True by (rewrite length_insert; lia). ostep.
    unfold priority_queue_percolate_down. change (pq_accessible (pq_set_size _ _)) with (pq_accessible h). by rewrite Hacc.
  - destruct (IH (S i) W Hacc ltac:(lia) ltac:(lia)) as [(R & k & Hk & Ek)|[R Hno]].
    + left. split; [done|]. exists k. split; [lia|done].
    + right. split; [done|]. intros k Hk. destruct (decide (k = i)) as [->|Hne]; [rewrite Ex; congruence | apply Hno; lia].
Qed.

Lemma listener_delete_ok q f c t n P :
  holds f n (class_queue q c) P ->
  (P t -> listener_delete env q c t = Stop AssertFail) /\ (~ P t -> listener_delete env q c t = Ret (-1, q)).
Proof.
  intros (l & (W & M & C) & Hn & Hl & Hu & Hc). unfold listener_delete, priority_queue_delete_nolock.
  assert (Hacc : pq_accessible (class_queue q c) = true) by (unfold pq_accessible; by rewrite Hu).
  rewrite Hacc. ostep.
  destruct (listener_scan (tenant_request_queue_get_priority env (mtds_pwt q)) (class_queue q c) t (pq_size (class_queue q c)) 1 W Hacc)
    as [(R & k & Hk & Ek)|[R Hno]]; [lia | lia | |]; rewrite R; ostep; (split; [|done || intros Hnp]).
  - done.
  - destruct Hnp. apply Hl. rewrite <- C. by eapply contents_lookup.
  - intros Pt. apply Hl in Pt. rewrite <- C in Pt. apply elem_of_contents in Pt as (i & [(Hi & Ei)|Ei]); [by destruct (Hno i)|].
    rewrite (wf_zero _ W) in Ei. done.
  - by destruct c, q.
Qed.

Lemma empty_peek f (h : priority_queue L Z) : pq_repr f h [] -> priority_queue_peek h = UINT64_MAX.
Proof.
  intros (W & _ & M & C). unfold priority_queue_peek. rewrite M, decide_True; [done|].
  by rewrite (bag_size f h []) by (by split).
Qed.

Lemma some_peek R q B t w : qwf R q B -> mtds_pwt q !! t = Some w -> B t <> [] -> priority_queue_peek (pwt_sandboxes w) < UINT64_MAX.
Proof.
  intros W E HB. destruct (qw_tgrq _ _ _ W t w E) as (Rp & _). destruct (B t) as [|p l] eqn:EB; [done|].
  pose proof (peek_le _ _ _ p Rp ltac:(apply list_elem_of_here)). pose proof (deadlines p). lia.
Qed.

(** The queue of the tenant after the request [p] joined it. *)
Lemma enqueue_request R q B t w p :
  qwf R q B -> mtds_pwt q !! t = Some w -> (length (B t) < RUNTIME_TENANT_QUEUE_SIZE)%nat ->
  exists h, priority_queue_enqueue_nolock (env_deadline env) (pwt_sandboxes w) p = Ret (0, h)
    /\ pq_repr (env_deadline env) h (p :: B t) /\ plain h
    /\ (B t <> [] -> priority_queue_peek (pwt_sandboxes w) <= env_deadline env p ->
        priority_queue_peek h = priority_queue_peek (pwt_sandboxes w)).
Proof.
  intros W E Hroom. destruct (qw_tgrq _ _ _ W t w E) as (Rp & Hu & _). pose proof (repr_size _ _ _ Rp) as Hs.
  apply pq_repr_bag in Rp as [Bg Hh].
  destruct (enqueue_bag (env_deadline env) deadlines_range (pwt_sandboxes w) (B t) p Bg)
    as (h & Eh & Bg' & Hh' & Hs' & Hu' & _ & Hc' & Hm); [by apply plain_accessible | rewrite (proj2 Hu); lia |].
  exists h. split; [done|]. split; [apply pq_repr_bag; auto|]. split; [destruct Hu; split; congruence|].
  intros HB Hle. apply Hm; [|done]. rewrite Hs. destruct (B t); [done|cbn; lia].
Qed.

Lemma nodup_add R q B p :
  qwf R q B -> (p ∉ B (env_tenant env p)) ->
  NoDup (p :: B (env_tenant env p)) /\ forall a, a ∈ p :: B (env_tenant env p) -> env_tenant env a = env_tenant env p.
Proof.
  intros W Hni. split; [constructor; [done | apply (qw_nodup _ _ _ W)]|].
  intros a [->|Ha]%elem_of_cons; [done | by apply (qw_owner _ _ _ W)].
Qed.

Lemma add_request_ok R q B p w :
  let t := env_tenant env p in
  qwf R q B -> mtds_pwt q !! t = Some w -> (p ∉ B t) -> (length (B t) < RUNTIME_TENANT_QUEUE_SIZE)%nat ->
  (B t <> [] -> priority_queue_peek (pwt_sandboxes w) <= env_deadline env p) ->
  exists q', add_request env q p = Ret (p, q') /\ qwf R q' (upd B t (p :: B t)) /\ (forall a, class_of q' a = class_of q a).
Proof.
  intros t W E Hni Hroom Hle. assert (Hsome : is_Some (mtds_pwt q !! t)) by eauto.
  destruct (enqueue_request R q B t w p W E Hroom) as (h & Eh & Rp & Hu & Hpk).
  destruct (nodup_add R q B p W Hni) as [Hnd Hown]. fold t in Hnd, Hown.
  destruct (qw_tgrq _ _ _ W t w E) as (R0 & _ & Hr).
  unfold add_request. fold t. unfold pwt_at. rewrite E. ostep. rewrite Eh. ostep. change (0 =? - ENOSPC) with false. cbn match.
  set (w1 := mk_pwt h (pwt_timeout w) (pwt_mt_class w)).
  pose proof (layout_lag_class R q B t w w1 W E eq_refl) as Lay.
  destruct (decide (B t = [])) as [EB|HB].
  - rewrite EB in R0, Rp, Hnd, Hown |- *. rewrite (empty_peek _ _ R0).
    pose proof (peek_le _ _ _ p Rp ltac:(apply list_elem_of_here)). pose proof (deadlines p).
    rewrite (proj2 (Z.ltb_lt _ _)) by lia.
    destruct (no_heaps env q B t EB) as [HnC _].
    destruct (listener_delete_ok (set_mtds_pwt q t w1) _ (pwt_mt_class w) t _ _ (lay_class _ _ _ _ _ Lay (pwt_mt_class w))) as [_ Hd].
    rewrite Hd by apply HnC. ostep.
    assert (Lay1 : layout (set_mtds_pwt q t w1) (prio (<[t := w1]> (mtds_pwt q))) (timeout_of (<[t := w1]> (mtds_pwt q)))
                     (in_class q B) (fun t => t ∈ R)).
    { eapply layout_ext; [exact Lay | done..| |done|done|done]. intros c a Ha. rewrite prio_other; [done|].
      intros ->. by eapply HnC. }
    destruct (class_enqueue_ok env deadlines_range (set_mtds_pwt q t w1) _ _ _ (pwt_mt_class w) t Lay1)
      as (q2 & E2 & M2 & L2); [apply HnC | cbn; rewrite dom_insert_same by done; by apply elem_of_dom |].
    rewrite E2. ostep. change (0 =? - ENOSPC) with false. cbn match. exists q2. split; [done|].
    assert (Eq : mtds_pwt q2 = <[t := w1]> (mtds_pwt q)) by done. split; [|by eapply class_of_set].
    eapply (qwf_rebuild R q q2 B t w1 [p]); try done.
    eapply layout_ext; [exact L2 | done..| by rewrite Eq | |done]. intros c a. cbn. rewrite (in_class_upd q q2 B t w1) by done.
    split; [intros [[-> ->]|Ha]|intros [(-> & <- & _)|[_ Ha]]]; auto.
    right. split; [|done]. intros ->. by eapply HnC.
  - rewrite (Hpk HB (Hle HB)), Z.ltb_irrefl. exists (set_mtds_pwt q t w1). split; [done|]. split; [|by eapply class_of_set].
    eapply (qwf_stay R q _ B t w w1); try done.
    eapply layout_ext; [exact Lay | done..| |done|done|done]. intros c a _. cbn.
    destruct (decide (a = t)) as [->|Hne]; [|by rewrite prio_other].
    rewrite (prio_is_peek R q B t w W E). symmetry. rewrite <- (Hpk HB (Hle HB)).
    apply (prio_memo env (<[t := w1]> (mtds_pwt q)) t w1 (p :: B t)); [apply lookup_insert_eq | by apply bag_of_repr | done].
Qed.

(** An earlier request for a tenant that waits already. *)
Lemma add_request_stops R q B p w :
  let t := env_tenant env p in
  qwf R q B -> mtds_pwt q !! t = Some w -> (length (B t) < RUNTIME_TENANT_QUEUE_SIZE)%nat -> B t <> [] ->
  env_deadline env p < priority_queue_peek (pwt_sandboxes w) -> add_request env q p = Stop AssertFail.
Proof.
  intros t W E Hroom HB Hlt. destruct (enqueue_request R q B t w p W E Hroom) as (h & Eh & Rp & Hu & _).
  unfold add_request. fold t. unfold pwt_at. rewrite E. ostep. rewrite Eh. ostep. change (0 =? - ENOSPC) with false. cbn match.
  pose proof (peek_le _ _ _ p Rp ltac:(apply list_elem_of_here)). rewrite (proj2 (Z.ltb_lt _ _)) by lia.
  set (w1 := mk_pwt h (pwt_timeout w) (pwt_mt_class w)).
  pose proof (layout_lag_class R q B t w w1 W E eq_refl) as Lay.
  destruct (listener_delete_ok (set_mtds_pwt q t w1) _ (pwt_mt_class w) t _ _ (lay_class _ _ _ _ _ Lay (pwt_mt_class w))) as [Hd _].
  by rewrite Hd by (by exists w).
Qed.

(** ** Removing *)

Lemma take_request_ok R q B c t :
  qwf R q B -> in_class q B c t ->
  exists p rest q', take_request env q c t = Ret (0, Some p, q') /\ B t ≡ₚ p :: rest
    /\ (forall b, b ∈ B t -> env_deadline env p <= env_deadline env b)
    /\ qwf R q' (upd B t rest) /\ (forall a, class_of q' a = class_of q a).
Proof.
  intros W Hin. pose proof Hin as (w & E & Ec & HB). assert (Hsome : is_Some (mtds_pwt q !! t)) by eauto.
  destruct (qw_tgrq _ _ _ W t w E) as (Rp & Hu & Hr). unfold take_request, pwt_at. rewrite E. ostep.
  unfold priority_queue_dequeue_nolock.
  destruct (dequeue_nolock_ok (env_deadline env) (pwt_sandboxes w) (B t) UINT64_MAX Rp (plain_accessible _ Hu))
    as [(p & rest & h & Ed & Pm & Rp' & Hmin & _ & Hu' & _ & Hc')|[_ Hno]].
  2: { destruct (B t) as [|a l]; [done|]. pose proof (Hno a ltac:(apply list_elem_of_here)). pose proof (deadlines a). lia. }
  rewrite Ed. ostep. cbn [Z.eqb]. ostep. set (w1 := mk_pwt h (pwt_timeout w) (pwt_mt_class w)).
  assert (Hu1 : plain h) by (destruct Hu; split; congruence).
  assert (Hnd : NoDup (p :: rest)) by (rewrite <- Pm; apply (qw_nodup _ _ _ W)). inversion Hnd as [|? ? Hpn Hnr]; subst.
  assert (Hown : forall a, a ∈ rest -> env_tenant env a = t).
  { intros a Ha. apply (qw_owner _ _ _ W). rewrite Pm. by right. }
  pose proof (layout_lag_class R q B t w w1 W E eq_refl) as Lay.
  assert (Hother : forall d, d <> pwt_mt_class w -> ~ in_class q B d t).
  { intros d Hd Hc. by destruct Hd; eapply class_unique. }
  assert (Hag : forall a, a <> t -> prio (mtds_pwt q) a = prio (mtds_pwt (set_mtds_pwt q t w1)) a).
  { intros a Ha. cbn. by rewrite prio_other. }
  unfold priority_queue_length_nolock. rewrite (plain_accessible _ Hu1), (repr_size _ _ _ Rp').
  destruct rest as [|b rest'].
  - destruct (class_delete_ok env (set_mtds_pwt q t w1) _ _ _ _ (pwt_mt_class w) t Lay Hin Hother Hag) as (q1 & -> & M1 & L1).
    ostep. cbn [Z.eqb]. ostep. rewrite decide_False by (cbn; lia). exists p, [], q1. do 3 (split; [done|]).
    cbn [set_mtds_pwt mtds_pwt] in M1. split; [|by eapply class_of_set].
    eapply (qwf_rebuild R q q1 B t w1 []); try done.
    eapply layout_ext; [exact L1 | done..| by rewrite M1 | |done].
    intros c a. cbn. rewrite (in_class_upd q _ B t w1) by done. tauto.
  - destruct (reheap_ok env deadlines_range (set_mtds_pwt q t w1) _ _ _ _ (pwt_mt_class w) t Lay Hin Hother Hag)
      as (q1 & q2 & -> & E2 & M & L2).
    ostep. cbn [Z.eqb]. ostep. rewrite decide_True by (cbn; lia). rewrite E2. ostep.
    exists p, (b :: rest'), q2. do 3 (split; [done|]). cbn [set_mtds_pwt mtds_pwt] in M. split; [|by eapply class_of_set].
    eapply (qwf_stay R q q2 B t w w1); try done. by rewrite M in L2 |- *.
Qed.

(** Moving a tenant from one class to the other. *)
Lemma reclass_ok R q B c d t :
  qwf R q B -> in_class q B c t -> c <> d ->
  exists q1 q2 q3, class_delete env q c t = Ret (0, q1) /\ class_enqueue env q1 d t = Ret (0, q2)
    /\ mtds_pwt q2 = mtds_pwt q /\ set_class q2 t d = Ret q3 /\ qwf R q3 B
    /\ class_of q3 t = Some d /\ (forall a, a <> t -> class_of q3 a = class_of q a)
    /\ (forall w, mtds_pwt q !! t = Some w -> mtds_pwt q3 = <[t := mk_pwt (pwt_sandboxes w) (pwt_timeout w) d]> (mtds_pwt q)).
Proof.
  intros W Hin Hcd. pose proof Hin as (w & E & Ec & HB). assert (Hsome : is_Some (mtds_pwt q !! t)) by eauto.
  destruct (class_delete_ok env q _ _ _ _ c t (qw_layout _ _ _ W) Hin) as (q1 & E1 & M1 & L1); [|done|].
  { intros e He Hc. by destruct He; eapply class_unique. }
  destruct (class_enqueue_ok env deadlines_range q1 _ _ _ d t L1) as (q2 & E2 & M2 & L2);
    [by intros [? _] | rewrite M1; by apply elem_of_dom |].
  assert (M : mtds_pwt q2 = mtds_pwt q) by congruence. set (w3 := mk_pwt (pwt_sandboxes w) (pwt_timeout w) d).
  exists q1, q2, (set_mtds_pwt q2 t w3). do 3 (split; [done|]). split.
  { unfold set_class, pwt_at. by rewrite M, E. }
  assert (Eq : mtds_pwt (set_mtds_pwt q2 t w3) = <[t := w3]> (mtds_pwt q)) by (cbn; by rewrite M).
  split; [|split; [|split]].
  - assert (W3 : qwf R (set_mtds_pwt q2 t w3) (upd B t (B t))).
    { destruct (qw_tgrq _ _ _ W t w E) as (Rp & Hu & Hr).
      eapply (qwf_rebuild R q _ B t w3 (B t)); try done; [apply (qw_nodup _ _ _ W) | apply (qw_owner _ _ _ W) |].
      eapply layout_ext; [exact L2 | rewrite Eq, M2, M1; by apply dom_insert_same | by intros [] | done | | | |done].
      - intros e a _. rewrite Eq, M. destruct (decide (a = t)) as [->|Hne]; [|by rewrite prio_other].
        unfold perworker_tenant_get_priority. by rewrite lookup_insert_eq, E.
      - intros a _. rewrite Eq, ?M1. unfold tenant_timeout_get_priority.
        destruct (decide (a = t)) as [->|Hne]; [by rewrite lookup_insert_eq, E | by rewrite lookup_insert_ne].
      - intros e a. cbn. rewrite (in_class_upd q _ B t w3) by done. cbn. split.
        + intros [[-> ->]|[Hne Ha]]; [by left | by right].
        + intros [(-> & <- & _)|[Hne Ha]]; [by left | by right]. }
    destruct W3 as [A1 A2 A3 A4 A5]. assert (EB : forall a, upd B t (B t) a = B a).
    { intros a. destruct (decide (a = t)) as [->|Hne]; [apply upd_eq | by apply upd_ne]. }
    split; [intros a v Ev; rewrite <- EB; by apply A1 | intros a Ea; rewrite <- EB; by apply A2 | intros a p; rewrite <- EB; apply A3
           | intros a; rewrite <- EB; apply A4 |].
    eapply layout_ext; [exact A5 | done..| |done]. unfold in_class. intros e a. by setoid_rewrite EB.
  - unfold class_of. by rewrite Eq, lookup_insert_eq.
  - intros a Ha. unfold class_of. by rewrite Eq, lookup_insert_ne.
  - intros v Ev. rewrite E in Ev. injection Ev as <-. done.
Qed.

Lemma class_top R q B c :
  qwf R q B ->
  (exists t, priority_queue_top_nolock (class_queue q c) = Ret (0, Some t) /\ in_class q B c t)
  \/ (priority_queue_top_nolock (class_queue q c) = Ret (- ENOENT, None) /\ forall t, ~ in_class q B c t).
Proof. intros W. eapply holds_top, (lay_class _ _ _ _ _ (qw_layout _ _ _ W)). Qed.

(** The tenant at the head of a class heap, and what the peek says of it: the
    earliest deadline of its requests. *)
Lemma class_head R q B c :
  qwf R q B ->
  (exists t, priority_queue_top_nolock (class_queue q c) = Ret (0, Some t) /\ in_class q B c t
     /\ (forall b, b ∈ B t -> priority_queue_peek (class_queue q c) <= env_deadline env b)
     /\ (exists b, b ∈ B t /\ priority_queue_peek (class_queue q c) = env_deadline env b)
     /\ (pq_heap (prio (mtds_pwt q)) (class_queue q c) ->
         forall a b, in_class q B c a -> b ∈ B a -> priority_queue_peek (class_queue q c) <= env_deadline env b))
  \/ (priority_queue_top_nolock (class_queue q c) = Ret (- ENOENT, None) /\ (forall t, ~ in_class q B c t)
      /\ priority_queue_peek (class_queue q c) = UINT64_MAX).
Proof.
  intros W. destruct (holds_head _ _ _ _ (lay_class _ _ _ _ _ (qw_layout _ _ _ W) c)) as [(t & Et & Hin & Ep & Hall)|?]; [left|by right].
  assert (Hfirst : forall a, in_class q B c a -> exists b, b ∈ B a /\ prio (mtds_pwt q) a = env_deadline env b
    /\ forall b', b' ∈ B a -> env_deadline env b <= env_deadline env b').
  { intros a (w & E & _ & HB). destruct (qw_tgrq _ _ _ W a w E) as (Rp & Hu & _). unfold perworker_tenant_get_priority. rewrite E.
    destruct (top_nolock_ok (env_deadline env) _ _ Rp (plain_accessible _ Hu)) as [(b & -> & Hb & _ & Hmin)|(? & _)]; [by exists b|done]. }
  exists t. split; [done|]. split; [done|]. rewrite Ep. destruct (Hfirst t Hin) as (b & Hb & -> & Hmin). split; [done|].
  split; [by exists b|]. intros Hh a b' Ha Hb'. destruct (Hfirst a Ha) as (b0 & _ & E0 & Hmin0).
  specialize (Hall Hh a Ha). specialize (Hmin0 b' Hb'). destruct (Hfirst t Hin) as (b1 & Hb1 & E1 & _). specialize (Hmin b1 Hb1). lia.
Qed.

(** What a worker gets whose own choice has the deadline [d]: the earliest request of
    a tenant, a guaranteed one with budget left, or a default one if the worker asks
    for the default class and no guaranteed tenant waits.  Its deadline is before [d],
    unless it is guaranteed and the worker's own choice is not. *)
Definition served q (B : Z -> list Z) (budget : gmap Z Z) (d : Z) (target : MULTI_TENANCY_CLASS) (t p : Z) : Prop :=
  p ∈ B t /\ (forall b, b ∈ B t -> env_deadline env p <= env_deadline env b)
  /\ ((in_class q B MT_GUARANTEED t /\ (exists b, budget !! t = Some b /\ 0 < b) /\ (target = MT_DEFAULT \/ env_deadline env p < d))
      \/ (in_class q B MT_DEFAULT t /\ target = MT_DEFAULT /\ (forall a, ~ in_class q B MT_GUARANTEED a) /\ env_deadline env p < d)).

(** No request of the class comes before [d]: none waits, or those of the tenant at
    the head of its heap do not; when the heap is in order, no other does either. *)
Definition none_before q (B : Z -> list Z) (c : MULTI_TENANCY_CLASS) (d : Z) : Prop :=
  (forall a, ~ in_class q B c a)
  \/ exists t, in_class q B c t /\ priority_queue_top_nolock (class_queue q c) = Ret (0, Some t)
      /\ (forall b, b ∈ B t -> d <= env_deadline env b)
      /\ (pq_heap (prio (mtds_pwt q)) (class_queue q c) -> forall a b, in_class q B c a -> b ∈ B a -> d <= env_deadline env b).

(** Why it gets none: no request it could have comes before its own choice, or
    the guaranteed tenant whose turn it is has no budget left and is demoted. *)
Definition refused q (B : Z -> list Z) (budget : gmap Z Z) (d : Z) (target : MULTI_TENANCY_CLASS) q' : Prop :=
  (q' = q /\ match target with
             | MT_GUARANTEED => none_before q B MT_GUARANTEED d
             | MT_DEFAULT => (forall a, ~ in_class q B MT_GUARANTEED a) /\ none_before q B MT_DEFAULT d
             end)
  \/ (exists t b, in_class q B MT_GUARANTEED t /\ budget !! t = Some b /\ b <= 0 /\ class_of q' t = Some MT_DEFAULT
       /\ forall a, a <> t -> class_of q' a = class_of q a).

Lemma peek_none_before R q B c d : qwf R q B -> d <= priority_queue_peek (class_queue q c) -> none_before q B c d.
Proof.
  intros W Hd. destruct (class_head R q B c W) as [(t & Et & Hin & Hle & _ & Hall)|(_ & Hno & _)]; [right|by left].
  exists t. split; [done|]. split; [done|]. split; [intros b Hb; specialize (Hle b Hb); lia|].
  intros Hh a b Ha Hb. specialize (Hall Hh a b Ha Hb). lia.
Qed.

Lemma peek_max_none R q B c : qwf R q B -> priority_queue_peek (class_queue q c) = UINT64_MAX -> forall a, ~ in_class q B c a.
Proof.
  intros W Hp. destruct (class_head R q B c W) as [(t & _ & _ & _ & (b & _ & Eb) & _)|(_ & Hno & _)]; [|done].
  pose proof (deadlines b). lia.
Qed.

(** The early exits are taken when they should be. *)
Lemma not_earlier_refused R q B d target :
  qwf R q B -> not_earlier q d target = true ->
  match target with
  | MT_GUARANTEED => none_before q B MT_GUARANTEED d
  | MT_DEFAULT => (forall a, ~ in_class q B MT_GUARANTEED a) /\ none_before q B MT_DEFAULT d
  end.
Proof.
  intros W. unfold not_earlier. destruct target; intros E; reflect_bools.
  - split; [by eapply (peek_max_none R q B MT_GUARANTEED)|by eapply (peek_none_before R q B MT_DEFAULT)].
  - by eapply (peek_none_before R q B MT_GUARANTEED).
Qed.

(** ... and no other time: the first request of the head then comes before [d]. *)
Lemma earlier_served q (B : Z -> list Z) d target c t p :
  not_earlier q d target = false -> (c = MT_DEFAULT -> target = MT_DEFAULT /\ priority_queue_peek (mtds_guaranteed q) = UINT64_MAX) ->
  (exists b, b ∈ B t /\ priority_queue_peek (class_queue q c) = env_deadline env b) ->
  (forall b, b ∈ B t -> env_deadline env p <= env_deadline env b) ->
  target = MT_DEFAULT /\ c = MT_GUARANTEED \/ env_deadline env p < d.
Proof.
  unfold not_earlier. intros Hn Hc (b & Hb & Eb) Hmin. specialize (Hmin b Hb). destruct c; cbn [class_queue] in Eb.
  - destruct (Hc eq_refl) as [-> Hg]. right. rewrite Hg, Z.eqb_refl in Hn. cbn in Hn. reflect_bools. lia.
  - destruct target; [by left|right; reflect_bools; lia].
Qed.

Lemma remove_request_ok R budget q B d target :
  qwf R q B -> (forall t, is_Some (mtds_pwt q !! t) -> is_Some (budget !! t)) ->
  (exists p t rest q', remove_request env budget q d target = Ret (0, Some p, q') /\ served q B budget d target t p
     /\ B t ≡ₚ p :: rest /\ qwf R q' (upd B t rest) /\ (forall a, class_of q' a = class_of q a))
  \/ (exists q', remove_request env budget q d target = Ret (- ENOENT, None, q') /\ qwf R q' B
      /\ refused q B budget d target q').
Proof.
  intros W Hb. unfold remove_request. destruct (not_earlier q d target) eqn:En.
  { right. exists q. split; [done|]. split; [done|]. left. split; [done|]. by eapply not_earlier_refused. }
  destruct (class_head R q B MT_GUARANTEED W) as [(t & Et & Hin & _ & Hhead & _)|(Et & Hno & Hmax)]; cbn [class_queue] in Et; rewrite Et; ostep.
  - change (0 =? - ENOENT) with false. cbn match. pose proof Hin as (w & E & Ec & HB). unfold pwt_at. rewrite E. ostep.
    destruct (Hb t ltac:(by eexists)) as [b Eb]. rewrite Eb. ostep. rewrite bool_decide_true by done. cbn [andb].
    destruct (Z.leb_spec b 0) as [Hle|Hgt].
    + destruct (reclass_ok R q B MT_GUARANTEED MT_DEFAULT t W Hin ltac:(done)) as (q1 & q2 & q3 & E1 & E2 & _ & E3 & W3 & Hc & Ho & _).
      right. exists q3. unfold global_request_scheduler_mtds_demote_nolock, pwt_at. rewrite E. ostep.
      rewrite decide_False by (by rewrite Ec). rewrite E1. ostep. cbn [Z.eqb]. rewrite E2. ostep.
      change (0 =? - ENOSPC) with false. cbn match. ostep. rewrite E3. ostep.
      split; [done|]. split; [done|]. right. by exists t, b.
    + destruct (take_request_ok R q B MT_GUARANTEED t W Hin) as (p & rest & q' & Eq & Pm & Hmin & W' & Hc).
      left. exists p, t, rest, q'. split; [done|]. split; [|done]. split; [rewrite Pm; apply list_elem_of_here|]. split; [done|].
      left. split; [done|]. split; [by exists b|].
      destruct (earlier_served q B d target MT_GUARANTEED t p En) as [[? _]|?]; [done|done|done|by left|by right].
  - cbn [Z.eqb]. rewrite Z.eqb_refl. destruct target; cbn [decide].
    2: { right. exists q. split; [done|]. split; [done|]. left. split; [done|]. by left. }
    destruct (class_head R q B MT_DEFAULT W) as [(t & Et' & Hin & _ & Hhead & _)|(Et' & Hno' & _)]; cbn [class_queue] in Et'; rewrite decide_False, Et' by done; ostep.
    + change (0 =? - ENOENT) with false. cbn match.
      destruct (take_request_ok R q B MT_DEFAULT t W Hin) as (p & rest & q' & Eq & Pm & Hmin & W' & Hc).
      left. exists p, t, rest, q'. split; [done|]. split; [|done]. split; [rewrite Pm; apply list_elem_of_here|]. split; [done|].
      right. do 3 (split; [done|]). by destruct (earlier_served q B d MT_DEFAULT MT_DEFAULT t p En) as [[_ ?]|?].
    + rewrite Z.eqb_refl. right. exists q. split; [done|]. split; [done|]. left. split; [done|]. split; [done|]. by left.
Qed.

(** ** Timeouts and promotions *)

Lemma retimeout_ok R q B t w r :
  qwf R q B -> t ∈ R -> mtds_pwt q !! t = Some w -> 0 <= r <= UINT64_MAX ->
  let w' := mk_pwt (pwt_sandboxes w) r (pwt_mt_class w) in
  exists q1 q2, timeout_delete q t = Ret (0, q1) /\ mtds_pwt q1 = mtds_pwt q
    /\ timeout_enqueue (set_mtds_pwt q1 t w') t = Ret (0, q2) /\ mtds_pwt q2 = <[t := w']> (mtds_pwt q) /\ qwf R q2 B.
Proof.
  intros W Ht E Hr w'. assert (Hsome : is_Some (mtds_pwt q !! t)) by eauto.
  destruct (timeout_delete_ok q _ _ _ _ t (qw_layout _ _ _ W) Ht) as (q1 & E1 & M1 & L1); [done|].
  assert (L1' : layout (set_mtds_pwt q1 t w') (prio (<[t := w']> (mtds_pwt q))) (timeout_of (<[t := w']> (mtds_pwt q)))
                  (in_class q B) (fun a => a <> t /\ a ∈ R)).
  { eapply layout_ext; [exact L1 | cbn; rewrite M1; by apply dom_insert_same | by intros [] | done | | |done|done].
    - intros c a _. destruct (decide (a = t)) as [->|Hne]; [|by rewrite prio_other].
      unfold perworker_tenant_get_priority. by rewrite lookup_insert_eq, E.
    - intros a [Hne _]. rewrite M1. by rewrite timeout_other. }
  assert (Er : mtds_pwt (set_mtds_pwt q1 t w') = <[t := w']> (mtds_pwt q)) by (cbn; by rewrite M1). rewrite <- Er in L1'.
  destruct (timeout_enqueue_ok (set_mtds_pwt q1 t w') _ _ _ t L1') as (q2 & E2 & M2 & L2);
    [rewrite Er | by intros [? _] | rewrite Er, dom_insert_same by done; by apply elem_of_dom |].
  { apply timeouts_range. intros a v. destruct (decide (a = t)) as [->|Hne].
    - rewrite lookup_insert_eq. by intros [= <-].
    - rewrite lookup_insert_ne by done. intros Ev. apply (qw_tgrq _ _ _ W a v Ev). }
  exists q1, q2. do 3 (split; [done|]). rewrite Er in M2. split; [done|].
  destruct W as [A1 A2 A3 A4 A5]. split.
  - intros a v. rewrite M2. destruct (decide (a = t)) as [->|Hne].
    + rewrite lookup_insert_eq. intros [= <-]. destruct (A1 t w E) as (? & ? & _). done.
    + rewrite lookup_insert_ne by done. apply A1.
  - intros a. rewrite M2. destruct (decide (a = t)) as [->|Hne]; [by rewrite lookup_insert_eq|].
    rewrite lookup_insert_ne by done. apply A2.
  - done.
  - done.
  - eapply layout_ext; [exact L2 | done..| by rewrite Er, M2 | by rewrite M2 | |].
    + intros c a. unfold in_class. rewrite M2. destruct (decide (a = t)) as [->|Hne].
      * rewrite lookup_insert_eq, E. split; intros (v & [= <-] & ?); eauto.
      * by rewrite lookup_insert_ne.
    + intros a. cbn. split; [intros [->|[_ ?]]; done|]. intros Ha. destruct (decide (a = t)); auto.
Qed.

(** The class of an idle tenant, which is in no class heap. *)
Lemma set_class_idle R q B t w d :
  qwf R q B -> mtds_pwt q !! t = Some w -> B t = [] ->
  exists q', set_class q t d = Ret q' /\ qwf R q' B
    /\ mtds_pwt q' = <[t := mk_pwt (pwt_sandboxes w) (pwt_timeout w) d]> (mtds_pwt q).
Proof.
  intros W E EB. unfold set_class, pwt_at. rewrite E. ostep. set (w' := mk_pwt _ _ d). exists (set_mtds_pwt q t w').
  split; [done|]. split; [|done]. assert (Hsome : is_Some (mtds_pwt q !! t)) by eauto.
  assert (Hin : forall c a, in_class q B c a <-> in_class (set_mtds_pwt q t w') B c a).
  { intros c a. unfold in_class. cbn. destruct (decide (a = t)) as [->|Hne].
    - rewrite EB. split; by intros (? & _ & _ & []).
    - by rewrite lookup_insert_ne. }
  pose proof (layout_lag_class R q B t w w' W E eq_refl) as Lay. destruct W as [A1 A2 A3 A4 _]. split; cbn [set_mtds_pwt mtds_pwt]; try done.
  - intros a v. destruct (decide (a = t)) as [->|Hne].
    + rewrite lookup_insert_eq. intros [= <-]. apply (A1 t w E).
    + rewrite lookup_insert_ne by done. apply A1.
  - intros a. destruct (decide (a = t)) as [->|Hne]; [done|]. rewrite lookup_insert_ne by done. apply A2.
  - eapply layout_ext; [exact Lay | done..| |done| exact Hin |done].
    intros c a (v & _ & _ & Ha). rewrite prio_other; [done|]. by intros ->.
Qed.

(** ** The whole scheduler *)

Record gwf (R : gset Z) g (B : Z -> list Z) : Prop := {
  gw_queues : qwf R (gs_queues g) B;
  gw_lock : lock_is_locked (global_lock g) = false;
  gw_budget t : is_Some (mtds_pwt (gs_queues g) !! t) -> is_Some (gs_budget g !! t);
  gw_paid t : t ∈ R -> env_paid env t = true;
}.

(** The clock at the acquisition and at the release of the lock. *)
Definition span (t0 t1 : Z) : Prop := 0 < t0 /\ t0 < t1 /\ t1 <= UINT64_MAX.

Lemma with_global_lock_ok {A} t0 t1 g (body : queues -> outcome (A * queues)) r q' :
  span t0 t1 -> lock_is_locked (global_lock g) = false -> body (gs_queues g) = Ret (r, q') ->
  exists l, with_global_lock t0 t1 g body = Ret (r, mk_mtds_scheduler q' l (gs_budget g)) /\ lock_is_locked l = false.
Proof.
  intros (H0 & H1 & H2) Hl Eb. unfold with_global_lock.
  destruct (lock_lock_ok (global_lock g) t0 Hl) as (l & -> & Hl' & _). ostep. rewrite Eb. ostep.
  destruct (lock_unlock_ok l t0 t1 Hl' H0 H1 H2) as (l' & -> & Hl2 & _). ostep. by exists l'.
Qed.

Lemma with_global_lock_stops {A} t0 t1 g (body : queues -> outcome (A * queues)) s :
  lock_is_locked (global_lock g) = false -> body (gs_queues g) = Stop s -> with_global_lock t0 t1 g body = Stop s.
Proof.
  intros Hl Eb. unfold with_global_lock. destruct (lock_lock_ok (global_lock g) t0 Hl) as (l & -> & _). ostep. by rewrite Eb.
Qed.

Lemma same_known (q q' : queues) (P : Z -> Prop) :
  (forall a, class_of q' a = class_of q a \/ is_Some (class_of q a)) -> (forall t, is_Some (mtds_pwt q !! t) -> P t) ->
  forall t, is_Some (mtds_pwt q' !! t) -> P t.
Proof.
  intros Hc HP t [w Ew]. apply HP. destruct (Hc t) as [Eq|Hs].
  - unfold class_of in Eq. rewrite Ew in Eq. destruct (mtds_pwt q !! t); [eauto|done].
  - unfold class_of in Hs. by rewrite fmap_is_Some in Hs.
Qed.

(** No call adds or removes a tenant. *)
Definition same_tenants g g' : Prop :=
  forall a, is_Some (class_of (gs_queues g') a) <-> is_Some (class_of (gs_queues g) a).

(** *** One tenant's turn *)

(** The clock during a turn. *)
Definition turn_ok (k : turn) : Prop :=
  span (tn_lock k) (tn_unlock k) /\ forall t, clock_ok env (tn_timeout k) t.

(** The tenant's class, moving it to its new heap if it has requests. *)
Definition promote_class (k : turn) g (t : Z) : outcome scheduler :=
  w ← pwt_at (gs_queues g) t;
  if decide (pwt_mt_class w = MT_DEFAULT) then
    n ← priority_queue_length_nolock (pwt_sandboxes w);
    g ← (if decide (0 < n)%nat then global_request_scheduler_mtds_promote_lock env (tn_lock k) (tn_unlock k) g t else Ret g);
    q ← set_class (gs_queues g) t MT_GUARANTEED;
    Ret (set_queues g q)
  else Ret g.

Lemma promote_class_ok R k g B t w :
  gwf R g B -> mtds_pwt (gs_queues g) !! t = Some w -> span (tn_lock k) (tn_unlock k) ->
  exists g', promote_class k g t = Ret g' /\ qwf R (gs_queues g') B /\ lock_is_locked (global_lock g') = false
    /\ gs_budget g' = gs_budget g
    /\ mtds_pwt (gs_queues g') = <[t := mk_pwt (pwt_sandboxes w) (pwt_timeout w) MT_GUARANTEED]> (mtds_pwt (gs_queues g)).
Proof.
  intros [W Hl Hb Hp] E Hspan. unfold promote_class, pwt_at. rewrite E. ostep. case_decide as Hc.
  - destruct (qw_tgrq _ _ _ W t w E) as (Rp & Hu & _). unfold priority_queue_length_nolock at 1.
    rewrite (plain_accessible _ Hu), (repr_size _ _ _ Rp). ostep. destruct (decide (B t = [])) as [EB|HB].
    + rewrite EB, decide_False by (cbn; lia). ostep.
      destruct (set_class_idle R _ B t w MT_GUARANTEED W E EB) as (q' & -> & W' & M'). ostep.
      by exists (set_queues g q').
    + rewrite decide_True by (destruct (B t); [done|cbn; lia]).
      destruct (reclass_ok R (gs_queues g) B MT_DEFAULT MT_GUARANTEED t W) as (q1 & q2 & q3 & E1 & E2 & _ & E3 & W3 & _ & _ & M3);
        [by exists w | done |].
      destruct (with_global_lock_ok (tn_lock k) (tn_unlock k) g (fun q => promote_request env q t) tt q2 Hspan Hl) as (l & El & Hl').
      { unfold promote_request, pwt_at, priority_queue_length_nolock. rewrite E. ostep.
        rewrite decide_False by (by rewrite Hc). rewrite (plain_accessible _ Hu), (repr_size _ _ _ Rp). ostep.
        rewrite decide_False by (destruct (B t); [done|cbn; lia]). rewrite E1. ostep. cbn [Z.eqb]. rewrite E2. ostep.
        change (0 =? - ENOSPC) with false. done. }
      unfold global_request_scheduler_mtds_promote_lock. rewrite El. ostep. cbn [gs_queues snd]. rewrite E3. ostep.
      eexists. split; [done|]. cbn. split; [done|]. split; [done|]. split; [done|]. by apply M3.
  - exists g. split; [done|]. split; [done|]. split; [done|]. split; [done|]. rewrite insert_id; [done|].
    rewrite E. f_equal. destruct w as [s o c]. cbn in *. by destruct c.
Qed.

Lemma promote_tenant_globally_ok R k g B t w :
  gwf R g B -> t ∈ R -> mtds_pwt (gs_queues g) !! t = Some w -> turn_ok k ->
  exists g' w', promote_tenant_globally env max_budget k g t = Ret g' /\ gwf R g' B
    /\ mtds_pwt (gs_queues g') = <[t := w']> (mtds_pwt (gs_queues g)) /\ gs_budget g' = <[t := max_budget t]> (gs_budget g)
    /\ pwt_sandboxes w' = pwt_sandboxes w /\ pwt_mt_class w' = MT_GUARANTEED /\ tn_timeout k < pwt_timeout w'.
Proof.
  intros G Ht E [Hspan Hclock]. destruct (promote_class_ok R k g B t w G E Hspan) as (g1 & E1 & W1 & Hl1 & Hb1 & M1).
  destruct (Hclock t (gw_paid _ _ _ G t Ht)) as [Hbt Hm]. pose proof (gw_paid _ _ _ G t Ht) as Hpd.
  unfold env_paid in Hpd. apply Z.ltb_lt in Hpd.
  destruct (next_timeout_ok (env_boot env) (env_period env t) (tn_timeout k) Hbt Hpd Hm) as (r & Er & Hr & _).
  set (w1 := mk_pwt (pwt_sandboxes w) (pwt_timeout w) MT_GUARANTEED) in M1.
  assert (E2 : mtds_pwt (gs_queues g1) !! t = Some w1) by (by rewrite M1, lookup_insert_eq).
  destruct (retimeout_ok R (gs_queues g1) B t w1 r W1 Ht E2) as (q1 & q2 & D1 & M2 & D2 & M3 & W2); [lia|].
  assert (Ew : pwt_at (gs_queues g) t = Ret w) by (unfold pwt_at; by rewrite E).
  unfold promote_class in E1. unfold promote_tenant_globally. rewrite Ew in E1 |- *. revert E1. ostep. intros E1. rewrite E1. ostep. cbn [gs_queues gs_budget global_lock].
  rewrite D1. ostep. rewrite Er. ostep. unfold pwt_at. rewrite M2, E2. ostep. rewrite D2. ostep.
  eexists _, _. split; [done|]. split; [|split; [cbn; rewrite M3, M1; apply insert_insert_eq |]].
  - split; cbn; [done | done | | apply (gw_paid _ _ _ G)]. intros a [v Ev]. rewrite M3, M1, insert_insert_eq in Ev. rewrite Hb1.
    destruct (decide (a = t)) as [->|Hne]; [rewrite lookup_insert_eq; eauto|].
    rewrite lookup_insert_ne in Ev by done. rewrite lookup_insert_ne by done. apply (gw_budget _ _ _ G). eauto.
  - cbn. rewrite Hb1. split; [done|]. split; [done|]. split; [done|]. lia.
Qed.

(** *** The promotions *)

(** What the promotions do to a tenant: nothing, or it is guaranteed, its
    budget is full and its timeout later. *)
Definition replenished g g' : Prop :=
  forall a, (mtds_pwt (gs_queues g') !! a = mtds_pwt (gs_queues g) !! a /\ gs_budget g' !! a = gs_budget g !! a)
    \/ exists w w', mtds_pwt (gs_queues g) !! a = Some w /\ mtds_pwt (gs_queues g') !! a = Some w'
         /\ pwt_sandboxes w' = pwt_sandboxes w /\ pwt_timeout w < pwt_timeout w' /\ pwt_mt_class w' = MT_GUARANTEED
         /\ gs_budget g' !! a = Some (max_budget a).

Lemma replenished_step g g1 g2 t w w1 :
  mtds_pwt (gs_queues g) !! t = Some w -> mtds_pwt (gs_queues g1) = <[t := w1]> (mtds_pwt (gs_queues g)) ->
  gs_budget g1 = <[t := max_budget t]> (gs_budget g) -> pwt_sandboxes w1 = pwt_sandboxes w -> pwt_timeout w < pwt_timeout w1 ->
  pwt_mt_class w1 = MT_GUARANTEED -> replenished g1 g2 -> replenished g g2.
Proof.
  intros E M1 Hb Hs Ht Hc Hr a. specialize (Hr a). rewrite M1, Hb in Hr. destruct (decide (a = t)) as [->|Hne].
  - rewrite !lookup_insert_eq in Hr. right. exists w. destruct Hr as [[-> ->]|(v & v' & [= <-] & -> & Hs' & Ht' & Hc' & Hb')].
    + by exists w1.
    + exists v'. split; [done|]. split; [done|]. split; [congruence|]. split; [lia|]. by split.
  - by rewrite !lookup_insert_ne in Hr.
Qed.

(** The turns the promotions can take while the clock shows at most [T]. *)
Definition turns_left (R : gset Z) (T : Z) g : nat :=
  sum_list_with (fun t => Z.to_nat (T + 1 - timeout_of (mtds_pwt (gs_queues g)) t)) (elements R).

Lemma turns_left_step R T g g' t w w' :
  t ∈ R -> mtds_pwt (gs_queues g) !! t = Some w -> mtds_pwt (gs_queues g') = <[t := w']> (mtds_pwt (gs_queues g)) ->
  pwt_timeout w <= T -> pwt_timeout w < pwt_timeout w' -> (turns_left R T g' < turns_left R T g)%nat.
Proof.
  intros Ht E M Hle Hlt. apply (sum_list_with_lt _ _ _ t); [by apply elem_of_elements | |].
  - intros a _. rewrite M. destruct (decide (a = t)) as [->|Hne]; [|by rewrite timeout_other].
    unfold tenant_timeout_get_priority. rewrite lookup_insert_eq, E. lia.
  - rewrite M. unfold tenant_timeout_get_priority. rewrite lookup_insert_eq, E. lia.
Qed.

(** The clock goes forward from [now], at most to [T]. *)
Fixpoint readings_ok (now T : Z) (turns : list turn) : Prop :=
  now <= T /\ match turns with
  | [] => True
  | k :: turns => turn_ok k /\ now <= tn_timeout k <= tn_now k /\ readings_ok (tn_now k) T turns
  end.

(** The last reading of the clock. *)
Fixpoint last_reading (now : Z) (turns : list turn) (n : nat) : Z :=
  match n, turns with S n, k :: turns => last_reading (tn_now k) turns n | _, _ => now end.

(** The timeout at the head of the timeout heap is after [now]. *)
Definition head_waits now g : Prop :=
  exists t rc, priority_queue_top_nolock (worker_thread_timeout_queue (gs_queues g)) = Ret (rc, Some t)
    /\ now < timeout_of (mtds_pwt (gs_queues g)) t.

Lemma timeouts_top R q B t :
  qwf R q B -> t ∈ R ->
  exists a, priority_queue_top_nolock (worker_thread_timeout_queue q) = Ret (0, Some a) /\ a ∈ R /\ is_Some (mtds_pwt q !! a).
Proof.
  intros W Ht. destruct (holds_top _ _ _ _ (lay_timeouts _ _ _ _ _ (qw_layout _ _ _ W))) as [(a & E & Ha)|[_ Hno]];
    [|by destruct (Hno t)].
  exists a. split; [done|]. split; [done|]. apply elem_of_dom. apply (lay_dom_timeouts _ _ _ _ _ (qw_layout _ _ _ W) a Ha).
Qed.

Lemma promotions_loop_ok R B T turns : forall now g t,
  gwf R g B -> priority_queue_top_nolock (worker_thread_timeout_queue (gs_queues g)) = Ret (0, Some t) -> t ∈ R ->
  readings_ok now T turns -> (turns_left R T g <= length turns)%nat ->
  exists n g', promotions_loop env max_budget turns now g t = Ret g' /\ gwf R g' B /\ replenished g g'
    /\ (n <= turns_left R T g)%nat /\ head_waits (last_reading now turns n) g'.
Proof.
  induction turns as [|k turns IH]; intros now g t G Htop Ht [Hnow Hks] Hlen; cbn [promotions_loop];
    destruct (timeouts_top R (gs_queues g) B t (gw_queues _ _ _ G) Ht) as (a & Ea & _ & w & E);
    (rewrite Ea in Htop; injection Htop as ->); unfold pwt_at; rewrite E; ostep;
    (destruct (Z.leb_spec (pwt_timeout w) now) as [Hle|Hgt];
      [|exists 0%nat, g; split; [done|]; split; [done|]; split; [by left|]; split; [lia|];
        exists t, 0; split; [done|]; cbn; unfold tenant_timeout_get_priority; by rewrite E]).
  - exfalso. enough (0 < turns_left R T g)%nat by (cbn in Hlen; lia).
    eapply Nat.lt_le_trans; [|apply (sum_list_with_in t); by apply elem_of_elements].
    unfold tenant_timeout_get_priority. rewrite E. lia.
  - destruct Hks as (Hk & Hk1 & Hks).
    destruct (promote_tenant_globally_ok R k g B t w G Ht E Hk) as (g1 & w1 & -> & G1 & M1 & Hb1 & Hs1 & Hc1 & Ht1). ostep.
    destruct (timeouts_top R (gs_queues g1) B t (gw_queues _ _ _ G1) Ht) as (b & Eb & Hb & _). rewrite Eb. ostep. cbn [default id].
    pose proof (turns_left_step R T g g1 t w w1 Ht E M1 ltac:(lia) ltac:(lia)) as Hdec.
    destruct (IH (tn_now k) g1 b G1 Eb Hb Hks ltac:(cbn in Hlen; lia)) as (n & g' & -> & G' & Hr & Hn & Hh).
    exists (S n), g'. split; [done|]. split; [done|]. split; [|split; [lia|done]]. eapply replenished_step; try done. lia.
Qed.

Lemma process_promotions_ok R B T now turns g :
  gwf R g B -> readings_ok now T turns -> (turns_left R T g <= length turns)%nat ->
  exists n g', global_timeout_queue_process_promotions env max_budget now turns g = Ret g' /\ gwf R g' B /\ replenished g g'
    /\ (n <= turns_left R T g)%nat /\ (R = ∅ \/ head_waits (last_reading now turns n) g').
Proof.
  intros G Hks Hlen. unfold global_timeout_queue_process_promotions.
  destruct (holds_top _ _ _ _ (lay_timeouts _ _ _ _ _ (qw_layout _ _ _ (gw_queues _ _ _ G)))) as [(t & E & Ht)|[E Hno]];
    rewrite E; ostep.
  - destruct (promotions_loop_ok R B T turns now g t G E Ht Hks Hlen) as (n & g' & Eg & G' & Hr & Hn & Hh).
    exists n, g'. auto 10.
  - exists 0%nat, g. split; [done|]. split; [done|]. split; [by left|]. split; [lia|]. left. apply set_eq. intros a.
    split; [by intros ?%Hno | by intros ?%not_elem_of_empty].
Qed.

(** ** The calls of the scheduler *)

Lemma add_request_full R q B p w :
  let t := env_tenant env p in
  qwf R q B -> mtds_pwt q !! t = Some w -> length (B t) = RUNTIME_TENANT_QUEUE_SIZE -> add_request env q p = Stop Panic.
Proof.
  intros t W E Hfull. destruct (qw_tgrq _ _ _ W t w E) as (Rp & Hu & _). unfold add_request. fold t. unfold pwt_at. rewrite E. ostep.
  rewrite enqueue_nolock_full; [|by apply plain_accessible|by rewrite (repr_size _ _ _ Rp), (proj2 Hu)].
  ostep. by rewrite Z.eqb_refl.
Qed.

Lemma queue_bound R q B t : qwf R q B -> (length (B t) <= RUNTIME_TENANT_QUEUE_SIZE)%nat.
Proof.
  intros W. destruct (mtds_pwt q !! t) as [w|] eqn:E; [|rewrite (qw_none _ _ _ W t E); cbn; lia].
  destruct (qw_tgrq _ _ _ W t w E) as (Rp & Hu & _). rewrite <- (repr_size _ _ _ Rp), <- (proj2 Hu).
  apply pq_repr_bag in Rp as [(Wq & _) _]. apply (wf_size _ Wq).
Qed.

(** The request would come before every waiting one of its tenant. *)
Definition overtakes (B : Z -> list Z) (p : Z) : Prop :=
  let t := env_tenant env p in B t <> [] /\ forall b, b ∈ B t -> env_deadline env p < env_deadline env b.

Lemma peek_of R q B t w :
  qwf R q B -> mtds_pwt q !! t = Some w -> B t <> [] ->
  (forall b, b ∈ B t -> priority_queue_peek (pwt_sandboxes w) <= env_deadline env b)
  /\ exists b, b ∈ B t /\ priority_queue_peek (pwt_sandboxes w) = env_deadline env b.
Proof.
  intros W E HB. destruct (qw_tgrq _ _ _ W t w E) as (Rp & Hu & _). split; [intros b Hb; by eapply peek_le|].
  rewrite <- (prio_is_peek R q B t w W E). unfold perworker_tenant_get_priority. rewrite E.
  destruct (top_bag _ _ _ (bag_of_repr _ _ _ Rp)) as [(p & -> & Hp & _)|(Hn & _)]; [by apply plain_accessible| |done]. by exists p.
Qed.

Lemma global_add_ok R g B t0 t1 p :
  gwf R g B -> span t0 t1 -> is_Some (mtds_pwt (gs_queues g) !! env_tenant env p) -> (p ∉ B (env_tenant env p)) ->
  (length (B (env_tenant env p)) < RUNTIME_TENANT_QUEUE_SIZE)%nat -> ~ overtakes B p ->
  exists g', global_request_scheduler_mtds_add env true t0 t1 g p = Ret (p, g')
    /\ gwf R g' (upd B (env_tenant env p) (p :: B (env_tenant env p))) /\ gs_budget g' = gs_budget g
    /\ forall a, class_of (gs_queues g') a = class_of (gs_queues g) a.
Proof.
  intros [W Hl Hb Hp] Hspan [w E] Hni Hroom Hno. destruct (add_request_ok R (gs_queues g) B p w W E Hni Hroom) as (q' & Eq & W' & Hc).
  { intros HB. destruct (peek_of R _ B _ w W E HB) as (Hle & b & Hb' & Eb). rewrite Eb.
    destruct (Z.le_gt_cases (env_deadline env b) (env_deadline env p)) as [|Hgt]; [done|].
    destruct Hno. split; [done|]. intros a Ha. pose proof (Hle a Ha). lia. }
  destruct (with_global_lock_ok t0 t1 g (fun q => add_request env q p) p q' Hspan Hl Eq) as (l & El & Hl').
  eexists. split; [exact El|]. split; [|by split]. split; cbn; [done | done | | done].
  eapply same_known; [|exact Hb]. intros a. by left.
Qed.

(** The listener's call stops exactly there. *)
Lemma add_stops R g B t0 t1 p :
  gwf R g B -> is_Some (mtds_pwt (gs_queues g) !! env_tenant env p) ->
  (length (B (env_tenant env p)) = RUNTIME_TENANT_QUEUE_SIZE -> global_request_scheduler_mtds_add env true t0 t1 g p = Stop Panic)
  /\ ((length (B (env_tenant env p)) < RUNTIME_TENANT_QUEUE_SIZE)%nat -> overtakes B p ->
      global_request_scheduler_mtds_add env true t0 t1 g p = Stop AssertFail).
Proof.
  intros [W Hl _ _] [w E]. unfold global_request_scheduler_mtds_add. cbn [negb]. split.
  - intros Hfull. apply with_global_lock_stops; [done|]. by eapply add_request_full.
  - intros Hroom [HB Hlt]. apply with_global_lock_stops; [done|]. eapply add_request_stops; try done.
    destruct (peek_of R _ B _ w W E HB) as (_ & b & Hb & ->). by apply Hlt.
Qed.

Lemma remove_ok R g B t0 t1 d target :
  gwf R g B -> span t0 t1 ->
  (exists p t rest g', global_request_scheduler_mtds_remove_with_mt_class env t0 t1 g d target = Ret (0, Some p, g')
     /\ served (gs_queues g) B (gs_budget g) d target t p /\ B t ≡ₚ p :: rest /\ gwf R g' (upd B t rest) /\ same_tenants g g')
  \/ (exists g', global_request_scheduler_mtds_remove_with_mt_class env t0 t1 g d target = Ret (- ENOENT, None, g')
     /\ gwf R g' B /\ refused (gs_queues g) B (gs_budget g) d target (gs_queues g') /\ same_tenants g g').
Proof.
  intros [W Hl Hb Hp] Hspan.
  destruct (remove_request_ok R (gs_budget g) (gs_queues g) B d target W Hb)
    as [(p & t & rest & q' & Eq & Hs & Pm & W' & Hc)|(q' & Eq & W' & Hr)].
  - destruct (with_global_lock_ok t0 t1 g (fun q => remove_request env (gs_budget g) q d target) _ q' Hspan Hl Eq) as (l & El & Hl').
    left. eexists p, t, rest, _. split; [exact El|]. do 2 (split; [done|]). split; [split; cbn; [done | done | | done]|].
    + eapply same_known; [|exact Hb]. intros a. by left.
    + intros a. cbn. by rewrite Hc.
  - destruct (with_global_lock_ok t0 t1 g (fun q => remove_request env (gs_budget g) q d target) _ q' Hspan Hl Eq) as (l & El & Hl').
    assert (Hc : forall a, class_of q' a = class_of (gs_queues g) a \/ is_Some (class_of (gs_queues g) a) /\ is_Some (class_of q' a)).
    { intros a. destruct Hr as [[-> _]|(t & b & Hin & _ & _ & Ht & Ho)]; [by left|].
      destruct (decide (a = t)) as [->|Hne]; [right | left; by apply Ho]. rewrite (class_of_in _ _ _ _ Hin), Ht. eauto. }
    right. eexists. split; [exact El|]. split; [|split; [done|]].
    + split; cbn; [done | done | | done]. eapply same_known; [|exact Hb]. intros a. destruct (Hc a) as [?|[? _]]; auto.
    + intros a. cbn. destruct (Hc a) as [->|?]; tauto.
Qed.

(** *** Start-up *)

Lemma global_initialize_ok (tgrqs : gmap Z (tenant_global_request_queue L)) budget :
  (size tgrqs <= RUNTIME_MAX_TENANT_COUNT)%nat ->
  (forall t w, tgrqs !! t = Some w -> (exists uninit, w = tgrq_init uninit (env_period env t)) /\ is_Some (budget !! t)) ->
  gwf ∅ (global_request_scheduler_mtds_initialize tgrqs budget) (fun _ => []).
Proof.
  intros Hs Hw. assert (Hempty : forall f n P, (n <= RUNTIME_MAX_TENANT_COUNT)%nat -> (forall t : Z, ~ P t) ->
    holds f n (priority_queue_initialize (L := L) RUNTIME_MAX_TENANT_COUNT false) P).
  { intros f n P Hn HP. exists []. split; [apply pq_repr_bag, PriorityQueueSpec.initialize_ok|]. split; [constructor|].
    split; [|done]. intros t. split; [by intros ?%not_elem_of_nil | by intros ?%HP]. }
  split; cbn; [|apply mcs_init_unlocked | by intros t [w E]; destruct (Hw t w E) | by intros t ?%not_elem_of_empty].
  split; cbn; try done.
  - intros t w E. destruct (Hw t w E) as [[uninit ->] _]. split; [apply PriorityQueueSpec.initialize_ok|]. split; [done|].
    apply u64_range.
  - intros t p Hp. by apply not_elem_of_nil in Hp.
  - intros t. constructor.
  - split; cbn.
    + intros []; apply Hempty; try done; by intros t (? & ? & ? & []).
    + apply Hempty; [done|]. by intros t ?%not_elem_of_empty.
    + intros c t (w & E & _). by apply elem_of_dom.
    + by intros t ?%not_elem_of_empty.
Qed.

Lemma timeout_add_ok R g B now t :
  gwf R g B -> (t ∉ R) -> is_Some (mtds_pwt (gs_queues g) !! t) -> env_paid env t = true -> clock_ok env now t ->
  exists g', global_timeout_queue_add env now g t = Ret g' /\ gwf ({[t]} ∪ R) g' B /\ same_tenants g g'.
Proof.
  intros [W Hl Hb Hp] Ht [w E] Hpd Hclock. assert (Hsome : is_Some (mtds_pwt (gs_queues g) !! t)) by eauto.
  destruct (Hclock Hpd) as [Hbt Hm]. pose proof Hpd as Hpd'. unfold env_paid in Hpd'. apply Z.ltb_lt in Hpd'.
  destruct (next_timeout_ok (env_boot env) (env_period env t) now Hbt Hpd' Hm) as (r & Er & Hr & _).
  unfold global_timeout_queue_add, pwt_at. rewrite E. ostep. rewrite Er. ostep. set (w' := mk_pwt _ r _).
  set (q := gs_queues g) in *. set (q1 := set_mtds_pwt q t w').
  assert (Hr' : forall a, 0 <= timeout_of (mtds_pwt q1) a <= UINT64_MAX).
  { apply timeouts_range. intros a v. cbn. destruct (decide (a = t)) as [->|Hne].
    - rewrite lookup_insert_eq. intros [= <-]. cbn. lia.
    - rewrite lookup_insert_ne by done. intros Ev. apply (qw_tgrq _ _ _ W a v Ev). }
  assert (L1 : layout q1 (prio (mtds_pwt q1)) (timeout_of (mtds_pwt q1)) (in_class q B) (fun a => a ∈ R)).
  { eapply layout_ext; [apply (layout_lag R q B t w' W Hsome) | done | done | done | | |done|done].
    - intros c a _. destruct (decide (a = t)) as [->|Hne]; [|cbn; by rewrite prio_other].
      unfold perworker_tenant_get_priority. cbn. by rewrite lookup_insert_eq, E.
    - intros a Ha. cbn. rewrite timeout_other; [done|]. by intros ->. }
  destruct (timeout_enqueue_ok q1 _ _ _ t L1 Hr') as (q2 & E2 & M2 & L2);
    [done | cbn; rewrite dom_insert_same by done; by apply elem_of_dom |].
  rewrite E2. ostep. eexists. split; [done|]. cbn in M2. destruct W as [A1 A2 A3 A4 _].
  assert (Hk : forall a, is_Some (mtds_pwt q2 !! a) <-> is_Some (mtds_pwt q !! a)).
  { intros a. rewrite M2. destruct (decide (a = t)) as [->|Hne]; [|by rewrite lookup_insert_ne].
    rewrite lookup_insert_eq. split; eauto. }
  split; [split; cbn; [|done| |]|].
  - split; try done.
    + intros a v. rewrite M2. destruct (decide (a = t)) as [->|Hne].
      * rewrite lookup_insert_eq. intros [= <-]. destruct (A1 t w E) as (? & ? & _). cbn. split; [done|]. split; [done|]. lia.
      * rewrite lookup_insert_ne by done. apply A1.
    + intros a. rewrite M2. destruct (decide (a = t)) as [->|Hne]; [by rewrite lookup_insert_eq|].
      rewrite lookup_insert_ne by done. apply A2.
    + eapply layout_ext; [exact L2 | done..| by rewrite M2 | done | |].
      2: { intros a. cbn. by rewrite elem_of_union, elem_of_singleton. }
      intros c a. unfold in_class. rewrite M2. destruct (decide (a = t)) as [->|Hne]; [|by rewrite lookup_insert_ne].
      rewrite lookup_insert_eq, E. split; intros (v & [= <-] & ?); eauto.
  - intros a Ha. by apply Hb, Hk.
  - intros a [->%elem_of_singleton|Ha]%elem_of_union; [done | by apply Hp].
  - intros a. cbn. unfold class_of. rewrite !fmap_is_Some. apply Hk.
Qed.

(** ** Runs *)

(** The states the scheduler can reach: [R] the registered tenants, [acc] the
    requests it accepted, [out] those it handed to workers.  Any call that
    returned counts; between calls a worker may charge a tenant's budget. *)
Inductive reaches (tgrqs : gmap Z (tenant_global_request_queue L)) (budget : gmap Z Z)
  : gset Z -> list Z -> list Z -> scheduler -> Prop :=
| r_init : reaches tgrqs budget ∅ [] [] (global_request_scheduler_mtds_initialize tgrqs budget)
| r_register R acc out g now t g' :
    reaches tgrqs budget R acc out g -> (t ∉ R) -> t ∈ dom tgrqs -> env_paid env t = true -> clock_ok env now t ->
    global_timeout_queue_add env now g t = Ret g' -> reaches tgrqs budget ({[t]} ∪ R) acc out g'
| r_add R acc out g t0 t1 p r g' :
    reaches tgrqs budget R acc out g -> span t0 t1 -> env_tenant env p ∈ dom tgrqs -> (p ∉ acc) ->
    global_request_scheduler_mtds_add env true t0 t1 g p = Ret (r, g') -> reaches tgrqs budget R (p :: acc) out g'
| r_remove R acc out g t0 t1 d target rc p g' :
    reaches tgrqs budget R acc out g -> span t0 t1 ->
    global_request_scheduler_mtds_remove_with_mt_class env t0 t1 g d target = Ret (rc, p, g') ->
    reaches tgrqs budget R acc (match p with Some p => p :: out | None => out end) g'
| r_charge R acc out g t b :
    reaches tgrqs budget R acc out g -> reaches tgrqs budget R acc out (mk_mtds_scheduler (gs_queues g) (global_lock g) (<[t := b]> (gs_budget g)))
| r_promote R acc out g now T turns g' :
    reaches tgrqs budget R acc out g -> readings_ok now T turns -> (turns_left R T g <= length turns)%nat ->
    global_timeout_queue_process_promotions env max_budget now turns g = Ret g' -> reaches tgrqs budget R acc out g'.

(** The requests accepted are those handed out and those waiting, each once. *)
Definition conserved (acc out : list Z) (B : Z -> list Z) : Prop :=
  NoDup out /\ (forall p, p ∈ acc <-> p ∈ out \/ p ∈ B (env_tenant env p)) /\ (forall p, p ∈ out -> p ∉ B (env_tenant env p)).

Lemma conserved_add acc out B p :
  conserved acc out B -> (p ∉ acc) -> conserved (p :: acc) out (upd B (env_tenant env p) (p :: B (env_tenant env p))).
Proof.
  intros (Hnd & Hacc & Hout) Hp. assert (Hin : forall a, a ∈ upd B (env_tenant env p) (p :: B (env_tenant env p)) (env_tenant env a)
    <-> a = p \/ a ∈ B (env_tenant env a)).
  { intros a. unfold upd. case_decide as Ea; [rewrite elem_of_cons, Ea; done|]. split; [by right|]. by intros [->|?]. }
  split; [done|]. split.
  - intros a. rewrite elem_of_cons, Hacc, Hin. tauto.
  - intros a Ha. rewrite Hin. intros [->|Hb]; [|by apply (Hout a)]. apply Hp, Hacc. by left.
Qed.

Lemma conserved_remove R q acc out B t p rest :
  qwf R q B -> conserved acc out B -> B t ≡ₚ p :: rest -> conserved acc (p :: out) (upd B t rest).
Proof.
  intros W (Hnd & Hacc & Hout) Pm. assert (Hp : p ∈ B t) by (rewrite Pm; apply list_elem_of_here).
  pose proof (qw_owner _ _ _ W t p Hp) as Et. pose proof (qw_nodup _ _ _ W t) as Hn. rewrite Pm in Hn.
  inversion Hn as [|? ? Hni _]; subst.
  assert (Hin : forall a, a ∈ B (env_tenant env a) <-> a = p \/ a ∈ upd B (env_tenant env p) rest (env_tenant env a)).
  { intros a. unfold upd. case_decide as Ea; [rewrite Ea, Pm, elem_of_cons; done|]. split; [by right|]. by intros [->|?]. }
  assert (Hpo : p ∉ out) by (intros Hpo; by apply (Hout p Hpo)).
  split; [by constructor|]. split.
  - intros a. rewrite elem_of_cons, Hacc, Hin. tauto.
  - intros a [->|Ha]%elem_of_cons Hb; [by rewrite upd_eq in Hb|]. apply (Hout a Ha), Hin. by right.
Qed.

Lemma replenished_same_tenants g g' : replenished g g' -> same_tenants g g'.
Proof.
  intros Hr a. unfold class_of. rewrite !fmap_is_Some. destruct (Hr a) as [[-> _]|(w & w' & -> & -> & _)]; [done|]. split; eauto.
Qed.

Lemma reaches_inv tgrqs budget R acc out g :
  (size tgrqs <= RUNTIME_MAX_TENANT_COUNT)%nat ->
  (forall t w, tgrqs !! t = Some w -> (exists uninit, w = tgrq_init uninit (env_period env t)) /\ is_Some (budget !! t)) ->
  reaches tgrqs budget R acc out g ->
  exists B, gwf R g B /\ conserved acc out B /\ forall t, is_Some (class_of (gs_queues g) t) <-> t ∈ dom tgrqs.
Proof.
  intros Hs Hw. induction 1 as [|R acc out g now t g' _ IH Ht Hd Hpd Hclock E|R acc out g t0 t1 p r g' _ IH Hspan Hd Hp E
    |R acc out g t0 t1 d target rc p g' _ IH Hspan E|R acc out g t b _ IH|R acc out g now T turns g' _ IH Hks Hlen E].
  { exists (fun _ => []). split; [by apply global_initialize_ok|]. split.
    - split; [constructor|]. split; [intros p; rewrite !elem_of_nil; tauto | by intros p ?%not_elem_of_nil].
    - intros t. cbn. unfold class_of. by rewrite fmap_is_Some, elem_of_dom. }
  all: destruct IH as (B & G & Hc & Hk).
  - destruct (timeout_add_ok R g B now t G Ht) as (g1 & E1 & G1 & Hk1); [apply Hk in Hd; unfold class_of in Hd; by rewrite fmap_is_Some in Hd | done | done |].
    rewrite E1 in E. injection E as <-. exists B. split; [done|]. split; [done|]. intros a. rewrite <- Hk. apply Hk1.
  - apply Hk in Hd. unfold class_of in Hd. rewrite fmap_is_Some in Hd. pose proof (add_stops R g B t0 t1 p G Hd) as [Hfull Hover].
    pose proof (queue_bound R _ B (env_tenant env p) (gw_queues _ _ _ G)) as Hlen.
    assert (Hlen' : (length (B (env_tenant env p)) < RUNTIME_TENANT_QUEUE_SIZE)%nat).
    { destruct (decide (length (B (env_tenant env p)) = RUNTIME_TENANT_QUEUE_SIZE)) as [Ef|]; [|lia]. by rewrite Hfull in E. }
    destruct (global_add_ok R g B t0 t1 p G Hspan Hd) as (g1 & E1 & G1 & _ & Hc1); [|done|by intros Ho; rewrite Hover in E|].
    { intros Hin. apply Hp. apply (proj1 (proj2 Hc)). by right. }
    rewrite E1 in E. injection E as <- <-. eexists. split; [exact G1|]. split; [by apply conserved_add|].
    intros a. by rewrite Hc1.
  - destruct (remove_ok R g B t0 t1 d target G Hspan) as [(q & t & rest & g1 & E1 & _ & Pm & G1 & Hk1)|(g1 & E1 & G1 & _ & Hk1)];
      rewrite E1 in E; injection E as <- <- <-; eexists; (split; [exact G1|]); (split; [|intros a; rewrite <- Hk; apply Hk1]).
    + by eapply conserved_remove; [apply (gw_queues _ _ _ G)|..].
    + done.
  - exists B. split; [|done]. destruct G as [W Hl Hb Hp]. split; cbn; try done. intros a Ha.
    destruct (decide (a = t)) as [->|Hne]; [rewrite lookup_insert_eq; eauto | rewrite lookup_insert_ne by done; by apply Hb].
  - destruct (process_promotions_ok R B T now turns g G Hks Hlen) as (n & g1 & E1 & G1 & Hr & _).
    rewrite E1 in E. injection E as <-. exists B. split; [done|]. split; [done|]. intros a.
    rewrite <- Hk. by apply replenished_same_tenants.
Qed.

(** ** Claims *)
Section claims.
Variable tgrqs : gmap Z (tenant_global_request_queue L).
Variable budget : gmap Z Z.
Hypothesis few : (size tgrqs <= RUNTIME_MAX_TENANT_COUNT)%nat.
Hypothesis fresh : forall t w, tgrqs !! t = Some w -> (exists uninit, w = tgrq_init uninit (env_period env t)) /\ is_Some (budget !! t).

(** C17: the global scheduler of the multi-tenant policy loses no request, hands
    none out twice, and a worker's call always returns.  In every state reached
    by registrations, additions, removals, charges of budgets and promotions,
    the requests accepted are exactly those handed out and those waiting in the
    queue of their tenant, each once.  A removal then returns, with the lock
    free: either the earliest request of a tenant, a guaranteed one with budget
    left, or a default one when the worker asks for the default class and no
    guaranteed tenant waits, with a deadline before the worker's unless only the
    request is guaranteed; or -ENOENT, because no eligible request waits, those of
    the tenant at the head of the heap have deadlines no earlier than the worker's, or
    the first guaranteed tenant is out of budget and has just been demoted. *)
Theorem mtds_global_conserves R acc out g t0 t1 d target :
  reaches tgrqs budget R acc out g -> span t0 t1 ->
  exists B, conserved acc out B
    /\ ((exists p t g', global_request_scheduler_mtds_remove_with_mt_class env t0 t1 g d target = Ret (0, Some p, g')
           /\ served (gs_queues g) B (gs_budget g) d target t p /\ lock_is_locked (global_lock g') = false
           /\ exists B', conserved acc (p :: out) B')
        \/ (exists g', global_request_scheduler_mtds_remove_with_mt_class env t0 t1 g d target = Ret (- ENOENT, None, g')
           /\ refused (gs_queues g) B (gs_budget g) d target (gs_queues g') /\ lock_is_locked (global_lock g') = false)).
Proof.
  intros Hr Hspan. destruct (reaches_inv tgrqs budget R acc out g few fresh Hr) as (B & G & Hc & _). exists B. split; [done|].
  destruct (remove_ok R g B t0 t1 d target G Hspan) as [(p & t & rest & g' & E & Hs & Pm & G' & _)|(g' & E & G' & Hf & _)].
  - left. exists p, t, g'. split; [done|]. split; [done|]. split; [apply (gw_lock _ _ _ G')|].
    eexists. by eapply conserved_remove; [apply (gw_queues _ _ _ G)|..].
  - right. exists g'. split; [done|]. split; [done|]. apply (gw_lock _ _ _ G').
Qed.

(** C18: the promotions end, and replenish.  With enough turns for the time the
    clock passes meanwhile (no tenant is visited again before its next timeout)
    the handler's loop returns; it keeps every waiting request; every tenant it
    touches is guaranteed again, has its full budget and a later timeout; the
    first timeout of the heap is then in the future. *)
Theorem mtds_global_promotions R acc out g now T turns :
  reaches tgrqs budget R acc out g -> readings_ok now T turns -> (turns_left R T g <= length turns)%nat ->
  exists B n g', global_timeout_queue_process_promotions env max_budget now turns g = Ret g'
    /\ conserved acc out B /\ gwf R g' B /\ replenished g g'
    /\ (n <= turns_left R T g)%nat /\ (R = ∅ \/ head_waits (last_reading now turns n) g').
Proof.
  intros Hr Hks Hlen. destruct (reaches_inv tgrqs budget R acc out g few fresh Hr) as (B & G & Hc & _).
  destruct (process_promotions_ok R B T now turns g G Hks Hlen) as (n & g' & E & G' & Hrep & Hn & Hh).
  exists B, n, g'. auto 10.
Qed.

(** C37: where the global scheduler fails.  The listener's addition of a new
    request panics when the queue of its tenant is full; it fails an assertion
    when the request's deadline is before those of all the waiting requests of
    the tenant, because moving the tenant in its heap percolates, which the heap
    refuses on the listener thread; otherwise it returns the request, with the
    lock free.  As long as no tenant is registered for timeouts (and nothing in
    the runtime calls [global_timeout_queue_add]) the promotions change nothing:
    a demoted tenant stays demoted, a used budget is never replenished.  With
    registered tenants, promotions that run in a signal handler while the
    interrupted worker holds the scheduler's lock spin on it forever, when the
    first timeout has expired and its tenant is demoted with requests waiting. *)
Theorem mtds_global_defects R acc out g :
  reaches tgrqs budget R acc out g ->
  (exists B, conserved acc out B /\ forall t0 t1 p, span t0 t1 -> env_tenant env p ∈ dom tgrqs -> (p ∉ acc) ->
     let room := (length (B (env_tenant env p)) < RUNTIME_TENANT_QUEUE_SIZE)%nat in
     (~ room -> global_request_scheduler_mtds_add env true t0 t1 g p = Stop Panic)
     /\ (room -> overtakes B p -> global_request_scheduler_mtds_add env true t0 t1 g p = Stop AssertFail)
     /\ (room -> ~ overtakes B p -> exists g', global_request_scheduler_mtds_add env true t0 t1 g p = Ret (p, g')
           /\ lock_is_locked (global_lock g') = false))
  /\ (R = ∅ -> forall now turns, global_timeout_queue_process_promotions env max_budget now turns g = Ret g)
  /\ (forall l now turns k t w rc, lock_is_locked l = true -> mtds_pwt (gs_queues g) !! t = Some w ->
     priority_queue_top_nolock (worker_thread_timeout_queue (gs_queues g)) = Ret (rc, Some t) ->
     pwt_timeout w <= now -> pwt_mt_class w = MT_DEFAULT -> (0 < pq_size (pwt_sandboxes w))%nat ->
     global_timeout_queue_process_promotions env max_budget now (k :: turns) (mk_mtds_scheduler (gs_queues g) l (gs_budget g))
     = Stop Deadlock).
Proof.
  intros Hr. destruct (reaches_inv tgrqs budget R acc out g few fresh Hr) as (B & G0 & Hc & Hk). split; [|split].
  - exists B. split; [done|]. intros t0 t1 p Hspan Hd Hp room. apply Hk in Hd. unfold class_of in Hd. rewrite fmap_is_Some in Hd.
    destruct (add_stops R g B t0 t1 p G0 Hd) as [Hfull Hover].
    pose proof (queue_bound R _ B (env_tenant env p) (gw_queues _ _ _ G0)) as Hlen. split; [intros Hn; apply Hfull; unfold room in Hn; lia|].
    split; [done|]. intros Hroom Ho. destruct (global_add_ok R g B t0 t1 p G0 Hspan Hd) as (g' & E & G' & _); [|done|done|].
    { intros Hin. apply Hp, (proj1 (proj2 Hc)). by right. }
    exists g'. split; [done|]. apply (gw_lock _ _ _ G').
  - intros -> now turns. unfold global_timeout_queue_process_promotions.
    destruct (holds_top _ _ _ _ (lay_timeouts _ _ _ _ _ (qw_layout _ _ _ (gw_queues _ _ _ G0)))) as [(t & _ & Ht)|[E _]];
      [by apply not_elem_of_empty in Ht|]. by rewrite E.
  - intros l now turns k t w rc Hl E Et Hle Hcl Hsz. destruct (qw_tgrq _ _ _ (gw_queues _ _ _ G0) t w E) as (_ & Hu & _).
    unfold global_timeout_queue_process_promotions. cbn [gs_queues]. rewrite Et. ostep. cbn [promotions_loop].
    assert (Ew : pwt_at (gs_queues g) t = Ret w) by (unfold pwt_at; by rewrite E). cbn [gs_queues]. rewrite Ew. ostep.
    rewrite (proj2 (Z.leb_le _ _) Hle). unfold promote_tenant_globally. cbn [gs_queues]. rewrite Ew. ostep.
    rewrite decide_True by done. unfold priority_queue_length_nolock. rewrite (plain_accessible _ Hu). ostep.
    rewrite decide_True by done. unfold global_request_scheduler_mtds_promote_lock, with_global_lock, lock_lock. cbn [global_lock].
    by rewrite Hl.
Qed.
End claims.
End spec.

(** ** A scheduler with a paid and an unpaid tenant *)

Definition gs_env : mtds_env :=
  {| env_deadline p := if (0 <=? p) && (p <? UINT64_MAX) then p else 0;
     env_tenant p := if Z.odd p then 1 else 2;
     env_period t := if t =? 1 then 10 else 0;
     env_boot := 0 |}.

Definition gs_max (_ : Z) : Z := 7.
Definition gs_tenants : gmap Z (tenant_global_request_queue bool) := {[ 1 := tgrq_init 99 10; 2 := tgrq_init 98 0 ]}.
Definition gs_budgets : gmap Z Z := {[ 1 := 7; 2 := 0 ]}.

(** The value of a computation that returns. *)
Definition value {A} (d : A) (o : outcome A) : A := match o with Ret a => a | Stop _ => d end.

Definition returns {A} (o : outcome A) : bool := match o with Ret _ => true | Stop _ => false end.

Lemma value_ret {A} (d : A) (o : outcome A) : returns o = true -> o = Ret (value d o).
Proof. by destruct o. Qed.

Lemma value_pair {A B} (d : A * B) (o : outcome (A * B)) : returns o = true -> o = Ret ((value d o).1, (value d o).2).
Proof. by destruct o as [[]|]. Qed.

(** The paid tenant is registered, each tenant gets a request, the paid one
    uses up its budget and is demoted by a removal that hands out nothing. *)
Definition gs0 : mtds_scheduler bool := global_request_scheduler_mtds_initialize gs_tenants gs_budgets.
Definition gs1 := value gs0 (global_timeout_queue_add gs_env 5 gs0 1).
Definition gs2 := (value (0, gs1) (global_request_scheduler_mtds_add gs_env true 6 7 gs1 101)).2.
Definition gs3 := (value (0, gs2) (global_request_scheduler_mtds_add gs_env true 6 7 gs2 100)).2.
Definition gs4 := mk_mtds_scheduler (gs_queues gs3) (global_lock gs3) (<[1 := 0]> (gs_budget gs3)).
Definition gs5_removal := value (0, None, gs4) (global_request_scheduler_mtds_remove_with_mt_class gs_env 8 9 gs4 UINT64_MAX MT_DEFAULT).
Definition gs5 := gs5_removal.2.

Lemma gs_deadlines p : 0 <= env_deadline gs_env p < UINT64_MAX.
Proof.
  cbn. destruct (Z.leb_spec 0 p); cbn; [|unfold UINT64_MAX; lia]. destruct (Z.ltb_spec p UINT64_MAX); unfold UINT64_MAX in *; lia.
Qed.

Lemma gs_few : (size gs_tenants <= RUNTIME_MAX_TENANT_COUNT)%nat.
Proof. apply Nat.leb_le. by vm_compute. Qed.

Lemma gs_fresh t w : gs_tenants !! t = Some w -> (exists uninit, w = tgrq_init uninit (env_period gs_env t)) /\ is_Some (gs_budgets !! t).
Proof.
  unfold gs_tenants. rewrite lookup_insert_Some, lookup_singleton_Some.
  intros [[<- <-]|[_ [<- <-]]]; (split; [by eexists|]); by apply (bool_decide_unpack _); vm_compute.
Qed.

Lemma gs_clock now t : 0 <= now <= 100 -> clock_ok gs_env now t.
Proof. intros Hn _. cbn. destruct (t =? 1); unfold UINT64_MAX; lia. Qed.

Abbreviation gs_reaches := (reaches gs_env gs_max gs_tenants gs_budgets).

Lemma gs_span t0 : 0 < t0 <= 100 -> span t0 (t0 + 1).
Proof. unfold span, UINT64_MAX. lia. Qed.

Lemma gs4_reached : gs_reaches {[1]} [100; 101] [] gs4.
Proof.
  assert (R1 : gs_reaches ({[1]} ∪ ∅) [] [] gs1).
  { apply (r_register _ _ _ _ _ _ _ gs0 5 1); [apply r_init | by apply (bool_decide_unpack _); vm_compute
      | apply elem_of_dom; by eexists | done | apply gs_clock; lia | by apply value_ret; vm_compute]. }
  rewrite (right_id_L ∅ (∪)) in R1.
  assert (R2 : gs_reaches {[1]} [101] [] gs2).
  { eapply (r_add _ _ _ _ _ _ _ gs1 6 7 101); [done | by apply (gs_span 6) | apply elem_of_dom; by eexists | apply not_elem_of_nil|].
    apply value_pair. by vm_compute. }
  apply r_charge. eapply (r_add _ _ _ _ _ _ _ gs2 6 7 100);
    [done | by apply (gs_span 6) | apply elem_of_dom; by eexists | by apply (bool_decide_unpack _); vm_compute|].
  apply value_pair. by vm_compute.
Qed.

Lemma refusal_reached R acc out g t0 t1 d target v :
  gs_reaches R acc out g -> span t0 t1 ->
  returns (global_request_scheduler_mtds_remove_with_mt_class gs_env t0 t1 g d target) = true ->
  (value v (global_request_scheduler_mtds_remove_with_mt_class gs_env t0 t1 g d target)).1.2 = None ->
  gs_reaches R acc out (value v (global_request_scheduler_mtds_remove_with_mt_class gs_env t0 t1 g d target)).2.
Proof.
  intros Hr Hs Hret. pose proof (r_remove gs_env gs_max gs_tenants gs_budgets R acc out g t0 t1 d target) as Hrem. revert Hret Hrem.
  destruct (global_request_scheduler_mtds_remove_with_mt_class gs_env t0 t1 g d target) as [[[rc p] g']|]; [|done]. cbn.
  intros _ Hrem ->. by apply (Hrem rc None g').
Qed.

Lemma gs5_reached : gs_reaches {[1]} [100; 101] [] gs5.
Proof. unfold gs5, gs5_removal. apply refusal_reached; [apply gs4_reached | by apply (gs_span 8) | by vm_compute..]. Qed.

(** The demoted state: nothing was handed out, and the next removal hands out
    the request of the default tenant with the earlier one. *)
Lemma mtds_global_conserves_witness :
  (class_of (gs_queues gs5) 1, gs5_removal.1) = (Some MT_DEFAULT, (- ENOENT, None))
  /\ exists B, conserved gs_env [100; 101] [] B
    /\ ((exists p t g', global_request_scheduler_mtds_remove_with_mt_class gs_env 10 11 gs5 UINT64_MAX MT_DEFAULT = Ret (0, Some p, g')
           /\ served gs_env (gs_queues gs5) B (gs_budget gs5) UINT64_MAX MT_DEFAULT t p /\ lock_is_locked (global_lock g') = false
           /\ exists B', conserved gs_env [100; 101] [p] B')
        \/ (exists g', global_request_scheduler_mtds_remove_with_mt_class gs_env 10 11 gs5 UINT64_MAX MT_DEFAULT = Ret (- ENOENT, None, g')
           /\ refused gs_env (gs_queues gs5) B (gs_budget gs5) UINT64_MAX MT_DEFAULT (gs_queues g')
           /\ lock_is_locked (global_lock g') = false)).
Proof.
  split; [by vm_compute|].
  apply (mtds_global_conserves gs_env gs_max gs_deadlines gs_tenants gs_budgets gs_few gs_fresh {[1]} [100; 101] [] gs5);
    [apply gs5_reached | by apply (gs_span 10)].
Defined.

Definition gs_turns : list turn := replicate 4 (mk_turn 12 13 13 13).

(** The period of the paid tenant is over: it is guaranteed again. *)
Lemma mtds_global_promotions_witness :
  exists B n g', global_timeout_queue_process_promotions gs_env gs_max 12 gs_turns gs5 = Ret g'
    /\ conserved gs_env [100; 101] [] B /\ gwf gs_env {[1]} g' B /\ replenished gs_max gs5 g'
    /\ (n <= turns_left {[1%Z]} 13 gs5)%nat /\ (({[1]} : gset Z) = ∅ \/ head_waits (last_reading 12 gs_turns n) g').
Proof.
  apply (mtds_global_promotions gs_env gs_max gs_deadlines gs_tenants gs_budgets gs_few gs_fresh {[1]} [100; 101] [] gs5).
  - apply gs5_reached.
  - assert (Hk : turn_ok gs_env (mk_turn 12 13 13 13)) by (split; [by apply (gs_span 12) | intros t; apply gs_clock; cbn; lia]).
    cbn. auto 20 with lia.
  - apply Nat.leb_le. by vm_compute.
Defined.

Lemma mtds_global_defects_witness :
  global_request_scheduler_mtds_add gs_env true 10 11 gs5 51 = Stop AssertFail
  /\ global_timeout_queue_process_promotions gs_env gs_max 12 gs_turns
       (mk_mtds_scheduler (gs_queues gs5) (mk_lock 0 0 true) (gs_budget gs5)) = Stop Deadlock.
Proof.
  destruct (mtds_global_defects gs_env gs_max gs_deadlines gs_tenants gs_budgets gs_few gs_fresh {[1]} [100; 101] [] gs5 gs5_reached)
    as (_ & _ & Hd).
  split; [by vm_compute|].
  destruct (mtds_pwt (gs_queues gs5) !! 1) as [w|] eqn:E; [|exfalso; revert E; by vm_compute].
  assert (Hw : option_map (fun w => (pwt_timeout w <=? 12) && bool_decide (pwt_mt_class w = MT_DEFAULT) && (0 <? pq_size (pwt_sandboxes w))%nat)
            (mtds_pwt (gs_queues gs5) !! 1) = Some true) by (by vm_compute).
  rewrite E in Hw. cbn in Hw. injection Hw as Hw. apply andb_prop in Hw as [[H1 H2]%andb_prop H3].
  apply (Hd (mk_lock 0 0 true) 12 _ _ 1 w 0); [done | done | by vm_compute | by apply Z.leb_le | by apply bool_decide_eq_true in H2 | by apply Nat.ltb_lt].
Defined.
