(* ===== verification/Sandbox.v ===== *)
(** * Sandbox: the life of a sandbox on a worker

    [runtime/include/sandbox_types.h], [sandbox_state.h], the transitions
    [sandbox_set_as_*.h], [sandbox_functions.h], [current_sandbox.h] and
    [runtime/src/sandbox.c].  The [world] is what the code of one worker can
    reach: the sandboxes in memory (by address), its runqueue, the modules,
    routes and tenants, the admissions counter, and the worker's own
    variables.  Each C function is a function from worlds to outcomes; [now] is
    the cycle counter it reads.

    The runqueue is any instance of the class [Runqueue]: nothing here depends
    on the scheduling policy.  An HTTP session is an address; answering one
    is recorded in [responses].  The optional logging, the state totals and the
    state history are compiled out by default and not modelled, nor are the
    transition hooks, which default to functions that return at once. *)

From Stdlib Require Import ZArith Lia.
From S2P Require Import Prelude Lock Bytes PerfWindow PerfWindowSpec Admissions WasmMemory Globals Module Runqueue.
Local Open Scope Z_scope.

Inductive sandbox_state_t :=
| SANDBOX_UNINITIALIZED | SANDBOX_ALLOCATED | SANDBOX_INITIALIZED | SANDBOX_RUNNABLE
| SANDBOX_PREEMPTED | SANDBOX_RUNNING_SYS | SANDBOX_RUNNING_USER | SANDBOX_INTERRUPTED
| SANDBOX_ASLEEP | SANDBOX_RETURNED | SANDBOX_COMPLETE | SANDBOX_ERROR.

#[export] Instance sandbox_state_eq_dec : EqDecision sandbox_state_t.
Proof. solve_decision. Defined.

Definition SANDBOX_STATE_COUNT : nat := 12.

(** The value of the enumerator. *)
Definition state_index (st : sandbox_state_t) : nat :=
  match st with
  | SANDBOX_UNINITIALIZED => 0 | SANDBOX_ALLOCATED => 1 | SANDBOX_INITIALIZED => 2
  | SANDBOX_RUNNABLE => 3 | SANDBOX_PREEMPTED => 4 | SANDBOX_RUNNING_SYS => 5
  | SANDBOX_RUNNING_USER => 6 | SANDBOX_INTERRUPTED => 7 | SANDBOX_ASLEEP => 8
  | SANDBOX_RETURNED => 9 | SANDBOX_COMPLETE => 10 | SANDBOX_ERROR => 11
  end.

(** [ctxt.variant]: how the registers of a context that is not running are kept. *)
Inductive context_variant := VARIANT_UNUSED | VARIANT_FAST | VARIANT_SLOW | VARIANT_RUNNING.

#[export] Instance context_variant_eq_dec : EqDecision context_variant.
Proof. solve_decision. Defined.

Record sandbox := mk_sandbox {
  sb_id : Z;
  sb_state : sandbox_state_t;
  sb_route : Z;
  sb_tenant : Z;
  sb_module : Z;
  sb_http : option Z;   (* None: NULL *)
  sb_variant : context_variant;   (* ctxt.variant *)
  sb_stack : option wasm_stack;
  sb_memory : option wasm_memory;
  sb_globals : vec wasm_global;
  last_state_change : Z;
  allocation : Z;
  dispatched : Z;
  completion : Z;
  duration_of_state : list Z;   (* indexed by state *)
  last_state_duration : Z;
  absolute_deadline : Z;
  admissions_estimate : Z;
  total_time : Z;
}.

Definition set_sb_state (s : sandbox) (x : sandbox_state_t) : sandbox :=
  mk_sandbox (sb_id s) x (sb_route s) (sb_tenant s) (sb_module s) (sb_http s) (sb_variant s)
    (sb_stack s) (sb_memory s) (sb_globals s) (last_state_change s) (allocation s) (dispatched s)
    (completion s) (duration_of_state s) (last_state_duration s) (absolute_deadline s)
    (admissions_estimate s) (total_time s).
Definition set_sb_http (s : sandbox) (x : option Z) : sandbox :=
  mk_sandbox (sb_id s) (sb_state s) (sb_route s) (sb_tenant s) (sb_module s) x (sb_variant s)
    (sb_stack s) (sb_memory s) (sb_globals s) (last_state_change s) (allocation s) (dispatched s)
    (completion s) (duration_of_state s) (last_state_duration s) (absolute_deadline s)
    (admissions_estimate s) (total_time s).
Definition set_sb_variant (s : sandbox) (x : context_variant) : sandbox :=
  mk_sandbox (sb_id s) (sb_state s) (sb_route s) (sb_tenant s) (sb_module s) (sb_http s) x
    (sb_stack s) (sb_memory s) (sb_globals s) (last_state_change s) (allocation s) (dispatched s)
    (completion s) (duration_of_state s) (last_state_duration s) (absolute_deadline s)
    (admissions_estimate s) (total_time s).
Definition set_sb_stack (s : sandbox) (x : option wasm_stack) : sandbox :=
  mk_sandbox (sb_id s) (sb_state s) (sb_route s) (sb_tenant s) (sb_module s) (sb_http s)
    (sb_variant s) x (sb_memory s) (sb_globals s) (last_state_change s) (allocation s)
    (dispatched s) (completion s) (duration_of_state s) (last_state_duration s)
    (absolute_deadline s) (admissions_estimate s) (total_time s).
Definition set_sb_memory (s : sandbox) (x : option wasm_memory) : sandbox :=
  mk_sandbox (sb_id s) (sb_state s) (sb_route s) (sb_tenant s) (sb_module s) (sb_http s)
    (sb_variant s) (sb_stack s) x (sb_globals s) (last_state_change s) (allocation s)
    (dispatched s) (completion s) (duration_of_state s) (last_state_duration s)
    (absolute_deadline s) (admissions_estimate s) (total_time s).
Definition set_sb_globals (s : sandbox) (x : vec wasm_global) : sandbox :=
  mk_sandbox (sb_id s) (sb_state s) (sb_route s) (sb_tenant s) (sb_module s) (sb_http s)
    (sb_variant s) (sb_stack s) (sb_memory s) x (last_state_change s) (allocation s)
    (dispatched s) (completion s) (duration_of_state s) (last_state_duration s)
    (absolute_deadline s) (admissions_estimate s) (total_time s).
Definition set_last_state_change (s : sandbox) (x : Z) : sandbox :=
  mk_sandbox (sb_id s) (sb_state s) (sb_route s) (sb_tenant s) (sb_module s) (sb_http s)
    (sb_variant s) (sb_stack s) (sb_memory s) (sb_globals s) x (allocation s) (dispatched s)
    (completion s) (duration_of_state s) (last_state_duration s) (absolute_deadline s)
    (admissions_estimate s) (total_time s).
Definition set_dispatched (s : sandbox) (x : Z) : sandbox :=
  mk_sandbox (sb_id s) (sb_state s) (sb_route s) (sb_tenant s) (sb_module s) (sb_http s)
    (sb_variant s) (sb_stack s) (sb_memory s) (sb_globals s) (last_state_change s) (allocation s)
    x (completion s) (duration_of_state s) (last_state_duration s) (absolute_deadline s)
    (admissions_estimate s) (total_time s).
Definition set_completion (s : sandbox) (x : Z) : sandbox :=
  mk_sandbox (sb_id s) (sb_state s) (sb_route s) (sb_tenant s) (sb_module s) (sb_http s)
    (sb_variant s) (sb_stack s) (sb_memory s) (sb_globals s) (last_state_change s) (allocation s)
    (dispatched s) x (duration_of_state s) (last_state_duration s) (absolute_deadline s)
    (admissions_estimate s) (total_time s).
Definition set_duration_of_state (s : sandbox) (x : list Z) : sandbox :=
  mk_sandbox (sb_id s) (sb_state s) (sb_route s) (sb_tenant s) (sb_module s) (sb_http s)
    (sb_variant s) (sb_stack s) (sb_memory s) (sb_globals s) (last_state_change s) (allocation s)
    (dispatched s) (completion s) x (last_state_duration s) (absolute_deadline s)
    (admissions_estimate s) (total_time s).
Definition set_last_state_duration (s : sandbox) (x : Z) : sandbox :=
  mk_sandbox (sb_id s) (sb_state s) (sb_route s) (sb_tenant s) (sb_module s) (sb_http s)
    (sb_variant s) (sb_stack s) (sb_memory s) (sb_globals s) (last_state_change s) (allocation s)
    (dispatched s) (completion s) (duration_of_state s) x (absolute_deadline s)
    (admissions_estimate s) (total_time s).
Definition set_total_time (s : sandbox) (x : Z) : sandbox :=
  mk_sandbox (sb_id s) (sb_state s) (sb_route s) (sb_tenant s) (sb_module s) (sb_http s)
    (sb_variant s) (sb_stack s) (sb_memory s) (sb_globals s) (last_state_change s) (allocation s)
    (dispatched s) (completion s) (duration_of_state s) (last_state_duration s)
    (absolute_deadline s) (admissions_estimate s) x.

(** The parts of [struct route] and [struct tenant] a worker uses. *)
Record route (L : Type) := mk_route {
  relative_deadline : Z;
  rt_admissions : admissions_info L;
}.
Arguments mk_route {L} _ _.
Arguments relative_deadline {L} _.
Arguments rt_admissions {L} _.

Record tenant := mk_tenant {
  replenishment_period : Z;
  max_budget : Z;
  remaining_budget : Z;
}.

Definition tenant_is_paid (t : tenant) : bool := 0 <? replenishment_period t.

Record world (L : Type) (RQ : Type) := mk_world {
  sandboxes : gmap Z sandbox;   (* by address *)
  runqueue : RQ;   (* of this worker *)
  modules : gmap Z (module L);
  routes : gmap Z (route L);
  tenants : gmap Z tenant;
  admitted : Z;   (* admissions_control_admitted *)
  responses : list (Z * Z);   (* sessions answered, with the status *)
  current : option Z;   (* worker_thread_current_sandbox *)
  worker_deadline : Z;   (* runtime_worker_threads_deadline[worker_thread_idx] *)
  wasmg_0 : Z;   (* of sledge_abi__current_wasm_module_instance *)
  deferred_sigalrm : Z;
  raised_sigalrm : bool;   (* raise(SIGALRM) pending *)
  sandbox_total : Z;
  cleanup_queue : list Z;
  base_variant : context_variant;   (* worker_thread_base_context.variant *)
}.
Arguments mk_world {L} {RQ} _ _ _ _ _ _ _ _ _ _ _ _ _ _ _.
Arguments sandboxes {L} {RQ} _.
Arguments runqueue {L} {RQ} _.
Arguments modules {L} {RQ} _.
Arguments routes {L} {RQ} _.
Arguments tenants {L} {RQ} _.
Arguments admitted {L} {RQ} _.
Arguments responses {L} {RQ} _.
Arguments current {L} {RQ} _.
Arguments worker_deadline {L} {RQ} _.
Arguments wasmg_0 {L} {RQ} _.
Arguments deferred_sigalrm {L} {RQ} _.
Arguments raised_sigalrm {L} {RQ} _.
Arguments sandbox_total {L} {RQ} _.
Arguments cleanup_queue {L} {RQ} _.
Arguments base_variant {L} {RQ} _.

Section sandbox.
Context {L : Type} `{SpinLock L} {RQ : Type} `{Runqueue RQ}.
Variable ADMISSIONS_CONTROL : bool.
Variable worker_thread_idx : nat.
Abbreviation World := (world L RQ).
Implicit Types w : World.

Definition set_sandboxes (w : World) (x : gmap Z sandbox) : World :=
  mk_world x (runqueue w) (modules w) (routes w) (tenants w) (admitted w) (responses w)
    (current w) (worker_deadline w) (wasmg_0 w) (deferred_sigalrm w) (raised_sigalrm w)
    (sandbox_total w) (cleanup_queue w) (base_variant w).
Definition set_runqueue (w : World) (x : RQ) : World :=
  mk_world (sandboxes w) x (modules w) (routes w) (tenants w) (admitted w) (responses w)
    (current w) (worker_deadline w) (wasmg_0 w) (deferred_sigalrm w) (raised_sigalrm w)
    (sandbox_total w) (cleanup_queue w) (base_variant w).
Definition set_modules (w : World) (x : gmap Z (module L)) : World :=
  mk_world (sandboxes w) (runqueue w) x (routes w) (tenants w) (admitted w) (responses w)
    (current w) (worker_deadline w) (wasmg_0 w) (deferred_sigalrm w) (raised_sigalrm w)
    (sandbox_total w) (cleanup_queue w) (base_variant w).
Definition set_routes (w : World) (x : gmap Z (route L)) : World :=
  mk_world (sandboxes w) (runqueue w) (modules w) x (tenants w) (admitted w) (responses w)
    (current w) (worker_deadline w) (wasmg_0 w) (deferred_sigalrm w) (raised_sigalrm w)
    (sandbox_total w) (cleanup_queue w) (base_variant w).
Definition set_tenants (w : World) (x : gmap Z tenant) : World :=
  mk_world (sandboxes w) (runqueue w) (modules w) (routes w) x (admitted w) (responses w)
    (current w) (worker_deadline w) (wasmg_0 w) (deferred_sigalrm w) (raised_sigalrm w)
    (sandbox_total w) (cleanup_queue w) (base_variant w).
Definition set_admitted (w : World) (x : Z) : World :=
  mk_world (sandboxes w) (runqueue w) (modules w) (routes w) (tenants w) x (responses w)
    (current w) (worker_deadline w) (wasmg_0 w) (deferred_sigalrm w) (raised_sigalrm w)
    (sandbox_total w) (cleanup_queue w) (base_variant w).
Definition set_responses (w : World) (x : list (Z * Z)) : World :=
  mk_world (sandboxes w) (runqueue w) (modules w) (routes w) (tenants w) (admitted w) x
    (current w) (worker_deadline w) (wasmg_0 w) (deferred_sigalrm w) (raised_sigalrm w)
    (sandbox_total w) (cleanup_queue w) (base_variant w).
Definition set_current (w : World) (x : option Z) : World :=
  mk_world (sandboxes w) (runqueue w) (modules w) (routes w) (tenants w) (admitted w)
    (responses w) x (worker_deadline w) (wasmg_0 w) (deferred_sigalrm w) (raised_sigalrm w)
    (sandbox_total w) (cleanup_queue w) (base_variant w).
Definition set_worker_deadline (w : World) (x : Z) : World :=
  mk_world (sandboxes w) (runqueue w) (modules w) (routes w) (tenants w) (admitted w)
    (responses w) (current w) x (wasmg_0 w) (deferred_sigalrm w) (raised_sigalrm w)
    (sandbox_total w) (cleanup_queue w) (base_variant w).
Definition set_wasmg_0 (w : World) (x : Z) : World :=
  mk_world (sandboxes w) (runqueue w) (modules w) (routes w) (tenants w) (admitted w)
    (responses w) (current w) (worker_deadline w) x (deferred_sigalrm w) (raised_sigalrm w)
    (sandbox_total w) (cleanup_queue w) (base_variant w).
Definition set_deferred_sigalrm (w : World) (x : Z) : World :=
  mk_world (sandboxes w) (runqueue w) (modules w) (routes w) (tenants w) (admitted w)
    (responses w) (current w) (worker_deadline w) (wasmg_0 w) x (raised_sigalrm w)
    (sandbox_total w) (cleanup_queue w) (base_variant w).
Definition set_raised_sigalrm (w : World) (x : bool) : World :=
  mk_world (sandboxes w) (runqueue w) (modules w) (routes w) (tenants w) (admitted w)
    (responses w) (current w) (worker_deadline w) (wasmg_0 w) (deferred_sigalrm w) x
    (sandbox_total w) (cleanup_queue w) (base_variant w).
Definition set_sandbox_total (w : World) (x : Z) : World :=
  mk_world (sandboxes w) (runqueue w) (modules w) (routes w) (tenants w) (admitted w)
    (responses w) (current w) (worker_deadline w) (wasmg_0 w) (deferred_sigalrm w)
    (raised_sigalrm w) x (cleanup_queue w) (base_variant w).
Definition set_cleanup_queue (w : World) (x : list Z) : World :=
  mk_world (sandboxes w) (runqueue w) (modules w) (routes w) (tenants w) (admitted w)
    (responses w) (current w) (worker_deadline w) (wasmg_0 w) (deferred_sigalrm w)
    (raised_sigalrm w) (sandbox_total w) x (base_variant w).
Definition set_base_variant (w : World) (x : context_variant) : World :=
  mk_world (sandboxes w) (runqueue w) (modules w) (routes w) (tenants w) (admitted w)
    (responses w) (current w) (worker_deadline w) (wasmg_0 w) (deferred_sigalrm w)
    (raised_sigalrm w) (sandbox_total w) (cleanup_queue w) x.

(** [sandbox->field] *)
Definition sb_get w (p : Z) : outcome sandbox := deref (sandboxes w !! p).
Definition sb_put w (p : Z) (s : sandbox) : World := set_sandboxes w (<[p := s]> (sandboxes w)).

Definition module_at w (k : Z) : outcome (module L) := deref (modules w !! k).
Definition route_at w (k : Z) : outcome (route L) := deref (routes w !! k).
Definition tenant_at w (k : Z) : outcome tenant := deref (tenants w !! k).

(** [sandbox_get_priority], reading through the store. *)
Definition sandbox_get_priority w (p : Z) : Z :=
  match sandboxes w !! p with Some s => absolute_deadline s | None => 0 end.

(** [sandbox->state = st] *)
Definition write_state w (p : Z) (st : sandbox_state_t) : outcome World :=
  s ← sb_get w p; Ret (sb_put w p (set_sb_state s st)).

(** The "State Change Bookkeeping" every transition repeats. *)
Definition account (s : sandbox) (last_state : sandbox_state_t) (now : Z) : outcome sandbox :=
  assert (last_state_change s <? now) ;;
  let d := u64 (now - last_state_change s) in
  old ← deref (duration_of_state s !! state_index last_state);
  Ret (set_last_state_change
         (set_duration_of_state (set_last_state_duration s d)
            (<[state_index last_state := u64 (old + d)]> (duration_of_state s))) now).

Definition bookkeeping w (p : Z) (last_state : sandbox_state_t) (now : Z) : outcome World :=
  s ← sb_get w p; s ← account s last_state now; Ret (sb_put w p s).

(** ** sandbox_functions.h *)

Definition sandbox_free_linear_memory w (p : Z) : outcome World :=
  s ← sb_get w p;
  match sb_memory s with
  | None => Stop AssertFail
  | Some memory =>
    m ← module_at w (sb_module s);
    m ← module_free_linear_memory m worker_thread_idx memory;
    Ret (sb_put (set_modules w (<[sb_module s := m]> (modules w))) p (set_sb_memory s None))
  end.

(** Charges the time of the last state to the budget of a paid tenant. *)
Definition sandbox_process_scheduler_updates w (p : Z) : outcome World :=
  s ← sb_get w p;
  t ← tenant_at w (sb_tenant s);
  if tenant_is_paid t then
    Ret (set_tenants w (<[sb_tenant s := mk_tenant (replenishment_period t) (max_budget t)
           (swrap 64 (remaining_budget t - last_state_duration s))]> (tenants w)))
  else Ret w.

(** ** current_sandbox.h *)

Definition current_sandbox_get w : option Z := current w.

Definition current_sandbox_set w (p : option Z) : outcome World :=
  match p with
  | None => Ret (set_worker_deadline (set_current (set_wasmg_0 w 0) None) UINT64_MAX)
  | Some p =>
    s ← sb_get w p;
    deref (sb_memory s) ;;
    module_at w (sb_module s) ;;
    g ← wasm_globals_update_if_used (sb_globals s) 0 (wasmg_0 w);
    Ret (set_worker_deadline (set_current (set_wasmg_0 w g) (Some p)) (absolute_deadline s))
  end.

(** [sandbox == current_sandbox_get()] and the deadline assertion. *)
Definition assert_current w (p : Z) : outcome unit :=
  assert (bool_decide (current w = Some p)) ;;
  s ← sb_get w p;
  assert (worker_deadline w =? absolute_deadline s).

(** ** The transitions *)

(** The state itself is left at SANDBOX_UNINITIALIZED. *)
Definition sandbox_set_as_allocated w (p : Z) (now : Z) : outcome World :=
  s ← sb_get w p;
  assert (bool_decide (sb_state s = SANDBOX_UNINITIALIZED)) ;;
  assert (last_state_change s <? now) ;;
  Ret (sb_put w p (mk_sandbox (sb_id s) (sb_state s) (sb_route s) (sb_tenant s) (sb_module s)
         (sb_http s) (sb_variant s) (sb_stack s) (sb_memory s) (sb_globals s)
         now now (dispatched s) (completion s) (duration_of_state s) (last_state_duration s)
         (absolute_deadline s) (admissions_estimate s) (total_time s))).

Definition sandbox_set_as_initialized w (p : Z) (last_state : sandbox_state_t) (now : Z) : outcome World :=
  w ← write_state w p SANDBOX_INITIALIZED;
  match last_state with
  | SANDBOX_ALLOCATED => bookkeeping w p last_state now
  | _ => Stop Panic
  end.

Definition runqueue_add w (p : Z) : outcome World :=
  q ← local_runqueue_add (sandbox_get_priority w) (runqueue w) p; Ret (set_runqueue w q).

Definition runqueue_delete w (p : Z) : outcome World :=
  q ← local_runqueue_delete (sandbox_get_priority w) (runqueue w) p; Ret (set_runqueue w q).

Definition sandbox_set_as_runnable w (p : Z) (last_state : sandbox_state_t) (now : Z) : outcome World :=
  w ← write_state w p SANDBOX_RUNNABLE;
  w ← match last_state with
      | SANDBOX_INITIALIZED =>
        s ← sb_get w p;
        runqueue_add (sb_put w p (set_dispatched s now)) p
      | SANDBOX_ASLEEP => runqueue_add w p
      | _ => Stop Panic
      end;
  bookkeeping w p last_state now.

Definition sandbox_wakeup w (p : Z) (now : Z) : outcome World :=
  s ← sb_get w p;
  assert (bool_decide (sb_state s = SANDBOX_ASLEEP)) ;;
  sandbox_set_as_runnable w p SANDBOX_ASLEEP now.

Definition sandbox_set_as_preempted w (p : Z) (last_state : sandbox_state_t) (now : Z) : outcome World :=
  w ← write_state w p SANDBOX_PREEMPTED;
  match last_state with
  | SANDBOX_INTERRUPTED => bookkeeping w p last_state now
  | _ => Stop Panic
  end.

Definition sandbox_preempt w (p : Z) (now : Z) : outcome World :=
  s ← sb_get w p;
  assert (bool_decide (sb_state s = SANDBOX_INTERRUPTED)) ;;
  sandbox_set_as_preempted w p SANDBOX_INTERRUPTED now.

Definition sandbox_set_as_running_sys w (p : Z) (last_state : sandbox_state_t) (now : Z) : outcome World :=
  w ← write_state w p SANDBOX_RUNNING_SYS;
  match last_state with
  | SANDBOX_RUNNING_USER => assert_current w p ;; bookkeeping w p last_state now
  | SANDBOX_RUNNABLE => bookkeeping w p last_state now
  | _ => Stop Panic
  end.

Definition sandbox_syscall w (p : Z) (now : Z) : outcome World :=
  s ← sb_get w p;
  assert (bool_decide (sb_state s = SANDBOX_RUNNING_USER)) ;;
  w ← sandbox_set_as_running_sys w p SANDBOX_RUNNING_USER now;
  sandbox_process_scheduler_updates w p.

(** Deferred timer signals are raised again once the sandbox is preemptable. *)
Definition software_interrupt_deferred_sigalrm_clear w : World := set_deferred_sigalrm w 0.

Definition software_interrupt_deferred_sigalrm_replay w : World :=
  if 0 <? deferred_sigalrm w
  then set_raised_sigalrm (software_interrupt_deferred_sigalrm_clear w) true
  else w.

Definition sandbox_set_as_running_user w (p : Z) (last_state : sandbox_state_t) (now : Z) : outcome World :=
  match last_state with
  | SANDBOX_RUNNING_SYS => assert_current w p
  | SANDBOX_PREEMPTED => Ret tt
  | _ => Stop Panic
  end ;;
  w ← bookkeeping w p last_state now;
  w ← (if decide (last_state = SANDBOX_RUNNING_SYS)
       then sandbox_process_scheduler_updates w p else Ret w);
  w ← write_state w p SANDBOX_RUNNING_USER;
  Ret (software_interrupt_deferred_sigalrm_replay w).

Definition sandbox_return w (p : Z) (now : Z) : outcome World :=
  s ← sb_get w p;
  assert (bool_decide (sb_state s = SANDBOX_RUNNING_SYS)) ;;
  sandbox_set_as_running_user w p SANDBOX_RUNNING_SYS now.

Definition sandbox_set_as_interrupted w (p : Z) (last_state : sandbox_state_t) (now : Z) : outcome World :=
  w ← write_state w p SANDBOX_INTERRUPTED;
  bookkeeping w p last_state now.

Definition sandbox_interrupt w (p : Z) (now : Z) : outcome World :=
  s ← sb_get w p;
  w ← sandbox_set_as_interrupted w p (sb_state s) now;
  sandbox_process_scheduler_updates w p.

(** No check of the clock here, and the last duration is not recorded. *)
Definition sandbox_interrupt_return w (p : Z) (interrupted_state : sandbox_state_t) (now : Z)
  : outcome World :=
  assert (negb (bool_decide (interrupted_state = SANDBOX_INTERRUPTED))) ;;
  s ← sb_get w p;
  old ← deref (duration_of_state s !! state_index SANDBOX_INTERRUPTED);
  let s := set_last_state_change (set_duration_of_state s
             (<[state_index SANDBOX_INTERRUPTED := u64 (old + (now - last_state_change s))]>
                (duration_of_state s))) now in
  Ret (sb_put w p (set_sb_state s interrupted_state)).

Definition sandbox_set_as_asleep w (p : Z) (last_state : sandbox_state_t) (now : Z) : outcome World :=
  w ← write_state w p SANDBOX_ASLEEP;
  w ← match last_state with
      | SANDBOX_RUNNING_SYS => runqueue_delete w p
      | _ => Stop Panic
      end;
  bookkeeping w p last_state now.

Definition sandbox_sleep w (p : Z) (now : Z) : outcome World :=
  s ← sb_get w p;
  assert (bool_decide (sb_state s = SANDBOX_RUNNING_SYS)) ;;
  sandbox_set_as_asleep w p SANDBOX_RUNNING_SYS now.

(** [http_session_set_response_header(http, status)], the session's state
    change, [http_session_send_response] and [sandbox->http = NULL]. *)
Definition respond w (p : Z) (status : Z) : outcome World :=
  s ← sb_get w p;
  match sb_http s with
  | None => Stop AssertFail
  | Some session =>
    Ret (sb_put (set_responses w (responses w ++ [(session, status)])) p (set_sb_http s None))
  end.

Definition sandbox_set_as_returned w (p : Z) (last_state : sandbox_state_t) (now : Z) : outcome World :=
  w ← write_state w p SANDBOX_RETURNED;
  w ← match last_state with
      | SANDBOX_RUNNING_SYS => w ← runqueue_delete w p; sandbox_free_linear_memory w p
      | _ => Stop Panic
      end;
  w ← bookkeeping w p last_state now;
  w ← respond w p 200;
  sandbox_process_scheduler_updates w p.

(** [lock_time] and [unlock_time]: the cycle counter in [admissions_info_update]. *)
Definition sandbox_set_as_complete w (p : Z) (last_state : sandbox_state_t)
  (now lock_time unlock_time : Z) : outcome World :=
  w ← write_state w p SANDBOX_COMPLETE;
  w ← match last_state with
      | SANDBOX_RETURNED => s ← sb_get w p; Ret (sb_put w p (set_completion s now))
      | _ => Stop Panic
      end;
  w ← bookkeeping w p last_state now;
  s ← sb_get w p;
  user ← deref (duration_of_state s !! state_index SANDBOX_RUNNING_USER);
  sys ← deref (duration_of_state s !! state_index SANDBOX_RUNNING_SYS);
  r ← route_at w (sb_route s);
  info ← admissions_info_update ADMISSIONS_CONTROL (rt_admissions r) (u64 (user + sys))
           lock_time unlock_time;
  let w := set_routes w (<[sb_route s := mk_route (relative_deadline r) info]> (routes w)) in
  a ← admissions_control_subtract ADMISSIONS_CONTROL (admitted w) (admissions_estimate s);
  Ret (set_admitted w a).

Definition sandbox_exit_success w (p : Z) (now lock_time unlock_time : Z) : outcome World :=
  s ← sb_get w p;
  assert (bool_decide (sb_state s = SANDBOX_RETURNED)) ;;
  sandbox_set_as_complete w p SANDBOX_RETURNED now lock_time unlock_time.

Definition sandbox_set_as_error w (p : Z) (last_state : sandbox_state_t) (now : Z) : outcome World :=
  w ← write_state w p SANDBOX_ERROR;
  w ← match last_state with
      | SANDBOX_ALLOCATED => Ret w
      | SANDBOX_RUNNING_SYS => w ← runqueue_delete w p; sandbox_free_linear_memory w p
      | _ => Stop Panic
      end;
  w ← bookkeeping w p last_state now;
  s ← sb_get w p;
  a ← admissions_control_subtract ADMISSIONS_CONTROL (admitted w) (admissions_estimate s);
  respond (set_admitted w a) p 500.

Definition sandbox_exit_error w (p : Z) (now : Z) : outcome World :=
  s ← sb_get w p;
  assert (bool_decide (sb_state s = SANDBOX_RUNNING_SYS)) ;;
  w ← sandbox_set_as_error w p SANDBOX_RUNNING_SYS now;
  sandbox_process_scheduler_updates w p.

(** ** Allocation ([sandbox.c]) *)

Definition zero_sandbox : sandbox :=
  mk_sandbox 0 SANDBOX_UNINITIALIZED 0 0 0 None VARIANT_UNUSED None None (mk_vec 0 0 None)
    0 0 0 0 (replicate SANDBOX_STATE_COUNT 0) 0 0 0 0.

Definition sandbox_init w (p : Z) (module session route tenant estimate : Z) (now : Z) : outcome World :=
  s ← sb_get w p;
  let id := u64 (u64 (sandbox_total w) + 1) in
  let w := set_sandbox_total w id in
  m ← module_at w module;
  m ← module_acquire m;
  let w := set_modules w (<[module := m]> (modules w)) in
  r ← route_at w route;
  assert (negb (estimate =? 0)) ;;
  let s := mk_sandbox id (sb_state s) route tenant module (Some session) (sb_variant s)
             (sb_stack s) (sb_memory s) (sb_globals s) (last_state_change s) (allocation s)
             (dispatched s) (completion s) (duration_of_state s) (last_state_duration s)
             (u64 (allocation s + relative_deadline r)) estimate (total_time s) in
  sandbox_set_as_initialized (sb_put w p s) p SANDBOX_ALLOCATED now.

(** [memory]: the address [aligned_alloc] returns, [None] for NULL; the cycle
    counter is read at [t0] and [t1]. *)
Definition sandbox_alloc w (memory : option Z) (module session route tenant estimate : Z) (t0 t1 : Z)
  : outcome (option Z * World) :=
  match memory with
  | None => Ret (None, w)
  | Some p =>
    w ← sandbox_set_as_allocated (sb_put w p zero_sandbox) p t0;
    w ← sandbox_init w p module session route tenant estimate t1;
    Ret (Some p, w)
  end.

(** What the allocator and the kernel answer during preparation. *)
Record prepare_env := mk_prepare_env {
  env_response : bool;     (* http_session_init_response_body *)
  env_globals : bool;      (* calloc *)
  env_aligned : bool;
  env_mmap : bool;
  env_mprotect : bool;
  env_stack_mmap : option Z;
  env_stack_mprotect : bool;
}.

(** The common exit of the failures: the state given is SANDBOX_ALLOCATED. *)
Definition prepare_failed w (p : Z) (now : Z) : outcome (Z * World) :=
  w ← sandbox_set_as_error w p SANDBOX_ALLOCATED now; Ret (-1, w).

Definition sandbox_prepare_execution_environment w (p : Z) (env : prepare_env) (now : Z)
  : outcome (Z * World) :=
  s ← sb_get w p;
  if negb (env_response env) then prepare_failed w p now else
  m ← module_at w (sb_module s);
  let '(rc, globals) := wasm_globals_init (sb_globals s) (Z.to_nat (globals_len (abi m))) (env_globals env) in
  let s := set_sb_globals s globals in
  let w := sb_put w p s in
  if rc <? 0 then prepare_failed w p now else
  '(memory, m) ← module_allocate_linear_memory m worker_thread_idx
                   (env_aligned env) (env_mmap env) (env_mprotect env);
  let s := set_sb_memory s memory in
  let w := sb_put (set_modules w (<[sb_module s := m]> (modules w))) p s in
  if negb (bool_decide (is_Some memory)) then prepare_failed w p now else
  '(stack, m) ← module_allocate_stack m worker_thread_idx (env_stack_mmap env) (env_stack_mprotect env);
  let s := set_sb_stack s stack in
  let w := sb_put (set_modules w (<[sb_module s := m]> (modules w))) p s in
  if negb (bool_decide (is_Some stack)) then prepare_failed w p now else
  Ret (0, sb_put w p (set_sb_variant s VARIANT_FAST)).

Definition sandbox_deinit w (p : Z) : outcome World :=
  assert (negb (bool_decide (current w = Some p))) ;;
  s ← sb_get w p;
  assert (bool_decide (sb_state s = SANDBOX_ERROR) || bool_decide (sb_state s = SANDBOX_COMPLETE)) ;;
  assert (bool_decide (sb_http s = None)) ;;
  m ← module_at w (sb_module s);
  m ← module_release m;
  assert (negb (bool_decide (is_Some (sb_memory s)))) ;;
  m ← match sb_stack s with
      | Some stack => module_free_stack m worker_thread_idx stack
      | None => Ret m
      end;
  globals ← match vec_buffer (sb_globals s) with
            | Some _ => wasm_globals_deinit (sb_globals s)
            | None => Ret (sb_globals s)
            end;
  Ret (sb_put (set_modules w (<[sb_module s := m]> (modules w))) p (set_sb_globals s globals)).

Definition sandbox_free w (p : Z) : outcome World :=
  assert (negb (bool_decide (current w = Some p))) ;;
  s ← sb_get w p;
  assert (bool_decide (sb_state s = SANDBOX_ERROR) || bool_decide (sb_state s = SANDBOX_COMPLETE)) ;;
  w ← sandbox_deinit w p;
  Ret (set_sandboxes w (delete p (sandboxes w))).

(** ** The cleanup queue *)

Definition local_cleanup_queue_add w (p : Z) : outcome World :=
  assert (bool_decide (p ∉ cleanup_queue w)) ;;
  Ret (set_cleanup_queue w (cleanup_queue w ++ [p])).

Definition local_cleanup_queue_free w : outcome World :=
  w ← foldl (fun m p => w ← m; sandbox_free w p) (Ret w) (cleanup_queue w);
  Ret (set_cleanup_queue w []).
End sandbox.
