(* ===== verification/Scheduler.v ===== *)
(** * Scheduler: choosing and switching sandboxes on a worker

    [runtime/include/scheduler.h], [runtime/include/arch/context.h] (what it
    does to the context variants), [runtime/src/current_sandbox.c] and the
    signal handler of [runtime/src/software_interrupt.c].  The policy is the
    class [Policy], with the instances EDF and FIFO; the multi-tenant policy is in
    [MtdsPolicy].

    The registers themselves are not modelled: a context is the way its
    registers are saved ([context_variant]).  Where the C code gives the
    processor away, the function ends and reports where execution continues. *)

From Stdlib Require Import ZArith Lia.
From S2P Require Import Prelude Lock PriorityQueue Bytes WasmMemory Globals Module Runqueue Mtds MtdsGlobal Sandbox.
Local Open Scope Z_scope.

(** What the surroundings answer during one scheduling decision: the cycle
    counter around the global queue's lock, the allocations of a preparation,
    the counter at its failure, at the dispatch, and the unspecified union
    bytes of a global written back; for the multi-tenant policy, the counter when
    a tenant's timeout is computed, at the promotions, and at their new timeouts;
    whether the kernel sent the signal, and the counter during the global promotions. *)
Record sched_env := mk_sched_env {
  se_lock : Z;
  se_unlock : Z;
  se_prepare : prepare_env;
  se_fail : Z;
  se_dispatch : Z;
  se_pad : Z;
  se_timeout : Z;
  se_promotions : Z;
  se_clock : nat -> Z;
  se_kernel : bool;
  se_global : Z;
  se_turns : list turn;
}.

Section policies.
Context {L : Type} `{SpinLock L}.
Variable ADMISSIONS_CONTROL : bool.
Variable worker_thread_idx : nat.

(** The deadline of the head of the local queue, or of an empty one. *)
Definition local_deadline_of {RQ} (w : world L RQ) (local : option Z) : outcome Z :=
  match local with
  | None => Ret UINT64_MAX
  | Some p => s ← sb_get w p; Ret (absolute_deadline s)
  end.

Definition scheduler_edf_get_next {RQ} `{Runqueue RQ} `{RunqueueNext RQ} {G} `{GlobalScheduler G}
  (w : world L RQ) (g : G) (env : sched_env) : outcome (option Z * world L RQ * G) :=
  local ← local_runqueue_get_next (runqueue w);
  local_deadline ← local_deadline_of w local;
  global_deadline ← global_request_scheduler_peek g;
  '(w, g) ←
    (if global_deadline <? local_deadline then
       '(rc, global, g) ← global_request_scheduler_remove_if_earlier (sandbox_get_priority w) false
                            (se_lock env) (se_unlock env) g local_deadline;
       if rc =? 0 then
         match global with
         | None => Stop AssertFail
         | Some p =>
           s ← sb_get w p;
           assert (absolute_deadline s <? local_deadline) ;;
           '(_, w) ← sandbox_prepare_execution_environment ADMISSIONS_CONTROL worker_thread_idx
                       w p (se_prepare env) (se_fail env);
           s ← sb_get w p;
           assert (bool_decide (sb_state s = SANDBOX_INITIALIZED)) ;;
           w ← sandbox_set_as_runnable w p SANDBOX_INITIALIZED (se_dispatch env);
           Ret (w, g)
         end
       else Ret (w, g)
     else Ret (w, g));
  next ← local_runqueue_get_next (runqueue w);
  Ret (next, w, g).

(** The return code of the preparation and the state are not looked at. *)
Definition scheduler_fifo_get_next {G} `{GlobalScheduler G}
  (w : world L runqueue_list) (g : G) (env : sched_env)
  : outcome (option Z * world L runqueue_list * G) :=
  local ← local_runqueue_get_next (runqueue w);
  '(w, g) ←
    match local with
    | None =>
      '(rc, global, g) ← global_request_scheduler_remove (sandbox_get_priority w) false
                           (se_lock env) (se_unlock env) g;
      if rc <? 0 then Ret (w, g) else
      p ← deref global;
      '(_, w) ← sandbox_prepare_execution_environment ADMISSIONS_CONTROL worker_thread_idx
                  w p (se_prepare env) (se_fail env);
      w ← sandbox_set_as_runnable w p SANDBOX_INITIALIZED (se_dispatch env);
      Ret (w, g)
    | Some p =>
      if decide (current_sandbox_get w = Some p) then
        q ← local_runqueue_list_rotate
              (fun p => match sandboxes w !! p with
                        | Some s => bool_decide (sb_state s = SANDBOX_INTERRUPTED)
                        | None => false
                        end) (runqueue w);
        Ret (set_runqueue w q, g)
      else Ret (w, g)
    end;
  next ← local_runqueue_get_next (runqueue w);
  Ret (next, w, g).

(** [scheduler_worker_would_preempt] of this worker. *)
Definition scheduler_worker_would_preempt {RQ G} `{GlobalScheduler G}
  (w : world L RQ) (g : G) : outcome bool :=
  global_deadline ← global_request_scheduler_peek g;
  Ret (global_deadline <? worker_deadline w).
End policies.

(** [scheduler_get_next], the updates on interrupts, and what the signal handler does
    to the global queues: the policy chosen at start-up. *)
Class Policy (L RQ G : Type) := {
  scheduler_get_next : bool -> nat -> world L RQ -> G -> sched_env -> outcome (option Z * world L RQ * G);
  scheduler_process_policy_specific_updates_on_interrupts : world L RQ -> sched_env -> outcome (world L RQ);
  process_global_promotions : world L RQ -> G -> sched_env -> outcome (world L RQ * G);
}.

#[export] Instance edf_policy {L} `{SpinLock L} : Policy L (priority_queue L Z) (priority_queue L Z) := {|
  scheduler_get_next := fun ac idx w g env => scheduler_edf_get_next ac idx w g env;
  scheduler_process_policy_specific_updates_on_interrupts := fun w _ => Ret w;
  process_global_promotions := fun w g _ => Ret (w, g);
|}.

#[export] Instance fifo_policy {L} `{SpinLock L} {G} `{GlobalScheduler G} : Policy L runqueue_list G := {|
  scheduler_get_next := fun ac idx w g env => scheduler_fifo_get_next ac idx w g env;
  scheduler_process_policy_specific_updates_on_interrupts := fun w _ => Ret w;
  process_global_promotions := fun w g _ => Ret (w, g);
|}.

Section switching.
Context {L : Type} `{SpinLock L} {RQ : Type} `{Runqueue RQ} {G : Type} `{Policy L RQ G}.
Variable ADMISSIONS_CONTROL : bool.
Variable worker_thread_idx : nat.
Abbreviation World := (world L RQ).
Implicit Types w : World.

(** ** Contexts *)

Inductive context := Base | Ctx (p : Z).

#[local] Instance context_eq_dec : EqDecision context.
Proof. solve_decision. Defined.

Definition variant_of w (c : context) : outcome context_variant :=
  match c with
  | Base => Ret (base_variant w)
  | Ctx p => s ← sb_get w p; Ret (sb_variant s)
  end.

Definition write_variant w (c : context) (v : context_variant) : outcome World :=
  match c with
  | Base => Ret (set_base_variant w v)
  | Ctx p => s ← sb_get w p; Ret (sb_put w p (set_sb_variant s v))
  end.

Definition arch_context_restore_fast w (p : Z) : outcome World :=
  s ← sb_get w p;
  assert (bool_decide (sb_variant s = VARIANT_FAST)) ;;
  Ret (sb_put w p (set_sb_variant s VARIANT_RUNNING)).

Definition arch_context_restore_slow w (p : Z) : outcome World :=
  s ← sb_get w p;
  assert (bool_decide (sb_variant s = VARIANT_SLOW)) ;;
  Ret (sb_put w p (set_sb_variant s VARIANT_RUNNING)).

Definition arch_context_save_slow w (p : Z) : outcome World :=
  s ← sb_get w p;
  assert (bool_decide (sb_variant s = VARIANT_RUNNING)) ;;
  Ret (sb_put w p (set_sb_variant s VARIANT_SLOW)).

(** Saves [a], then either continues in [b] or, for a slow context, sends
    SIGUSR1 to this thread: the second component. *)
Definition arch_context_switch w (a b : context) : outcome (World * bool) :=
  assert (negb (bool_decide (a = b))) ;;
  va ← variant_of w a;
  assert (bool_decide (va = VARIANT_RUNNING)) ;;
  vb ← variant_of w b;
  assert (bool_decide (vb = VARIANT_FAST) || bool_decide (vb = VARIANT_SLOW)) ;;
  w ← write_variant w a VARIANT_FAST;
  if decide (vb = VARIANT_SLOW) then Ret (w, true) else
  w ← write_variant w b VARIANT_RUNNING;
  Ret (w, false).

(** ** Switching *)

Definition scheduler_preemptive_switch_to w (next : Z) (now : Z) : outcome World :=
  s ← sb_get w next;
  match sb_variant s with
  | VARIANT_FAST =>
    assert (bool_decide (sb_state s = SANDBOX_RUNNABLE)) ;;
    w ← arch_context_restore_fast w next;
    w ← current_sandbox_set w (Some next);
    sandbox_set_as_running_sys w next SANDBOX_RUNNABLE now
  | VARIANT_SLOW =>
    assert (bool_decide (sb_state s = SANDBOX_PREEMPTED)) ;;
    w ← arch_context_restore_slow w next;
    w ← current_sandbox_set w (Some next);
    sandbox_set_as_running_user w next SANDBOX_PREEMPTED now
  | _ => Stop Panic
  end.

(** [wasm_globals_set_i64(&sandbox->globals, 0, wasmg_0, true)]; the result is ignored. *)
Definition globals_writeback w (p : Z) (pad : Z) : outcome World :=
  s ← sb_get w p;
  '(_, globals) ← wasm_globals_set_i64 (sb_globals s) 0 (wasmg_0 w) true pad true;
  Ret (sb_put w p (set_sb_globals s globals)).

(** The clock is read at the preemption and at the switch, or at the return. *)
Definition scheduler_preemptive_sched w (g : G) (env : sched_env) (t_return t_preempt t_switch : Z)
  : outcome (World * G) :=
  match current_sandbox_get w with
  | None => Stop AssertFail
  | Some interrupted =>
    s ← sb_get w interrupted;
    assert (bool_decide (sb_state s = SANDBOX_INTERRUPTED)) ;;
    w ← scheduler_process_policy_specific_updates_on_interrupts w env;
    '(next, w, g) ← scheduler_get_next ADMISSIONS_CONTROL worker_thread_idx w g env;
    match next with
    | None => Stop AssertFail
    | Some next =>
      if decide (interrupted = next) then
        w ← sandbox_interrupt_return w interrupted SANDBOX_RUNNING_USER t_return;
        Ret (w, g)
      else
        w ← sandbox_preempt w interrupted t_preempt;
        w ← globals_writeback w interrupted (se_pad env);
        w ← arch_context_save_slow w interrupted;
        w ← scheduler_preemptive_switch_to w next t_switch;
        Ret (w, g)
    end
  end.

Definition scheduler_cooperative_switch_to w (current_context : context) (next : Z) (now : Z)
  : outcome (World * bool) :=
  assert (bool_decide (current_sandbox_get w = None)) ;;
  s ← sb_get w next;
  w ← match sb_state s with
      | SANDBOX_RUNNABLE =>
        assert (bool_decide (sb_variant s = VARIANT_FAST)) ;;
        w ← current_sandbox_set w (Some next);
        sandbox_set_as_running_sys w next SANDBOX_RUNNABLE now
      | SANDBOX_PREEMPTED =>
        assert (bool_decide (sb_variant s = VARIANT_SLOW)) ;;
        current_sandbox_set w (Some next)
      | _ => Stop Panic
      end;
  arch_context_switch w current_context (Ctx next).

Definition scheduler_switch_to_base_context w (current_context : context) : outcome (World * bool) :=
  assert (bool_decide (base_variant w = VARIANT_FAST)) ;;
  arch_context_switch w current_context Base.

(** One iteration of [scheduler_idle_loop] up to the switch, or all of it when
    there is nothing to run. *)
Definition scheduler_idle_iteration w (g : G) (env : sched_env) (now : Z)
  : outcome (World * bool * G) :=
  assert (bool_decide (current_sandbox_get w = None)) ;;
  assert (deferred_sigalrm w =? 0) ;;
  '(next, w, g) ← scheduler_get_next ADMISSIONS_CONTROL worker_thread_idx w g env;
  match next with
  | Some p => '(w, usr1) ← scheduler_cooperative_switch_to w Base p now; Ret (w, usr1, g)
  | None => w ← local_cleanup_queue_free worker_thread_idx w; Ret (w, false, g)
  end.

Definition scheduler_cooperative_sched w (g : G) (add_to_cleanup_queue : bool) (env : sched_env)
  (now : Z) : outcome (World * bool * G) :=
  match current_sandbox_get w with
  | None => Stop AssertFail
  | Some exiting =>
    w ← current_sandbox_set w None;
    let w := software_interrupt_deferred_sigalrm_clear w in
    assert (bool_decide (current_sandbox_get w = None)) ;;
    assert (deferred_sigalrm w =? 0) ;;
    w ← local_cleanup_queue_free worker_thread_idx w;
    '(next, w, g) ← scheduler_get_next ADMISSIONS_CONTROL worker_thread_idx w g env;
    if decide (next = Some exiting) then
      w ← sandbox_set_as_running_sys w exiting SANDBOX_RUNNABLE now;
      w ← current_sandbox_set w (Some exiting);
      Ret (w, false, g)
    else
      w ← globals_writeback w exiting (se_pad env);
      w ← (if add_to_cleanup_queue then local_cleanup_queue_add w exiting else Ret w);
      '(w, usr1) ← match next with
                   | Some p => scheduler_cooperative_switch_to w (Ctx exiting) p now
                   | None => scheduler_switch_to_base_context w (Ctx exiting)
                   end;
      Ret (w, usr1, g)
  end.

(** ** current_sandbox.c *)

Definition current_sandbox_sleep w (g : G) (env : sched_env) (t_sleep now : Z)
  : outcome (World * bool * G) :=
  match current_sandbox_get w with
  | None => Stop AssertFail
  | Some p =>
    s ← sb_get w p;
    w ← match sb_state s with
        | SANDBOX_RUNNING_SYS => sandbox_sleep w p t_sleep
        | _ => Stop Panic
        end;
    scheduler_cooperative_sched w g false env now
  end.

(** The scheduler does not come back to a sandbox that exits: if it did, the
    assertion after the call would fail. *)
Definition current_sandbox_exit w (g : G) (env : sched_env) (t_exit lock_time unlock_time now : Z)
  : outcome (World * bool * G) :=
  match current_sandbox_get w with
  | None => Stop AssertFail
  | Some p =>
    s ← sb_get w p;
    w ← match sb_state s with
        | SANDBOX_RETURNED => sandbox_exit_success ADMISSIONS_CONTROL w p t_exit lock_time unlock_time
        | SANDBOX_RUNNING_SYS => sandbox_exit_error ADMISSIONS_CONTROL worker_thread_idx w p t_exit
        | _ => Stop Panic
        end;
    '(w, usr1, g) ← scheduler_cooperative_sched w g true env now;
    assert (negb (bool_decide (current_sandbox_get w = Some p))) ;;
    Ret (w, usr1, g)
  end.

Definition current_sandbox_wasm_trap_handler w (g : G) (env : sched_env)
  (t_syscall t_exit lock_time unlock_time now : Z) : outcome (World * bool * G) :=
  match current_sandbox_get w with
  | None => Stop Undefined
  | Some p =>
    w ← sandbox_syscall w p t_syscall;
    current_sandbox_exit w g env t_exit lock_time unlock_time now
  end.

Definition current_sandbox_fini w (g : G) (env : sched_env)
  (t_syscall t_completion t_returned t_exit lock_time unlock_time now : Z)
  : outcome (World * bool * G) :=
  match current_sandbox_get w with
  | None => Stop AssertFail
  | Some p =>
    w ← sandbox_syscall w p t_syscall;
    s ← sb_get w p;
    let w := sb_put w p (set_total_time (set_completion s t_completion)
               (u64 (t_completion - allocation s))) in
    assert (bool_decide (sb_state s = SANDBOX_RUNNING_SYS)) ;;
    w ← sandbox_set_as_returned worker_thread_idx w p SANDBOX_RUNNING_SYS t_returned;
    current_sandbox_exit w g env t_exit lock_time unlock_time now
  end.

(** ** The signal handler *)

Inductive signal := SIGALRM | SIGUSR1 | SIGFPE | SIGSEGV.

Inductive handler_result :=
| HReturn (w : World) (g : G)    (* resumes the context now on the processor *)
| HTrap (trapno : Z).            (* [siglongjmp] to the trap handler *)

Definition WASM_TRAP_OUT_OF_BOUNDS_LINEAR_MEMORY : Z := 4.
Definition WASM_TRAP_ILLEGAL_ARITHMETIC_OPERATION : Z := 5.

Definition current_sandbox_is_preemptable w : bool :=
  match current_sandbox_get w with
  | None => false
  | Some p => match sandboxes w !! p with
              | Some s => bool_decide (sb_state s = SANDBOX_RUNNING_USER)
              | None => false
              end
  end.

(** [if (scheduler == SCHEDULER_MTDS && signal_info->si_code == SI_KERNEL)
    global_timeout_queue_process_promotions()] *)
Definition kernel_promotions w (g : G) (env : sched_env) : outcome (World * G) :=
  if se_kernel env then process_global_promotions w g env else Ret (w, g).

(** On a worker thread, with preemption enabled and no handler running.
    Forwarding SIGALRM to the other workers ([propagate_sigalrm]) is their
    input, not this worker's state. *)
Definition software_interrupt_handle_signals w (g : G) (sig : signal) (env : sched_env)
  (t_interrupt t_return t_preempt t_switch : Z) : outcome handler_result :=
  match sig with
  | SIGALRM =>
    match current_sandbox_get w with
    | None => '(w, g) ← kernel_promotions w g env; Ret (HReturn w g)
    | Some p =>
      if current_sandbox_is_preemptable w then
        w ← sandbox_interrupt w p t_interrupt;
        '(w, g) ← kernel_promotions w g env;
        '(w, g) ← scheduler_preemptive_sched w g env t_return t_preempt t_switch;
        Ret (HReturn w g)
      else
        '(w, g) ← kernel_promotions w g env;
        Ret (HReturn (set_deferred_sigalrm w (deferred_sigalrm w + 1)) g)
    end
  | SIGUSR1 =>
    match current_sandbox_get w with
    | None => Stop AssertFail
    | Some p =>
      s ← sb_get w p;
      assert (bool_decide (sb_state s = SANDBOX_PREEMPTED)) ;;
      assert (bool_decide (sb_variant s = VARIANT_SLOW)) ;;
      w ← scheduler_preemptive_switch_to w p t_switch;
      Ret (HReturn w g)
    end
  | SIGFPE => if current_sandbox_is_preemptable w
              then Ret (HTrap WASM_TRAP_ILLEGAL_ARITHMETIC_OPERATION) else Stop Panic
  | SIGSEGV => if current_sandbox_is_preemptable w
               then Ret (HTrap WASM_TRAP_OUT_OF_BOUNDS_LINEAR_MEMORY) else Stop Panic
  end.
End switching.
