(* ===== verification/SandboxSpec.v ===== *)
(** * SandboxSpec: the sandbox state machine, its clock and its resources

    The invariant [wf] of a worker's world, and the theorem that every
    operation on a sandbox follows the state diagram: from the states the
    diagram allows it succeeds, keeps the invariant and moves to the diagram's
    next state; from any other state it stops.  Stated for the default build
    (admissions control off) and for any runqueue that satisfies
    [RunqueueLaws]. *)

From Stdlib Require Import ZArith Lia.
From S2P Require Import Prelude Lock Bytes Admissions WasmMemory Globals Module Runqueue Sandbox Scheduler.
Local Open Scope Z_scope.

(** ** Time *)

(** The time since allocation is the sum of the times spent in the states. *)
Record times_ok (s : sandbox) : Prop := {
  times_len : length (duration_of_state s) = SANDBOX_STATE_COUNT;
  times_nonneg : Forall (fun d => 0 <= d) (duration_of_state s);
  times_order : 0 <= allocation s <= last_state_change s;
  times_u64 : last_state_change s <= UINT64_MAX;
  times_sum : zsum (duration_of_state s) = last_state_change s - allocation s;
}.

Lemma zsum_insert (l : list Z) i x y :
  l !! i = Some x -> zsum (<[i := y]> l) = zsum l - x + y.
Proof.
  revert i. induction l as [|a l IH]; intros [|i] E; try done.
  - cbn in *. injection E as ->. lia.
  - change (zsum (<[S i := y]> (a :: l))) with (a + zsum (<[i := y]> l)).
    cbn [zsum]. rewrite (IH i E). lia.
Qed.

Lemma zsum_lookup (l : list Z) i x : Forall (fun d => 0 <= d) l -> l !! i = Some x -> 0 <= x <= zsum l.
Proof.
  intros F. revert i. induction F as [|a l Ha F IH]; intros [|i]; cbn; try done; intros E.
  - injection E as ->. assert (0 <= zsum l) by (clear - F; induction F; cbn; lia). lia.
  - specialize (IH i E). lia.
Qed.

Lemma state_index_lt st : (state_index st < SANDBOX_STATE_COUNT)%nat.
Proof. destruct st; cbn; unfold SANDBOX_STATE_COUNT; lia. Qed.

(** Adding the time since the last change to one state, at [now]. *)
Definition elapse (s : sandbox) (st : sandbox_state_t) (now : Z) : list Z :=
  <[state_index st := default 0 (duration_of_state s !! state_index st) + (now - last_state_change s)]>
    (duration_of_state s).

Lemma elapse_ok s st now :
  times_ok s -> last_state_change s <= now <= UINT64_MAX ->
  exists old, duration_of_state s !! state_index st = Some old
    /\ u64 (old + (now - last_state_change s)) = old + (now - last_state_change s)
    /\ elapse s st now = <[state_index st := old + (now - last_state_change s)]> (duration_of_state s)
    /\ length (elapse s st now) = SANDBOX_STATE_COUNT
    /\ Forall (fun d => 0 <= d) (elapse s st now)
    /\ zsum (elapse s st now) = now - allocation s.
Proof.
  intros [Hl Hn Ho Hu Hs] Hnow. pose proof (state_index_lt st) as Hi. rewrite <- Hl in Hi.
  destruct (lookup_lt_is_Some_2 _ _ Hi) as [old E]. pose proof (zsum_lookup _ _ _ Hn E).
  assert (El : elapse s st now = <[state_index st := old + (now - last_state_change s)]> (duration_of_state s))
    by (unfold elapse; by rewrite E).
  exists old. split; [done|]. split; [apply u64_small; lia|]. split; [done|]. rewrite El.
  split; [by rewrite length_insert|]. split.
  - apply Forall_insert; [done | lia].
  - rewrite (zsum_insert _ _ old) by done. lia.
Qed.

(** The sandbox after [account]. *)
Definition accounted (s : sandbox) (last_state : sandbox_state_t) (now : Z) : sandbox :=
  set_last_state_change (set_duration_of_state (set_last_state_duration s (now - last_state_change s))
    (elapse s last_state now)) now.

Lemma account_ok s last_state now :
  times_ok s -> last_state_change s < now <= UINT64_MAX ->
  account s last_state now = Ret (accounted s last_state now) /\ times_ok (accounted s last_state now).
Proof.
  intros T Hnow. destruct (elapse_ok s last_state now T) as (old & E & Eu & El & Hlen & Hnn & Hsum); [lia|].
  destruct T as [? ? Ho ? ?].
  assert (Ed : u64 (now - last_state_change s) = now - last_state_change s) by (apply u64_small; lia).
  split.
  - unfold account. rewrite (proj2 (Z.ltb_lt _ _)) by lia. ostep. rewrite E. ostep.
    rewrite Ed, Eu. unfold accounted. by rewrite El.
  - split; cbn; try done; lia.
Qed.

(** ** Resources *)

Definition queued (st : sandbox_state_t) : bool :=
  match st with
  | SANDBOX_RUNNABLE | SANDBOX_PREEMPTED | SANDBOX_RUNNING_SYS | SANDBOX_RUNNING_USER
  | SANDBOX_INTERRUPTED => true
  | _ => false
  end.

(** The states in which a sandbox has the processor. *)
Definition running (st : sandbox_state_t) : bool :=
  match st with SANDBOX_RUNNING_SYS | SANDBOX_RUNNING_USER | SANDBOX_INTERRUPTED => true | _ => false end.

(** The states in which a sandbox holds its linear memory, and its session. *)
Definition executing (st : sandbox_state_t) : bool :=
  match st with SANDBOX_ASLEEP => true | _ => queued st end.

Definition unanswered (st : sandbox_state_t) : bool :=
  match st with SANDBOX_RETURNED | SANDBOX_COMPLETE | SANDBOX_ERROR => false | _ => true end.

Section spec.
Context {L : Type} `{SpinLock L} {RQ : Type} `{RunqueueLaws RQ}.
Variable worker_thread_idx : nat.
Abbreviation World := (world L RQ).
Implicit Types w : World.

(** A memory that can go back to the pool of the module. *)
Definition memory_usable (m : module L) (mem : wasm_memory) : Prop :=
  is_Some (wm_buffer mem) /\ wm_size mem <= wm_capacity mem
  /\ starting_pages (abi m) * WASM_PAGE_SIZE <= wm_capacity mem.

Record sb_ok w (p : Z) (s : sandbox) : Prop := {
  ok_times : times_ok s;
  ok_module : exists m, modules w !! sb_module s = Some m
      /\ (executing (sb_state s) = true -> exists mem, sb_memory s = Some mem /\ memory_usable m mem);
  ok_globals : executing (sb_state s) = true -> exists gs, globals_wf (sb_globals s) gs;
  ok_tenant : is_Some (tenants w !! sb_tenant s);
  ok_route : is_Some (routes w !! sb_route s);
  ok_http : is_Some (sb_http s) <-> unanswered (sb_state s) = true;
  ok_deadline : 0 <= absolute_deadline s <= UINT64_MAX;
  ok_running : running (sb_state s) = true ->
      current w = Some p /\ worker_deadline w = absolute_deadline s;
}.

Definition modules_wf w : Prop :=
  forall k m, modules w !! k = Some m -> module_wf m /\ (worker_thread_idx < length (pools m))%nat.

(** [l] are the sandboxes on the runqueue: those in the states [queued]. *)
Record wf w (l : list Z) : Prop := {
  wf_queue : rq_repr (sandbox_get_priority w) (runqueue w) l;
  wf_nodup : NoDup l;
  wf_queued p : p ∈ l <-> exists s, sandboxes w !! p = Some s /\ queued (sb_state s) = true;
  wf_sandbox p s : sandboxes w !! p = Some s -> sb_ok w p s;
  wf_modules : modules_wf w;
}.

Lemma wf_deadlines w l : wf w l -> deadlines_u64 (sandbox_get_priority w).
Proof.
  intros W p. unfold sandbox_get_priority. destruct (sandboxes w !! p) as [s|] eqn:E.
  - apply (ok_deadline _ _ _ (wf_sandbox _ _ W p s E)).
  - unfold UINT64_MAX. lia.
Qed.

(** What a step on one sandbox leaves of the rest of the world. *)
Record frame w w' : Prop := {
  frame_modules k m : modules w !! k = Some m ->
    exists m', modules w' !! k = Some m' /\ abi m' = abi m;
  frame_tenants k : is_Some (tenants w !! k) -> is_Some (tenants w' !! k);
  frame_routes k : is_Some (routes w !! k) -> is_Some (routes w' !! k);
  frame_current : current w' = current w;
  frame_deadline : worker_deadline w' = worker_deadline w;
}.

Lemma frame_refl w : frame w w.
Proof. split; eauto. Qed.

Lemma frame_same w w' :
  modules w' = modules w -> tenants w' = tenants w -> routes w' = routes w ->
  current w' = current w -> worker_deadline w' = worker_deadline w -> frame w w'.
Proof. intros E1 E2 E3 E4 E5. split; rewrite ?E1, ?E2, ?E3, ?E4, ?E5; eauto. Qed.

Lemma sb_ok_frame w w' p s : frame w w' -> sb_ok w p s -> sb_ok w' p s.
Proof.
  intros [Fm Ft Fr Fc Fd] [? (m & Em & Hm) ? ? ? ? ? Hrun]. split; auto.
  - destruct (Fm _ _ Em) as (m' & Em' & Ea). exists m'. split; [done|]. intros Hx.
    destruct (Hm Hx) as (mem & ? & ?). exists mem. split; [done|]. unfold memory_usable in *. by rewrite Ea.
  - rewrite Fc, Fd. done.
Qed.

(** Replacing one sandbox and the runqueue. *)
Lemma wf_update w w' l l' p s s' :
  wf w l -> sandboxes w !! p = Some s -> frame w w' -> modules_wf w' ->
  sandboxes w' = <[p := s']> (sandboxes w) -> absolute_deadline s' = absolute_deadline s ->
  sb_ok w' p s' ->
  rq_repr (sandbox_get_priority w) (runqueue w') l' -> NoDup l' ->
  (forall q, q <> p -> (q ∈ l' <-> q ∈ l)) -> (p ∈ l' <-> queued (sb_state s') = true) ->
  wf w' l'.
Proof.
  intros W Ep F M Es Ed Hok Hrq Hnd Hoth Hp.
  assert (Edl : forall q, sandbox_get_priority w' q = sandbox_get_priority w q).
  { intros q. unfold sandbox_get_priority. rewrite Es.
    destruct (decide (q = p)) as [->|Hne]; [by rewrite lookup_insert_eq, Ep|by rewrite lookup_insert_ne]. }
  split; try done.
  - eapply rq_repr_ext; [|exact Hrq]. intros q _. by rewrite Edl.
  - intros q. rewrite Es. destruct (decide (q = p)) as [->|Hne].
    + rewrite lookup_insert_eq, Hp. split; [eauto | by intros (? & [= <-] & ?)].
    + rewrite lookup_insert_ne, Hoth by done. apply (wf_queued _ _ W).
  - intros q sq. rewrite Es. destruct (decide (q = p)) as [->|Hne].
    + rewrite lookup_insert_eq. by intros [= <-].
    + rewrite lookup_insert_ne by done. intros Eq. eapply sb_ok_frame; [exact F|]. by apply (wf_sandbox _ _ W).
Qed.

(** Replacing one sandbox, the runqueue unchanged. *)
Lemma wf_put w w' l p s s' :
  wf w l -> sandboxes w !! p = Some s -> frame w w' -> modules_wf w' ->
  sandboxes w' = <[p := s']> (sandboxes w) -> absolute_deadline s' = absolute_deadline s ->
  sb_ok w' p s' -> runqueue w' = runqueue w -> queued (sb_state s') = queued (sb_state s) ->
  wf w' l.
Proof.
  intros W Ep F M Es Ed Hok Eq Hq. eapply wf_update; eauto.
  - rewrite Eq. apply (wf_queue _ _ W).
  - apply (wf_nodup _ _ W).
  - rewrite (wf_queued _ _ W), Ep, Hq. split; [by intros (? & [= <-] & ?) | eauto].
Qed.

(** ** Building blocks of the transitions *)

Lemma sb_get_put w p s : sb_get (sb_put w p s) p = Ret s.
Proof. unfold sb_get, sb_put. cbn. by rewrite lookup_insert_eq. Qed.

Lemma sb_get_ok w p s : sandboxes w !! p = Some s -> sb_get w p = Ret s.
Proof. intros E. unfold sb_get. by rewrite E. Qed.

Lemma sb_put_put w p s s' : sb_put (sb_put w p s) p s' = sb_put w p s'.
Proof. unfold sb_put, set_sandboxes. cbn. by rewrite insert_insert_eq. Qed.

Lemma write_state_ok w p s st :
  sandboxes w !! p = Some s -> write_state w p st = Ret (sb_put w p (set_sb_state s st)).
Proof. intros E. unfold write_state. by rewrite (sb_get_ok _ _ _ E). Qed.

Lemma bookkeeping_ok w p s last_state now :
  sandboxes w !! p = Some s -> times_ok s -> last_state_change s < now <= UINT64_MAX ->
  bookkeeping w p last_state now = Ret (sb_put w p (accounted s last_state now)).
Proof.
  intros E T Hn. unfold bookkeeping. rewrite (sb_get_ok _ _ _ E). ostep.
  destruct (account_ok s last_state now T Hn) as [-> _]. done.
Qed.

Lemma times_ok_state s st : times_ok s -> times_ok (set_sb_state s st).
Proof. by intros []; split. Qed.

(** A state change with its accounting keeps a sandbox in order if the new
    state needs no resource the old one did not have. *)
Lemma sb_ok_move w p s st last_state now :
  sb_ok w p s -> last_state_change s < now <= UINT64_MAX ->
  (executing st = true -> executing (sb_state s) = true) ->
  unanswered st = unanswered (sb_state s) ->
  (running st = true -> current w = Some p /\ worker_deadline w = absolute_deadline s) ->
  sb_ok w p (accounted (set_sb_state s st) last_state now).
Proof.
  intros [T (m & Em & Hm) Hg Ht Hr Hh Hd Hrun] Hn He Hu Hc.
  split; try done; cbn; try (by auto).
  - by apply account_ok; [apply times_ok_state|].
  - eauto.
  - by rewrite Hu.
Qed.

Lemma process_updates_ok w p s :
  sandboxes w !! p = Some s -> is_Some (tenants w !! sb_tenant s) ->
  exists w', sandbox_process_scheduler_updates w p = Ret w'
    /\ sandboxes w' = sandboxes w /\ runqueue w' = runqueue w /\ modules w' = modules w
    /\ responses w' = responses w /\ frame w w'.
Proof.
  intros E [t Et]. unfold sandbox_process_scheduler_updates, tenant_at.
  rewrite (sb_get_ok _ _ _ E). ostep. rewrite Et. ostep.
  destruct (tenant_is_paid t); eexists; (split; [done|]); (split; [done|]); (split; [done|]);
    (split; [done|]); (split; [done|]); [|apply frame_refl].
  split; cbn; eauto. intros k Hk. destruct (decide (k = sb_tenant s)) as [->|Hne].
  - rewrite lookup_insert_eq. eauto.
  - by rewrite lookup_insert_ne.
Qed.

Lemma free_memory_ok w p s m mem :
  sandboxes w !! p = Some s -> modules w !! sb_module s = Some m -> modules_wf w ->
  sb_memory s = Some mem -> memory_usable m mem ->
  exists w', sandbox_free_linear_memory worker_thread_idx w p = Ret w'
    /\ sandboxes w' = <[p := set_sb_memory s None]> (sandboxes w) /\ runqueue w' = runqueue w
    /\ responses w' = responses w /\ frame w w' /\ modules_wf w'.
Proof.
  intros E Em Hw Emem (Hb & Hc & Hst). unfold sandbox_free_linear_memory, module_at.
  rewrite (sb_get_ok _ _ _ E). ostep. rewrite Emem, Em. ostep.
  destruct (Hw _ _ Em) as [Wm Hl].
  destruct (free_linear_memory_ok m worker_thread_idx mem Wm Hl Hb Hc Hst) as (m' & -> & Wm' & Ea & El).
  ostep. eexists. do 4 (split; [done|]). split.
  - split; cbn; eauto. intros k mk Ek. destruct (decide (k = sb_module s)) as [->|Hne].
    + rewrite lookup_insert_eq. exists m'. split; [done|]. congruence.
    + rewrite lookup_insert_ne by done. eauto.
  - intros k mk. cbn. destruct (decide (k = sb_module s)) as [->|Hne].
    + rewrite lookup_insert_eq. intros [= <-]. split; [done | congruence].
    + rewrite lookup_insert_ne by done. apply Hw.
Qed.

(** Adding to and deleting from the runqueue, of a world with [p] rewritten. *)
Lemma runqueue_add_ok w l p s :
  wf w l -> sandboxes w !! p = Some s -> queued (sb_state s) = false -> rq_accepts (runqueue w) l p ->
  forall s', absolute_deadline s' = absolute_deadline s ->
  exists q', runqueue_add (sb_put w p s') p = Ret (set_runqueue (sb_put w p s') q')
    /\ rq_repr (sandbox_get_priority w) q' (p :: l) /\ p ∉ l.
Proof.
  intros W E Hq Hacc s' Ed. unfold runqueue_add.
  assert (Hn : p ∉ l). { rewrite (wf_queued _ _ W). intros (s0 & E0 & Hq0). congruence. }
  assert (Edl : forall x, sandbox_get_priority (sb_put w p s') x = sandbox_get_priority w x).
  { intros x. unfold sandbox_get_priority, sb_put. cbn.
    destruct (decide (x = p)) as [->|]; [by rewrite lookup_insert_eq, E | by rewrite lookup_insert_ne]. }
  destruct (rq_add_ok (sandbox_get_priority (sb_put w p s')) (runqueue w) l p) as (q' & Eq & R); [| |done|done|].
  - intros x. rewrite Edl. apply (wf_deadlines _ _ W).
  - eapply rq_repr_ext; [|apply (wf_queue _ _ W)]. intros x _. by rewrite Edl.
  - cbn [sb_put set_sandboxes runqueue]. rewrite Eq. ostep. exists q'. split; [done|]. split; [|done].
    eapply rq_repr_ext; [|exact R]. intros x _. by rewrite Edl.
Qed.

Lemma runqueue_delete_ok w l p s :
  wf w l -> sandboxes w !! p = Some s -> queued (sb_state s) = true ->
  forall s', absolute_deadline s' = absolute_deadline s ->
  exists q' l', runqueue_delete (sb_put w p s') p = Ret (set_runqueue (sb_put w p s') q')
    /\ rq_repr (sandbox_get_priority w) q' l' /\ l ≡ₚ p :: l' /\ p ∉ l'.
Proof.
  intros W E Hq s' Ed. unfold runqueue_delete.
  assert (Hin : p ∈ l) by (apply (wf_queued _ _ W); eauto).
  apply elem_of_Permutation in Hin as [l' Hp].
  assert (Hn : p ∉ l'). { pose proof (wf_nodup _ _ W) as Hnd. rewrite Hp in Hnd. by inversion Hnd. }
  assert (Edl : forall x, sandbox_get_priority (sb_put w p s') x = sandbox_get_priority w x).
  { intros x. unfold sandbox_get_priority, sb_put. cbn.
    destruct (decide (x = p)) as [->|]; [by rewrite lookup_insert_eq, E | by rewrite lookup_insert_ne]. }
  destruct (rq_delete_ok (sandbox_get_priority (sb_put w p s')) (runqueue w) l' p) as (q' & Eq & R); [| |done|].
  - intros x. rewrite Edl. apply (wf_deadlines _ _ W).
  - eapply rq_repr_ext; [|eapply rq_repr_perm; [apply (wf_queue _ _ W) | exact Hp]].
    intros x _. by rewrite Edl.
  - cbn [sb_put set_sandboxes runqueue]. rewrite Eq. ostep. exists q', l'. split; [done|].
    split; [|done]. eapply rq_repr_ext; [|exact R]. intros x _. by rewrite Edl.
Qed.
End spec.
