(* ===== verification/SandboxSteps.v ===== *)
(** * SandboxSteps: the sandbox state diagram

    The operations that move a sandbox, as events; the state diagram [allowed];
    and the theorems that the code implements the diagram: one step, and every
    sequence of steps the diagram accepts.  Built on the invariant of
    [SandboxSpec], for any runqueue that satisfies [RunqueueLaws]. *)

From Stdlib Require Import ZArith Lia.
From S2P Require Import Prelude Lock Bytes Admissions WasmMemory Globals Module Runqueue Sandbox Scheduler SandboxSpec.
Local Open Scope Z_scope.

Inductive sandbox_event :=
| EvDispatch | EvResumeFast | EvResumeSlow | EvReturn | EvSyscall | EvInterrupt
| EvInterruptReturn | EvPreempt | EvSleep | EvWakeup | EvReturned | EvExitSuccess | EvExitError.

(** The state diagram. *)
Definition allowed (st : sandbox_state_t) (ev : sandbox_event) : option sandbox_state_t :=
  match ev, st with
  | EvDispatch, SANDBOX_INITIALIZED => Some SANDBOX_RUNNABLE
  | EvResumeFast, SANDBOX_RUNNABLE => Some SANDBOX_RUNNING_SYS
  | EvResumeSlow, SANDBOX_PREEMPTED => Some SANDBOX_RUNNING_USER
  | EvReturn, SANDBOX_RUNNING_SYS => Some SANDBOX_RUNNING_USER
  | EvSyscall, SANDBOX_RUNNING_USER => Some SANDBOX_RUNNING_SYS
  | EvInterrupt, SANDBOX_RUNNING_USER => Some SANDBOX_INTERRUPTED
  | EvInterruptReturn, SANDBOX_INTERRUPTED => Some SANDBOX_RUNNING_USER
  | EvPreempt, SANDBOX_INTERRUPTED => Some SANDBOX_PREEMPTED
  | EvSleep, SANDBOX_RUNNING_SYS => Some SANDBOX_ASLEEP
  | EvWakeup, SANDBOX_ASLEEP => Some SANDBOX_RUNNABLE
  | EvReturned, SANDBOX_RUNNING_SYS => Some SANDBOX_RETURNED
  | EvExitSuccess, SANDBOX_RETURNED => Some SANDBOX_COMPLETE
  | EvExitError, SANDBOX_RUNNING_SYS => Some SANDBOX_ERROR
  | _, _ => None
  end.

(** The response an event sends to the client. *)
Definition answer (ev : sandbox_event) (s : sandbox) : list (Z * Z) :=
  match ev, sb_http s with
  | EvReturned, Some session => [(session, 200)]
  | EvExitError, Some session => [(session, 500)]
  | _, _ => []
  end.

Section steps.
Context {L : Type} `{SpinLock L} {RQ : Type} `{RunqueueLaws RQ}.
Variable worker_thread_idx : nat.
Abbreviation World := (world L RQ).
Implicit Types w : World.
Abbreviation wf := (wf worker_thread_idx).

(** [assert(sandbox->state == st)] at the call. *)
Definition in_state w (p : Z) (st : sandbox_state_t) : outcome unit :=
  s ← sb_get w p; assert (bool_decide (sb_state s = st)).

(** What the code runs for an event: the operation, with the assertion of the
    caller where the operation itself has none ([scheduler.h] for the
    dispatch, the two ways of resuming and the return from an interrupt,
    [current_sandbox_fini] for the return of the function). *)
Definition exec (ev : sandbox_event) w (p : Z) (now : Z) : outcome World :=
  match ev with
  | EvDispatch => in_state w p SANDBOX_INITIALIZED ;; sandbox_set_as_runnable w p SANDBOX_INITIALIZED now
  | EvResumeFast =>
    in_state w p SANDBOX_RUNNABLE ;;
    w ← current_sandbox_set w (Some p);
    sandbox_set_as_running_sys w p SANDBOX_RUNNABLE now
  | EvResumeSlow =>
    in_state w p SANDBOX_PREEMPTED ;;
    w ← current_sandbox_set w (Some p);
    sandbox_set_as_running_user w p SANDBOX_PREEMPTED now
  | EvReturn => sandbox_return w p now
  | EvSyscall => sandbox_syscall w p now
  | EvInterrupt => sandbox_interrupt w p now
  | EvInterruptReturn =>
    in_state w p SANDBOX_INTERRUPTED ;; sandbox_interrupt_return w p SANDBOX_RUNNING_USER now
  | EvPreempt => sandbox_preempt w p now
  | EvSleep => sandbox_sleep w p now
  | EvWakeup => sandbox_wakeup w p now
  | EvReturned =>
    in_state w p SANDBOX_RUNNING_SYS ;;
    sandbox_set_as_returned worker_thread_idx w p SANDBOX_RUNNING_SYS now
  | EvExitSuccess => sandbox_exit_success false w p now now now
  | EvExitError => sandbox_exit_error false worker_thread_idx w p now
  end.

(** What must hold besides the state: a sandbox is dispatched with its
    resources, resumed on a worker where nothing else has the processor, and the
    runqueue it enters accepts it. *)
Definition prepared w (s : sandbox) : Prop :=
  (exists m mem, modules w !! sb_module s = Some m /\ sb_memory s = Some mem /\ memory_usable m mem)
  /\ exists gs, globals_wf (sb_globals s) gs.

Definition idle w : Prop := forall q s, sandboxes w !! q = Some s -> running (sb_state s) = false.

Definition ready (ev : sandbox_event) w (l : list Z) (p : Z) (s : sandbox) : Prop :=
  match ev with
  | EvDispatch => prepared w s /\ rq_accepts (runqueue w) l p
  | EvWakeup => rq_accepts (runqueue w) l p
  | EvResumeFast | EvResumeSlow => idle w
  | _ => True
  end.

(** The outcome of a step: a world in order that differs in this sandbox, now
    in state [st] with its clock advanced, and in the responses [sent]. *)
Definition moves w (p : Z) (s : sandbox) (st : sandbox_state_t) (now : Z) (sent : list (Z * Z))
  (out : outcome World) : Prop :=
  exists w' l' s', out = Ret w' /\ wf w' l' /\ sandboxes w' = <[p := s']> (sandboxes w)
    /\ sb_state s' = st /\ last_state_change s' = now /\ allocation s' = allocation s
    /\ absolute_deadline s' = absolute_deadline s /\ sb_variant s' = sb_variant s
    /\ (unanswered st = true -> sb_http s' = sb_http s)
    /\ (running st = false -> current w' = current w)
    /\ (queued st = queued (sb_state s) -> runqueue w' = runqueue w /\ modules w' = modules w)
    /\ responses w' = responses w ++ sent.

(** ** One lemma per kind of step *)

Lemma move_ok w l p s st last_state now :
  wf w l -> sandboxes w !! p = Some s -> last_state_change s < now <= UINT64_MAX ->
  (executing st = true -> executing (sb_state s) = true) ->
  unanswered st = unanswered (sb_state s) -> queued st = queued (sb_state s) ->
  (running st = true -> current w = Some p /\ worker_deadline w = absolute_deadline s) ->
  wf (sb_put w p (accounted (set_sb_state s st) last_state now)) l.
Proof.
  intros W E Hn He Hu Hq Hr. pose proof (wf_sandbox _ _ _ W p s E) as Hok.
  eapply (wf_put _ w); eauto; try apply (wf_modules _ _ _ W).
  - by apply frame_same.
  - eapply sb_ok_frame; [|by apply sb_ok_move]. by apply frame_same.
Qed.

Lemma updates_wf w l p s :
  wf w l -> sandboxes w !! p = Some s ->
  exists w', sandbox_process_scheduler_updates w p = Ret w' /\ wf w' l
    /\ sandboxes w' = sandboxes w /\ responses w' = responses w
    /\ current w' = current w /\ runqueue w' = runqueue w /\ modules w' = modules w.
Proof.
  intros W E. pose proof (wf_sandbox _ _ _ W p s E) as Hok.
  destruct (process_updates_ok w p s E (ok_tenant _ _ _ Hok)) as (w' & Ew & Es & Eq & Em & Er & F).
  exists w'. split; [done|]. split; [|by destruct F].
  eapply (wf_put _ w w' l p s s); eauto.
  - intros k m. rewrite Em. apply (wf_modules _ _ _ W).
  - by rewrite Es, insert_id.
  - by eapply sb_ok_frame.
Qed.

(** The transitions that only write the state and do the accounting. *)
Lemma write_account_ok w l p s st last_state now :
  wf w l -> sandboxes w !! p = Some s -> last_state_change s < now <= UINT64_MAX ->
  (w1 ← write_state w p st; bookkeeping w1 p last_state now)
  = Ret (sb_put w p (accounted (set_sb_state s st) last_state now)).
Proof.
  intros W E Hn. rewrite (write_state_ok _ _ _ _ E). ostep.
  rewrite (bookkeeping_ok _ p (set_sb_state s st)).
  - by rewrite sb_put_put.
  - cbn. apply lookup_insert_eq.
  - apply times_ok_state. by apply (ok_times _ _ _ (wf_sandbox _ _ _ W p s E)).
  - done.
Qed.

Lemma assert_current_ok w p s :
  sandboxes w !! p = Some s -> current w = Some p -> worker_deadline w = absolute_deadline s ->
  assert_current w p = Ret tt.
Proof.
  intros E Hc Hd. unfold assert_current. rewrite bool_decide_true by done. ostep.
  rewrite (sb_get_ok _ _ _ E). ostep. by rewrite Hd, Z.eqb_refl.
Qed.

(** The parts of the world the invariant does not read. *)
Lemma wf_same w w' l :
  wf w l -> sandboxes w' = sandboxes w -> runqueue w' = runqueue w -> modules w' = modules w ->
  frame w w' -> wf w' l.
Proof.
  intros W Es Eq Em F.
  assert (Edl : forall q, sandbox_get_priority w' q = sandbox_get_priority w q)
    by (intros q; unfold sandbox_get_priority; by rewrite Es).
  split.
  - rewrite Eq. eapply rq_repr_ext; [|apply (wf_queue _ _ _ W)]. intros q _. by rewrite Edl.
  - apply (wf_nodup _ _ _ W).
  - rewrite Es. apply (wf_queued _ _ _ W).
  - rewrite Es. intros q sq Eqq. eapply sb_ok_frame; [exact F|]. by apply (wf_sandbox _ _ _ W).
  - intros k m. rewrite Em. apply (wf_modules _ _ _ W).
Qed.

(** Giving the processor of an idle worker to a sandbox. *)
Definition with_processor w (p : Z) (s : sandbox) (g : Z) : World :=
  set_worker_deadline (set_current (set_wasmg_0 w g) (Some p)) (absolute_deadline s).

Lemma current_set_ok w l p s :
  wf w l -> sandboxes w !! p = Some s -> executing (sb_state s) = true -> idle w ->
  exists g, current_sandbox_set w (Some p) = Ret (with_processor w p s g)
    /\ wf (with_processor w p s g) l.
Proof.
  intros W E He Hi. destruct (wf_sandbox _ _ _ W p s E) as [_ (m & Em & Hm) Hg _ _ _ _ _].
  destruct (Hm He) as (mem & Emem & _). destruct (Hg He) as (gs & Hgs).
  assert (exists g0, gs !! 0%nat = Some g0) as [g0 E0].
  { destruct Hgs as (_ & Hp & Hl & _). apply lookup_lt_is_Some_2. lia. }
  destruct (global_read_ok _ _ _ _ Hgs E0) as [Eg Er].
  unfold current_sandbox_set. rewrite (sb_get_ok _ _ _ E). ostep. rewrite Emem. ostep.
  unfold module_at. rewrite Em. ostep. unfold wasm_globals_update_if_used, global_at. rewrite Eg, Er. ostep.
  assert (Hw : forall g, wf (with_processor w p s g) l); [|destruct (decide _); eauto].
  intros g. split; try apply W. cbn. intros q sq Eq. specialize (Hi q sq Eq).
  destruct (wf_sandbox _ _ _ W q sq Eq) as [? ? ? ? ? ? ? ?]. split; try done. congruence.
Qed.

(** The common shape of the results. *)
Lemma moves_intro w w' l p s s' st now sent :
  wf w' l -> sandboxes w' = <[p := s']> (sandboxes w) -> sb_state s' = st ->
  last_state_change s' = now -> allocation s' = allocation s ->
  absolute_deadline s' = absolute_deadline s -> sb_variant s' = sb_variant s ->
  (unanswered st = true -> sb_http s' = sb_http s) ->
  (running st = false -> current w' = current w) ->
  (queued st = queued (sb_state s) -> runqueue w' = runqueue w /\ modules w' = modules w) -> responses w' = responses w ++ sent ->
  moves w p s st now sent (Ret w').
Proof. intros. by exists w', l, s'. Qed.

(** Accounting, and charging the tenant. *)
Lemma moves_updates w l p s st last_state now :
  wf (sb_put w p (accounted (set_sb_state s st) last_state now)) l ->
  moves w p s st now [] (sandbox_process_scheduler_updates
    (sb_put w p (accounted (set_sb_state s st) last_state now)) p).
Proof.
  intros W. destruct (updates_wf _ l p (accounted (set_sb_state s st) last_state now) W)
    as (w' & -> & W' & Es & Er & Ec & Eq); [apply lookup_insert_eq|].
  eapply (moves_intro w w' l p s); [exact W' | exact Es | done..| by rewrite Er, app_nil_r].
Qed.

Lemma moves_put w l p s st last_state now :
  wf (sb_put w p (accounted (set_sb_state s st) last_state now)) l ->
  moves w p s st now [] (Ret (sb_put w p (accounted (set_sb_state s st) last_state now))).
Proof. intros W. eapply moves_intro; [exact W | done..| by rewrite app_nil_r]. Qed.

(** ** The running states *)

Lemma syscall_ok w l p s now :
  wf w l -> sandboxes w !! p = Some s -> last_state_change s < now <= UINT64_MAX ->
  sb_state s = SANDBOX_RUNNING_USER ->
  moves w p s SANDBOX_RUNNING_SYS now [] (sandbox_syscall w p now).
Proof.
  intros W E Hn Hs. pose proof (wf_sandbox _ _ _ W p s E) as Hok.
  destruct (ok_running _ _ _ Hok) as [Hc Hd]; [by rewrite Hs|].
  unfold sandbox_syscall. rewrite (sb_get_ok _ _ _ E). ostep. rewrite bool_decide_true by done. ostep.
  unfold sandbox_set_as_running_sys.
  pose proof (write_account_ok w l p s SANDBOX_RUNNING_SYS SANDBOX_RUNNING_USER now W E Hn) as Ewa.
  rewrite (write_state_ok _ _ _ _ E) in Ewa |- *. revert Ewa. ostep. intros Ewa.
  rewrite (assert_current_ok _ p (set_sb_state s SANDBOX_RUNNING_SYS)) by (done || apply lookup_insert_eq).
  ostep. rewrite Ewa. ostep. eapply moves_updates, move_ok; eauto; by rewrite ?Hs.
Qed.

Lemma interrupt_ok w l p s now :
  wf w l -> sandboxes w !! p = Some s -> last_state_change s < now <= UINT64_MAX ->
  sb_state s = SANDBOX_RUNNING_USER ->
  moves w p s SANDBOX_INTERRUPTED now [] (sandbox_interrupt w p now).
Proof.
  intros W E Hn Hs. pose proof (wf_sandbox _ _ _ W p s E) as Hok.
  destruct (ok_running _ _ _ Hok) as [Hc Hd]; [by rewrite Hs|].
  unfold sandbox_interrupt, sandbox_set_as_interrupted. rewrite (sb_get_ok _ _ _ E). ostep.
  rewrite (write_account_ok w l p s) by done. ostep.
  eapply moves_updates, move_ok; eauto; by rewrite ?Hs.
Qed.

Lemma preempt_ok w l p s now :
  wf w l -> sandboxes w !! p = Some s -> last_state_change s < now <= UINT64_MAX ->
  sb_state s = SANDBOX_INTERRUPTED ->
  moves w p s SANDBOX_PREEMPTED now [] (sandbox_preempt w p now).
Proof.
  intros W E Hn Hs. unfold sandbox_preempt, sandbox_set_as_preempted. rewrite (sb_get_ok _ _ _ E). ostep.
  rewrite bool_decide_true by done. ostep. rewrite (write_account_ok w l p s) by done.
  eapply moves_put, move_ok; eauto; by rewrite ?Hs.
Qed.

Lemma resume_fast_ok w l p s now :
  wf w l -> sandboxes w !! p = Some s -> last_state_change s < now <= UINT64_MAX ->
  sb_state s = SANDBOX_RUNNABLE -> idle w ->
  moves w p s SANDBOX_RUNNING_SYS now [] (exec EvResumeFast w p now).
Proof.
  intros W E Hn Hs Hi. unfold exec, in_state. rewrite (sb_get_ok _ _ _ E). ostep.
  rewrite bool_decide_true by done. ostep.
  destruct (current_set_ok w l p s W E) as (g & -> & W'); [by rewrite Hs | done |]. ostep.
  unfold sandbox_set_as_running_sys. rewrite (write_account_ok (with_processor w p s g) l p s) by done.
  eapply moves_intro; [eapply move_ok; [exact W' | done..| | | |]; by rewrite ?Hs | done..| by rewrite app_nil_r].
Qed.

Lemma wf_replay w l : wf w l -> wf (software_interrupt_deferred_sigalrm_replay w) l.
Proof.
  intros W. unfold software_interrupt_deferred_sigalrm_replay. destruct (0 <? deferred_sigalrm w); [|done].
  by apply (wf_same w); [|..|apply frame_same].
Qed.

Lemma replay_same w :
  sandboxes (software_interrupt_deferred_sigalrm_replay w) = sandboxes w
  /\ responses (software_interrupt_deferred_sigalrm_replay w) = responses w
  /\ runqueue (software_interrupt_deferred_sigalrm_replay w) = runqueue w
  /\ modules (software_interrupt_deferred_sigalrm_replay w) = modules w.
Proof. unfold software_interrupt_deferred_sigalrm_replay. by destruct (0 <? deferred_sigalrm w). Qed.

(** Entering user code: the accounting comes first, the state last. *)
Lemma enter_user_ok w l p s :
  wf w l -> sandboxes w !! p = Some s ->
  executing (sb_state s) = true -> queued (sb_state s) = true -> unanswered (sb_state s) = true ->
  current w = Some p -> worker_deadline w = absolute_deadline s ->
  exists w', (w1 ← write_state w p SANDBOX_RUNNING_USER;
              Ret (software_interrupt_deferred_sigalrm_replay w1)) = Ret w'
    /\ wf w' l /\ sandboxes w' = <[p := set_sb_state s SANDBOX_RUNNING_USER]> (sandboxes w)
    /\ responses w' = responses w /\ runqueue w' = runqueue w /\ modules w' = modules w.
Proof.
  intros W E He Hq Hu Hc Hd. rewrite (write_state_ok _ _ _ _ E). ostep. eexists. split; [done|].
  destruct (replay_same (sb_put w p (set_sb_state s SANDBOX_RUNNING_USER))) as (-> & -> & -> & ->).
  split; [|done]. apply wf_replay.
  destruct (wf_sandbox _ _ _ W p s E) as [T M G Ht Hr Hh Hd' Hrun].
  eapply (wf_put _ w _ l p s); eauto; [by apply frame_same | apply W |].
  split; cbn; auto using times_ok_state.
  - destruct M as (m & Em & Hm). eauto.
  - by rewrite Hh, Hu.
Qed.

Lemma resume_slow_ok w l p s now :
  wf w l -> sandboxes w !! p = Some s -> last_state_change s < now <= UINT64_MAX ->
  sb_state s = SANDBOX_PREEMPTED -> idle w ->
  moves w p s SANDBOX_RUNNING_USER now [] (exec EvResumeSlow w p now).
Proof.
  intros W E Hn Hs Hi. unfold exec, in_state. rewrite (sb_get_ok _ _ _ E). ostep.
  rewrite bool_decide_true by done. ostep.
  destruct (current_set_ok w l p s W E) as (g & -> & W'); [by rewrite Hs | done |]. ostep.
  unfold sandbox_set_as_running_user. ostep.
  assert (T : times_ok s) by apply (wf_sandbox _ _ _ W p s E).
  rewrite (bookkeeping_ok _ p s) by done. ostep. rewrite decide_False by done. ostep.
  assert (W1 : wf (sb_put (with_processor w p s g) p (accounted s SANDBOX_PREEMPTED now)) l).
  { replace (accounted s SANDBOX_PREEMPTED now)
      with (accounted (set_sb_state s (sb_state s)) SANDBOX_PREEMPTED now) by (by destruct s).
    eapply move_ok; eauto. }
  destruct (enter_user_ok _ l p (accounted s SANDBOX_PREEMPTED now) W1)
    as (w' & Ew & W2 & Es & Er & Eq); try done; cbn; try (by rewrite Hs); [apply lookup_insert_eq|].
  rewrite Ew. apply (moves_intro w w' l p s (set_sb_state (accounted s SANDBOX_PREEMPTED now) SANDBOX_RUNNING_USER));
    [exact W2| |done..|].
  - rewrite Es. cbn. by rewrite insert_insert_eq.
  - rewrite Er. cbn. by rewrite app_nil_r.
Qed.

Lemma return_ok w l p s now :
  wf w l -> sandboxes w !! p = Some s -> last_state_change s < now <= UINT64_MAX ->
  sb_state s = SANDBOX_RUNNING_SYS ->
  moves w p s SANDBOX_RUNNING_USER now [] (sandbox_return w p now).
Proof.
  intros W E Hn Hs. pose proof (wf_sandbox _ _ _ W p s E) as Hok.
  destruct (ok_running _ _ _ Hok) as [Hc Hd]; [by rewrite Hs|].
  unfold sandbox_return. rewrite (sb_get_ok _ _ _ E). ostep. rewrite bool_decide_true by done. ostep.
  unfold sandbox_set_as_running_user. rewrite (assert_current_ok _ p s) by done. ostep.
  rewrite (bookkeeping_ok _ p s) by (done || apply Hok). ostep. rewrite decide_True by done.
  assert (W1 : wf (sb_put w p (accounted s SANDBOX_RUNNING_SYS now)) l).
  { replace (accounted s SANDBOX_RUNNING_SYS now)
      with (accounted (set_sb_state s (sb_state s)) SANDBOX_RUNNING_SYS now) by (by destruct s).
    eapply move_ok; eauto. }
  destruct (process_updates_ok (sb_put w p (accounted s SANDBOX_RUNNING_SYS now)) p
              (accounted s SANDBOX_RUNNING_SYS now) (lookup_insert_eq _ _ _))
    as (w2 & -> & Es2 & Eq2 & Em2 & Er2 & F2); [apply Hok|]. ostep.
  assert (W2 : wf w2 l) by (by apply (wf_same _ w2 l W1)).
  destruct (enter_user_ok w2 l p (accounted s SANDBOX_RUNNING_SYS now) W2)
    as (w' & Ew & W3 & Es & Er & Eq & Em); try done; cbn; try (by rewrite Hs).
  - rewrite Es2. apply lookup_insert_eq.
  - by rewrite (frame_current _ _ F2).
  - by rewrite (frame_deadline _ _ F2).
  - rewrite Ew. apply (moves_intro w w' l p s (set_sb_state (accounted s SANDBOX_RUNNING_SYS now) SANDBOX_RUNNING_USER));
      [exact W3| |done..| |].
    + rewrite Es, Es2. cbn. by rewrite insert_insert_eq.
    + intros _. by rewrite Eq, Eq2, Em, Em2.
    + rewrite Er, Er2. cbn. by rewrite app_nil_r.
Qed.

Lemma interrupt_return_ok w l p s now :
  wf w l -> sandboxes w !! p = Some s -> last_state_change s < now <= UINT64_MAX ->
  sb_state s = SANDBOX_INTERRUPTED ->
  moves w p s SANDBOX_RUNNING_USER now [] (exec EvInterruptReturn w p now).
Proof.
  intros W E Hn Hs. pose proof (wf_sandbox _ _ _ W p s E) as Hok.
  destruct (ok_running _ _ _ Hok) as [Hc Hd]; [by rewrite Hs|].
  destruct (elapse_ok s SANDBOX_INTERRUPTED now (ok_times _ _ _ Hok)) as (old & Eo & Eu & El & Hrest); [lia|].
  unfold exec, in_state, sandbox_interrupt_return. rewrite (sb_get_ok _ _ _ E). ostep.
  rewrite (bool_decide_true (sb_state s = _)) by done. ostep.
  rewrite bool_decide_false by done. cbn [negb]. ostep.
  rewrite Eo. ostep. rewrite Eu, <- El.
  set (s' := set_sb_state (set_last_state_change (set_duration_of_state s (elapse s SANDBOX_INTERRUPTED now)) now)
               SANDBOX_RUNNING_USER).
  apply (moves_intro w (sb_put w p s') l p s s'); try done; [|by rewrite app_nil_r].
  destruct Hok as [T M G Ht Hr Hh Hdl Hrun].
  eapply (wf_put _ w _ l p s s'); eauto; [by apply frame_same | apply W | | by rewrite Hs].
  destruct T, Hrest as (? & ? & ?). split; cbn; auto; [split; cbn; (done || lia)| | |]; rewrite Hs in *; auto.
Qed.

(** ** The runqueue *)

Lemma wf_enqueued w l p s s' q' :
  wf w l -> sandboxes w !! p = Some s -> absolute_deadline s' = absolute_deadline s ->
  queued (sb_state s') = true -> sb_ok w p s' ->
  rq_repr (sandbox_get_priority w) q' (p :: l) -> p ∉ l ->
  wf (sb_put (set_runqueue w q') p s') (p :: l).
Proof.
  intros W E Ed Hq Hok R Hn. eapply (wf_update _ w _ l _ p s s'); eauto; try done; try apply W.
  - by apply frame_same.
  - eapply sb_ok_frame; [|exact Hok]. by apply frame_same.
  - constructor; [done | apply W].
  - intros q Hne. rewrite elem_of_cons. split; [by intros [?|?] | by right].
  - split; [done | constructor].
Qed.

Lemma wf_dequeued w w' l l' p s s' :
  wf w l -> sandboxes w !! p = Some s -> absolute_deadline s' = absolute_deadline s ->
  queued (sb_state s') = false -> sb_ok w' p s' -> frame w w' -> modules_wf worker_thread_idx w' ->
  sandboxes w' = <[p := s']> (sandboxes w) ->
  rq_repr (sandbox_get_priority w) (runqueue w') l' -> l ≡ₚ p :: l' -> p ∉ l' ->
  wf w' l'.
Proof.
  intros W E Ed Hq Hok F M Es R P Hn. eapply (wf_update _ w w' l l' p s s'); eauto.
  - pose proof (wf_nodup _ _ _ W) as Hnd. rewrite P in Hnd. by inversion Hnd.
  - intros q Hne. rewrite P, elem_of_cons. split; [by right | by intros [?|?]].
  - by rewrite Hq.
Qed.

(** Both ways of becoming runnable end alike: [s1] is the sandbox with its new
    state written (and its dispatch time, the first time). *)
Lemma runnable_ok w l p s s1 last_state now :
  wf w l -> sandboxes w !! p = Some s -> last_state_change s < now <= UINT64_MAX ->
  queued (sb_state s) = false -> rq_accepts (runqueue w) l p -> sb_state s1 = SANDBOX_RUNNABLE ->
  absolute_deadline s1 = absolute_deadline s -> last_state_change s1 = last_state_change s ->
  allocation s1 = allocation s -> sb_http s1 = sb_http s -> sb_variant s1 = sb_variant s ->
  sb_ok w p (accounted s1 last_state now) -> times_ok s1 ->
  moves w p s SANDBOX_RUNNABLE now []
    (w1 ← runqueue_add (sb_put w p s1) p; bookkeeping w1 p last_state now).
Proof.
  intros W E Hn Hq Hacc Hs1 Ed El Ea Eh Ev Hok T.
  destruct (runqueue_add_ok _ w l p s W E Hq Hacc s1 Ed) as (q' & -> & R & Hni). ostep.
  rewrite (bookkeeping_ok _ p s1); [|apply lookup_insert_eq | done | by rewrite El].
  apply (moves_intro w _ (p :: l) p s (accounted s1 last_state now)); try done; [| |by rewrite Hq|by rewrite app_nil_r].
  - replace (sb_put (set_runqueue (sb_put w p s1) q') p (accounted s1 last_state now))
      with (sb_put (set_runqueue w q') p (accounted s1 last_state now))
      by (unfold sb_put, set_sandboxes, set_runqueue; cbn; by rewrite insert_insert_eq).
    eapply wf_enqueued; eauto. cbn. by rewrite Hs1.
  - cbn. by rewrite insert_insert_eq.
Qed.

Lemma sb_ok_runnable w p s s1 last_state now :
  sb_ok w p s -> last_state_change s < now <= UINT64_MAX ->
  s1 = set_sb_state s SANDBOX_RUNNABLE \/ s1 = set_dispatched (set_sb_state s SANDBOX_RUNNABLE) now ->
  prepared w s -> unanswered (sb_state s) = true ->
  sb_ok w p (accounted s1 last_state now) /\ times_ok s1.
Proof.
  intros [T M G Ht Hr Hh Hd Hrun] Hn Hs1 [(m & mem & Em & Emem & Hm) Hg] Hu.
  assert (T1 : times_ok s1) by (destruct Hs1 as [-> | ->]; by destruct T; split).
  split; [|done]. pose proof (proj2 (account_ok s1 last_state now T1 ltac:(destruct Hs1; subst; done))) as T2.
  destruct Hs1 as [-> | ->]; (split; [exact T2|cbn; eauto..]; [by rewrite Hh, Hu | done]).
Qed.

Lemma prepared_executing w p s : sb_ok w p s -> executing (sb_state s) = true -> prepared w s.
Proof.
  intros [_ (m & Em & Hm) Hg _ _ _ _ _] He. split; [|auto].
  destruct (Hm He) as (mem & ? & ?). by exists m, mem.
Qed.

Lemma dispatch_ok w l p s now :
  wf w l -> sandboxes w !! p = Some s -> last_state_change s < now <= UINT64_MAX ->
  sb_state s = SANDBOX_INITIALIZED -> prepared w s /\ rq_accepts (runqueue w) l p ->
  moves w p s SANDBOX_RUNNABLE now [] (exec EvDispatch w p now).
Proof.
  intros W E Hn Hs [Hp Hacc]. unfold exec, in_state, sandbox_set_as_runnable. rewrite (sb_get_ok _ _ _ E). ostep.
  rewrite bool_decide_true by done. ostep. rewrite (write_state_ok _ _ _ _ E). ostep.
  rewrite sb_get_put. ostep. rewrite sb_put_put.
  destruct (sb_ok_runnable w p s (set_dispatched (set_sb_state s SANDBOX_RUNNABLE) now)
              SANDBOX_INITIALIZED now) as [Hok T]; auto; [apply (wf_sandbox _ _ _ W p s E) | by rewrite Hs|].
  eapply runnable_ok; eauto. by rewrite Hs.
Qed.

Lemma wakeup_ok w l p s now :
  wf w l -> sandboxes w !! p = Some s -> last_state_change s < now <= UINT64_MAX ->
  sb_state s = SANDBOX_ASLEEP -> rq_accepts (runqueue w) l p ->
  moves w p s SANDBOX_RUNNABLE now [] (sandbox_wakeup w p now).
Proof.
  intros W E Hn Hs Hacc. pose proof (wf_sandbox _ _ _ W p s E) as Hok0.
  unfold sandbox_wakeup, sandbox_set_as_runnable. rewrite (sb_get_ok _ _ _ E). ostep.
  rewrite bool_decide_true by done. ostep. rewrite (write_state_ok _ _ _ _ E). ostep.
  destruct (sb_ok_runnable w p s (set_sb_state s SANDBOX_RUNNABLE) SANDBOX_ASLEEP now)
    as [Hok T]; auto; [eapply prepared_executing; [done|] | |]; rewrite ?Hs; try done.
  eapply runnable_ok; eauto. by rewrite Hs.
Qed.

Lemma sleep_ok w l p s now :
  wf w l -> sandboxes w !! p = Some s -> last_state_change s < now <= UINT64_MAX ->
  sb_state s = SANDBOX_RUNNING_SYS ->
  moves w p s SANDBOX_ASLEEP now [] (sandbox_sleep w p now).
Proof.
  intros W E Hn Hs. pose proof (wf_sandbox _ _ _ W p s E) as Hok.
  unfold sandbox_sleep, sandbox_set_as_asleep. rewrite (sb_get_ok _ _ _ E). ostep.
  rewrite bool_decide_true by done. ostep. rewrite (write_state_ok _ _ _ _ E). ostep.
  destruct (runqueue_delete_ok _ w l p s W E ltac:(by rewrite Hs) (set_sb_state s SANDBOX_ASLEEP) eq_refl)
    as (q' & l' & -> & R & P & Hni). ostep.
  rewrite (bookkeeping_ok _ p (set_sb_state s SANDBOX_ASLEEP));
    [|apply lookup_insert_eq | apply times_ok_state, Hok | done].
  set (s' := accounted _ _ _).
  apply (moves_intro w _ l' p s s'); try done; [| |by rewrite Hs|by rewrite app_nil_r].
  - apply (wf_dequeued w _ l l' p s s'); try done; try apply W; [| |by cbn; rewrite insert_insert_eq].
    + eapply sb_ok_frame; [|apply sb_ok_move; [exact Hok|done|..]; by rewrite ?Hs]. by apply frame_same.
    + by apply frame_same.
  - cbn. by rewrite insert_insert_eq.
Qed.

(** Leaving the runqueue for good: the memory goes back to its module. *)
Lemma release_ok w l p s st last_state now :
  wf w l -> sandboxes w !! p = Some s -> last_state_change s < now <= UINT64_MAX ->
  queued (sb_state s) = true ->
  exists w' l',
    (w1 ← (w1 ← runqueue_delete (sb_put w p (set_sb_state s st)) p;
           sandbox_free_linear_memory worker_thread_idx w1 p);
     bookkeeping w1 p last_state now) = Ret w'
    /\ sandboxes w' = <[p := set_sb_memory (accounted (set_sb_state s st) last_state now) None]> (sandboxes w)
    /\ rq_repr (sandbox_get_priority w) (runqueue w') l' /\ l ≡ₚ p :: l' /\ (p ∉ l')
    /\ responses w' = responses w /\ frame w w' /\ modules_wf worker_thread_idx w'.
Proof.
  intros W E Hn Hq. pose proof (wf_sandbox _ _ _ W p s E) as [T (m & Em & Hm) _ _ _ _ _ _].
  destruct (Hm ltac:(by destruct (sb_state s))) as (mem & Emem & Hu).
  destruct (runqueue_delete_ok _ w l p s W E Hq (set_sb_state s st) eq_refl) as (q' & l' & -> & R & P & Hni).
  ostep. set (w1 := set_runqueue _ _).
  destruct (free_memory_ok worker_thread_idx w1 p (set_sb_state s st) m mem) as (w2 & -> & Es & Eq & Er & F & M);
    try done; [apply lookup_insert_eq | apply W|]. ostep.
  rewrite (bookkeeping_ok _ p (set_sb_memory (set_sb_state s st) None));
    [|rewrite Es; apply lookup_insert_eq | by destruct T; split | done].
  eexists _, l'. split; [done|]. split; [cbn; rewrite Es; cbn; by rewrite !insert_insert_eq|].
  split; [cbn; by rewrite Eq|]. do 2 (split; [done|]). split; [by cbn; rewrite Er|]. split; [|exact M].
  destruct F. by split.
Qed.

(** A sandbox that has given everything back. *)
Lemma sb_ok_released w w' p s st last_state now :
  sb_ok w p s -> frame w w' -> last_state_change s < now <= UINT64_MAX ->
  executing st = false -> unanswered st = false ->
  sb_ok w' p (set_sb_http (set_sb_memory (accounted (set_sb_state s st) last_state now) None) None).
Proof.
  intros [T (m & Em & Hm) _ Ht Hr _ Hd _] F Hn He Hu. destruct F as [Fm Ft Fr _ _].
  destruct (account_ok (set_sb_state s st) last_state now) as [_ T2]; [by apply times_ok_state | done |].
  split; cbn; auto.
  - by destruct T2; split.
  - destruct (Fm _ _ Em) as (m' & Em' & _). exists m'. split; [done | congruence].
  - congruence.
  - rewrite Hu. split; [by intros [] | done].
  - by destruct st.
Qed.

Lemma respond_ok w p s status session :
  sandboxes w !! p = Some s -> sb_http s = Some session ->
  respond w p status
  = Ret (sb_put (set_responses w (responses w ++ [(session, status)])) p (set_sb_http s None)).
Proof. intros E Eh. unfold respond. rewrite (sb_get_ok _ _ _ E). ostep. by rewrite Eh. Qed.

(** After the memory: the response, and the charge to the tenant. *)
Lemma finish_ok w l p s st last_state now status session :
  wf w l -> sandboxes w !! p = Some s -> last_state_change s < now <= UINT64_MAX ->
  queued (sb_state s) = true -> sb_http s = Some session ->
  executing st = false -> unanswered st = false ->
  moves w p s st now [(session, status)]
    (w1 ← (w1 ← runqueue_delete (sb_put w p (set_sb_state s st)) p;
           sandbox_free_linear_memory worker_thread_idx w1 p);
     w1 ← bookkeeping w1 p last_state now;
     w1 ← respond w1 p status;
     sandbox_process_scheduler_updates w1 p).
Proof.
  intros W E Hn Hq Eh He Hu.
  destruct (release_ok w l p s st last_state now W E Hn Hq) as (w1 & l' & Ew & Es & R & P & Hni & Er & F & M).
  apply bind_Ret_inv in Ew as (w0 & E0 & Ew). rewrite E0. ostep. rewrite Ew. ostep.
  set (s1 := set_sb_memory _ None) in Es.
  assert (E1 : sandboxes w1 !! p = Some s1) by (rewrite Es; apply lookup_insert_eq).
  rewrite (respond_ok w1 p s1 status session E1 Eh). ostep.
  set (w2 := sb_put _ p _).
  assert (W2 : wf w2 l').
  { apply (wf_dequeued w w2 l l' p s (set_sb_http s1 None)); try done.
    - by destruct st.
    - apply (sb_ok_released w); try done; [by apply (wf_sandbox _ _ _ W)|]. by destruct F; split.
    - by destruct F; split.
    - cbn. by rewrite Es, insert_insert_eq. }
  destruct (updates_wf w2 l' p (set_sb_http s1 None) W2) as (w3 & -> & W3 & Es3 & Er3 & Ec3 & _);
    [apply lookup_insert_eq|].
  apply (moves_intro w w3 l' p s (set_sb_http s1 None)); try done.
  - rewrite Es3. cbn. by rewrite Es, insert_insert_eq.
  - congruence.
  - intros _. rewrite Ec3. cbn. apply F.
  - rewrite Hq. by destruct st.
  - rewrite Er3. cbn. by rewrite Er.
Qed.

Lemma returned_ok w l p s now session :
  wf w l -> sandboxes w !! p = Some s -> last_state_change s < now <= UINT64_MAX ->
  sb_state s = SANDBOX_RUNNING_SYS -> sb_http s = Some session ->
  moves w p s SANDBOX_RETURNED now [(session, 200)] (exec EvReturned w p now).
Proof.
  intros W E Hn Hs Eh. unfold exec, in_state, sandbox_set_as_returned. rewrite (sb_get_ok _ _ _ E). ostep.
  rewrite bool_decide_true by done. ostep. rewrite (write_state_ok _ _ _ _ E). ostep.
  eapply finish_ok; eauto. by rewrite Hs.
Qed.

Lemma exit_error_ok w l p s now session :
  wf w l -> sandboxes w !! p = Some s -> last_state_change s < now <= UINT64_MAX ->
  sb_state s = SANDBOX_RUNNING_SYS -> sb_http s = Some session ->
  moves w p s SANDBOX_ERROR now [(session, 500)] (exec EvExitError w p now).
Proof.
  intros W E Hn Hs Eh. unfold exec, sandbox_exit_error, sandbox_set_as_error.
  rewrite (sb_get_ok _ _ _ E). ostep.
  rewrite bool_decide_true by done. ostep. rewrite (write_state_ok _ _ _ _ E). ostep.
  pose proof (finish_ok w l p s SANDBOX_ERROR SANDBOX_RUNNING_SYS now 500 session W E Hn
                ltac:(by rewrite Hs) Eh eq_refl eq_refl) as Hf.
  destruct (release_ok w l p s SANDBOX_ERROR SANDBOX_RUNNING_SYS now W E Hn ltac:(by rewrite Hs))
    as (w1 & l' & Ew & Es & _).
  apply bind_Ret_inv in Ew as (w0 & E0 & Ew). rewrite E0 in Hf |- *. revert Hf. ostep.
  rewrite Ew. ostep. unfold sb_get. rewrite Es, lookup_insert_eq. ostep.
  unfold admissions_control_subtract. ostep.
  replace (set_admitted w1 (admitted w1)) with w1 by (by destruct w1). done.
Qed.

Lemma exit_success_ok w l p s now :
  wf w l -> sandboxes w !! p = Some s -> last_state_change s < now <= UINT64_MAX ->
  sb_state s = SANDBOX_RETURNED ->
  moves w p s SANDBOX_COMPLETE now [] (exec EvExitSuccess w p now).
Proof.
  intros W E Hn Hs. pose proof (wf_sandbox _ _ _ W p s E) as Hok.
  unfold exec, sandbox_exit_success, sandbox_set_as_complete. rewrite (sb_get_ok _ _ _ E). ostep.
  rewrite bool_decide_true by done. ostep. rewrite (write_state_ok _ _ _ _ E). ostep.
  rewrite sb_get_put. ostep. rewrite sb_put_put.
  set (s1 := set_completion _ now).
  assert (T1 : times_ok s1) by (destruct (ok_times _ _ _ Hok); by split).
  rewrite (bookkeeping_ok _ p s1); [|apply lookup_insert_eq | done | done]. ostep.
  rewrite sb_put_put, sb_get_put. ostep.
  destruct (account_ok s1 SANDBOX_RETURNED now T1 Hn) as [_ T2].
  assert (Hd : forall st, exists d, duration_of_state (accounted s1 SANDBOX_RETURNED now) !! state_index st = Some d).
  { intros st. apply lookup_lt_is_Some_2. rewrite (times_len _ T2). apply state_index_lt. }
  destruct (Hd SANDBOX_RUNNING_USER) as [user ->]. ostep. destruct (Hd SANDBOX_RUNNING_SYS) as [sys ->]. ostep.
  destruct Hok as [T (m & Em & Hm) Hg Ht [r Er] Hh Hdl Hrun].
  unfold route_at. cbn [sb_put set_sandboxes routes]. change (sb_route (accounted s1 SANDBOX_RETURNED now)) with (sb_route s).
  rewrite Er. ostep. unfold admissions_info_update, admissions_control_subtract. ostep.
  set (w1 := set_admitted _ _). set (s2 := accounted s1 SANDBOX_RETURNED now) in *.
  apply (moves_intro w w1 l p s s2); try done; [|cbn; by rewrite app_nil_r].
  assert (F : frame w w1).
  { split; cbn; eauto. intros k Hk. destruct (decide (k = sb_route s)) as [->|Hne].
    - rewrite lookup_insert_eq. eauto.
    - by rewrite lookup_insert_ne. }
  eapply (wf_put _ w w1 l p s s2); try done; [apply W | | by cbn; rewrite Hs].
  eapply sb_ok_frame; [exact F|]. split; cbn; eauto; try done.
  - exists m. split; [done | congruence].
  - by rewrite Hh, Hs.
Qed.

(** ** The diagram *)

Ltac next_step :=
  first [eapply dispatch_ok | eapply resume_fast_ok | eapply resume_slow_ok | eapply return_ok
        | eapply syscall_ok | eapply interrupt_ok | eapply interrupt_return_ok | eapply preempt_ok
        | eapply sleep_ok | eapply wakeup_ok | eapply exit_success_ok]; eassumption.

Lemma step_ok w l p s ev now st :
  wf w l -> sandboxes w !! p = Some s -> last_state_change s < now <= UINT64_MAX -> ready ev w l p s ->
  allowed (sb_state s) ev = Some st ->
  moves w p s st now (answer ev s) (exec ev w p now).
Proof.
  intros W E Hn Hr Ha. pose proof (ok_http _ _ _ (wf_sandbox _ _ _ W p s E)) as Hh.
  destruct ev; destruct (sb_state s) eqn:Hs; try discriminate Ha; injection Ha as <-; try next_step.
  - destruct (proj2 Hh eq_refl) as [session Eh]. unfold answer. rewrite Eh. by eapply returned_ok.
  - destruct (proj2 Hh eq_refl) as [session Eh]. unfold answer. rewrite Eh. by eapply exit_error_ok.
Qed.

(** C8: the sandbox code implements its state diagram.  In a world in order,
    an event the diagram allows succeeds; the new world is in order (times add
    up, resources match states, the runqueue holds exactly the sandboxes in
    runnable or running states), only this sandbox changed, it is in the
    diagram's next state with its clock at [now], and the client got the
    response of the event, if it has one.  Any other event stops at an
    assertion; only the timer interrupt relies on its caller's guard instead. *)
Theorem sandbox_step_spec w l p s ev now :
  wf w l -> sandboxes w !! p = Some s -> last_state_change s < now <= UINT64_MAX -> ready ev w l p s ->
  match allowed (sb_state s) ev with
  | Some st => moves w p s st now (answer ev s) (exec ev w p now)
  | None => ev = EvInterrupt \/ exec ev w p now = Stop AssertFail
  end.
Proof.
  intros W E Hn Hr. destruct (allowed (sb_state s) ev) as [st|] eqn:Ha.
  - by eapply step_ok.
  - destruct ev; try (by left); right; cbn [exec];
      unfold sandbox_return, sandbox_syscall, sandbox_preempt, sandbox_sleep, sandbox_wakeup,
        sandbox_exit_success, sandbox_exit_error, in_state;
      rewrite (sb_get_ok _ _ _ E); ostep; destruct (sb_state s); done.
Qed.

(** ** Runs *)

Fixpoint path (st : sandbox_state_t) (evs : list sandbox_event) : option sandbox_state_t :=
  match evs with
  | [] => Some st
  | ev :: evs => match allowed st ev with Some st => path st evs | None => None end
  end.

Fixpoint run w (p : Z) (tr : list (sandbox_event * Z)) : outcome World :=
  match tr with
  | [] => Ret w
  | (ev, now) :: tr => w ← exec ev w p now; run w p tr
  end.

Fixpoint clock_from (t : Z) (tr : list (sandbox_event * Z)) : Prop :=
  match tr with
  | [] => True
  | (_, now) :: tr => t < now <= UINT64_MAX /\ clock_from now tr
  end.

Definition clock_end (t : Z) (tr : list (sandbox_event * Z)) : Z := foldl (fun _ x => x.2) t tr.

(** What the client of a sandbox in state [st] with session [http] still gets
    on the way to state [st']. *)
Definition reply (st st' : sandbox_state_t) (http : option Z) : list (Z * Z) :=
  match http with
  | Some session =>
    if unanswered st && negb (unanswered st')
    then [(session, if decide (st' = SANDBOX_ERROR) then 500 else 200)] else []
  | None => []
  end.

(** Once answered, a sandbox stays answered, and an error stays an error. *)
Lemma path_answered st evs st' :
  unanswered st = false -> path st evs = Some st' ->
  unanswered st' = false /\ (st' = SANDBOX_ERROR <-> st = SANDBOX_ERROR).
Proof.
  revert st. induction evs as [|ev evs IH]; intros st Hu Hp; cbn in Hp.
  - injection Hp as ->. done.
  - destruct (allowed st ev) as [st1|] eqn:Ha; [|done].
    assert (unanswered st1 = false /\ (st1 = SANDBOX_ERROR <-> st = SANDBOX_ERROR)) as [H1' H2'].
    { destruct ev, st; try discriminate; injection Ha as <-; done. }
    destruct (IH st1 H1' Hp) as [H3 H4]. split; [done|]. by rewrite H4.
Qed.

Lemma reply_step st ev st1 evs st' s http1 :
  allowed st ev = Some st1 -> path st1 evs = Some st' ->
  (is_Some (sb_http s) <-> unanswered st = true) -> (is_Some http1 <-> unanswered st1 = true) ->
  (unanswered st1 = true -> http1 = sb_http s) ->
  answer ev s ++ reply st1 st' http1 = reply st st' (sb_http s).
Proof.
  intros Ha Hp Hh H1' He. destruct (unanswered st1) eqn:Hu1.
  - rewrite He by done. destruct (proj2 H1' eq_refl) as [session Eh]. rewrite He in Eh by done.
    unfold reply, answer. rewrite Eh, Hu1. destruct ev, st; try discriminate; injection Ha as <-; done.
  - assert (Eh1 : http1 = None) by (destruct http1 as [h|]; [|done]; by pose proof (proj1 H1' (ex_intro _ h eq_refl))).
    rewrite Eh1. cbn [reply]. rewrite app_nil_r. destruct (path_answered _ _ _ Hu1 Hp) as [Hu' He'].
    unfold reply, answer. rewrite Hu'. destruct (sb_http s) as [session|] eqn:Eh.
    + pose proof (proj1 Hh (ex_intro _ session eq_refl)) as Hu. rewrite Hu. cbn [negb andb].
      destruct ev, st; try discriminate; injection Ha as <-; case_decide as Hd; try done; exfalso;
        first [by apply He' in Hd | by apply Hd, He'].
    + by destruct ev.
Qed.

Lemma idle_resume w p s :
  sandboxes w !! p = Some s -> running (sb_state s) = false ->
  (forall q sq, q <> p -> sandboxes w !! q = Some sq -> running (sb_state sq) = false) -> idle w.
Proof.
  intros E Hr Ho q sq Eq. destruct (decide (q = p)) as [->|Hne]; [congruence | by eapply Ho].
Qed.

Context `{!RunqueueUnbounded RQ}.

(** C3: whole runs.  On a runqueue that accepts every sandbox, take a dispatched
    sandbox on a worker where no other sandbox has the processor, and any sequence of events the diagram
    accepts, at increasing times.  The run succeeds and ends in the diagram's
    last state in a world in order; the times spent in the states add up to
    the time from the allocation to the last event; and the client got exactly
    one response if the run ends the sandbox, 200 for a return and 500 for an
    error, and none before. *)
Theorem sandbox_run_spec w l p s tr st' :
  wf w l -> sandboxes w !! p = Some s -> sb_state s <> SANDBOX_INITIALIZED ->
  (forall q sq, q <> p -> sandboxes w !! q = Some sq -> running (sb_state sq) = false) ->
  path (sb_state s) (fst <$> tr) = Some st' -> clock_from (last_state_change s) tr ->
  exists w' l' s', run w p tr = Ret w' /\ wf w' l' /\ sandboxes w' !! p = Some s'
    /\ sb_state s' = st'
    /\ zsum (duration_of_state s') = clock_end (last_state_change s) tr - allocation s
    /\ responses w' = responses w ++ reply (sb_state s) st' (sb_http s).
Proof.
  revert w l s. induction tr as [|[ev now] tr IH]; intros w l s W E Hni Ho Hp Hc.
  - cbn in Hp. injection Hp as <-. exists w, l, s. pose proof (wf_sandbox _ _ _ W p s E) as Hok.
    do 4 (split; [done|]). split; [apply (times_sum _ (ok_times _ _ _ Hok))|].
    unfold reply. destruct (sb_http s); [|by rewrite app_nil_r].
    destruct (unanswered (sb_state s)); by rewrite app_nil_r.
  - destruct Hc as [Hn Hc]. cbn in Hp. destruct (allowed (sb_state s) ev) as [st1|] eqn:Ha; [|done].
    assert (Hr : ready ev w l p s).
    { destruct ev; try done; destruct (sb_state s) eqn:Hs; try done;
        first [apply rq_accepts_all | eapply idle_resume; [exact E | by rewrite Hs | done]]. }
    destruct (step_ok w l p s ev now st1 W E Hn Hr Ha)
      as (w1 & l1 & s1 & Ew & W1 & Es & Est & El & Eal & _ & _ & Eh & _ & _ & Er).
    assert (E1 : sandboxes w1 !! p = Some s1) by (rewrite Es; apply lookup_insert_eq).
    destruct (IH w1 l1 s1 W1 E1) as (w' & l' & s' & Ew' & W' & E' & Est' & Hz & Er').
    + rewrite Est. by destruct ev, (sb_state s); try discriminate; injection Ha as <-.
    + intros q sq Hne. rewrite Es, lookup_insert_ne by done. by apply Ho.
    + by rewrite Est.
    + by rewrite El.
    + exists w', l', s'. cbn [run]. rewrite Ew. ostep. do 4 (split; [done|]).
      split; [by rewrite Hz, El, Eal|]. rewrite Er', Er, <- app_assoc, Est. f_equal.
      eapply reply_step; eauto; [apply (wf_sandbox _ _ _ W p s E) |].
      rewrite <- Est. apply (wf_sandbox _ _ _ W1 p s1 E1).
Qed.
End steps.

(** ** A worker with one runnable sandbox *)

Definition demo_memory : wasm_memory := mk_wasm_memory 65536 65536 1048576 (Some zero_bytes).

Definition demo_sandbox : sandbox :=
  mk_sandbox 1 SANDBOX_RUNNABLE 7 5 3 (Some 900) VARIANT_FAST None (Some demo_memory) demo_globals
    15 10 15 0 [0; 2; 3; 0; 0; 0; 0; 0; 0; 0; 0; 0] 3 1000 1 0.

Definition demo_world : world bool runqueue_list :=
  mk_world {[ 100 := demo_sandbox ]} (mk_runqueue_list [100]) {[ 3 := demo_module ]}
    {[ 7 := mk_route 990 demo_info ]} {[ 5 := mk_tenant 0 0 0 ]} 0 [] None UINT64_MAX 0 0 false 1 []
    VARIANT_RUNNING.

Lemma demo_world_lookup q s : sandboxes demo_world !! q = Some s -> q = 100 /\ s = demo_sandbox.
Proof.
  change (sandboxes demo_world) with ({[ 100 := demo_sandbox ]} : gmap Z sandbox).
  intros E. apply lookup_singleton_Some in E as [<- <-]. done.
Qed.

Lemma demo_world_wf : wf 0 demo_world [100].
Proof.
  split.
  - change ([100] ≡ₚ [100]). reflexivity.
  - apply NoDup_singleton.
  - intros q. rewrite list_elem_of_singleton. split.
    + intros ->. exists demo_sandbox. split; [apply lookup_singleton_eq | done].
    + intros (s & E & _). by apply demo_world_lookup in E as [-> _].
  - intros q s E. apply demo_world_lookup in E as [-> ->]. split; try done.
    + split; try done; [|vm_compute; done..]. repeat constructor; done.
    + exists demo_module. split; [apply lookup_singleton_eq|]. intros _. exists demo_memory.
      split; [done|]. split; [by eexists|]. vm_compute. done.
    + intros _. exists (replicate 4 zero_global). split; [done|]. split; [vm_compute; lia|]. by split.
  - intros k m. change (modules demo_world) with ({[ 3 := demo_module ]} : gmap Z (module bool)).
    intros E. apply lookup_singleton_Some in E as [<- <-]. split; [apply demo_module_wf | cbn; lia].
Qed.

(** The runnable sandbox can be resumed and cannot be put to sleep. *)
Lemma sandbox_step_spec_witness :
  moves 0 demo_world 100 demo_sandbox SANDBOX_RUNNING_SYS 20 [] (exec 0 EvResumeFast demo_world 100 20)
  /\ (EvSleep = EvInterrupt \/ exec 0 EvSleep demo_world 100 20 = Stop AssertFail).
Proof.
  split.
  - apply (sandbox_step_spec 0 demo_world [100] 100 demo_sandbox EvResumeFast 20).
    + apply demo_world_wf.
    + reflexivity.
    + vm_compute. split; [reflexivity | discriminate].
    + intros q s E. apply demo_world_lookup in E as [_ ->]. reflexivity.
  - apply (sandbox_step_spec 0 demo_world [100] 100 demo_sandbox EvSleep 20).
    + apply demo_world_wf.
    + reflexivity.
    + vm_compute. split; [reflexivity | discriminate].
    + exact I.
Defined.

(** Started, interrupted, preempted, resumed, returned: 60 cycles in all. *)
Definition demo_run : list (sandbox_event * Z) :=
  [(EvResumeFast, 20); (EvReturn, 25); (EvInterrupt, 30); (EvInterruptReturn, 32); (EvInterrupt, 40);
   (EvPreempt, 41); (EvResumeSlow, 50); (EvSyscall, 55); (EvReturned, 60); (EvExitSuccess, 70)].

Lemma sandbox_run_spec_witness :
  exists w' l' s', run 0 demo_world 100 demo_run = Ret w' /\ wf 0 w' l' /\ sandboxes w' !! 100 = Some s'
    /\ sb_state s' = SANDBOX_COMPLETE /\ zsum (duration_of_state s') = 60 /\ responses w' = [(900, 200)].
Proof.
  apply (sandbox_run_spec 0 demo_world [100] 100 demo_sandbox demo_run SANDBOX_COMPLETE).
  - apply demo_world_wf.
  - reflexivity.
  - discriminate.
  - intros q sq Hne E. apply demo_world_lookup in E as [-> _]. by destruct Hne.
  - reflexivity.
  - vm_compute. repeat split; discriminate.
Defined.
