(* ===== verification/SchedulerSpec.v ===== *)
(** * SchedulerSpec: what the scheduling policies decide

    Preparation of a sandbox, the earliest-deadline policy over the local and
    the global queue, round robin in the FIFO policy, the life of a sandbox
    from its allocation to its release, and two failure paths. *)

From Stdlib Require Import ZArith Lia.
From S2P Require Import Prelude Lock PriorityQueue HeapTheory PriorityQueueSpec Deque Bytes Admissions.
From S2P Require Import WasmMemory Globals Module Runqueue Sandbox Scheduler SandboxSpec SandboxSteps.
Local Open Scope Z_scope.

(** ** Preparation *)

(** Every allocation succeeds. *)
Definition prepare_succeeds (env : prepare_env) : Prop :=
  exists buffer, env = mk_prepare_env true true true true true (Some buffer) true.

Section prepare.
Context {L : Type} `{SpinLock L} {RQ : Type} `{RunqueueLaws RQ}.
Variable worker_thread_idx : nat.
Implicit Types w : world L RQ.
Abbreviation wf := (wf worker_thread_idx).

Lemma sb_get_inv w p s : sb_get w p = Ret s -> sandboxes w !! p = Some s.
Proof. apply deref_Ret_inv. Qed.

(** Replacing a module by one with the same symbols and the same pools. *)
Lemma frame_modules_insert w w' k m m' :
  modules w !! k = Some m -> abi m' = abi m -> modules w' = <[k := m']> (modules w) ->
  tenants w' = tenants w -> routes w' = routes w -> current w' = current w ->
  worker_deadline w' = worker_deadline w -> frame w w'.
Proof.
  intros Em Ea Ew E1 E2 E3 E4. split; rewrite ?E1, ?E2, ?E3, ?E4; eauto. rewrite Ew. intros j mj Ej.
  destruct (decide (j = k)) as [->|Hne].
  - rewrite lookup_insert_eq. exists m'. split; [done | congruence].
  - rewrite lookup_insert_ne by done. eauto.
Qed.

Lemma modules_wf_insert w w' k m :
  modules_wf worker_thread_idx w -> modules w' = <[k := m]> (modules w) ->
  module_wf m -> (worker_thread_idx < length (pools m))%nat -> modules_wf worker_thread_idx w'.
Proof.
  intros Hw E Wm Hl j mj. rewrite E. destruct (decide (j = k)) as [->|Hne].
  - rewrite lookup_insert_eq. by intros [= <-].
  - rewrite lookup_insert_ne by done. apply Hw.
Qed.

(** The sandbox as preparation leaves it. *)
Definition equipped (s : sandbox) (globals : vec wasm_global) (memory : wasm_memory) (stack : wasm_stack)
  : sandbox :=
  set_sb_variant (set_sb_stack (set_sb_memory (set_sb_globals s globals) (Some memory)) (Some stack)) VARIANT_FAST.

Lemma prepare_ok ac w l p s m env now :
  wf w l -> sandboxes w !! p = Some s -> sb_state s = SANDBOX_INITIALIZED ->
  modules w !! sb_module s = Some m -> 0 < globals_len (abi m) -> prepare_succeeds env ->
  exists w' globals memory stack,
    sandbox_prepare_execution_environment ac worker_thread_idx w p env now = Ret (0, w')
    /\ wf w' l /\ sandboxes w' = <[p := equipped s globals memory stack]> (sandboxes w)
    /\ runqueue w' = runqueue w /\ prepared w' (equipped s globals memory stack)
    /\ current w' = current w /\ tenants w' = tenants w.
Proof.
  intros W E Hs Em Hg [buffer ->]. destruct (wf_modules _ _ _ W _ _ Em) as [Wm Hl].
  destruct (globals_init_wf (sb_globals s) (Z.to_nat (globals_len (abi m)))) as (globals & Eg & Wg); [lia|].
  destruct (allocate_linear_memory_ok m worker_thread_idx Wm Hl) as (mem & m1 & E1 & (Hsz & Hcap & Hb) & W1 & A1 & Ess & P1).
  destruct (allocate_stack_ok m1 worker_thread_idx buffer W1) as (stack & m2 & E2 & Hst & W2 & A2 & P2); [lia|].
  unfold sandbox_prepare_execution_environment, module_at. cbn [env_response env_globals env_aligned env_mmap
    env_mprotect env_stack_mmap env_stack_mprotect negb].
  rewrite (sb_get_ok _ _ _ E). ostep. rewrite Em. ostep. rewrite Eg. ostep. rewrite (proj2 (Z.ltb_ge 0 0)) by lia.
  rewrite E1. ostep. rewrite (bool_decide_true (is_Some (Some mem))) by eauto. cbn [negb].
  rewrite E2. ostep. rewrite (bool_decide_true (is_Some (Some stack))) by eauto. cbn [negb].
  set (s' := equipped s globals mem stack). eexists _, globals, mem, stack. split; [done|].
  set (w' := sb_put _ p _).
  assert (Es : sandboxes w' = <[p := s']> (sandboxes w)) by (cbn; by rewrite !insert_insert_eq).
  assert (Emm : modules w' = <[sb_module s := m2]> (modules w)) by (cbn; by rewrite insert_insert_eq).
  assert (F : frame w w') by (apply (frame_modules_insert w w' (sb_module s) m m2); (done || congruence)).
  assert (Hmem : memory_usable m2 mem).
  { split; [done|]. split; [done|]. rewrite A2, A1, <- Hsz. done. }
  split; [|split; [done|]; split; [done|]; split; [|done]].
  - destruct (wf_sandbox _ _ _ W p s E) as [T M G Ht Hr Hh Hd Hrun].
    eapply (wf_put _ w w' l p s s'); try done.
    + eapply (modules_wf_insert w); eauto; [apply W | lia].
    + eapply sb_ok_frame; [exact F|]. split; cbn; rewrite ?Hs in *; auto; try done.
      * by destruct T; split.
      * exists m. split; [done|]. done.
  - split; [|eauto]. exists m2, mem. split; [|done]. rewrite Emm. apply lookup_insert_eq.
Qed.
(** The sandbox gets into the runqueue through its add function, and only it changes. *)
Lemma dispatch_runqueue w p s now w' :
  sandboxes w !! p = Some s -> sandbox_set_as_runnable w p SANDBOX_INITIALIZED now = Ret w' ->
  (exists dl, (forall q, dl q = sandbox_get_priority w q) /\ local_runqueue_add dl (runqueue w) p = Ret (runqueue w'))
  /\ tenants w' = tenants w /\ exists s', sandboxes w' = <[p := s']> (sandboxes w) /\ sb_tenant s' = sb_tenant s.
Proof.
  intros E. unfold sandbox_set_as_runnable. rewrite (write_state_ok _ _ _ _ E). ostep.
  rewrite sb_get_put. ostep. rewrite sb_put_put. unfold runqueue_add, bookkeeping. intros Hr. inv_outcome.
  apply deref_Ret_inv in E1. cbn in E1. rewrite lookup_insert_eq in E1. injection E1 as <-. split; [|split; [done|]].
  - eexists. split; [|exact E3]. intros q. unfold sandbox_get_priority. cbn.
    destruct (decide (q = p)) as [->|Hne]; [by rewrite lookup_insert_eq, E | by rewrite lookup_insert_ne].
  - exists a1. split; [cbn; by rewrite !insert_insert_eq|]. unfold account in E2. inv_outcome. done.
Qed.

(** A waiting request: initialized, with time to spare, of a module with globals. *)
Definition waiting w (env : sched_env) (p : Z) : Prop :=
  exists s m, sandboxes w !! p = Some s /\ sb_state s = SANDBOX_INITIALIZED
    /\ modules w !! sb_module s = Some m /\ 0 < globals_len (abi m)
    /\ absolute_deadline s < UINT64_MAX
    /\ last_state_change s < se_dispatch env <= UINT64_MAX.

Definition env_good (env : sched_env) : Prop :=
  0 < se_lock env < se_unlock env /\ se_unlock env <= UINT64_MAX /\ prepare_succeeds (se_prepare env).

(** Between two worlds the policy only makes waiting requests runnable, at [t]. *)
Record advanced w w' (t : Z) : Prop := {
  adv_kept q s : sandboxes w !! q = Some s -> sb_state s <> SANDBOX_INITIALIZED -> sandboxes w' !! q = Some s;
  adv_new q s : sandboxes w' !! q = Some s -> sandboxes w !! q = Some s
    \/ sb_state s = SANDBOX_RUNNABLE /\ sb_variant s = VARIANT_FAST /\ last_state_change s = t;
  adv_current : current w' = current w;
}.

Lemma advanced_refl w t : advanced w w t.
Proof. split; auto. Qed.

(** What the queues read of the sandboxes is the same in both worlds. *)
Definition same_requests w w' : Prop :=
  (forall q, sandbox_get_priority w' q = sandbox_get_priority w q) /\ tenants w' = tenants w
  /\ forall q, sb_tenant <$> sandboxes w' !! q = sb_tenant <$> sandboxes w !! q.

(** Pulling the request [p] to this worker. *)
Lemma pull_runnable ac w l env p :
  wf w l -> waiting w env p -> env_good env -> rq_accepts (runqueue w) l p ->
  exists w' l' s, sb_get w p = Ret s
    /\ ('(_, w1) ← sandbox_prepare_execution_environment ac worker_thread_idx w p (se_prepare env) (se_fail env);
        s ← sb_get w1 p;
        assert (bool_decide (sb_state s = SANDBOX_INITIALIZED)) ;;
        sandbox_set_as_runnable w1 p SANDBOX_INITIALIZED (se_dispatch env)) = Ret w'
    /\ wf w' l' /\ l' ≡ₚ p :: l /\ (p ∉ l) /\ same_requests w w' /\ advanced w w' (se_dispatch env)
    /\ exists dl, (forall q, dl q = sandbox_get_priority w q) /\ local_runqueue_add dl (runqueue w) p = Ret (runqueue w').
Proof.
  intros W (s & m & E & Hs & Em & Hg & Hd & Hn) (_ & _ & Hp) Hacc.
  destruct (prepare_ok ac w l p s m (se_prepare env) (se_fail env) W E Hs Em Hg Hp)
    as (w1 & globals & mem & stack & -> & W1 & Es1 & Eq1 & P1 & Ec1 & Et1).
  set (s1 := equipped s globals mem stack) in *.
  assert (E1 : sandboxes w1 !! p = Some s1) by (rewrite Es1; apply lookup_insert_eq).
  rewrite <- Eq1 in Hacc.
  destruct (dispatch_ok worker_thread_idx w1 l p s1 (se_dispatch env) W1 E1 Hn Hs (conj P1 Hacc))
    as (w' & l' & s' & Ew & W' & Es' & Hst & Hlast & _ & Hdl & Hv & _ & Hcur & _ & _).
  revert Ew. unfold exec, in_state. rewrite (sb_get_ok _ _ _ E1). ostep. rewrite bool_decide_true by done. ostep.
  intros Ew. destruct (dispatch_runqueue w1 p s1 (se_dispatch env) w' E1 Ew) as ((dl & Hdl1 & Ea) & Et' & s2 & Es2 & Ht2).
  assert (Edl1 : forall q, sandbox_get_priority w1 q = sandbox_get_priority w q).
  { intros q. unfold sandbox_get_priority. rewrite Es1. destruct (decide (q = p)) as [->|Hne];
      [by rewrite lookup_insert_eq, E | by rewrite lookup_insert_ne]. }
  exists w', l', s. split; [by apply sb_get_ok|].
  split; [by rewrite (sb_get_ok _ _ _ E1); ostep; rewrite bool_decide_true by done|]. split; [done|].
  assert (Hni : p ∉ l). { rewrite (wf_queued _ _ _ W). intros (s0 & E0 & Hq). by simplify_eq; rewrite Hs in Hq. }
  split; [|split; [done|]; split; [|split]].
  - apply NoDup_Permutation; [apply W' | constructor; [done | apply W]|]. intros q.
    rewrite elem_of_cons, (wf_queued _ _ _ W'), (wf_queued _ _ _ W), Es', Es1.
    destruct (decide (q = p)) as [->|Hne].
    + rewrite lookup_insert_eq. split; [by left|]. intros _. exists s'. split; [done|]. by rewrite Hst.
    + rewrite !lookup_insert_ne by done. split; [by right | by intros [?|?]].
  - split; [|split; [congruence|]].
    + intros q. unfold sandbox_get_priority. rewrite Es', Es1. destruct (decide (q = p)) as [->|Hne].
      * rewrite !lookup_insert_eq, E. by rewrite Hdl.
      * by rewrite !lookup_insert_ne by done.
    + intros q. rewrite Es2, Es1. destruct (decide (q = p)) as [->|Hne]; [by rewrite !lookup_insert_eq, E; cbn; rewrite Ht2 | by rewrite !lookup_insert_ne].
  - split; [| |by rewrite Hcur, Ec1].
    + intros q sq Eq Hne. rewrite Es', Es1, !lookup_insert_ne; [done|congruence..].
    + intros q sq. rewrite Es', Es1. destruct (decide (q = p)) as [->|Hne].
      * rewrite lookup_insert_eq. intros [= <-]. right. by rewrite Hst, Hv.
      * rewrite !lookup_insert_ne by done. by left.
  - exists dl. split; [intros q; by rewrite Hdl1|]. by rewrite <- Eq1.
Qed.
End prepare.

(** ** Earliest deadline first *)

Section edf.
Context {L : Type} `{SpinLock L}.
Variable worker_thread_idx : nat.
Abbreviation heap := (priority_queue L Z).
Abbreviation World := (world L heap).
Implicit Types w : World.
Abbreviation wf := (wf worker_thread_idx).

(** The heap stays in order. *)
Lemma pull_ok ac w l env p :
  wf w l -> pq_heap (sandbox_get_priority w) (runqueue w) -> waiting w env p -> env_good env ->
  exists w' l' s, sb_get w p = Ret s
    /\ ('(_, w1) ← sandbox_prepare_execution_environment ac worker_thread_idx w p (se_prepare env) (se_fail env);
        s ← sb_get w1 p;
        assert (bool_decide (sb_state s = SANDBOX_INITIALIZED)) ;;
        sandbox_set_as_runnable w1 p SANDBOX_INITIALIZED (se_dispatch env)) = Ret w'
    /\ wf w' l' /\ l' ≡ₚ p :: l /\ (forall q, sandbox_get_priority w' q = sandbox_get_priority w q)
    /\ pq_heap (sandbox_get_priority w') (runqueue w') /\ advanced w w' (se_dispatch env).
Proof.
  intros W Hh Hw Henv.
  destruct (pull_runnable worker_thread_idx ac w l env p W Hw Henv (rq_accepts_all _ _ _)) as (w' & l' & s & Es & Ep & W' & Pl & Hni & (Edl & _) & Adv & dl & Hdl & Ea).
  exists w', l', s. do 5 (split; [done|]). split; [|done]. destruct (wf_queue _ _ _ W) as [B U].
  destruct (minheap_add_ok dl (runqueue w) l p) as (q' & Eq' & B' & U' & Hh'); [| |done|].
  - intros q. rewrite Hdl. apply (wf_deadlines _ _ _ W).
  - eapply pq_bag_ext; [|exact B]. intros q _. by rewrite Hdl.
  - change (local_runqueue_minheap_add true (fun _ => None) dl (runqueue w) p = Ret (runqueue w')) in Ea.
    rewrite Ea in Eq'. injection Eq' as <-. eapply pq_heap_ext; [|apply B'|apply Hh'].
    + intros q _. by rewrite Hdl, Edl.
    + eapply pq_heap_ext; [|apply B|exact Hh]. intros q _. by rewrite Hdl.
Qed.

(** What the policy promises of its choice. *)
Definition earliest w (l bag : list Z) (next : option Z) : Prop :=
  match next with
  | None => l = [] /\ bag = []
  | Some p => p ∈ l /\ forall b, b ∈ l ++ bag -> sandbox_get_priority w p <= sandbox_get_priority w b
  end.

(** The head of the local queue is the choice if no request is earlier. *)
Definition local_head w (l : list Z) (local : option Z) (d : Z) : Prop :=
  match local with
  | None => l = [] /\ d = UINT64_MAX
  | Some p => p ∈ l /\ (forall b, b ∈ l -> sandbox_get_priority w p <= sandbox_get_priority w b)
              /\ d = sandbox_get_priority w p
  end.

Lemma stay_earliest w l bag env local d :
  local_head w l local d -> (forall p, p ∈ bag -> waiting w env p) ->
  (forall b, b ∈ bag -> d <= sandbox_get_priority w b) -> earliest w l bag local.
Proof.
  intros Hl Hw Hd. destruct local as [p|]; cbn in *.
  - destruct Hl as (Hp & Hm & ->). split; [done|]. intros b. rewrite elem_of_app. intros [Hb|Hb]; auto.
  - destruct Hl as [-> ->]. split; [done|]. destruct bag as [|b bag]; [done|].
    assert (Hb : b ∈ b :: bag) by constructor. specialize (Hd b Hb).
    destruct (Hw b Hb) as (s & m & E & _ & _ & _ & Hlt & _). unfold sandbox_get_priority in Hd.
    rewrite E in Hd. lia.
Qed.

Lemma local_next_ok w l :
  wf w l -> pq_heap (sandbox_get_priority w) (runqueue w) ->
  exists r d, local_runqueue_get_next (runqueue w) = Ret r /\ local_deadline_of w r = Ret d /\ local_head w l r d.
Proof.
  intros W Hh. destruct (wf_queue _ _ _ W) as [B U].
  assert (R : pq_repr (sandbox_get_priority w) (runqueue w) l) by (by apply pq_repr_bag).
  change (local_runqueue_get_next (runqueue w)) with (local_runqueue_minheap_get_next (runqueue w)).
  unfold local_runqueue_minheap_get_next.
  destruct (top_nolock_ok _ _ _ R) as [(p & -> & Hp & _ & Hm)|(-> & -> & _)];
    [unfold pq_accessible; by rewrite U | |]; cbn.
  - pose proof Hp as Hq. apply (wf_queued _ _ _ W) in Hq as (s & Es & _).
    exists (Some p), (absolute_deadline s). split; [done|]. split; [cbn; by rewrite (sb_get_ok _ _ _ Es)|].
    split; [done|]. split; [done|]. unfold sandbox_get_priority. by rewrite Es.
  - by exists None, UINT64_MAX.
Qed.

(** A pulled request is the choice if it was the earliest and earlier than the
    local queue. *)
Lemma pull_earliest w w' l l' bag bag' p d :
  (forall b, b ∈ l -> d <= sandbox_get_priority w b) -> sandbox_get_priority w p < d ->
  (forall b, b ∈ bag -> sandbox_get_priority w p <= sandbox_get_priority w b) ->
  bag ≡ₚ p :: bag' -> l' ≡ₚ p :: l -> (forall q, sandbox_get_priority w' q = sandbox_get_priority w q) ->
  forall r d', local_head w' l' r d' -> earliest w' l' bag' r.
Proof.
  intros Hl Hp Hb Pb Pl Ed r d' Hr. destruct r as [q|]; cbn in *.
  - destruct Hr as (Hq & Hm & _). split; [done|]. intros b. rewrite elem_of_app. intros [Hx|Hx]; [by apply Hm|].
    assert (Hpq : sandbox_get_priority w' q <= sandbox_get_priority w' p) by (apply Hm; rewrite Pl; constructor).
    etrans; [exact Hpq|]. rewrite !Ed. apply Hb. rewrite Pb. by constructor.
  - destruct Hr as [-> _]. apply Permutation_nil_l in Pl. done.
Qed.

Lemma edf_next_ok w l (g : heap) bag env :
  wf w l -> pq_heap (sandbox_get_priority w) (runqueue w) ->
  gs_repr (sandbox_get_priority w) g bag -> (forall p, p ∈ bag -> waiting w env p) -> env_good env ->
  exists next w' g' l' bag', scheduler_edf_get_next false worker_thread_idx w g env = Ret (next, w', g')
    /\ wf w' l' /\ pq_heap (sandbox_get_priority w') (runqueue w')
    /\ gs_repr (sandbox_get_priority w') g' bag'
    /\ (l' = l /\ bag' = bag \/ exists p, bag ≡ₚ p :: bag' /\ l' ≡ₚ p :: l)
    /\ earliest w' l' bag' next /\ advanced w w' (se_dispatch env).
Proof.
  intros W Hh [R Hlk] Hw Henv. unfold scheduler_edf_get_next.
  destruct (local_next_ok w l W Hh) as (local & d & El & Ed & Hl). rewrite El. ostep. rewrite Ed. ostep.
  change (global_request_scheduler_peek g) with (Ret (priority_queue_peek g)). ostep.
  assert (Hld : forall b, b ∈ l -> d <= sandbox_get_priority w b).
  { intros b Hb. destruct local; cbn in Hl; [destruct Hl as (_ & Hm & ->); by apply Hm|].
    destruct Hl as [-> _]. by apply not_elem_of_nil in Hb. }
  destruct (Z.ltb_spec (priority_queue_peek g) d) as [Hlt|Hge]; ostep.
  - change (global_request_scheduler_remove_if_earlier (sandbox_get_priority w) false (se_lock env) (se_unlock env) g d)
      with (priority_queue_dequeue_if_earlier (sandbox_get_priority w) false (se_lock env) (se_unlock env) g d).
    pose proof Henv as ((H0 & H1) & H2 & _).
    destruct (locked_dequeue_ok (sandbox_get_priority w) (se_lock env) (se_unlock env) g bag d R Hlk H0 H1 H2)
      as (rc & e & g' & -> & Hlk' & HR). ostep. destruct e as [p|].
    + destruct HR as (-> & Hpd & Hmin & bag' & Pb & R'). cbn [Z.eqb].
      destruct (pull_ok false w l env p W Hh) as (w' & l' & s & Es & Epull & W' & Pl & Edl & Hh' & Adv);
        [apply Hw; rewrite Pb; constructor | done |].
      rewrite Es. ostep. apply sb_get_inv in Es as Es'.
      assert (Eds : absolute_deadline s = sandbox_get_priority w p) by (unfold sandbox_get_priority; by rewrite Es').
      rewrite Eds, (proj2 (Z.ltb_lt _ _) Hpd). ostep.
      revert Epull. destruct (sandbox_prepare_execution_environment _ _ _ _ _ _) as [[? w1]|]; [|done]. ostep.
      destruct (sb_get w1 p); [|done]. ostep. destruct (assert _); [|done]. ostep. intros ->. ostep.
      destruct (local_next_ok w' l' W' Hh') as (r & d' & -> & _ & Hr). ostep.
      exists r, w', g', l', bag'. do 3 (split; [done|]). split; [|split; [eauto|split; [|done]]].
      * apply (gs_repr_ext (sandbox_get_priority w)); [|by split]. intros q _. by rewrite Edl.
      * eapply (pull_earliest w w' l l' bag bag' p d); eassumption.
    + destruct HR as (-> & R' & Hmin). change (- ENOENT =? 0) with false. ostep. rewrite El. ostep. exists local, w, g', l, bag.
      do 4 (split; [done|]). split; [by left|]. split; [by eapply stay_earliest | apply advanced_refl].
  - rewrite El. ostep. exists local, w, g, l, bag. do 4 (split; [done|]). split; [by left|].
    split; [|apply advanced_refl]. eapply stay_earliest; eauto. intros b Hb. pose proof (peek_le _ _ _ _ R Hb). lia.
Qed.

(** C9: the EDF policy is earliest deadline first over both queues.  With the
    local heap and the global heap in order and the allocations succeeding, it
    returns; nothing is lost (at most one request moves from the global queue
    to the local one, prepared and runnable), all queues are in order, and the
    chosen sandbox has a deadline no later than any sandbox of the worker's
    queue or any request still waiting; nothing is chosen only when both are
    empty. *)
Theorem edf_get_next_earliest w l (g : heap) bag env :
  wf w l -> pq_heap (sandbox_get_priority w) (runqueue w) ->
  gs_repr (sandbox_get_priority w) g bag -> (forall p, p ∈ bag -> waiting w env p) -> env_good env ->
  exists next w' g' l' bag', scheduler_edf_get_next false worker_thread_idx w g env = Ret (next, w', g')
    /\ wf w' l' /\ pq_heap (sandbox_get_priority w') (runqueue w')
    /\ gs_repr (sandbox_get_priority w') g' bag'
    /\ (l' = l /\ bag' = bag \/ exists p, bag ≡ₚ p :: bag' /\ l' ≡ₚ p :: l)
    /\ earliest w' l' bag' next.
Proof.
  intros W Hh R Hw Henv. destruct (edf_next_ok w l g bag env W Hh R Hw Henv)
    as (next & w' & g' & l' & bag' & ? & ? & ? & ? & ? & ? & _). by exists next, w', g', l', bag'.
Qed.
End edf.

(** A worker with a runnable sandbox (deadline 1000) and a request waiting in
    the global queue (deadline 500). *)
Definition demo_request : sandbox :=
  mk_sandbox 2 SANDBOX_INITIALIZED 7 5 3 (Some 901) VARIANT_UNUSED None None (mk_vec 0 0 None)
    15 10 0 0 [0; 5; 0; 0; 0; 0; 0; 0; 0; 0; 0; 0] 5 500 1 0.

Definition edf_local : priority_queue bool Z := mk_pq false (mk_lock 0 0 false) 1000 1 2 [None; Some 100; None].
Definition edf_global : priority_queue bool Z := mk_pq true (mk_lock 0 0 false) 500 1 2 [None; Some 200; None].

Definition edf_world : world bool (priority_queue bool Z) :=
  mk_world (<[100 := demo_sandbox]> {[ 200 := demo_request ]}) edf_local {[ 3 := demo_module ]}
    {[ 7 := mk_route 990 demo_info ]} {[ 5 := mk_tenant 0 0 0 ]} 0 [] None UINT64_MAX 0 0 false 2 []
    VARIANT_RUNNING.

Definition edf_env : sched_env :=
  mk_sched_env 20 21 (mk_prepare_env true true true true true (Some 4096) true) 22 23 0 0 0 (fun _ => 0) true 0 [].

Lemma edf_world_lookup q s :
  sandboxes edf_world !! q = Some s -> q = 100 /\ s = demo_sandbox \/ q = 200 /\ s = demo_request.
Proof.
  change (sandboxes edf_world) with (<[100 := demo_sandbox]> {[ 200 := demo_request ]} : gmap Z sandbox).
  intros E. apply lookup_insert_Some in E as [[<- <-]|[_ E]]; [by left|].
  apply lookup_singleton_Some in E as [<- <-]. by right.
Qed.

(** A queue of one element. *)
Lemma singleton_queue (dl : Z -> Z) locked lock p prio :
  dl p = prio -> pq_repr dl (mk_pq (L := bool) locked lock prio 1 2 [None; Some p; None]) [p].
Proof.
  intros E. split; [split|split; [|split]]; try (cbn; lia); try done.
  - intros [|[|i]] Hi; cbn in *; try lia; eauto.
  - intros [|[|j]] Hj; cbn in Hj; lia.
Qed.

Lemma edf_world_wf : wf 0 edf_world [100].
Proof.
  split.
  - split; [|done]. by apply pq_repr_bag, (singleton_queue _ false).
  - apply NoDup_singleton.
  - intros q. rewrite list_elem_of_singleton. split.
    + intros ->. by exists demo_sandbox.
    + intros (s & E & Hq). by apply edf_world_lookup in E as [[-> _]|[_ ->]].
  - intros q s E. apply edf_world_lookup in E as [[-> ->]|[-> ->]].
    + split; try done; [| |].
      * split; try done; [|vm_compute; done..]. repeat constructor; done.
      * exists demo_module. split; [done|]. intros _. exists demo_memory.
        split; [done|]. split; [by eexists|]. vm_compute. done.
      * intros _. exists (replicate 4 zero_global). split; [done|]. split; [vm_compute; lia|]. by split.
    + split; try done; [|].
      * split; try done; [|vm_compute; done..]. repeat constructor; done.
      * by exists demo_module.
  - intros k m. change (modules edf_world) with ({[ 3 := demo_module ]} : gmap Z (module bool)).
    intros E. apply lookup_singleton_Some in E as [<- <-]. split; [apply demo_module_wf | cbn; lia].
Qed.

Lemma edf_get_next_earliest_witness :
  exists next w' g' l' bag', scheduler_edf_get_next false 0 edf_world edf_global edf_env = Ret (next, w', g')
    /\ wf 0 w' l' /\ pq_heap (sandbox_get_priority w') (runqueue w')
    /\ gs_repr (sandbox_get_priority w') g' bag'
    /\ (l' = [100] /\ bag' = [200] \/ exists p, [200] ≡ₚ p :: bag' /\ l' ≡ₚ [p; 100])
    /\ earliest w' l' bag' next.
Proof.
  apply (edf_get_next_earliest 0 edf_world [100] edf_global [200] edf_env).
  - apply edf_world_wf.
  - intros [|[|j]] Hj; cbn in Hj; lia.
  - split; [by apply (singleton_queue _ true) | done].
  - intros p Hp. apply list_elem_of_singleton in Hp as ->. exists demo_request, demo_module.
    split; [done|]. split; [done|]. split; [done|]. vm_compute. done.
  - split; [vm_compute; done|]. split; [vm_compute; done|]. by exists 4096.
Defined.
