(* ===== verification/Conservation.v ===== *)
(** * Conservation: what no operation on a sandbox changes

    Every operation of a worker on its sandboxes, whether it succeeds in a world in
    order or not, keeps the module of each sandbox, the reference counts, the
    sessions (each is held by one sandbox, or has been answered), the stack and the
    globals a sandbox was given, and the cleanup queue.  The relation [kept] is a
    preorder; an operation is shown to respect it by following its steps, with the
    lemmas of its parts in the hint database [kept].  Only allocation and release
    change what is kept; they are in [Lifecycle]. *)

From Stdlib Require Import ZArith Lia.
From S2P Require Import Prelude Lock PriorityQueue HeapTheory PriorityQueueSpec Deque Bytes Admissions.
From S2P Require Import WasmMemory Globals Module Runqueue Sandbox Scheduler SandboxSpec SandboxSteps SchedulerSpec.
Local Open Scope Z_scope.

Section kept.
Context {L : Type} `{SpinLock L} {RQ : Type} `{Runqueue RQ}.
Variable worker_thread_idx : nat.
Abbreviation World := (world L RQ).
Implicit Types w : World.

(** The sessions of a worker: answered, or held by a sandbox. *)
Definition held (m : gmap Z sandbox) : list Z := omap (fun x => sb_http x.2) (map_to_list m).
Definition sessions w : list Z := (responses w).*1 ++ held (sandboxes w).

(** How many sandboxes refer to a module. *)
Definition refs (m : gmap Z Z) (k : Z) : nat := size (filter (fun x => x.2 = k) m).
Definition module_of w : gmap Z Z := sb_module <$> sandboxes w.

(** What a sandbox has from its preparation to its release. *)
Definition outfit w (s : sandbox) : Prop :=
  exists stack gs m, sb_stack s = Some stack /\ globals_wf (sb_globals s) gs
    /\ modules w !! sb_module s = Some m /\ stack_wf stack (stack_size m).

Definition outfitted w : Prop :=
  forall q s, sandboxes w !! q = Some s -> sb_variant s <> VARIANT_UNUSED -> outfit w s.

(** What stays of a module. *)
Definition fixed (m : module L) : Z * Z * abi_symbols * list Z :=
  (reference_count m, stack_size m, abi m, mod_path m).

Record conserved w w' : Prop := {
  kp_module : module_of w' = module_of w;
  kp_sessions : sessions w' ≡ₚ sessions w;
  kp_fixed k : fixed <$> modules w' !! k = fixed <$> modules w !! k;
  kp_outfitted : outfitted w -> outfitted w';
  kp_cleanup : cleanup_queue w' = cleanup_queue w;
  kp_deferred : deferred_sigalrm w = 0 -> deferred_sigalrm w' = 0;
}.

#[export] Instance conserved_preorder : PreOrder conserved.
Proof.
  split.
  - intros w. by split.
  - intros w1 w2 w3 [? P1 ? ? ? ?] [? P2 ? ? ? ?]. split; [congruence | by rewrite P2 | congruence | auto | congruence | auto].
Qed.

(** Only a context switch touches the context of the worker itself, and only the
    end of a sandbox answers a client. *)
Definition steady w w' : Prop := conserved w w' /\ base_variant w' = base_variant w.
Definition kept w w' : Prop := steady w w' /\ responses w' = responses w.

#[export] Instance steady_preorder : PreOrder steady.
Proof. split; [done|]. intros w1 w2 w3 [K1 B1] [K2 B2]. split; [by etrans | congruence]. Qed.

#[export] Instance kept_preorder : PreOrder kept.
Proof. split; [done|]. intros w1 w2 w3 [K1 B1] [K2 B2]. split; [by etrans | congruence]. Qed.

Lemma kept_steady w w' : kept w w' -> steady w w'.
Proof. by intros []. Qed.

Lemma kept_conserved w w' : kept w w' -> conserved w w'.
Proof. by intros [[]]. Qed.

(** ** One sandbox *)

Lemma held_insert (m : gmap Z sandbox) p s s' :
  m !! p = Some s -> held (<[p := s']> m) ≡ₚ option_list (sb_http s') ++ held (delete p m).
Proof.
  intros E. unfold held. rewrite <- insert_delete_eq, map_to_list_insert by apply lookup_delete_eq.
  cbn. by destruct (sb_http s').
Qed.

Lemma held_lookup (m : gmap Z sandbox) p s : m !! p = Some s -> held m ≡ₚ option_list (sb_http s) ++ held (delete p m).
Proof. intros E. rewrite <- (insert_id m p s) at 1 by done. by apply (held_insert m p s). Qed.

Lemma module_of_insert (m : gmap Z sandbox) p s s' :
  m !! p = Some s -> sb_module s' = sb_module s -> sb_module <$> <[p := s']> m = sb_module <$> m.
Proof. intros E Em. rewrite fmap_insert, Em, insert_id; [done|]. by rewrite lookup_fmap, E. Qed.

(** The same resources. *)
Definition same_outfit (s s' : sandbox) : Prop :=
  (sb_variant s' <> VARIANT_UNUSED -> sb_variant s <> VARIANT_UNUSED) /\ sb_module s' = sb_module s
  /\ sb_stack s' = sb_stack s /\ forall gs, globals_wf (sb_globals s) gs -> exists gs', globals_wf (sb_globals s') gs'.

Lemma outfitted_put w w' p s s' :
  (forall k, fixed <$> modules w' !! k = fixed <$> modules w !! k) -> sandboxes w !! p = Some s ->
  sandboxes w' = <[p := s']> (sandboxes w) -> same_outfit s s' -> outfitted w -> outfitted w'.
Proof.
  intros Em E Es (Hv & Hm & Hs & Hg) Ho q sq. rewrite Es.
  assert (Hout : forall s1 s2, sb_module s2 = sb_module s1 -> sb_stack s2 = sb_stack s1 ->
    (forall gs, globals_wf (sb_globals s1) gs -> exists gs', globals_wf (sb_globals s2) gs') -> outfit w s1 -> outfit w' s2).
  { intros s1 s2 H1 H2 H3 (stack & gs & m & E1 & E2 & E3 & E4). destruct (H3 gs E2) as [gs' E2'].
    specialize (Em (sb_module s1)). rewrite E3 in Em. destruct (modules w' !! sb_module s1) as [m'|] eqn:E3'; [|done].
    injection Em as _ Ess _ _. exists stack, gs', m'. rewrite H1, H2, Ess. done. }
  destruct (decide (q = p)) as [->|Hne].
  - rewrite lookup_insert_eq. intros [= <-] Hu. eapply (Hout s); eauto.
  - rewrite lookup_insert_ne by done. intros Eq Hu. eapply (Hout sq); eauto.
Qed.

Lemma kept_put w p s s' :
  sandboxes w !! p = Some s -> sb_http s' = sb_http s -> same_outfit s s' -> kept w (sb_put w p s').
Proof.
  intros E Eh Ho. split; [|done]. split; [|done]. split; try done.
  - apply (module_of_insert _ _ s); [done | apply Ho].
  - unfold sessions. cbn. by rewrite (held_insert _ _ s) by done; rewrite Eh, <- (held_lookup _ _ s).
  - by apply (outfitted_put w _ p s s').
Qed.

(** The rest of the world. *)
Lemma conserved_same w w' :
  sandboxes w' = sandboxes w -> modules w' = modules w -> responses w' = responses w ->
  cleanup_queue w' = cleanup_queue w -> (deferred_sigalrm w = 0 -> deferred_sigalrm w' = 0) -> conserved w w'.
Proof.
  intros Es Em Er Ec. split; try done.
  - unfold module_of. by rewrite Es.
  - unfold sessions. by rewrite Er, Es.
  - intros k. by rewrite Em.
  - intros Ho q s. rewrite Es. intros E Hv. destruct (Ho q s E Hv) as (stack & gs & m & ? & ? & ? & ?).
    exists stack, gs, m. by rewrite Em.
Qed.

Lemma kept_same w w' :
  sandboxes w' = sandboxes w -> modules w' = modules w -> responses w' = responses w ->
  cleanup_queue w' = cleanup_queue w -> deferred_sigalrm w' = deferred_sigalrm w -> base_variant w' = base_variant w ->
  kept w w'.
Proof. intros ? ? ? ? Ed ?. split; [|done]. split; [|done]. apply conserved_same; try done. by rewrite Ed. Qed.

Lemma kept_module w k m m' :
  modules w !! k = Some m -> fixed m' = fixed m -> kept w (set_modules w (<[k := m']> (modules w))).
Proof.
  intros E Ef.
  assert (Em : forall j, fixed <$> (<[k := m']> (modules w)) !! j = fixed <$> modules w !! j).
  { intros j. destruct (decide (j = k)) as [->|Hne];
      [rewrite lookup_insert_eq, E; cbn; by rewrite Ef | by rewrite lookup_insert_ne]. }
  split; [|done]. split; [|done]. split; try done. intros Ho q s Eq Hv. destruct (Ho q s Eq Hv) as (stack & gs & mq & E1 & E2 & E3 & E4).
  specialize (Em (sb_module s)). rewrite E3 in Em. cbn. destruct (<[k:=m']> (modules w) !! sb_module s) as [m2|] eqn:E5; [|done].
  injection Em as _ Ess _ _. exists stack, gs, m2. by rewrite Ess.
Qed.
End kept.

Create HintDb kept.

(** Follow the steps of an operation that returned. *)
Ltac kept_steps :=
  repeat match goal with
  | H : sb_get _ _ = Ret _ |- _ => apply sb_get_inv in H
  | H : module_at _ _ = Ret _ |- _ => unfold module_at in H
  | H : context [decide ?P] |- _ => destruct (decide P)
  | H : (if ?b then _ else _) = Ret _ |- _ => destruct b
  | H : (let '(_, _) := ?x in _) = Ret _ |- _ => destruct x
  | H : match ?x with _ => _ end = Ret _ |- _ => destruct x eqn:?
  | _ => inv_outcome_step
  end.

(** Read back what was just put. *)
Ltac puts :=
  repeat match goal with
  | E : context [<[?p := _]> _ !! ?p] |- _ => cbn in E; rewrite lookup_insert_eq in E; simplify_eq/=
  | E : sandboxes _ !! _ = Some _ |- _ => progress cbn in E
  end.

Section operations.
Context {L : Type} `{SpinLock L} {RQ : Type} `{Runqueue RQ}.
Variable worker_thread_idx : nat.
Implicit Types w : world L RQ.

Lemma write_state_kept w p st w' : write_state w p st = Ret w' -> kept w w'.
Proof. unfold write_state. intros E. kept_steps. eapply kept_put; [done..|]. repeat split; eauto. Qed.

Lemma bookkeeping_kept w p st now w' : bookkeeping w p st now = Ret w' -> kept w w'.
Proof.
  unfold bookkeeping, account. intros E. kept_steps. eapply kept_put; [done..|]. repeat split; eauto.
Qed.

Lemma updates_kept w p w' : sandbox_process_scheduler_updates w p = Ret w' -> kept w w'.
Proof. unfold sandbox_process_scheduler_updates. intros E. kept_steps; by apply kept_same. Qed.

Lemma runqueue_add_kept w p w' : runqueue_add w p = Ret w' -> kept w w'.
Proof. unfold runqueue_add. intros E. kept_steps. by apply kept_same. Qed.

Lemma runqueue_delete_kept w p w' : runqueue_delete w p = Ret w' -> kept w w'.
Proof. unfold runqueue_delete. intros E. kept_steps. by apply kept_same. Qed.

Lemma free_memory_kept w p w' : sandbox_free_linear_memory worker_thread_idx w p = Ret w' -> kept w w'.
Proof.
  unfold sandbox_free_linear_memory, module_free_linear_memory, wasm_memory_reinit. intros E. kept_steps.
  match goal with |- kept w (sb_put (set_modules w (<[_ := ?m']> _)) p ?s') =>
    etrans; [apply (kept_module w (sb_module a) a0 m'); done | eapply kept_put; [done..|]] end.
  repeat split; eauto.
Qed.

Lemma respond_steady w p status w' : respond w p status = Ret w' -> steady w w'.
Proof.
  unfold respond. intros E. kept_steps. split; [|done]. split; try done; cbn.
  - apply (module_of_insert _ _ a); done.
  - unfold sessions. cbn. rewrite (held_insert _ _ a), (held_lookup (sandboxes w) p a) by done. rewrite Heqo, fmap_app. cbn.
    by rewrite <- app_assoc.
  - apply (outfitted_put w _ p a (set_sb_http a None)); try done. repeat split; eauto.
Qed.

Lemma current_set_kept w p w' : current_sandbox_set w p = Ret w' -> kept w w'.
Proof. unfold current_sandbox_set. intros E. kept_steps; by apply kept_same. Qed.

Lemma replay_kept w : kept w (software_interrupt_deferred_sigalrm_replay w).
Proof. unfold software_interrupt_deferred_sigalrm_replay. destruct (0 <? _); [|done]. split; [|done]. split; [by apply conserved_same | done]. Qed.
End operations.

#[export] Hint Resolve write_state_kept bookkeeping_kept updates_kept runqueue_add_kept runqueue_delete_kept free_memory_kept
  current_set_kept : kept.

(** From the kept parts to the kept whole. *)
Ltac kept_chain :=
  repeat first [reflexivity | etrans; [solve [eauto 3 with kept nocore]|]].

Ltac steady_chain :=
  repeat first [reflexivity | etrans; [solve [eapply respond_steady; eassumption | apply kept_steady; eauto 3 with kept nocore]|]].

Ltac kept_op := intros ?; kept_steps; kept_chain.

Section transitions.
Context {L : Type} `{SpinLock L} {RQ : Type} `{Runqueue RQ}.
Variable worker_thread_idx : nat.
Implicit Types w : world L RQ.

Lemma running_sys_kept w p st now w' : sandbox_set_as_running_sys w p st now = Ret w' -> kept w w'.
Proof. unfold sandbox_set_as_running_sys. kept_op. Qed.

Lemma syscall_kept w p now w' : sandbox_syscall w p now = Ret w' -> kept w w'.
Proof. unfold sandbox_syscall, sandbox_set_as_running_sys. kept_op. Qed.

Lemma running_user_kept w p st now w' : sandbox_set_as_running_user w p st now = Ret w' -> kept w w'.
Proof. unfold sandbox_set_as_running_user. kept_op; apply replay_kept. Qed.

Lemma return_kept w p now w' : sandbox_return w p now = Ret w' -> kept w w'.
Proof. unfold sandbox_return. intros E. kept_steps. by eapply running_user_kept. Qed.

Lemma interrupt_kept w p now w' : sandbox_interrupt w p now = Ret w' -> kept w w'.
Proof. unfold sandbox_interrupt, sandbox_set_as_interrupted. kept_op. Qed.

Lemma interrupt_return_kept w p st now w' : sandbox_interrupt_return w p st now = Ret w' -> kept w w'.
Proof. unfold sandbox_interrupt_return. intros E. kept_steps. eapply kept_put; [done..|]. repeat split; eauto. Qed.

Lemma preempt_kept w p now w' : sandbox_preempt w p now = Ret w' -> kept w w'.
Proof. unfold sandbox_preempt, sandbox_set_as_preempted. kept_op. Qed.

Lemma dispatched_kept w p s now : sandboxes w !! p = Some s -> kept w (sb_put w p (set_dispatched s now)).
Proof. intros E. eapply kept_put; [done..|]. repeat split; eauto. Qed.

Lemma completion_kept w p s now : sandboxes w !! p = Some s -> kept w (sb_put w p (set_completion s now)).
Proof. intros E. eapply kept_put; [done..|]. repeat split; eauto. Qed.

Lemma runnable_kept w p st now w' : sandbox_set_as_runnable w p st now = Ret w' -> kept w w'.
Proof.
  unfold sandbox_set_as_runnable. intros E. kept_steps.
  - etrans; [eauto with kept|]. etrans; [by apply dispatched_kept|]. kept_chain.
  - kept_chain.
Qed.

Lemma returned_steady w p st now w' : sandbox_set_as_returned worker_thread_idx w p st now = Ret w' -> steady w w'.
Proof. unfold sandbox_set_as_returned. intros E. kept_steps. steady_chain. Qed.

Lemma exit_success_kept w p now t0 t1 w' : sandbox_exit_success false w p now t0 t1 = Ret w' -> kept w w'.
Proof.
  unfold sandbox_exit_success, sandbox_set_as_complete. intros E. kept_steps.
  etrans; [eauto with kept|]. etrans; [eapply (completion_kept _ p _ now); eassumption|].
  etrans; [eauto with kept|]. by apply kept_same.
Qed.

Lemma exit_error_steady w p now w' : sandbox_exit_error false worker_thread_idx w p now = Ret w' -> steady w w'.
Proof.
  unfold sandbox_exit_error, sandbox_set_as_error, admissions_control_subtract. intros E. kept_steps.
  all: steady_chain.
Qed.

(** ** Preparation, dispatch and context switches *)

Lemma globals_set_kept type globals gs idx value mut pad ok rc globals' :
  globals_wf globals gs -> wasm_globals_set type globals idx value mut pad ok = Ret (rc, globals') ->
  exists gs', globals_wf globals' gs'.
Proof.
  intros Hg E. destruct (gs !! idx) as [g|] eqn:Ei.
  - destruct (global_read_ok _ _ _ _ Hg Ei) as [Eg Er]. unfold wasm_globals_set, global_at in E. rewrite Eg, Er in E. ostep.
    destruct (decide (g_type g = WASM_GLOBAL_TYPE_UNUSED \/ g_mut g = true)) as [Hd|Hd].
    + destruct (globals_set_ok type globals gs idx g value mut pad ok Hg Ei Hd) as (g' & E' & Hg').
      unfold wasm_globals_set, global_at in E'. rewrite Eg, Er in E'. revert E E'. ostep. intros -> [= -> ->]. eauto.
    + revert E. ostep. rewrite bool_decide_false by tauto. destruct (g_mut g); [tauto|]. cbn. intros [= _ <-]. eauto.
  - destruct Hg as (_ & _ & Hl & Hb). unfold wasm_globals_set, global_at, vec_get in E. rewrite decide_True in E; [done|].
    apply lookup_ge_None in Ei. lia.
Qed.

Lemma writeback_kept w p pad w' : globals_writeback w p pad = Ret w' -> kept w w'.
Proof.
  unfold globals_writeback. intros E. kept_steps. eapply kept_put; [done..|]. repeat split; try done.
  intros gs Hg. by eapply globals_set_kept.
Qed.

Lemma variant_kept w p s v :
  sandboxes w !! p = Some s -> sb_variant s <> VARIANT_UNUSED -> kept w (sb_put w p (set_sb_variant s v)).
Proof. intros E Hv. eapply kept_put; [done..|]. repeat split; eauto. Qed.

Lemma restore_fast_kept w p w' : arch_context_restore_fast w p = Ret w' -> kept w w'.
Proof.
  unfold arch_context_restore_fast. intros E. kept_steps. apply bool_decide_eq_true in E1.
  eapply variant_kept; [done|congruence].
Qed.

Lemma restore_slow_kept w p w' : arch_context_restore_slow w p = Ret w' -> kept w w'.
Proof.
  unfold arch_context_restore_slow. intros E. kept_steps. apply bool_decide_eq_true in E1.
  eapply variant_kept; [done|congruence].
Qed.

Lemma save_slow_kept w p w' : arch_context_save_slow w p = Ret w' -> kept w w'.
Proof.
  unfold arch_context_save_slow. intros E. kept_steps. apply bool_decide_eq_true in E1.
  eapply variant_kept; [done|congruence].
Qed.

Lemma write_variant_conserved w c v v' w' :
  variant_of w c = Ret v -> v <> VARIANT_UNUSED -> write_variant w c v' = Ret w' -> conserved w w'.
Proof.
  destruct c; unfold variant_of, write_variant; intros Ev Hv E; kept_steps; [by apply conserved_same|]. simplify_eq.
  apply kept_conserved. by eapply variant_kept.
Qed.

Lemma context_switch_conserved w a b w' usr1 : arch_context_switch w a b = Ret (w', usr1) -> conserved w w'.
Proof.
  unfold arch_context_switch. intros E. kept_steps.
  - apply bool_decide_eq_true in E2. eapply write_variant_conserved; [exact E1|congruence|done].
  - apply bool_decide_eq_true in E2. etrans; [eapply write_variant_conserved; [exact E1|congruence|done]|].
    apply negb_true_iff, bool_decide_eq_false in E0.
    eapply (write_variant_conserved _ b a3); [|by intros ->|done].
    revert E3 E5. destruct a as [|pa], b as [|pb]; cbn; intros E3 E5; kept_steps; try done.
    + unfold sb_get in *. cbn in *. kept_steps. by rewrite E.
    + unfold sb_get. cbn. rewrite lookup_insert_ne by congruence. match goal with Hb : sandboxes w !! pb = Some _ |- _ => by rewrite Hb end.
Qed.
End transitions.

#[export] Hint Resolve running_sys_kept syscall_kept running_user_kept return_kept interrupt_kept interrupt_return_kept preempt_kept
  runnable_kept exit_success_kept writeback_kept restore_fast_kept restore_slow_kept save_slow_kept
  : kept.

Section preparation.
Context {L : Type} `{SpinLock L} {RQ : Type} `{RunqueueLaws RQ}.
Variable worker_thread_idx : nat.
Implicit Types w : world L RQ.
Abbreviation wf := (wf worker_thread_idx).

Lemma allocate_memory_fixed (m m' : module L) mem b1 b2 b3 :
  module_allocate_linear_memory m worker_thread_idx b1 b2 b3 = Ret (mem, m') -> fixed m' = fixed m.
Proof. unfold module_allocate_linear_memory. intros E. kept_steps; done. Qed.

Lemma allocate_stack_fixed (m m' : module L) stack mm b :
  module_allocate_stack m worker_thread_idx mm b = Ret (stack, m') -> fixed m' = fixed m.
Proof. unfold module_allocate_stack. intros E. kept_steps; done. Qed.

Lemma kept_equip w w' p s s' m m' :
  sandboxes w !! p = Some s -> sandboxes w' = <[p := s']> (sandboxes w) -> sb_http s' = sb_http s -> sb_module s' = sb_module s ->
  modules w !! sb_module s = Some m -> modules w' = <[sb_module s := m']> (modules w) -> fixed m' = fixed m ->
  responses w' = responses w -> cleanup_queue w' = cleanup_queue w -> deferred_sigalrm w' = deferred_sigalrm w ->
  base_variant w' = base_variant w -> outfit w' s' -> kept w w'.
Proof.
  intros E Es Eh Em Emod Emod' Ef Er Ec Ed Eb Ho.
  assert (K : kept w (set_modules w (<[sb_module s := m']> (modules w)))) by (by eapply kept_module).
  split; [|done]. split; [|done]. split; try done.
  - unfold module_of. rewrite Es. by apply (module_of_insert _ _ s).
  - unfold sessions. rewrite Er, Es. by rewrite (held_insert _ _ s) by done; rewrite Eh, <- (held_lookup _ _ s).
  - intros k. rewrite Emod'. apply (kp_fixed _ _ (kept_conserved _ _ K)).
  - intros Hold q sq. rewrite Es. destruct (decide (q = p)) as [->|Hne].
    + rewrite lookup_insert_eq. by intros [= <-].
    + rewrite lookup_insert_ne by done. intros Eq Hv.
      destruct (kp_outfitted _ _ (kept_conserved _ _ K) Hold q sq Eq Hv) as (stack & gs & mq & ? & ? & ? & ?). exists stack, gs, mq. by rewrite Emod'.
  - by rewrite Ed.
Qed.

(** A preparation that succeeds gives the sandbox its outfit. *)
Lemma prepare_kept w l p s m env now w' rc :
  wf w l -> sandboxes w !! p = Some s -> modules w !! sb_module s = Some m -> 0 < globals_len (abi m) -> prepare_succeeds env ->
  sandbox_prepare_execution_environment false worker_thread_idx w p env now = Ret (rc, w') -> kept w w'.
Proof.
  intros W E Em Hg [buffer ->]. destruct (wf_modules _ _ _ W _ _ Em) as [Wm Hl].
  destruct (globals_init_wf (sb_globals s) (Z.to_nat (globals_len (abi m)))) as (globals & Eg & Wg); [lia|].
  destruct (allocate_linear_memory_ok m worker_thread_idx Wm Hl) as (mem & m1 & E1 & _ & W1 & A1 & Ess & P1).
  destruct (allocate_stack_ok m1 worker_thread_idx buffer W1) as (stack & m2 & E2 & Hst & W2 & A2 & P2); [lia|].
  unfold sandbox_prepare_execution_environment, module_at. cbn [env_response env_globals env_aligned env_mmap
    env_mprotect env_stack_mmap env_stack_mprotect negb].
  rewrite (sb_get_ok _ _ _ E). ostep. rewrite Em. ostep. rewrite Eg. ostep. rewrite (proj2 (Z.ltb_ge 0 0)) by lia.
  rewrite E1. ostep. rewrite (bool_decide_true (is_Some (Some mem))) by eauto. cbn [negb].
  rewrite E2. ostep. rewrite (bool_decide_true (is_Some (Some stack))) by eauto. cbn [negb]. intros [= _ <-].
  assert (Ef : fixed m2 = fixed m) by (rewrite (allocate_stack_fixed _ _ _ _ _ E2); by eapply allocate_memory_fixed).
  eapply (kept_equip w _ p s (equipped s globals mem stack) m m2); try done.
  - cbn. by rewrite !insert_insert_eq.
  - cbn. by rewrite insert_insert_eq.
  - exists stack, (replicate (Z.to_nat (globals_len (abi m))) zero_global), m2. do 2 (split; [done|]).
    split; [cbn; apply lookup_insert_eq|]. injection Ef as _ Es _ _. rewrite Es. congruence.
Qed.
End preparation.

Section switching.
Context {L : Type} `{SpinLock L} {RQ : Type} `{Runqueue RQ}.
Implicit Types w : world L RQ.

Lemma preemptive_switch_kept w next now w' : scheduler_preemptive_switch_to w next now = Ret w' -> kept w w'.
Proof. unfold scheduler_preemptive_switch_to. kept_op. Qed.

Lemma cooperative_switch_conserved w c next now w' usr1 :
  scheduler_cooperative_switch_to w c next now = Ret (w', usr1) -> conserved w w'.
Proof.
  unfold scheduler_cooperative_switch_to. intros E. kept_steps.
  all: etrans; [|by eapply context_switch_conserved].
  all: apply kept_conserved; kept_chain.
Qed.

Lemma base_switch_conserved w c w' usr1 : scheduler_switch_to_base_context w c = Ret (w', usr1) -> conserved w w'.
Proof. unfold scheduler_switch_to_base_context. intros E. kept_steps. by eapply context_switch_conserved. Qed.
End switching.

#[export] Hint Resolve preemptive_switch_kept : kept.

Section edf.
Context {L : Type} `{SpinLock L}.
Variable worker_thread_idx : nat.
Abbreviation heap := (priority_queue L Z).
Implicit Types w : world L heap.
Abbreviation wf := (wf worker_thread_idx).

(** The policy only takes requests that wait, and prepares them. *)
Lemma edf_next_kept w l (g : heap) bag env next w' g' :
  wf w l -> gs_repr (sandbox_get_priority w) g bag -> (forall p, p ∈ bag -> waiting w env p) -> env_good env ->
  scheduler_edf_get_next false worker_thread_idx w g env = Ret (next, w', g') -> kept w w'.
Proof.
  intros W [R Hlk] Hw Henv E. unfold scheduler_edf_get_next in E. kept_steps; try done.
  pose proof Henv as ((H0 & H1) & H2 & _).
  destruct (locked_dequeue_ok (sandbox_get_priority w) (se_lock env) (se_unlock env) g bag a0 R Hlk H0 H1 H2)
    as (rc & e & g1 & Er & _ & HR).
  change (priority_queue_dequeue_if_earlier (sandbox_get_priority w) false (se_lock env) (se_unlock env) g a0
          = Ret (z, Some z0, g')) in E. rewrite Er in E. injection E as -> -> ->. destruct HR as (_ & _ & _ & bag' & Pb & _).
  destruct (Hw z0) as (s & m & Es & _ & Em & Hg & _); [rewrite Pb; constructor|].
  etrans; [by eapply prepare_kept; [..|apply Henv|exact E7]|]. by eapply runnable_kept.
Qed.

(** A timer interrupt, whatever it decides. *)
Lemma edf_sched_kept w l (g : heap) bag env t1 t2 t3 w' g' :
  wf w l -> gs_repr (sandbox_get_priority w) g bag -> (forall p, p ∈ bag -> waiting w env p) -> env_good env ->
  scheduler_preemptive_sched false worker_thread_idx w g env t1 t2 t3 = Ret (w', g') -> kept w w'.
Proof.
  intros W R Hw Henv E. unfold scheduler_preemptive_sched in E. kept_steps.
  all: match goal with
       | E1 : scheduler_process_policy_specific_updates_on_interrupts _ _ = Ret _ |- _ => injection E1 as <-
       end.
  all: etrans; [eapply edf_next_kept; eassumption|]; kept_chain.
Qed.
End edf.
