(* ===== verification/Preemption.v ===== *)
(** * Preemption: a timer interrupt, end to end

    The SIGALRM handler on a worker that runs user code, from
    [sandbox_interrupt] through the scheduling policy to the context switch.
    The common part of the policies is proved once ([sched_ok]); the theorems
    are for EDF (the earliest deadline runs after every tick) and for FIFO
    (round robin). *)

From Stdlib Require Import ZArith Lia.
From S2P Require Import Prelude Lock PriorityQueue HeapTheory PriorityQueueSpec Deque Bytes Admissions.
From S2P Require Import WasmMemory Globals Module Runqueue Sandbox Scheduler SandboxSpec SandboxSteps SchedulerSpec Conservation.
Local Open Scope Z_scope.

(** How the registers of a sandbox are kept, by state. *)
Definition context_ok (s : sandbox) : Prop :=
  match sb_state s with
  | SANDBOX_RUNNABLE => sb_variant s = VARIANT_FAST
  | SANDBOX_PREEMPTED => sb_variant s = VARIANT_SLOW
  | SANDBOX_RUNNING_SYS | SANDBOX_RUNNING_USER | SANDBOX_INTERRUPTED => sb_variant s = VARIANT_RUNNING
  | _ => True
  end.

(** The states of a sandbox in the middle of its code. *)
Definition started (st : sandbox_state_t) : bool :=
  match st with SANDBOX_RUNNING_USER | SANDBOX_INTERRUPTED | SANDBOX_PREEMPTED => true | _ => false end.

Section preemption.
Context {L : Type} `{SpinLock L} {RQ : Type} `{RunqueueLaws RQ}.
Variable worker_thread_idx : nat.
Implicit Types w : world L RQ.
Abbreviation wf := (wf worker_thread_idx).

Definition contexts_ok w : Prop := forall q s, sandboxes w !! q = Some s -> context_ok s.

(** Every state change so far is before [t]. *)
Definition clock_before w (t : Z) : Prop :=
  forall q s, sandboxes w !! q = Some s -> last_state_change s < t.

Lemma contexts_insert w w' p s :
  contexts_ok w -> sandboxes w' = <[p := s]> (sandboxes w) -> context_ok s -> contexts_ok w'.
Proof.
  intros Hc E Hs q sq. rewrite E. destruct (decide (q = p)) as [->|Hne].
  - rewrite lookup_insert_eq. by intros [= <-].
  - rewrite lookup_insert_ne by done. apply Hc.
Qed.

Lemma clock_insert w w' p s t t' :
  clock_before w t -> t <= t' -> sandboxes w' = <[p := s]> (sandboxes w) -> last_state_change s < t' ->
  clock_before w' t'.
Proof.
  intros Hc Ht E Hs q sq. rewrite E. destruct (decide (q = p)) as [->|Hne].
  - rewrite lookup_insert_eq. by intros [= <-].
  - rewrite lookup_insert_ne by done. intros Eq. specialize (Hc q sq Eq). lia.
Qed.

(** Changing how the registers are kept changes nothing else. *)
Lemma wf_variant w l p s v :
  wf w l -> sandboxes w !! p = Some s -> wf (sb_put w p (set_sb_variant s v)) l.
Proof.
  intros W E. eapply (wf_put _ w _ l p s); eauto; [by apply frame_same | apply W |].
  eapply sb_ok_frame; [by apply frame_same|]. by destruct (wf_sandbox _ _ _ W p s E) as [[] ? ? ? ? ? ? ?].
Qed.

(** Writing global 0 back: an immutable global refuses, and nobody looks. *)
Lemma global_writeback_ok globals gs value pad :
  globals_wf globals gs ->
  exists rc globals' gs', wasm_globals_set_i64 globals 0 value true pad true = Ret (rc, globals') /\ globals_wf globals' gs'.
Proof.
  intros Hgs. assert (exists g0, gs !! 0%nat = Some g0) as [g0 E0].
  { destruct Hgs as (_ & Hp & Hl & _). apply lookup_lt_is_Some_2. lia. }
  destruct (global_read_ok _ _ _ _ Hgs E0) as [Eg Er].
  destruct (decide (g_type g0 = WASM_GLOBAL_TYPE_UNUSED \/ g_mut g0 = true)) as [Hg|Hg].
  - destruct (globals_set_ok WASM_GLOBAL_TYPE_I64 globals gs 0 g0 value true pad true Hgs E0 Hg)
      as (globals' & Es & Hg'). eexists 0, globals', _. split; [exact Es | exact Hg'].
  - exists (-2), globals, gs. split; [|done].
    unfold wasm_globals_set_i64, wasm_globals_set, global_at. rewrite Eg, Er. ostep.
    rewrite bool_decide_false by tauto. by destruct (g_mut g0); [destruct Hg; right|].
Qed.

Lemma writeback_ok w l p s pad :
  wf w l -> sandboxes w !! p = Some s -> executing (sb_state s) = true ->
  exists globals, globals_writeback w p pad = Ret (sb_put w p (set_sb_globals s globals))
    /\ wf (sb_put w p (set_sb_globals s globals)) l.
Proof.
  intros W E He. pose proof (wf_sandbox _ _ _ W p s E) as Hok.
  destruct (ok_globals _ _ _ Hok He) as (gs & Hgs).
  unfold globals_writeback. rewrite (sb_get_ok _ _ _ E). ostep.
  destruct (global_writeback_ok _ gs (wasmg_0 w) pad Hgs) as (rc & globals & gs' & -> & Hgs').
  ostep. exists globals. split; [done|].
  eapply (wf_put _ w _ l p s); eauto; [by apply frame_same | apply W |].
  eapply sb_ok_frame; [by apply frame_same|]. destruct Hok as [[] ? ? ? ? ? ? ?]. split; try done. eauto.
Qed.

(** A step that does not change the runqueue, with the queue's contents named. *)
Lemma moves_queue w l p s st now sent out :
  wf w l -> sandboxes w !! p = Some s -> queued st = queued (sb_state s) ->
  moves worker_thread_idx w p s st now sent out ->
  exists w' s', out = Ret w' /\ wf w' l /\ sandboxes w' = <[p := s']> (sandboxes w)
    /\ sb_state s' = st /\ last_state_change s' = now /\ absolute_deadline s' = absolute_deadline s
    /\ sb_variant s' = sb_variant s /\ (running st = false -> current w' = current w)
    /\ runqueue w' = runqueue w /\ modules w' = modules w.
Proof.
  intros W E Hq (w' & l' & s' & -> & W' & Es & Est & El & _ & Ed & Ev & _ & Ec & Em & _).
  exists w', s'. destruct (Em Hq) as [Er Emm]. split; [done|]. split; [|done].
  split; try apply W'; [| apply W |].
  - eapply rq_repr_perm; [apply (wf_queue _ _ _ W')|]. apply NoDup_Permutation; [apply W' | apply W|]. intros q.
    rewrite (wf_queued _ _ _ W'), (wf_queued _ _ _ W), Es. destruct (decide (q = p)) as [->|Hne].
    + rewrite lookup_insert_eq, E. split; intros (? & [= <-] & Hx); eexists; (split; [done|]); congruence.
    + by rewrite lookup_insert_ne.
  - intros q. rewrite (wf_queued _ _ _ W), Es. destruct (decide (q = p)) as [->|Hne].
    + rewrite lookup_insert_eq, E. split; intros (? & [= <-] & Hx); eexists; (split; [done|]); congruence.
    + by rewrite lookup_insert_ne.
Qed.

Lemma others_not_running w l p q s :
  wf w l -> current w = Some p -> q <> p -> sandboxes w !! q = Some s -> running (sb_state s) = false.
Proof.
  intros W Hc Hne E. destruct (running (sb_state s)) eqn:Hr; [|done].
  destruct (ok_running _ _ _ (wf_sandbox _ _ _ W q s E) Hr) as [Hc' _]. congruence.
Qed.

(** Giving the processor to a sandbox that waits on the runqueue. *)
Lemma switch_to_ok w l next s now :
  wf w l -> contexts_ok w -> idle w -> sandboxes w !! next = Some s -> queued (sb_state s) = true ->
  last_state_change s < now <= UINT64_MAX ->
  exists w' s', scheduler_preemptive_switch_to w next now = Ret w' /\ wf w' l
    /\ sandboxes w' = <[next := s']> (sandboxes w) /\ running (sb_state s') = true
    /\ sb_state s' <> SANDBOX_INTERRUPTED /\ context_ok s' /\ current w' = Some next
    /\ runqueue w' = runqueue w /\ absolute_deadline s' = absolute_deadline s /\ last_state_change s' = now
    /\ queued (sb_state s') = true /\ (started (sb_state s') = true -> started (sb_state s) = true).
Proof.
  intros W Hc Hi E Hq Hn. pose proof (Hc _ _ E) as Hv. pose proof (Hi _ _ E) as Hr. unfold context_ok in Hv.
  unfold scheduler_preemptive_switch_to. rewrite (sb_get_ok _ _ _ E). ostep.
  pose proof (wf_variant w l next s VARIANT_RUNNING W E) as W1.
  set (s1 := set_sb_variant s VARIANT_RUNNING) in *. set (w1 := sb_put w next s1) in *.
  assert (E1 : sandboxes w1 !! next = Some s1) by apply lookup_insert_eq.
  assert (Hi1 : idle w1).
  { intros q sq. cbn. destruct (decide (q = next)) as [->|Hne].
    - rewrite lookup_insert_eq. by intros [= <-].
    - rewrite lookup_insert_ne by done. apply Hi. }
  destruct (sb_state s) eqn:Hs; try discriminate Hq; try discriminate Hr; rewrite Hv; rewrite bool_decide_true by done; ostep.
  - unfold arch_context_restore_fast. rewrite (sb_get_ok _ _ _ E). ostep. rewrite bool_decide_true by done. ostep.
    fold s1. fold w1. pose proof (resume_fast_ok worker_thread_idx w1 l next s1 now W1 E1 Hn Hs Hi1) as M.
    revert M. unfold exec, in_state. rewrite (sb_get_ok _ _ _ E1). ostep. rewrite bool_decide_true by done. ostep.
    intros M. apply (moves_queue w1 l) in M as (w' & s' & -> & W' & Es & Est & El & Ed & Ev & _ & Er & _); [|done..|by cbn; rewrite Hs].
    exists w', s'. split; [done|]. split; [done|].
    split; [by rewrite Es; cbn; rewrite insert_insert_eq|]. unfold context_ok. rewrite Est, Ev.
    do 3 (split; [done|]). split; [|by rewrite El].
    apply (ok_running _ _ _ (wf_sandbox _ _ _ W' next s' ltac:(rewrite Es; apply lookup_insert_eq))). by rewrite Est.
  - unfold arch_context_restore_slow. rewrite (sb_get_ok _ _ _ E). ostep. rewrite bool_decide_true by done. ostep.
    fold s1. fold w1. pose proof (resume_slow_ok worker_thread_idx w1 l next s1 now W1 E1 Hn Hs Hi1) as M.
    revert M. unfold exec, in_state. rewrite (sb_get_ok _ _ _ E1). ostep. rewrite bool_decide_true by done. ostep.
    intros M. apply (moves_queue w1 l) in M as (w' & s' & -> & W' & Es & Est & El & Ed & Ev & _ & Er & _); [|done..|by cbn; rewrite Hs].
    exists w', s'. split; [done|]. split; [done|].
    split; [by rewrite Es; cbn; rewrite insert_insert_eq|]. unfold context_ok. rewrite Est, Ev.
    do 3 (split; [done|]). split; [|by rewrite El].
    apply (ok_running _ _ _ (wf_sandbox _ _ _ W' next s' ltac:(rewrite Es; apply lookup_insert_eq))). by rewrite Est.
Qed.

(** The sandbox [n] has the processor. *)
Definition on_processor w (n : Z) : Prop :=
  current w = Some n /\ exists s, sandboxes w !! n = Some s
    /\ (sb_state s = SANDBOX_RUNNING_USER \/ sb_state s = SANDBOX_RUNNING_SYS).

Definition same_deadlines w w' : Prop := forall q, sandbox_get_priority w' q = sandbox_get_priority w q.

Lemma same_deadlines_insert w w' p s s' :
  sandboxes w !! p = Some s -> sandboxes w' = <[p := s']> (sandboxes w) ->
  absolute_deadline s' = absolute_deadline s -> same_deadlines w w'.
Proof.
  intros E Es Ed q. unfold sandbox_get_priority. rewrite Es. destruct (decide (q = p)) as [->|Hne].
  - by rewrite lookup_insert_eq, E.
  - by rewrite lookup_insert_ne.
Qed.

(** Only sandboxes of the runqueue change, not after [t], and none gets into the
    middle of its code that was not there. *)
Definition stirred (t : Z) w w' : Prop :=
  forall q s', sandboxes w' !! q = Some s' ->
    sandboxes w !! q = Some s'
    \/ queued (sb_state s') = true /\ last_state_change s' <= t
       /\ (started (sb_state s') = true -> exists s, sandboxes w !! q = Some s /\ started (sb_state s) = true).

Lemma stirred_insert t w w' p s s' :
  sandboxes w !! p = Some s -> sandboxes w' = <[p := s']> (sandboxes w) -> queued (sb_state s') = true ->
  last_state_change s' <= t -> (started (sb_state s') = true -> started (sb_state s) = true) -> stirred t w w'.
Proof.
  intros E Es Hq Ht Hst q sq. rewrite Es. destruct (decide (q = p)) as [->|Hne].
  - rewrite lookup_insert_eq. intros [= <-]. right. eauto 6.
  - rewrite lookup_insert_ne by done. by left.
Qed.

Lemma stirred_trans t t1 t2 w1 w2 w3 : stirred t1 w1 w2 -> stirred t2 w2 w3 -> t1 <= t -> t2 <= t -> stirred t w1 w3.
Proof.
  intros S1 S2 Ht1 Ht2 q s E. destruct (S2 q s E) as [E2|(Hq & Hl & Hst)].
  - destruct (S1 q s E2) as [?|(? & ? & ?)]; [by left|]. right. split; [done|]. split; [lia|done].
  - right. split; [done|]. split; [lia|]. intros Hs. destruct (Hst Hs) as (s2 & E2 & H2s).
    destruct (S1 q s2 E2) as [?|(_ & _ & Hst1)]; [by eexists|auto].
Qed.

Lemma stirred_refl t w : stirred t w w.
Proof. by left. Qed.

Lemma stirred_advanced t w w' : advanced w w' t -> stirred t w w'.
Proof.
  intros [_ Hn _] q s E. destruct (Hn q s E) as [?|(Hs & _ & Hl)]; [by left|]. right. rewrite Hs. split; [done|]. split; [lia|done].
Qed.

Lemma same_deadlines_trans w1 w2 w3 : same_deadlines w1 w2 -> same_deadlines w2 w3 -> same_deadlines w1 w3.
Proof. intros H12 H23 q. by rewrite H23, H12. Qed.

(** The timer interrupt itself. *)
Lemma interrupted_ok w l p s t :
  wf w l -> contexts_ok w -> sandboxes w !! p = Some s -> sb_state s = SANDBOX_RUNNING_USER ->
  clock_before w t -> t <= UINT64_MAX ->
  exists w' s', sandbox_interrupt w p t = Ret w' /\ wf w' l /\ contexts_ok w' /\ current w' = Some p
    /\ sandboxes w' = <[p := s']> (sandboxes w) /\ sb_state s' = SANDBOX_INTERRUPTED
    /\ last_state_change s' = t /\ runqueue w' = runqueue w /\ modules w' = modules w /\ same_deadlines w w'.
Proof.
  intros W Hc E Hs Hk Ht. pose proof (Hk p s E) as Hlt.
  pose proof (interrupt_ok worker_thread_idx w l p s t W E (conj Hlt Ht) Hs) as M.
  apply (moves_queue w l) in M as (w' & s' & -> & W' & Es & Est & El & Ed & Ev & _ & Er & Em); [|done..|by rewrite Hs].
  assert (E' : sandboxes w' !! p = Some s') by (rewrite Es; apply lookup_insert_eq).
  exists w', s'. split; [done|]. split; [done|]. split.
  { eapply contexts_insert; eauto. unfold context_ok. rewrite Est, Ev. specialize (Hc p s E).
    unfold context_ok in Hc. by rewrite Hs in Hc. }
  split; [by apply (ok_running _ _ _ (wf_sandbox _ _ _ W' p s' E')); rewrite Est|].
  do 5 (split; [done|]). by eapply same_deadlines_insert.
Qed.

(** Preempting the interrupted sandbox for another one of the runqueue. *)
Lemma preempted_ok w l p s next t_preempt t_switch pad :
  wf w l -> contexts_ok w -> current w = Some p -> sandboxes w !! p = Some s ->
  sb_state s = SANDBOX_INTERRUPTED -> next ∈ l -> next <> p ->
  clock_before w t_preempt -> t_preempt < t_switch <= UINT64_MAX ->
  exists w', (w1 ← sandbox_preempt w p t_preempt;
              w1 ← globals_writeback w1 p pad;
              w1 ← arch_context_save_slow w1 p;
              scheduler_preemptive_switch_to w1 next t_switch) = Ret w'
    /\ wf w' l /\ contexts_ok w' /\ on_processor w' next /\ runqueue w' = runqueue w /\ same_deadlines w w'
    /\ stirred t_switch w w'.
Proof.
  intros W Hc Hcur E Hs Hin Hne Hk Ht. pose proof (Hk p s E) as Hlt.
  pose proof (preempt_ok worker_thread_idx w l p s t_preempt W E ltac:(lia) Hs) as M.
  apply (moves_queue w l) in M as (w1 & s1 & -> & W1 & Es1 & Est1 & El1 & Ed1 & Ev1 & Ec1 & Er1 & _); [|done..|by rewrite Hs].
  ostep. assert (E1 : sandboxes w1 !! p = Some s1) by (rewrite Es1; apply lookup_insert_eq).
  destruct (writeback_ok w1 l p s1 pad W1 E1 ltac:(by rewrite Est1)) as (globals & -> & W2). ostep.
  set (s2 := set_sb_globals s1 globals) in *. set (w2 := sb_put w1 p s2) in *.
  assert (E2 : sandboxes w2 !! p = Some s2) by apply lookup_insert_eq.
  unfold arch_context_save_slow. rewrite (sb_get_ok _ _ _ E2). ostep.
  assert (Hv : sb_variant s2 = VARIANT_RUNNING).
  { cbn. rewrite Ev1. specialize (Hc p s E). unfold context_ok in Hc. by rewrite Hs in Hc. }
  rewrite bool_decide_true by done. ostep.
  pose proof (wf_variant w2 l p s2 VARIANT_SLOW W2 E2) as W3. set (w3 := sb_put w2 p _) in *.
  assert (Es3 : sandboxes w3 = <[p := set_sb_variant s2 VARIANT_SLOW]> (sandboxes w))
    by (cbn; by rewrite Es1, !insert_insert_eq).
  assert (Hc3 : contexts_ok w3) by (eapply contexts_insert; eauto; unfold context_ok; cbn; by rewrite Est1).
  pose proof Hin as (sn & En & Hqn)%(wf_queued _ _ _ W).
  assert (En3 : sandboxes w3 !! next = Some sn) by (by rewrite Es3, lookup_insert_ne).
  assert (Hi3 : idle w3).
  { intros q sq. rewrite Es3. destruct (decide (q = p)) as [->|Hq].
    - rewrite lookup_insert_eq. intros [= <-]. cbn. by rewrite Est1.
    - rewrite lookup_insert_ne by done. by apply (others_not_running w l p). }
  destruct (switch_to_ok w3 l next sn t_switch W3 Hc3 Hi3 En3 Hqn) as
    (w' & s' & -> & W' & Es' & Hr' & Hni & Hc' & Hcur' & Er' & Ed' & El' & Hq' & Hst'); [specialize (Hk next sn En); lia|].
  exists w'. split; [done|]. split; [done|]. split; [by eapply contexts_insert|]. split; [|split; [|split]].
  - split; [done|]. exists s'. split; [rewrite Es'; apply lookup_insert_eq|].
    destruct (sb_state s'); try discriminate; auto. done.
  - rewrite Er'. cbn. by rewrite Er1.
  - eapply same_deadlines_trans; [|by eapply same_deadlines_insert].
    by eapply (same_deadlines_insert w w3 p s).
  - apply (stirred_trans _ t_preempt t_switch w w3 w'); [..|lia|lia].
    + apply (stirred_insert _ w w3 p s (set_sb_variant s2 VARIANT_SLOW)); [done|done| | |]; cbn; rewrite ?Est1, ?El1, ?Hs; done.
    + apply (stirred_insert _ w3 w' next sn s'); [done..|by rewrite El'|done].
Qed.

(** Resuming the interrupted sandbox. *)
Lemma interrupt_returned_ok w l p s t_return :
  wf w l -> contexts_ok w -> sandboxes w !! p = Some s -> sb_state s = SANDBOX_INTERRUPTED ->
  clock_before w t_return -> t_return <= UINT64_MAX ->
  exists w', sandbox_interrupt_return w p SANDBOX_RUNNING_USER t_return = Ret w'
    /\ wf w' l /\ contexts_ok w' /\ on_processor w' p /\ runqueue w' = runqueue w /\ same_deadlines w w'
    /\ stirred t_return w w'.
Proof.
  intros W Hc E Hs Hk Ht. pose proof (Hk p s E) as Hlt.
  pose proof (interrupt_return_ok worker_thread_idx w l p s t_return W E (conj Hlt Ht) Hs) as M.
  revert M. unfold exec, in_state. rewrite (sb_get_ok _ _ _ E). ostep.
  rewrite (bool_decide_true (sb_state s = _)) by done. ostep. intros M.
  apply (moves_queue w l) in M as (w' & s' & -> & W' & Es & Est & El & Ed & Ev & _ & Er & _); [|done..|by rewrite Hs].
  assert (E' : sandboxes w' !! p = Some s') by (rewrite Es; apply lookup_insert_eq).
  exists w'. split; [done|]. split; [done|]. split; [|split; [|split; [done|split; [by eapply same_deadlines_insert|]]]].
  - eapply contexts_insert; eauto. unfold context_ok. rewrite Est, Ev. specialize (Hc p s E).
    unfold context_ok in Hc. by rewrite Hs in Hc.
  - split; [by apply (ok_running _ _ _ (wf_sandbox _ _ _ W' p s' E')); rewrite Est|]. eauto.
  - apply (stirred_insert _ w w' p s s'); [done|done|by rewrite Est|lia|by rewrite Hs].
Qed.

(** From the policy's choice to the processor. *)
Lemma sched_ok {G} `{Policy L RQ G} ac w w0 (g g1 : G) env w1 l1 p s next t_return t_preempt t_switch :
  current w = Some p -> sandboxes w !! p = Some s -> sb_state s = SANDBOX_INTERRUPTED ->
  scheduler_process_policy_specific_updates_on_interrupts w env = Ret w0 ->
  scheduler_get_next ac worker_thread_idx w0 g env = Ret (Some next, w1, g1) ->
  wf w1 l1 -> contexts_ok w1 -> current w1 = Some p -> sandboxes w1 !! p = Some s -> next ∈ l1 ->
  clock_before w1 t_return -> t_return <= UINT64_MAX ->
  clock_before w1 t_preempt -> t_preempt < t_switch <= UINT64_MAX ->
  exists w', scheduler_preemptive_sched ac worker_thread_idx w g env t_return t_preempt t_switch = Ret (w', g1)
    /\ wf w' l1 /\ contexts_ok w' /\ on_processor w' next /\ runqueue w' = runqueue w1 /\ same_deadlines w1 w'
    /\ stirred (Z.max t_return t_switch) w1 w'.
Proof.
  intros Hcur E Hs Eu Eg W1 Hc1 Hcur1 E1 Hin Hk1 Ht1 Hk2 Ht2.
  unfold scheduler_preemptive_sched, current_sandbox_get. rewrite Hcur, (sb_get_ok _ _ _ E). ostep.
  rewrite bool_decide_true by done. ostep. rewrite Eu. ostep. rewrite Eg. ostep. case_decide as Hn.
  - subst next. destruct (interrupt_returned_ok w1 l1 p s t_return W1 Hc1 E1 Hs Hk1 Ht1) as (w' & -> & ? & ? & ? & ? & ? & S).
    ostep. exists w'. do 6 (split; [done|]). apply (stirred_trans _ t_return t_return w1 w' w'); [done|apply stirred_refl|lia..].
  - destruct (preempted_ok w1 l1 p s next t_preempt t_switch (se_pad env) W1 Hc1 Hcur1 E1 Hs Hin ltac:(done) Hk2 Ht2)
      as (w' & Ew & ? & ? & ? & ? & ? & S).
    exists w'. split; [|do 5 (split; [done|]); apply (stirred_trans _ t_switch t_switch w1 w' w'); [done|apply stirred_refl|lia..]].
    revert Ew. destruct (sandbox_preempt w1 p t_preempt); [|done]. ostep.
    destruct (globals_writeback _ _ _); [|done]. ostep. destruct (arch_context_save_slow _ _); [|done]. ostep.
    by intros ->.
Qed.

Lemma alarm_sched {G} `{Policy L RQ G} ac w (g g0 g1 : G) env p s wi wk w' ti t_return t_preempt t_switch :
  current w = Some p -> sandboxes w !! p = Some s -> sb_state s = SANDBOX_RUNNING_USER ->
  sandbox_interrupt w p ti = Ret wi -> kernel_promotions wi g env = Ret (wk, g0) ->
  scheduler_preemptive_sched ac worker_thread_idx wk g0 env t_return t_preempt t_switch = Ret (w', g1) ->
  software_interrupt_handle_signals ac worker_thread_idx w g SIGALRM env ti t_return t_preempt t_switch
  = Ret (HReturn w' g1).
Proof.
  intros Hcur E Hs Ei Ek Es. unfold software_interrupt_handle_signals, current_sandbox_is_preemptable, current_sandbox_get.
  rewrite Hcur, E, bool_decide_true by done. rewrite Ei. ostep. rewrite Ek. ostep. by rewrite Es.
Qed.
(** The contexts and the clock after a pull. *)
Lemma advanced_contexts w w' t : advanced w w' t -> contexts_ok w -> contexts_ok w'.
Proof.
  intros [_ Hn _] Hc q s E. apply Hn in E as [E|(Hs & Hv & _)]; [by eapply Hc|]. unfold context_ok. by rewrite Hs.
Qed.

Lemma advanced_clock w w' t t1 t2 :
  advanced w w' t -> clock_before w t1 -> t1 <= t2 -> t < t2 -> clock_before w' t2.
Proof.
  intros [_ Hn _] Hc Ht1 Ht2 q s E. apply Hn in E as [E|(_ & _ & <-)]; [|done]. specialize (Hc q s E). lia.
Qed.

End preemption.

(** ** Earliest deadline first *)

Section edf_tick.
Context {L : Type} `{SpinLock L}.
Variable worker_thread_idx : nat.
Abbreviation heap := (priority_queue L Z).
Implicit Types w : world L heap.
Abbreviation wf := (wf worker_thread_idx).

(** The choice of the policy stays at the top of the local heap. *)
Lemma edf_next_top w (g : heap) env next w' g' :
  scheduler_edf_get_next false worker_thread_idx w g env = Ret (next, w', g') ->
  local_runqueue_get_next (runqueue w') = Ret next.
Proof. unfold scheduler_edf_get_next. intros E. kept_steps; done. Qed.

Lemma edf_tick_ok w l (g : heap) bag env p s t_interrupt t_return t_preempt t_switch :
  wf w l -> contexts_ok w -> pq_heap (sandbox_get_priority w) (runqueue w) ->
  gs_repr (sandbox_get_priority w) g bag -> (forall q, q ∈ bag -> waiting w env q) -> env_good env ->
  current w = Some p -> sandboxes w !! p = Some s -> sb_state s = SANDBOX_RUNNING_USER ->
  clock_before w t_interrupt -> t_interrupt < se_dispatch env -> se_dispatch env < t_return <= UINT64_MAX ->
  se_dispatch env < t_preempt -> t_preempt < t_switch <= UINT64_MAX ->
  exists w' g' l' bag' n,
    software_interrupt_handle_signals false worker_thread_idx w g SIGALRM env
      t_interrupt t_return t_preempt t_switch = Ret (HReturn w' g')
    /\ wf w' l' /\ contexts_ok w' /\ pq_heap (sandbox_get_priority w') (runqueue w')
    /\ gs_repr (sandbox_get_priority w') g' bag'
    /\ (l' = l /\ bag' = bag \/ exists q, bag ≡ₚ q :: bag' /\ l' ≡ₚ q :: l)
    /\ on_processor w' n /\ earliest w' l' bag' (Some n)
    /\ local_runqueue_get_next (runqueue w') = Ret (Some n) /\ kept w w' /\ stirred (Z.max t_return t_switch) w w'.
Proof.
  intros W Hc Hh R Hw Henv Hcur E Hs Hk H1 H2 H3 H4.
  destruct (interrupted_ok worker_thread_idx w l p s t_interrupt W Hc E Hs Hk ltac:(lia))
    as (wi & si & Ei & Wi & Hci & Hcuri & Esi & Hsi & Hli & Eri & Emi & Hdi).
  assert (Eip : sandboxes wi !! p = Some si) by (rewrite Esi; apply lookup_insert_eq).
  assert (Ri : gs_repr (sandbox_get_priority wi) g bag) by (eapply gs_repr_ext; [|exact R]; intros q _; by rewrite Hdi).
  assert (Hwi : forall q, q ∈ bag -> waiting wi env q).
  { intros q Hq. destruct (Hw q Hq) as (sq & m & Eq & Hsq & Hrest). exists sq, m. rewrite Emi, Esi.
    rewrite lookup_insert_ne by congruence. done. }
  destruct (edf_next_ok worker_thread_idx wi l g bag env Wi)
    as (next & w1 & g1 & l1 & bag1 & En & W1 & Hh1 & R1 & Hnl & Hearly & Adv); [|done..|].
  { rewrite Eri. eapply pq_heap_ext; [|apply (wf_queue _ _ _ W)|exact Hh]. intros q _. by rewrite Hdi. }
  assert (Hp1 : p ∈ l1).
  { assert (p ∈ l) by (apply (wf_queued _ _ _ W); exists s; by rewrite Hs).
    destruct Hnl as [[-> _]|(q & _ & ->)]; [done | by constructor]. }
  destruct next as [n|]; [|destruct Hearly as [-> _]; by apply not_elem_of_nil in Hp1].
  assert (Hki : clock_before wi (se_dispatch env)) by (eapply clock_insert; eauto; lia).
  pose proof (adv_kept _ _ _ Adv p si Eip ltac:(by rewrite Hsi)) as E1.
  destruct (sched_ok worker_thread_idx false wi wi g g1 env w1 l1 p si n t_return t_preempt t_switch)
    as (w' & Es & W' & Hc' & Hon & Er' & Hd' & St); try done; try lia.
  - by eapply advanced_contexts.
  - by rewrite (adv_current _ _ _ Adv).
  - apply Hearly.
  - eapply advanced_clock; eauto; lia.
  - eapply advanced_clock; eauto; lia.
  - exists w', g1, l1, bag1, n. split; [by eapply (alarm_sched _ _ w g g); [..|unfold kernel_promotions; destruct (se_kernel env) |]|]. do 2 (split; [done|]).
    split; [rewrite Er'; eapply pq_heap_ext; [|apply (wf_queue _ _ _ W1)|exact Hh1]; intros q _; by rewrite Hd'|].
    split; [eapply gs_repr_ext; [|exact R1]; intros q _; by rewrite Hd'|]. do 2 (split; [done|]).
    split; [destruct Hearly as [Hn He]; split; [done|]; intros b Hb; rewrite !Hd'; by apply He|].
    split; [rewrite Er'; by eapply edf_next_top|]. split.
    + etrans; [by eapply interrupt_kept|]. by eapply edf_sched_kept.
    + apply (stirred_trans _ t_interrupt (Z.max t_return t_switch) w wi w'); [..|lia|lia].
      * apply (stirred_insert _ w wi p s si); [done|done|by rewrite Hsi|lia|by rewrite Hs].
      * apply (stirred_trans _ (se_dispatch env) (Z.max t_return t_switch) wi w1 w'); [by apply stirred_advanced|done|lia..].
Qed.

(** C2: after every timer interrupt the earliest deadline has the processor.
    Under EDF, when a worker running user code gets SIGALRM, the handler
    returns to a world in order in which the sandbox on the processor has a
    deadline no later than any sandbox of the worker and any request that
    still waits, and no sandbox or request was lost.  The allocations for a request
    that is pulled succeed. *)
Theorem edf_tick w l (g : heap) bag env p s t_interrupt t_return t_preempt t_switch :
  wf w l -> contexts_ok w -> pq_heap (sandbox_get_priority w) (runqueue w) ->
  gs_repr (sandbox_get_priority w) g bag -> (forall q, q ∈ bag -> waiting w env q) -> env_good env ->
  current w = Some p -> sandboxes w !! p = Some s -> sb_state s = SANDBOX_RUNNING_USER ->
  clock_before w t_interrupt -> t_interrupt < se_dispatch env -> se_dispatch env < t_return <= UINT64_MAX ->
  se_dispatch env < t_preempt -> t_preempt < t_switch <= UINT64_MAX ->
  exists w' g' l' bag' n,
    software_interrupt_handle_signals false worker_thread_idx w g SIGALRM env
      t_interrupt t_return t_preempt t_switch = Ret (HReturn w' g')
    /\ wf w' l' /\ contexts_ok w' /\ pq_heap (sandbox_get_priority w') (runqueue w')
    /\ gs_repr (sandbox_get_priority w') g' bag'
    /\ (l' = l /\ bag' = bag \/ exists q, bag ≡ₚ q :: bag' /\ l' ≡ₚ q :: l)
    /\ on_processor w' n /\ earliest w' l' bag' (Some n).
Proof.
  intros W Hc Hh R Hw Henv Hcur E Hs Hk H1 H2 H3 H4.
  destruct (edf_tick_ok w l g bag env p s t_interrupt t_return t_preempt t_switch W Hc Hh R Hw Henv Hcur E Hs Hk H1 H2 H3 H4)
    as (w' & g' & l' & bag' & n & ? & ? & ? & ? & ? & ? & ? & ? & _).
  by exists w', g', l', bag', n.
Qed.
End edf_tick.

(** ** Round robin *)

Section fifo_tick.
Context {L : Type} `{SpinLock L} {G : Type} `{GlobalScheduler G}.
Variable worker_thread_idx : nat.
Implicit Types w : world L runqueue_list.
Abbreviation wf := (wf worker_thread_idx).

Lemma rotate_ok (interrupted : Z -> bool) p rest :
  NoDup (p :: rest) -> interrupted p = true ->
  local_runqueue_list_rotate interrupted (mk_runqueue_list (p :: rest)) = Ret (mk_runqueue_list (rest ++ [p])).
Proof.
  intros Hnd Hi. inversion Hnd as [|? ? Hni Hnd']; subst. unfold local_runqueue_list_rotate. cbn [rql_list].
  destruct rest as [|q rest]; [done|].
  unfold local_runqueue_list_remove_and_return, local_runqueue_list_get_head. cbn [rql_list head]. ostep.
  rewrite unlink_head by done. rewrite Hi. ostep. unfold local_runqueue_list_append. cbn [rql_list].
  by rewrite bool_decide_true.
Qed.

Lemma wf_reorder w l q : wf w l -> rql_list q ≡ₚ l -> wf (set_runqueue w q) l.
Proof.
  intros W Hp. split; try apply W.
  - exact Hp.
  - intros p s E. apply (sb_ok_frame w); [by apply frame_same | by apply (wf_sandbox _ _ _ W)].
Qed.

Lemma fifo_rotate_ok ac w l (g : G) env p s rest :
  wf w l -> runqueue w = mk_runqueue_list (p :: rest) -> current w = Some p ->
  sandboxes w !! p = Some s -> sb_state s = SANDBOX_INTERRUPTED ->
  exists n, head (rest ++ [p]) = Some n
    /\ scheduler_fifo_get_next ac worker_thread_idx w g env
       = Ret (Some n, set_runqueue w (mk_runqueue_list (rest ++ [p])), g)
    /\ wf (set_runqueue w (mk_runqueue_list (rest ++ [p]))) l.
Proof.
  intros W Eq Hcur E Hs.
  pose proof (wf_queue _ _ _ W) as Hp. change (rql_list (runqueue w) ≡ₚ l) in Hp. rewrite Eq in Hp. cbn in Hp.
  assert (exists n, head (rest ++ [p]) = Some n) as [n En] by (destruct rest; cbn; eauto).
  exists n. split; [done|]. split; [|apply wf_reorder; [done | cbn; by rewrite Permutation_app_comm]].
  unfold scheduler_fifo_get_next. rewrite Eq.
  change (local_runqueue_get_next (mk_runqueue_list (p :: rest))) with (Ret (Some p) : outcome (option Z)). ostep.
  unfold current_sandbox_get. rewrite decide_True by done. rewrite rotate_ok.
  - ostep. cbn [set_runqueue runqueue]. unfold local_runqueue_get_next. cbn.
    unfold local_runqueue_list_get_next, local_runqueue_list_is_empty, local_runqueue_list_get_head. cbn [rql_list]. ostep.
    rewrite bool_decide_false by (by destruct rest). rewrite En. done.
  - rewrite Hp. apply W.
  - rewrite E. by apply bool_decide_true.
Qed.

(** C14: the FIFO policy is round robin.  When the sandbox at the head of the
    runqueue runs user code and the worker gets SIGALRM, it goes to the end of
    the queue, the others move up in order, and the new head has the
    processor; alone on the queue it continues. *)
Theorem fifo_tick w l (g : G) env p s rest t_interrupt t_return t_preempt t_switch :
  wf w l -> contexts_ok w -> runqueue w = mk_runqueue_list (p :: rest) ->
  current w = Some p -> sandboxes w !! p = Some s -> sb_state s = SANDBOX_RUNNING_USER ->
  clock_before w t_interrupt -> t_interrupt < t_return <= UINT64_MAX ->
  t_interrupt < t_preempt -> t_preempt < t_switch <= UINT64_MAX ->
  exists w' n,
    software_interrupt_handle_signals false worker_thread_idx w g SIGALRM env
      t_interrupt t_return t_preempt t_switch = Ret (HReturn w' g)
    /\ wf w' l /\ contexts_ok w' /\ runqueue w' = mk_runqueue_list (rest ++ [p])
    /\ head (rest ++ [p]) = Some n /\ on_processor w' n.
Proof.
  intros W Hc Eq Hcur E Hs Hk H2 H3 H4.
  destruct (interrupted_ok worker_thread_idx w l p s t_interrupt W Hc E Hs Hk ltac:(lia))
    as (wi & si & Ei & Wi & Hci & Hcuri & Esi & Hsi & Hli & Eri & Emi & Hdi).
  assert (Eip : sandboxes wi !! p = Some si) by (rewrite Esi; apply lookup_insert_eq).
  destruct (fifo_rotate_ok false wi l g env p si rest Wi) as (n & Hn & En & W1); [congruence|done..|].
  set (w1 := set_runqueue wi _) in *.
  assert (Hk1 : forall t, t_interrupt < t -> clock_before w1 t).
  { intros t Ht. eapply (clock_insert w w1 p si); eauto; [lia|]. by rewrite Hli. }
  destruct (sched_ok worker_thread_idx false wi wi g g env w1 l p si n t_return t_preempt t_switch)
    as (w' & Es & W' & Hc' & Hon & Er' & Hd' & _); try done; try lia; try (apply Hk1; lia).
  - pose proof (wf_queue _ _ _ W1) as Hp. change (rest ++ [p] ≡ₚ l) in Hp. rewrite <- Hp.
    by apply head_Some_elem_of.
  - exists w', n. split; [by eapply (alarm_sched _ _ w g g); [..|unfold kernel_promotions; destruct (se_kernel env) |]|]. done.
Qed.
End fifo_tick.

(** ** A worker running one sandbox, with another one preempted *)

Definition demo_in (st : sandbox_state_t) (v : context_variant) : sandbox :=
  set_sb_variant (set_sb_state demo_sandbox st) v.

Definition busy {RQ} (q : RQ) (extra : gmap Z sandbox) : world bool RQ :=
  mk_world (<[100 := demo_in SANDBOX_RUNNING_USER VARIANT_RUNNING]>
              (<[101 := demo_in SANDBOX_PREEMPTED VARIANT_SLOW]> extra)) q {[ 3 := demo_module ]}
    {[ 7 := mk_route 990 demo_info ]} {[ 5 := mk_tenant 0 0 0 ]} 0 [] (Some 100) 1000 0 0 false 2 []
    VARIANT_FAST.

Definition waiting_request : gmap Z sandbox := {[ 200 := demo_request ]}.

Lemma busy_lookup {RQ} (rq : RQ) extra q s :
  sandboxes (busy rq extra) !! q = Some s ->
  q = 100 /\ s = demo_in SANDBOX_RUNNING_USER VARIANT_RUNNING
  \/ q = 101 /\ s = demo_in SANDBOX_PREEMPTED VARIANT_SLOW \/ extra !! q = Some s.
Proof.
  change (sandboxes (busy rq extra)) with (<[100 := demo_in SANDBOX_RUNNING_USER VARIANT_RUNNING]>
    (<[101 := demo_in SANDBOX_PREEMPTED VARIANT_SLOW]> extra)).
  intros E. apply lookup_insert_Some in E as [[<- <-]|[_ E]]; [by left|].
  apply lookup_insert_Some in E as [[<- <-]|[_ E]]; [by right; left | by right; right].
Qed.

Lemma busy_sandbox_ok {RQ} (rq : RQ) extra st v :
  executing st = true -> unanswered st = true -> sb_ok (busy rq extra) 100 (demo_in st v).
Proof.
  intros He Hu. split; cbn; try done; try (by eexists).
  - split; try done; [|vm_compute; done..]. repeat constructor; done.
  - exists demo_module. split; [done|]. intros _. exists demo_memory.
    split; [done|]. split; [by eexists|]. vm_compute. done.
  - intros _. exists (replicate 4 zero_global). split; [done|]. split; [vm_compute; lia|]. by split.
Qed.

Lemma waiting_lookup q s : waiting_request !! q = Some s -> q = 200 /\ s = demo_request.
Proof. unfold waiting_request. intros E. by apply lookup_singleton_Some in E as [<- <-]. Qed.

Lemma busy_wf {RQ} `{RunqueueLaws RQ} (rq : RQ) :
  rq_repr (sandbox_get_priority (busy rq waiting_request)) rq [100; 101] ->
  wf 0 (busy rq waiting_request) [100; 101].
Proof.
  intros R. split; [exact R| | | |].
  - repeat constructor; [|by apply not_elem_of_nil]. by intros ?%list_elem_of_singleton.
  - intros q. rewrite elem_of_cons, list_elem_of_singleton. split.
    + intros [-> | ->]; eexists; (split; [reflexivity | done]).
    + intros (s & [[-> _]|[[-> _]|E]]%busy_lookup & Hq); [by left | by right |].
      apply waiting_lookup in E as [-> ->]. done.
  - intros q s [[-> ->]|[[-> ->]|E]]%busy_lookup.
    + by apply busy_sandbox_ok.
    + destruct (busy_sandbox_ok rq waiting_request SANDBOX_PREEMPTED VARIANT_SLOW) as [? ? ? ? ? ? ? _]; try done.
    + apply waiting_lookup in E as [-> ->]. split; cbn; try done; try (by eexists).
      * split; try done; [|vm_compute; done..]. repeat constructor; done.
  - intros k m. change (modules (busy rq waiting_request)) with ({[ 3 := demo_module ]} : gmap Z (module bool)).
    intros E. apply lookup_singleton_Some in E as [<- <-]. split; [apply demo_module_wf | cbn; lia].
Qed.

Lemma busy_contexts {RQ} (rq : RQ) : contexts_ok (busy rq waiting_request).
Proof.
  intros q s [[-> ->]|[[-> ->]|E]]%busy_lookup; try done. by apply waiting_lookup in E as [-> ->].
Qed.

Lemma busy_clock {RQ} (rq : RQ) : clock_before (busy rq waiting_request) 20.
Proof.
  intros q s [[-> ->]|[[-> ->]|E]]%busy_lookup; try (cbn; lia).
  apply waiting_lookup in E as [-> ->]. cbn. lia.
Qed.

Definition busy_list : runqueue_list := mk_runqueue_list [100; 101].

Lemma fifo_tick_witness :
  exists w' n,
    software_interrupt_handle_signals false 0 (busy busy_list waiting_request) edf_global SIGALRM edf_env 20 30 31 32
    = Ret (HReturn w' edf_global)
    /\ wf 0 w' [100; 101] /\ contexts_ok w' /\ runqueue w' = mk_runqueue_list [101; 100]
    /\ Some 101 = Some n /\ on_processor w' n.
Proof.
  apply (fifo_tick 0 (busy busy_list waiting_request) [100; 101] edf_global edf_env 100
           (demo_in SANDBOX_RUNNING_USER VARIANT_RUNNING) [101] 20 30 31 32); try reflexivity.
  - apply busy_wf. change ([100; 101] ≡ₚ [100; 101]). reflexivity.
  - apply busy_contexts.
  - apply busy_clock.
  - vm_compute. split; [reflexivity | discriminate].
  - vm_compute. split; [reflexivity | discriminate].
Defined.

Definition busy_heap : priority_queue bool Z :=
  mk_pq false (mk_lock 0 0 false) 1000 2 2 [None; Some 100; Some 101].

Lemma busy_heap_repr w :
  sandbox_get_priority w 100 = 1000 -> sandbox_get_priority w 101 = 1000 ->
  pq_repr (sandbox_get_priority (L := bool) (RQ := priority_queue bool Z) w) busy_heap [100; 101].
Proof.
  intros H1 H2. split; [split|split; [|split]]; try (cbn; lia); try done.
  - intros [|[|[|i]]] Hi; cbn in *; try lia; eauto.
  - intros [|[|[|j]]] Hj; cbn in Hj; try lia. change (sandbox_get_priority w 100 <= sandbox_get_priority w 101). lia.
Qed.

(** The request with deadline 500 takes the processor. *)
Lemma edf_tick_witness :
  exists w' g' l' bag' n,
    software_interrupt_handle_signals false 0 (busy busy_heap waiting_request) edf_global SIGALRM edf_env 20 30 31 32
    = Ret (HReturn w' g')
    /\ wf 0 w' l' /\ contexts_ok w' /\ pq_heap (sandbox_get_priority w') (runqueue w')
    /\ gs_repr (sandbox_get_priority w') g' bag'
    /\ (l' = [100; 101] /\ bag' = [200] \/ exists q, [200] ≡ₚ q :: bag' /\ l' ≡ₚ q :: [100; 101])
    /\ on_processor w' n /\ earliest w' l' bag' (Some n).
Proof.
  apply (edf_tick 0 (busy busy_heap waiting_request) [100; 101] edf_global [200] edf_env 100
           (demo_in SANDBOX_RUNNING_USER VARIANT_RUNNING) 20 30 31 32); try reflexivity.
  - apply busy_wf. split; [|reflexivity]. by apply pq_repr_bag, busy_heap_repr.
  - apply busy_contexts.
  - by apply (busy_heap_repr (busy busy_heap waiting_request)).
  - split; [by apply (singleton_queue _ true) | done].
  - intros p Hp. apply list_elem_of_singleton in Hp as ->. exists demo_request, demo_module.
    split; [done|]. split; [done|]. split; [done|]. vm_compute. done.
  - split; [vm_compute; done|]. split; [vm_compute; done|]. by exists 4096.
  - apply busy_clock.
  - vm_compute. split; [reflexivity | discriminate].
  - vm_compute. split; [reflexivity | discriminate].
Defined.
