(* ===== verification/Lifecycle.v ===== *)
(** * Lifecycle: allocating and releasing sandboxes

    A request becomes a sandbox in [sandbox_alloc] and leaves memory in
    [sandbox_free], from the cleanup queue.  What the two establish and need,
    and what happens when the preparation in between fails. *)

From Stdlib Require Import ZArith Lia.
From S2P Require Import Prelude Lock PriorityQueue HeapTheory PriorityQueueSpec Deque Bytes Admissions.
From S2P Require Import WasmMemory Globals Module Runqueue Sandbox Scheduler SandboxSpec SandboxSteps SchedulerSpec.
Local Open Scope Z_scope.

Section lifecycle.
Context {L : Type} `{SpinLock L} {RQ : Type} `{RunqueueLaws RQ}.
Variable worker_thread_idx : nat.
Implicit Types w : world L RQ.
Abbreviation wf := (wf worker_thread_idx).

(** A new sandbox next to the others. *)
Lemma wf_new w w' l p s :
  wf w l -> sandboxes w !! p = None -> frame w w' -> modules_wf worker_thread_idx w' ->
  sandboxes w' = <[p := s]> (sandboxes w) -> runqueue w' = runqueue w -> sb_ok w' p s ->
  queued (sb_state s) = false -> wf w' l.
Proof.
  intros W Ep F M Es Eq Hok Hq.
  assert (Hni : p ∉ l) by (rewrite (wf_queued _ _ _ W), Ep; by intros (? & ? & _)).
  split; [| apply W | | |done].
  - rewrite Eq. eapply rq_repr_ext; [|apply (wf_queue _ _ _ W)]. intros q Hin.
    unfold sandbox_get_priority. rewrite Es, lookup_insert_ne; [done|]. by intros ->.
  - intros q. rewrite Es. destruct (decide (q = p)) as [->|Hne].
    + rewrite lookup_insert_eq. split; [done|]. intros (? & [= <-] & ?). congruence.
    + rewrite lookup_insert_ne by done. apply (wf_queued _ _ _ W).
  - intros q sq. rewrite Es. destruct (decide (q = p)) as [->|Hne].
    + rewrite lookup_insert_eq. by intros [= <-].
    + rewrite lookup_insert_ne by done. intros Eqq. eapply sb_ok_frame; [exact F|]. by apply (wf_sandbox _ _ _ W).
Qed.

Lemma module_acquire_wf (m : module L) :
  module_wf m -> reference_count m < UINT32_MAX ->
  exists m', module_acquire m = Ret m' /\ module_wf m' /\ abi m' = abi m /\ pools m' = pools m
    /\ reference_count m' = u32 (reference_count m + 1).
Proof.
  intros [Hs Hm Hp] Hr. unfold module_acquire. rewrite (proj2 (Z.ltb_lt _ _)) by done. ostep.
  eexists. split; [done|]. split; [by split|]. done.
Qed.

(** A new sandbox is in order: initialized, holding the session, with the
    deadline its route asks for from the moment of allocation, its time accounted
    for, and one more reference on its module.  Without memory nothing changes. *)
Lemma sandbox_alloc_ok w l p k m session route r tenant estimate t0 t1 :
  wf w l -> sandboxes w !! p = None -> modules w !! k = Some m -> 0 <= reference_count m < UINT32_MAX ->
  routes w !! route = Some r -> is_Some (tenants w !! tenant) -> estimate <> 0 ->
  0 < t0 < t1 -> t1 <= UINT64_MAX ->
  sandbox_alloc w None k session route tenant estimate t0 t1 = Ret (None, w)
  /\ exists w' s m',
    sandbox_alloc w (Some p) k session route tenant estimate t0 t1 = Ret (Some p, w')
    /\ wf w' l /\ sandboxes w' = <[p := s]> (sandboxes w) /\ sb_state s = SANDBOX_INITIALIZED
    /\ sb_http s = Some session /\ absolute_deadline s = u64 (t0 + relative_deadline r)
    /\ allocation s = t0 /\ zsum (duration_of_state s) = t1 - t0
    /\ modules w' !! k = Some m' /\ reference_count m' = reference_count m + 1.
Proof.
  intros W Ep Em Hr Er Ht He Ht0 Ht1. split; [done|]. destruct (wf_modules _ _ _ W _ _ Em) as [Wm Hl].
  destruct (module_acquire_wf m Wm ltac:(lia)) as (m' & Ea & Wm' & Eabi & Epools & Eref).
  unfold sandbox_alloc, sandbox_set_as_allocated. rewrite sb_get_put. ostep.
  rewrite bool_decide_true by done. ostep. change (last_state_change zero_sandbox) with 0.
  rewrite (proj2 (Z.ltb_lt 0 t0)) by lia. ostep. rewrite sb_put_put.
  unfold sandbox_init. rewrite sb_get_put. ostep. unfold module_at, route_at. cbn [set_sandbox_total modules sb_put set_sandboxes].
  rewrite Em. ostep. rewrite Ea. ostep. cbn [set_modules routes set_sandbox_total sb_put set_sandboxes]. rewrite Er. ostep.
  rewrite (proj2 (Z.eqb_neq estimate 0)) by done. cbn [negb]. ostep.
  unfold sandbox_set_as_initialized.
  match goal with |- context [write_state (sb_put ?w0 p ?x)] => set (s1 := x); set (w1 := sb_put w0 p s1) end.
  assert (E1 : sandboxes w1 !! p = Some s1) by apply lookup_insert_eq.
  rewrite (write_state_ok _ _ _ _ E1). ostep.
  assert (T1 : times_ok (set_sb_state s1 SANDBOX_INITIALIZED)).
  { split; cbn; try done; try lia. repeat constructor; done. }
  assert (Hn : last_state_change (set_sb_state s1 SANDBOX_INITIALIZED) < t1 <= UINT64_MAX) by (cbn; lia).
  rewrite (bookkeeping_ok _ p (set_sb_state s1 SANDBOX_INITIALIZED)); [|apply lookup_insert_eq | done | done]. ostep.
  set (s2 := accounted _ _ _).
  assert (T2 : times_ok s2) by (by apply account_ok). eexists _, s2, m'. split; [done|].
  split; [|split; [cbn; by rewrite !insert_insert_eq|]; do 4 (split; [done|]); split; [apply T2|]; cbn; split;
           [apply lookup_insert_eq | rewrite Eref; apply u32_small; lia]].
  apply (wf_new w _ l p s2); try done.
  - apply (frame_modules_insert w _ k m m'); done.
  - apply (modules_wf_insert worker_thread_idx w _ k m'); try done; [apply W | by rewrite Epools].
  - cbn. by rewrite !insert_insert_eq.
  - split; cbn; try done; try (by eexists); [|apply u64_range]. exists m'. split; [apply lookup_insert_eq | done].
Qed.

(** The pool of stacks after one came back. *)
Lemma free_stack_ok (m : module L) stack :
  module_wf m -> (worker_thread_idx < length (pools m))%nat -> stack_wf stack (stack_size m) ->
  exists m' stack' mp mp', module_free_stack m worker_thread_idx stack = Ret m' /\ module_wf m'
    /\ reference_count m' = reference_count m
    /\ pools m !! worker_thread_idx = Some mp /\ pools m' !! worker_thread_idx = Some mp'
    /\ pool_list (mp_stack mp') = stack' :: pool_list (mp_stack mp)
    /\ stack_wf stack' (stack_size m)
    /\ (forall low a, ws_low stack = Some low -> low <= a < low + stack_size m -> ws_bytes stack' a = 0).
Proof.
  intros W Hl Hs. destruct (lookup_lt_is_Some_2 _ _ Hl) as [mp Ep].
  destruct (mod_pools m W worker_thread_idx mp Ep) as (Hu & Hus & Hf & Hfs).
  destruct (wasm_stack_reinit_ok stack (stack_size m) Hs) as (stack' & Er & Hs' & Hz).
  unfold module_free_stack. rewrite Er. ostep. rewrite Ep. ostep. unfold pool_add_nolock, pool_guard.
  rewrite Hus. cbn [negb orb]. ostep. eexists _, stack', mp, _. split; [done|].
  split; [apply module_wf_insert; try done; by constructor|]. split; [done|]. split; [done|].
  split; [cbn; by apply list_lookup_insert_eq|]. done.
Qed.

(** Releasing a sandbox.  A finished sandbox that is off the processor and
    has given back its session and memory is removed; its stack is zeroed and
    returned to the worker's pool of the module, and the module loses one
    reference.  Any sandbox that is not finished stops the process at an
    assertion. *)
Theorem sandbox_free_spec w p s m stack gs :
  sandboxes w !! p = Some s -> current w <> Some p ->
  sb_http s = None -> sb_memory s = None -> sb_stack s = Some stack -> globals_wf (sb_globals s) gs ->
  modules w !! sb_module s = Some m -> module_wf m -> (worker_thread_idx < length (pools m))%nat ->
  stack_wf stack (stack_size m) -> 0 < reference_count m <= UINT32_MAX ->
  match sb_state s with
  | SANDBOX_COMPLETE | SANDBOX_ERROR =>
    exists w' m' stack' mp mp', sandbox_free worker_thread_idx w p = Ret w'
      /\ sandboxes w' = delete p (sandboxes w) /\ modules w' = <[sb_module s := m']> (modules w)
      /\ module_wf m' /\ reference_count m' = reference_count m - 1
      /\ pools m !! worker_thread_idx = Some mp /\ pools m' !! worker_thread_idx = Some mp'
      /\ pool_list (mp_stack mp') = stack' :: pool_list (mp_stack mp)
      /\ (forall low a, ws_low stack = Some low -> low <= a < low + stack_size m -> ws_bytes stack' a = 0)
  | _ => sandbox_free worker_thread_idx w p = Stop AssertFail
  end.
Proof.
  intros E Hc Hh Hmem Hst (Hg0 & Hg1 & Hg2 & Hg3) Em Wm Hl Hs Hr.
  unfold sandbox_free, sandbox_deinit. rewrite (bool_decide_false (current w = Some p)) by done. cbn [negb]. ostep.
  rewrite (sb_get_ok _ _ _ E). ostep.
  assert (Hd : forall b, b = bool_decide (sb_state s = SANDBOX_ERROR) || bool_decide (sb_state s = SANDBOX_COMPLETE) ->
    b = match sb_state s with SANDBOX_COMPLETE | SANDBOX_ERROR => true | _ => false end)
    by (intros b ->; by destruct (sb_state s)).
  rewrite (Hd _ eq_refl). clear Hd.
  destruct (free_stack_ok (set_reference_count m (u32 (reference_count m - 1))) stack) as
    (m' & stack' & mp & mp' & Ef & Wm' & Eref & Emp & Emp' & Epl & _ & Hz); [by destruct Wm; split | done | done |].
  destruct (sb_state s); try done; ostep;
    rewrite (bool_decide_true (sb_http s = None)) by done; ostep; unfold module_at; rewrite Em; ostep;
    unfold module_release; rewrite (proj2 (Z.ltb_lt _ _)) by lia; ostep; rewrite (bool_decide_false (is_Some (sb_memory s))) by (rewrite Hmem; by intros []);
    cbn [negb]; ostep; rewrite Hst, Ef; ostep; rewrite Hg3; unfold wasm_globals_deinit, vec_deinit;
    rewrite decide_False by lia; rewrite Hg3, bool_decide_false by done; cbn [negb]; ostep;
    (eexists _, m', stack', mp, mp'; split; [done|]; cbn; rewrite delete_insert_eq; do 3 (split; [done|]);
     split; [rewrite Eref; cbn; apply u32_small; lia | done]).
Qed.
End lifecycle.

(** A finished sandbox waiting on the cleanup queue. *)
Definition demo_stack : wasm_stack :=
  mk_wasm_stack 524288 (Some (4096 + 4096 + 524288)) (Some (4096 + 4096)) (Some 4096) zero_bytes.

Definition finished_sandbox : sandbox :=
  set_sb_stack (set_sb_memory (set_sb_http (set_sb_state demo_sandbox SANDBOX_COMPLETE) None) None) (Some demo_stack).

Definition finished_world : world bool runqueue_list :=
  mk_world {[ 100 := finished_sandbox ]} (mk_runqueue_list []) {[ 3 := set_reference_count demo_module 1 ]}
    {[ 7 := mk_route 990 demo_info ]} {[ 5 := mk_tenant 0 0 0 ]} 0 [] None UINT64_MAX 0 0 false 1 [100]
    VARIANT_RUNNING.

Lemma sandbox_free_spec_witness :
  exists w' m' stack' mp mp', sandbox_free 0 finished_world 100 = Ret w'
    /\ sandboxes w' = delete 100 (sandboxes finished_world) /\ modules w' = <[3 := m']> (modules finished_world)
    /\ module_wf m' /\ reference_count m' = 1 - 1
    /\ pools (set_reference_count demo_module 1) !! 0%nat = Some mp /\ pools m' !! 0%nat = Some mp'
    /\ pool_list (mp_stack mp') = stack' :: pool_list (mp_stack mp)
    /\ (forall low a, ws_low demo_stack = Some low -> low <= a < low + 524288 -> ws_bytes stack' a = 0).
Proof.
  apply (sandbox_free_spec 0 finished_world 100 finished_sandbox (set_reference_count demo_module 1) demo_stack
           (replicate 4 zero_global)); try reflexivity; try discriminate.
  - split; [done|]. split; [vm_compute; lia|]. by split.
  - by destruct demo_module_wf; split.
  - vm_compute. lia.
  - by exists 4096.
  - vm_compute. split; [reflexivity | discriminate].
Defined.

(** The allocation of the response body fails. *)
Definition failing_env : sched_env :=
  mk_sched_env 20 21 (mk_prepare_env false true true true true (Some 4096) true) 22 23 0 0 0 (fun _ => 0) true 0 [].

(** A FIFO worker with nothing to run. *)
Definition idle_world : world bool runqueue_list :=
  mk_world {[ 200 := demo_request ]} (mk_runqueue_list []) {[ 3 := demo_module ]}
    {[ 7 := mk_route 990 demo_info ]} {[ 5 := mk_tenant 0 0 0 ]} 0 [] None UINT64_MAX 0 0 false 1 []
    VARIANT_RUNNING.

(** A failed preparation does not stay with its request.  When the
    preparation of a pulled request fails, the client is answered with 500 and
    the sandbox is in the error state; the EDF scheduler then stops the process
    at its assertion, and the FIFO scheduler puts the failed sandbox on the
    runqueue as runnable, without memory or session, and stops at the next
    assertion when it switches to it. *)
Theorem prepare_failure_not_contained :
  (exists w', sandbox_prepare_execution_environment false 0 edf_world 200 (se_prepare failing_env) 22 = Ret (-1, w')
     /\ sb_state <$> sandboxes w' !! 200 = Some SANDBOX_ERROR /\ responses w' = [(901, 500)])
  /\ scheduler_edf_get_next false 0 edf_world edf_global failing_env = Stop AssertFail
  /\ (exists w' g', scheduler_fifo_get_next false 0 idle_world edf_global failing_env = Ret (Some 200, w', g')
     /\ (fun s => (sb_state s, sb_memory s, sb_http s)) <$> sandboxes w' !! 200
        = Some (SANDBOX_RUNNABLE, None, None))
  /\ scheduler_idle_iteration false 0 idle_world edf_global failing_env 24 = Stop AssertFail.
Proof.
  split; [eexists; split; [vm_compute; reflexivity | split; reflexivity]|].
  split; [vm_compute; reflexivity|].
  split; [eexists _, _; split; [vm_compute; reflexivity | reflexivity]|].
  vm_compute. reflexivity.
Qed.
