(* ===== verification/Worker.v ===== *)
(** * Worker: the invariant between two steps of a worker

    What holds of a worker's world under EDF whenever no function of the runtime is
    in progress ([core]): the queues, the places of the sandboxes, their outfits,
    the reference counts and the sessions.  The lemmas show that the policy, the
    release of finished sandboxes, and the switch from an exiting sandbox to the next
    one keep it; [Execution] puts them together with the guests. *)

From Stdlib Require Import ZArith Lia.
From S2P Require Import Prelude Lock PriorityQueue HeapTheory PriorityQueueSpec Deque Bytes Admissions.
From S2P Require Import WasmMemory Globals Module Runqueue Sandbox Scheduler SandboxSpec SandboxSteps SchedulerSpec Conservation Preemption Lifecycle.
Local Open Scope Z_scope.

Definition over (st : sandbox_state_t) : bool :=
  match st with SANDBOX_COMPLETE | SANDBOX_ERROR => true | _ => false end.

(** Deleting a key takes one reference away. *)
Lemma refs_delete (m : gmap Z Z) q k j :
  m !! q = Some k -> refs m j = ((if decide (k = j) then 1 else 0) + refs (delete q m) j)%nat.
Proof.
  intros E. unfold refs. rewrite <- (insert_delete_id m q k E) at 1. case_decide as Hk.
  - rewrite map_filter_insert_True by done. rewrite map_size_insert_None; [lia|].
    apply map_lookup_filter_None. left. apply lookup_delete_eq.
  - rewrite map_filter_insert_False by done. f_equal. by rewrite delete_delete_eq.
Qed.

Lemma refs_insert_new (m : gmap Z Z) q k j :
  m !! q = None -> refs (<[q := k]> m) j = ((if decide (k = j) then 1 else 0) + refs m j)%nat.
Proof.
  intros E. rewrite (refs_delete _ q k) by apply lookup_insert_eq. by rewrite delete_insert_eq, delete_id.
Qed.

Section core.
Context {L : Type} `{SpinLock L}.
Variable worker_thread_idx : nat.
Abbreviation heap := (priority_queue L Z).
Implicit Types w : world L heap.
Abbreviation wf := (wf worker_thread_idx).

(** A request in the global queue. *)
Definition request_ok w (q : Z) : Prop :=
  exists s m, sandboxes w !! q = Some s /\ sb_state s = SANDBOX_INITIALIZED
    /\ modules w !! sb_module s = Some m /\ 0 < globals_len (abi m) /\ absolute_deadline s < UINT64_MAX.

(** A sandbox that can be released. *)
Definition finished_ok w (q : Z) : Prop :=
  exists s, sandboxes w !! q = Some s /\ over (sb_state s) = true /\ sb_memory s = None /\ sb_variant s <> VARIANT_UNUSED.

(** Every sandbox is a request, on the runqueue, or finished. *)
Definition placed (bag fin : list Z) (q : Z) (s : sandbox) : Prop :=
  match sb_state s with
  | SANDBOX_INITIALIZED => q ∈ bag
  | SANDBOX_COMPLETE | SANDBOX_ERROR => q ∈ fin
  | st => queued st = true
  end.

(** [l]: the runqueue, [bag]: the global queue, [fin]: the finished sandboxes. *)
Record core w (g : heap) (l bag fin : list Z) : Prop := {
  co_wf : wf w l;
  co_contexts : contexts_ok w;
  co_heap : pq_heap (sandbox_get_priority w) (runqueue w);
  co_global : gs_repr (sandbox_get_priority w) g bag;
  co_nodup : NoDup bag;
  co_placed q s : sandboxes w !! q = Some s -> placed bag fin q s;
  co_bag q : q ∈ bag -> request_ok w q;
  co_fin_nodup : NoDup fin;
  co_fin q : q ∈ fin -> finished_ok w q;
  co_outfit : outfitted w;
  co_refs k m : modules w !! k = Some m -> Z.of_nat (refs (module_of w) k) <= reference_count m <= UINT32_MAX;
  co_sessions : NoDup (sessions w);
}.

Lemma core_fin w g l bag fin fin' : core w g l bag fin -> fin' ≡ₚ fin -> core w g l bag fin'.
Proof.
  intros [] P. split; try done.
  - intros q s E. specialize (co_placed0 q s E). unfold placed in *. by destruct (sb_state s); rewrite ?P.
  - by rewrite P.
  - intros q. rewrite P. auto.
Qed.

Lemma queued_not st : queued st = true -> st <> SANDBOX_INITIALIZED /\ over st = false.
Proof. by destruct st. Qed.

Lemma placed_queued bag fin q s : queued (sb_state s) = true -> placed bag fin q s.
Proof. unfold placed. by destruct (sb_state s). Qed.

(** Sandboxes of the runqueue change, and those that are finished keep what
    matters of them. *)
Definition rearranged w w' : Prop :=
  forall q s', sandboxes w' !! q = Some s' ->
    sandboxes w !! q = Some s' \/ queued (sb_state s') = true
    \/ exists s, sandboxes w !! q = Some s /\ sb_state s' = sb_state s /\ over (sb_state s) = true /\ sb_memory s' = None
         /\ sb_variant s' <> VARIANT_UNUSED.

(** The invariant only reads the sandboxes that changed, and what is conserved. *)
Lemma core_rearranged w w' g g' l l' bag bag' fin :
  core w g l bag fin -> conserved w w' -> rearranged w w' -> wf w' l' -> contexts_ok w' ->
  pq_heap (sandbox_get_priority w') (runqueue w') -> gs_repr (sandbox_get_priority w') g' bag' ->
  (l' = l /\ bag' = bag \/ exists q, bag ≡ₚ q :: bag' /\ l' ≡ₚ q :: l) -> core w' g' l' bag' fin.
Proof.
  intros [W Hc Hh Hg Hn Hp Hb Hfn Hf Ho Hr Hs] [Kmod Kses Kfix Kout _ _] St W' Hc' Hh' Hg' Hmove.
  assert (Hdom : forall q s, sandboxes w !! q = Some s -> exists s', sandboxes w' !! q = Some s' /\ sb_module s' = sb_module s).
  { intros q s E. assert (Em : module_of w' !! q = Some (sb_module s)) by (rewrite Kmod; unfold module_of; by rewrite lookup_fmap, E).
    unfold module_of in Em. rewrite lookup_fmap in Em. destruct (sandboxes w' !! q) as [s'|]; [|done]. injection Em as Em. by exists s'. }
  assert (Hl' : forall q s, q ∈ l' -> sandboxes w !! q = Some s -> queued (sb_state s) = true \/ q ∈ bag /\ q ∉ bag').
  { intros q s Hq E. destruct Hmove as [[-> ->]|(r & Pb & Pl)].
    - apply (wf_queued _ _ _ W) in Hq as (s0 & E0 & Hq0). left. congruence.
    - rewrite Pl in Hq. apply elem_of_cons in Hq as [->|Hq].
      + right. rewrite Pb. split; [constructor|]. rewrite Pb in Hn. by apply list.NoDup_cons in Hn as [? _].
      + apply (wf_queued _ _ _ W) in Hq as (s0 & E0 & Hq0). left. congruence. }
  assert (Hbag : forall q, q ∈ bag' -> q ∈ bag).
  { intros q Hq. destruct Hmove as [[_ <-]|(r & Pb & _)]; [done|]. rewrite Pb. by right. }
  (* a sandbox that was not on the runqueue and is not taken does not get there *)
  assert (Hstay : forall q s s', sandboxes w !! q = Some s -> sandboxes w' !! q = Some s' -> queued (sb_state s) = false ->
    q ∉ bag \/ q ∈ bag' -> queued (sb_state s') = false).
  { intros q s s' E E' Hq Hnb. destruct (queued (sb_state s')) eqn:Hq'; [|done].
    assert (q ∈ l') as Hl by (apply (wf_queued _ _ _ W'); eauto). destruct (Hl' q s Hl E) as [?|[? ?]]; [congruence|].
    by destruct Hnb. }
  split; try done.
  - destruct Hmove as [[_ ->]|(r & Pb & _)]; [done|]. rewrite Pb in Hn. by apply list.NoDup_cons in Hn as [_ ?].
  - intros q s' E'. destruct (St q s' E') as [E|[Hq|(s & E & Es & Hov & _)]]; [|by apply placed_queued|].
    2: { specialize (Hp q s E). unfold placed in *. rewrite Es. by destruct (sb_state s). }
    specialize (Hp q s' E). unfold placed in *. destruct (sb_state s') eqn:Est; try done. destruct Hmove as [[_ ->]|(r & Pb & Pl)]; [done|].
    rewrite Pb in Hp. apply elem_of_cons in Hp as [->|?]; [|done].
    assert (r ∈ l') as Hrl by (rewrite Pl; constructor). apply (wf_queued _ _ _ W') in Hrl as (s0 & E0 & Hq0). by simplify_eq; rewrite Est in Hq0.
  - intros q Hq. destruct (Hb q (Hbag q Hq)) as (s & m & E & Hs' & Em & Hgl & Hd).
    specialize (Kfix (sb_module s)). rewrite Em in Kfix. destruct (modules w' !! sb_module s) as [m'|] eqn:Em'; [|done].
    injection Kfix as _ _ Ea _. exists s, m'. rewrite Ea. split; [|done]. destruct (Hdom q s E) as (s' & E' & _).
    pose proof (Hstay q s s' E E' ltac:(by rewrite Hs') (or_intror Hq)) as Hnq.
    destruct (St q s' E') as [Eq|[?|(s0 & E0 & _ & Hov & _)]]; [congruence|congruence|]. simplify_eq. by rewrite Hs' in Hov.
  - intros q Hq. destruct (Hf q Hq) as (s & E & Hov & Hrest). destruct (Hdom q s E) as (s' & E' & _). exists s'. split; [done|].
    assert (Hnb : q ∉ bag). { intros Hin. destruct (Hb q Hin) as (s0 & _ & E0 & Hi & _). simplify_eq. by rewrite Hi in Hov. }
    pose proof (Hstay q s s' E E' ltac:(by destruct (sb_state s)) (or_introl Hnb)) as Hnq.
    destruct (St q s' E') as [Eq|[?|(s0 & E0 & Es & Hov' & ? & ?)]]; [by simplify_eq|congruence|]. by simplify_eq; rewrite Es.
  - auto.
  - intros k m' Em'. specialize (Kfix k). rewrite Em' in Kfix. destruct (modules w !! k) as [m|] eqn:Em; [|done].
    injection Kfix as -> _ _ _. rewrite Kmod. by apply Hr.
  - by rewrite Kses.
Qed.

Lemma core_stirred t w w' g g' l l' bag bag' fin :
  core w g l bag fin -> conserved w w' -> stirred t w w' -> wf w' l' -> contexts_ok w' ->
  pq_heap (sandbox_get_priority w') (runqueue w') -> gs_repr (sandbox_get_priority w') g' bag' ->
  (l' = l /\ bag' = bag \/ exists q, bag ≡ₚ q :: bag' /\ l' ≡ₚ q :: l) -> core w' g' l' bag' fin.
Proof.
  intros C K St. eapply (core_rearranged w); [done|done|]. intros q s' E. destruct (St q s' E) as [?|(? & _)]; [by left|by right; left].
Qed.

(** The queues stay, and no deadline changes. *)
Lemma core_requeued w w' g l bag fin :
  core w g l bag fin -> conserved w w' -> rearranged w w' -> wf w' l -> contexts_ok w' ->
  runqueue w' = runqueue w -> same_deadlines w w' -> core w' g l bag fin.
Proof.
  intros C K R W' Hc Er Hd. eapply core_rearranged; eauto.
  - rewrite Er. eapply pq_heap_ext; [|apply (wf_queue _ _ _ (co_wf _ _ _ _ _ C))|apply C]. intros q _. by rewrite Hd.
  - eapply gs_repr_ext; [|apply C]. intros q _. by rewrite Hd.
Qed.

(** One sandbox of the runqueue changes. *)
Lemma core_put w w' g l bag fin p s s' :
  core w g l bag fin -> conserved w w' -> sandboxes w !! p = Some s -> sandboxes w' = <[p := s']> (sandboxes w) ->
  queued (sb_state s) = true -> queued (sb_state s') = true -> context_ok s' -> absolute_deadline s' = absolute_deadline s ->
  runqueue w' = runqueue w -> wf w' l -> core w' g l bag fin.
Proof.
  intros C K E Es Hq Hq' Hc Hd Er W'. eapply (core_requeued w); eauto.
  - intros q sq. rewrite Es. destruct (decide (q = p)) as [->|Hne].
    + rewrite lookup_insert_eq. intros [= <-]. by right; left.
    + rewrite lookup_insert_ne by done. by left.
  - eapply contexts_insert; eauto. apply C.
  - by eapply same_deadlines_insert.
Qed.

(** The sandboxes do not change. *)
Lemma core_same w w' g l bag fin :
  core w g l bag fin -> conserved w w' -> sandboxes w' = sandboxes w -> runqueue w' = runqueue w -> wf w' l -> core w' g l bag fin.
Proof.
  intros C K Es Er W'. eapply (core_requeued w); eauto.
  - intros q sq. rewrite Es. by left.
  - intros q sq. rewrite Es. apply C.
  - intros q. unfold sandbox_get_priority. by rewrite Es.
Qed.

(** A finished sandbox changes in what it no longer needs. *)
Lemma core_put_over w w' g l bag fin p s s' :
  core w g l bag fin -> conserved w w' -> sandboxes w !! p = Some s -> sandboxes w' = <[p := s']> (sandboxes w) ->
  over (sb_state s) = true -> sb_state s' = sb_state s -> sb_memory s' = None -> sb_variant s' <> VARIANT_UNUSED ->
  absolute_deadline s' = absolute_deadline s -> runqueue w' = runqueue w -> wf w' l -> core w' g l bag fin.
Proof.
  intros C K E Es Hov Hst Hm Hv Hd Er W'. eapply (core_requeued w); eauto.
  - intros q sq. rewrite Es. destruct (decide (q = p)) as [->|Hne].
    + rewrite lookup_insert_eq. intros [= <-]. right; right. by exists s.
    + rewrite lookup_insert_ne by done. by left.
  - eapply contexts_insert; eauto; [apply C|]. unfold context_ok. rewrite Hst. by destruct (sb_state s).
  - by eapply same_deadlines_insert.
Qed.

(** ** The policy *)

Lemma core_waiting w g l bag fin env t q :
  core w g l bag fin -> clock_before w t -> t <= se_dispatch env <= UINT64_MAX -> q ∈ bag -> waiting w env q.
Proof.
  intros C Hk Ht Hq. destruct (co_bag _ _ _ _ _ C q Hq) as (s & m & E & Hs & Em & Hg & Hd).
  exists s, m. specialize (Hk q s E). do 5 (split; [done|]). lia.
Qed.

Lemma core_next w g l bag fin env t :
  core w g l bag fin -> env_good env -> clock_before w t -> t <= se_dispatch env <= UINT64_MAX ->
  exists next w' g' l' bag', scheduler_edf_get_next false worker_thread_idx w g env = Ret (next, w', g')
    /\ core w' g' l' bag' fin /\ earliest w' l' bag' next /\ local_runqueue_get_next (runqueue w') = Ret next
    /\ kept w w' /\ advanced w w' (se_dispatch env) /\ clock_before w' (se_dispatch env + 1).
Proof.
  intros C Henv Hk Ht.
  assert (Hw : forall q, q ∈ bag -> waiting w env q) by (intros q Hq; by eapply core_waiting).
  destruct (edf_next_ok worker_thread_idx w l g bag env (co_wf _ _ _ _ _ C) (co_heap _ _ _ _ _ C) (co_global _ _ _ _ _ C) Hw Henv)
    as (next & w' & g' & l' & bag' & E & W' & Hh' & R' & Hmove & He & Adv).
  assert (K : kept w w') by (eapply edf_next_kept; [apply C|apply C|exact Hw|done|exact E]).
  exists next, w', g', l', bag'. split; [done|]. split.
  { eapply (core_stirred (se_dispatch env)); eauto; [by apply kept_conserved|by apply stirred_advanced|].
    eapply advanced_contexts; [done|apply C]. }
  do 2 (split; [done || by eapply edf_next_top|]). do 2 (split; [done|]). eapply advanced_clock; eauto; lia.
Qed.

(** ** Releasing finished sandboxes *)

Definition rest_same w w' : Prop :=
  runqueue w' = runqueue w /\ responses w' = responses w /\ current w' = current w /\ base_variant w' = base_variant w
  /\ deferred_sigalrm w' = deferred_sigalrm w /\ cleanup_queue w' = cleanup_queue w /\ tenants w' = tenants w
  /\ routes w' = routes w /\ worker_deadline w' = worker_deadline w.

Lemma rest_same_trans w1 w2 w3 : rest_same w1 w2 -> rest_same w2 w3 -> rest_same w1 w3.
Proof. unfold rest_same. intuition congruence. Qed.

Lemma free_rest w q w' :
  sandbox_free worker_thread_idx w q = Ret w' ->
  rest_same w w' /\ forall k, (fun m => (abi m, stack_size m, mod_path m)) <$> modules w' !! k
                           = (fun m => (abi m, stack_size m, mod_path m)) <$> modules w !! k.
Proof.
  unfold sandbox_free, sandbox_deinit, module_release, module_free_stack. intros E. kept_steps. all: split; [done|]; cbn.
  all: match goal with Em : modules ?w0 !! ?j = Some _ |- _ => intros k; destruct (decide (k = j)) as [->|Hne];
         [by rewrite lookup_insert_eq, Em | by rewrite lookup_insert_ne] end.
Qed.

(** What is left of the world without a sandbox that has nothing any more. *)
Lemma wf_release w w' l q s :
  wf w l -> sandboxes w !! q = Some s -> over (sb_state s) = true -> sandboxes w' = delete q (sandboxes w) ->
  rest_same w w' -> modules_wf worker_thread_idx w' ->
  (forall k, (fun m => (abi m, stack_size m, mod_path m)) <$> modules w' !! k
             = (fun m => (abi m, stack_size m, mod_path m)) <$> modules w !! k) -> wf w' l.
Proof.
  intros W E Hov Es (Eq & _ & Ec & _ & _ & _ & Et & Ert & Ed) Mw Em.
  assert (Hq : q ∉ l).
  { rewrite (wf_queued _ _ _ W). intros (s0 & E0 & Hq0). simplify_eq. apply queued_not in Hq0 as [_ ?]. congruence. }
  assert (F : frame w w').
  { split; try done; [|by rewrite Et|by rewrite Ert]. intros k m Ek. specialize (Em k). rewrite Ek in Em.
    destruct (modules w' !! k) as [m'|]; [|done]. injection Em as Ea _ _. by exists m'. }
  split; [|apply W| | |done].
  - rewrite Eq. eapply rq_repr_ext; [|apply (wf_queue _ _ _ W)]. intros p Hp. unfold sandbox_get_priority.
    rewrite Es, lookup_delete_ne; [done|]. by intros ->.
  - intros p. rewrite (wf_queued _ _ _ W), Es. destruct (decide (p = q)) as [->|Hne].
    + rewrite lookup_delete_eq, E. split; [|by intros (? & ? & _)]. intros (s0 & [= <-] & Hq0).
      apply queued_not in Hq0 as [_ ?]. congruence.
    + by rewrite lookup_delete_ne.
  - intros p sp. rewrite Es. intros [_ Ep]%lookup_delete_Some. eapply sb_ok_frame; [exact F|]. by apply (wf_sandbox _ _ _ W).
Qed.

(** What the sandboxes need of their modules stays. *)
Definition abis_kept w w' : Prop :=
  forall k m, modules w !! k = Some m -> exists m', modules w' !! k = Some m' /\ abi m' = abi m /\ stack_size m' = stack_size m.

Lemma conserved_abis w w' : conserved w w' -> abis_kept w w'.
Proof.
  intros K k m Em. pose proof (kp_fixed _ _ K k) as Kfix. rewrite Em in Kfix. destruct (modules w' !! k) as [m'|]; [|done].
  injection Kfix as _ Ess Ea _. by exists m'.
Qed.

Lemma request_transfer w w' q : abis_kept w w' -> sandboxes w' !! q = sandboxes w !! q -> request_ok w q -> request_ok w' q.
Proof.
  intros A Eq (s & m & E & Hi & Em & Hrest). destruct (A _ _ Em) as (m' & Em' & Ea & _). exists s, m'. by rewrite Eq, Ea.
Qed.

Lemma finished_transfer w w' q : sandboxes w' !! q = sandboxes w !! q -> finished_ok w q -> finished_ok w' q.
Proof. intros Eq (s & E & Hrest). exists s. by rewrite Eq. Qed.

Lemma outfit_transfer w w' s : abis_kept w w' -> outfit w s -> outfit w' s.
Proof.
  intros A (stack & gs & m & Est & Hgs & Em & Hs). destruct (A _ _ Em) as (m' & Em' & _ & Ess). exists stack, gs, m'. by rewrite Ess.
Qed.

(** The world without the released sandbox. *)
Lemma free_world w g l bag fin q :
  core w g l bag (q :: fin) -> current w <> Some q ->
  exists w' s m m', sandbox_free worker_thread_idx w q = Ret w' /\ sandboxes w !! q = Some s /\ over (sb_state s) = true
    /\ rest_same w w' /\ sandboxes w' = delete q (sandboxes w) /\ sessions w' ≡ₚ sessions w /\ wf w' l /\ abis_kept w w'
    /\ modules w !! sb_module s = Some m /\ modules w' = <[sb_module s := m']> (modules w)
    /\ reference_count m' = reference_count m - 1.
Proof.
  intros C Hc. pose proof C as [W Hcx Hh Hg Hn Hp Hb Hfn Hf Ho Hr Hs].
  destruct (Hf q) as (s & E & Hov & Hmem & Hv); [constructor|].
  destruct (Ho q s E Hv) as (stack & gs & m & Est & Hgs & Em & Hst). destruct (wf_modules _ _ _ W _ _ Em) as [Wm Hl].
  assert (Hh0 : sb_http s = None).
  { destruct (sb_http s) eqn:Eh; [|done]. pose proof (proj1 (ok_http _ _ _ (wf_sandbox _ _ _ W q s E)) ltac:(by eexists)).
    by destruct (sb_state s). }
  assert (Hrm : 0 < reference_count m <= UINT32_MAX).
  { pose proof (Hr _ _ Em) as Hr'. rewrite (refs_delete _ q (sb_module s) (sb_module s)), decide_True in Hr'; [lia|done|].
    unfold module_of. by rewrite lookup_fmap, E. }
  pose proof (sandbox_free_spec worker_thread_idx w q s m stack gs E Hc Hh0 Hmem Est Hgs Em Wm Hl Hst Hrm) as Sp.
  assert (exists w' m', sandbox_free worker_thread_idx w q = Ret w' /\ sandboxes w' = delete q (sandboxes w)
    /\ modules w' = <[sb_module s := m']> (modules w) /\ module_wf m' /\ reference_count m' = reference_count m - 1)
    as (w' & m' & Ew & Es & Emod & Wm' & Eref').
  { destruct (sb_state s); try done; destruct Sp as (w' & m' & ? & ? & ? & ? & ? & ? & ? & ? & _); by exists w', m'. }
  clear Sp. destruct (free_rest w q w' Ew) as [Rs Esame].
  assert (Hpools : (worker_thread_idx < length (pools m'))%nat).
  { revert Ew. unfold sandbox_free, sandbox_deinit, module_release, module_free_stack. intros Ew. kept_steps. all: simplify_eq.
    all: cbn in Emod; apply (f_equal (.!! sb_module s)) in Emod; rewrite !lookup_insert_eq in Emod; injection Emod as <-; cbn.
    all: rewrite ?length_insert; done. }
  exists w', s, m, m'. do 5 (split; [done|]). split; [|split; [|split; [|done]]].
  - unfold sessions. destruct Rs as (_ & -> & _). by rewrite Es, (held_lookup (sandboxes w) q s E), Hh0.
  - apply (wf_release w w' l q s); try done. eapply modules_wf_insert; [apply W|done|done|done].
  - intros k mk Ek. specialize (Esame k). rewrite Ek in Esame. destruct (modules w' !! k) as [mk'|]; [|done].
    injection Esame as Ea Ess _. by exists mk'.
Qed.

Lemma free_ok w g l bag fin q :
  core w g l bag (q :: fin) -> current w <> Some q ->
  exists w', sandbox_free worker_thread_idx w q = Ret w' /\ core w' g l bag fin /\ rest_same w w'
    /\ sandboxes w' = delete q (sandboxes w) /\ sessions w' ≡ₚ sessions w.
Proof.
  intros C Hc. destruct (free_world w g l bag fin q C Hc) as (w' & s & m & m' & Ew & E & Hov & Rs & Es & Hses & W' & Hmk & Em & Emod & Eref').
  exists w'. split; [done|]. split; [|done]. destruct C as [W Hcx Hh Hg Hn Hp Hb Hfn Hf Ho Hr Hs].
  assert (Hsub : forall p sp, sandboxes w' !! p = Some sp -> sandboxes w !! p = Some sp /\ p <> q).
  { intros p sp. rewrite Es. by intros [? ?]%lookup_delete_Some. }
  assert (Hlk : forall p, p <> q -> sandboxes w' !! p = sandboxes w !! p) by (intros p Hne; by rewrite Es, lookup_delete_ne).
  assert (Hpr : forall p, p <> q -> sandbox_get_priority w' p = sandbox_get_priority w p)
    by (intros p Hne; unfold sandbox_get_priority; by rewrite Hlk).
  apply list.NoDup_cons in Hfn as [Hqf Hfn].
  assert (Hqbag : q ∉ bag).
  { intros Hin. destruct (Hb q Hin) as (s0 & _ & E0 & Hi & _). simplify_eq. by rewrite Hi in Hov. }
  split; try done.
  - intros p sp Ep. apply Hsub in Ep as [Ep _]. by apply (Hcx p).
  - destruct Rs as (-> & _). eapply pq_heap_ext; [|apply (wf_queue _ _ _ W)|exact Hh]. intros p Hpl. symmetry. apply Hpr.
    intros ->. apply (wf_queued _ _ _ W) in Hpl as (s0 & E0 & Hq0). simplify_eq. apply queued_not in Hq0 as [_ ?]. congruence.
  - eapply gs_repr_ext; [|exact Hg]. intros p Hpb. symmetry. apply Hpr. by intros ->.
  - intros p sp Ep. apply Hsub in Ep as [Ep Hne]. specialize (Hp p sp Ep). unfold placed in *.
    destruct (sb_state sp); try done; by apply elem_of_cons in Hp as [?|?].
  - intros p Hpb. apply (request_transfer w); [done|apply Hlk|by apply Hb]. by intros ->.
  - intros p Hpf. apply (finished_transfer w); [apply Hlk|apply Hf; by right]. by intros ->.
  - intros p sp Ep Hvp. apply Hsub in Ep as [Ep _]. apply (outfit_transfer w); [done|by apply (Ho p)].
  - assert (Hmod : module_of w' = delete q (module_of w)) by (unfold module_of; by rewrite Es, fmap_delete).
    assert (Eref : module_of w !! q = Some (sb_module s)) by (unfold module_of; by rewrite lookup_fmap, E).
    intros k mk Ek. rewrite Hmod. rewrite Emod in Ek. destruct (decide (k = sb_module s)) as [->|Hne].
    + rewrite lookup_insert_eq in Ek. injection Ek as <-. pose proof (Hr _ _ Em) as Hr'.
      rewrite (refs_delete _ q _ (sb_module s) Eref), decide_True in Hr' by done. lia.
    + rewrite lookup_insert_ne in Ek by done. pose proof (Hr _ _ Ek) as Hr'.
      rewrite (refs_delete _ q _ k Eref), decide_False in Hr' by done. lia.
  - by rewrite Hses.
Qed.

(** Emptying the cleanup queue. *)
Lemma free_all_ok g l bag fin qs : forall w,
  core w g l bag (qs ++ fin) -> current w = None ->
  exists w', foldl (fun m p => w ← m; sandbox_free worker_thread_idx w p) (Ret w) qs = Ret w' /\ core w' g l bag fin
    /\ rest_same w w' /\ (forall q s, sandboxes w' !! q = Some s <-> sandboxes w !! q = Some s /\ q ∉ qs)
    /\ sessions w' ≡ₚ sessions w.
Proof.
  induction qs as [|q qs IH]; intros w C Hc; cbn [foldl app] in *.
  - exists w. split; [done|]. split; [done|]. split; [by repeat split|]. split; [|done]. intros q s. rewrite elem_of_nil. naive_solver.
  - ostep. destruct (free_ok w g l bag (qs ++ fin) q C) as (w1 & Ew1 & C1 & R1 & Es1 & Hs1); [by rewrite Hc|]. rewrite Ew1.
    destruct (IH w1 C1) as (w' & Ew & C' & R' & Es' & Hs'); [by destruct R1 as (_ & _ & -> & _)|].
    exists w'. split; [done|]. split; [done|]. split; [by eapply rest_same_trans|]. split; [|by rewrite Hs']. intros p s.
    rewrite Es', Es1, lookup_delete_Some, elem_of_cons. naive_solver.
Qed.

(** ** Switching *)

(** Nothing happens to a sandbox after [t], and none gets into the middle of its
    code that was not there. *)
Definition later (t : Z) w w' : Prop :=
  forall q s', sandboxes w' !! q = Some s' ->
    (exists s, sandboxes w !! q = Some s /\ last_state_change s' = last_state_change s /\ sb_state s' = sb_state s)
    \/ last_state_change s' <= t
       /\ (started (sb_state s') = true -> exists s, sandboxes w !! q = Some s /\ started (sb_state s) = true).

Lemma later_same t w w' : sandboxes w' = sandboxes w -> later t w w'.
Proof. intros Es q s. rewrite Es. left. by exists s. Qed.

Lemma later_trans t t1 t2 w1 w2 w3 : later t1 w1 w2 -> later t2 w2 w3 -> t1 <= t -> t2 <= t -> later t w1 w3.
Proof.
  intros S1 S2 Ht1 Ht2 q s E. destruct (S2 q s E) as [(s2 & E2 & El & Est)|(Hl & Hst)].
  - destruct (S1 q s2 E2) as [(s1 & E1 & El1 & Est1)|(Hl & Hst)].
    + left. exists s1. split; [done|]. split; congruence.
    + right. rewrite Est. split; [lia|done].
  - right. split; [lia|]. intros Hs. destruct (Hst Hs) as (s2 & E2 & Hs2).
    destruct (S1 q s2 E2) as [(s1 & E1 & _ & Est1)|(_ & Hst1)]; [|auto]. exists s1. split; [done|]. congruence.
Qed.

Lemma later_insert t w w' p s s' :
  sandboxes w !! p = Some s -> sandboxes w' = <[p := s']> (sandboxes w) -> last_state_change s' <= t ->
  (started (sb_state s') = true -> started (sb_state s) = true) -> later t w w'.
Proof.
  intros E Es Ht Hst q sq. rewrite Es. destruct (decide (q = p)) as [->|Hne].
  - rewrite lookup_insert_eq. intros [= <-]. right. eauto.
  - rewrite lookup_insert_ne by done. left. by exists sq.
Qed.

Lemma later_retouch t w w' p s s' :
  sandboxes w !! p = Some s -> sandboxes w' = <[p := s']> (sandboxes w) ->
  last_state_change s' = last_state_change s -> sb_state s' = sb_state s -> later t w w'.
Proof.
  intros E Es El Est q sq. rewrite Es. left. destruct (decide (q = p)) as [->|Hne].
  - rewrite lookup_insert_eq in *. simplify_eq. by exists s.
  - rewrite lookup_insert_ne in * by done. by exists sq.
Qed.

Lemma later_stirred t w w' : stirred t w w' -> later t w w'.
Proof. intros St q s E. destruct (St q s E) as [?|(_ & ? & ?)]; [left; by exists s | by right]. Qed.

Lemma later_clock t w w' t0 t1 : later t w w' -> clock_before w t0 -> t0 <= t1 -> t < t1 -> clock_before w' t1.
Proof. intros Lt Hk H0 H1 q s E. destruct (Lt q s E) as [(s0 & E0 & El & _)|(Hl & _)]; [specialize (Hk q s0 E0)|]; lia. Qed.

(** The context that gives the processor away: the worker's own, or that of a
    finished sandbox. *)
Definition leaving w (c : context) : Prop :=
  match c with
  | Base => base_variant w = VARIANT_RUNNING
  | Ctx p => base_variant w = VARIANT_FAST
      /\ exists s, sandboxes w !! p = Some s /\ over (sb_state s) = true /\ sb_variant s = VARIANT_RUNNING /\ sb_memory s = None
  end.

(** Saving it: the context of a finished sandbox is all that changes. *)
Definition parked w w' : Prop :=
  forall q s', sandboxes w' !! q = Some s' ->
    sandboxes w !! q = Some s'
    \/ exists s, sandboxes w !! q = Some s /\ over (sb_state s) = true /\ sb_memory s = None /\ s' = set_sb_variant s VARIANT_FAST.

Record saved w w' (l : list Z) : Prop := {
  sv_wf : wf w' l;
  sv_conserved : conserved w w';
  sv_base : base_variant w' = VARIANT_FAST;
  sv_parked : parked w w';
  sv_same q s : sandboxes w !! q = Some s -> over (sb_state s) = false -> sandboxes w' !! q = Some s;
  sv_rest : runqueue w' = runqueue w /\ current w' = current w /\ worker_deadline w' = worker_deadline w
    /\ responses w' = responses w /\ modules w' = modules w;
  sv_deadlines : same_deadlines w w';
}.

Lemma save_ok w l c :
  wf w l -> leaving w c ->
  variant_of w c = Ret VARIANT_RUNNING /\ exists w', write_variant w c VARIANT_FAST = Ret w' /\ saved w w' l.
Proof.
  intros W Hlv. destruct c as [|p]; cbn in *.
  - split; [by rewrite Hlv|]. eexists. split; [done|]. split; try done; [|by left].
    by apply (wf_same worker_thread_idx w); [..|apply frame_same].
  - destruct Hlv as (Hb & s & E & Hov & Hv & Hm). rewrite (sb_get_ok _ _ _ E). ostep. split; [by rewrite Hv|].
    eexists. split; [done|]. split; try done.
    + by apply wf_variant.
    + apply kept_conserved, variant_kept; [done|]. by rewrite Hv.
    + intros q sq. cbn. destruct (decide (q = p)) as [->|Hne].
      * rewrite lookup_insert_eq. intros [= <-]. right. by exists s.
      * rewrite lookup_insert_ne by done. by left.
    + intros q sq Eq Hovq. cbn. rewrite lookup_insert_ne; [done|]. congruence.
    + by eapply same_deadlines_insert.
Qed.

Lemma parked_rearranged w w' : parked w w' -> rearranged w w'.
Proof. intros P q s' E. destruct (P q s' E) as [?|(s & Es & Hov & Hm & ->)]; [by left|]. right; right. by exists s. Qed.

Lemma parked_contexts w w' : parked w w' -> contexts_ok w -> contexts_ok w'.
Proof.
  intros P Hc q s' E. destruct (P q s' E) as [?|(s & Es & Hov & _ & ->)]; [by apply (Hc q)|]. unfold context_ok. cbn.
  by destruct (sb_state s).
Qed.

Lemma parked_later w w' t : parked w w' -> later t w w'.
Proof. intros P q s' E. left. destruct (P q s' E) as [?|(s & Es & _ & _ & ->)]; [by exists s'|by exists s]. Qed.

Lemma parked_idle w w' : parked w w' -> idle w -> idle w'.
Proof. intros P Hi q s' E. destruct (P q s' E) as [?|(s & Es & _ & _ & ->)]; [by apply (Hi q)|by apply (Hi q s)]. Qed.

Lemma leaving_kept w w1 c q s s1 :
  kept w w1 -> leaving w c -> sandboxes w !! q = Some s -> over (sb_state s) = false ->
  sandboxes w1 = <[q := s1]> (sandboxes w) -> leaving w1 c /\ c <> Ctx q.
Proof.
  intros [[_ Eb] _] Hlv E Hov Es. destruct c as [|p]; cbn in *; [split; [congruence|done]|].
  destruct Hlv as (Hb & sp & Ep & Hovp & Hrest). assert (q <> p) by congruence. split; [|congruence].
  split; [congruence|]. exists sp. by rewrite Es, lookup_insert_ne.
Qed.

Lemma arch_switch_ok w l c next s :
  wf w l -> leaving w c -> c <> Ctx next -> sandboxes w !! next = Some s -> over (sb_state s) = false ->
  exists w1, saved w w1 l /\
    match sb_variant s with
    | VARIANT_SLOW => arch_context_switch w c (Ctx next) = Ret (w1, true)
    | VARIANT_FAST => arch_context_switch w c (Ctx next) = Ret (sb_put w1 next (set_sb_variant s VARIANT_RUNNING), false)
    | _ => True
    end.
Proof.
  intros W Hlv Hne E Hov. destruct (save_ok w l c W Hlv) as (Ev & w1 & Ew & Sv). exists w1. split; [done|].
  assert (Evb : variant_of w (Ctx next) = Ret (sb_variant s)) by (cbn; by rewrite (sb_get_ok _ _ _ E)).
  pose proof (sv_same _ _ _ Sv next s E Hov) as E1.
  destruct (sb_variant s) eqn:Hv; try done; unfold arch_context_switch; rewrite bool_decide_false by done; cbn [negb]; ostep;
    rewrite Ev; ostep; rewrite bool_decide_true by done; ostep; rewrite Evb; ostep.
  - rewrite bool_decide_true by done. cbn [orb]. ostep. rewrite Ew. ostep. rewrite decide_False by done.
    unfold write_variant. by rewrite (sb_get_ok _ _ _ E1).
  - rewrite bool_decide_false by done. rewrite bool_decide_true by done. cbn [orb]. ostep. rewrite Ew. ostep. by rewrite decide_True.
Qed.

(** The worker after a switch: [next] has the processor. *)
Record seated w w' (g : heap) (l bag fin : list Z) (next : Z) (t : Z) : Prop := {
  st_core : core w' g l bag fin;
  st_on : on_processor w' next;
  st_base : base_variant w' = VARIANT_FAST;
  st_runqueue : runqueue w' = runqueue w;
  st_later : later t w w';
  st_responses : responses w' = responses w;
  st_cleanup : cleanup_queue w' = cleanup_queue w;
  st_sessions : sessions w' ≡ₚ sessions w;
}.

(** The context of [next] is loaded after that of the leaving one was saved. *)
Lemma seated_fast w w1 w2 g l bag fin next s s1 now :
  core w g l bag fin -> sandboxes w !! next = Some s -> sandboxes w1 = <[next := s1]> (sandboxes w) -> kept w w1 ->
  sb_state s1 = SANDBOX_RUNNING_SYS -> last_state_change s1 <= now -> absolute_deadline s1 = absolute_deadline s ->
  runqueue w1 = runqueue w -> saved w1 w2 l -> conserved w (sb_put w2 next (set_sb_variant s1 VARIANT_RUNNING)) ->
  seated w (sb_put w2 next (set_sb_variant s1 VARIANT_RUNNING)) g l bag fin next now.
Proof.
  intros C E Es1 K1 Hst1 Hl1 Hd1 Er1 Sv K3. set (s3 := set_sb_variant s1 VARIANT_RUNNING) in *. set (w3 := sb_put w2 next s3) in *.
  assert (E2 : sandboxes w2 !! next = Some s1) by (apply (sv_same _ _ _ Sv); [rewrite Es1; apply lookup_insert_eq|by rewrite Hst1]).
  assert (W3 : wf w3 l) by (apply wf_variant; [apply Sv|done]).
  assert (H31 : sandboxes w3 !! next = Some s3) by apply lookup_insert_eq.
  assert (Hcase : forall q s', sandboxes w3 !! q = Some s' -> q = next /\ s' = s3 \/ sandboxes w !! q = Some s'
    \/ exists s, sandboxes w !! q = Some s /\ over (sb_state s) = true /\ sb_memory s = None /\ s' = set_sb_variant s VARIANT_FAST).
  { intros q s' E3. destruct (decide (q = next)) as [->|Hq]; [left; by simplify_eq|right]. unfold w3 in E3. cbn in E3.
    rewrite lookup_insert_ne in E3 by done. destruct (sv_parked _ _ _ Sv q s' E3) as [Eq|(sq & Eq & Hrest)];
      rewrite Es1, lookup_insert_ne in Eq by done; [by left|right; eauto]. }
  assert (Hcur3 : current w3 = Some next) by (apply (ok_running _ _ _ (wf_sandbox _ _ _ W3 next s3 H31)); cbn; by rewrite Hst1).
  destruct (sv_rest _ _ _ Sv) as (Erq & _ & _ & Ere & _).
  split; try done; try apply Sv; try apply K3.
  - apply (core_requeued w); try done; [..|by rewrite <- Er1, <- Erq|].
    + intros q s' E3. destruct (Hcase q s' E3) as [[-> ->]|[?|(sq & Eq & Hov & Hm & ->)]]; [right; left; cbn; by rewrite Hst1|by left|].
      right; right. by exists sq.
    + intros q s' E3. destruct (Hcase q s' E3) as [[-> ->]|[?|(sq & Eq & Hov & _ & ->)]]; [unfold context_ok; cbn; by rewrite Hst1| |].
      * by apply (co_contexts _ _ _ _ _ C q).
      * unfold context_ok. cbn. by destruct (sb_state sq).
    + eapply same_deadlines_trans; [by eapply (same_deadlines_insert w w1 next s s1)|].
      eapply same_deadlines_trans; [apply Sv|]. by eapply (same_deadlines_insert w2 w3 next s1 s3).
  - split; [done|]. exists s3. split; [done|]. right. done.
  - by rewrite <- Er1, <- Erq.
  - intros q s' E3. destruct (Hcase q s' E3) as [[-> ->]|[?|(sq & Eq & _ & _ & ->)]]; [right; cbn; by rewrite Hst1|left; by exists s'|left; by exists sq].
  - unfold w3. cbn. rewrite Ere. apply K1.
Qed.

(** To a sandbox that has not started. *)
Lemma switch_fast_ok w g l bag fin c next s now :
  core w g l bag fin -> current w = None -> idle w -> leaving w c -> sandboxes w !! next = Some s ->
  sb_state s = SANDBOX_RUNNABLE -> clock_before w now -> now <= UINT64_MAX ->
  exists w', scheduler_cooperative_switch_to w c next now = Ret (w', false) /\ seated w w' g l bag fin next now.
Proof.
  intros C Hcur Hi Hlv E Hs Hk Hn. pose proof (co_wf _ _ _ _ _ C) as W. pose proof (Hk next s E) as Hlt.
  pose proof (co_contexts _ _ _ _ _ C next s E) as Hv. unfold context_ok in Hv. rewrite Hs in Hv.
  pose proof (resume_fast_ok worker_thread_idx w l next s now W E (conj Hlt Hn) Hs Hi) as M.
  unfold scheduler_cooperative_switch_to, current_sandbox_get. rewrite Hcur, bool_decide_true by done. ostep.
  rewrite (sb_get_ok _ _ _ E). ostep. rewrite Hs, Hv, bool_decide_true by done. ostep.
  revert M. unfold exec, in_state. rewrite (sb_get_ok _ _ _ E). ostep. rewrite bool_decide_true by done. ostep.
  destruct (current_sandbox_set w (Some next)) as [wa|] eqn:Ea; [|by intros (? & ? & ? & ? & _)]. ostep. intros M.
  apply (moves_queue worker_thread_idx w l) in M as (w1 & s1 & E1 & W1 & Es1 & Hst1 & Hl1 & Hd1 & Hv1 & _ & Er1 & Em1); [|done..|by rewrite Hs].
  assert (K1 : kept w w1) by (etrans; [by eapply current_set_kept|by eapply running_sys_kept]).
  rewrite E1. ostep. assert (El : sandboxes w1 !! next = Some s1) by (rewrite Es1; apply lookup_insert_eq).
  destruct (leaving_kept w w1 c next s s1 K1 Hlv E ltac:(by rewrite Hs) Es1) as [Hlv1 Hne].
  destruct (arch_switch_ok w1 l c next s1 W1 Hlv1 Hne El ltac:(by rewrite Hst1)) as (w2 & Sv & Esw). rewrite Hv1, Hv in Esw.
  eexists. split; [done|]. apply (seated_fast w w1 w2 g l bag fin next s s1 now); try done; [lia|].
  etrans; [by apply kept_conserved|by eapply context_switch_conserved].
Qed.

(** To a preempted one: SIGUSR1 restores it. *)
Lemma switch_slow_ok w g l bag fin c next s now env t0 t1 t2 t_usr1 :
  core w g l bag fin -> current w = None -> idle w -> leaving w c -> sandboxes w !! next = Some s ->
  sb_state s = SANDBOX_PREEMPTED -> clock_before w t_usr1 -> t_usr1 <= UINT64_MAX ->
  exists w1 w', scheduler_cooperative_switch_to w c next now = Ret (w1, true) /\ current w1 = Some next
    /\ software_interrupt_handle_signals false worker_thread_idx w1 g SIGUSR1 env t0 t1 t2 t_usr1 = Ret (HReturn w' g)
    /\ seated w w' g l bag fin next t_usr1.
Proof.
  intros C Hcur Hi Hlv E Hs Hk Hn. pose proof (co_wf _ _ _ _ _ C) as W.
  pose proof (co_contexts _ _ _ _ _ C next s E) as Hv. unfold context_ok in Hv. rewrite Hs in Hv.
  destruct (current_set_ok worker_thread_idx w l next s W E ltac:(by rewrite Hs) Hi) as (g0 & Ea & Wa).
  unfold scheduler_cooperative_switch_to, current_sandbox_get. rewrite Hcur, bool_decide_true by done. ostep.
  rewrite (sb_get_ok _ _ _ E). ostep. rewrite Hs, Hv, bool_decide_true by done. ostep. rewrite Ea. ostep.
  set (wa := with_processor w next s g0) in *.
  assert (Hne : c <> Ctx next).
  { intros ->. destruct Hlv as (_ & sp & Ep & Hov & _). simplify_eq. by rewrite Hs in Hov. }
  destruct (arch_switch_ok wa l c next s Wa Hlv Hne E ltac:(by rewrite Hs)) as (w1 & Sv & Esw). rewrite Hv in Esw.
  assert (K1 : conserved w w1) by (etrans; [by eapply kept_conserved, current_set_kept|apply Sv]).
  pose proof (sv_same _ _ _ Sv next s E ltac:(by rewrite Hs)) as E1. destruct (sv_rest _ _ _ Sv) as (Er1 & Ec1 & _ & Ere1 & _).
  assert (Hc1 : contexts_ok w1) by (eapply parked_contexts; [apply Sv|apply C]).
  assert (C1 : core w1 g l bag fin).
  { apply (core_requeued w); try done; [by apply (parked_rearranged wa); apply Sv|apply Sv|]. apply (sv_deadlines _ _ _ Sv). }
  assert (Lt1 : later t_usr1 w w1) by (apply (parked_later wa); apply Sv).
  destruct (switch_to_ok worker_thread_idx w1 l next s t_usr1 (sv_wf _ _ _ Sv) Hc1)
    as (w' & s' & Ew & W' & Es' & Hr' & Hni & Hcx' & Hcur' & Er' & Ed' & El' & Hq' & Hst'); try done.
  { eapply parked_idle; [apply Sv|exact Hi]. }
  { by rewrite Hs. }
  { split; [by apply (Hk next)|done]. }
  pose proof (preemptive_switch_kept _ _ _ _ Ew) as K'.
  exists w1, w'. split; [done|]. split; [by rewrite Ec1|]. split.
  { unfold software_interrupt_handle_signals, current_sandbox_get. rewrite Ec1. cbn [current wa with_processor set_worker_deadline set_current].
    rewrite (sb_get_ok _ _ _ E1). ostep. rewrite Hs, Hv, !bool_decide_true by done. ostep. by rewrite Ew. }
  split.
  - apply (core_put w1 w' g l bag fin next s s'); try done; [by apply kept_conserved|by rewrite Hs].
  - split; [done|]. exists s'. split; [rewrite Es'; apply lookup_insert_eq|]. destruct (sb_state s'); try done; auto.
  - destruct K' as [[_ ->] _]. apply Sv.
  - by rewrite Er', Er1.
  - apply (later_trans _ t_usr1 t_usr1 w w1 w'); [done| |done..]. apply (later_insert _ w1 w' next s s'); [done..|lia|done].
  - destruct K' as [_ ->]. by rewrite Ere1.
  - rewrite (kp_cleanup _ _ (kept_conserved _ _ K')). apply (kp_cleanup _ _ K1).
  - rewrite (kp_sessions _ _ (kept_conserved _ _ K')). apply (kp_sessions _ _ K1).
Qed.

(** Back to the worker's own context. *)
Lemma switch_base_ok w g l bag fin p s :
  core w g l bag fin -> leaving w (Ctx p) -> sandboxes w !! p = Some s ->
  exists w', scheduler_switch_to_base_context w (Ctx p) = Ret (w', false) /\ core w' g l bag fin
    /\ base_variant w' = VARIANT_RUNNING /\ current w' = current w /\ deferred_sigalrm w' = deferred_sigalrm w
    /\ (forall t, later t w w') /\ responses w' = responses w /\ cleanup_queue w' = cleanup_queue w /\ sessions w' ≡ₚ sessions w.
Proof.
  intros C Hlv E. pose proof Hlv as (Hb & s0 & E0 & Hov & Hv & Hm). simplify_eq. pose proof (co_wf _ _ _ _ _ C) as W.
  unfold scheduler_switch_to_base_context, arch_context_switch. rewrite (bool_decide_true (base_variant w = _)) by done. ostep.
  rewrite (bool_decide_false (Ctx p = Base)) by done. cbn [negb]. ostep. cbn [variant_of]. rewrite (sb_get_ok _ _ _ E). ostep.
  rewrite Hv, (bool_decide_true (VARIANT_RUNNING = VARIANT_RUNNING)) by done. ostep. rewrite ?Hb.
  rewrite ?(bool_decide_true (VARIANT_FAST = VARIANT_FAST)) by done. cbn [orb]. ostep. cbn [write_variant]. rewrite (sb_get_ok _ _ _ E). ostep.
  rewrite decide_False by done. eexists. split; [done|]. set (w' := set_base_variant _ _).
  assert (Wp : wf (sb_put w p (set_sb_variant s VARIANT_FAST)) l) by (by apply wf_variant).
  assert (P : parked w w').
  { intros q sq. cbn. destruct (decide (q = p)) as [->|Hne].
    - rewrite lookup_insert_eq. intros [= <-]. right. by exists s.
    - rewrite lookup_insert_ne by done. by left. }
  assert (K : conserved w w') by (etrans; [eapply kept_conserved, variant_kept; [done|by rewrite Hv]|]; by apply conserved_same).
  split; [|do 3 (split; [done|]); split; [intros t; by apply parked_later|]; split; [done|]; split; [done|apply K]].
  apply (core_requeued w); try done.
  - by apply parked_rearranged.
  - by apply (wf_same worker_thread_idx (sb_put w p (set_sb_variant s VARIANT_FAST))); [..|apply frame_same].
  - eapply parked_contexts; [done|apply C].
  - by eapply same_deadlines_insert.
Qed.

(** ** The end of a sandbox *)

Lemma idle_none w l : wf w l -> current w = None -> idle w.
Proof.
  intros W Hc q s E. destruct (running (sb_state s)) eqn:Hr; [|done].
  destruct (ok_running _ _ _ (wf_sandbox _ _ _ W q s E) Hr) as [Hc' _]. congruence.
Qed.

Lemma idle_over w l p s : wf w l -> current w = Some p -> sandboxes w !! p = Some s -> over (sb_state s) = true -> idle w.
Proof.
  intros W Hc E Hov q sq Eq. destruct (decide (q = p)) as [->|Hne]; [simplify_eq; by destruct (sb_state s)|].
  by apply (others_not_running worker_thread_idx w l p q).
Qed.

(** Clearing the current sandbox and the deferred signals. *)
Definition cleared w w' : Prop :=
  current w' = None /\ deferred_sigalrm w' = 0 /\ sandboxes w' = sandboxes w /\ responses w' = responses w
  /\ base_variant w' = base_variant w /\ cleanup_queue w' = cleanup_queue w.

Lemma core_clear w g l bag fin :
  core w g l bag fin -> idle w ->
  exists w', current_sandbox_set w None = Ret w' /\ cleared w (software_interrupt_deferred_sigalrm_clear w')
    /\ core (software_interrupt_deferred_sigalrm_clear w') g l bag fin.
Proof.
  intros C Hi. eexists. split; [done|]. split; [by repeat split|]. pose proof (co_wf _ _ _ _ _ C) as W. apply (core_same w); try done.
  split; try apply W. intros q s E. cbn in E. destruct (wf_sandbox _ _ _ W q s E) as [? ? ? ? ? ? ? ?]. split; try done.
  intros Hr. by rewrite (Hi q s E) in Hr.
Qed.

Lemma core_cleanup w g l bag fin qs : core w g l bag fin -> core (set_cleanup_queue w qs) g l bag fin.
Proof.
  intros C. pose proof (co_wf _ _ _ _ _ C) as W.
  assert (W' : wf (set_cleanup_queue w qs) l) by (by apply (wf_same worker_thread_idx w); [..|apply frame_same]).
  destruct C. by split.
Qed.

Lemma core_cleanup_free w g l bag fin :
  core w g l bag (cleanup_queue w ++ fin) -> current w = None ->
  exists w', local_cleanup_queue_free worker_thread_idx w = Ret w' /\ core w' g l bag fin /\ cleanup_queue w' = []
    /\ current w' = None /\ base_variant w' = base_variant w /\ deferred_sigalrm w' = deferred_sigalrm w
    /\ responses w' = responses w /\ sessions w' ≡ₚ sessions w
    /\ forall q s, sandboxes w' !! q = Some s <-> sandboxes w !! q = Some s /\ q ∉ cleanup_queue w.
Proof.
  intros C Hc. destruct (free_all_ok g l bag fin (cleanup_queue w) w C Hc) as (w1 & Ew & C1 & R1 & Es & Ps).
  unfold local_cleanup_queue_free. rewrite Ew. ostep. eexists. split; [done|]. split; [by apply core_cleanup|].
  destruct R1 as (_ & Er & Hc1 & Hb & Hd & _). split; [done|]. split; [cbn; congruence|]. do 4 (split; [done|]). done.
Qed.

Lemma writeback_over_ok w g l bag fin p s pad :
  core w g l bag fin -> sandboxes w !! p = Some s -> over (sb_state s) = true -> sb_memory s = None -> sb_variant s <> VARIANT_UNUSED ->
  exists globals, globals_writeback w p pad = Ret (sb_put w p (set_sb_globals s globals))
    /\ core (sb_put w p (set_sb_globals s globals)) g l bag fin.
Proof.
  intros C E Hov Hm Hv. destruct (co_outfit _ _ _ _ _ C p s E Hv) as (stack & gs & m & _ & Hgs & _).
  destruct (global_writeback_ok _ gs (wasmg_0 w) pad Hgs) as (rc & globals & gs' & Ew & Hgs').
  assert (Ewb : globals_writeback w p pad = Ret (sb_put w p (set_sb_globals s globals)))
    by (unfold globals_writeback; rewrite (sb_get_ok _ _ _ E); ostep; by rewrite Ew).
  exists globals. split; [done|]. apply (core_put_over w _ g l bag fin p s (set_sb_globals s globals)); try done.
  - by eapply kept_conserved, writeback_kept.
  - pose proof (co_wf _ _ _ _ _ C) as W. eapply (wf_put _ w _ l p s); eauto; [by apply frame_same | apply W |].
    eapply sb_ok_frame; [by apply frame_same|]. destruct (wf_sandbox _ _ _ W p s E) as [[] ? ? ? ? ? ? ?]. split; try done. eauto.
Qed.

(** Who has the processor: the worker itself, or a sandbox at the top of its heap. *)
Definition seat w : Prop :=
  match current w with
  | None => base_variant w = VARIANT_RUNNING /\ deferred_sigalrm w = 0
  | Some n => base_variant w = VARIANT_FAST /\ on_processor w n /\ local_runqueue_get_next (runqueue w) = Ret (Some n)
  end.

(** The end of a scheduling decision: a worker in order, with nothing answered. *)
Definition settled w w' (g' : heap) (t : Z) : Prop :=
  (exists l' bag', core w' g' l' bag' (cleanup_queue w')) /\ seat w' /\ later t w w' /\ responses w' = responses w
  /\ sessions w' ≡ₚ sessions w.

(** After SIGUSR1, if it was sent. *)
Definition delivered env t0 t1 t2 t_usr1 (r : world L heap * bool * heap) w' (g' : heap) : Prop :=
  if r.1.2 then software_interrupt_handle_signals false worker_thread_idx r.1.1 r.2 SIGUSR1 env t0 t1 t2 t_usr1 = Ret (HReturn w' g')
  else r = (w', false, g').

Lemma settled_trans w w1 w' g t :
  later t w w1 -> responses w1 = responses w -> sessions w1 ≡ₚ sessions w -> settled w1 w' g t -> settled w w' g t.
Proof.
  intros Lt Er Ps (C & Hs & Lt' & Er' & Ps'). split; [done|]. split; [done|]. split; [by eapply later_trans|].
  split; [congruence|by rewrite Ps'].
Qed.

(** Switching to the policy's choice. *)
Lemma cooperative_ok w g l bag c next env t0 t1 t2 t_switch t_usr1 :
  core w g l bag (cleanup_queue w) -> current w = None -> leaving w c -> next ∈ l ->
  local_runqueue_get_next (runqueue w) = Ret (Some next) ->
  clock_before w t_switch -> t_switch < t_usr1 <= UINT64_MAX ->
  exists r, scheduler_cooperative_switch_to w c next t_switch = Ret r /\ current r.1 = Some next
    /\ exists w', delivered env t0 t1 t2 t_usr1 (r, g) w' g /\ settled w w' g t_usr1.
Proof.
  intros C Hc Hlv Hin Hnext Hk Ht. pose proof (idle_none _ _ (co_wf _ _ _ _ _ C) Hc) as Hi.
  apply (wf_queued _ _ _ (co_wf _ _ _ _ _ C)) in Hin as (s & E & Hq). pose proof (Hi next s E) as Hr.
  assert (Hend : forall w' t, seated w w' g l bag (cleanup_queue w) next t -> t <= t_usr1 -> settled w w' g t_usr1).
  { intros w' t [C' Hon Hb Er Hlt Ere Ecl Eses] Htt. split; [exists l, bag; by rewrite Ecl|]. split; [|split; [|done]].
    - unfold seat. destruct Hon as [Hcur Hs]. rewrite Hcur. split; [done|]. split; [done|]. by rewrite Er.
    - by apply (later_trans _ t t w w' w'); [|apply later_same| |]. }
  destruct (sb_state s) eqn:Hs; try discriminate Hq; try discriminate Hr.
  - destruct (switch_fast_ok w g l bag _ c next s t_switch C Hc Hi Hlv E Hs Hk ltac:(lia)) as (w' & Ew & St).
    exists (w', false). split; [done|]. split; [apply St|]. exists w'. split; [done|]. eapply Hend; [done|lia].
  - assert (Hk' : clock_before w t_usr1) by (intros q sq Eq; specialize (Hk q sq Eq); lia).
    destruct (switch_slow_ok w g l bag _ c next s t_switch env t0 t1 t2 t_usr1 C Hc Hi Hlv E Hs Hk' ltac:(lia)) as (w1 & w' & Ew & Hcur & Eh & St).
    exists (w1, true). split; [done|]. split; [done|]. exists w'. split; [done|]. by eapply Hend.
Qed.

Lemma core_over w g l bag fin q s : core w g l bag fin -> sandboxes w !! q = Some s -> over (sb_state s) = true -> q ∉ l.
Proof.
  intros C E Hov Hin. apply (wf_queued _ _ _ (co_wf _ _ _ _ _ C)) in Hin as (s0 & E0 & Hq). simplify_eq.
  apply queued_not in Hq as [_ ?]. congruence.
Qed.

(** A finished sandbox looks for its successor: what waited for release is
    released, the policy chooses, and the sandbox waits for release itself. *)
Lemma exit_choice w g l bag p s env t t_switch t_usr1 :
  core w g l bag (p :: cleanup_queue w) -> current w = Some p -> sandboxes w !! p = Some s -> over (sb_state s) = true ->
  sb_variant s = VARIANT_RUNNING -> base_variant w = VARIANT_FAST ->
  env_good env -> clock_before w t -> t <= se_dispatch env -> se_dispatch env < t_switch < t_usr1 -> t_usr1 <= UINT64_MAX ->
  exists next w' g' l' bag' s',
    scheduler_cooperative_sched false worker_thread_idx w g true env t_switch
    = ('(w, usr1) ← match next with
                    | Some n => scheduler_cooperative_switch_to w' (Ctx p) n t_switch
                    | None => scheduler_switch_to_base_context w' (Ctx p)
                    end;
       Ret (w, usr1, g'))
    /\ core w' g' l' bag' (cleanup_queue w') /\ current w' = None /\ deferred_sigalrm w' = 0 /\ leaving w' (Ctx p)
    /\ sandboxes w' !! p = Some s' /\ over (sb_state s') = true /\ local_runqueue_get_next (runqueue w') = Ret next
    /\ (forall n, next = Some n -> n ∈ l') /\ clock_before w' t_switch
    /\ later t_usr1 w w' /\ responses w' = responses w /\ sessions w' ≡ₚ sessions w.
Proof.
  intros C Hc E Hov Hv Hb Henv Hk Ht Hts Hu.
  destruct (core_clear w g l bag _ C (idle_over w l p s (co_wf _ _ _ _ _ C) Hc E Hov))
    as (wc & Ec & (Hc1 & Hd1 & Es1 & Ere1 & Eb1 & Ecl1) & C1).
  unfold scheduler_cooperative_sched, current_sandbox_get. rewrite Hc, Ec. ostep.
  set (w1 := software_interrupt_deferred_sigalrm_clear wc) in *. rewrite Hc1, Hd1, bool_decide_true by done. ostep.
  (* what waited is released *)
  apply (core_fin _ _ _ _ _ (cleanup_queue w1 ++ [p])) in C1; [|rewrite Ecl1; apply Permutation_app_comm].
  destruct (core_cleanup_free w1 g l bag [p] C1 Hc1) as (w2 & Ef & C2 & Ecl2 & Hc2 & Eb2 & Hd2 & Ere2 & Ps2 & Es2). rewrite Ef. ostep. clear Ef.
  assert (E2 : sandboxes w2 !! p = Some s).
  { apply Es2. rewrite Es1. split; [done|]. rewrite Ecl1. pose proof (co_fin_nodup _ _ _ _ _ C) as Hn. by apply list.NoDup_cons in Hn as [? _]. }
  assert (Lt2 : later t_usr1 w w2).
  { intros q sq Eq. left. exists sq. split; [|done]. apply Es2 in Eq as [Eq _]. by rewrite Es1 in Eq. }
  assert (Hk2 : clock_before w2 t) by (intros q sq Eq; apply Es2 in Eq as [Eq _]; rewrite Es1 in Eq; eauto).
  (* the policy *)
  destruct (core_next w2 g l bag [p] env t C2 Henv Hk2 ltac:(lia))
    as (next & w3 & g' & l' & bag' & En & C3 & He & Htop & K3 & Adv & Hk3). cbn [scheduler_get_next edf_policy]. rewrite En. ostep.
  assert (E3 : sandboxes w3 !! p = Some s) by (apply (adv_kept _ _ _ Adv); [done|intros Hx; by rewrite Hx in Hov]).
  rewrite decide_False.
  2: { intros ->. destruct He as [Hin _]. by eapply core_over. }
  destruct (co_fin _ _ _ _ _ C3 p) as (s0 & E0 & _ & Hm & Hnu); [constructor|]. simplify_eq.
  destruct (writeback_over_ok w3 g' l' bag' [p] p s (se_pad env) C3 E3 Hov Hm Hnu) as (globals & Ewb & C4). rewrite Ewb. ostep.
  set (s4 := set_sb_globals s globals) in *. set (w4 := sb_put w3 p s4) in *.
  assert (Ecl3 : cleanup_queue w4 = []) by (pose proof (kp_cleanup _ _ (kept_conserved _ _ K3)); cbn; congruence).
  unfold local_cleanup_queue_add. rewrite Ecl3, bool_decide_true by apply not_elem_of_nil. ostep. cbn [app].
  apply (core_cleanup _ _ _ _ _ [p]) in C4. set (w5 := set_cleanup_queue w4 [p]) in *.
  assert (Hc5 : current w5 = None) by (cbn; by rewrite (adv_current _ _ _ Adv)).
  assert (Hb5 : base_variant w5 = VARIANT_FAST) by (cbn; destruct K3 as [[_ ->] _]; cbn; congruence).
  assert (E5 : sandboxes w5 !! p = Some s4) by apply lookup_insert_eq.
  assert (Hlv : leaving w5 (Ctx p)) by (split; [done|]; by exists s4).
  assert (Lt5 : later t_usr1 w w5).
  { apply (later_trans _ t_usr1 t_usr1 w w3 w5); [|by eapply later_retouch|lia..].
    apply (later_trans _ t_usr1 (se_dispatch env) w w2 w3); [done|by apply later_stirred, stirred_advanced|lia..]. }
  assert (Hk5 : clock_before w5 t_switch).
  { apply (later_clock (se_dispatch env) w3 w5 (se_dispatch env + 1)); [by eapply later_retouch|done|lia..]. }
  assert (Ere5 : responses w5 = responses w) by (cbn; destruct K3 as [_ ->]; cbn; congruence).
  assert (Ps5 : sessions w5 ≡ₚ sessions w).
  { change (sessions w5) with (sessions w4). rewrite (kp_sessions _ _ (kept_conserved _ _ (writeback_kept _ _ _ _ Ewb))).
    rewrite (kp_sessions _ _ (kept_conserved _ _ K3)), Ps2.
    unfold sessions. by rewrite Es1, Ere1. }
  exists next, w5, g', l', bag', s4. do 3 (split; [done|]). split; [|split_and!; try done; intros n ->; apply He].
  apply (kp_deferred _ _ (kept_conserved _ _ K3)). cbn. congruence.
Qed.

(** It gives the processor to the policy's choice, or to the worker. *)
Lemma exit_sched_ok w g l bag p s env t t0 t1 t2 t_switch t_usr1 :
  core w g l bag (p :: cleanup_queue w) -> current w = Some p -> sandboxes w !! p = Some s -> over (sb_state s) = true ->
  sb_variant s = VARIANT_RUNNING -> base_variant w = VARIANT_FAST ->
  env_good env -> clock_before w t -> t <= se_dispatch env -> se_dispatch env < t_switch < t_usr1 -> t_usr1 <= UINT64_MAX ->
  exists r g', scheduler_cooperative_sched false worker_thread_idx w g true env t_switch = Ret (r, g') /\ current r.1 <> Some p
    /\ exists w', delivered env t0 t1 t2 t_usr1 (r, g') w' g' /\ settled w w' g' t_usr1.
Proof.
  intros C Hc E Hov Hv Hb Henv Hk Ht Hts Hu.
  destruct (exit_choice w g l bag p s env t t_switch t_usr1 C Hc E Hov Hv Hb Henv Hk Ht Hts Hu)
    as (next & w5 & g' & l' & bag' & s5 & -> & C5 & Hc5 & Hd5 & Hlv & E5 & Hov5 & Htop & He & Hk5 & Lt5 & Ere5 & Ps5).
  destruct next as [n|].
  - pose proof (He n eq_refl) as Hin.
    destruct (cooperative_ok w5 g' l' bag' (Ctx p) n env t0 t1 t2 t_switch t_usr1 C5 Hc5 Hlv Hin Htop Hk5 ltac:(lia))
      as ([w6 usr] & Esw & Hcur & w' & Hdel & Hset). rewrite Esw. ostep.
    exists (w6, usr), g'. split; [done|]. split; [|exists w'; split; [done|by eapply settled_trans]].
    cbn in Hcur |- *. rewrite Hcur. intros [= ->]. by eapply (core_over w5).
  - destruct (switch_base_ok w5 g' l' bag' _ p s5 C5 Hlv E5) as (w' & Esw & C' & Hb' & Hc' & Hd' & Lt' & Ere' & Ecl' & Ps'). rewrite Esw. ostep.
    exists (w', false), g'. split; [done|]. split; [cbn; congruence|]. exists w'. split; [done|].
    eapply settled_trans; [done..|]. split; [exists l', bag'; by rewrite Ecl'|]. split; [|by split].
    unfold seat. by rewrite Hc', Hc5, Hd', Hd5.
Qed.

(** ** A new request *)

Lemma alloc_rest w p k session route tenant estimate t0 t1 w' :
  sandbox_alloc w (Some p) k session route tenant estimate t0 t1 = Ret (Some p, w') ->
  rest_same w w' /\ exists s m m', sandboxes w' = <[p := s]> (sandboxes w) /\ sb_module s = k /\ sb_variant s = VARIANT_UNUSED
    /\ last_state_change s = t1 /\ sb_http s = Some session
    /\ modules w !! k = Some m /\ module_acquire m = Ret m' /\ modules w' = <[k := m']> (modules w).
Proof.
  unfold sandbox_alloc, sandbox_set_as_allocated, sandbox_init, sandbox_set_as_initialized, write_state, bookkeeping, account.
  intros E. kept_steps.
  puts. split; [by repeat split|]. eexists _, _, _. split; [cbn; by rewrite !insert_insert_eq|].
  do 6 (split; [done|]). done.
Qed.

(** The world with the new sandbox. *)
Lemma alloc_world w g l bag fin p k m session route r tenant estimate t0 t1 :
  core w g l bag fin -> sandboxes w !! p = None -> modules w !! k = Some m -> reference_count m < UINT32_MAX ->
  routes w !! route = Some r -> 0 <= t0 + relative_deadline r < UINT64_MAX -> is_Some (tenants w !! tenant) -> estimate <> 0 ->
  0 < t0 < t1 -> t1 <= UINT64_MAX ->
  exists w' s m', sandbox_alloc w (Some p) k session route tenant estimate t0 t1 = Ret (Some p, w') /\ rest_same w w'
    /\ sandboxes w' = <[p := s]> (sandboxes w) /\ sb_state s = SANDBOX_INITIALIZED /\ last_state_change s = t1
    /\ absolute_deadline s < UINT64_MAX /\ sb_module s = k /\ sb_variant s = VARIANT_UNUSED
    /\ wf w' l /\ sessions w' ≡ₚ session :: sessions w /\ abis_kept w w' /\ modules w' = <[k := m']> (modules w)
    /\ abi m' = abi m /\ reference_count m' = reference_count m + 1.
Proof.
  intros C Ep Em Href Er Hdl Hten Hest Ht Ht1. pose proof (co_refs _ _ _ _ _ C _ _ Em) as Hrm.
  destruct (sandbox_alloc_ok worker_thread_idx w l p k m session route r tenant estimate t0 t1 (co_wf _ _ _ _ _ C) Ep Em ltac:(lia) Er Hten Hest Ht Ht1)
    as (_ & w' & s & m1 & Ew & W' & Es & Hst & _ & Hd & _ & _ & Em1 & Eref1).
  destruct (alloc_rest _ _ _ _ _ _ _ _ _ _ Ew) as (Rs & s0 & m0 & m' & Es0 & Hk & Hv & Hl & Eh & Em0 & Eacq & Emod).
  assert (s0 = s) as -> by (rewrite Es in Es0; apply (f_equal (.!! p)) in Es0; rewrite !lookup_insert_eq in Es0; by injection Es0).
  assert (m0 = m) as -> by congruence. assert (m1 = m') as -> by (rewrite Emod, lookup_insert_eq in Em1; congruence).
  assert (Hacq : abi m' = abi m /\ stack_size m' = stack_size m) by (revert Eacq; unfold module_acquire; intros Eacq; kept_steps; done).
  rewrite u64_small in Hd by lia. exists w', s, m'. do 5 (split; [done|]). split; [lia|]. do 3 (split; [done|]).
  split; [|split; [|split; [done|split; [apply Hacq|done]]]].
  - unfold sessions. destruct Rs as (_ & -> & _). rewrite Es.
    assert (Hheld : held (<[p := s]> (sandboxes w)) ≡ₚ session :: held (sandboxes w)).
    { unfold held. rewrite map_to_list_insert by done. cbn. by rewrite Eh. }
    by rewrite Hheld, <- Permutation_middle.
  - intros j mj Ej. rewrite Emod. destruct (decide (j = k)) as [->|Hne].
    + rewrite lookup_insert_eq. exists m'. simplify_eq. done.
    + rewrite lookup_insert_ne by done. by exists mj.
Qed.

Lemma core_request w g l bag fin p k m session route r tenant estimate t0 t1 :
  core w g l bag fin -> sandboxes w !! p = None -> session ∉ sessions w ->
  modules w !! k = Some m -> reference_count m < UINT32_MAX -> 0 < globals_len (abi m) ->
  routes w !! route = Some r -> 0 <= t0 + relative_deadline r < UINT64_MAX -> is_Some (tenants w !! tenant) -> estimate <> 0 ->
  0 < t0 < t1 -> t1 <= UINT64_MAX ->
  exists w' s, sandbox_alloc w (Some p) k session route tenant estimate t0 t1 = Ret (Some p, w') /\ rest_same w w'
    /\ sandboxes w' = <[p := s]> (sandboxes w) /\ sb_state s = SANDBOX_INITIALIZED /\ last_state_change s = t1
    /\ wf w' l /\ gs_repr (sandbox_get_priority w') g bag /\ sessions w' ≡ₚ session :: sessions w
    /\ forall g' bag', gs_repr (sandbox_get_priority w') g' bag' -> bag' ≡ₚ p :: bag -> core w' g' l bag' fin.
Proof.
  intros C Ep Hses Em Href Hgl Er Hdl Hten Hest Ht Ht1.
  destruct (alloc_world w g l bag fin p k m session route r tenant estimate t0 t1 C Ep Em Href Er Hdl Hten Hest Ht Ht1)
    as (w' & s & m' & Ew & Rs & Es & Hst & Hl & Hd & Hk & Hv & W' & Ps & Hmk & Emod & Ea & Eref).
  destruct C as [W Hcx Hh Hg Hn Hp Hb Hfn Hf Ho Hr Hs].
  assert (Hlk : forall q, q <> p -> sandboxes w' !! q = sandboxes w !! q) by (intros q Hne; by rewrite Es, lookup_insert_ne).
  assert (Hlp : sandboxes w' !! p = Some s) by (rewrite Es; apply lookup_insert_eq).
  assert (Hbp : p ∉ bag) by (intros Hin; destruct (Hb p Hin) as (? & ? & ? & _); congruence).
  assert (Hfp : p ∉ fin) by (intros Hin; destruct (Hf p Hin) as (? & ? & _); congruence).
  assert (Hlq : p ∉ l) by (rewrite (wf_queued _ _ _ W); intros (? & ? & _); congruence).
  assert (Hpr : forall q, q <> p -> sandbox_get_priority w' q = sandbox_get_priority w q)
    by (intros q Hne; unfold sandbox_get_priority; by rewrite Hlk).
  exists w', s. split; [done|]. split; [done|]. do 4 (split; [done|]). split.
  { eapply gs_repr_ext; [|exact Hg]. intros q Hq. symmetry. apply Hpr. by intros ->. }
  split; [done|]. intros g' bag' Hg' Pb. split; try done.
  - eapply contexts_insert; eauto. unfold context_ok. by rewrite Hst.
  - destruct Rs as (-> & _). eapply pq_heap_ext; [|apply (wf_queue _ _ _ W)|exact Hh]. intros q Hq. symmetry. apply Hpr. by intros ->.
  - rewrite Pb. by constructor.
  - intros q sq Eq. destruct (decide (q = p)) as [->|Hne].
    + rewrite Hlp in Eq. injection Eq as <-. unfold placed. rewrite Hst, Pb. constructor.
    + rewrite Hlk in Eq by done. specialize (Hp q sq Eq). unfold placed in *. destruct (sb_state sq); try done. rewrite Pb. by right.
  - intros q. rewrite Pb. intros [->|Hq]%elem_of_cons.
    + exists s, m'. rewrite Hk, Emod, lookup_insert_eq, Ea. done.
    + apply (request_transfer w); [done|apply Hlk|by apply Hb]. by intros ->.
  - intros q Hq. apply (finished_transfer w); [apply Hlk|by apply Hf]. by intros ->.
  - intros q sq Eq Hvq. destruct (decide (q = p)) as [->|Hne]; [congruence|]. rewrite Hlk in Eq by done.
    apply (outfit_transfer w); [done|by apply (Ho q)].
  - assert (Hmod : module_of w' = <[p := k]> (module_of w)) by (unfold module_of; by rewrite Es, fmap_insert, Hk).
    assert (Hnone : module_of w !! p = None) by (unfold module_of; by rewrite lookup_fmap, Ep).
    intros j mj Ej. rewrite Hmod, refs_insert_new by done. rewrite Emod in Ej. destruct (decide (k = j)) as [<-|Hne].
    + rewrite lookup_insert_eq in Ej. injection Ej as <-. specialize (Hr k m Em). lia.
    + rewrite lookup_insert_ne in Ej by done. apply (Hr j mj Ej).
  - rewrite Ps. by constructor.
Qed.
End core.
