(* ===== verification/Exits.v ===== *)
(** * Exits: the last steps of a sandbox

    A sandbox ends in one of two ways: its code returns ([current_sandbox_fini])
    or traps ([current_sandbox_wasm_trap_handler]).  Under EDF both leave the
    runqueue, give back the linear memory, answer the session, release what waited
    for release and give the processor to the earliest deadline that is left. *)

From Stdlib Require Import ZArith Lia.
From S2P Require Import Prelude Lock PriorityQueue HeapTheory PriorityQueueSpec Deque Bytes Admissions.
From S2P Require Import WasmMemory Globals Module Runqueue Sandbox Scheduler SandboxSpec SandboxSteps SchedulerSpec Conservation Preemption Lifecycle Worker.
Local Open Scope Z_scope.

Section exits.
Context {L : Type} `{SpinLock L}.
Variable worker_thread_idx : nat.
Abbreviation heap := (priority_queue L Z).
Implicit Types w : world L heap.
Abbreviation wf := (wf worker_thread_idx).
Abbreviation core := (core worker_thread_idx).

(** The sandbox has left the runqueue, without its memory. *)
Definition released w w' (p : Z) : Prop :=
  (exists s', sandboxes w' !! p = Some s' /\ sb_memory s' = None)
  /\ exists w0, same_deadlines w w0 /\ local_runqueue_delete (sandbox_get_priority w0) (runqueue w) p = Ret (runqueue w').

Ltac release_done :=
  puts; split; [cbn; rewrite ?lookup_insert_eq; by eexists|];
  eexists; split; [|eassumption]; eapply same_deadlines_insert; [eassumption|reflexivity|done].

Lemma exit_error_released w p now w' : sandbox_exit_error false worker_thread_idx w p now = Ret w' -> released w w' p.
Proof.
  unfold sandbox_exit_error, sandbox_set_as_error, write_state, runqueue_delete, sandbox_free_linear_memory, bookkeeping, account,
    admissions_control_subtract, respond, sandbox_process_scheduler_updates. intros E. kept_steps.
  all: release_done.
Qed.

Lemma returned_released w p now w' :
  sandbox_set_as_returned worker_thread_idx w p SANDBOX_RUNNING_SYS now = Ret w' -> released w w' p.
Proof.
  unfold sandbox_set_as_returned, write_state, runqueue_delete, sandbox_free_linear_memory, bookkeeping, account, respond,
    sandbox_process_scheduler_updates. intros E. kept_steps.
  all: release_done.
Qed.

Lemma exit_success_released w p now t0 t1 w' s :
  sandbox_exit_success false w p now t0 t1 = Ret w' -> sandboxes w !! p = Some s ->
  runqueue w' = runqueue w /\ exists s', sandboxes w' !! p = Some s' /\ sb_memory s' = sb_memory s.
Proof.
  unfold sandbox_exit_success, sandbox_set_as_complete, write_state, bookkeeping, account, admissions_control_subtract.
  intros E Ep. kept_steps. all: puts. all: split; [done|]; cbn; rewrite ?lookup_insert_eq; by eexists.
Qed.

(** The sandbox on the processor is the top of the heap, so deleting it keeps
    the order. *)
Lemma released_heap w w' l p :
  wf w l -> pq_heap (sandbox_get_priority w) (runqueue w) -> local_runqueue_get_next (runqueue w) = Ret (Some p) ->
  released w w' p -> same_deadlines w w' -> pq_heap (sandbox_get_priority w') (runqueue w').
Proof.
  intros W Hh Ht (_ & w0 & Hd0 & Hdel) Hd. destruct (wf_queue _ _ _ W) as [B U].
  assert (Hacc : pq_accessible (runqueue w) = true) by (unfold pq_accessible; by rewrite U).
  revert Hdel. unfold local_runqueue_delete. cbn. unfold local_runqueue_minheap_delete. intros Hdel. kept_steps.
  revert Ht. unfold local_runqueue_get_next. cbn. unfold local_runqueue_minheap_get_next.
  destruct (top_bag _ _ _ B Hacc) as [(a & Ea & _)|(_ & Ea & _)]; rewrite Ea; ostep; [|done]. intros [= ->].
  pose proof (fun q => eq_sym (Hd0 q)) as Hd1.
  assert (Hh' : pq_heap (sandbox_get_priority w0) (runqueue w')).
  { eapply delete_top; [|eapply pq_heap_ext; [|apply B|exact Hh]; auto|done|done|done]. eapply pq_bag_ext; [|exact B]. auto. }
  eapply pq_heap_ext; [|reflexivity|exact Hh']. intros q _. by rewrite Hd0, Hd.
Qed.

(** The invariant after a sandbox of the runqueue finished. *)
Lemma core_finished w w' g l l' bag fin p s s' :
  core w g l bag fin -> conserved w w' -> sandboxes w !! p = Some s -> queued (sb_state s) = true ->
  sandboxes w' = <[p := s']> (sandboxes w) -> over (sb_state s') = true -> sb_memory s' = None ->
  sb_variant s' <> VARIANT_UNUSED -> absolute_deadline s' = absolute_deadline s ->
  wf w' l' -> pq_heap (sandbox_get_priority w') (runqueue w') -> core w' g l' bag (p :: fin).
Proof.
  intros [W Hc Hh Hg Hn Hp Hb Hfn Hf Ho Hr Hs] K E Hq Es Hov Hm Hv Hd W' Hh'.
  pose proof K as [Kmod Kses Kfix Kout _ _].
  assert (Hbp : p ∉ bag).
  { intros Hin. destruct (Hb p Hin) as (s0 & m & E0 & Hi & _). simplify_eq. by rewrite Hi in Hq. }
  assert (Hfp : p ∉ fin).
  { intros Hin. destruct (Hf p Hin) as (s0 & E0 & Ho' & _). simplify_eq. apply queued_not in Hq as [_ ?]. congruence. }
  assert (Hlk : forall q, q <> p -> sandboxes w' !! q = sandboxes w !! q) by (intros q Hne; by rewrite Es, lookup_insert_ne).
  assert (Hlp : sandboxes w' !! p = Some s') by (rewrite Es; apply lookup_insert_eq).
  split; try done.
  - eapply contexts_insert; eauto. unfold context_ok. by destruct (sb_state s').
  - eapply gs_repr_ext; [|exact Hg]. intros q _. symmetry. by eapply same_deadlines_insert.
  - intros q sq Eq. destruct (decide (q = p)) as [->|Hne].
    + rewrite Hlp in Eq. injection Eq as <-. unfold placed. destruct (sb_state s'); try done; constructor.
    + rewrite Hlk in Eq by done. specialize (Hp q sq Eq). unfold placed in *. by destruct (sb_state sq); try done; right.
  - intros q Hin. apply (request_transfer w); [by apply conserved_abis|apply Hlk|by apply Hb]. by intros ->.
  - by constructor.
  - intros q [->|Hin]%elem_of_cons; [by exists s'|]. apply (finished_transfer w); [apply Hlk|by apply Hf]. by intros ->.
  - auto.
  - intros k m' Em'. specialize (Kfix k). rewrite Em' in Kfix. destruct (modules w !! k) as [m|] eqn:Em; [|done].
    injection Kfix as -> _ _ _. rewrite Kmod. by apply Hr.
  - by rewrite Kses.
Qed.

(** What is left after the last state change of a sandbox: its answer is sent,
    and it still has the processor. *)
Definition ended w w' g (bag : list Z) (p status now : Z) : Prop :=
  exists l' s s' session, core w' g l' bag (p :: cleanup_queue w') /\ current w' = Some p /\ base_variant w' = base_variant w
    /\ sandboxes w !! p = Some s /\ sandboxes w' = <[p := s']> (sandboxes w) /\ over (sb_state s') = true
    /\ sb_variant s' = VARIANT_RUNNING /\ last_state_change s' <= now /\ sb_http s = Some session
    /\ responses w' = responses w ++ [(session, status)] /\ sessions w' ≡ₚ sessions w.

(** The sandbox on the processor, in the runtime or in its own code. *)
Record at_work w (g : heap) (l bag : list Z) (p : Z) (s : sandbox) (st : sandbox_state_t) : Prop := {
  aw_core : core w g l bag (cleanup_queue w);
  aw_current : current w = Some p;
  aw_base : base_variant w = VARIANT_FAST;
  aw_sandbox : sandboxes w !! p = Some s;
  aw_state : sb_state s = st;
  aw_running : running st = true;
  aw_top : local_runqueue_get_next (runqueue w) = Ret (Some p);
}.

Lemma at_work_variant w g l bag p s st : at_work w g l bag p s st -> sb_variant s = VARIANT_RUNNING.
Proof.
  intros [C _ _ E <- Hr _]. pose proof (co_contexts _ _ _ _ _ _ C p s E) as Hc. unfold context_ok in Hc. by destruct (sb_state s).
Qed.

Lemma at_work_session w g l bag p s st : at_work w g l bag p s st -> exists session, sb_http s = Some session.
Proof.
  intros [C _ _ E <- Hr _]. apply (ok_http _ _ _ (wf_sandbox _ _ _ (co_wf _ _ _ _ _ _ C) p s E)). by destruct (sb_state s).
Qed.

Lemma at_work_queued st : running st = true -> queued st = true.
Proof. by destruct st. Qed.

(** The sandbox on the processor changes, and stays there. *)
Lemma at_work_put w w' g l bag p s s' st st' :
  at_work w g l bag p s st -> kept w w' -> sandboxes w' = <[p := s']> (sandboxes w) -> sb_state s' = st' -> running st' = true ->
  sb_variant s' = sb_variant s -> absolute_deadline s' = absolute_deadline s -> runqueue w' = runqueue w -> current w' = current w ->
  wf w' l -> at_work w' g l bag p s' st'.
Proof.
  intros A K Es Est Hr Hv Hd Er Ec W'. pose proof (at_work_variant _ _ _ _ _ _ _ A) as Hv0. destruct A as [C Hc Hb E Hs Hr0 Ht].
  split; try congruence.
  - rewrite (kp_cleanup _ _ (kept_conserved _ _ K)). eapply (core_put _ w w'); eauto.
    + by apply kept_conserved.
    + rewrite Hs. by apply at_work_queued.
    + rewrite Est. by apply at_work_queued.
    + unfold context_ok. rewrite Est, Hv, Hv0. by destruct st'.
  - destruct K as [[_ ->] _]. done.
  - rewrite Es. apply lookup_insert_eq.
Qed.

(** Its memory, its globals and its statistics may change. *)
Definition same_account (s s' : sandbox) : Prop :=
  sb_state s' = sb_state s /\ sb_variant s' = sb_variant s /\ last_state_change s' = last_state_change s
  /\ allocation s' = allocation s /\ duration_of_state s' = duration_of_state s
  /\ absolute_deadline s' = absolute_deadline s /\ sb_module s' = sb_module s /\ sb_tenant s' = sb_tenant s
  /\ sb_route s' = sb_route s /\ sb_http s' = sb_http s /\ sb_stack s' = sb_stack s.

Definition equipped w (s' : sandbox) : Prop :=
  (forall m, modules w !! sb_module s' = Some m -> exists mem, sb_memory s' = Some mem /\ memory_usable m mem)
  /\ exists gs, globals_wf (sb_globals s') gs.

Lemma at_work_equipped w g l bag p s st : at_work w g l bag p s st -> equipped w s.
Proof.
  intros [C _ _ E <- Hr _]. pose proof (wf_sandbox _ _ _ (co_wf _ _ _ _ _ _ C) p s E) as [_ (m & Em & Hm) Hg _ _ _ _ _].
  assert (He : executing (sb_state s) = true) by (by destruct (sb_state s)). split; [|by apply Hg].
  intros m' Em'. simplify_eq. by apply Hm.
Qed.

Lemma at_work_touch w g l bag p s s' st :
  at_work w g l bag p s st -> same_account s s' -> equipped w s' ->
  at_work (sb_put w p s') g l bag p s' st /\ kept w (sb_put w p s').
Proof.
  intros A (Est & Ev & El & Ea & Edu & Ed & Em & Ete & Ero & Eh & Estk) [Hmem Hgs]. pose proof A as [C Hc Hb E Hs Hr Ht].
  assert (K : kept w (sb_put w p s')).
  { eapply kept_put; [done..|]. split; [congruence|]. split; [done|]. split; [done|]. intros gs _. done. }
  split; [|done]. eapply (at_work_put w); eauto; [congruence|].
  pose proof (co_wf _ _ _ _ _ _ C) as W. eapply (wf_put _ w _ l p s); eauto; [by apply frame_same | apply W | |by rewrite Est].
  apply (sb_ok_frame w); [by apply frame_same|]. destruct (wf_sandbox _ _ _ W p s E) as [[] (m & Emm & _) ? ? ? ? ? ?]. split; try congruence.
  - split; congruence.
  - exists m. split; [by rewrite Em|]. intros _. apply Hmem. by rewrite Em.
  - by rewrite Est, Ed.
Qed.

Lemma at_work_wasmg w g l bag p s st g0 :
  at_work w g l bag p s st -> at_work (set_wasmg_0 w g0) g l bag p s st /\ kept w (set_wasmg_0 w g0).
Proof.
  intros [C Hc Hb E Hs Hr Ht]. assert (K : kept w (set_wasmg_0 w g0)) by (by apply kept_same). split; [|done]. split; try done.
  apply (core_same _ w); try done.
  apply (wf_same worker_thread_idx w); [apply C|done..|by apply frame_same].
Qed.

(** Into the runtime, and back. *)
Lemma moves_http w p s st now sent out w' s' :
  moves worker_thread_idx w p s st now sent out -> unanswered st = true -> out = Ret w' -> sandboxes w' = <[p := s']> (sandboxes w) ->
  sb_http s' = sb_http s.
Proof.
  intros (w0 & l0 & s0 & -> & _ & Es0 & _ & _ & _ & _ & _ & Hh & _) Hu [= <-] Es. specialize (Hh Hu).
  rewrite Es0 in Es. apply (f_equal (.!! p)) in Es. rewrite !lookup_insert_eq in Es. by simplify_eq.
Qed.

(** A state change of the sandbox on the processor that leaves it there. *)
Lemma at_work_moves w g l bag p s st st' now sent out :
  at_work w g l bag p s st -> moves worker_thread_idx w p s st' now sent out -> running st' = true ->
  (forall w', out = Ret w' -> kept w w') ->
  exists w' s', out = Ret w' /\ at_work w' g l bag p s' st' /\ kept w w'
    /\ sandboxes w' = <[p := s']> (sandboxes w) /\ last_state_change s' = now /\ sb_http s' = sb_http s.
Proof.
  intros A M Hr K. pose proof A as [C Hc Hb E Hs Hr0 Ht]. pose proof (fun w' s' => moves_http _ _ _ _ _ _ _ w' s' M) as Hh.
  apply (moves_queue worker_thread_idx w l) in M as (w' & s' & Ew & W' & Es & Est & El & Ed & Ev & _ & Er & _); [|apply C|done|by rewrite Hs, !at_work_queued].
  exists w', s'. split; [done|]. split; [|split; [by apply K|]; do 2 (split; [done|]); apply (Hh w'); [by destruct st'|done..]].
  eapply (at_work_put w w'); eauto. rewrite Hc.
  apply (ok_running _ _ _ (wf_sandbox _ _ _ W' p s' ltac:(by rewrite Es, lookup_insert_eq))). by rewrite Est.
Qed.

Lemma runtime_entered w g l bag p s now :
  at_work w g l bag p s SANDBOX_RUNNING_USER -> last_state_change s < now <= UINT64_MAX ->
  exists w' s', sandbox_syscall w p now = Ret w' /\ at_work w' g l bag p s' SANDBOX_RUNNING_SYS /\ kept w w'
    /\ sandboxes w' = <[p := s']> (sandboxes w) /\ last_state_change s' = now /\ sb_http s' = sb_http s.
Proof.
  intros A Hn. eapply at_work_moves; [done| |done|intros w'; apply syscall_kept].
  eapply syscall_ok; [apply A|apply A|done|apply A].
Qed.

Lemma runtime_left w g l bag p s now :
  at_work w g l bag p s SANDBOX_RUNNING_SYS -> last_state_change s < now <= UINT64_MAX ->
  exists w' s', sandbox_return w p now = Ret w' /\ at_work w' g l bag p s' SANDBOX_RUNNING_USER /\ kept w w'
    /\ sandboxes w' = <[p := s']> (sandboxes w) /\ last_state_change s' = now /\ sb_http s' = sb_http s.
Proof.
  intros A Hn. eapply at_work_moves; [done| |done|intros w'; apply return_kept].
  eapply return_ok; [apply A|apply A|done|apply A].
Qed.

(** ** The last state change *)

Lemma exit_error_ended w g l bag p s now :
  at_work w g l bag p s SANDBOX_RUNNING_SYS -> last_state_change s < now <= UINT64_MAX ->
  exists w', sandbox_exit_error false worker_thread_idx w p now = Ret w' /\ ended w w' g bag p 500 now.
Proof.
  intros R Hn. pose proof (at_work_variant _ _ _ _ _ _ _ R) as Hv. destruct (at_work_session _ _ _ _ _ _ _ R) as [session Eh].
  destruct R as [C Hc Hb E Hs _ Ht]. pose proof (co_wf _ _ _ _ _ _ C) as W.
  destruct (exit_error_ok worker_thread_idx w l p s now session W E Hn Hs Eh)
    as (w' & l' & s' & Ew & W' & Es & Est & El & _ & Ed & Ev & _ & Ec & _ & Er). cbn [exec] in Ew.
  exists w'. split; [done|]. pose proof (exit_error_steady _ _ _ _ _ Ew) as [K Kb].
  pose proof (exit_error_released _ _ _ _ Ew) as Rl. pose proof Rl as ((s0 & E0 & Hm) & _).
  rewrite Es, lookup_insert_eq in E0. injection E0 as <-.
  exists l', s, s', session. rewrite Est, El, Ev, Ec, (kp_cleanup _ _ K) by done. split; [|do 9 (split; [done|]); apply K].
  apply (core_finished w w' g l l' bag _ p s s'); try done; [by rewrite Hs|by rewrite Est|by rewrite Ev, Hv|].
  apply (released_heap w w' l p); try done; [apply C|]. by eapply same_deadlines_insert.
Qed.

Lemma exit_success_ended w g l bag p s t_returned t_exit t0 t1 :
  at_work w g l bag p s SANDBOX_RUNNING_SYS -> last_state_change s < t_returned < t_exit -> t_exit <= UINT64_MAX ->
  exists w1 s1 w', sandbox_set_as_returned worker_thread_idx w p SANDBOX_RUNNING_SYS t_returned = Ret w1
    /\ current w1 = Some p /\ sandboxes w1 !! p = Some s1 /\ sb_state s1 = SANDBOX_RETURNED
    /\ sandbox_exit_success false w1 p t_exit t0 t1 = Ret w' /\ ended w w' g bag p 200 t_exit.
Proof.
  intros R Hn Hx. pose proof (at_work_variant _ _ _ _ _ _ _ R) as Hv. destruct (at_work_session _ _ _ _ _ _ _ R) as [session Eh].
  destruct R as [C Hc Hb E Hs _ Ht]. pose proof (co_wf _ _ _ _ _ _ C) as W.
  destruct (returned_ok worker_thread_idx w l p s t_returned session W E ltac:(lia) Hs Eh)
    as (w1 & l1 & s1 & Ew1 & W1 & Es1 & Est1 & El1 & _ & Ed1 & Ev1 & _ & Ec1 & _ & Er1).
  revert Ew1. unfold exec, in_state. rewrite (sb_get_ok _ _ _ E). ostep. rewrite bool_decide_true by done. ostep. intros Ew1.
  assert (E1 : sandboxes w1 !! p = Some s1) by (rewrite Es1; apply lookup_insert_eq).
  destruct (exit_success_ok worker_thread_idx w1 l1 p s1 t_exit W1 E1 ltac:(lia) Est1)
    as (w' & l' & s' & Ew & W' & Es & Est & El & _ & Ed & Ev & _ & Ec & _ & Er). cbn [exec] in Ew.
  exists w1, s1, w'. split; [done|]. split; [by rewrite Ec1|]. do 3 (split; [done|]).
  pose proof (returned_steady _ _ _ _ _ _ Ew1) as [K1 Kb1]. pose proof (exit_success_kept _ _ _ _ _ _ Ew) as K2.
  assert (K : conserved w w') by (etrans; [done|by apply kept_conserved]).
  destruct (exit_success_released _ _ _ _ _ _ _ Ew E1) as (Erq & s0 & E0 & Hm0). rewrite Es, lookup_insert_eq in E0. injection E0 as <-.
  pose proof (returned_released _ _ _ _ Ew1) as ((s0 & E0 & Hm1) & Hdel). rewrite E1 in E0. injection E0 as <-.
  assert (Es' : sandboxes w' = <[p := s']> (sandboxes w)) by (by rewrite Es, Es1, insert_insert_eq).
  exists l', s, s', session. rewrite Est, El, Ev, Ev1, Ec, Ec1, (kp_cleanup _ _ K) by done. split; [|].
  2: { do 2 (split; [destruct K2 as [[_ Kb2] _]; congruence|]). do 5 (split; [done|]). split; [done|]. split; [rewrite Er, Er1; by rewrite app_nil_r|apply K]. }
  apply (core_finished w w' g l l' bag _ p s s'); try done; try congruence; [by rewrite Hs|by rewrite Est|].
  apply (released_heap w w' l p); try done; [apply C|..].
  - split; [exists s'; split; [rewrite Es'; apply lookup_insert_eq|congruence]|by rewrite Erq].
  - eapply same_deadlines_insert; eauto. congruence.
Qed.

(** ** Giving the processor away *)

(** A scheduling decision after an answer. *)
Definition answered w w' (g' : heap) (session status t : Z) : Prop :=
  (exists l' bag', core w' g' l' bag' (cleanup_queue w')) /\ seat w' /\ later t w w'
  /\ responses w' = responses w ++ [(session, status)] /\ sessions w' ≡ₚ sessions w.

Lemma ended_ok w w1 g bag p s session status env now t0 t1 t2 t_switch t_usr1 :
  ended w w1 g bag p status now -> sandboxes w !! p = Some s -> sb_http s = Some session -> base_variant w = VARIANT_FAST ->
  clock_before w now -> env_good env -> now < se_dispatch env < t_switch -> t_switch < t_usr1 <= UINT64_MAX ->
  exists r g', scheduler_cooperative_sched false worker_thread_idx w1 g true env t_switch = Ret (r, g') /\ current r.1 <> Some p
    /\ exists w', delivered worker_thread_idx env t0 t1 t2 t_usr1 (r, g') w' g' /\ answered w w' g' session status t_usr1.
Proof.
  intros (l1 & s0 & s1 & session0 & C1 & Hc1 & Hb1 & E0 & Es1 & Hov & Hv1 & Hl1 & Eh & Er1 & Ps1) E Eh0 Hb Hk Henv Hn Hu.
  assert (s0 = s) as -> by congruence. assert (session0 = session) as -> by congruence.
  assert (Lt : later now w w1) by (apply (later_insert now w w1 p s s1); [done..|by destruct (sb_state s1)]).
  destruct (exit_sched_ok worker_thread_idx w1 g l1 bag p s1 env (now + 1) t0 t1 t2 t_switch t_usr1)
    as (r & g' & Ew & Hcur & w' & Hdel & Cr & Hse & Lt' & Er' & Ps'); try done; try lia; try congruence.
  { rewrite Es1. apply lookup_insert_eq. }
  { eapply later_clock; eauto; lia. }
  exists r, g'. split; [done|]. split; [done|]. exists w'. split; [done|]. split; [done|]. split; [done|]. split; [|split; [congruence|by rewrite Ps']].
  eapply later_trans; eauto; lia.
Qed.

(** A trap ends the sandbox, its code's return does, and nothing else changes. *)
Lemma trap_ok w g l bag p s session env t_trap t_exit t0 t1 t2 t3 t4 t_switch t_usr1 :
  at_work w g l bag p s SANDBOX_RUNNING_USER -> sb_http s = Some session -> clock_before w t_trap -> env_good env ->
  t_trap < t_exit < se_dispatch env -> se_dispatch env < t_switch < t_usr1 -> t_usr1 <= UINT64_MAX ->
  exists r g', current_sandbox_wasm_trap_handler false worker_thread_idx w g env t_trap t_exit t3 t4 t_switch = Ret (r, g')
    /\ exists w', delivered worker_thread_idx env t0 t1 t2 t_usr1 (r, g') w' g' /\ answered w w' g' session 500 t_usr1.
Proof.
  intros A Eh Hk Henv Ht Hts Hu. pose proof A as [C Hc Hb E _ _ _]. pose proof (Hk p s E).
  destruct (runtime_entered w g l bag p s t_trap A ltac:(lia)) as (w1 & s1 & E1 & A1 & K1 & Es1 & El1 & Eh1).
  destruct (exit_error_ended w1 g l bag p s1 t_exit A1 ltac:(lia)) as (w2 & E2 & End).
  assert (Lt1 : later t_trap w w1) by (eapply later_insert; eauto; [lia|by rewrite (aw_state _ _ _ _ _ _ _ A1), (aw_state _ _ _ _ _ _ _ A)]).
  destruct (ended_ok w1 w2 g bag p s1 session 500 env t_exit t0 t1 t2 t_switch t_usr1 End)
    as (r & g' & Ew & Hcur & w' & Hdel & Cr & Hse & Lt' & Er' & Ps'); try done; try lia; try congruence.
  { apply A1. }
  { apply A1. }
  { eapply later_clock; eauto; lia. }
  exists r, g'. split.
  - unfold current_sandbox_wasm_trap_handler, current_sandbox_exit, current_sandbox_get. rewrite Hc, E1. ostep.
    rewrite (aw_current _ _ _ _ _ _ _ A1), (sb_get_ok _ _ _ (aw_sandbox _ _ _ _ _ _ _ A1)). ostep.
    rewrite (aw_state _ _ _ _ _ _ _ A1), E2. ostep. rewrite Ew. destruct r as [w3 usr]. ostep.
    rewrite bool_decide_false by done. ostep. done.
  - exists w'. split; [done|]. split; [done|]. split; [done|]. split; [eapply later_trans; eauto; lia|].
    pose proof (kp_sessions _ _ (kept_conserved _ _ K1)) as Ps1. destruct K1 as [_ <-]. split; [done|by rewrite Ps'].
Qed.

Lemma fini_ok w g l bag p s session env t_enter t_completion t_returned t_exit t0 t1 t2 t3 t4 t_switch t_usr1 :
  at_work w g l bag p s SANDBOX_RUNNING_USER -> sb_http s = Some session -> clock_before w t_enter -> env_good env ->
  t_enter < t_returned < t_exit -> t_exit < se_dispatch env -> se_dispatch env < t_switch < t_usr1 -> t_usr1 <= UINT64_MAX ->
  exists r g', current_sandbox_fini false worker_thread_idx w g env t_enter t_completion t_returned t_exit t3 t4 t_switch = Ret (r, g')
    /\ exists w', delivered worker_thread_idx env t0 t1 t2 t_usr1 (r, g') w' g' /\ answered w w' g' session 200 t_usr1.
Proof.
  intros A Eh Hk Henv Ht Hx Hts Hu. pose proof A as [C Hc Hb E _ _ _]. pose proof (Hk p s E).
  destruct (runtime_entered w g l bag p s t_enter A ltac:(lia)) as (w1 & s1 & E1 & A1 & K1 & Es1 & El1 & Eh1).
  set (s2 := set_total_time (set_completion s1 t_completion) (u64 (t_completion - allocation s1))).
  destruct (at_work_touch w1 g l bag p s1 s2 SANDBOX_RUNNING_SYS A1 ltac:(by repeat split) (at_work_equipped _ _ _ _ _ _ _ A1)) as [A2 K2].
  set (w2 := sb_put w1 p s2) in *.
  assert (Lt2 : later t_enter w w2).
  { eapply (later_insert _ w w2 p s s2); eauto; [cbn; by rewrite Es1, insert_insert_eq|cbn; lia|].
    by rewrite (aw_state _ _ _ _ _ _ _ A2), (aw_state _ _ _ _ _ _ _ A). }
  destruct (exit_success_ended w2 g l bag p s2 t_returned t_exit t3 t4 A2 ltac:(cbn; lia) ltac:(lia))
    as (w3 & s3 & w4 & E3 & Hc3 & Es3 & Hs3 & E4 & End).
  destruct (ended_ok w2 w4 g bag p s2 session 200 env t_exit t0 t1 t2 t_switch t_usr1 End)
    as (r & g' & Ew & Hcur & w' & Hdel & Cr & Hse & Lt' & Er' & Ps'); try done; try lia.
  { apply A2. }
  { cbn. congruence. }
  { apply A2. }
  { eapply later_clock; eauto; lia. }
  exists r, g'. split.
  - unfold current_sandbox_fini, current_sandbox_exit, current_sandbox_get. rewrite Hc, E1. ostep.
    rewrite (sb_get_ok _ _ _ (aw_sandbox _ _ _ _ _ _ _ A1)). ostep. rewrite bool_decide_true by apply A1. ostep.
    fold s2. fold w2. rewrite E3. ostep. rewrite Hc3, (sb_get_ok _ _ _ Es3). ostep. rewrite Hs3, E4. ostep. rewrite Ew.
    destruct r as [w5 usr]. ostep. rewrite bool_decide_false by done. ostep. done.
  - exists w'. split; [done|]. split; [done|]. split; [done|]. split; [eapply later_trans; eauto; lia|].
    split; [rewrite Er'; f_equal; cbn; apply K1|]. rewrite Ps', (kp_sessions _ _ (kept_conserved _ _ K2)). apply K1.
Qed.
End exits.
