(* ===== verification/MtdsPolicy.v ===== *)
(** * MtdsPolicy: the multi-tenant policy on a worker

    [scheduler_mtds_get_next] and the updates on interrupts of
    [runtime/include/scheduler.h]: the multi-tenant runqueue of [Mtds] as a variant
    of [Runqueue], and the policy over it and the global scheduler of [MtdsGlobal]
    as a variant of [Policy].

    The queues read the deadlines and the budgets where the sandboxes and tenants
    of the [world] keep them.  The tenant of a sandbox, the replenishment period of
    a tenant and the start of the clock never change; the queues read them through
    [statics], which [reads] relates to the world. *)

From Stdlib Require Import ZArith Lia.
From S2P Require Import Prelude Lock PriorityQueue Runqueue Mtds MtdsGlobal Sandbox Scheduler.
Local Open Scope Z_scope.

(** What the queues read, with the deadlines [dl]. *)
Definition with_deadlines (statics : mtds_env) (dl : Z -> Z) : mtds_env :=
  mk_mtds_env dl (env_tenant statics) (env_period statics) (env_boot statics).

Section policy.
Context {L : Type} `{SpinLock L}.
Variable statics : mtds_env.
Abbreviation mtds := (mtds_runqueue L).
Abbreviation scheduler := (mtds_scheduler L).
Abbreviation World := (world L mtds).
Implicit Types w : World.

(** [timeout_clock]: the clock when the first sandbox of a paid tenant is added. *)
Definition mtds_variant (timeout_clock : Z) : Runqueue mtds := {|
  rq_add_fn := fun dl => local_runqueue_mtds_add (with_deadlines statics dl) timeout_clock;
  rq_is_empty_fn := local_runqueue_mtds_is_empty;
  rq_delete_fn := fun dl => local_runqueue_mtds_delete (with_deadlines statics dl);
|}.

Definition reads {RQ} (w : world L RQ) : Prop :=
  (forall p s, sandboxes w !! p = Some s -> env_tenant statics p = sb_tenant s)
  /\ (forall t tn, tenants w !! t = Some tn -> env_period statics t = replenishment_period tn).

Definition env_of {RQ} (w : world L RQ) : mtds_env := with_deadlines statics (sandbox_get_priority w).

(** [tenant->remaining_budget] *)
Definition budget_of {RQ} (w : world L RQ) (t : Z) : Z :=
  match tenants w !! t with Some tn => remaining_budget tn | None => 0 end.

Definition with_budgets {RQ} (w : world L RQ) (g : scheduler) : scheduler :=
  mk_mtds_scheduler (gs_queues g) (global_lock g) (remaining_budget <$> tenants w).

(** [local->tenant->pwt_sandboxes[worker_thread_idx].mt_class] *)
Definition local_class_of w (local : option Z) : outcome MULTI_TENANCY_CLASS :=
  match local with
  | None => Ret MT_DEFAULT
  | Some p => s ← sb_get w p; pwt ← pwt_at (runqueue w) (sb_tenant s); Ret (pwt_mt_class pwt)
  end.

Definition mtds_get_next w : outcome (option Z * World) :=
  '(local, q) ← local_runqueue_mtds_get_next (env_of w) (budget_of w) (runqueue w); Ret (local, set_runqueue w q).

(** The early exit on the two peeked deadlines, before the lock is taken. *)
Definition scheduler_mtds_done (g : scheduler) (local_deadline : Z) (local_mt_class : MULTI_TENANCY_CLASS) : bool :=
  let global_guaranteed_deadline := global_request_scheduler_mtds_guaranteed_peek g in
  let global_default_deadline := global_request_scheduler_mtds_default_peek g in
  match local_mt_class with
  | MT_GUARANTEED => local_deadline <=? global_guaranteed_deadline
  | MT_DEFAULT => (global_guaranteed_deadline =? UINT64_MAX) && (local_deadline <=? global_default_deadline)
  end.

Definition scheduler_mtds_get_next (ADMISSIONS_CONTROL : bool) (worker_thread_idx : nat) w (g : scheduler) (env : sched_env)
  : outcome (option Z * World * scheduler) :=
  '(local, w) ← mtds_get_next w;
  local_deadline ← local_deadline_of w local;
  local_mt_class ← local_class_of w local;
  '(w, g) ←
    (if scheduler_mtds_done g local_deadline local_mt_class then Ret (w, g) else
     '(rc, global, g) ← global_request_scheduler_mtds_remove_with_mt_class (env_of w) (se_lock env) (se_unlock env) (with_budgets w g)
                          local_deadline local_mt_class;
     if rc =? 0 then
       match global with
       | None => Stop AssertFail
       | Some p =>
         '(_, w) ← sandbox_prepare_execution_environment (H0 := mtds_variant (se_timeout env)) ADMISSIONS_CONTROL worker_thread_idx
                     w p (se_prepare env) (se_fail env);
         s ← sb_get w p;
         assert (bool_decide (sb_state s = SANDBOX_INITIALIZED)) ;;
         w ← sandbox_set_as_runnable (H0 := mtds_variant (se_timeout env)) w p SANDBOX_INITIALIZED (se_dispatch env);
         Ret (w, g)
       end
     else Ret (w, g));
  '(next, w) ← mtds_get_next w;
  Ret (next, w, g).

(** One turn per tenant is enough for the promotions. *)
Definition mtds_process_promotions w (env : sched_env) : outcome World :=
  q ← local_timeout_queue_process_promotions (env_of w) (S (size (mtds_pwt (runqueue w)))) (se_promotions env) (se_clock env) (runqueue w);
  Ret (set_runqueue w q).

(** [tenant->max_budget] *)
Definition max_budget_of {RQ} (w : world L RQ) (t : Z) : Z :=
  match tenants w !! t with Some tn => max_budget tn | None => 0 end.

(** The budgets written to the tenants. *)
Definition replenish {RQ} (w : world L RQ) (budget : gmap Z Z) : world L RQ :=
  set_tenants w (map_imap (fun t tn => Some (mk_tenant (replenishment_period tn) (max_budget tn) (default (remaining_budget tn) (budget !! t)))) (tenants w)).

Definition mtds_global_promotions w (g : scheduler) (env : sched_env) : outcome (World * scheduler) :=
  g ← global_timeout_queue_process_promotions (env_of w) (max_budget_of w) (se_global env) (se_turns env) (with_budgets w g);
  Ret (replenish w (gs_budget g), g).

Definition mtds_policy : Policy L mtds scheduler := {|
  scheduler_get_next := scheduler_mtds_get_next;
  scheduler_process_policy_specific_updates_on_interrupts := mtds_process_promotions;
  process_global_promotions := mtds_global_promotions;
|}.
End policy.
