(* ===== verification/MtdsPolicySpec.v ===== *)
(** * MtdsPolicySpec: what the multi-tenant policy decides on a worker

    The multi-tenant runqueue keeps the laws of [Runqueue], so what is proved of
    sandboxes for any runqueue holds for it; and one decision of the policy, over
    the worker's queues and the global ones, loses nothing and respects classes,
    budgets and deadlines, up to the timer interrupt. *)

From Stdlib Require Import ZArith Lia FunctionalExtensionality.
From S2P Require Import Prelude Lock PriorityQueue HeapTheory PriorityQueueSpec Runqueue Mtds MtdsSpec MtdsGlobal MtdsGlobalSpec.
From S2P Require Import Bytes WasmMemory Globals Module Sandbox Scheduler SandboxSpec SandboxSteps SchedulerSpec Preemption MtdsPolicy.
Local Open Scope Z_scope.

(** ** The runqueue *)

Section laws.
Context {L : Type} `{SpinLock L}.
Variable statics : mtds_env.
Variable timeout_clock : Z.
Abbreviation mtds := (mtds_runqueue L).
Abbreviation env := (with_deadlines statics).
Abbreviation owner := (env_tenant statics).

(** The queues of the tenants hold the sandboxes [l]. *)
Definition mtds_holds (dl : Z -> Z) (q : mtds) (l : list Z) (B : Z -> list Z) : Prop :=
  mtds_wf (env dl) q B /\ forall p, p ∈ l <-> p ∈ B (owner p).

(** A sandbox of a known tenant whose queue has room, with a clock in range. *)
Definition mtds_accepts (q : mtds) (l : list Z) (p : Z) : Prop :=
  is_Some (mtds_pwt q !! owner p) /\ clock_ok statics timeout_clock (owner p)
  /\ (length (filter (fun a => owner a = owner p) l) < RUNTIME_TENANT_QUEUE_SIZE)%nat.

Lemma holds_bag dl q l B t : NoDup l -> mtds_holds dl q l B -> B t ≡ₚ filter (fun a => owner a = t) l.
Proof.
  intros Hnd [W Hl]. apply NoDup_Permutation; [apply (mq_nodup _ _ _ W) | by apply list.NoDup_filter|]. intros p.
  rewrite list_elem_of_filter, Hl. split.
  - intros Hp. pose proof (mq_owner _ _ _ W t p Hp) as E. cbn in E. by rewrite E.
  - by intros [<- Hp].
Qed.

Lemma prio_ext dl dl' q B t :
  mtds_wf (env dl) q B -> (forall p, p ∈ B t -> dl p = dl' p) ->
  perworker_tenant_get_priority (env dl) (mtds_pwt q) t = perworker_tenant_get_priority (env dl') (mtds_pwt q) t.
Proof.
  intros W Hd. unfold perworker_tenant_get_priority. destruct (mtds_pwt q !! t) as [w|] eqn:E; [|done].
  destruct (mq_pwt _ _ _ W t w E) as (Bg & Hu & _).
  destruct (top_bag _ _ _ Bg) as [(p & -> & Hp & _)|(_ & -> & _)]; [by apply plain_accessible | by apply Hd | done].
Qed.

Lemma mtds_wf_ext dl dl' q B :
  (forall t p, p ∈ B t -> dl p = dl' p) -> mtds_wf (env dl) q B -> mtds_wf (env dl') q B.
Proof.
  intros Hd W. pose proof W as [W1 W2 W3 W4 W5]. split; try done.
  - intros t w E. destruct (W1 t w E) as (Bg & Hrest). split; [|done]. eapply pq_bag_ext; [|exact Bg]. apply (Hd t).
  - eapply layout_ext; [exact W5|done..| |done|done|done]. intros c t _. apply (prio_ext dl dl' q B t W). apply (Hd t).
Qed.

Program Definition mtds_laws : @RunqueueLaws mtds (mtds_variant statics timeout_clock) := {|
  rq_repr := fun dl q l => NoDup l /\ exists B, mtds_holds dl q l B;
  rq_accepts := mtds_accepts;
|}.
Next Obligation.
  intros dl q l l' (Hnd & B & W & Hl) P. split; [by rewrite <- P|]. exists B. split; [done|]. intros p. by rewrite <- P.
Qed.
Next Obligation.
  intros dl dl' q l Hd (Hnd & B & W & Hl). split; [done|]. exists B. split; [|done]. eapply mtds_wf_ext; [|exact W].
  intros t p Hp. apply Hd, Hl. pose proof (mq_owner _ _ _ W t p Hp) as E. cbn in E. by rewrite E.
Qed.
Next Obligation.
  intros dl q l p Hu (Hnd & B & W & Hl) Hn ([w Ew] & Hck & Hroom).
  destruct (add_ok (env dl) Hu timeout_clock q B p w) as (q' & E & W' & _); try done.
  - by rewrite <- (Hl p).
  - cbn. by rewrite (holds_bag dl q l B (owner p) Hnd ltac:(by split)).
  - exists q'. split; [exact E|]. split; [by constructor|]. eexists. split; [exact W'|]. intros a. cbn.
    rewrite elem_of_cons, Hl. unfold upd. case_decide as Ha.
    + rewrite elem_of_cons, Ha. done.
    + split; [intros [->|?]; [done|done] | by right].
Qed.
Next Obligation.
  intros dl q l p Hu (Hnd & B & W & Hl) Hn. assert (Hp : p ∈ B (owner p)) by (apply Hl; constructor).
  destruct (mtds_pwt q !! owner p) as [w|] eqn:Ew; [|rewrite (mq_none _ _ _ W _ Ew) in Hp; by apply not_elem_of_nil in Hp].
  pose proof (delete_ok (env dl) Hu q B p w W Ew) as D. rewrite decide_True in D by done.
  destruct D as (q' & l' & E & P & W' & _). exists q'. split; [exact E|]. cbn in P. pose proof (mq_nodup _ _ _ W (owner p)) as HB.
  rewrite P in HB. inversion HB as [|? ? Hn' _]; subst. inversion Hnd as [|? ? _ Hnd']; subst. split; [done|]. eexists. split; [exact W'|].
  intros a. cbn. unfold upd. specialize (Hl a). rewrite elem_of_cons in Hl. case_decide as Ha.
  - rewrite Ha, P, elem_of_cons in Hl. split.
    + intros Hal. destruct (proj1 Hl (or_intror Hal)) as [->|?]; done.
    + intros Hal. destruct (proj2 Hl (or_intror Hal)) as [->|?]; done.
  - rewrite <- Hl. split; [by right|]. intros [->|?]; done.
Qed.
Next Obligation.
  intros dl q l (Hnd & B & W & Hl). destruct (is_empty_ok (env dl) q B W) as (b & E & Hb). change (local_runqueue_mtds_is_empty q = Ret (bool_decide (l = []))).
  rewrite E. f_equal. apply eq_bool_prop_intro. rewrite bool_decide_spec. etrans; [apply Is_true_true|]. rewrite Hb. split.
  - intros HB. destruct l as [|p l]; [done|]. assert (Hp : p ∈ B (owner p)) by (apply Hl; constructor). rewrite HB in Hp. by apply not_elem_of_nil in Hp.
  - intros -> t. destruct (B t) as [|p b'] eqn:EB; [done|]. assert (Hp : p ∈ B t) by (rewrite EB; constructor).
    pose proof (mq_owner _ _ _ W t p Hp) as Ep. cbn in Ep. rewrite <- Ep in Hp. apply Hl in Hp. by apply not_elem_of_nil in Hp.
Qed.
End laws.

(** ** The policy *)

Section policy.
Context {L : Type} `{SpinLock L}.
Variable statics : mtds_env.
Variable worker_thread_idx : nat.
Abbreviation mtds := (mtds_runqueue L).
Abbreviation World := (world L mtds).
Abbreviation owner := (env_tenant statics).
Abbreviation env_of := (env_of statics).
Implicit Types w : World.
Implicit Types g : mtds_scheduler L.

(** A world in order, with the multi-tenant runqueue. *)
Definition mwf (clock : Z) w (l : list Z) : Prop :=
  wf (H0 := mtds_variant statics clock) (H1 := mtds_laws statics clock) worker_thread_idx w l.

Lemma mwf_clock c c' w l : mwf c w l -> mwf c' w l.
Proof. intros [W1 W2 W3 W4 W5]. by split. Qed.

Lemma mwf_queue c w l : mwf c w l -> exists B, mtds_holds statics (sandbox_get_priority w) (runqueue w) l B.
Proof. intros W. apply (wf_queue _ _ _ W). Qed.

Lemma mwf_requeue c w l q B : mwf c w l -> mtds_holds statics (sandbox_get_priority w) q l B -> mwf c (set_runqueue w q) l.
Proof.
  intros W Hq. pose proof W as [_ W2 W3 W4 W5]. split; [split; [done|]; by exists B | done | done | | done].
  intros p s Es. apply (sb_ok_frame w); [by apply frame_same | by apply W4].
Qed.

(** One look at the worker's queue: [r] is its choice, and [w'] the world after the demotions. *)
Definition chosen w (l : list Z) w' (r : option Z) : Prop :=
  exists q B, w' = set_runqueue w q /\ mtds_holds statics (sandbox_get_priority w) q l B
    /\ reclassified MT_GUARANTEED MT_DEFAULT (exhausted (budget_of w)) (runqueue w) q /\ next_choice (env_of w) (budget_of w) q B r.

Lemma mtds_next_ok c w l : mwf c w l -> exists r w', mtds_get_next statics w = Ret (r, w') /\ chosen w l w' r /\ mwf c w' l.
Proof.
  intros W. destruct (mwf_queue c w l W) as (B & Wq & Hl).
  destruct (get_next_ok (env_of w) (wf_deadlines _ _ _ W) (budget_of w) (runqueue w) B Wq) as (r & q & E & Wq' & Hre & Hn).
  unfold mtds_get_next. rewrite E. ostep. exists r, (set_runqueue w q). split; [done|].
  assert (Hq : mtds_holds statics (sandbox_get_priority w) q l B) by (by split). split; [by exists q, B|]. by eapply mwf_requeue.
Qed.

(** What the worker compares the waiting requests with: the deadline and the class of its choice. *)
Definition local_view w (l : list Z) (r : option Z) (d : Z) (c : MULTI_TENANCY_CLASS) : Prop :=
  match r with
  | None => l = [] /\ d = UINT64_MAX /\ c = MT_DEFAULT
  | Some p => p ∈ l /\ d = sandbox_get_priority w p /\ class_of (runqueue w) (owner p) = Some c
  end.

Lemma chosen_in w l w' r : chosen w l w' r -> match r with Some p => p ∈ l | None => l = [] end.
Proof.
  intros (q & B & _ & [W Hl] & _ & Hn). destruct r as [p|]; cbn in Hn; [by apply Hl, Hn|].
  destruct l as [|p l]; [done|]. assert (Hp : p ∈ B (owner p)) by (apply Hl; constructor). rewrite Hn in Hp. by apply not_elem_of_nil in Hp.
Qed.

Lemma local_view_ok c0 w l w' r :
  mwf c0 w l -> reads statics w -> chosen w l w' r ->
  exists d c, local_deadline_of w' r = Ret d /\ local_class_of w' r = Ret c /\ local_view w' l r d c.
Proof.
  intros W [Hown _] Hch. pose proof (chosen_in _ _ _ _ Hch) as Hin. destruct Hch as (q & B & -> & [Wq Hl] & _ & Hn).
  destruct r as [p|]; [|by exists UINT64_MAX, MT_DEFAULT].
  destruct (proj1 (wf_queued _ _ _ W p) Hin) as (s & Es & _). destruct Hn as (Hp & _ & Hcl). cbn in Hp, Hcl.
  cbn [local_deadline_of local_class_of]. rewrite !(sb_get_ok (set_runqueue w q) p s Es). ostep. rewrite <- (Hown p s Es).
  assert (exists c, class_of q (owner p) = Some c) as [c Ec] by (destruct Hcl as [[? _]|[? _]]; eauto).
  pose proof Ec as Ec'. unfold class_of in Ec'. apply fmap_Some in Ec' as (pw & Epw & ->). unfold pwt_at. cbn [set_runqueue runqueue]. rewrite Epw. ostep.
  eexists _, _. split; [done|]. split; [done|]. split; [done|]. split; [|done]. unfold sandbox_get_priority. cbn. by rewrite Es.
Qed.

(** The two looks and the pull between them change nothing the queues read. *)
Lemma same_requests_env w w' : same_requests w w' -> env_of w' = env_of w.
Proof. intros (E & _). unfold MtdsPolicy.env_of. by rewrite (functional_extensionality _ _ E). Qed.

Lemma same_requests_reads w w' : same_requests w w' -> reads statics w -> reads statics w'.
Proof.
  intros (_ & Et & Hs) [R1 R2]. split; [|by rewrite Et]. intros p s Es. specialize (Hs p). rewrite Es in Hs. cbn in Hs.
  symmetry in Hs. apply fmap_Some in Hs as (s0 & Es0 & ->). by apply R1.
Qed.

Abbreviation budgets w := (remaining_budget <$> tenants w).

(** A decision: the worker looks at its queue; it pulls a request it may have, or
    has a reason to pull none; and it looks again. *)
Definition decided (env : sched_env) w l g (Bg : Z -> list Z) w' l' g' (Bg' : Z -> list Z) (next : option Z) : Prop :=
  exists w1 local d c, chosen w l w1 local /\ local_view w1 l local d c
    /\ ((l' = l /\ Bg' = Bg /\ refused (env_of w) (gs_queues g) Bg (budgets w) d c (gs_queues g') /\ chosen w1 l w' next)
        \/ exists p t rest w2 s, served (env_of w) (gs_queues g) Bg (budgets w) d c t p /\ Bg t ≡ₚ p :: rest /\ Bg' = upd Bg t rest
             /\ l' ≡ₚ p :: l /\ advanced w1 w2 (se_dispatch env) /\ sandboxes w2 !! p = Some s /\ sb_state s = SANDBOX_RUNNABLE
             /\ chosen w2 l' w' next).

(** The requests that wait can be prepared and fit the worker's queues. *)
Definition pullable (env : sched_env) w (l : list Z) (Bg : Z -> list Z) : Prop :=
  forall t p, p ∈ Bg t -> waiting w env p /\ mtds_accepts statics (se_timeout env) (runqueue w) l p.

Lemma chosen_same w l w' r : chosen w l w' r -> same_requests w w' /\ sandboxes w' = sandboxes w /\ modules w' = modules w /\ current w' = current w.
Proof. by intros (q & B & -> & _). Qed.

Lemma chosen_accepts clock w l w' r p : chosen w l w' r -> mtds_accepts statics clock (runqueue w) l p -> mtds_accepts statics clock (runqueue w') l p.
Proof.
  intros (q & B & -> & _ & Hre & _) ([x Hx] & Hrest). split; [|done]. cbn. specialize (Hre (owner p)). unfold class_of in Hre. rewrite Hx in Hre.
  destruct (mtds_pwt q !! owner p) as [y|]; [eauto|]. by destruct Hre as [?|(_ & ? & _)].
Qed.

Lemma pulled_runnable c w l w' l' t p s0 :
  mwf c w' l' -> l' ≡ₚ p :: l -> advanced w w' t -> sandboxes w !! p = Some s0 -> sb_state s0 = SANDBOX_INITIALIZED ->
  exists s, sandboxes w' !! p = Some s /\ sb_state s = SANDBOX_RUNNABLE.
Proof.
  intros W Hl Adv E0 H0'. assert (Hp : p ∈ l') by (rewrite Hl; constructor). apply (wf_queued _ _ _ W) in Hp as (s & Es & Hq).
  exists s. split; [done|]. destruct (adv_new _ _ _ Adv p s Es) as [E|[Hs _]]; [|done]. rewrite E0 in E. injection E as <-. by rewrite H0' in Hq.
Qed.

Lemma mwf_deadlines c w l :
  mwf c w l -> (forall p s, sandboxes w !! p = Some s -> absolute_deadline s < UINT64_MAX) -> forall p, 0 <= env_deadline (env_of w) p < UINT64_MAX.
Proof.
  intros W Hdl p. split; [apply (wf_deadlines _ _ _ W p)|]. cbn. unfold sandbox_get_priority.
  destruct (sandboxes w !! p) as [s|] eqn:Es; [by eapply Hdl|]. unfold UINT64_MAX. lia.
Qed.

Lemma gwf_budgets e R w g g' B B' :
  gwf e R (with_budgets w g) B -> gwf e R g' B' -> same_tenants g g' -> gwf e R (with_budgets w g') B'.
Proof.
  intros [_ _ Hb _] [W1 W2 _ W4] Hs. split; try done. intros t Ht. cbn in *. apply Hb.
  specialize (Hs t). unfold class_of in Hs. rewrite !fmap_is_Some in Hs. by apply Hs.
Qed.

(** The early exit, too, leaves only requests that do not come first. *)
Lemma done_refused menv R g Bg d c :
  (forall p, 0 <= env_deadline menv p < UINT64_MAX) -> qwf menv R (gs_queues g) Bg -> scheduler_mtds_done g d c = true ->
  match c with
  | MT_GUARANTEED => none_before menv (gs_queues g) Bg MT_GUARANTEED d
  | MT_DEFAULT => (forall a, ~ in_class (gs_queues g) Bg MT_GUARANTEED a) /\ none_before menv (gs_queues g) Bg MT_DEFAULT d
  end.
Proof. intros Hd W E. by eapply not_earlier_refused. Qed.

Lemma mtds_decides c R w l g Bg env :
  mwf c w l -> reads statics w -> gwf (env_of w) R (with_budgets w g) Bg ->
  (forall p s, sandboxes w !! p = Some s -> absolute_deadline s < UINT64_MAX) -> pullable env w l Bg -> env_good env ->
  exists next w' g' l' Bg', scheduler_mtds_get_next statics false worker_thread_idx w g env = Ret (next, w', g')
    /\ mwf c w' l' /\ reads statics w' /\ gwf (env_of w') R (with_budgets w' g') Bg' /\ decided env w l g Bg w' l' g' Bg' next
    /\ advanced w w' (se_dispatch env).
Proof.
  intros W Hrd Hg Hdl Hpull Henv. unfold scheduler_mtds_get_next.
  destruct (mtds_next_ok c w l W) as (local & w1 & -> & Hch & W1). ostep.
  destruct (local_view_ok c w l w1 local W Hrd Hch) as (d & cl & Ed & Ec & Hv). rewrite Ed. ostep. rewrite Ec. ostep.
  destruct (chosen_same w l w1 local Hch) as (Hsame & Es1 & Em1 & Ecur). pose proof (same_requests_env w w1 Hsame) as Ee.
  assert (Eb : with_budgets w1 g = with_budgets w g) by (unfold with_budgets; by rewrite (proj1 (proj2 Hsame))).
  assert (Hstay : forall g1, gwf (env_of w) R (with_budgets w g1) Bg -> refused (env_of w) (gs_queues g) Bg (budgets w) d cl (gs_queues g1) ->
    exists next w' g' l' Bg', ('(next, w') ← mtds_get_next statics w1; Ret (next, w', g1)) = Ret (next, w', g')
    /\ mwf c w' l' /\ reads statics w' /\ gwf (env_of w') R (with_budgets w' g') Bg' /\ decided env w l g Bg w' l' g' Bg' next
    /\ advanced w w' (se_dispatch env)).
  { intros g1 Hg1 Href. destruct (mtds_next_ok c w1 l W1) as (next & w' & -> & Hch' & W'). ostep. exists next, w', g1, l, Bg.
    destruct (chosen_same w1 l w' next Hch') as (Hsame' & Es' & _ & Ecur').
    split; [done|]. split; [done|]. split; [by apply (same_requests_reads w1), (same_requests_reads w)|]. split; [|split].
    - rewrite (same_requests_env w1 w' Hsame'), Ee. replace (with_budgets w' g1) with (with_budgets w g1); [done|].
      unfold with_budgets. by rewrite (proj1 (proj2 Hsame')), (proj1 (proj2 Hsame)).
    - exists w1, local, d, cl. split; [done|]. split; [done|]. left. done.
    - split; rewrite ?Es', ?Es1, ?Ecur', ?Ecur; auto. }
  pose proof (mwf_deadlines c w l W Hdl) as Hdu.
  destruct (scheduler_mtds_done g d cl) eqn:Ene; ostep.
  { apply Hstay; [done|]. left. split; [done|]. by eapply (done_refused (env_of w)); [|apply (gw_queues _ _ _ _ Hg)|]. }
  rewrite Ee, Eb. pose proof Henv as ((T0 & T1) & T2 & _).
  destruct (remove_ok (env_of w) (fun _ => 0) Hdu R (with_budgets w g) Bg (se_lock env) (se_unlock env) d cl Hg ltac:(by split))
    as [(p & t & rest & g1 & -> & Hsv & Pm & Hg1 & Hst)|(g1 & -> & Hg1 & Href & Hst)]; ostep; cbn [Z.eqb].
  2: { change (- ENOENT =? 0) with false. ostep. apply Hstay; [|done]. by eapply (gwf_budgets _ _ w g). }
  assert (Hp : p ∈ Bg t) by apply Hsv. destruct (Hpull t p Hp) as [Hw Hacc].
  pose proof Hw as (s0 & m0 & E0 & Hs0 & Hm0).
  assert (Hw1 : waiting w1 env p) by (exists s0, m0; rewrite Es1, Em1; done).
  destruct (pull_runnable (H0 := mtds_variant statics (se_timeout env)) (H1 := mtds_laws statics (se_timeout env)) worker_thread_idx false w1 l env p
    (mwf_clock _ _ _ _ W1) Hw1 Henv (chosen_accepts _ _ _ _ _ _ Hch Hacc)) as (w2 & l2 & s1 & _ & Epull & W2 & Pl & _ & Hsame2 & Adv & _).
  revert Epull. destruct (sandbox_prepare_execution_environment _ _ _ _ _ _) as [[? wp]|]; [|done]. ostep.
  destruct (sb_get wp p); [|done]. ostep. destruct (assert _); [|done]. ostep. intros ->. ostep.
  apply (mwf_clock _ c) in W2.
  destruct (mtds_next_ok c w2 l2 W2) as (next & w' & -> & Hch' & W'). ostep.
  destruct (chosen_same w2 l2 w' next Hch') as (Hsame' & Es' & _ & Ecur').
  exists next, w', g1, l2, (upd Bg t rest). split; [done|]. split; [done|].
  split; [by apply (same_requests_reads w2), (same_requests_reads w1), (same_requests_reads w)|]. split; [|split].
  - rewrite (same_requests_env w2 w' Hsame'), (same_requests_env w1 w2 Hsame2), Ee.
    replace (with_budgets w' g1) with (with_budgets w g1); [by eapply (gwf_budgets _ _ w g)|].
    unfold with_budgets. by rewrite (proj1 (proj2 Hsame')), (proj1 (proj2 Hsame2)), (proj1 (proj2 Hsame)).
  - exists w1, local, d, cl. split; [done|]. split; [done|]. right.
    destruct (pulled_runnable c w1 l w2 l2 _ p s0 W2 Pl Adv) as (s & Es & Hs); [by rewrite Es1 | done|].
    by exists p, t, rest, w2, s.
  - destruct Adv as [A1 A2 A3]. split; rewrite ?Es', ?Ecur', ?A3, ?Ecur; [| |done]; by rewrite <- ?Es1.
Qed.

(** ** The timer interrupt *)

Lemma reads_put w p s s' : sandboxes w !! p = Some s -> sb_tenant s' = sb_tenant s -> reads statics w -> reads statics (sb_put w p s').
Proof.
  intros E Ht [R1 R2]. split; [|done]. intros q sq. cbn. destruct (decide (q = p)) as [->|Hne].
  - rewrite lookup_insert_eq. intros [= <-]. rewrite Ht. by apply R1.
  - rewrite lookup_insert_ne by done. apply R1.
Qed.

(** The budget of the tenant is charged; no period changes, and no tenant goes. *)
Lemma updates_reads w p w' : sandbox_process_scheduler_updates w p = Ret w' -> reads statics w ->
  reads statics w' /\ forall a, is_Some (tenants w !! a) -> is_Some (tenants w' !! a).
Proof.
  unfold sandbox_process_scheduler_updates, tenant_at. intros Hu [R1 R2]. inv_outcome. destruct (tenant_is_paid _); injection Hu as <-; [|by split].
  split; [split; [done|]|]; cbn; intros k; destruct (decide (k = sb_tenant a)) as [->|Hne].
  - rewrite lookup_insert_eq. intros tn Etn. injection Etn as <-. cbn. by apply R2.
  - intros tn. rewrite lookup_insert_ne by done. apply R2.
  - rewrite lookup_insert_eq. eauto.
  - by rewrite lookup_insert_ne.
Qed.

(** The interrupt only writes the sandbox and the budget of its tenant. *)
Lemma interrupt_reads w p t w' : sandbox_interrupt w p t = Ret w' -> reads statics w ->
  reads statics w' /\ forall a, is_Some (tenants w !! a) -> is_Some (tenants w' !! a).
Proof.
  unfold sandbox_interrupt, sandbox_set_as_interrupted, write_state, bookkeeping. intros Hi Hr. inv_outcome.
  rewrite sb_get_put in E2. injection E2 as <-. apply sb_get_inv in E0. unfold account in E3. inv_outcome.
  apply (updates_reads _ _ _ Hi). eapply reads_put; [apply lookup_insert_eq | |by eapply reads_put]. done.
Qed.

(** The promotions before a decision; [wp] is the world after them. *)
Definition promotions_done (env : sched_env) w wp : Prop :=
  exists q, wp = set_runqueue w q /\ promoted (se_promotions env) (runqueue w) q /\ head_pending (se_promotions env) q.

Definition promotions_clock (env : sched_env) : Prop :=
  forall k a, se_promotions env <= se_clock env k /\ clock_ok statics (se_clock env k) a.

Lemma promotions_step c w l env :
  mwf c w l -> promotions_clock env ->
  exists wp, mtds_process_promotions statics w env = Ret wp /\ mwf c wp l /\ promotions_done env w wp.
Proof.
  intros W Hck. destruct (mwf_queue c w l W) as (B & Wq & Hl). unfold mtds_process_promotions.
  destruct (promotions_ok (env_of w) (wf_deadlines _ _ _ W) (se_promotions env) (se_clock env) B (S (size (mtds_pwt (runqueue w)))) (runqueue w))
    as (q & -> & Wq' & Hp & Hh); [done | done | |].
  { unfold expired. apply Nat.lt_succ_r, map_subseteq_size, map_filter_subseteq. }
  ostep. eexists. split; [done|]. split; [eapply mwf_requeue; [done|]; by split|]. by exists q.
Qed.

Lemma promotions_accepts env clock w l wp p : promotions_done env w wp -> mtds_accepts statics clock (runqueue w) l p -> mtds_accepts statics clock (runqueue wp) l p.
Proof.
  intros (q & -> & Hp & _) ([x Hx] & Hrest). split; [|done]. cbn. destruct (Hp (owner p)) as [->|(? & w' & _ & -> & _)]; eauto.
Qed.

Lemma mwf_frame c w w' l :
  mwf c w l -> frame w w' -> sandboxes w' = sandboxes w -> runqueue w' = runqueue w -> modules w' = modules w -> mwf c w' l.
Proof.
  intros [W1 W2 W3 W4 W5] F Es Eq Em. split; rewrite ?Es; try done.
  - rewrite Eq. unfold sandbox_get_priority. by rewrite Es.
  - intros p s E. apply (sb_ok_frame w); [done | by apply W4].
  - unfold modules_wf. by rewrite Em.
Qed.

Lemma replenish_lookup w budget t :
  tenants (replenish w budget) !! t
  = (fun tn => mk_tenant (replenishment_period tn) (max_budget tn) (default (remaining_budget tn) (budget !! t))) <$> tenants w !! t.
Proof. unfold replenish. cbn. rewrite map_lookup_imap. by destruct (tenants w !! t). Qed.

Lemma replenish_reads w budget : reads statics w -> reads statics (replenish w budget).
Proof. intros [R1 R2]. split; [done|]. intros t tn. rewrite replenish_lookup, fmap_Some. intros (tn0 & E & ->). exact (R2 t tn0 E). Qed.

Lemma replenish_mwf c w l budget : mwf c w l -> mwf c (replenish w budget) l.
Proof.
  intros W. apply (mwf_frame c w); try done. split; eauto.
  intros k Hk. rewrite replenish_lookup. by apply fmap_is_Some.
Qed.

(** What a signal of the kernel does to the global queues and the budgets. *)
Definition kernel_done (env : sched_env) w g w' g' : Prop :=
  if se_kernel env then w' = replenish w (gs_budget g') /\ replenished (max_budget_of w) (with_budgets w g) g' else w' = w /\ g' = g.

(** Enough turns for the clock's readings. *)
Definition kernel_clock (env : sched_env) (R : gset Z) g : Prop :=
  se_kernel env = true -> exists T, readings_ok statics (se_global env) T (se_turns env) /\ (turns_left R T g <= length (se_turns env))%nat.

Lemma readings_ext dl now T turns : readings_ok statics now T turns -> readings_ok (with_deadlines statics dl) now T turns.
Proof. revert now. induction turns as [|k turns IH]; intros now; cbn; [done|]. intros (H1 & H2 & H3 & H4). auto. Qed.

Lemma kernel_step c R w l g Bg env :
  mwf c w l -> reads statics w -> gwf (env_of w) R (with_budgets w g) Bg ->
  (forall p s, sandboxes w !! p = Some s -> absolute_deadline s < UINT64_MAX) -> kernel_clock env R g ->
  exists wk gk, kernel_promotions (H1 := mtds_policy statics) w g env = Ret (wk, gk) /\ kernel_done env w g wk gk
    /\ mwf c wk l /\ reads statics wk /\ gwf (env_of wk) R (with_budgets wk gk) Bg
    /\ sandboxes wk = sandboxes w /\ runqueue wk = runqueue w /\ modules wk = modules w /\ current wk = current w.
Proof.
  intros W Hrd Hg Hdl Hck. unfold kernel_promotions, kernel_done, kernel_clock in *. destruct (se_kernel env); [|by exists w, g].
  destruct (Hck eq_refl) as (T & Hr & Hlen). cbn [process_global_promotions mtds_policy]. unfold mtds_global_promotions.
  destruct (process_promotions_ok (env_of w) (max_budget_of w) (mwf_deadlines c w l W Hdl) R Bg T (se_global env) (se_turns env) (with_budgets w g) Hg
    (readings_ext _ _ _ _ Hr) Hlen) as (n & gk & -> & Gk & Hrep & _). ostep.
  eexists _, gk. split; [done|]. split; [done|]. split; [by apply replenish_mwf|]. split; [by apply replenish_reads|]. split; [|done].
  destruct Gk as [K1 K2 K3 K4]. split; try done. intros t Ht. change (is_Some ((remaining_budget <$> tenants (replenish w (gs_budget gk))) !! t)).
  rewrite lookup_fmap, replenish_lookup, !fmap_is_Some.
  pose proof (replenished_same_tenants (max_budget_of w) (with_budgets w g) gk Hrep) as Hsame. cbn in Hsame.
  pose proof (gw_budget _ _ _ _ Hg t) as Hb. cbn in Hb. rewrite lookup_fmap, fmap_is_Some in Hb. apply Hb.
  specialize (Hsame t). unfold class_of in Hsame. rewrite !fmap_is_Some in Hsame. by apply Hsame.
Qed.

(** A worker with a sandbox on its queue always has a next one. *)
Lemma decided_next env w l g Bg w' l' g' Bg' next p :
  decided env w l g Bg w' l' g' Bg' next -> p ∈ l -> exists n, next = Some n /\ n ∈ l'.
Proof.
  intros (w1 & local & d & c & _ & _ & [(-> & _ & _ & Hch)|(x & t & rest & w2 & s & _ & _ & _ & Hl & _ & _ & _ & Hch)]) Hp;
    pose proof (chosen_in _ _ _ _ Hch) as Hn.
  - destruct next as [n|]; [eauto|]. rewrite Hn in Hp. by apply not_elem_of_nil in Hp.
  - destruct next as [n|]; [eauto|]. rewrite Hn in Hl. symmetry in Hl. by apply Permutation_nil_r in Hl.
Qed.

End policy.

(** ** A worker with two sandboxes of a tenant, and a request waiting *)

Definition tick_deadline (p : Z) : Z := if p =? 100 then 1000 else if p =? 101 then 1000 else if p =? 200 then 500 else 0.
Definition tick_statics : mtds_env := mk_mtds_env tick_deadline (fun _ => 5) (fun _ => 0) 0.
Definition tick_tenants : gmap Z (perworker_tenant_sandbox_queue bool) := {[ 5 := pwt_init 0 ]}.

Definition tick_q0 : mtds_runqueue bool := local_runqueue_mtds_initialize tick_tenants.
Definition tick_q1 := value tick_q0 (local_runqueue_mtds_add tick_statics 1 tick_q0 101).
Definition tick_q := value tick_q0 (local_runqueue_mtds_add tick_statics 1 tick_q1 100).

Definition tick_g0 : mtds_scheduler bool := global_request_scheduler_mtds_initialize tick_tenants {[ 5 := 0 ]}.
Definition tick_g := (value (0, tick_g0) (global_request_scheduler_mtds_add tick_statics true 6 7 tick_g0 200)).2.

Definition tick_world : world bool (mtds_runqueue bool) := busy tick_q waiting_request.

Definition tick_env : sched_env :=
  mk_sched_env 20 21 (mk_prepare_env true true true true true (Some 4096) true) 22 23 0 23 22 (fun _ => 23) true 22 [].

Lemma tick_deadlines p : 0 <= tick_deadline p < UINT64_MAX.
Proof. unfold tick_deadline, UINT64_MAX. repeat case_match; lia. Qed.

Lemma tick_deadlines_le p : 0 <= tick_deadline p <= UINT64_MAX.
Proof. pose proof (tick_deadlines p). lia. Qed.

Lemma tick_init t w : tick_tenants !! t = Some w -> w = pwt_init 0 /\ t = 5.
Proof. unfold tick_tenants. by intros [<- <-]%lookup_singleton_Some. Qed.

Lemma tick_clock now t : clock_ok tick_statics now t.
Proof. intros Hp. done. Qed.

Lemma tick_room n : (n < 5)%nat -> (n < RUNTIME_TENANT_QUEUE_SIZE)%nat.
Proof. intros Hn. apply (Nat.lt_le_trans _ 5); [done|]. apply Nat.leb_le. by vm_compute. Qed.

Definition tick_B : Z -> list Z := upd (upd (fun _ => []) 5 [101]) 5 [100; 101].

Lemma tick_q_wf : mtds_wf tick_statics tick_q tick_B.
Proof.
  assert (W0 : mtds_wf tick_statics tick_q0 (fun _ => [])).
  { apply (initialize_wf tick_statics tick_tenants); [apply Nat.leb_le; by vm_compute | by intros t w [-> _]%tick_init]. }
  destruct (add_ok tick_statics tick_deadlines_le 1 tick_q0 _ 101 (pwt_init 0) W0) as (q1 & E1 & W1 & C1);
    [done | apply not_elem_of_nil | apply tick_clock | apply tick_room; vm_compute; lia|].
  assert (Eq1 : tick_q1 = q1) by (unfold tick_q1; by rewrite E1). rewrite <- Eq1 in *.
  specialize (C1 5). change (env_tenant tick_statics 101) with 5 in *.
  destruct (mtds_pwt tick_q1 !! 5) as [v|] eqn:Ev; [|unfold class_of in C1; by rewrite Ev in C1].
  destruct (add_ok tick_statics tick_deadlines_le 1 tick_q1 _ 100 v W1) as (q & E & W & _);
    [done | by intros ?%list_elem_of_singleton | apply tick_clock | apply tick_room; vm_compute; lia|].
  assert (Eq : tick_q = q) by (unfold tick_q; by rewrite E). rewrite Eq. exact W.
Qed.

Lemma tick_priority : sandbox_get_priority tick_world = tick_deadline.
Proof.
  apply functional_extensionality. intros p. unfold sandbox_get_priority. destruct (sandboxes tick_world !! p) as [s|] eqn:E.
  - apply busy_lookup in E as [[-> ->]|[[-> ->]|E]]; [done..|]. by apply waiting_lookup in E as [-> ->].
  - unfold tick_deadline. change (sandboxes tick_world) with (sandboxes (busy tt waiting_request)) in E.
    destruct (Z.eqb_spec p 100) as [->|?]; [by vm_compute in E|]. destruct (Z.eqb_spec p 101) as [->|?]; [by vm_compute in E|].
    destruct (Z.eqb_spec p 200) as [->|?]; [by vm_compute in E | done].
Qed.

Lemma tick_env_of : env_of tick_statics tick_world = tick_statics.
Proof. unfold env_of, with_deadlines. by rewrite tick_priority. Qed.

Lemma tick_g_wf : gwf tick_statics ∅ (with_budgets tick_world tick_g) (upd (fun _ => []) 5 [200]).
Proof.
  assert (W0 : gwf tick_statics ∅ tick_g0 (fun _ => [])).
  { apply (global_initialize_ok tick_statics tick_tenants {[ 5 := 0 ]}); [apply Nat.leb_le; by vm_compute|].
    intros t w [-> ->]%tick_init. split; [by exists 0|]. by eexists. }
  destruct (global_add_ok tick_statics tick_deadlines ∅ tick_g0 _ 6 7 200 W0) as (g & E & W & _ & Hc);
    [by vm_compute | by eexists | apply not_elem_of_nil | apply tick_room; vm_compute; lia | by intros [? _]|].
  assert (Eg : tick_g = g) by (unfold tick_g; by rewrite E). rewrite Eg. change (env_tenant tick_statics 200) with 5 in W.
  destruct W as [W1 W2 W3 W4]. split; try done. intros t [v Ev]. specialize (Hc t). unfold class_of in Hc. cbn in Ev. rewrite Ev in Hc. cbn in Hc.
  symmetry in Hc. apply fmap_Some in Hc as (v0 & [_ ->]%tick_init & _). by eexists.
Qed.

