(* ===== verification/Http.v ===== *)
(** * Http: requests, sessions and the listener's view of them

    [runtime/include/http.h], [http_request.h], [http_session.h],
    [tcp_session.h], [auto_buf.h], [http_router.h] and
    [runtime/src/http_parser_settings.c].

    The tokenizer [http_parser_execute] is third-party code: it is a parameter
    that turns bytes into a list of callbacks.  What the socket calls return is
    an argument (a list of results, one per call).  Bytes are [Z]; a C string
    is the list of its bytes without the terminator.

    Pointers into the request buffer are offsets, with the number of times the
    buffer had been moved when they were taken: the stream behind the buffer
    reallocates it, and a pointer taken before a move dangles. *)

From Stdlib Require Import ZArith Lia.
From stdpp Require Import strings.
From S2P Require Import Prelude.
Local Open Scope Z_scope.

Definition HTTP_MAX_HEADER_COUNT : nat := 32.
Definition HTTP_MAX_HEADER_LENGTH : Z := 64.
Definition HTTP_MAX_HEADER_VALUE_LENGTH : Z := 256.
Definition HTTP_MAX_FULL_URL_LENGTH : Z := 256.
Definition HTTP_MAX_QUERY_PARAM_COUNT : nat := 16.
Definition HTTP_MAX_QUERY_PARAM_LENGTH : Z := 32.

(** ** Status lines *)

Definition bytes_of_string (s : String.string) : list Z :=
  (fun a => Z.of_nat (Ascii.nat_of_ascii a)) <$> String.list_ascii_of_string s.

Definition crlf : list Z := [13; 10].

(** The three lines every response starts with. *)
Definition status_lines (status : String.string) : list Z :=
  bytes_of_string "HTTP/1.1 "%string ++ bytes_of_string status ++ crlf
  ++ bytes_of_string "Server: SLEdge"%string ++ crlf ++ bytes_of_string "Connection: close"%string ++ crlf.

Definition http_header_build (status_code : Z) : outcome (list Z) :=
  if status_code =? 200 then Ret (status_lines "200 OK"%string)
  else if status_code =? 400 then Ret (status_lines "400 Bad Request"%string)
  else if status_code =? 404 then Ret (status_lines "404 Not Found"%string)
  else if status_code =? 413 then Ret (status_lines "413 Payload Too Large"%string)
  else if status_code =? 429 then Ret (status_lines "429 Too Many Requests"%string)
  else if status_code =? 500 then Ret (status_lines "500 Internal Server Error"%string)
  else if status_code =? 503 then Ret (status_lines "503 Service Unavailable"%string)
  else Stop Panic.

Definition http_header_len (status_code : Z) : outcome Z :=
  if status_code =? 400 then Ret 61
  else if status_code =? 404 then Ret 59
  else if status_code =? 413 then Ret 67
  else if status_code =? 429 then Ret 67
  else if status_code =? 500 then Ret 71
  else if status_code =? 503 then Ret 69
  else Stop Panic.

(** ** Memory streams ([auto_buf.h] over [open_memstream]) *)

(** [ab_pending] was written and not flushed; [data] and [size] describe the
    flushed bytes; [ab_moves] counts reallocations. *)
Record auto_buf := mk_auto_buf {
  ab_handle : bool;
  ab_data : list Z;
  ab_pending : list Z;
  ab_moves : nat;
}.

Definition zero_auto_buf : auto_buf := mk_auto_buf false [] [] 0.

Definition ENOMEM : Z := 12.

(** Returns the positive [errno] on failure. *)
Definition auto_buf_init (buf : auto_buf) (ok : bool) : Z * auto_buf :=
  if ok then (0, mk_auto_buf true [] [] 0) else (ENOMEM, buf).

Definition auto_buf_flush (buf : auto_buf) (moved : bool) : auto_buf :=
  mk_auto_buf (ab_handle buf) (ab_data buf ++ ab_pending buf) [] (ab_moves buf + if moved then 1 else 0).

Definition auto_buf_deinit (buf : auto_buf) : auto_buf := mk_auto_buf false [] [] (ab_moves buf).

Definition ab_size (buf : auto_buf) : Z := Z.of_nat (length (ab_data buf)).

(** [fwrite]/[fputs] on the handle *)
Definition stream_write (buf : auto_buf) (l : list Z) : auto_buf :=
  mk_auto_buf (ab_handle buf) (ab_data buf) (ab_pending buf ++ l) (ab_moves buf).

(** ** Requests *)

Definition pointer : Type := nat * Z.   (* moves of the buffer, offset *)

Record http_header := mk_header {
  hdr_key : option pointer; hdr_key_length : Z; hdr_value : option pointer; hdr_value_length : Z }.

Record http_query_param := mk_param { qp_value : list Z; qp_length : Z }.

Record http_request := mk_request {
  full_url : list Z;
  headers : list http_header;
  header_count : Z;
  method : Z;
  query_params : list http_query_param;
  query_params_count : Z;
  body : option Z;   (* offset in the request buffer; None: NULL *)
  body_length : Z;
  body_length_read : Z;
  length_parsed : Z;
  last_was_value : bool;
  header_end : bool;
  message_begin : bool;
  message_end : bool;
  cursor : Z;
}.

Definition zero_header : http_header := mk_header None 0 None 0.
Definition zero_request : http_request :=
  mk_request [] (replicate HTTP_MAX_HEADER_COUNT zero_header) 0 0
    (replicate HTTP_MAX_QUERY_PARAM_COUNT (mk_param [] 0)) 0 None 0 0 0 false false false false 0.

(** ** Scanning the request buffer *)

(** The buffer is followed by a terminator that is part of the allocation. *)
Definition byte_at (data : list Z) (i : Z) : outcome Z :=
  if i <? 0 then Stop Undefined else
  match data !! Z.to_nat i with
  | Some b => Ret b
  | None => if i =? Z.of_nat (length data) then Ret 0 else Stop Undefined
  end.

(** [memcpy] of [n] bytes from [data[i]] *)
Definition copy_from (data : list Z) (i n : Z) : outcome (list Z) :=
  if (0 <=? i) && (0 <=? n) && (i + n <=? Z.of_nat (length data) + 1)
  then Ret (take (Z.to_nat n) (drop (Z.to_nat i) (data ++ [0]))) else Stop Undefined.

(** [memchr(&data[i], c, n)] *)
Fixpoint memchr (data : list Z) (i : Z) (c : Z) (n : nat) : outcome (option Z) :=
  match n with
  | O => Ret None
  | S n => b ← byte_at data i; if b =? c then Ret (Some i) else memchr data (i + 1) c n
  end.

(** [strchr(&data[i], c)]: it stops at a zero byte, not at the end of the URL. *)
Fixpoint strchr_from (fuel : nat) (data : list Z) (i : Z) (c : Z) : outcome (option Z) :=
  match fuel with
  | O => Stop Fuel
  | S fuel =>
    b ← byte_at data i;
    if b =? c then Ret (Some i) else if b =? 0 then Ret None else strchr_from fuel data (i + 1) c
  end.

Definition strchr (data : list Z) (i : Z) (c : Z) : outcome (option Z) :=
  strchr_from (S (S (length data))) data i c.

(** ** The parser's callbacks ([http_parser_settings.c]) *)

Definition set_url (r : http_request) (url : list Z) : http_request :=
  mk_request url (headers r) (header_count r) (method r) (query_params r) (query_params_count r) (body r)
    (body_length r) (body_length_read r) (length_parsed r) (last_was_value r) (header_end r) (message_begin r)
    (message_end r) (cursor r).

Definition set_params (r : http_request) (ps : list http_query_param) (n : Z) : http_request :=
  mk_request (full_url r) (headers r) (header_count r) (method r) ps n (body r)
    (body_length r) (body_length_read r) (length_parsed r) (last_was_value r) (header_end r) (message_begin r)
    (message_end r) (cursor r).

Definition set_headers (r : http_request) (hs : list http_header) (n : Z) (last : bool) : http_request :=
  mk_request (full_url r) hs n (method r) (query_params r) (query_params_count r) (body r)
    (body_length r) (body_length_read r) (length_parsed r) last (header_end r) (message_begin r)
    (message_end r) (cursor r).

Definition set_body (r : http_request) (b : option Z) (len_read cur : Z) : http_request :=
  mk_request (full_url r) (headers r) (header_count r) (method r) (query_params r) (query_params_count r) b
    (body_length r) len_read (length_parsed r) (last_was_value r) (header_end r) (message_begin r)
    (message_end r) cur.

(** An unsigned 64-bit length below the limit, or the limit. *)
Definition capped (len limit : Z) : Z := if u64 len <? limit then u64 len else limit.

(** Stores one query parameter; [len] is a [size_t]. *)
Definition add_param (data : list Z) (r : http_request) (prev len : Z) : outcome http_request :=
  let n := capped len (HTTP_MAX_QUERY_PARAM_LENGTH - 1) in
  value ← copy_from data prev n;
  if decide (0 <= query_params_count r < Z.of_nat (length (query_params r)))
  then Ret (set_params r (<[Z.to_nat (query_params_count r) := mk_param value n]> (query_params r))
              (query_params_count r + 1))
  else Stop Undefined.

(** The loop over [&]; returns where the last parameter starts. *)
Fixpoint split_params (fuel : nat) (data : list Z) (r : http_request) (prev : Z) : outcome (http_request * Z) :=
  match fuel with
  | O => Stop Fuel
  | S fuel =>
    amp ← strchr data prev 38;
    match amp with
    | Some amp =>
      if query_params_count r <? Z.of_nat HTTP_MAX_QUERY_PARAM_COUNT then
        let cur := amp + 1 in
        r ← add_param data r prev (cur - prev - 1);
        split_params fuel data r cur
      else Ret (r, prev)
    | None => Ret (r, prev)
    end
  end.

Definition http_parser_settings_on_url (data : list Z) (r : http_request) (at_ length_ : Z) : outcome (Z * http_request) :=
  assert (negb (message_end r)) ;;
  assert (negb (header_end r)) ;;
  query ← memchr data at_ 63 (Z.to_nat length_);
  let full_url_length := match query with None => length_ | Some q => q - at_ end in
  let size_to_copy := capped full_url_length (HTTP_MAX_FULL_URL_LENGTH - 1) in
  url ← copy_from data at_ size_to_copy;
  let r := set_url r url in
  match query with
  | None => Ret (0, r)
  | Some q =>
    '(r, prev) ← split_params (S HTTP_MAX_QUERY_PARAM_COUNT) data r (q + 1);
    if query_params_count r <? Z.of_nat HTTP_MAX_QUERY_PARAM_COUNT then
      r ← add_param data r prev (at_ + length_ - prev);
      Ret (0, r)
    else Ret (0, r)
  end.

Definition http_parser_settings_on_message_begin (r : http_request) : outcome (Z * http_request) :=
  assert (negb (message_end r)) ;;
  assert (negb (header_end r)) ;;
  Ret (0, mk_request (full_url r) (headers r) (header_count r) (method r) (query_params r) (query_params_count r)
            (body r) (body_length r) (body_length_read r) (length_parsed r) true (header_end r) true (message_end r)
            (cursor r)).

Definition header_at (r : http_request) (i : Z) : outcome http_header :=
  if i <? 0 then Stop Undefined else deref (headers r !! Z.to_nat i).

(** The continuation of a key looks at the entry after the current one. *)
Definition http_parser_settings_on_header_field (moves : nat) (r : http_request) (at_ length_ : Z)
  : outcome (Z * http_request) :=
  assert (negb (message_end r)) ;;
  assert (negb (header_end r)) ;;
  if negb (last_was_value r) then
    assert (0 <? header_count r) ;;
    h ← header_at r (header_count r);
    if HTTP_MAX_HEADER_LENGTH <? u64 (hdr_key_length h + length_) then Ret (-1, r) else
    let h := mk_header (hdr_key h) (swrap 32 (hdr_key_length h + length_)) (hdr_value h) (hdr_value_length h) in
    Ret (0, set_headers r (<[Z.to_nat (header_count r) := h]> (headers r)) (header_count r) (last_was_value r))
  else
    if Z.of_nat HTTP_MAX_HEADER_COUNT <=? header_count r then Ret (-1, r) else
    if HTTP_MAX_HEADER_LENGTH <? length_ then Ret (-1, r) else
    let n := header_count r + 1 in
    h ← header_at r (n - 1);
    let h := mk_header (Some (moves, at_)) length_ (hdr_value h) (hdr_value_length h) in
    Ret (0, set_headers r (<[Z.to_nat (n - 1) := h]> (headers r)) n false).

Definition http_parser_settings_on_header_value (moves : nat) (r : http_request) (at_ length_ : Z)
  : outcome (Z * http_request) :=
  assert (negb (message_end r)) ;;
  assert (negb (header_end r)) ;;
  if negb (last_was_value r) then
    if HTTP_MAX_HEADER_VALUE_LENGTH <=? length_ then Ret (-1, r) else
    h ← header_at r (header_count r - 1);
    let h := mk_header (hdr_key h) (hdr_key_length h) (Some (moves, at_)) length_ in
    Ret (0, set_headers r (<[Z.to_nat (header_count r - 1) := h]> (headers r)) (header_count r) true)
  else
    h ← header_at r (header_count r - 1);
    assert (0 <? hdr_value_length h) ;;
    let h := mk_header (hdr_key h) (hdr_key_length h) (hdr_value h) (swrap 32 (hdr_value_length h + length_)) in
    Ret (0, set_headers r (<[Z.to_nat (header_count r - 1) := h]> (headers r)) (header_count r) true).

Definition HTTP_POST : Z := 3.
Definition HTTP_PUT : Z := 4.

Definition http_parser_settings_on_header_end (r : http_request) (parser_method content_length : Z)
  : outcome (Z * http_request) :=
  assert (negb (message_end r)) ;;
  assert (negb (header_end r)) ;;
  let put_or_post := (parser_method =? HTTP_PUT) || (parser_method =? HTTP_POST) in
  let r := mk_request (full_url r) (headers r) (header_count r) parser_method (query_params r) (query_params_count r)
             (body r) (if put_or_post then swrap 32 content_length else 0) (body_length_read r) (length_parsed r)
             (last_was_value r) true (message_begin r) (message_end r) (cursor r) in
  Ret (if put_or_post then 0 else 2, r).

Definition http_parser_settings_on_body (r : http_request) (at_ length_ : Z) : outcome (Z * http_request) :=
  assert (header_end r) ;;
  assert (negb (message_end r)) ;;
  match body r with
  | None => Ret (0, set_body r (Some at_) (swrap 32 length_) 0)
  | Some _ =>
    assert (0 <? body_length r) ;;
    Ret (0, set_body r (body r) (swrap 32 (body_length_read r + length_)) (cursor r))
  end.

Definition http_parser_settings_on_msg_end (r : http_request) : outcome (Z * http_request) :=
  assert (header_end r) ;;
  assert (negb (message_end r)) ;;
  Ret (0, mk_request (full_url r) (headers r) (header_count r) (method r) (query_params r) (query_params_count r)
            (body r) (body_length r) (body_length_read r) (length_parsed r) (last_was_value r) (header_end r)
            (message_begin r) true (cursor r)).

(** The characters [http_request_print] reads through the headers' pointers;
    a pointer into a buffer that has moved dangles. *)
Definition text_at (buf : auto_buf) (p : option pointer) (n : Z) : outcome (list Z) :=
  if n <=? 0 then Ret [] else
  '(moves, off) ← deref p;
  if decide (moves = ab_moves buf) then copy_from (ab_data buf) off n else Stop Undefined.

Fixpoint print_headers (buf : auto_buf) (hs : list http_header) : outcome (list (list Z * list Z)) :=
  match hs with
  | [] => Ret []
  | h :: hs =>
    key ← text_at buf (hdr_key h) (hdr_key_length h);
    value ← text_at buf (hdr_value h) (hdr_value_length h);
    rest ← print_headers buf hs;
    Ret ((key, value) :: rest)
  end.

Definition http_request_print (buf : auto_buf) (r : http_request) : outcome (list (list Z * list Z)) :=
  if decide (0 <= header_count r <= Z.of_nat (length (headers r)))
  then print_headers buf (take (Z.to_nat (header_count r)) (headers r)) else Stop Undefined.
