(* ===== verification/HttpSession.v ===== *)
(** * HttpSession: receiving a request and sending its response

    [runtime/include/http_session.h], [tcp_session.h] and the registration of
    blocked sessions in [runtime/src/listener_thread.c].

    [net] is what the code reaches of the network: the sessions by address, the
    sessions registered with epoll, the bytes handed to each socket and the
    sockets closed.  The results of [read] and [write] come as a list, one per
    call; a socket without further results would block.  The tokenizer is the
    parameter [http_parser_execute]: from the parser's state and the bytes it is
    given, the callbacks it makes (with offsets into these bytes), the number of
    bytes it consumed, whether it found them well-formed, and its next state. *)

From Stdlib Require Import ZArith Lia.
From stdpp Require Import strings pretty.
From S2P Require Import Prelude Http.
Local Open Scope Z_scope.

Inductive http_session_state :=
| HTTP_SESSION_UNINITIALIZED | HTTP_SESSION_INITIALIZED
| HTTP_SESSION_RECEIVING_REQUEST | HTTP_SESSION_RECEIVE_REQUEST_BLOCKED | HTTP_SESSION_RECEIVED_REQUEST
| HTTP_SESSION_EXECUTING | HTTP_SESSION_EXECUTION_COMPLETE
| HTTP_SESSION_SENDING_RESPONSE_HEADER | HTTP_SESSION_SEND_RESPONSE_HEADER_BLOCKED | HTTP_SESSION_SENT_RESPONSE_HEADER
| HTTP_SESSION_SENDING_RESPONSE_BODY | HTTP_SESSION_SEND_RESPONSE_BODY_BLOCKED | HTTP_SESSION_SENT_RESPONSE_BODY.

#[export] Instance http_session_state_eq_dec : EqDecision http_session_state.
Proof. solve_decision. Defined.

Record http_session (P : Type) := mk_session {
  hs_state : http_session_state;
  hs_socket : Z;
  hs_parser : P;
  hs_request : http_request;
  request_buffer : auto_buf;
  response_header : auto_buf;
  response_header_written : Z;
  response_body : auto_buf;
  response_body_written : Z;
  hs_tenant : Z;
  hs_route : option Z;
  request_arrival_timestamp : Z;
  request_downloaded_timestamp : Z;
  response_takeoff_timestamp : Z;
  response_sent_timestamp : Z;
}.
Arguments mk_session {P} _ _ _ _ _ _ _ _ _ _ _ _ _ _ _.
Arguments hs_state {P} _.
Arguments hs_socket {P} _.
Arguments hs_parser {P} _.
Arguments hs_request {P} _.
Arguments request_buffer {P} _.
Arguments response_header {P} _.
Arguments response_header_written {P} _.
Arguments response_body {P} _.
Arguments response_body_written {P} _.
Arguments hs_tenant {P} _.
Arguments hs_route {P} _.
Arguments request_arrival_timestamp {P} _.
Arguments request_downloaded_timestamp {P} _.
Arguments response_takeoff_timestamp {P} _.
Arguments response_sent_timestamp {P} _.

Section setters.
Context {P : Type}.
Implicit Types s : http_session P.

Definition set_hs_state s (x : http_session_state) : http_session P :=
  mk_session x (hs_socket s) (hs_parser s) (hs_request s) (request_buffer s) (response_header s)
    (response_header_written s) (response_body s) (response_body_written s) (hs_tenant s) (hs_route s)
    (request_arrival_timestamp s) (request_downloaded_timestamp s) (response_takeoff_timestamp s)
    (response_sent_timestamp s).
Definition set_hs_parser s (x : P) : http_session P :=
  mk_session (hs_state s) (hs_socket s) x (hs_request s) (request_buffer s) (response_header s)
    (response_header_written s) (response_body s) (response_body_written s) (hs_tenant s) (hs_route s)
    (request_arrival_timestamp s) (request_downloaded_timestamp s) (response_takeoff_timestamp s)
    (response_sent_timestamp s).
Definition set_hs_request s (x : http_request) : http_session P :=
  mk_session (hs_state s) (hs_socket s) (hs_parser s) x (request_buffer s) (response_header s)
    (response_header_written s) (response_body s) (response_body_written s) (hs_tenant s) (hs_route s)
    (request_arrival_timestamp s) (request_downloaded_timestamp s) (response_takeoff_timestamp s)
    (response_sent_timestamp s).
Definition set_request_buffer s (x : auto_buf) : http_session P :=
  mk_session (hs_state s) (hs_socket s) (hs_parser s) (hs_request s) x (response_header s)
    (response_header_written s) (response_body s) (response_body_written s) (hs_tenant s) (hs_route s)
    (request_arrival_timestamp s) (request_downloaded_timestamp s) (response_takeoff_timestamp s)
    (response_sent_timestamp s).
Definition set_response_header s (x : auto_buf) : http_session P :=
  mk_session (hs_state s) (hs_socket s) (hs_parser s) (hs_request s) (request_buffer s) x
    (response_header_written s) (response_body s) (response_body_written s) (hs_tenant s) (hs_route s)
    (request_arrival_timestamp s) (request_downloaded_timestamp s) (response_takeoff_timestamp s)
    (response_sent_timestamp s).
Definition set_response_header_written s (x : Z) : http_session P :=
  mk_session (hs_state s) (hs_socket s) (hs_parser s) (hs_request s) (request_buffer s) (response_header s) x
    (response_body s) (response_body_written s) (hs_tenant s) (hs_route s) (request_arrival_timestamp s)
    (request_downloaded_timestamp s) (response_takeoff_timestamp s) (response_sent_timestamp s).
Definition set_response_body s (x : auto_buf) : http_session P :=
  mk_session (hs_state s) (hs_socket s) (hs_parser s) (hs_request s) (request_buffer s) (response_header s)
    (response_header_written s) x (response_body_written s) (hs_tenant s) (hs_route s)
    (request_arrival_timestamp s) (request_downloaded_timestamp s) (response_takeoff_timestamp s)
    (response_sent_timestamp s).
Definition set_response_body_written s (x : Z) : http_session P :=
  mk_session (hs_state s) (hs_socket s) (hs_parser s) (hs_request s) (request_buffer s) (response_header s)
    (response_header_written s) (response_body s) x (hs_tenant s) (hs_route s) (request_arrival_timestamp s)
    (request_downloaded_timestamp s) (response_takeoff_timestamp s) (response_sent_timestamp s).
Definition set_hs_route s (x : (option Z)) : http_session P :=
  mk_session (hs_state s) (hs_socket s) (hs_parser s) (hs_request s) (request_buffer s) (response_header s)
    (response_header_written s) (response_body s) (response_body_written s) (hs_tenant s) x
    (request_arrival_timestamp s) (request_downloaded_timestamp s) (response_takeoff_timestamp s)
    (response_sent_timestamp s).
Definition set_request_downloaded_timestamp s (x : Z) : http_session P :=
  mk_session (hs_state s) (hs_socket s) (hs_parser s) (hs_request s) (request_buffer s) (response_header s)
    (response_header_written s) (response_body s) (response_body_written s) (hs_tenant s) (hs_route s)
    (request_arrival_timestamp s) x (response_takeoff_timestamp s) (response_sent_timestamp s).
Definition set_response_takeoff_timestamp s (x : Z) : http_session P :=
  mk_session (hs_state s) (hs_socket s) (hs_parser s) (hs_request s) (request_buffer s) (response_header s)
    (response_header_written s) (response_body s) (response_body_written s) (hs_tenant s) (hs_route s)
    (request_arrival_timestamp s) (request_downloaded_timestamp s) x (response_sent_timestamp s).
Definition set_response_sent_timestamp s (x : Z) : http_session P :=
  mk_session (hs_state s) (hs_socket s) (hs_parser s) (hs_request s) (request_buffer s) (response_header s)
    (response_header_written s) (response_body s) (response_body_written s) (hs_tenant s) (hs_route s)
    (request_arrival_timestamp s) (request_downloaded_timestamp s) (response_takeoff_timestamp s) x.
End setters.

Record net (P : Type) := mk_net {
  n_sessions : gmap Z (http_session P);   (* by address *)
  n_epoll : gset Z;                       (* sessions registered with epoll *)
  n_sent : list (Z * list Z);             (* bytes handed to sockets, in order *)
  n_closed : list Z;
}.
Arguments mk_net {P} _ _ _ _.
Arguments n_sessions {P} _.
Arguments n_epoll {P} _.
Arguments n_sent {P} _.
Arguments n_closed {P} _.

(** What [write] and [read] return: a count or bytes, or -1 with [errno], which is
    positive.  [moved]: the request buffer is reallocated when these bytes are
    flushed into it.  [ReceivedShort]: the memory stream takes only the first
    [stored] of them; the code does not look at what [fwrite] and [fflush]
    return.  A read may have any number of bytes here; the code's have at most
    [BUFSIZ], the size of its buffer, so what holds for all reads holds for its. *)
Inductive send_result := Sent (n : nat) | SendErrno (e : positive).
Inductive recv_result :=
| Received (l : list Z) (moved : bool)
| ReceivedShort (l : list Z) (stored : nat) (moved : bool)
| RecvErrno (e : positive).

(** A call of the tokenizer to the callbacks. *)
Inductive parser_event :=
| EvMessageBegin
| EvUrl (at_ len : Z)
| EvHeaderField (at_ len : Z)
| EvHeaderValue (at_ len : Z)
| EvHeadersComplete (method content_length : Z)
| EvBody (at_ len : Z)
| EvMessageComplete.

Section session.
Context {P : Type}.
Variable parser_init : P.
Variable http_parser_execute : P -> list Z -> list parser_event * Z * bool * P.
(** The content type of a route, and the address is NULL nowhere here. *)
Variable response_content_type : Z -> list Z.
Abbreviation session := (http_session P).
Abbreviation Net := (net P).
Implicit Types s : session.
Implicit Types w : Net.

Definition session_at w (a : Z) : outcome session := deref (n_sessions w !! a).
Definition session_put w (a : Z) s : Net := mk_net (<[a := s]> (n_sessions w)) (n_epoll w) (n_sent w) (n_closed w).

(** ** Creation and release *)

Definition http_session_parser_init s : session :=
  set_hs_parser (set_hs_request s zero_request) parser_init.

(** [ok1], [ok2]: whether [open_memstream] succeeds.  Its failure is a positive
    number here, which the test for a negative one misses. *)
Definition http_session_init s (socket_descriptor tenant timestamp : Z) (ok1 ok2 : bool) : outcome (Z * session) :=
  assert (bool_decide (hs_state s = HTTP_SESSION_UNINITIALIZED)) ;;
  assert (0 <=? socket_descriptor) ;;
  let s := mk_session (hs_state s) socket_descriptor (hs_parser s) (hs_request s) (request_buffer s) (response_header s)
             (response_header_written s) (response_body s) (response_body_written s) tenant None timestamp
             (request_downloaded_timestamp s) (response_takeoff_timestamp s) (response_sent_timestamp s) in
  let s := http_session_parser_init s in
  let '(rc, buf) := auto_buf_init (request_buffer s) ok1 in
  let s := set_request_buffer s buf in
  if rc <? 0 then Ret (-1, s) else
  let '(_, buf) := auto_buf_init (response_header s) ok2 in
  let s := set_response_header s buf in
  Ret (0, set_hs_state s HTTP_SESSION_INITIALIZED).

(** An open stream has a buffer. *)
Definition http_session_init_response_body s (ok : bool) : outcome (Z * session) :=
  assert (negb (ab_handle (response_body s))) ;;
  assert (ab_size (response_body s) =? 0) ;;
  assert (response_body_written s =? 0) ;;
  let '(rc, buf) := auto_buf_init (response_body s) ok in
  let s := set_response_body s buf in
  if rc <? 0 then Ret (-1, set_request_buffer s (auto_buf_deinit (request_buffer s))) else Ret (0, s).

Definition zero_session : session :=
  mk_session HTTP_SESSION_UNINITIALIZED 0 parser_init zero_request zero_auto_buf zero_auto_buf 0 zero_auto_buf 0 0 None
    0 0 0 0.

(** [memory]: what [calloc] returns. *)
Definition http_session_alloc w (memory : option Z) (socket_descriptor tenant timestamp : Z) (ok1 ok2 : bool)
  : outcome (option Z * Net) :=
  assert (0 <=? socket_descriptor) ;;
  match memory with
  | None => Ret (None, w)
  | Some a =>
    '(rc, s) ← http_session_init zero_session socket_descriptor tenant timestamp ok1 ok2;
    if negb (rc =? 0) then Ret (None, w) else Ret (Some a, session_put w a s)
  end.

Definition http_session_deinit s : session :=
  let s := set_request_buffer s (auto_buf_deinit (request_buffer s)) in
  let s := set_response_header s (auto_buf_deinit (response_header s)) in
  set_response_body s (auto_buf_deinit (response_body s)).

Definition http_session_free w (a : Z) : outcome Net :=
  s ← session_at w a;
  let w := session_put w a (http_session_deinit s) in
  Ret (mk_net (delete a (n_sessions w)) (n_epoll w) (n_sent w) (n_closed w)).

(** ** TCP *)

(** A failing [close] is only logged. *)
Definition tcp_session_close w (client_socket : Z) : outcome Net :=
  assert (negb (client_socket =? 0)) ;;
  assert (negb (client_socket =? 1)) ;;
  assert (negb (client_socket =? 2)) ;;
  Ret (mk_net (n_sessions w) (n_epoll w) (n_sent w) (n_closed w ++ [client_socket])).

Definition http_session_close w (a : Z) : outcome Net :=
  s ← session_at w a; tcp_session_close w (hs_socket s).

(** [write] takes at most what it is given. *)
Definition tcp_session_send w (client_socket : Z) (buffer : list Z) (on_eagain : Net -> outcome Net) (r : send_result)
  : outcome (Z * Net) :=
  assert (bool_decide (0 < length buffer)%nat) ;;
  match r with
  | SendErrno e =>
    if Z.pos e =? EAGAIN then w ← on_eagain w; Ret (- EAGAIN, w) else Ret (- Z.pos e, w)
  | Sent n =>
    let n := Nat.min n (length buffer) in
    Ret (Z.of_nat n, mk_net (n_sessions w) (n_epoll w) (n_sent w ++ [(client_socket, take n buffer)]) (n_closed w))
  end.

Definition tcp_session_recv w (on_eagain : Net -> outcome Net) (r : recv_result) : outcome (Z * list Z * bool * Net) :=
  match r with
  | RecvErrno e =>
    if Z.pos e =? EAGAIN then w ← on_eagain w; Ret (- EAGAIN, [], false, w) else Ret (- Z.pos e, [], false, w)
  | Received l moved | ReceivedShort l _ moved => Ret (Z.of_nat (length l), l, moved, w)
  end.

(** What [fwrite] and [fflush] put of the bytes into the memory stream. *)
Definition stored_bytes (r : recv_result) (l : list Z) : list Z :=
  match r with ReceivedShort _ stored _ => take stored l | _ => l end.

(** ** Registration with epoll ([listener_thread.c]) *)

(** [epoll_ctl] refuses to add a socket twice, and to remove one it does not have. *)
Definition listener_thread_register_http_session (a : Z) w : outcome Net :=
  s ← session_at w a;
  state ← match hs_state s with
          | HTTP_SESSION_RECEIVING_REQUEST => Ret HTTP_SESSION_RECEIVE_REQUEST_BLOCKED
          | HTTP_SESSION_SENDING_RESPONSE_HEADER => Ret HTTP_SESSION_SEND_RESPONSE_HEADER_BLOCKED
          | HTTP_SESSION_SENDING_RESPONSE_BODY => Ret HTTP_SESSION_SEND_RESPONSE_BODY_BLOCKED
          | _ => Stop Panic
          end;
  let w := session_put w a (set_hs_state s state) in
  if decide (a ∈ n_epoll w) then Stop Panic else
  Ret (mk_net (n_sessions w) ({[a]} ∪ n_epoll w) (n_sent w) (n_closed w)).

Definition listener_thread_unregister_http_session (a : Z) w : outcome Net :=
  session_at w a ;;
  if decide (a ∈ n_epoll w) then Ret (mk_net (n_sessions w) (n_epoll w ∖ {[a]}) (n_sent w) (n_closed w))
  else Stop Panic.

(** ** Building the response header *)

Definition put_line (buf : auto_buf) (l : list Z) : outcome auto_buf :=
  if ab_handle buf then Ret (stream_write buf l) else Stop Undefined.

(** [HTTP_RESPONSE_CONTENT_TYPE] and [HTTP_RESPONSE_CONTENT_LENGTH] *)
Definition content_type_line (t : list Z) : list Z := bytes_of_string "Content-Type: "%string ++ t ++ crlf.
Definition content_length_line (n : Z) : list Z :=
  bytes_of_string "Content-Length: "%string ++ bytes_of_string (pretty (Z.to_N n)) ++ crlf.

(** The counters of totals are compiled out by default.  [moved]: of the two
    flushes. *)
Definition http_session_set_response_header s (status_code now : Z) (moved : bool * bool) : outcome session :=
  assert ((200 <=? status_code) && (status_code <=? 599)) ;;
  line ← http_header_build status_code;
  h ← put_line (response_header s) line;
  '(s, h) ← (if status_code =? 200 then
               let s := set_response_body s (auto_buf_flush (response_body s) (fst moved)) in
               route ← deref (hs_route s);
               h ← put_line h (content_type_line (response_content_type route));
               h ← put_line h (content_length_line (ab_size (response_body s)));
               Ret (s, h)
             else Ret (s, h));
  h ← put_line h crlf;
  Ret (set_response_takeoff_timestamp (set_response_header s (auto_buf_flush h (snd moved))) now).

(** ** Sending *)

Inductive part := Header | Body.

Definition out_data (p : part) s : list Z :=
  match p with Header => ab_data (response_header s) | Body => ab_data (response_body s) end.
Definition out_written (p : part) s : Z :=
  match p with Header => response_header_written s | Body => response_body_written s end.
Definition set_out_written (p : part) s (n : Z) : session :=
  match p with Header => set_response_header_written s n | Body => set_response_body_written s n end.

(** The loop of both sending functions; what remains of the results is returned. *)
Fixpoint send_loop (p : part) (a : Z) (on_eagain : Net -> outcome Net) (results : list send_result) w
  : outcome (Z * Net * list send_result) :=
  s ← session_at w a;
  if out_written p s <? Z.of_nat (length (out_data p s)) then
    let rest := drop (Z.to_nat (out_written p s)) (out_data p s) in
    match results with
    | [] =>
      '(sent, w) ← tcp_session_send w (hs_socket s) rest on_eagain (SendErrno 11);
      Ret (sent, w, [])
    | r :: results =>
      '(sent, w) ← tcp_session_send w (hs_socket s) rest on_eagain r;
      if sent <? 0 then Ret (sent, w, results) else
      s ← session_at w a;
      send_loop p a on_eagain results (session_put w a (set_out_written p s (out_written p s + sent)))
    end
  else Ret (0, w, results).

Definition http_session_send_response_header (a : Z) (on_eagain : Net -> outcome Net) (results : list send_result) w
  : outcome (Z * Net * list send_result) :=
  s ← session_at w a;
  assert (bool_decide (hs_state s = HTTP_SESSION_EXECUTION_COMPLETE)
          || bool_decide (hs_state s = HTTP_SESSION_SEND_RESPONSE_HEADER_BLOCKED)) ;;
  let w := session_put w a (set_hs_state s HTTP_SESSION_SENDING_RESPONSE_HEADER) in
  '(rc, w, results) ← send_loop Header a on_eagain results w;
  if rc <? 0 then Ret (rc, w, results) else
  s ← session_at w a;
  Ret (0, session_put w a (set_hs_state s HTTP_SESSION_SENT_RESPONSE_HEADER), results).

Definition http_session_send_response_body (a : Z) (on_eagain : Net -> outcome Net) (results : list send_result) w
  : outcome (Z * Net * list send_result) :=
  s ← session_at w a;
  assert (bool_decide (hs_state s = HTTP_SESSION_SENT_RESPONSE_HEADER)
          || bool_decide (hs_state s = HTTP_SESSION_SEND_RESPONSE_BODY_BLOCKED)) ;;
  let w := session_put w a (set_hs_state s HTTP_SESSION_SENDING_RESPONSE_BODY) in
  '(rc, w, results) ← send_loop Body a on_eagain results w;
  if rc <? 0 then Ret (rc, w, results) else
  s ← session_at w a;
  Ret (0, session_put w a (set_hs_state s HTTP_SESSION_SENT_RESPONSE_BODY), results).

Definition finish w (a : Z) : outcome Net := w ← http_session_close w a; http_session_free w a.

(** Called by the worker that ran the sandbox. *)
Definition http_session_send_response (a : Z) (on_eagain : Net -> outcome Net) (results : list send_result) (now : Z) w
  : outcome Net :=
  s ← session_at w a;
  assert (bool_decide (hs_state s = HTTP_SESSION_EXECUTION_COMPLETE)) ;;
  '(rc, w, results) ← http_session_send_response_header a on_eagain results w;
  if rc =? - EAGAIN then Ret w else
  if rc <? 0 then finish w a else
  s ← session_at w a;
  assert (bool_decide (hs_state s = HTTP_SESSION_SENT_RESPONSE_HEADER)) ;;
  '(rc, w, results) ← http_session_send_response_body a on_eagain results w;
  if rc =? - EAGAIN then Ret w else
  if rc <? 0 then finish w a else
  s ← session_at w a;
  assert (bool_decide (hs_state s = HTTP_SESSION_SENT_RESPONSE_BODY)) ;;
  finish (session_put w a (set_response_sent_timestamp s now)) a.

(** ** Receiving *)

(** One callback; offsets are relative to [base]. *)
Definition run_callback (data : list Z) (moves : nat) (base : Z) (r : http_request) (e : parser_event)
  : outcome (Z * http_request) :=
  match e with
  | EvMessageBegin => http_parser_settings_on_message_begin r
  | EvUrl at_ len => http_parser_settings_on_url data r (base + at_) len
  | EvHeaderField at_ len => http_parser_settings_on_header_field moves r (base + at_) len
  | EvHeaderValue at_ len => http_parser_settings_on_header_value moves r (base + at_) len
  | EvHeadersComplete method content_length => http_parser_settings_on_header_end r method content_length
  | EvBody at_ len => http_parser_settings_on_body r (base + at_) len
  | EvMessageComplete => http_parser_settings_on_msg_end r
  end.

(** The tokenizer stops at a callback that fails; 1 and 2 from the end of the
    headers only tell it what to expect. *)
Definition callback_ok (e : parser_event) (rc : Z) : bool :=
  match e with EvHeadersComplete _ _ => (0 <=? rc) && (rc <=? 2) | _ => rc =? 0 end.

Fixpoint run_callbacks (data : list Z) (moves : nat) (base : Z) (r : http_request) (es : list parser_event)
  : outcome (bool * http_request) :=
  match es with
  | [] => Ret (true, r)
  | e :: es =>
    '(rc, r) ← run_callback data moves base r e;
    if callback_ok e rc then run_callbacks data moves base r es else Ret (false, r)
  end.

Definition set_length_parsed (r : http_request) (n : Z) : http_request :=
  mk_request (full_url r) (headers r) (header_count r) (method r) (query_params r) (query_params_count r) (body r)
    (body_length r) (body_length_read r) n (last_was_value r) (header_end r) (message_begin r)
    (message_end r) (cursor r).

Definition http_session_parse s (bytes_received : Z) : outcome (Z * session) :=
  assert (0 <? bytes_received) ;;
  let data := ab_data (request_buffer s) in
  let base := length_parsed (hs_request s) in
  if (base <? 0) || (Z.of_nat (length data) <? base) then Stop Undefined else
  let '(events, bytes_parsed, well_formed, parser) := http_parser_execute (hs_parser s) (drop (Z.to_nat base) data) in
  '(ok, r) ← run_callbacks data (ab_moves (request_buffer s)) base (hs_request s) events;
  let s := set_hs_parser (set_hs_request s r) parser in
  if ok && well_formed then
    Ret (bytes_parsed, set_hs_request s (set_length_parsed r (swrap 32 (length_parsed r + bytes_parsed))))
  else Ret (-1, s).

(** After a move the body pointer is set from the bytes received so far, also
    when no body has begun. *)
Definition fix_body (r : http_request) (header_length : Z) (moved : bool) : http_request :=
  if moved then set_body r (if header_length =? 0 then None else Some header_length) (body_length_read r) (cursor r)
  else r.

Definition after_recv s (l : list Z) (moved : bool) : outcome session :=
  let header_length := ab_size (request_buffer s) - body_length_read (hs_request s) in
  assert (negb (header_end (hs_request s)) || (0 <? header_length)) ;;
  let s := set_request_buffer s (auto_buf_flush (stream_write (request_buffer s) l) moved) in
  Ret (set_hs_request s (fix_body (hs_request s) header_length moved)).

(** [http_session_log_malformed_request] prints the request. *)
Definition malformed s : outcome unit := http_request_print (request_buffer s) (hs_request s) ;; Ret tt.

Fixpoint receive_loop (a : Z) (on_eagain : Net -> outcome Net) (results : list recv_result) w : outcome (Z * Net) :=
  s ← session_at w a;
  if message_end (hs_request s) then
    Ret (0, session_put w a (set_hs_state s HTTP_SESSION_RECEIVED_REQUEST))
  else
    match results with
    | [] => '(n, _, _, w) ← tcp_session_recv w on_eagain (RecvErrno 11); Ret (n, w)
    | r :: results =>
      '(n, l, moved, w) ← tcp_session_recv w on_eagain r;
      if n =? - EAGAIN then Ret (- EAGAIN, w) else
      if n <=? 0 then malformed s ;; Ret (-1, w) else
      s ← after_recv s (stored_bytes r l) moved;
      '(rc, s) ← http_session_parse s n;
      let w := session_put w a s in
      if rc =? -1 then malformed s ;; Ret (-1, w) else receive_loop a on_eagain results w
    end.

Definition http_session_receive_request (a : Z) (on_eagain : Net -> outcome Net) (results : list recv_result) w
  : outcome (Z * Net) :=
  s ← session_at w a;
  assert (ab_handle (request_buffer s)) ;;
  assert (bool_decide (hs_state s = HTTP_SESSION_INITIALIZED)
          || bool_decide (hs_state s = HTTP_SESSION_RECEIVE_REQUEST_BLOCKED)) ;;
  receive_loop a on_eagain results (session_put w a (set_hs_state s HTTP_SESSION_RECEIVING_REQUEST)).

Definition http_session_write_response s (source : list Z) : outcome (Z * session) :=
  assert (ab_handle (response_body s)) ;;
  Ret (Z.of_nat (length source), set_response_body s (stream_write (response_body s) source)).
End session.
