(* ===== verification/Listener.v ===== *)
(** * Listener: from accepted connections to queued sandboxes

    [runtime/include/http_router.h] and [runtime/src/listener_thread.c]: the
    router of a tenant, and the listener's event handlers, which compose the
    HTTP sessions, the router, admissions control, the allocation of sandboxes
    and the global request scheduler.

    The listener sees the network ([net]), what it shares with the workers
    ([world]; it runs no sandbox of its own) and the global scheduler.  What the
    kernel and the allocator answer while one event is handled is a
    [request_env].  Logging and the counters of totals, which are compiled out
    by default, are not modelled, nor is the metrics server. *)

From Stdlib Require Import ZArith Lia.
From S2P Require Import Prelude Lock PerfWindow Admissions Globals Module Runqueue Sandbox Http HttpSession.
Local Open Scope Z_scope.

(** ** The router *)

(** A C string reads as zero at its end. *)
Fixpoint strncmp (s1 s2 : list Z) (n : nat) : Z :=
  match n with
  | O => 0
  | S n =>
    let c1 := default 0 (head s1) in
    let c2 := default 0 (head s2) in
    if c1 =? c2 then (if c1 =? 0 then 0 else strncmp (tail s1) (tail s2) n) else c1 - c2
  end.

(** [struct route]; [r_worker] is the part the workers use and update. *)
Record route_t (L : Type) := mk_route_t {
  r_route : list Z;
  r_module : Z;
  r_relative_deadline_us : Z;
  r_response_content_type : list Z;
  r_worker : route L;
}.
Arguments mk_route_t {L} _ _ _ _ _.
Arguments r_route {L} _.
Arguments r_module {L} _.
Arguments r_relative_deadline_us {L} _.
Arguments r_response_content_type {L} _.
Arguments r_worker {L} _.

(** [struct route_config]; [None] is NULL. *)
Record route_config := mk_route_config {
  rc_route : option (list Z);
  rc_path : option (list Z);
  rc_admissions_percentile : Z;
  rc_expected_execution_us : Z;
  rc_relative_deadline_us : Z;
  rc_http_resp_content_type : option (list Z);
}.

Section router.
Context {L : Type} `{SpinLock L}.
Variable ADMISSIONS_CONTROL : bool.
Variable runtime_processor_speed_MHz : Z.
Abbreviation http_router_t := (vec (route_t L)).

(** [zeroed]: a route of zero bytes. *)
Definition http_router_init (zeroed : route_t L) (router : http_router_t) (capacity : nat) (calloc_ok : bool) : http_router_t :=
  snd (vec_init zeroed router capacity calloc_ok).

(** [info]: what the uninitialised part of the new route holds when admissions
    control is compiled out. *)
Definition http_router_add_route (router : http_router_t) (config : route_config) (module : Z)
  (info : admissions_info L) (realloc_ok : bool) : outcome (Z * http_router_t) :=
  match rc_route config, rc_http_resp_content_type config with
  | Some path, Some content_type =>
    let relative_deadline := u64 (rc_relative_deadline_us config * runtime_processor_speed_MHz) in
    let expected_execution := u64 (rc_expected_execution_us config * runtime_processor_speed_MHz) in
    info ← admissions_info_initialize ADMISSIONS_CONTROL info (rc_admissions_percentile config) expected_execution
             relative_deadline;
    let route := mk_route_t path module (rc_relative_deadline_us config) content_type
                   (mk_route relative_deadline info) in
    '(rc, router) ← vec_push router route realloc_ok;
    if rc =? -1 then Ret (-1, router) else Ret (0, router)
  | _, _ => Stop AssertFail
  end.

Fixpoint match_route (router : http_router_t) (url : list Z) (i n : nat) : outcome (option nat) :=
  match n with
  | O => Ret None
  | S n =>
    r ← vec_read router i;
    if strncmp url (r_route r) (length (r_route r)) =? 0 then Ret (Some i)
    else match_route router url (S i) n
  end.

(** The index of the route. *)
Definition http_router_match_route (router : http_router_t) (url : list Z) : outcome (option nat) :=
  match_route router url 0 (vec_len router).

Fixpoint router_foreach {A} (router : http_router_t) (cb : route_t L -> A -> outcome A) (x : A) (i n : nat) : outcome A :=
  match n with
  | O => Ret x
  | S n => r ← vec_read router i; x ← cb r x; router_foreach router cb x (S i) n
  end.

Definition http_router_foreach {A} (router : http_router_t) (cb : route_t L -> A -> outcome A) (x : A) : outcome A :=
  router_foreach router cb x 0 (vec_len router).
End router.

(** ** Events *)

Definition EPOLLIN : Z := 1.
Definition EPOLLOUT : Z := 4.
Definition EPOLLERR : Z := 8.

Definition has_event (events flag : Z) : bool := Z.land events flag =? flag.

(** What is registered: the tag that every registered object starts with. *)
Inductive epoll_target := TenantServerSocket (tenant : Z) | HttpSessionClientSocket (session : Z).

(** What one request meets while it is handled. *)
Record request_env := mk_request_env {
  re_calloc : option Z;            (* of the session *)
  re_memstreams : bool * bool;     (* of the request and of the response header *)
  re_recv : list recv_result;
  re_send : list send_result;
  re_sandbox : option Z;           (* aligned_alloc of the sandbox *)
  re_moved : bool * bool;          (* of the buffers, when they are flushed *)
  re_arrival : Z;                  (* the cycle counter, in the order it is read *)
  re_downloaded : Z;
  re_allocated : Z;
  re_initialized : Z;
  re_locked : Z;
  re_unlocked : Z;
  re_takeoff : Z;
  re_sent : Z;
}.

(** [accept4]: a new connection, or [errno]. *)
Inductive accept_result := Accepted (client_socket : nat) (env : request_env) | AcceptErrno (e : positive).

Record lstate (P L RQ G : Type) := mk_lstate {
  ls_net : net P;
  ls_world : world L RQ;
  ls_global : G;
}.
Arguments mk_lstate {P L RQ G} _ _ _.
Arguments ls_net {P L RQ G} _.
Arguments ls_world {P L RQ G} _.
Arguments ls_global {P L RQ G} _.

Section responses.
Context {P : Type}.
Implicit Types w : net P.

(** The assertion assigns the state it should compare. *)
Definition on_client_response_sent (a now : Z) w : outcome (net P) :=
  s ← session_at w a;
  let s := set_hs_state s HTTP_SESSION_SENT_RESPONSE_BODY in
  finish (session_put w a (set_response_sent_timestamp s now)) a.

Definition on_client_response_body_sending (a : Z) (results : list send_result) (now : Z) w : outcome (net P) :=
  '(rc, w, _) ← http_session_send_response_body a (listener_thread_register_http_session a) results w;
  if rc =? 0 then on_client_response_sent a now w else
  if rc =? - EAGAIN then Ret w else
  if rc <? 0 then finish w a else Ret w.

Definition on_client_response_header_sending (a : Z) (results : list send_result) (now : Z) w : outcome (net P) :=
  '(rc, w, results) ← http_session_send_response_header a (listener_thread_register_http_session a) results w;
  if rc =? 0 then on_client_response_body_sending a results now w else
  if rc =? - EAGAIN then Ret w else
  if rc <? 0 then finish w a else Ret w.
End responses.

Section listener.
Context {P : Type}.
Variable parser_init : P.
Variable http_parser_execute : P -> list Z -> list parser_event * Z * bool * P.
Context {L : Type} `{SpinLock L} {RQ : Type} `{Runqueue RQ} {G : Type} `{GlobalScheduler G}.
Variable ADMISSIONS_CONTROL : bool.
Variable admissions_control_capacity : Z.
Variable worker_thread_idx : nat.   (* of the listener thread: never set *)
Variable routers : gmap Z (vec (route_t L)).   (* of each tenant *)
Variable route_address : Z -> nat -> Z.   (* &tenant->router.buffer[i] *)
Variable response_content_type : Z -> list Z.
Abbreviation LState := (lstate P L RQ G).
Implicit Types st : LState.

Definition set_ls_net st (w : net P) : LState := mk_lstate w (ls_world st) (ls_global st).

(** The session is complete; the answer has only a header. *)
Definition answer (a status_code : Z) (env : request_env) st : outcome LState :=
  s ← session_at (ls_net st) a;
  s ← http_session_set_response_header response_content_type (set_hs_state s HTTP_SESSION_EXECUTION_COMPLETE)
        status_code (re_takeoff env) (re_moved env);
  w ← on_client_response_header_sending a (re_send env) (re_sent env) (session_put (ls_net st) a s);
  Ret (set_ls_net st w).

Definition on_client_request_received (a : Z) (env : request_env) st : outcome LState :=
  s ← session_at (ls_net st) a;
  assert (bool_decide (hs_state s = HTTP_SESSION_RECEIVED_REQUEST)) ;;
  let s := set_request_downloaded_timestamp s (re_downloaded env) in
  let st := set_ls_net st (session_put (ls_net st) a s) in
  router ← deref (routers !! hs_tenant s);
  found ← http_router_match_route router (full_url (hs_request s));
  match found with
  | None => answer a 404 env st
  | Some i =>
    r ← vec_read router i;
    let route := route_address (hs_tenant s) i in
    let s := set_hs_route s (Some route) in
    let st := set_ls_net st (session_put (ls_net st) a s) in
    info ← route_at (ls_world st) route;
    '(work_admitted, admitted) ← admissions_control_decide ADMISSIONS_CONTROL admissions_control_capacity
                                   (admitted (ls_world st)) (estimate (rt_admissions info));
    let st := mk_lstate (ls_net st) (set_admitted (ls_world st) admitted) (ls_global st) in
    if work_admitted =? 0 then answer a 429 env st else
    let st := set_ls_net st (session_put (ls_net st) a (set_hs_state s HTTP_SESSION_EXECUTING)) in
    '(sandbox, w) ← sandbox_alloc (ls_world st) (re_sandbox env) (r_module r) a route (hs_tenant s) work_admitted
                      (re_allocated env) (re_initialized env);
    let st := mk_lstate (ls_net st) w (ls_global st) in
    match sandbox with
    | None => answer a 500 env st
    | Some sandbox =>
      '(added, g) ← global_request_scheduler_add (sandbox_get_priority (ls_world st)) true (re_locked env)
                      (re_unlocked env) (ls_global st) sandbox;
      let st := mk_lstate (ls_net st) (ls_world st) g in
      match added with
      | Some _ => Ret st
      | None =>
        w ← sandbox_free worker_thread_idx (ls_world st) sandbox;
        answer a 429 env (mk_lstate (ls_net st) w (ls_global st))
      end
    end
  end.

Definition on_client_request_receiving (a : Z) (env : request_env) st : outcome LState :=
  '(rc, w) ← http_session_receive_request http_parser_execute a (listener_thread_register_http_session a)
               (re_recv env) (ls_net st);
  let st := set_ls_net st w in
  if rc =? 0 then on_client_request_received a env st else
  if rc =? - EAGAIN then Ret st else
  if rc <? 0 then answer a 400 env st else Stop AssertFail.

(** Without a session the error is reported through NULL. *)
Definition on_client_request_arrival (client_socket tenant : Z) (env : request_env) st : outcome LState :=
  '(session, w) ← http_session_alloc parser_init (ls_net st) (re_calloc env) client_socket tenant (re_arrival env)
                    (fst (re_memstreams env)) (snd (re_memstreams env));
  match session with
  | Some a => on_client_request_receiving a env (set_ls_net st w)
  | None => Stop Undefined
  end.

(** Accepts until no connection waits; a list that ends has none waiting. *)
Fixpoint accept_loop (tenant : Z) (accepts : list accept_result) st : outcome LState :=
  match accepts with
  | [] => Ret st
  | AcceptErrno e :: _ => if Z.pos e =? EAGAIN then Ret st else Stop Panic
  | Accepted client_socket env :: accepts =>
    st ← on_client_request_arrival (Z.of_nat client_socket) tenant env st;
    accept_loop tenant accepts st
  end.

Definition on_tenant_socket_epoll_event (events tenant : Z) (accepts : list accept_result) st : outcome LState :=
  assert (has_event events EPOLLIN) ;;
  accept_loop tenant accepts st.

Definition on_client_socket_epoll_event (events a : Z) (env : request_env) st : outcome LState :=
  w ← listener_thread_unregister_http_session a (ls_net st);
  let st := set_ls_net st w in
  s ← session_at w a;
  match hs_state s with
  | HTTP_SESSION_RECEIVE_REQUEST_BLOCKED =>
    assert (has_event events EPOLLIN) ;; on_client_request_receiving a env st
  | HTTP_SESSION_SEND_RESPONSE_HEADER_BLOCKED =>
    assert (has_event events EPOLLOUT) ;;
    w ← on_client_response_header_sending a (re_send env) (re_sent env) w; Ret (set_ls_net st w)
  | HTTP_SESSION_SEND_RESPONSE_BODY_BLOCKED =>
    assert (has_event events EPOLLOUT) ;;
    w ← on_client_response_body_sending a (re_send env) (re_sent env) w; Ret (set_ls_net st w)
  | _ => Stop Panic
  end.

(** [getsockopt_ok]: whether [getsockopt] accepts the descriptor it is given. *)
Definition panic_on_epoll_error (events : Z) (getsockopt_ok : bool) : outcome unit :=
  if has_event events EPOLLERR && getsockopt_ok then Stop Panic else Ret tt.

(** One entry of what [epoll_wait] returns. *)
Record epoll_entry := mk_epoll_entry {
  ee_events : Z;
  ee_target : epoll_target;
  ee_getsockopt_ok : bool;
  ee_accepts : list accept_result;
  ee_env : request_env;
}.

Definition dispatch (e : epoll_entry) st : outcome LState :=
  panic_on_epoll_error (ee_events e) (ee_getsockopt_ok e) ;;
  match ee_target e with
  | TenantServerSocket tenant => on_tenant_socket_epoll_event (ee_events e) tenant (ee_accepts e) st
  | HttpSessionClientSocket a => on_client_socket_epoll_event (ee_events e) a (ee_env e) st
  end.

(** One round of the loop of [listener_thread_main]. *)
Definition listener_thread_main_iteration (entries : list epoll_entry) st : outcome LState :=
  assert (bool_decide (0 < length entries)%nat) ;;
  foldl (fun m e => st ← m; dispatch e st) (Ret st) entries.
End listener.
