(* ===== verification/HttpSend.v ===== *)
(** * HttpSend: responses arrive whole, once and in order

    The response of a session is its header followed by its body.  Whatever
    the socket accepts, and however often it blocks, the bytes handed to it are
    a prefix of the response; and as long as the socket accepts at least one
    byte each time epoll reports it writable, the whole response is sent, the
    socket is closed once and the session is freed.  The worker starts the
    transmission ([http_session_send_response]), the listener continues it
    ([on_client_socket_epoll_event]). *)

From Stdlib Require Import ZArith Lia.
From stdpp Require Import strings.
From S2P Require Import Prelude Lock PriorityQueue PerfWindow Admissions Globals Module Runqueue Sandbox.
From S2P Require Import SandboxSteps SchedulerSpec Http HttpSession Listener.
Local Open Scope Z_scope.

Section send.
Context {P : Type}.
Implicit Types s : http_session P.
Implicit Types w : net P.

(** ** Parts *)

Definition sending (p : part) : http_session_state :=
  match p with Header => HTTP_SESSION_SENDING_RESPONSE_HEADER | Body => HTTP_SESSION_SENDING_RESPONSE_BODY end.
Definition blocked (p : part) : http_session_state :=
  match p with Header => HTTP_SESSION_SEND_RESPONSE_HEADER_BLOCKED | Body => HTTP_SESSION_SEND_RESPONSE_BODY_BLOCKED end.

Definition out_len (p : part) s : Z := Z.of_nat (length (out_data p s)).

(** No error other than a full socket buffer. *)
Definition fine (r : send_result) : Prop := match r with SendErrno e => e = 11%positive | Sent _ => True end.

(** The socket takes something at once. *)
Definition writable (results : list send_result) : Prop := exists n rest, results = Sent (S n) :: rest.

(** The network after [chunks] went to the socket of [s]. *)
Definition after w (a : Z) s (epoll : gset Z) (chunks : list (list Z)) : net P :=
  mk_net (<[a := s]> (n_sessions w)) epoll (n_sent w ++ ((hs_socket s,.) <$> chunks)) (n_closed w).

Lemma session_at_put w a s : session_at (session_put w a s) a = Ret s.
Proof. unfold session_at, session_put. cbn. by rewrite lookup_insert_eq. Qed.

Lemma session_at_ok w a s : n_sessions w !! a = Some s -> session_at w a = Ret s.
Proof. intros E. unfold session_at. by rewrite E. Qed.

Lemma set_out_written_twice p s k k' : set_out_written p (set_out_written p s k) k' = set_out_written p s k'.
Proof. by destruct p, s. Qed.
Lemma set_out_written_same p s : set_out_written p s (out_written p s) = s.
Proof. by destruct p, s. Qed.
Lemma out_written_set p s k : out_written p (set_out_written p s k) = k.
Proof. by destruct p, s. Qed.
Lemma out_data_set p q s k : out_data q (set_out_written p s k) = out_data q s.
Proof. by destruct p, q, s. Qed.
Lemma hs_socket_set p s k : hs_socket (set_out_written p s k) = hs_socket s.
Proof. by destruct p, s. Qed.
Lemma hs_state_set p s k : hs_state (set_out_written p s k) = hs_state s.
Proof. by destruct p, s. Qed.

(** Registering a session whose transmission stalled. *)
Lemma register_ok p a w s :
  n_sessions w !! a = Some s -> hs_state s = sending p -> a ∉ n_epoll w ->
  listener_thread_register_http_session a w
  = Ret (mk_net (<[a := set_hs_state s (blocked p)]> (n_sessions w)) ({[a]} ∪ n_epoll w) (n_sent w) (n_closed w)).
Proof.
  intros E Hs Ha. unfold listener_thread_register_http_session, session_at. rewrite E. ostep. rewrite Hs.
  destruct p; cbn [sending]; ostep; by rewrite decide_False by done.
Qed.

(** What the loop did: [k] is the new count. *)
Inductive loop_end (p : part) (a : Z) s w (results : list send_result) (k : Z) : Z * net P * list send_result -> Prop :=
| loop_done chunks rest :
    k = out_len p s ->
    concat chunks = take (Z.to_nat (k - out_written p s)) (drop (Z.to_nat (out_written p s)) (out_data p s)) ->
    (exists used, results = used ++ rest) ->
    loop_end p a s w results k (0, after w a (set_out_written p s k) (n_epoll w) chunks, rest)
| loop_blocked chunks rest :
    k < out_len p s ->
    concat chunks = take (Z.to_nat (k - out_written p s)) (drop (Z.to_nat (out_written p s)) (out_data p s)) ->
    loop_end p a s w results k
      (- EAGAIN, after w a (set_hs_state (set_out_written p s k) (blocked p)) ({[a]} ∪ n_epoll w) chunks, rest)
| loop_failed chunks rest e :
    concat chunks = take (Z.to_nat (k - out_written p s)) (drop (Z.to_nat (out_written p s)) (out_data p s)) ->
    ~ Forall fine results -> Z.pos e <> EAGAIN ->
    loop_end p a s w results k (- Z.pos e, after w a (set_out_written p s k) (n_epoll w) chunks, rest).

Lemma after_nil w a s : n_sessions w !! a = Some s -> after w a s (n_epoll w) [] = w.
Proof. intros E. unfold after. rewrite fmap_nil, app_nil_r, insert_id by done. by destruct w. Qed.

Lemma after_after w a s1 s2 e1 e2 c1 c2 :
  hs_socket s1 = hs_socket s2 -> after (after w a s1 e1 c1) a s2 e2 c2 = after w a s2 e2 (c1 ++ c2).
Proof. intros E. unfold after. cbn. by rewrite E, insert_insert_eq, fmap_app, (assoc_L (++)). Qed.

Lemma take_drop_split (l : list Z) (i j k : nat) :
  (i <= j <= k)%nat -> take (j - i) (drop i l) ++ take (k - j) (drop j l) = take (k - i) (drop i l).
Proof.
  intros Hi. replace (drop j l) with (drop (j - i) (drop i l)) by (rewrite drop_drop; f_equal; lia).
  rewrite <- (take_drop (j - i) (take (k - i) (drop i l))). rewrite take_take, skipn_firstn_comm.
  f_equal; f_equal; lia.
Qed.

(** The rest of the loop after [n] more bytes. *)
Lemma loop_end_step p a s w n results k o :
  0 <= out_written p s -> out_written p s + Z.of_nat n <= k <= out_len p s ->
  (n <= length (drop (Z.to_nat (out_written p s)) (out_data p s)))%nat ->
  loop_end p a (set_out_written p s (out_written p s + Z.of_nat n))
    (after w a (set_out_written p s (out_written p s + Z.of_nat n)) (n_epoll w)
       [take n (drop (Z.to_nat (out_written p s)) (out_data p s))]) results k o ->
  forall r, (fine r) -> loop_end p a s w (r :: results) k o.
Proof.
  intros H0 Hk Hn He r Hr.
  assert (C : forall chunks,
    concat chunks = take (Z.to_nat (k - (out_written p s + Z.of_nat n)))
                      (drop (Z.to_nat (out_written p s + Z.of_nat n)) (out_data p s)) ->
    concat (take n (drop (Z.to_nat (out_written p s)) (out_data p s)) :: chunks)
    = take (Z.to_nat (k - out_written p s)) (drop (Z.to_nat (out_written p s)) (out_data p s))).
  { intros chunks Ec. cbn [concat]. rewrite Ec.
    replace (Z.to_nat (k - (out_written p s + Z.of_nat n))) with (Z.to_nat k - Z.to_nat (out_written p s + Z.of_nat n))%nat
      by lia.
    replace (Z.to_nat (k - out_written p s)) with (Z.to_nat k - Z.to_nat (out_written p s))%nat by lia.
    rewrite <- (take_drop_split (out_data p s) (Z.to_nat (out_written p s)) (Z.to_nat (out_written p s + Z.of_nat n)))
      by lia.
    f_equal. f_equal. lia. }
  inversion He as [chunks rest Hlen Ec [used Eu] Eo | chunks rest Hlen Ec Eo | chunks rest e Ec Hf Hne Eo]; subst o;
    unfold out_len in *; rewrite ?out_written_set, ?out_data_set, ?set_out_written_twice in *;
    rewrite after_after by (cbn; by rewrite ?hs_socket_set); cbn [n_epoll after app].
  - constructor; [done | by apply C |]. exists (r :: used). by subst.
  - constructor; [done | by apply C].
  - constructor; [by apply C | | done]. intros Ha. apply Hf. by inversion Ha.
Qed.

Lemma loop_end_start p a s w results :
  n_sessions w !! a = Some s -> out_written p s = out_len p s ->
  loop_end p a s w results (out_written p s) (0, w, results).
Proof.
  intros E Hl. pose proof (loop_done p a s w results (out_written p s) [] results Hl) as H.
  rewrite Z.sub_diag, set_out_written_same, after_nil in H by done. apply H; [done | by exists []].
Qed.

(** The socket would block before any more went out. *)
Lemma send_blocked p a s w results :
  n_sessions w !! a = Some s -> hs_state s = sending p -> a ∉ n_epoll w -> out_written p s < out_len p s ->
  exists w', listener_thread_register_http_session a w = Ret w'
    /\ forall rest, loop_end p a s w results (out_written p s) (- EAGAIN, w', rest).
Proof.
  intros E Hs Ha Hl. rewrite (register_ok p a w s E Hs Ha). eexists. split; [done|]. intros rest.
  replace (mk_net _ _ _ _) with
    (after w a (set_hs_state (set_out_written p s (out_written p s)) (blocked p)) ({[a]} ∪ n_epoll w) [])
    by (unfold after; rewrite set_out_written_same, fmap_nil, app_nil_r; done).
  constructor; [done | by rewrite Z.sub_diag].
Qed.

Lemma send_loop_ok p a results : forall w s,
  n_sessions w !! a = Some s -> hs_state s = sending p -> a ∉ n_epoll w -> 0 <= out_written p s <= out_len p s ->
  exists k o, send_loop p a (listener_thread_register_http_session a) results w = Ret o
    /\ out_written p s <= k <= out_len p s /\ loop_end p a s w results k o
    /\ (writable results -> out_written p s < out_len p s -> out_written p s < k).
Proof.
  induction results as [|r results IH]; intros w s E Hs Ha Hw; cbn [send_loop];
    rewrite (session_at_ok w a s E); ostep;
    fold (out_len p s); destruct (Z.ltb_spec (out_written p s) (out_len p s)) as [Hl|Hl].
  2, 4: exists (out_written p s); eexists; split; [done|]; split; [lia|]; split; [|lia];
    apply loop_end_start; [done | lia].
  - assert (Hd : (0 < length (drop (Z.to_nat (out_written p s)) (out_data p s)))%nat)
      by (rewrite length_drop; unfold out_len in Hl; lia).
    unfold tcp_session_send. rewrite (bool_decide_true (0 < _)%nat) by done. ostep.
    destruct (send_blocked p a s w [] E Hs Ha Hl) as (w' & -> & Hend). ostep.
    exists (out_written p s). eexists. split; [done|]. split; [lia|]. split; [done|]. by intros (? & ? & ?).
  - set (d := drop (Z.to_nat (out_written p s)) (out_data p s)).
    assert (Hd : (0 < length d)%nat) by (unfold d; rewrite length_drop; unfold out_len in Hl; lia).
    unfold tcp_session_send. rewrite (bool_decide_true (0 < _)%nat) by done. ostep. destruct r as [n|e].
    + ostep. rewrite (proj2 (Z.ltb_ge _ _)) by lia. unfold session_at. cbn [n_sessions]. rewrite E. ostep.
      set (m := Nat.min n (length d)). set (s1 := set_out_written p s (out_written p s + Z.of_nat m)).
      assert (Hlen : out_written p s + Z.of_nat m <= out_len p s)
        by (unfold out_len in *; unfold m, d; rewrite length_drop; lia).
      destruct (IH (after w a s1 (n_epoll w) [take m d]) s1) as (k & o & Eo & Hk & Hend & _).
      { apply lookup_insert_eq. }
      { unfold s1. by rewrite hs_state_set. }
      { done. }
      { unfold s1, out_len. rewrite out_written_set, out_data_set. unfold out_len in Hlen. lia. }
      unfold after in Eo at 1. replace (hs_socket s1) with (hs_socket s) in Eo by (unfold s1; by rewrite hs_socket_set).
      exists k, o. split; [exact Eo|]. unfold s1, out_len in Hk. rewrite out_written_set, out_data_set in Hk.
      fold (out_len p s) in Hk. split; [lia|]. split.
      * apply (loop_end_step p a s w m results k o); [lia | lia | fold d; unfold m; lia | exact Hend | done].
      * intros (n' & rest & [= -> ->]) _. unfold m in Hk. lia.
    + destruct (Z.eqb_spec (Z.pos e) EAGAIN) as [He|He].
      * destruct (send_blocked p a s w (SendErrno e :: results) E Hs Ha Hl) as (w' & -> & Hend). ostep.
        exists (out_written p s). eexists. split; [done|]. split; [lia|]. split; [done|]. by intros (? & ? & ?).
      * ostep. exists (out_written p s). eexists. split; [done|]. split; [lia|]. split; [|by intros (? & ? & ?)].
        pose proof (loop_failed p a s w (SendErrno e :: results) (out_written p s) [] results e) as H.
        rewrite Z.sub_diag, set_out_written_same, after_nil in H by done. apply H; [done | | done].
        intros Hf. inversion_clear Hf as [|? ? Hr]. by cbn in Hr; subst e.
Qed.

(** ** The whole response *)

Definition response s : list Z := out_data Header s ++ out_data Body s.
Definition position s : Z := out_written Header s + out_written Body s.
Definition response_len s : Z := Z.of_nat (length (response s)).

(** The bytes of the response from [i] up to [j]. *)
Definition segment s (i j : Z) : list Z := take (Z.to_nat j - Z.to_nat i) (drop (Z.to_nat i) (response s)).

Definition header_left s : Prop := 0 <= out_written Header s <= out_len Header s /\ out_written Body s = 0.
Definition body_left s : Prop :=
  out_written Header s = out_len Header s /\ 0 <= out_written Body s <= out_len Body s.

(** Registered with epoll, with something left to send. *)
Definition waiting s : Prop :=
  position s < response_len s
  /\ ((hs_state s = blocked Header /\ header_left s /\ out_written Header s < out_len Header s)
      \/ (hs_state s = blocked Body /\ body_left s)).

Lemma response_len_eq s : response_len s = out_len Header s + out_len Body s.
Proof. unfold response_len, response, out_len. rewrite length_app. lia. Qed.

Lemma segment_app s i j k : 0 <= i <= j -> j <= k -> segment s i j ++ segment s j k = segment s i k.
Proof. intros. unfold segment. apply take_drop_split. lia. Qed.

Lemma segment_ext s s' i j : response s' = response s -> segment s' i j = segment s i j.
Proof. intros E. unfold segment. by rewrite E. Qed.
Lemma response_len_ext s s' : response s' = response s -> response_len s' = response_len s.
Proof. intros E. unfold response_len. by rewrite E. Qed.

Lemma segment_all s : segment s 0 (response_len s) = response s.
Proof. unfold segment, response_len. rewrite drop_0, firstn_all2; [done|]. lia. Qed.

(** What a loop sends, as a segment of the response. *)
Lemma header_segment s k :
  0 <= out_written Header s <= k -> k <= out_len Header s ->
  take (Z.to_nat (k - out_written Header s)) (drop (Z.to_nat (out_written Header s)) (out_data Header s))
  = segment s (out_written Header s) k.
Proof.
  intros H1 H2. unfold segment, response, out_len in *. rewrite drop_app_le by lia.
  rewrite take_app_le by (rewrite length_drop; lia). f_equal. lia.
Qed.

Lemma body_segment s k :
  0 <= out_written Body s <= k ->
  take (Z.to_nat (k - out_written Body s)) (drop (Z.to_nat (out_written Body s)) (out_data Body s))
  = segment s (out_len Header s + out_written Body s) (out_len Header s + k).
Proof.
  intros H1. unfold segment, response, out_len in *. rewrite drop_app_ge by lia. f_equal; [lia|]. f_equal. lia.
Qed.

(** What became of a session after some of its response was sent. *)
Inductive transmitted (a : Z) s w (results : list send_result) : net P -> Prop :=
| still_waiting s' chunks :
    waiting s' -> response s' = response s -> hs_socket s' = hs_socket s -> position s <= position s' ->
    concat chunks = segment s (position s) (position s') ->
    (writable results -> position s < response_len s -> position s < position s') ->
    transmitted a s w results (after w a s' ({[a]} ∪ n_epoll w) chunks)
| finished chunks k :
    position s <= k <= response_len s -> concat chunks = segment s (position s) k ->
    (Forall fine results -> k = response_len s) ->
    transmitted a s w results
      (mk_net (delete a (n_sessions w)) (n_epoll w) (n_sent w ++ ((hs_socket s,.) <$> chunks))
         (n_closed w ++ [hs_socket s])).

Lemma finish_session_ok a w s :
  n_sessions w !! a = Some s -> 2 < hs_socket s ->
  finish w a = Ret (mk_net (delete a (n_sessions w)) (n_epoll w) (n_sent w) (n_closed w ++ [hs_socket s])).
Proof.
  intros E Hs. unfold finish, http_session_close, session_at. rewrite E. ostep. unfold tcp_session_close.
  rewrite !(proj2 (Z.eqb_neq _ _)) by lia. cbn [negb]. ostep. unfold http_session_free, session_at, session_put.
  cbn [n_sessions]. rewrite E. ostep. cbn [n_sessions n_epoll n_sent n_closed]. by rewrite delete_insert_eq.
Qed.

Lemma after_put w a s0 s e c : after (session_put w a s0) a s e c = after w a s e c.
Proof. unfold after, session_put. cbn. by rewrite insert_insert_eq. Qed.

Lemma finish_after a w s e c :
  2 < hs_socket s ->
  finish (after w a s e c) a
  = Ret (mk_net (delete a (n_sessions w)) e (n_sent w ++ ((hs_socket s,.) <$> c)) (n_closed w ++ [hs_socket s])).
Proof. intros Hs. rewrite (finish_session_ok a _ s); [|apply lookup_insert_eq|done]. cbn. by rewrite delete_insert_eq. Qed.

(** The two sending functions are one function of the part. *)
Definition ready (p : part) : http_session_state :=
  match p with Header => HTTP_SESSION_EXECUTION_COMPLETE | Body => HTTP_SESSION_SENT_RESPONSE_HEADER end.
Definition sent (p : part) : http_session_state :=
  match p with Header => HTTP_SESSION_SENT_RESPONSE_HEADER | Body => HTTP_SESSION_SENT_RESPONSE_BODY end.

Definition send_part (p : part) (a : Z) (results : list send_result) w : outcome (Z * net P * list send_result) :=
  match p with
  | Header => http_session_send_response_header a (listener_thread_register_http_session a) results w
  | Body => http_session_send_response_body a (listener_thread_register_http_session a) results w
  end.

Definition left_of (p : part) s : Prop := match p with Header => header_left s | Body => body_left s end.
(** Where the part begins in the response. *)
Definition base (p : part) s : Z := match p with Header => 0 | Body => out_len Header s end.

Lemma part_segment p s k :
  0 <= out_written p s <= k -> k <= out_len p s ->
  take (Z.to_nat (k - out_written p s)) (drop (Z.to_nat (out_written p s)) (out_data p s))
  = segment s (base p s + out_written p s) (base p s + k).
Proof. destruct p; intros; [by apply header_segment | by apply body_segment]. Qed.

Lemma left_range p s : left_of p s -> 0 <= out_written p s <= out_len p s.
Proof. destruct p; intros [? ?]; [done | done]. Qed.
Lemma left_position p s : left_of p s -> position s = base p s + out_written p s.
Proof. destruct p; intros [? ?]; unfold position; cbn [base]; lia. Qed.

(** How sending a part ends: with the whole part sent, blocked, or failed. *)
Inductive part_end (p : part) (a : Z) s w (results : list send_result) (k : Z) : Z * net P * list send_result -> Prop :=
| part_sent chunks rest :
    k = out_len p s -> concat chunks = segment s (position s) (base p s + k) ->
    (exists used, results = used ++ rest) ->
    part_end p a s w results k (0, after w a (set_hs_state (set_out_written p s k) (sent p)) (n_epoll w) chunks, rest)
| part_blocked chunks rest :
    k < out_len p s -> concat chunks = segment s (position s) (base p s + k) ->
    part_end p a s w results k
      (- EAGAIN, after w a (set_hs_state (set_out_written p s k) (blocked p)) ({[a]} ∪ n_epoll w) chunks, rest)
| part_failed chunks rest rc :
    concat chunks = segment s (position s) (base p s + k) -> ~ Forall fine results -> rc < 0 -> rc <> - EAGAIN ->
    part_end p a s w results k
      (rc, after w a (set_hs_state (set_out_written p s k) (sending p)) (n_epoll w) chunks, rest).

Lemma set_out_written_state p s k st : set_out_written p (set_hs_state s st) k = set_hs_state (set_out_written p s k) st.
Proof. by destruct p, s. Qed.

Lemma send_part_ok p a w s results :
  n_sessions w !! a = Some s -> a ∉ n_epoll w -> left_of p s -> hs_state s = ready p \/ hs_state s = blocked p ->
  exists k o, send_part p a results w = Ret o /\ out_written p s <= k <= out_len p s /\ part_end p a s w results k o
    /\ (writable results -> out_written p s < out_len p s -> out_written p s < k).
Proof.
  intros E Ha Hleft Hst.
  destruct (send_loop_ok p a results (session_put w a (set_hs_state s (sending p))) (set_hs_state s (sending p)))
    as (k & o & Eo & Hk & Hend & Hp);
    [apply lookup_insert_eq | done | done | destruct p; by apply (left_range _ s) in Hleft |].
  replace (out_written p (set_hs_state s (sending p))) with (out_written p s) in * by (by destruct p).
  replace (out_len p (set_hs_state s (sending p))) with (out_len p s) in * by (by destruct p).
  pose proof (left_range p s Hleft). pose proof (left_position p s Hleft) as Hpos.
  assert (Ep : send_part p a results w
    = '(rc, w, results) ← Ret o;
      if rc <? 0 then Ret (rc, w, results) else
      s ← session_at w a; Ret (0, session_put w a (set_hs_state s (sent p)), results)).
  { rewrite <- Eo. destruct p; cbn [send_part];
      unfold http_session_send_response_header, http_session_send_response_body; rewrite (session_at_ok w a s E); ostep;
      (rewrite (proj2 (orb_true_iff _ _)); [done | destruct Hst; [left | right]; by apply bool_decide_true]). }
  rewrite Ep. clear Ep. ostep. exists k.
  assert (Es : forall c, concat c = take (Z.to_nat (k - out_written p s)) (drop (Z.to_nat (out_written p s)) (out_data p (set_hs_state s (sending p))))
               -> concat c = segment s (position s) (base p s + k)).
  { intros c ->. rewrite Hpos. replace (out_data p (set_hs_state s (sending p))) with (out_data p s) by (by destruct p).
    apply part_segment; lia. }
  inversion Hend as [c rest Hl Ec Hu Eo' | c rest Hl Ec Eo' | c rest e Ec Hf He Eo']; subst o; rewrite after_put.
  - change (0 <? 0) with false. cbv iota. unfold session_at. cbn [after n_sessions]. rewrite lookup_insert_eq. ostep.
    eexists. split; [done|]. split; [done|]. split; [|done].
    replace (session_put _ a _) with (after w a (set_hs_state (set_out_written p s k) (sent p)) (n_epoll w) c);
      [constructor; [by destruct p | apply Es; by destruct p | done]|].
    unfold session_put, after. cbn. rewrite insert_insert_eq. by destruct p.
  - eexists. split; [done|]. split; [done|]. split; [|done]. rewrite set_out_written_state.
    apply (part_blocked p a s w results k c rest); [by destruct p | apply Es; by destruct p].
  - eexists. split; [done|]. split; [done|]. split; [|done]. rewrite set_out_written_state.
    apply (part_failed p a s w results k c rest); [apply Es; by destruct p | done | lia | lia].
Qed.

Lemma response_set p s k st : response (set_hs_state (set_out_written p s k) st) = response s.
Proof. by destruct p. Qed.
Lemma segment_set p s k st i j : segment (set_hs_state (set_out_written p s k) st) i j = segment s i j.
Proof. unfold segment. by rewrite response_set. Qed.
Lemma position_set p s k st :
  left_of p s -> position (set_hs_state (set_out_written p s k) st) = base p s + k.
Proof. destruct p; intros [? ?]; unfold position; cbn in *; lia. Qed.
Lemma left_set p s k st : left_of p s -> 0 <= k <= out_len p s -> left_of p (set_hs_state (set_out_written p s k) st).
Proof. destruct p; intros [? ?] ?; split; cbn in *; done. Qed.
Lemma socket_set p s k st : hs_socket (set_hs_state (set_out_written p s k) st) = hs_socket s.
Proof. by destruct p. Qed.

Lemma base_range p s k : 0 <= k <= out_len p s -> 0 <= base p s + k <= response_len s.
Proof. intros Hk. rewrite response_len_eq. unfold out_len in *. destruct p; cbn [base]; unfold out_len; lia. Qed.

(** A part that blocked leaves its session waiting. *)
Lemma part_blocked_waiting p s k :
  left_of p s -> 0 <= k < out_len p s -> waiting (set_hs_state (set_out_written p s k) (blocked p)).
Proof.
  intros Hl Hk. split.
  - rewrite position_set by done. unfold response_len. rewrite response_set. fold (response_len s).
    rewrite response_len_eq. unfold out_len in *. destruct p; cbn [base]; unfold out_len in *; lia.
  - destruct p; [left | right]; (split; [done|]); [split; [by apply (left_set Header); [|lia] | apply Hk]
      | by apply (left_set Body); [|lia]].
Qed.

(** The end of a transmission that reached position [k]. *)
Lemma finish_transmitted a s w results s' chunks k :
  2 < hs_socket s -> hs_socket s' = hs_socket s -> position s <= k <= response_len s ->
  concat chunks = segment s (position s) k -> (Forall fine results -> k = response_len s) ->
  exists w', finish (after w a s' (n_epoll w) chunks) a = Ret w' /\ transmitted a s w results w'.
Proof.
  intros H1 E H2 H3 H4. rewrite finish_after by (by rewrite E). eexists. split; [done|]. rewrite E.
  by apply (finished a s w results chunks k).
Qed.

Lemma body_sending_ok a w s results now :
  n_sessions w !! a = Some s -> a ∉ n_epoll w -> 2 < hs_socket s -> left_of Body s ->
  hs_state s = ready Body \/ hs_state s = blocked Body ->
  exists w', on_client_response_body_sending a results now w = Ret w' /\ transmitted a s w results w'.
Proof.
  intros E Ha Hsock Hl Hst. destruct (send_part_ok Body a w s results E Ha Hl Hst) as (k & o & Eo & Hk & Hend & Hp).
  unfold on_client_response_body_sending. change (http_session_send_response_body _ _ _ _) with (send_part Body a results w).
  rewrite Eo. ostep. pose proof (left_position Body s Hl) as Hpos. pose proof (left_range Body s Hl) as Hr.
  pose proof (base_range Body s k ltac:(lia)) as Hb.
  assert (Hlen : response_len s = base Body s + out_len Body s) by (rewrite response_len_eq; done).
  inversion Hend as [c rest Hkl Ec Hu Eo' | c rest Hkl Ec Eo' | c rest rc Ec Hf Hrc Hne Eo']; subst o.
  - change (0 =? 0) with true. cbv iota. unfold on_client_response_sent. unfold session_at. cbn [after n_sessions].
    rewrite lookup_insert_eq. ostep. set (s' := set_response_sent_timestamp _ _).
    replace (session_put _ a s') with (after w a s' (n_epoll w) c) by (unfold session_put, after; cbn; by rewrite insert_insert_eq).
    apply (finish_transmitted a s w results s' c (base Body s + k)); try done; [lia|]. intros _. lia.
  - cbn -[after]. eexists. split; [done|].
    apply (still_waiting a s w results (set_hs_state (set_out_written Body s k) (blocked Body)) c); try done.
    + apply (part_blocked_waiting Body); [done | lia].
    + rewrite position_set by done. lia.
    + by rewrite position_set.
    + intros Hwr Hlt. rewrite (position_set) by done. specialize (Hp Hwr). lia.
  - rewrite (proj2 (Z.eqb_neq rc 0)), (proj2 (Z.eqb_neq rc (- EAGAIN))), (proj2 (Z.ltb_lt rc 0)) by lia.
    by apply (finish_transmitted a s w results _ c (base Body s + k)); [| |lia| |].
Qed.

(** A transmission that went from [s] to [s'] and on from there. *)
Lemma transmitted_trans a s w s' chunks results used rest w' :
  0 <= position s < position s' -> position s' <= response_len s -> concat chunks = segment s (position s) (position s') ->
  response s' = response s -> hs_socket s' = hs_socket s -> results = used ++ rest ->
  transmitted a s' (after w a s' (n_epoll w) chunks) rest w' -> transmitted a s w results w'.
Proof.
  intros Hp Hlen Ec Er Es -> T.
  assert (Eseg : forall i j, segment s' i j = segment s i j) by (intros; by apply segment_ext).
  pose proof (response_len_ext s s' Er) as El.
  destruct T as [s2 c2 W2 R2 S2 P2 C2 Pr2 | c2 k K2 C2 F2].
  - rewrite after_after by congruence. change (n_epoll (after w _ _ _ _)) with (n_epoll w).
    apply (still_waiting a s w _ s2 (chunks ++ c2)); try congruence; [lia | |].
    + rewrite concat_app, Ec, C2, Eseg. apply segment_app; lia.
    + lia.
  - cbn [after n_sessions n_epoll n_sent n_closed]. rewrite delete_insert_eq, Es, <- (assoc_L (++)), <- fmap_app.
    rewrite Eseg in C2. rewrite El in *. apply (finished a s w _ (chunks ++ c2) k); [lia | |].
    + rewrite concat_app, Ec, C2. apply segment_app; lia.
    + intros Hf. apply F2. by apply Forall_app in Hf as [_ ?].
Qed.

Lemma header_sending_ok a w s results now :
  n_sessions w !! a = Some s -> a ∉ n_epoll w -> 2 < hs_socket s -> left_of Header s ->
  out_written Header s < out_len Header s -> hs_state s = ready Header \/ hs_state s = blocked Header ->
  exists w', on_client_response_header_sending a results now w = Ret w' /\ transmitted a s w results w'.
Proof.
  intros E Ha Hsock Hl Hlt Hst. destruct (send_part_ok Header a w s results E Ha Hl Hst) as (k & o & Eo & Hk & Hend & Hp).
  unfold on_client_response_header_sending.
  change (http_session_send_response_header _ _ _ _) with (send_part Header a results w).
  rewrite Eo. ostep. pose proof (left_position Header s Hl) as Hpos. pose proof (left_range Header s Hl) as Hr.
  pose proof (base_range Header s k ltac:(lia)) as Hb. pose proof (proj2 Hl) as Hbw.
  inversion Hend as [c rest Hkl Ec Hu Eo' | c rest Hkl Ec Eo' | c rest rc Ec Hf Hrc Hne Eo']; subst o.
  - change (0 =? 0) with true. cbv iota. destruct Hu as [used Hu]. set (s' := set_hs_state _ _).
    destruct (body_sending_ok a (after w a s' (n_epoll w) c) s' rest now) as (w' & Ew & T).
    { apply lookup_insert_eq. }
    { done. }
    { done. }
    { split; [by subst k|]. cbn. unfold out_len. cbn in Hbw |- *. rewrite Hbw. lia. }
    { by left. }
    exists w'. split; [done|]. apply (transmitted_trans a s w s' c results used rest w'); try done.
    + unfold s'. rewrite position_set by done. cbn [base] in *. lia.
    + unfold s'. rewrite position_set by done. lia.
    + unfold s'. by rewrite position_set.
  - cbn -[after]. eexists. split; [done|].
    apply (still_waiting a s w results (set_hs_state (set_out_written Header s k) (blocked Header)) c); try done.
    + apply (part_blocked_waiting Header); [done | lia].
    + rewrite position_set by done. lia.
    + by rewrite position_set.
    + intros Hwr _. rewrite (position_set) by done. specialize (Hp Hwr). lia.
  - rewrite (proj2 (Z.eqb_neq rc 0)), (proj2 (Z.eqb_neq rc (- EAGAIN))), (proj2 (Z.ltb_lt rc 0)) by lia.
    by apply (finish_transmitted a s w results _ c (base Header s + k)); [| |lia| |].
Qed.

(** The worker's function does the same as the listener's. *)
Lemma send_response_ok a w s results now :
  n_sessions w !! a = Some s -> a ∉ n_epoll w -> 2 < hs_socket s -> left_of Header s ->
  out_written Header s < out_len Header s -> hs_state s = HTTP_SESSION_EXECUTION_COMPLETE ->
  http_session_send_response a (listener_thread_register_http_session a) results now w
  = on_client_response_header_sending a results now w.
Proof.
  intros E Ha Hsock Hl Hlt Hst.
  destruct (send_part_ok Header a w s results E Ha Hl ltac:(by left)) as (k & o & Eo & Hk & Hend & _).
  unfold http_session_send_response, on_client_response_header_sending. rewrite (session_at_ok w a s E). ostep.
  rewrite (bool_decide_true (hs_state s = _)) by done. ostep.
  change (http_session_send_response_header _ _ _ _) with (send_part Header a results w). rewrite Eo. ostep.
  inversion Hend as [c rest Hkl Ec Hu Eo' | c rest Hkl Ec Eo' | c rest rc Ec Hf Hrc Hne Eo']; subst o; cbn -[after finish send_part].
  - set (s' := set_hs_state _ _). rewrite (session_at_ok (after w a s' (n_epoll w) c) a s') by apply lookup_insert_eq. ostep.
    rewrite (bool_decide_true (hs_state s' = _)) by done. ostep. unfold on_client_response_body_sending.
    change (http_session_send_response_body _ _ _ _) with (send_part Body a rest (after w a s' (n_epoll w) c)).
    destruct (send_part_ok Body a (after w a s' (n_epoll w) c) s' rest) as (k' & o & Eo2 & Hk' & Hend' & _).
    { apply lookup_insert_eq. }
    { done. }
    { destruct Hl as [? Hbw]. split; [by subst k|]. cbn. unfold out_len. cbn in Hbw |- *. rewrite Hbw. lia. }
    { by left. }
    rewrite Eo2. ostep.
    inversion Hend' as [c' rest' _ _ _ Eo' | c' rest' _ _ Eo' | c' rest' rc _ _ Hrc Hne Eo']; subst o.
    + change (0 =? - EAGAIN) with false. change (0 <? 0) with false. change (0 =? 0) with true. cbv iota.
      unfold on_client_response_sent, session_at. cbn [after n_sessions]. rewrite lookup_insert_eq. ostep.
      by rewrite (bool_decide_true (hs_state _ = _)) by done.
    + done.
    + by rewrite (proj2 (Z.eqb_neq rc 0)), (proj2 (Z.eqb_neq rc (- EAGAIN))), (proj2 (Z.ltb_lt rc 0)) by lia.
  - done.
  - by rewrite (proj2 (Z.eqb_neq rc 0)), (proj2 (Z.eqb_neq rc (- EAGAIN))), (proj2 (Z.ltb_lt rc 0)) by lia.
Qed.
End send.

(** ** Events *)

Lemma epoll_cycle (a : Z) (E : gset Z) : ({[a]} ∪ E ∖ {[a]}) ∖ {[a]} = E ∖ {[a]}.
Proof.
  rewrite difference_union_distr_l_L, difference_diag_L, (left_id_L ∅ (∪)), difference_difference_l_L.
  by rewrite (idemp_L (∪)).
Qed.
Lemma epoll_gone (a : Z) (E : gset Z) : a ∉ E ∖ {[a]}.
Proof. intros [_ []]%elem_of_difference. by apply elem_of_singleton. Qed.
Lemma epoll_add_remove (a : Z) (E : gset Z) : a ∉ E -> ({[a]} ∪ E) ∖ {[a]} = E.
Proof.
  intros Ha. rewrite difference_union_distr_l_L, difference_diag_L, (left_id_L ∅ (∪)).
  by apply difference_disjoint_L, disjoint_singleton_r.
Qed.

Section events.
Context {P : Type}.
Variable parser_init : P.
Variable http_parser_execute : P -> list Z -> list parser_event * Z * bool * P.
Context {L : Type} `{SpinLock L} {RQ : Type} `{Runqueue RQ} {G : Type} `{GlobalScheduler G}.
Variable ADMISSIONS_CONTROL : bool.
Variable capacity : Z.
Variable worker_thread_idx : nat.
Variable routers : gmap Z (vec (route_t L)).
Variable route_address : Z -> nat -> Z.
Variable response_content_type : Z -> list Z.
Implicit Types s : http_session P.
Implicit Types w : net P.
Implicit Types st : lstate P L RQ G.
Abbreviation on_event := (on_client_socket_epoll_event http_parser_execute ADMISSIONS_CONTROL capacity
  worker_thread_idx routers route_address response_content_type).

(** The listener handles "writable" events of session [a], one per element,
    while the session is registered. *)
Fixpoint serve (a : Z) (envs : list request_env) st : outcome (lstate P L RQ G) :=
  match envs with
  | [] => Ret st
  | env :: envs =>
    if decide (a ∈ n_epoll (ls_net st)) then st ← on_event EPOLLOUT a env st; serve a envs st else Ret st
  end.

(** The kernel reports a socket as writable when it has room. *)
Definition good_event (env : request_env) : Prop := Forall fine (re_send env) /\ writable (re_send env).

Lemma event_ok a st s env :
  n_sessions (ls_net st) !! a = Some s -> a ∈ n_epoll (ls_net st) -> waiting s -> 2 < hs_socket s ->
  exists w', on_event EPOLLOUT a env st = Ret (set_ls_net st w')
    /\ transmitted a s (mk_net (n_sessions (ls_net st)) (n_epoll (ls_net st) ∖ {[a]}) (n_sent (ls_net st)) (n_closed (ls_net st)))
         (re_send env) w'.
Proof.
  intros E Ha [_ Hw] Hsock. unfold on_client_socket_epoll_event, listener_thread_unregister_http_session.
  rewrite (session_at_ok _ a s E). ostep. rewrite decide_True by done. ostep.
  set (w0 := mk_net _ _ _ _). rewrite (session_at_ok w0 a s E). ostep.
  assert (Hn : a ∉ n_epoll w0) by apply epoll_gone.
  destruct Hw as [(Hst & Hl & Hlt) | (Hst & Hl)]; rewrite Hst; cbn [blocked]; change (has_event EPOLLOUT EPOLLOUT) with true; ostep.
  - destruct (header_sending_ok a w0 s (re_send env) (re_sent env) E Hn Hsock Hl Hlt ltac:(by right)) as (w' & -> & T).
    ostep. by exists w'.
  - destruct (body_sending_ok a w0 s (re_send env) (re_sent env) E Hn Hsock Hl ltac:(by right)) as (w' & -> & T).
    ostep. by exists w'.
Qed.

(** Every event makes progress, so the response is complete after as many
    events as bytes were left. *)
Lemma serve_ok a envs : forall st s,
  n_sessions (ls_net st) !! a = Some s -> a ∈ n_epoll (ls_net st) -> waiting s -> 2 < hs_socket s -> 0 <= position s ->
  Forall good_event envs -> response_len s - position s <= Z.of_nat (length envs) ->
  exists st' chunks, serve a envs st = Ret st'
    /\ ls_net st' = mk_net (delete a (n_sessions (ls_net st))) (n_epoll (ls_net st) ∖ {[a]})
                      (n_sent (ls_net st) ++ ((hs_socket s,.) <$> chunks)) (n_closed (ls_net st) ++ [hs_socket s])
    /\ concat chunks = segment s (position s) (response_len s).
Proof.
  induction envs as [|env envs IH]; intros st s E Ha Hw Hsock Hpos Hg Hlen.
  - destruct Hw as [? _]. cbn in Hlen. lia.
  - inversion Hg as [|? ? [Hf Hwr] Hg']; subst. clear Hg; rename Hg' into Hg. cbn [serve]. rewrite decide_True by done.
    destruct (event_ok a st s env E Ha Hw Hsock) as (w' & -> & T). ostep. pose proof (proj1 Hw) as Hlt.
    destruct T as [s' c W' R' S' P' C' Pr' | c k K C F].
    + destruct (IH (set_ls_net st (after (mk_net (n_sessions (ls_net st)) (n_epoll (ls_net st) ∖ {[a]}) (n_sent (ls_net st))
               (n_closed (ls_net st))) a s' ({[a]} ∪ n_epoll (ls_net st) ∖ {[a]}) c)) s') as (st' & c' & E1 & E2 & E3).
      { apply lookup_insert_eq. }
      { cbn. apply elem_of_union_l. by apply elem_of_singleton. }
      { done. }
      { by rewrite S'. }
      { lia. }
      { done. }
      { specialize (Pr' Hwr Hlt). unfold response_len in *. rewrite R'. cbn [length] in Hlen. lia. }
      exists st', (c ++ c'). split; [exact E1|]. rewrite E2. cbn. split.
      * rewrite delete_insert_eq, S', fmap_app, (assoc_L (++)), epoll_cycle. done.
      * rewrite concat_app, C', E3, (segment_ext s s'), (response_len_ext s s') by done. destruct W' as [W' _].
        rewrite (response_len_ext s s') in W' by done. apply segment_app; lia.
    + exists (set_ls_net st (mk_net (delete a (n_sessions (ls_net st))) (n_epoll (ls_net st) ∖ {[a]})
        (n_sent (ls_net st) ++ ((hs_socket s,.) <$> c)) (n_closed (ls_net st) ++ [hs_socket s]))), c.
      split; [|split; [done | by rewrite C, (F Hf)]]. destruct envs as [|env' envs]; [done|]. cbn [serve].
      rewrite decide_False; [done|]. apply epoll_gone.
Qed.

(** The answer of a function that returned [body]. *)
Definition full_response (content_type body : list Z) : list Z :=
  status_lines "200 OK"%string ++ content_type_line content_type
  ++ content_length_line (Z.of_nat (length body)) ++ crlf ++ body.

(** A session whose function has run: its output is in the body's stream. *)
Definition executed s (route : Z) (body : list Z) : Prop :=
  hs_state s = HTTP_SESSION_EXECUTION_COMPLETE /\ hs_route s = Some route
  /\ response_header s = mk_auto_buf true [] [] 0 /\ response_header_written s = 0
  /\ ab_handle (response_body s) = true /\ ab_data (response_body s) ++ ab_pending (response_body s) = body
  /\ response_body_written s = 0.

Lemma set_response_header_ok s route body now moved :
  executed s route body ->
  exists s', http_session_set_response_header response_content_type s 200 now moved = Ret s'
    /\ response s' = full_response (response_content_type route) body /\ left_of Header s'
    /\ out_written Header s' < out_len Header s' /\ hs_state s' = HTTP_SESSION_EXECUTION_COMPLETE
    /\ hs_socket s' = hs_socket s /\ position s' = 0.
Proof.
  intros (Hst & Hr & Hh & Hhw & Hbh & Hb & Hbw). unfold http_session_set_response_header.
  change ((200 <=? 200) && (200 <=? 599)) with true. ostep. unfold http_header_build. change (200 =? 200) with true. ostep.
  rewrite Hh. unfold put_line. cbn [ab_handle stream_write]. ostep.
  change (hs_route (set_response_body s _)) with (hs_route s). rewrite Hr. ostep.
  unfold put_line. cbn [ab_handle stream_write]. ostep. eexists. split; [reflexivity|].
  unfold left_of, header_left, out_written, out_len, position, response, full_response, out_data, ab_size, auto_buf_flush.
  cbn [response_header response_body response_header_written response_body_written set_response_takeoff_timestamp
       set_response_header set_response_body stream_write ab_handle ab_data ab_pending hs_state hs_socket app].
  rewrite Hhw, Hbw, Hb. split; [by rewrite <- !(assoc_L (++))|]. split; [lia|]. split.
  { unfold status_lines. rewrite !length_app. cbn. lia. }
  split; [exact Hst|]. split; [done|]. change (response_header_written s + response_body_written s = 0). lia.
Qed.

(** C7: responses are delivered.  When a function has returned, the worker sets
    the header and starts to send, and the listener continues whenever epoll
    reports the socket writable.  However few bytes the socket takes each time,
    after at most one event per byte of the response the client has received
    exactly the status lines, the content type of the route, the length of the
    body and the body, once and in order; the socket has been closed once and
    the session is freed. *)
Theorem response_delivered a w s route body results envs now0 now1 moved (ww : world L RQ) (g : G) :
  n_sessions w !! a = Some s -> executed s route body -> a ∉ n_epoll w -> 2 < hs_socket s ->
  Forall fine results -> Forall good_event envs ->
  (length (full_response (response_content_type route) body) <= length envs)%nat ->
  exists s1 w1 st' chunks,
    http_session_set_response_header response_content_type s 200 now0 moved = Ret s1
    /\ http_session_send_response a (listener_thread_register_http_session a) results now1 (session_put w a s1) = Ret w1
    /\ serve a envs (mk_lstate w1 ww g) = Ret st'
    /\ ls_net st' = mk_net (delete a (n_sessions w)) (n_epoll w) (n_sent w ++ ((hs_socket s,.) <$> chunks))
                      (n_closed w ++ [hs_socket s])
    /\ concat chunks = full_response (response_content_type route) body.
Proof.
  intros E Hex Ha Hsock Hf Hg Hlen.
  destruct (set_response_header_ok s route body now0 moved Hex) as (s1 & Es1 & Hres & Hl & Hlt & Hst & Hso & Hpos).
  rewrite <- Hso in *.
  assert (E1 : n_sessions (session_put w a s1) !! a = Some s1) by apply lookup_insert_eq.
  pose proof (send_response_ok a (session_put w a s1) s1 results now1 E1 Ha Hsock Hl Hlt Hst) as Esend.
  destruct (header_sending_ok a (session_put w a s1) s1 results now1) as (w1 & Ew & T); [done..|by left|].
  rewrite Ew in Esend. clear Ew. exists s1. destruct T as [s2 c W2 R2 S2 P2 C2 _ | c k K C F].
  - destruct (serve_ok a envs (mk_lstate (after w a s2 ({[a]} ∪ n_epoll w) c) ww g) s2) as (st' & c2 & E2 & E3 & E4).
    { apply lookup_insert_eq. }
    { cbn. apply elem_of_union_l. by apply elem_of_singleton. }
    { done. }
    { by rewrite S2. }
    { lia. }
    { done. }
    { unfold response_len. rewrite R2, Hres. lia. }
    rewrite after_put in Esend. eexists _, st', (c ++ c2). split; [done|]. split; [exact Esend|]. split; [exact E2|]. rewrite E3. cbn. rewrite delete_insert_eq, S2, fmap_app, (assoc_L (++)).
    split; [|rewrite concat_app, C2, E4].
    + by rewrite epoll_add_remove.
    + rewrite (segment_ext s1 s2), (response_len_ext s1 s2) by done. destruct W2 as [W2 _].
      rewrite (response_len_ext s1 s2) in W2 by done. rewrite Hpos, segment_app by lia. by rewrite segment_all.
  - eexists _, (mk_lstate (mk_net (delete a (n_sessions w)) (n_epoll w) (n_sent w ++ ((hs_socket s1,.) <$> c))
      (n_closed w ++ [hs_socket s1])) ww g), c. split; [done|]. split; [exact Esend|]. split; [|split; [done|]].
    + destruct envs as [|env envs]; cbn [serve ls_net]; [|rewrite decide_False by done]; cbn; by rewrite delete_insert_eq.
    + rewrite C, (F Hf), Hpos, segment_all. done.
Qed.
End events.

(** A session whose function returned "abc". *)
Definition demo_response_session : http_session unit :=
  mk_session HTTP_SESSION_EXECUTION_COMPLETE 9 tt zero_request (mk_auto_buf true [] [] 0) (mk_auto_buf true [] [] 0) 0
    (mk_auto_buf true [] [97; 98; 99] 0) 0 5 (Some 7) 10 11 0 0.

Definition demo_net : net unit := mk_net {[ 950 := demo_response_session ]} ∅ [] [].

(** The socket takes one byte per event. *)
Definition slow_client : request_env :=
  mk_request_env None (true, true) [] [Sent 1] None (false, false) 0 0 0 0 0 0 0 40.

Definition demo_content_type (route : Z) : list Z := bytes_of_string "text/plain"%string.

Lemma response_delivered_witness :
  exists s1 w1 st' chunks,
    http_session_set_response_header demo_content_type demo_response_session 200 20 (false, false) = Ret s1
    /\ http_session_send_response 950 (listener_thread_register_http_session 950) [Sent 1] 30 (session_put demo_net 950 s1)
       = Ret w1
    /\ serve (fun p (_ : list Z) => ([], 0, true, p)) false 0 0 (∅ : gmap Z (vec (route_t bool))) (fun _ _ => 7)
         demo_content_type 950 (replicate 200 slow_client) (mk_lstate w1 demo_world edf_global) = Ret st'
    /\ ls_net st' = mk_net (delete 950 (n_sessions demo_net)) ∅ ([] ++ ((9,.) <$> chunks)) ([] ++ [9])
    /\ concat chunks = full_response (demo_content_type 7) [97; 98; 99].
Proof.
  apply (response_delivered (fun p (_ : list Z) => ([], 0, true, p)) false 0 0 ∅ (fun _ _ => 7)
           demo_content_type 950 demo_net demo_response_session 7 [97; 98; 99] [Sent 1] (replicate 200 slow_client) 20 30
           (false, false) demo_world edf_global); try reflexivity.
  - repeat split.
  - apply not_elem_of_empty.
  - repeat constructor.
  - apply Forall_replicate. split; [repeat constructor | by exists 0%nat, []].
  - apply Nat.leb_le. vm_compute. reflexivity.
Defined.
