(* ===== verification/HttpParse.v ===== *)
(** * HttpParse: what the parser's callbacks make of a request

    The header callbacks and their limits, the URL callback against a reference
    definition, the body pointer across moves of the request buffer, and the inputs on which the callbacks go wrong. *)

From Stdlib Require Import ZArith Lia.
From stdpp Require Import strings.
From S2P Require Import Prelude Bytes Http HttpSession HttpSend.
Local Open Scope Z_scope.

Definition INT_MAX : Z := 2147483647.

(** ** The arrays of a request *)

Definition param_wf (p : http_query_param) : Prop :=
  (length (qp_value p) <= 31)%nat /\ qp_length p = Z.of_nat (length (qp_value p)).

(** The sizes of the arrays of [struct http_request]. *)
Record request_wf (r : http_request) : Prop := {
  rwf_headers : length (headers r) = HTTP_MAX_HEADER_COUNT;
  rwf_header_count : 0 <= header_count r <= Z.of_nat HTTP_MAX_HEADER_COUNT;
  rwf_params : length (query_params r) = HTTP_MAX_QUERY_PARAM_COUNT;
  rwf_param_count : 0 <= query_params_count r <= Z.of_nat HTTP_MAX_QUERY_PARAM_COUNT;
  rwf_param : Forall param_wf (query_params r);
  rwf_url : (length (full_url r) <= 255)%nat;
}.

(** ** The header callbacks against the headers reported *)

(** A header as the tokenizer reports it: its key in one piece, its value in one
    or more, each with its offset and its length. *)
Record reported_header : Type := mk_reported {
  rh_key : Z * Z;
  rh_value : Z * Z;
  rh_more : list (Z * Z);
}.

Definition header_events (h : reported_header) : list parser_event :=
  EvHeaderField (fst (rh_key h)) (snd (rh_key h)) :: EvHeaderValue (fst (rh_value h)) (snd (rh_value h))
    :: ((fun p => EvHeaderValue (fst p) (snd p)) <$> rh_more h).

Definition total_length (pieces : list (Z * Z)) : Z := foldr (fun p n => snd p + n) 0 pieces.

(** Lengths a tokenizer can report: a value that goes on has begun. *)
Definition proper_header (h : reported_header) : Prop :=
  0 <= snd (rh_key h) /\ 0 <= snd (rh_value h) /\ (rh_more h <> [] -> 0 < snd (rh_value h))
  /\ Forall (fun p => 0 <= snd p) (rh_more h) /\ snd (rh_value h) + total_length (rh_more h) <= INT_MAX.

(** The limits of a key and of the first piece of a value. *)
Definition header_fits (h : reported_header) : Prop := snd (rh_key h) <= 64 /\ snd (rh_value h) < 256.

(** What the request keeps of a header: where its key and its value begin, and
    how long they are. *)
Definition recorded (moves : nat) (base : Z) (h : reported_header) : http_header :=
  mk_header (Some (moves, base + fst (rh_key h))) (snd (rh_key h))
    (Some (moves, base + fst (rh_value h))) (snd (rh_value h) + total_length (rh_more h)).

(** The request is between two headers. *)
Definition between_headers (r : http_request) : Prop :=
  message_end r = false /\ header_end r = false /\ last_was_value r = true.

(** One entry of the headers is written; the count moves within the array. *)
Lemma set_headers_wf r i h n last :
  request_wf r -> 0 <= n <= Z.of_nat HTTP_MAX_HEADER_COUNT -> request_wf (set_headers r (<[i := h]> (headers r)) n last).
Proof. intros [] Hn. split; try done. cbn. by rewrite length_insert. Qed.

Lemma header_entry r i : request_wf r -> 0 <= i < 32 -> exists h, headers r !! Z.to_nat i = Some h /\ header_at r i = Ret h.
Proof.
  intros W Hi. unfold header_at. rewrite (proj2 (Z.ltb_ge i 0)) by lia. destruct (headers r !! Z.to_nat i) as [h|] eqn:E; [by exists h|].
  apply lookup_ge_None in E. rewrite (rwf_headers r W) in E. unfold HTTP_MAX_HEADER_COUNT in E. lia.
Qed.

Section header_callbacks.
Variables (data : list Z) (moves : nat) (base : Z).
Implicit Types (r : http_request) (h : reported_header).

(** The later pieces of a value add their lengths to the entry. *)
Lemma more_pieces_ok pieces es : forall r e n,
  message_end r = false -> header_end r = false -> last_was_value r = true ->
  header_count r = Z.of_nat (S n) -> headers r !! n = Some e -> (pieces <> [] -> 0 < hdr_value_length e) ->
  0 <= hdr_value_length e -> Forall (fun p => 0 <= snd p) pieces -> hdr_value_length e + total_length pieces <= INT_MAX ->
  run_callbacks data moves base r (((fun p => EvHeaderValue (fst p) (snd p)) <$> pieces) ++ es)
  = run_callbacks data moves base
      (set_headers r (<[n := mk_header (hdr_key e) (hdr_key_length e) (hdr_value e)
                               (hdr_value_length e + total_length pieces)]> (headers r)) (header_count r) true) es.
Proof.
  induction pieces as [|[a l] pieces IH]; intros r e n Hm He Hv Hc E Hp H0 Hl Hmax.
  - cbn [fmap list_fmap app total_length foldr] in *. rewrite Z.add_0_r, (list_insert_id (headers r)); [|by destruct e].
    f_equal. destruct r. cbn in *. by subst.
  - cbn [fmap list_fmap app total_length foldr fst snd] in *. fold (total_length pieces) in *.
    apply Forall_cons_1 in Hl as [Hl Hls]. cbn in Hl. specialize (Hp ltac:(done)).
    assert (0 <= total_length pieces).
    { clear -Hls. induction Hls as [|p ps Hp _ IH]; cbn; [lia|]. fold (total_length ps). lia. }
    cbn [run_callbacks run_callback]. unfold http_parser_settings_on_header_value. rewrite Hm, He, Hv. cbn [negb]. ostep.
    unfold header_at. rewrite Hc. replace (Z.of_nat (S n) - 1) with (Z.of_nat n) by lia.
    rewrite (proj2 (Z.ltb_ge _ 0)), Nat2Z.id, E by lia. cbn [deref]. ostep. rewrite (proj2 (Z.ltb_lt 0 _)) by done. ostep.
    cbn [callback_ok]. change (0 =? 0) with true. cbv iota.
    rewrite (IH _ (mk_header (hdr_key e) (hdr_key_length e) (hdr_value e) (swrap 32 (hdr_value_length e + l))) n);
      cbn [message_end header_end last_was_value header_count headers set_headers hdr_key hdr_key_length hdr_value hdr_value_length];
      rewrite ?swrap_small by (unfold INT_MAX in *; lia); try done; try lia.
    + rewrite list_insert_insert_eq, Z.add_assoc. done.
    + apply list_lookup_insert_eq. by eapply lookup_lt_Some.
Qed.

(** A header that fits fills the next entry. *)
Lemma header_accepted h es r :
  between_headers r -> request_wf r -> proper_header h -> header_fits h -> header_count r < 32 ->
  run_callbacks data moves base r (header_events h ++ es)
  = run_callbacks data moves base
      (set_headers r (<[Z.to_nat (header_count r) := recorded moves base h]> (headers r)) (header_count r + 1) true) es.
Proof.
  intros (Hm & He & Hv) W (Hk & Hvl & Hne & Hls & Hmax) [Fk Fv] Hc. pose proof (rwf_header_count r W) as Hc0.
  destruct (header_entry r (header_count r) W ltac:(lia)) as (e & E & Ee). pose proof (lookup_lt_Some _ _ _ E) as Hlt.
  unfold header_events. cbn [app run_callbacks run_callback]. unfold http_parser_settings_on_header_field at 1. rewrite Hm, He, Hv.
  cbn [negb]. ostep. rewrite (proj2 (Z.leb_gt _ _)) by (unfold HTTP_MAX_HEADER_COUNT; lia).
  rewrite (proj2 (Z.ltb_ge _ _)) by (unfold HTTP_MAX_HEADER_LENGTH; lia).
  rewrite Z.add_simpl_r, Ee. ostep. cbn [callback_ok]. change (0 =? 0) with true. cbv iota.
  unfold http_parser_settings_on_header_value at 1. cbn [message_end header_end last_was_value set_headers]. rewrite Hm, He.
  cbn [negb]. ostep. rewrite (proj2 (Z.leb_gt _ _)) by (unfold HTTP_MAX_HEADER_VALUE_LENGTH; lia).
  unfold header_at. cbn [header_count headers set_headers]. rewrite Z.add_simpl_r, (proj2 (Z.ltb_ge _ 0)) by lia.
  rewrite list_lookup_insert_eq by done. cbn [deref]. ostep. cbn [callback_ok]. change (0 =? 0) with true. cbv iota.
  rewrite list_insert_insert_eq. cbn [hdr_key hdr_key_length].
  rewrite (more_pieces_ok _ _ _ (mk_header (Some (moves, base + fst (rh_key h))) (snd (rh_key h))
             (Some (moves, base + fst (rh_value h))) (snd (rh_value h))) (Z.to_nat (header_count r)));
    cbn [message_end header_end last_was_value header_count headers set_headers hdr_key hdr_key_length hdr_value hdr_value_length];
    try done; [|lia|by apply list_lookup_insert_eq].
  by rewrite list_insert_insert_eq.
Qed.

(** A header that does not fit is refused, at its key or at its value. *)
Lemma header_refused h es r :
  between_headers r -> request_wf r -> header_count r = 32 \/ ~ header_fits h ->
  exists r', run_callbacks data moves base r (header_events h ++ es) = Ret (false, r') /\ request_wf r'
    /\ r' = set_headers r (headers r') (header_count r') (last_was_value r')
    /\ header_count r' = header_count r + (if decide (header_count r < 32 /\ snd (rh_key h) <= 64) then 1 else 0)
    /\ take (Z.to_nat (header_count r)) (headers r') = take (Z.to_nat (header_count r)) (headers r).
Proof.
  intros (Hm & He & Hv) W Hbad. pose proof (rwf_header_count r W) as Hc0. unfold HTTP_MAX_HEADER_COUNT in Hc0.
  assert (Hid : r = set_headers r (headers r) (header_count r) (last_was_value r)) by by destruct r.
  unfold header_events. cbn [app run_callbacks run_callback]. unfold http_parser_settings_on_header_field at 1. rewrite Hm, He, Hv.
  cbn [negb]. ostep. destruct (Z.leb_spec (Z.of_nat HTTP_MAX_HEADER_COUNT) (header_count r)) as [Hf|Hf]; unfold HTTP_MAX_HEADER_COUNT in Hf.
  { exists r. rewrite decide_False by lia. rewrite Z.add_0_r. done. }
  destruct (Z.ltb_spec HTTP_MAX_HEADER_LENGTH (snd (rh_key h))) as [Hk|Hk]; unfold HTTP_MAX_HEADER_LENGTH in Hk.
  { exists r. rewrite decide_False by lia. rewrite Z.add_0_r. done. }
  destruct (header_entry r (header_count r) W ltac:(lia)) as (e & E & Ee). rewrite Z.add_simpl_r, Ee. ostep.
  cbn [callback_ok]. change (0 =? 0) with true. cbv iota.
  unfold http_parser_settings_on_header_value at 1. cbn [message_end header_end last_was_value set_headers]. rewrite Hm, He.
  cbn [negb]. ostep. rewrite (proj2 (Z.leb_le _ _)) by (unfold header_fits, HTTP_MAX_HEADER_VALUE_LENGTH in *; lia).
  eexists. split; [done|]. rewrite decide_True by done. cbn. split; [apply set_headers_wf; [done|unfold HTTP_MAX_HEADER_COUNT; lia]|].
  split; [done|]. split; [done|]. by apply take_insert_ge.
Qed.

(** The request with the headers [hs] filled in behind the first ones. *)
Definition with_headers r (hs : list reported_header) : http_request :=
  let c := Z.to_nat (header_count r) in
  set_headers r (take c (headers r) ++ (recorded moves base <$> hs) ++ drop (c + length hs) (headers r))
    (header_count r + Z.of_nat (length hs)) true.

Lemma with_headers_ok r hs :
  between_headers r -> request_wf r -> header_count r + Z.of_nat (length hs) <= 32 ->
  between_headers (with_headers r hs) /\ request_wf (with_headers r hs).
Proof.
  intros (Hm & He & Hv) [] Hc. split; [done|]. split; try done; cbn; unfold HTTP_MAX_HEADER_COUNT in *; [|lia].
  rewrite !length_app, length_take, length_fmap, length_drop. lia.
Qed.

Lemma headers_accepted hs es : forall r,
  between_headers r -> request_wf r -> Forall proper_header hs -> Forall header_fits hs ->
  header_count r + Z.of_nat (length hs) <= 32 ->
  run_callbacks data moves base r ((hs ≫= header_events) ++ es) = run_callbacks data moves base (with_headers r hs) es.
Proof.
  induction hs as [|h hs IH]; intros r Hb W Hp Hf Hc.
  - cbn. f_equal. unfold with_headers. cbn. rewrite Nat.add_0_r, take_drop, Z.add_0_r. destruct Hb as (_ & _ & Hv), r. cbn in *. by subst.
  - apply Forall_cons_1 in Hp as [Hp Hps], Hf as [Hf Hfs]. cbn [length] in Hc. pose proof (rwf_header_count r W) as Hc0.
    assert (Hlt : (Z.to_nat (header_count r) < length (headers r))%nat) by (rewrite (rwf_headers r W); unfold HTTP_MAX_HEADER_COUNT; lia).
    rewrite bind_cons, <- (assoc_L (++)), header_accepted by (done || lia).
    rewrite IH; [|by destruct Hb as (? & ? & ?)|apply set_headers_wf; [done|unfold HTTP_MAX_HEADER_COUNT; lia]|done|done|cbn; lia].
    f_equal. unfold with_headers. cbn [set_headers headers header_count length fmap list_fmap]. unfold set_headers. cbn.
    replace (Z.to_nat (header_count r + 1)) with (S (Z.to_nat (header_count r))) by lia.
    rewrite (take_S_r _ _ (recorded moves base h)) by by apply list_lookup_insert_eq.
    rewrite take_insert_ge, drop_insert_lt by lia. rewrite <- (assoc_L (++)). cbn [app].
    f_equal; [|lia]. do 4 f_equal. lia.
Qed.
End header_callbacks.

(** C30: the headers of a request are recorded within the array, or the request
    is refused.  Between two headers of a request whose first [c] entries are
    filled, let the tokenizer report any headers, each key in one piece and each
    value in any number of pieces.  The callbacks never write behind the array
    and never fail an assertion.
    - When every key has at most 64 bytes, the first piece of every value fewer
      than 256, and at most 32 headers are filled in all, they succeed: the next
      entries hold where each key and each value begin and their whole lengths,
      and nothing else of the request changes.
    - Otherwise the first header that breaks a limit is refused, and parsing
      ends there: the headers before it are recorded, the count is theirs, or
      one more when it was the value that was refused, and nothing but the
      headers changes.
    Keys reported in several pieces are the case of [request_parsing_defects]. *)
Theorem headers_recorded data moves base r hs :
  between_headers r -> request_wf r -> Forall proper_header hs ->
  let c := Z.to_nat (header_count r) in
  (Forall header_fits hs -> (c + length hs <= 32)%nat ->
   exists r', run_callbacks data moves base r (hs ≫= header_events) = Ret (true, r') /\ request_wf r'
     /\ r' = set_headers r (headers r') (header_count r + Z.of_nat (length hs)) true
     /\ headers r' = take c (headers r) ++ (recorded moves base <$> hs) ++ drop (c + length hs) (headers r))
  /\ (forall before h after, hs = before ++ h :: after -> Forall header_fits before ->
       (c + length before = 32)%nat \/ (c + length before < 32)%nat /\ ~ header_fits h ->
       exists r', run_callbacks data moves base r (hs ≫= header_events) = Ret (false, r') /\ request_wf r'
         /\ r' = set_headers r (headers r') (header_count r') (last_was_value r')
         /\ take (c + length before) (headers r') = take c (headers r) ++ (recorded moves base <$> before)
         /\ header_count r' = header_count r + Z.of_nat (length before)
              + (if decide ((c + length before < 32)%nat /\ snd (rh_key h) <= 64) then 1 else 0)).
Proof.
  intros Hb W Hp c. pose proof (rwf_header_count r W) as Hc0. pose proof (rwf_headers r W) as Hh. unfold HTTP_MAX_HEADER_COUNT in *. split.
  - intros Hf Hn. destruct (with_headers_ok moves base r hs Hb W ltac:(lia)) as [_ W'].
    exists (with_headers moves base r hs). rewrite <- (app_nil_r (hs ≫= header_events)), headers_accepted by (done || lia). done.
  - intros before h after -> Hf Hbad. apply Forall_app in Hp as [Hpb _].
    destruct (with_headers_ok moves base r before Hb W ltac:(lia)) as [Hb' W'].
    rewrite bind_app, headers_accepted, bind_cons by (done || lia).
    destruct (header_refused data moves base h (after ≫= header_events) _ Hb' W') as (r' & -> & Wr & Er & Ec & Et);
      [cbn; destruct Hbad as [?|[_ ?]]; [left; lia|by right]|].
    exists r'. split; [done|]. split; [done|]. cbn in Ec, Et. split; [by rewrite Er at 1|]. split.
    + replace (c + length before)%nat with (Z.to_nat (header_count r + Z.of_nat (length before))) by lia.
      rewrite Et, (assoc_L (++)). apply take_app_length'. rewrite length_app, length_take, length_fmap. lia.
    + rewrite Ec. f_equal. apply decide_ext. lia.
Qed.

(** 31 entries filled: a header reported in two pieces takes the last one, and
    the next header is refused. *)
Lemma headers_recorded_witness :
  exists r',
    run_callbacks [] 0 100
      (mk_request [] (replicate 32 zero_header) 31 0 (replicate 16 (mk_param [] 0)) 0 None 0 0 100 true false true false 0)
      [EvHeaderField 0 6; EvHeaderValue 8 10; EvHeaderValue 18 20; EvHeaderField 40 4; EvHeaderValue 46 1] = Ret (false, r')
    /\ header_count r' = 32
    /\ take 32 (headers r') = replicate 31 zero_header ++ [mk_header (Some (0%nat, 100)) 6 (Some (0%nat, 108)) 30].
Proof.
  destruct (headers_recorded [] 0 100
    (mk_request [] (replicate 32 zero_header) 31 0 (replicate 16 (mk_param [] 0)) 0 None 0 0 100 true false true false 0)
    [mk_reported (0, 6) (8, 10) [(18, 20)]; mk_reported (40, 4) (46, 1) []]) as [_ H].
  - done.
  - split; cbn; unfold HTTP_MAX_HEADER_COUNT, HTTP_MAX_QUERY_PARAM_COUNT; try lia; try reflexivity. repeat (apply Forall_cons_2; [split; cbn; lia|]). apply Forall_nil_2.
  - repeat constructor; cbn; unfold INT_MAX; lia || done.
  - destruct (H [mk_reported (0, 6) (8, 10) [(18, 20)]] (mk_reported (40, 4) (46, 1) []) []) as (r' & E & _ & _ & Et & Ec).
    + done.
    + repeat constructor; cbn; lia.
    + left. done.
    + exists r'. split; [exact E|]. split; [exact Ec|exact Et].
Defined.

(** ** The URL callback against a reference *)

(** What lies before the first [c], and what follows it. *)
Fixpoint cut (c : Z) (l : list Z) : list Z * option (list Z) :=
  match l with
  | [] => ([], None)
  | x :: l => if x =? c then ([], Some l) else let '(p, q) := cut c l in (x :: p, q)
  end.

(** The pieces of a query string. *)
Fixpoint split_amp (l : list Z) : list (list Z) :=
  match l with
  | [] => [[]]
  | x :: l =>
    if x =? 38 then [] :: split_amp l
    else match split_amp l with p :: ps => (x :: p) :: ps | [] => [[x]] end
  end.

Definition stored_param (p : list Z) : http_query_param :=
  mk_param (take 31 p) (Z.of_nat (length (take 31 p))).

(** The request after a URL: path and query, cut to the sizes of the arrays. *)
Definition url_request (r : http_request) (url : list Z) : http_request :=
  let '(path, query) := cut 63 url in
  let r := set_url r (take 255 path) in
  match query with
  | None => r
  | Some q =>
    let ps := take HTTP_MAX_QUERY_PARAM_COUNT (split_amp q) in
    set_params r ((stored_param <$> ps) ++ drop (length ps) (query_params r)) (Z.of_nat (length ps))
  end.

(** Whether an ampersand comes before the next zero byte. *)
Fixpoint amp_follows (l : list Z) : bool :=
  match l with
  | [] => false
  | x :: l => if x =? 0 then false else (x =? 38) || amp_follows l
  end.

Lemma byte_at_app A x B : byte_at (A ++ x :: B) (Z.of_nat (length A)) = Ret x.
Proof.
  unfold byte_at. rewrite (proj2 (Z.ltb_ge _ _)) by lia. rewrite Nat2Z.id, list_lookup_middle by done. done.
Qed.

Lemma byte_at_end A : byte_at A (Z.of_nat (length A)) = Ret 0.
Proof.
  unfold byte_at. rewrite (proj2 (Z.ltb_ge _ _)) by lia. rewrite Nat2Z.id, lookup_ge_None_2 by lia.
  by rewrite Z.eqb_refl.
Qed.

Lemma memchr_cut c B : forall A C,
  memchr (A ++ B ++ C) (Z.of_nat (length A)) c (length B)
  = Ret (match cut c B with (p, Some _) => Some (Z.of_nat (length A + length p)) | (_, None) => None end).
Proof.
  induction B as [|x B IH]; intros A C; [done|]. cbn [memchr length cut app]. rewrite byte_at_app. ostep.
  destruct (x =? c); [do 3 f_equal; cbn; lia|]. specialize (IH (A ++ [x]) C). rewrite <- (assoc_L (++)) in IH.
  rewrite length_app in IH. cbn [app length] in IH. replace (Z.of_nat (length A) + 1) with (Z.of_nat (length A + 1)) by lia.
  rewrite IH. destruct (cut c B) as [p [q|]]; do 2 f_equal. cbn [length]. f_equal. lia.
Qed.

Fixpoint find_amp (l : list Z) : option nat :=
  match l with
  | [] => None
  | x :: l => if x =? 38 then Some 0%nat else if x =? 0 then None else S <$> find_amp l
  end.

Lemma strchr_from_ok S : forall A fuel,
  (length S < fuel)%nat ->
  strchr_from fuel (A ++ S) (Z.of_nat (length A)) 38 = Ret ((fun k => Z.of_nat (length A + k)) <$> find_amp S).
Proof.
  induction S as [|x S IH]; intros A [|fuel] Hf; try (cbn in Hf; lia); cbn [strchr_from find_amp].
  - rewrite app_nil_r, byte_at_end. done.
  - rewrite byte_at_app. ostep. destruct (x =? 38); [cbn; do 3 f_equal; lia|]. destruct (x =? 0); [done|].
    specialize (IH (A ++ [x]) fuel ltac:(cbn in Hf; lia)). rewrite <- (assoc_L (++)) in IH. cbn [app] in IH.
    rewrite length_app in IH. cbn [length] in IH.
    replace (Z.of_nat (length A) + 1) with (Z.of_nat (length A + 1)) by lia. rewrite IH.
    destruct (find_amp S); cbn; [|done]. do 3 f_equal. lia.
Qed.

Lemma strchr_ok A S :
  strchr (A ++ S) (Z.of_nat (length A)) 38 = Ret ((fun k => Z.of_nat (length A + k)) <$> find_amp S).
Proof. apply strchr_from_ok. rewrite length_app. lia. Qed.

Lemma find_amp_none q post : 38 ∉ q -> 0 ∉ q -> amp_follows post = false -> find_amp (q ++ post) = None.
Proof.
  intros H1 H0 Hp. induction q as [|x q IH]; cbn [app find_amp].
  - induction post as [|y post IH]; [done|]. cbn [amp_follows find_amp] in *.
    destruct (Z.eqb_spec y 38) as [->|]; [done|]. destruct (y =? 0); [done|]. by rewrite IH.
  - apply not_elem_of_cons in H1 as [? ?]. apply not_elem_of_cons in H0 as [? ?].
    rewrite !(proj2 (Z.eqb_neq _ _)) by congruence. by rewrite IH.
Qed.

Lemma find_amp_some p rest : 38 ∉ p -> 0 ∉ p -> find_amp (p ++ 38 :: rest) = Some (length p).
Proof.
  intros H1 H0. induction p as [|x p IH]; cbn [app find_amp length]; [done|].
  apply not_elem_of_cons in H1 as [? ?]. apply not_elem_of_cons in H0 as [? ?].
  rewrite !(proj2 (Z.eqb_neq _ _)) by congruence. by rewrite IH.
Qed.

Lemma split_amp_cases q :
  ((38 ∉ q) /\ split_amp q = [q]) \/ exists p q', q = p ++ 38 :: q' /\ (38 ∉ p) /\ split_amp q = p :: split_amp q'.
Proof.
  induction q as [|x q IH]; [left; by split; [apply not_elem_of_nil|]|]. cbn [split_amp].
  destruct (Z.eqb_spec x 38) as [->|Hx]; [right; exists [], q; by split; [|split; [apply not_elem_of_nil|]]|].
  destruct IH as [[Hn ->]|(p & q' & -> & Hn & ->)].
  - left. split; [by apply not_elem_of_cons|done].
  - right. exists (x :: p), q'. split; [done|]. split; [by apply not_elem_of_cons|done].
Qed.

(** Appending parameters while there is room. *)
Definition push_param (r : http_request) (p : list Z) : http_request :=
  set_params r (<[Z.to_nat (query_params_count r) := stored_param p]> (query_params r)) (query_params_count r + 1).

Fixpoint push_params (r : http_request) (ps : list (list Z)) : http_request :=
  match ps with
  | [] => r
  | p :: ps => if query_params_count r <? Z.of_nat HTTP_MAX_QUERY_PARAM_COUNT then push_params (push_param r p) ps else r
  end.

Lemma copy_from_ok A p C n :
  (n <= length p)%nat -> copy_from (A ++ p ++ C) (Z.of_nat (length A)) (Z.of_nat n) = Ret (take n p).
Proof.
  intros Hn. unfold copy_from. rewrite !length_app.
  replace ((0 <=? _) && _ && _) with true.
  - rewrite !Nat2Z.id, <- !(assoc_L (++)), drop_app_length, take_app_le by done. done.
  - symmetry. rewrite !andb_true_iff, !Z.leb_le. lia.
Qed.

Lemma capped_nat n limit : Z.of_nat n <= UINT64_MAX -> capped (Z.of_nat n) (Z.of_nat limit) = Z.of_nat (Nat.min n limit).
Proof.
  intros Hn. unfold capped. rewrite u64_small by lia. destruct (Z.ltb_spec (Z.of_nat n) (Z.of_nat limit)); lia.
Qed.

Lemma add_param_ok A p C r :
  Z.of_nat (length p) <= UINT64_MAX -> 0 <= query_params_count r < Z.of_nat (length (query_params r)) ->
  add_param (A ++ p ++ C) r (Z.of_nat (length A)) (Z.of_nat (length p)) = Ret (push_param r p).
Proof.
  intros Hp Hc. unfold add_param. change (HTTP_MAX_QUERY_PARAM_LENGTH - 1) with (Z.of_nat 31). rewrite capped_nat by done.
  rewrite copy_from_ok by lia. ostep. rewrite decide_True by done. unfold push_param, stored_param.
  replace (take (Nat.min (length p) 31) p) with (take 31 p); [by rewrite length_take, Nat.min_comm|].
  destruct (Nat.min_dec (length p) 31) as [E|E]; rewrite E; [|done]. rewrite !firstn_all2 by lia. done.
Qed.

(** The loop and the last parameter after it. *)
Lemma params_ok fuel : forall A q post r,
  0 ∉ q -> amp_follows post = false -> Z.of_nat (length q) <= UINT64_MAX ->
  length (query_params r) = HTTP_MAX_QUERY_PARAM_COUNT -> 0 <= query_params_count r <= Z.of_nat HTTP_MAX_QUERY_PARAM_COUNT ->
  Z.of_nat HTTP_MAX_QUERY_PARAM_COUNT - query_params_count r < Z.of_nat fuel ->
  ('(r, prev) ← split_params fuel (A ++ q ++ post) r (Z.of_nat (length A));
   if query_params_count r <? Z.of_nat HTTP_MAX_QUERY_PARAM_COUNT then
     r ← add_param (A ++ q ++ post) r prev (Z.of_nat (length A + length q) - prev); Ret (0, r)
   else Ret (0, r))
  = Ret (0, push_params r (split_amp q)).
Proof.
  induction fuel as [|fuel IH]; intros A q post r H0 Hp Hq Hl Hc Hf; [lia|]. cbn [split_params]. rewrite strchr_ok. ostep.
  destruct (split_amp_cases q) as [[Hn ->]|(p & q' & -> & Hn & ->)].
  - rewrite find_amp_none by done. cbn [fmap option_fmap option_map]. ostep. cbn [push_params].
    destruct (Z.ltb_spec (query_params_count r) (Z.of_nat HTTP_MAX_QUERY_PARAM_COUNT)); [|done].
    replace (Z.of_nat (length A + length q) - Z.of_nat (length A)) with (Z.of_nat (length q)) by lia.
    rewrite add_param_ok by lia. done.
  - assert (Hp0 : (0 ∉ p) /\ (0 ∉ q')).
    { rewrite elem_of_app, elem_of_cons in H0. by split; intros ?; apply H0; auto. }
    destruct Hp0 as [Hp0 Hq0]. rewrite length_app in Hq. cbn [length] in Hq.
    rewrite <- (assoc_L (++)). cbn [app]. rewrite find_amp_some by done. cbn [fmap option_fmap option_map].
    cbn [push_params]. destruct (Z.ltb_spec (query_params_count r) (Z.of_nat HTTP_MAX_QUERY_PARAM_COUNT)) as [Hlt|Hge].
    2: { ostep. rewrite (proj2 (Z.ltb_ge _ _)) by done. done. }
    replace (Z.of_nat (length A + length p) + 1 - Z.of_nat (length A) - 1) with (Z.of_nat (length p)) by lia.
    rewrite add_param_ok by lia. ostep.
    specialize (IH (A ++ p ++ [38]) q' post (push_param r p)).
    rewrite !length_app in IH. cbn [length] in IH. rewrite <- !(assoc_L (++)) in IH. cbn [app] in IH.
    replace (Z.of_nat (length A + length p) + 1) with (Z.of_nat (length A + (length p + 1))) by lia.
    rewrite length_app. cbn [length]. replace (length A + (length p + S (length q')))%nat
      with (length A + (length p + 1) + length q')%nat by lia.
    apply IH; try done; [lia | cbn; by rewrite length_insert | cbn; lia | cbn; lia].
Qed.

(** Pushing, in closed form. *)
Lemma push_params_closed ps : forall r (c : nat),
  query_params_count r = Z.of_nat c -> length (query_params r) = HTTP_MAX_QUERY_PARAM_COUNT ->
  (c <= HTTP_MAX_QUERY_PARAM_COUNT)%nat ->
  push_params r ps
  = let ps' := take (HTTP_MAX_QUERY_PARAM_COUNT - c) ps in
    set_params r (take c (query_params r) ++ (stored_param <$> ps') ++ drop (c + length ps') (query_params r))
      (Z.of_nat (c + length ps')).
Proof.
  induction ps as [|p ps IH]; intros r c Ec El Hc; cbn [push_params].
  - rewrite take_nil. cbn [length fmap list_fmap app]. rewrite Nat.add_0_r, take_drop, <- Ec. by destruct r.
  - destruct (Z.ltb_spec (query_params_count r) (Z.of_nat HTTP_MAX_QUERY_PARAM_COUNT)) as [Hlt|Hge].
    + replace (HTTP_MAX_QUERY_PARAM_COUNT - c)%nat with (S (HTTP_MAX_QUERY_PARAM_COUNT - S c)) by lia. cbn [take].
      rewrite (IH (push_param r p) (S c)); [|cbn; lia | cbn; by rewrite length_insert | lia].
      cbn -[take drop HTTP_MAX_QUERY_PARAM_COUNT]. rewrite Ec, Nat2Z.id. set (ps' := take _ ps).
      unfold push_param, set_params. cbn -[take drop HTTP_MAX_QUERY_PARAM_COUNT ps']. f_equal; [|lia].
      rewrite (take_S_r _ _ (stored_param p)) by (apply list_lookup_insert_eq; lia).
      rewrite take_insert_ge by lia. rewrite drop_insert_lt by lia. rewrite <- (assoc_L (++)). cbn [app].
      do 3 f_equal. f_equal. lia.
    + replace (HTTP_MAX_QUERY_PARAM_COUNT - c)%nat with 0%nat by lia. rewrite take_0. cbn [length fmap list_fmap app].
      rewrite Nat.add_0_r, take_drop, <- Ec. by destruct r.
Qed.

Lemma cut_cases c l :
  (cut c l = (l, None)) \/ exists p q, l = p ++ c :: q /\ cut c l = (p, Some q).
Proof.
  induction l as [|x l IH]; [by left|]. cbn [cut]. destruct (Z.eqb_spec x c) as [->|Hx]; [right; by exists [], l|].
  destruct IH as [->|(p & q & -> & ->)]; [by left|]. right. by exists (x :: p), q.
Qed.

(** Where the callback starts from. *)
Definition fresh_url (r : http_request) : Prop :=
  message_end r = false /\ header_end r = false /\ length (query_params r) = HTTP_MAX_QUERY_PARAM_COUNT
  /\ query_params_count r = 0.

Lemma on_url_ok A url post r :
  fresh_url r -> 0 ∉ url -> amp_follows post = false -> Z.of_nat (length url) <= UINT64_MAX ->
  http_parser_settings_on_url (A ++ url ++ post) r (Z.of_nat (length A)) (Z.of_nat (length url))
  = Ret (0, url_request r url).
Proof.
  intros (Hm & Hh & Hl & Hc) H0 Hp Hlen. unfold http_parser_settings_on_url. rewrite Hm, Hh. cbn [negb]. ostep.
  rewrite Nat2Z.id, memchr_cut. ostep. unfold url_request. change (HTTP_MAX_FULL_URL_LENGTH - 1) with (Z.of_nat 255).
  destruct (cut_cases 63 url) as [->|(p & q & -> & ->)].
  - rewrite capped_nat by done. rewrite copy_from_ok by lia. ostep. do 3 f_equal.
    destruct (Nat.min_dec (length url) 255) as [E|E]; rewrite E; [|done]. rewrite !firstn_all2 by lia. done.
  - rewrite length_app in Hlen. cbn [length] in Hlen.
    replace (Z.of_nat (length A + length p) - Z.of_nat (length A)) with (Z.of_nat (length p)) by lia.
    rewrite capped_nat by lia. rewrite <- (assoc_L (++)). cbn [app]. rewrite copy_from_ok by lia. ostep.
    replace (take (Nat.min (length p) 255) p) with (take 255 p).
    2: { destruct (Nat.min_dec (length p) 255) as [E|E]; rewrite E; [|done]. rewrite !firstn_all2 by lia. done. }
    pose proof (params_ok (S HTTP_MAX_QUERY_PARAM_COUNT) (A ++ p ++ [63]) q post (set_url r (take 255 p))) as Hok.
    rewrite !length_app in Hok. cbn [length] in Hok. rewrite <- !(assoc_L (++)) in Hok. cbn [app] in Hok.
    replace (Z.of_nat (length A + length p) + 1) with (Z.of_nat (length A + (length p + 1))) by lia.
    replace (Z.of_nat (length A) + Z.of_nat (length (p ++ 63 :: q))) with (Z.of_nat (length A + (length p + 1) + length q))
      by (rewrite length_app; cbn [length]; lia).
    rewrite Hok; [|rewrite elem_of_app, elem_of_cons in H0; intros ?; apply H0; auto | done | lia | done | cbn; lia | cbn; lia].
    do 2 f_equal. rewrite (push_params_closed _ _ 0) by (done || lia). cbn -[HTTP_MAX_QUERY_PARAM_COUNT split_amp take drop].
    by rewrite Nat.sub_0_r.
Qed.

(** C11: the URL callback is the reference.  For a URL that arrives in one piece,
    with no ampersand between it and the next zero byte of the buffer, the
    callback's pointer loops ([memchr], [strchr] and the length arithmetic)
    compute exactly: the path up to the first question mark, cut to 255 bytes,
    and the first 16 pieces of the query between ampersands, each cut to 31
    bytes. *)
Theorem on_url_spec A url post r :
  fresh_url r -> 0 ∉ url -> amp_follows post = false -> Z.of_nat (length url) <= UINT64_MAX ->
  http_parser_settings_on_url (A ++ url ++ post) r (Z.of_nat (length A)) (Z.of_nat (length url))
  = Ret (0, url_request r url).
Proof. apply on_url_ok. Qed.

Definition text (s : string) : list Z := bytes_of_string s.

Lemma on_url_spec_witness :
  http_parser_settings_on_url (text "GET " ++ text "/fib?10&x=2&" ++ text " HTTP/1.1") zero_request 4 12
  = Ret (0, url_request zero_request (text "/fib?10&x=2&"))
  /\ url_request zero_request (text "/fib?10&x=2&")
     = set_params (set_url zero_request (text "/fib"))
         ([mk_param (text "10") 2; mk_param (text "x=2") 3; mk_param [] 0] ++ replicate 13 (mk_param [] 0)) 3.
Proof.
  split; [|reflexivity].
  apply (on_url_spec (text "GET ") (text "/fib?10&x=2&") (text " HTTP/1.1")).
  - repeat split.
  - apply (bool_decide_unpack _). vm_compute. exact I.
  - reflexivity.
  - vm_compute. discriminate.
Defined.

(** ** The body across moves of the buffer *)

Section body.
Context {P : Type}.
Variable http_parser_execute : P -> list Z -> list parser_event * Z * bool * P.

(** The tokenizer expects [n] more bytes of a body of known length: it reports
    what it is given as one piece, and the end of the message with the last
    byte. *)
Variable in_body : P -> nat -> Prop.
Definition body_tokens : Prop :=
  forall p n l, in_body p n -> (0 < length l <= n)%nat ->
  exists p', in_body p' (n - length l)
    /\ http_parser_execute p l
       = (EvBody 0 (Z.of_nat (length l)) :: (if decide (length l = n) then [EvMessageComplete] else []),
          Z.of_nat (length l), true, p').

Implicit Types s : http_session P.
Implicit Types w : net P.

(** Headers of [h] bytes are complete, [n] bytes of the body were reported. *)
Record body_request (r : http_request) (h n : nat) (finished : bool) : Prop := {
  br_end : header_end r = true;
  br_message : message_end r = finished;
  br_body : body r = Some (Z.of_nat h) \/ (body r = None /\ n = 0%nat);
  br_read : body_length_read r = Z.of_nat n;
  br_length : 0 < body_length r;
}.

(** The buffer holds the headers and what arrived of the body, all of it parsed. *)
Record body_state s (prefix got : list Z) (finished : bool) : Prop := {
  bs_request : body_request (hs_request s) (length prefix) (length got) finished;
  bs_prefix : prefix <> [];
  bs_data : ab_data (request_buffer s) = prefix ++ got;
  bs_pending : ab_pending (request_buffer s) = [];
  bs_parsed : length_parsed (hs_request s) = Z.of_nat (length prefix + length got);
}.

Lemma swrap_nat n : Z.of_nat n <= INT_MAX -> swrap 32 (Z.of_nat n) = Z.of_nat n.
Proof. intros Hn. unfold INT_MAX in Hn. apply swrap_small; lia. Qed.

Lemma fix_body_ok r h n moved :
  (0 < h)%nat -> body_request r h n false ->
  body_request (fix_body r (Z.of_nat h) moved) h n false
  /\ length_parsed (fix_body r (Z.of_nat h) moved) = length_parsed r.
Proof.
  intros Hh B. unfold fix_body. destruct moved; [|done]. rewrite (proj2 (Z.eqb_neq _ 0)) by lia.
  split; [|done]. destruct B. split; cbn; auto.
Qed.

Lemma on_body_ok r h n len :
  body_request r h n false -> Z.of_nat (n + len) <= INT_MAX ->
  exists r', http_parser_settings_on_body r (Z.of_nat (h + n)) (Z.of_nat len) = Ret (0, r')
    /\ body_request r' h (n + len) false /\ body r' = Some (Z.of_nat h) /\ length_parsed r' = length_parsed r.
Proof.
  intros [H1 H2 H3 H4 H5] Hm. unfold http_parser_settings_on_body. rewrite H1, H2. cbn [negb]. ostep.
  destruct H3 as [H3|[H3 ->]]; rewrite H3.
  - rewrite (proj2 (Z.ltb_lt 0 _)) by lia. ostep. eexists. split; [done|].
    split; [split; cbn; auto | by cbn]. rewrite H4, <- Nat2Z.inj_add. by apply swrap_nat.
  - eexists. split; [done|]. rewrite Nat.add_0_r. split; [split; cbn; auto | by cbn]. by apply swrap_nat.
Qed.

(** The callbacks for a piece of the body. *)
Lemma body_callbacks_ok data moves r h n len m :
  body_request r h n false -> Z.of_nat (n + len) <= INT_MAX ->
  exists r', run_callbacks data moves (Z.of_nat (h + n)) r
      (EvBody 0 (Z.of_nat len) :: (if decide (len = m) then [EvMessageComplete] else [])) = Ret (true, r')
    /\ body_request r' h (n + len) (bool_decide (len = m)) /\ body r' = Some (Z.of_nat h)
    /\ length_parsed r' = length_parsed r.
Proof.
  intros B Hm. destruct (on_body_ok r h n len B Hm) as (r2 & E & B2 & Eb & El).
  cbn [run_callbacks run_callback]. rewrite Z.add_0_r, E. ostep. cbn [callback_ok]. change (0 =? 0) with true. cbv iota.
  destruct (decide (len = m)) as [En|En]; [rewrite bool_decide_true by done | rewrite bool_decide_false by done; by exists r2].
  destruct B2 as [H1 H2 H3 H4 H5]. cbn [run_callbacks run_callback]. unfold http_parser_settings_on_msg_end.
  rewrite H1, H2. cbn [negb]. ostep. eexists. split; [done|]. split; [by split | done].
Qed.

Lemma body_step s prefix got l n moved :
  body_tokens -> body_state s prefix got false -> in_body (hs_parser s) n -> (0 < length l <= n)%nat ->
  Z.of_nat (length prefix + length got + n) <= INT_MAX ->
  exists s1 s2, after_recv s l moved = Ret s1
    /\ http_session_parse http_parser_execute s1 (Z.of_nat (length l)) = Ret (Z.of_nat (length l), s2)
    /\ body_state s2 prefix (got ++ l) (bool_decide (length l = n)) /\ body (hs_request s2) = Some (Z.of_nat (length prefix))
    /\ in_body (hs_parser s2) (n - length l).
Proof.
  intros Htok [B Hpre Hd Hpd Hlp] Hin Hn Hmax.
  assert (Hp0 : (0 < length prefix)%nat) by (destruct prefix; [done | cbn; lia]).
  destruct (Htok (hs_parser s) n l Hin Hn) as (p' & Hin' & Eexec).
  assert (Eh : ab_size (request_buffer s) - body_length_read (hs_request s) = Z.of_nat (length prefix))
    by (unfold ab_size; rewrite Hd, (br_read _ _ _ _ B), length_app; lia).
  unfold after_recv. rewrite Eh, (br_end _ _ _ _ B). rewrite (proj2 (Z.ltb_lt _ _)) by lia. cbn [negb orb]. ostep.
  exists (set_hs_request (set_request_buffer s (auto_buf_flush (stream_write (request_buffer s) l) moved))
            (fix_body (hs_request s) (Z.of_nat (length prefix)) moved)).
  destruct (fix_body_ok _ _ _ moved Hp0 B) as [B1 Hlp1]. rewrite Hlp in Hlp1. set (r1 := fix_body _ _ _) in *.
  unfold http_session_parse. rewrite (proj2 (Z.ltb_lt 0 _)) by lia. ostep.
  cbn [set_hs_request set_request_buffer request_buffer hs_request hs_parser auto_buf_flush stream_write ab_data ab_pending].
  cbv zeta. rewrite Hlp1, Hd, Hpd. cbn [app].
  rewrite (proj2 (Z.ltb_ge _ 0)), (proj2 (Z.ltb_ge _ _)) by (rewrite ?length_app; lia). cbn [orb].
  rewrite Nat2Z.id, <- length_app, drop_app_length, Eexec, length_app.
  destruct (body_callbacks_ok ((prefix ++ got) ++ l) (ab_moves (auto_buf_flush (stream_write (request_buffer s) l) moved)) r1 _ _
              (length l) n B1 ltac:(lia)) as (r2 & Ecb & B2 & Eb2 & El2).
  rewrite Ecb. ostep. cbn [andb]. eexists. split; [done|]. split; [done|]. split; [|by cbn].
  split; cbn; try done.
  - rewrite length_app. by destruct B2.
  - rewrite Hd, Hpd. cbn [app]. by rewrite <- (assoc_L (++)).
  - rewrite El2, Hlp1, <- Nat2Z.inj_add, swrap_nat, length_app by lia. lia.
Qed.

(** C29: bodies are received whole.  Once the headers are parsed, the rest of the
    body may arrive in any number of pieces of any size, and the request buffer
    may be reallocated at any of them: with a tokenizer that reports body bytes
    as they come, [http_session_receive_request]'s loop ends with the request
    received, the body pointer at the first byte after the headers, and exactly
    the body's bytes there. *)
Theorem body_received a chunks : forall w s prefix got n,
  body_tokens -> n_sessions w !! a = Some s -> body_state s prefix got false -> in_body (hs_parser s) n ->
  Forall (fun c => fst c <> []) chunks -> length (concat (fst <$> chunks)) = n -> (0 < n)%nat ->
  Z.of_nat (length prefix + length got + n) <= INT_MAX ->
  exists w' s',
    receive_loop http_parser_execute a (listener_thread_register_http_session a)
      ((fun c => Received (fst c) (snd c)) <$> chunks) w = Ret (0, w')
    /\ n_sessions w' !! a = Some s' /\ hs_state s' = HTTP_SESSION_RECEIVED_REQUEST
    /\ body_state s' prefix (got ++ concat (fst <$> chunks)) true
    /\ body (hs_request s') = Some (Z.of_nat (length prefix)).
Proof.
  induction chunks as [|[l moved] chunks IH]; intros w s prefix got n Htok E Hs Hin Hne Hlen Hn Hmax; [cbn in Hlen; lia|].
  cbn [fmap list_fmap fst snd concat] in *. rewrite length_app in Hlen.
  apply Forall_cons_1 in Hne as [Hl Hne]. cbn in Hl.
  assert (Hl0 : (0 < length l)%nat) by (destruct l; [done | cbn; lia]).
  cbn [receive_loop]. rewrite (session_at_ok w a s E). ostep. rewrite (br_message _ _ _ _ (bs_request _ _ _ _ Hs)). cbn [tcp_session_recv stored_bytes].
  ostep. rewrite (proj2 (Z.eqb_neq _ (- EAGAIN))) by (unfold EAGAIN; lia). rewrite (proj2 (Z.leb_gt _ 0)) by lia.
  destruct (body_step s prefix got l n moved Htok Hs Hin ltac:(lia) Hmax) as (s1 & s2 & -> & E2 & Hs2 & Hb2 & Hin2). ostep.
  rewrite E2. ostep. rewrite (proj2 (Z.eqb_neq _ (-1))) by lia.
  destruct (decide (length l = n)) as [En|En].
  - rewrite bool_decide_true in Hs2 by done. destruct chunks as [|c chunks].
    2: { exfalso. apply Forall_cons_1 in Hne as [Hc _]. cbn in Hlen. rewrite length_app in Hlen.
         destruct (fst c); [done | cbn in Hlen; lia]. }
    cbn [fmap list_fmap receive_loop]. rewrite session_at_put. ostep. rewrite (br_message _ _ _ _ (bs_request _ _ _ _ Hs2)).
    eexists _, (set_hs_state s2 HTTP_SESSION_RECEIVED_REQUEST). split; [done|]. split; [apply lookup_insert_eq|].
    split; [done|]. cbn [fmap list_fmap concat]. rewrite app_nil_r. split; [|done]. by destruct Hs2.
  - rewrite bool_decide_false in Hs2 by done.
    destruct (IH (session_put w a s2) s2 prefix (got ++ l) (n - length l)%nat) as (w' & s' & E3 & E4 & E5 & E6 & E7);
      try done; [apply lookup_insert_eq | lia | lia | rewrite length_app; lia |].
    exists w', s'. rewrite (assoc_L (++)). done.
Qed.
End body.

(** A tokenizer that only knows bodies: its state is what is left of one. *)
Definition body_tokenizer (p : nat) (l : list Z) : list parser_event * Z * bool * nat :=
  (EvBody 0 (Z.of_nat (length l)) :: (if decide (length l = p) then [EvMessageComplete] else []),
   Z.of_nat (length l), true, (p - length l)%nat).

(** Headers of 4 bytes, 5 bytes of body to come. *)
Definition demo_receiving : http_session nat :=
  mk_session HTTP_SESSION_RECEIVING_REQUEST 9 5%nat
    (mk_request [] (replicate 32 zero_header) 0 HTTP_POST (replicate 16 (mk_param [] 0)) 0 None 5 0 4 true true true false 0)
    (mk_auto_buf true [1; 2; 3; 4] [] 0) (mk_auto_buf true [] [] 0) 0 zero_auto_buf 0 5 None 10 0 0 0.

Lemma body_received_witness :
  exists w' s',
    receive_loop body_tokenizer 950 (listener_thread_register_http_session 950)
      [Received [10; 11] true; Received [12; 13; 14] true] (mk_net {[ 950 := demo_receiving ]} ∅ [] []) = Ret (0, w')
    /\ n_sessions w' !! 950 = Some s' /\ hs_state s' = HTTP_SESSION_RECEIVED_REQUEST
    /\ body_state s' [1; 2; 3; 4] [10; 11; 12; 13; 14] true
    /\ body (hs_request s') = Some 4.
Proof.
  apply (body_received body_tokenizer (fun p n => p = n) 950 [([10; 11], true); ([12; 13; 14], true)]
           (mk_net {[ 950 := demo_receiving ]} ∅ [] []) demo_receiving [1; 2; 3; 4] [] 5); try reflexivity.
  - intros p n l -> Hl. exists (n - length l)%nat. done.
  - split; try reflexivity; [|discriminate]. split; try reflexivity. by right.
  - repeat constructor; discriminate.
  - apply Nat.leb_le. reflexivity.
  - vm_compute. discriminate.
Defined.

(** ** Where the callbacks go wrong *)

(** C39: requests that are not read in one piece, or that carry an ampersand
    after their URL, are misread.
    - A URL reported in two pieces is replaced by its second piece.
    - An ampersand in the headers or the body is taken for a separator of query
      parameters: the last parameter then has a negative length, and its copy
      reads 31 bytes from behind the ampersand, past the end of the buffer when
      fewer follow.
    - A header name reported in two pieces adds the length of the second to the
      entry after its own, and to memory behind the array for the 32nd.
    - When the buffer moves before the body has begun, the body pointer is set
      to the end of what was received, and stays there when the body comes. *)
Theorem request_parsing_defects :
  (forall A u1 u2 r, fresh_url r -> 0 ∉ u1 ++ u2 -> 63 ∉ u1 ++ u2 -> Z.of_nat (length (u1 ++ u2)) <= UINT64_MAX ->
     exists r1 r2,
       http_parser_settings_on_url (A ++ u1) r (Z.of_nat (length A)) (Z.of_nat (length u1)) = Ret (0, r1)
       /\ http_parser_settings_on_url (A ++ u1 ++ u2) r1 (Z.of_nat (length (A ++ u1))) (Z.of_nat (length u2)) = Ret (0, r2)
       /\ full_url r2 = take 255 u2)
  /\ (exists r, http_parser_settings_on_url (text "GET /f?x HTTP/1.1, A: b&cdefghijklmnopqrstuvwxyz0123456789") zero_request 4 4
                = Ret (0, r)
        /\ query_params_count r = 2
        /\ query_params r !! 0%nat = Some (mk_param (text "x HTTP/1.1, A: b") 16)
        /\ query_params r !! 1%nat = Some (mk_param (text "cdefghijklmnopqrstuvwxyz0123456") 31))
  /\ http_parser_settings_on_url (text "GET /f?x HTTP/1.1, A: b&c") zero_request 4 4 = Stop Undefined
  /\ (forall moves r at_ len, request_wf r -> message_end r = false -> header_end r = false ->
        last_was_value r = false -> 0 < header_count r ->
        if decide (header_count r = 32) then http_parser_settings_on_header_field moves r at_ len = Stop Undefined
        else forall rc r', http_parser_settings_on_header_field moves r at_ len = Ret (rc, r') ->
             headers r' !! Z.to_nat (header_count r - 1) = headers r !! Z.to_nat (header_count r - 1))
  /\ (forall (s : http_session nat) l at_ len, header_end (hs_request s) = false -> body (hs_request s) = None ->
        body_length_read (hs_request s) = 0 -> 0 < ab_size (request_buffer s) ->
        exists s1, after_recv s l true = Ret s1 /\ body (hs_request s1) = Some (ab_size (request_buffer s))
          /\ forall r rc r', header_end r = true -> body r = body (hs_request s1) ->
             http_parser_settings_on_body r at_ len = Ret (rc, r') -> body r' = Some (ab_size (request_buffer s))).
Proof.
  split; [|split; [|split; [|split]]].
  - intros A u1 u2 r Hr H0 H63 Hlen. rewrite length_app in Hlen.
    rewrite not_elem_of_app in H0, H63. destruct H0 as [? ?], H63 as [? ?].
    assert (C : forall u, 63 ∉ u -> cut 63 u = (u, None)).
    { intros u Hu. destruct (cut_cases 63 u) as [?|(p & q & -> & _)]; [done|]. destruct Hu. rewrite elem_of_app, elem_of_cons. auto. }
    pose proof (on_url_ok A u1 [] r Hr) as Hu1. rewrite app_nil_r in Hu1. rewrite Hu1 by (done || lia).
    pose proof (on_url_ok (A ++ u1) u2 [] (url_request r u1)) as Hu2. rewrite app_nil_r, <- (assoc_L (++)) in Hu2.
    exists (url_request r u1). eexists. split; [done|]. rewrite Hu2; [split; [done|] | | done | done | lia].
    + unfold url_request at 1. by rewrite C.
    + destruct Hr as (? & ? & ? & ?). unfold url_request. rewrite C by done. by repeat split.
  - eexists. split; [vm_compute; reflexivity|]. repeat split.
  - vm_compute. reflexivity.
  - intros moves r at_ len W Hm He Hv Hc. unfold http_parser_settings_on_header_field. rewrite Hm, He, Hv. cbn [negb]. ostep.
    rewrite (proj2 (Z.ltb_lt _ _)) by done. ostep. unfold header_at. rewrite (proj2 (Z.ltb_ge _ 0)) by lia.
    pose proof (rwf_headers r W) as Hh. pose proof (rwf_header_count r W) as Hcc. case_decide as Hd.
    + rewrite Hd, lookup_ge_None_2; [done|]. rewrite Hh. apply Nat.leb_le. reflexivity.
    + intros rc r'. destruct (headers r !! _); ostep; [|done]. destruct (_ <? _); intros [= _ <-]; [done|].
      cbn. rewrite list_lookup_insert_ne by lia. done.
  - intros s l at_ len He Hb Hr Hs. unfold after_recv. rewrite He, Hr, Z.sub_0_r. cbn [negb orb]. ostep. eexists. split; [done|].
    cbn. unfold ab_size in *. rewrite (proj2 (Z.eqb_neq _ 0)) by lia. split; [done|]. intros r rc r' He' Eb.
    unfold http_parser_settings_on_body. rewrite He', Eb. ostep. destruct (message_end r); cbn [negb]; ostep; [done|].
    destruct (0 <? body_length r); ostep; [|done]. intros [= _ <-]. by cbn.
Qed.
