(* ===== verification/ListenerSpec.v ===== *)
(** * ListenerSpec: routing, and what becomes of a request

    The router finds the first route that is a prefix of the URL.  A received
    request ends as an initialized sandbox in the global request scheduler, or
    is answered with an error; the composition of router, admissions control,
    sandbox allocation and scheduler in the default build. *)

From Stdlib Require Import ZArith Lia.
From stdpp Require Import strings.
From S2P Require Import Prelude Lock PriorityQueue PriorityQueueSpec PerfWindow Admissions WasmMemory Globals Module Runqueue.
From S2P Require Import Sandbox SandboxSpec SandboxSteps SchedulerSpec Lifecycle Http HttpSession Listener HttpSend.
Local Open Scope Z_scope.

(** ** Routing *)

Lemma strncmp_prefix path : forall url,
  0 ∉ path -> strncmp url path (length path) = 0 <-> path `prefix_of` url.
Proof.
  induction path as [|c path IH]; intros url H0; cbn [length strncmp].
  - split; [intros _; apply prefix_nil | done].
  - apply not_elem_of_cons in H0 as [Hc H0]. cbn [head default]. destruct url as [|x url]; cbn [head tail default from_option id].
    + rewrite (proj2 (Z.eqb_neq 0 c)) by done. split; [lia|]. by intros ?%prefix_nil_not.
    + destruct (Z.eqb_spec x c) as [->|Hx].
      * rewrite (proj2 (Z.eqb_neq c 0)) by congruence. rewrite IH by done.
        split; [apply prefix_cons | by intros ?%prefix_cons_inv_2].
      * split; [lia|]. by intros ?%prefix_cons_inv_1.
Qed.

Section routing.
Context {L : Type} `{SpinLock L}.
Implicit Types rs : list (route_t L).

(** The first route that is a prefix of the URL. *)
Fixpoint first_match rs (url : list Z) (i : nat) : option nat :=
  match rs with
  | [] => None
  | r :: rs => if decide (r_route r `prefix_of` url) then Some i else first_match rs url (S i)
  end.

Definition paths_ok rs : Prop := Forall (fun r => 0 ∉ r_route r) rs.

Lemma match_route_ok router rs url : forall n i,
  vec_repr router rs -> paths_ok rs -> (i + n = length rs)%nat ->
  match_route router url i n = Ret (first_match (drop i rs) url i).
Proof.
  induction n as [|n IH]; intros i R Hp Hi; cbn [match_route].
  - rewrite drop_ge by lia. done.
  - destruct (lookup_lt_is_Some_2 rs i ltac:(lia)) as [r Er]. rewrite (vec_read_ok router rs i r R Er). ostep.
    rewrite (drop_S _ _ _ Er). cbn [first_match].
    pose proof (strncmp_prefix (r_route r) url) as Hs.
    assert (H0 : 0 ∉ r_route r) by (eapply Forall_lookup_1 in Hp; eauto).
    case_decide as Hd.
    + rewrite (proj2 (Z.eqb_eq _ _)); [done|]. by apply Hs.
    + rewrite (proj2 (Z.eqb_neq _ _)); [by apply IH; [| |lia]|]. by rewrite Hs.
Qed.

Lemma match_route_first router rs url :
  vec_repr router rs -> paths_ok rs -> http_router_match_route router url = Ret (first_match rs url 0).
Proof.
  intros R Hp. unfold http_router_match_route. pose proof R as (-> & _).
  by rewrite (match_route_ok router rs url (length rs) 0).
Qed.

Lemma first_match_some rs url : forall i j,
  first_match rs url i = Some j -> (i <= j)%nat /\ exists r, rs !! (j - i)%nat = Some r /\ r_route r `prefix_of` url
    /\ forall k r', (k < j - i)%nat -> rs !! k = Some r' -> ~ r_route r' `prefix_of` url.
Proof.
  induction rs as [|r rs IH]; intros i j; cbn [first_match]; [done|]. case_decide as Hd.
  - intros [= <-]. split; [done|]. rewrite Nat.sub_diag. exists r. split; [done|]. split; [done|]. intros; lia.
  - intros (Hi & r' & Er & Hr & Hm)%IH. split; [lia|]. exists r'. replace (j - i)%nat with (S (j - S i)) by lia.
    split; [done|]. split; [done|]. intros [|k] r'' Hk E; [by injection E as <-|]. apply (Hm k r''); [lia | done].
Qed.

Lemma first_match_none rs url : forall i,
  first_match rs url i = None -> Forall (fun r => ~ r_route r `prefix_of` url) rs.
Proof.
  induction rs as [|r rs IH]; intros i; cbn [first_match]; [constructor|]. case_decide; [done|]. intros ?. constructor; eauto.
Qed.

(** A route that can be added: both strings are there. *)
Definition config_ok (config : route_config) (path : list Z) : Prop :=
  rc_route config = Some path /\ (0 ∉ path) /\ is_Some (rc_http_resp_content_type config).

Variable runtime_processor_speed_MHz : Z.
Variable info : admissions_info L.

Fixpoint add_routes (router : vec (route_t L)) (configs : list (route_config * Z)) : outcome (Z * vec (route_t L)) :=
  match configs with
  | [] => Ret (0, router)
  | (config, module) :: configs =>
    '(rc, router) ← http_router_add_route false runtime_processor_speed_MHz router config module info true;
    if negb (rc =? 0) then Ret (rc, router) else add_routes router configs
  end.

Lemma add_route_ok router rs config path module :
  vec_repr router rs -> config_ok config path ->
  exists router' r, http_router_add_route false runtime_processor_speed_MHz router config module info true = Ret (0, router')
    /\ vec_repr router' (rs ++ [r]) /\ r_route r = path /\ r_module r = module
    /\ relative_deadline (r_worker r) = u64 (rc_relative_deadline_us config * runtime_processor_speed_MHz).
Proof.
  intros R (Er & H0 & [ct Ec]). unfold http_router_add_route. rewrite Er, Ec. cbn [admissions_info_initialize]. ostep.
  match goal with |- context [vec_push router ?x true] => set (r := x) end.
  destruct (vec_push_ok router rs r R) as (router' & -> & R'). ostep. by exists router', r.
Qed.

Lemma add_routes_ok configs paths : forall router rs,
  vec_repr router rs -> Forall2 (fun c path => config_ok (fst c) path) configs paths ->
  exists router' rs', add_routes router configs = Ret (0, router') /\ vec_repr router' (rs ++ rs')
    /\ (r_route <$> rs') = paths /\ (r_module <$> rs') = (snd <$> configs).
Proof.
  revert paths. induction configs as [|[config module] configs IH]; intros paths router rs R Hc; inversion Hc as [|? path ? paths' Hok Hc']; subst.
  - exists router, []. by rewrite app_nil_r.
  - cbn [add_routes]. destruct (add_route_ok router rs config path module R Hok) as (router1 & r & -> & R1 & E1 & E2 & _). ostep.
    destruct (IH _ router1 (rs ++ [r]) R1 Hc') as (router2 & rs' & E3 & R2 & E4 & E5). cbn [negb Z.eqb].
    exists router2, (r :: rs'). rewrite <- (assoc_L (++)) in R2. split; [done|]. split; [done|].
    cbn. by rewrite E1, E2, E4, E5.
Qed.

(** C31: routing.  A router built from a list of route configurations matches a
    URL to the first configured route that is a prefix of it, with that route's
    module, and to none when no route is a prefix; neither building nor
    matching stops, whatever the capacity the router started with. *)
Theorem http_router_spec zeroed v capacity configs paths url :
  Forall2 (fun c path => config_ok (fst c) path) configs paths ->
  exists router,
    add_routes (http_router_init zeroed v capacity true) configs = Ret (0, router)
    /\ exists found, http_router_match_route router url = Ret found
      /\ match found with
         | Some i => exists path r, paths !! i = Some path /\ path `prefix_of` url
             /\ (forall k path', (k < i)%nat -> paths !! k = Some path' -> ~ path' `prefix_of` url)
             /\ vec_read router i = Ret r /\ r_route r = path /\ (snd <$> configs) !! i = Some (r_module r)
         | None => Forall (fun path => ~ path `prefix_of` url) paths
         end.
Proof.
  intros Hc. assert (R0 : vec_repr (http_router_init zeroed v capacity true) []).
  { unfold http_router_init. destruct (vec_init zeroed v capacity true) as [rc v'] eqn:E.
    apply (vec_init_repr zeroed v capacity true). rewrite E. unfold vec_init in E. case_decide; by injection E as <- <-. }
  destruct (add_routes_ok configs paths _ [] R0 Hc) as (router & rs & E1 & R & E2 & E3). cbn [app] in R.
  exists router. split; [done|]. exists (first_match rs url 0). split.
  { apply match_route_first; [done|]. assert (Hz : Forall (fun path => 0 ∉ path) (r_route <$> rs)).
    { rewrite E2. clear -Hc. induction Hc as [|? ? ? ? (_ & ? & _)]; by constructor. }
    exact (proj1 (Forall_fmap r_route (fun path => 0 ∉ path) rs) Hz). }
  destruct (first_match rs url 0) as [i|] eqn:E.
  - apply first_match_some in E as (_ & r & Er & Hr & Hm). rewrite Nat.sub_0_r in *. exists (r_route r), r.
    rewrite <- E2, <- E3, !list_lookup_fmap, Er. split; [done|]. split; [done|].
    split; [|by rewrite (vec_read_ok router rs i r R Er)].
    intros k path' Hk Ek. rewrite list_lookup_fmap in Ek. apply fmap_Some in Ek as (r' & Er' & ->). by apply (Hm k).
  - apply first_match_none in E. rewrite <- E2. apply Forall_fmap. exact E.
Qed.
End routing.

(** ** What becomes of a request *)

Section fate.
Context {P : Type}.
Variable http_parser_execute : P -> list Z -> list parser_event * Z * bool * P.
Context {L : Type} `{SpinLock L} {RQ : Type} `{RunqueueLaws RQ} {G : Type} `{GlobalSchedulerLaws G}.
Variable capacity : Z.
Variable worker_thread_idx : nat.
Variable routers : gmap Z (vec (route_t L)).
Variable route_address : Z -> nat -> Z.
Variable response_content_type : Z -> list Z.
Implicit Types s : http_session P.
Implicit Types st : lstate P L RQ G.
Abbreviation received := (on_client_request_received false capacity worker_thread_idx routers route_address
  response_content_type).
Abbreviation answer := (answer response_content_type).

(** Nothing of the response exists yet. *)
Definition unanswered s : Prop :=
  response_header s = mk_auto_buf true [] [] 0 /\ response_header_written s = 0
  /\ ab_data (response_body s) = [] /\ response_body_written s = 0 /\ 2 < hs_socket s.

(** The client of session [a] is being sent an answer without a body, or has got it. *)
Definition answered (a : Z) (status : string) (env : request_env) (w w' : net P) : Prop :=
  exists s, response s = status_lines status ++ crlf /\ position s = 0 /\ transmitted a s w (re_send env) w'.

Lemma set_error_header s code line now moved :
  unanswered s -> code <> 200 -> 200 <= code <= 599 -> http_header_build code = Ret line -> line <> [] ->
  exists s', http_session_set_response_header response_content_type (set_hs_state s HTTP_SESSION_EXECUTION_COMPLETE)
               code now moved = Ret s'
    /\ response s' = line ++ crlf /\ position s' = 0 /\ left_of Header s' /\ out_written Header s' < out_len Header s'
    /\ hs_state s' = HTTP_SESSION_EXECUTION_COMPLETE /\ hs_socket s' = hs_socket s.
Proof.
  intros (Hh & Hw & Hb & Hbw & Hs) Hc Hr El Hne. unfold http_session_set_response_header.
  rewrite (proj2 (Z.leb_le 200 code)), (proj2 (Z.leb_le code 599)) by lia. cbn [andb]. ostep. rewrite El. ostep.
  change (response_header (set_hs_state s _)) with (response_header s). rewrite Hh. unfold put_line at 1.
  cbn [ab_handle stream_write]. ostep. rewrite (proj2 (Z.eqb_neq code 200)) by done. ostep. unfold put_line.
  cbn [ab_handle stream_write]. ostep. eexists. split; [reflexivity|].
  unfold left_of, header_left, out_written, out_len, position, response, out_data, auto_buf_flush.
  cbn [response_header response_body response_header_written response_body_written set_response_takeoff_timestamp
       set_response_header set_hs_state stream_write ab_handle ab_data ab_pending hs_state hs_socket app].
  rewrite Hw, Hb, Hbw, app_nil_r. split; [done|].
  split; [change (response_header_written s + response_body_written s = 0); lia|]. split; [lia|]. split; [|done].
  rewrite length_app. cbn. lia.
Qed.

Lemma answer_ok a st s code status env :
  n_sessions (ls_net st) !! a = Some s -> a ∉ n_epoll (ls_net st) -> unanswered s -> code <> 200 -> 200 <= code <= 599 ->
  http_header_build code = Ret (status_lines status) ->
  exists w', answer a code env st = Ret (set_ls_net st w') /\ answered a status env (ls_net st) w'.
Proof.
  intros E Ha Hu Hc Hr El. unfold Listener.answer. rewrite (session_at_ok _ a s E). ostep.
  destruct (set_error_header s code (status_lines status) (re_takeoff env) (re_moved env) Hu Hc Hr El)
    as (s' & -> & Eres & Epos & Hl & Hlt & Hst & Hsock); [by destruct status|]. ostep.
  destruct (header_sending_ok a (session_put (ls_net st) a s') s' (re_send env) (re_sent env)) as (w' & -> & T);
    [apply lookup_insert_eq | done | rewrite Hsock; apply Hu | done | done | by left|]. ostep. exists w'. split; [done|].
  exists s'. split; [done|]. split; [done|]. destruct T as [s2 c W2 R2 S2 P2 C2 Pr2 | c k K C F].
  - rewrite after_put. cbn [session_put n_epoll]. by apply still_waiting.
  - cbn [session_put n_sessions n_epoll n_sent n_closed]. rewrite delete_insert_eq. by apply (finished a s' _ _ c k).
Qed.

Lemma answered_put a status env (w w' : net P) s : answered a status env (session_put w a s) w' -> answered a status env w w'.
Proof.
  intros (s' & E & Ep & T). exists s'. split; [done|]. split; [done|]. destruct T as [s2 c W2 R2 S2 P2 C2 Pr2 | c k K C F].
  - rewrite after_put. cbn [session_put n_epoll]. by apply still_waiting.
  - cbn [session_put n_sessions n_epoll n_sent n_closed]. rewrite delete_insert_eq. by apply (finished a s' _ _ c k).
Qed.

(** What holds when the listener takes up a complete request. *)
Record listener_ready st (a : Z) s (env : request_env) (rs : list (route_t L)) (l bag : list Z) : Prop := {
  lr_session : n_sessions (ls_net st) !! a = Some s;
  lr_state : hs_state s = HTTP_SESSION_RECEIVED_REQUEST;
  lr_epoll : a ∉ n_epoll (ls_net st);
  lr_unanswered : unanswered s;
  lr_router : exists router, routers !! hs_tenant s = Some router /\ vec_repr router rs /\ paths_ok rs;
  lr_wf : wf worker_thread_idx (ls_world st) l;
  lr_tenant : is_Some (tenants (ls_world st) !! hs_tenant s);
  lr_route i r : rs !! i = Some r ->
    is_Some (routes (ls_world st) !! route_address (hs_tenant s) i)
    /\ exists m, modules (ls_world st) !! r_module r = Some m /\ 0 <= reference_count m < UINT32_MAX;
  lr_global : gs_repr (sandbox_get_priority (ls_world st)) (ls_global st) bag;
  lr_room : gs_room (ls_global st);
  lr_bag q : q ∈ bag -> is_Some (sandboxes (ls_world st) !! q);
  lr_fresh p : re_sandbox env = Some p -> sandboxes (ls_world st) !! p = None;
  lr_clock : 0 < re_allocated env < re_initialized env /\ re_initialized env <= UINT64_MAX
    /\ 0 < re_locked env < re_unlocked env /\ re_unlocked env <= UINT64_MAX;
}.

(** The request is a sandbox that waits for a worker. *)
Definition queued_request st st' (a p : Z) (env : request_env) (route : Z) (l bag : list Z) : Prop :=
  exists s' sb rt bag', n_sessions (ls_net st') = <[a := s']> (n_sessions (ls_net st))
    /\ hs_state s' = HTTP_SESSION_EXECUTING /\ hs_route s' = Some route
    /\ wf worker_thread_idx (ls_world st') l
    /\ sandboxes (ls_world st') = <[p := sb]> (sandboxes (ls_world st)) /\ sb_state sb = SANDBOX_INITIALIZED
    /\ sb_http sb = Some a /\ routes (ls_world st) !! route = Some rt
    /\ absolute_deadline sb = u64 (re_allocated env + relative_deadline rt)
    /\ gs_repr (sandbox_get_priority (ls_world st')) (ls_global st') bag' /\ bag' ≡ₚ p :: bag.

Lemma free_initialized (w : world L RQ) p sb :
  sandboxes w !! p = Some sb -> sb_state sb = SANDBOX_INITIALIZED -> sandbox_free worker_thread_idx w p = Stop AssertFail.
Proof.
  intros E Hs. unfold sandbox_free. destruct (negb (bool_decide (current w = Some p))); ostep; [|done].
  rewrite (sb_get_ok _ _ _ E). ostep. by rewrite Hs.
Qed.

(** The sandbox and the queue, after the route is known. *)
Lemma queue_request_ok st a s env rs l bag i r p rt :
  listener_ready st a s env rs l bag -> rs !! i = Some r -> re_sandbox env = Some p ->
  routes (ls_world st) !! route_address (hs_tenant s) i = Some rt ->
  exists w1 sb added g1,
    sandbox_alloc (ls_world st) (Some p) (r_module r) a (route_address (hs_tenant s) i) (hs_tenant s) 1
      (re_allocated env) (re_initialized env) = Ret (Some p, w1)
    /\ wf worker_thread_idx w1 l /\ sandboxes w1 = <[p := sb]> (sandboxes (ls_world st))
    /\ sb_state sb = SANDBOX_INITIALIZED /\ sb_http sb = Some a
    /\ absolute_deadline sb = u64 (re_allocated env + relative_deadline rt)
    /\ global_request_scheduler_add (sandbox_get_priority w1) true (re_locked env) (re_unlocked env) (ls_global st) p
       = Ret (added, g1)
    /\ match added with
       | Some _ => exists bag', gs_repr (sandbox_get_priority w1) g1 bag' /\ bag' ≡ₚ p :: bag
       | None => True
       end.
Proof.
  intros R Er Ep Ert. destruct (lr_route _ _ _ _ _ _ _ R i r Er) as (_ & m & Em & Hm).
  pose proof (lr_fresh _ _ _ _ _ _ _ R p Ep) as Hfresh. pose proof (lr_wf _ _ _ _ _ _ _ R) as W.
  destruct (lr_clock _ _ _ _ _ _ _ R) as (Hc1 & Hc2 & Hc3 & Hc4).
  destruct (sandbox_alloc_ok worker_thread_idx (ls_world st) l p (r_module r) m a (route_address (hs_tenant s) i) rt
              (hs_tenant s) 1 (re_allocated env) (re_initialized env) W Hfresh Em Hm Ert
              (lr_tenant _ _ _ _ _ _ _ R) ltac:(done) Hc1 Hc2)
    as (_ & w1 & sb & m' & Ea & W1 & Esb & Hst & Hhttp & Hdl & _).
  destruct (gs_add_ok (sandbox_get_priority w1) (re_locked env) (re_unlocked env) (ls_global st) bag p)
    as (added & g1 & bag' & Eadd & Hrep & Hm'); [by eapply wf_deadlines | | apply R | done | done |].
  { eapply gs_repr_ext; [|apply (lr_global _ _ _ _ _ _ _ R)]. intros q Hq.
    destruct (lr_bag _ _ _ _ _ _ _ R q Hq) as [sq Eq]. unfold sandbox_get_priority. rewrite Esb, lookup_insert_ne; [done|].
    intros <-. by rewrite Hfresh in Eq. }
  exists w1, sb, added, g1. do 7 (split; [done|]). destruct added as [p'|]; [|done]. destruct Hm' as [_ ?]. by exists bag'.
Qed.

Lemma set_admitted_same (w : world L RQ) : set_admitted w (admitted w) = w.
Proof. by destruct w. Qed.

Lemma request_fate_ok st a s env rs l bag :
  listener_ready st a s env rs l bag ->
  match first_match rs (full_url (hs_request s)) 0 with
  | None => exists w', received a env st = Ret (set_ls_net st w') /\ answered a "404 Not Found" env (ls_net st) w'
  | Some i =>
    match re_sandbox env with
    | None => exists w', received a env st = Ret (set_ls_net st w')
        /\ answered a "500 Internal Server Error" env (ls_net st) w'
    | Some p => exists (w1 : world L RQ) added g1,
        global_request_scheduler_add (sandbox_get_priority w1) true (re_locked env) (re_unlocked env) (ls_global st) p
          = Ret (added, g1)
        /\ match added with
           | Some _ => exists st', received a env st = Ret st'
               /\ queued_request st st' a p env (route_address (hs_tenant s) i) l bag
           | None => received a env st = Stop AssertFail
           end
    end
  end.
Proof.
  intros R. pose proof (lr_session _ _ _ _ _ _ _ R) as E. destruct (lr_router _ _ _ _ _ _ _ R) as (router & Erouter & Rv & Hp).
  unfold on_client_request_received. rewrite (session_at_ok _ a s E). ostep.
  rewrite (bool_decide_true (hs_state s = _)) by apply R. ostep.
  set (s1 := set_request_downloaded_timestamp s (re_downloaded env)).
  change (hs_tenant s1) with (hs_tenant s). rewrite Erouter. ostep. change (hs_request s1) with (hs_request s).
  rewrite (match_route_first router rs) by done. ostep.
  destruct (first_match rs (full_url (hs_request s)) 0) as [i|] eqn:Em.
  2: { edestruct (answer_ok a (set_ls_net st (session_put (ls_net st) a s1)) s1 404 "404 Not Found" env) as (w' & Ew & Hans);
         [apply lookup_insert_eq | apply R | apply R | done | done | reflexivity |].
       exists w'. rewrite Ew. split; [done|]. exact (answered_put _ _ _ _ _ _ Hans). }
  apply first_match_some in Em as (_ & r & Er & _ & _). rewrite Nat.sub_0_r in Er.
  rewrite (vec_read_ok router rs i r Rv Er). ostep.
  destruct (lr_route _ _ _ _ _ _ _ R i r Er) as ([rt Ert] & _).
  unfold route_at. cbn [set_ls_net ls_world]. rewrite Ert. ostep. cbn [admissions_control_decide]. ostep.
  cbn [ls_net ls_world ls_global set_ls_net]. rewrite set_admitted_same. change (1 =? 0) with false. cbv iota.
  set (s2 := set_hs_state _ HTTP_SESSION_EXECUTING).
  destruct (re_sandbox env) as [p|] eqn:Ep.
  - destruct (queue_request_ok st a s env rs l bag i r p rt R Er Ep Ert)
      as (w1 & sb & added & g1 & Ea & W1 & Esb & Hst & Hhttp & Hdl & Eadd & Hadd).
    change (hs_tenant (set_hs_route s1 _)) with (hs_tenant s). rewrite Ea. ostep. cbn [ls_net ls_world ls_global]. exists w1, added, g1. split; [done|]. rewrite Eadd. ostep.
    destruct added as [p'|].
    + destruct Hadd as (bag' & Hrep & Hperm). eexists. split; [done|]. exists s2, sb, rt, bag'. cbn.
      rewrite !insert_insert_eq. done.
    + cbn [ls_world]. rewrite (free_initialized w1 p sb); [done | rewrite Esb; apply lookup_insert_eq | done].
  - cbn [sandbox_alloc]. ostep.
    match goal with |- context [answer a 500 env ?st0] => set (st1 := st0) end.
    edestruct (answer_ok a st1 s2 500 "500 Internal Server Error" env) as (w' & Ew & Hans);
      [apply lookup_insert_eq | apply R | apply R | done | done | reflexivity |].
    exists w'. rewrite Ew. split; [done|].
    exact (answered_put _ _ _ _ _ _ (answered_put _ _ _ _ _ _ (answered_put _ _ _ _ _ _ Hans))).
Qed.

(** C6: what becomes of a request (default build).  When the listener takes up a
    complete request, it is answered with 404 if no route of its tenant is a
    prefix of the URL, and with 500 if no memory is left for a sandbox, without
    any other change.  Otherwise a new sandbox of the first matching route holds
    the session, is initialized with the route's deadline, and is offered to the
    global request scheduler; if it is taken, it is in the scheduler's queue and
    the worker invariant holds.  If the scheduler is full, the listener does not
    answer 429 as intended: it frees the initialized sandbox, and the assertion
    of [sandbox_free] stops the process. *)
Theorem request_fate st a s env rs l bag :
  listener_ready st a s env rs l bag ->
  match first_match rs (full_url (hs_request s)) 0 with
  | None => exists w', received a env st = Ret (set_ls_net st w') /\ answered a "404 Not Found" env (ls_net st) w'
  | Some i =>
    match re_sandbox env with
    | None => exists w', received a env st = Ret (set_ls_net st w')
        /\ answered a "500 Internal Server Error" env (ls_net st) w'
    | Some p => exists (w1 : world L RQ) added g1,
        global_request_scheduler_add (sandbox_get_priority w1) true (re_locked env) (re_unlocked env) (ls_global st) p
          = Ret (added, g1)
        /\ match added with
           | Some _ => exists st', received a env st = Ret st'
               /\ queued_request st st' a p env (route_address (hs_tenant s) i) l bag
           | None => received a env st = Stop AssertFail
           end
    end
  end.
Proof. apply request_fate_ok. Qed.
End fate.

(** A tenant with the routes "/fib" and "/", a request for "/fib". *)
Definition demo_route (path : string) : route_t bool :=
  mk_route_t (bytes_of_string path) 3 990 (bytes_of_string "text/plain") (mk_route 990 demo_info).

Definition demo_router : vec (route_t bool) :=
  mk_vec 2 2 (Some [Some (demo_route "/fib"); Some (demo_route "/")]).

Definition demo_request_session : http_session unit :=
  mk_session HTTP_SESSION_RECEIVED_REQUEST 9 tt (set_url zero_request (bytes_of_string "/fib")) (mk_auto_buf true [] [] 0)
    (mk_auto_buf true [] [] 0) 0 zero_auto_buf 0 5 None 10 0 0 0.

Definition demo_request_env : request_env :=
  mk_request_env None (true, true) [] [Sent 500] (Some 300) (false, false) 0 19 20 25 30 31 32 40.

Definition demo_lstate (g : priority_queue bool Z) : lstate unit bool runqueue_list (priority_queue bool Z) :=
  mk_lstate (mk_net {[ 950 := demo_request_session ]} ∅ [] []) demo_world g.

Definition demo_received (g : priority_queue bool Z) :=
  on_client_request_received false 0 0 {[ 5 := demo_router ]} (fun _ _ => 7) demo_content_type 950 demo_request_env (demo_lstate g).

Lemma demo_listener_ready :
  listener_ready 0 {[ 5 := demo_router ]} (fun _ _ => 7) (demo_lstate (priority_queue_initialize 2 true)) 950
    demo_request_session demo_request_env [demo_route "/fib"; demo_route "/"] [100] [].
Proof.
  split.
  1, 2: reflexivity.
  - apply not_elem_of_empty.
  - repeat split.
  - exists demo_router. split; [reflexivity|]. split; [by split; [|split; [cbn; lia|]]|].
    repeat constructor; apply (bool_decide_unpack _); vm_compute; exact I.
  - apply demo_world_wf.
  - by exists (mk_tenant 0 0 0).
  - intros i r Ei. split; [by exists (mk_route 990 demo_info)|]. exists demo_module.
    split; [|vm_compute; split; [discriminate | reflexivity]]. destruct i as [|[|i]]; cbn in Ei; [by injection Ei as <-.. | by destruct i].
  - split; [apply initialize_ok | reflexivity].
  - done.
  - intros q Hq. by apply not_elem_of_nil in Hq.
  - intros p [= <-]. reflexivity.
  - vm_compute. repeat split; discriminate.
Qed.

(** Queued; and with a queue of one element that is full, stopped. *)
Lemma request_fate_witness :
  (exists st', demo_received (priority_queue_initialize 2 true) = Ret st'
     /\ queued_request 0 (demo_lstate (priority_queue_initialize 2 true)) st' 950 300 demo_request_env 7 [100] [])
  /\ demo_received (mk_pq true (mk_lock 0 0 false) 1000 1 1 [None; Some 100]) = Stop AssertFail.
Proof.
  split; [|vm_compute; reflexivity].
  destruct (request_fate 0 0 {[ 5 := demo_router ]} (fun _ _ => 7) demo_content_type
              (demo_lstate (priority_queue_initialize 2 true)) 950 demo_request_session demo_request_env
              [demo_route "/fib"; demo_route "/"] [100] [] demo_listener_ready) as (w1 & added & g1 & _ & Hadd).
  destruct added as [p|]; [exact Hadd|]. exfalso. revert Hadd.
  change (demo_received (priority_queue_initialize 2 true) = Stop AssertFail -> False). vm_compute. discriminate.
Defined.

Lemma http_router_spec_witness :
  exists router,
    add_routes 1 demo_info (http_router_init (demo_route "") (mk_vec 0 0 None) 1 true)
      [(mk_route_config (Some (bytes_of_string "/fib")) None 0 0 990 (Some []), 3);
       (mk_route_config (Some (bytes_of_string "/")) None 0 0 990 (Some []), 4)] = Ret (0, router)
    /\ http_router_match_route router (bytes_of_string "/f") = Ret (Some 1%nat).
Proof.
  destruct (http_router_spec 1 demo_info (demo_route "") (mk_vec 0 0 None) 1
      [(mk_route_config (Some (bytes_of_string "/fib")) None 0 0 990 (Some []), 3);
       (mk_route_config (Some (bytes_of_string "/")) None 0 0 990 (Some []), 4)]
      [bytes_of_string "/fib"; bytes_of_string "/"] (bytes_of_string "/f")) as (router & E & _).
  { repeat constructor; try (by eexists); apply (bool_decide_unpack _); vm_compute; exact I. }
  exists router. split; [exact E|]. revert E. vm_compute. intros [= <-]. reflexivity.
Defined.
