(* ===== verification/Wasi.v ===== *)
(** * Wasi: the system interface of a sandbox

    [runtime/include/wasi.h], [runtime/src/libc/wasi_impl_serverless.c] and the
    WASI and scratch-storage functions of [runtime/src/sledge_abi.c]: a sandbox
    gets the query parameters of its request as arguments, reads the request's
    body as standard input, writes the response's body as standard output, and
    shares the scratch storage of its tenant.

    A call enters the runtime ([sandbox_syscall]), works on the sandbox's linear
    memory and on its HTTP session, and goes back ([sandbox_return]).  A host
    pointer into linear memory is its offset.  What the kernel and the allocator
    answer is an argument. *)

From Stdlib Require Import ZArith Lia.
From S2P Require Import Prelude Lock Bytes WasmMemory Map WasiSerdes Globals Module Runqueue Sandbox Http HttpSession.
Local Open Scope Z_scope.

(** ** Error codes *)

Definition __WASI_ERRNO_2BIG : Z := 1.
Definition __WASI_ERRNO_BADF : Z := 8.
Definition __WASI_ERRNO_FBIG : Z := 22.
Definition __WASI_ERRNO_INVAL : Z := 28.
Definition __WASI_ERRNO_NOTSUP : Z := 58.

(** The Linux error numbers, in the order of the cases, with the WASI code of
    the same name. *)
Definition errno_table : list (Z * Z) :=
  [(0, 0); (7, 1); (13, 2); (98, 3); (99, 4); (97, 5); (11, 6); (114, 7); (9, 8); (74, 9); (16, 10); (125, 11);
   (10, 12); (103, 13); (111, 14); (104, 15); (35, 16); (89, 17); (33, 18); (122, 19); (17, 20); (14, 21); (27, 22);
   (113, 23); (43, 24); (84, 25); (115, 26); (4, 27); (22, 28); (5, 29); (106, 30); (21, 31); (40, 32); (24, 33);
   (31, 34); (90, 35); (72, 36); (36, 37); (100, 38); (102, 39); (101, 40); (23, 41); (105, 42); (19, 43); (2, 44);
   (8, 45); (37, 46); (67, 47); (12, 48); (42, 49); (92, 50); (28, 51); (38, 52); (107, 53); (20, 54); (39, 55);
   (131, 56); (88, 57); (95, 58); (25, 59); (6, 60); (75, 61); (130, 62); (1, 63); (32, 64); (71, 65); (93, 66);
   (91, 67); (34, 68); (30, 69); (29, 70); (3, 71); (116, 72); (110, 73); (26, 74); (18, 75)].

(** An unknown error runs into [assert(0)]. *)
Definition wasi_fromerrno (errno_ : Z) : outcome Z :=
  match list_find (fun e => fst e = errno_) errno_table with
  | Some (_, (_, code)) => Ret code
  | None => Stop AssertFail
  end.

Definition wasi_unsupported_syscall : Z := __WASI_ERRNO_NOTSUP.

(** ** Contexts *)

(** [const char **] with C strings as lists of bytes; [envp] ends at its NULL. *)
Record wasi_options_t := mk_wasi_options {
  opt_argc : Z;
  opt_argv : option (list (list Z));
  opt_envp : option (list (list Z));
}.

(** Pointers into [argv_buf] and [env_buf] are offsets. *)
Record wasi_context_t := mk_wasi_context {
  argc : Z;
  argv : option (list Z);
  argv_buf : option (list Z);
  argv_buf_size : Z;
  envc : Z;
  env : option (list Z);
  env_buf : option (list Z);
  env_buf_size : Z;
}.

Definition wasi_options_init : wasi_options_t := mk_wasi_options 0 None None.

(** The offset of each string in the buffer, and the end. *)
Fixpoint string_offsets (strings : list (list Z)) (off : Z) : list Z * Z :=
  match strings with
  | [] => ([], off)
  | s :: strings =>
    let '(offs, size) := string_offsets strings (u32 (off + Z.of_nat (length s) + 1)) in
    (off :: offs, size)
  end.

(** A store of [l] at [buf[off]]; out of range has no meaning. *)
Definition buf_write (buf : list Z) (off : Z) (l : list Z) : outcome (list Z) :=
  if (0 <=? off) && (off + Z.of_nat (length l) <=? Z.of_nat (length buf))
  then Ret (take (Z.to_nat off) buf ++ l ++ drop (Z.to_nat off + length l) buf) else Stop Undefined.

(** [strncpy] with the string's length and its terminator. *)
Fixpoint copy_strings (buf : list Z) (strings : list (list Z)) (offs : list Z) : outcome (list Z) :=
  match strings, offs with
  | s :: strings, off :: offs => buf ← buf_write buf off (s ++ [0]); copy_strings buf strings offs
  | _, _ => Ret buf
  end.

(** Which of the five [calloc]s succeed: the context, the argument vector and its
    strings, the environment and its strings. *)
Record context_alloc := mk_context_alloc {
  ca_context : bool;
  ca_argv : bool;
  ca_argv_buf : bool;
  ca_env : bool;
  ca_env_buf : bool;
}.

Definition all_allocated : context_alloc := mk_context_alloc true true true true true.

(** The context is written to without a look at the pointer; the other failures
    end the process with [exit]. *)
Definition wasi_context_init (options : wasi_options_t) (alloc : context_alloc) : outcome wasi_context_t :=
  '(c_argc, c_argv, c_buf, c_size) ←
    (if 0 <? opt_argc options then
       strings ← match opt_argv options with Some a => Ret a | None => Stop AssertFail end;
       if Z.of_nat (length strings) <? opt_argc options then Stop Undefined else
       let strings := take (Z.to_nat (opt_argc options)) strings in
       let '(offs, size) := string_offsets strings 0 in
       if negb (ca_context alloc) then Stop Undefined else
       if negb (ca_argv alloc) then Stop Panic else
       if negb (ca_argv_buf alloc) then Stop Panic else
       buf ← copy_strings (replicate (Z.to_nat size) 0) strings offs;
       Ret (opt_argc options, Some offs, Some buf, size)
     else if negb (ca_context alloc) then Stop Undefined else Ret (0, None, None, 0));
  let strings := default [] (opt_envp options) in
  let '(offs, size) := string_offsets strings 0 in
  let c_envc := u32 (Z.of_nat (length strings)) in
  if 0 <? c_envc then
    if negb (ca_env alloc) then Stop Panic else
    if negb (ca_env_buf alloc) then Stop Panic else
    buf ← copy_strings (replicate (Z.to_nat size) 0) strings offs;
    Ret (mk_wasi_context c_argc c_argv c_buf c_size c_envc (Some offs) (Some buf) size)
  else Ret (mk_wasi_context c_argc c_argv c_buf c_size c_envc None None 0).

(** The arguments [current_sandbox_init] passes: the module's path and the
    values of the query parameters. *)
Definition sandbox_arguments (path : list Z) (r : http_request) : outcome wasi_options_t :=
  if decide (0 <= query_params_count r <= Z.of_nat (length (query_params r))) then
    let options := wasi_options_init in
    Ret (mk_wasi_options (query_params_count r + 1)
           (Some (path :: (qp_value <$> take (Z.to_nat (query_params_count r)) (query_params r)))) (opt_envp options))
  else Stop Undefined.

(** ** The implementation behind the calls *)

(** [argv] is a host array: the pointers are returned, as offsets into linear
    memory; [argv_buf] is linear memory at [buf]. *)
Definition wasi_snapshot_preview1_backing_args_get (context : wasi_context_t) (m : wasm_memory) (buf : Z)
  : outcome (Z * list Z * wasm_memory) :=
  m ← (if 0 <? argc context then
         bytes ← deref (argv_buf context);
         mem_store m buf (take (Z.to_nat (argv_buf_size context)) bytes)
       else Ret m);
  offs ← (if 0 <? argc context then deref (argv context) else Ret []);
  Ret (__WASI_ERRNO_SUCCESS, (fun off => buf + off) <$> take (Z.to_nat (argc context)) offs, m).

(** The two results, stored through the pointers. *)
Definition wasi_snapshot_preview1_backing_args_sizes_get (context : wasi_context_t) (m : wasm_memory)
  (argc_retptr argv_buf_len_retptr : Z) : outcome (Z * wasm_memory) :=
  m ← mem_store m argc_retptr (le_split 4 (argc context));
  m ← mem_store m argv_buf_len_retptr (le_split 4 (argv_buf_size context));
  Ret (__WASI_ERRNO_SUCCESS, m).

(** What [clock_gettime] returns: seconds and nanoseconds, or [errno]. *)
Inductive clock_result := Clock (tv_sec tv_nsec : Z) | ClockErrno (e : positive).

Definition wasi_snapshot_preview1_backing_clock_time_get (m : wasm_memory) (clock : clock_result) (time_retptr : Z)
  : outcome (Z * wasm_memory) :=
  match clock with
  | ClockErrno e => rc ← wasi_fromerrno (Z.pos e); Ret (rc, m)
  | Clock tv_sec tv_nsec =>
    m ← mem_store m time_retptr (le_split 8 (u64 (u64 (u64 tv_sec * 1000000000) + u64 tv_nsec)));
    Ret (__WASI_ERRNO_SUCCESS, m)
  end.

(** The pointers are into the host's own [env_buf], returned as its offsets. *)
Definition wasi_snapshot_preview1_backing_environ_get (context : wasi_context_t) (m : wasm_memory) (buf : Z)
  : outcome (Z * list Z * wasm_memory) :=
  offs ← (if 0 <? envc context then deref (env context) else Ret []);
  bytes ← (if 0 <? env_buf_size context then deref (env_buf context) else Ret []);
  m ← mem_store m buf (take (Z.to_nat (env_buf_size context)) bytes);
  Ret (__WASI_ERRNO_SUCCESS, take (Z.to_nat (envc context)) offs, m).

Definition wasi_snapshot_preview1_backing_environ_sizes_get (context : wasi_context_t) (m : wasm_memory)
  (environ_len environ_buf_len : Z) : outcome (Z * wasm_memory) :=
  m ← mem_store m environ_len (le_split 4 (envc context));
  m ← mem_store m environ_buf_len (le_split 4 (env_buf_size context));
  Ret (__WASI_ERRNO_SUCCESS, m).

Definition STDIN_FILENO : Z := 0.
Definition STDOUT_FILENO : Z := 1.
Definition STDERR_FILENO : Z := 2.

Definition set_cursor (r : http_request) (n : Z) : http_request := set_body r (body r) (body_length_read r) n.

(** The loop of [fd_read]: [data] is the request buffer. *)
Fixpoint read_iovs (data : list Z) (m : wasm_memory) (r : http_request) (iovs : list __wasi_iovec_t)
  : outcome (wasm_memory * http_request) :=
  match iovs with
  | [] => Ret (m, r)
  | iov :: iovs =>
    let bytes_to_read := body_length r - cursor r in
    if bytes_to_read =? 0 then Ret (m, r) else
    let amount_to_copy := if u32 bytes_to_read <? iov_len iov then bytes_to_read else swrap 32 (iov_len iov) in
    b ← deref (body r);
    dest ← deref (iov_buf iov);
    l ← copy_from data (b + cursor r) amount_to_copy;
    m ← mem_store m dest l;
    read_iovs data m (set_cursor r (swrap 32 (cursor r + amount_to_copy))) iovs
  end.

Section backing.
Context {P : Type}.
Implicit Types n : net P.

(** [http]: [sandbox->http]. *)
Definition wasi_snapshot_preview1_backing_fd_read n (http : option Z) (m : wasm_memory) (fd : Z)
  (iovs : list __wasi_iovec_t) (nread_retptr : Z) : outcome (Z * wasm_memory * net P) :=
  if fd =? STDIN_FILENO then
    a ← deref http;
    hs ← session_at n a;
    let r := hs_request hs in
    assert (0 <=? body_length r) ;;
    '(m, r') ← read_iovs (ab_data (request_buffer hs)) m r iovs;
    m ← mem_store m nread_retptr (le_split 4 (cursor r' - cursor r));
    Ret (__WASI_ERRNO_SUCCESS, m, session_put n a (set_hs_request hs r'))
  else Ret (wasi_unsupported_syscall, m, n).

(** [fwrite] of [len] bytes of linear memory at [buf] to a stream that takes at most
    [room] of them; the result is the number it took. *)
Definition write_iov (m : wasm_memory) (out : auto_buf) (iov : __wasi_iovec_t) (room : Z) : outcome (Z * auto_buf) :=
  off ← deref (iov_buf iov);
  b ← deref (wm_buffer m);
  let rc := Z.min (iov_len iov) room in
  if accessible m off (Z.to_nat (iov_len iov)) then
    if ab_handle out then Ret (rc, stream_write out (load_bytes b off (Z.to_nat rc))) else Stop Undefined
  else Stop Segv.

(** The loop, with [room i] for the [i]-th buffer; a short write ends it. *)
Fixpoint write_iovs (m : wasm_memory) (out : auto_buf) (iovs : list __wasi_iovec_t) (room : nat -> Z) (nwritten : Z)
  : outcome (Z * auto_buf * Z) :=
  match iovs with
  | [] => Ret (__WASI_ERRNO_SUCCESS, out, nwritten)
  | iov :: iovs =>
    '(rc, out) ← write_iov m out iov (room 0%nat);
    if negb (rc =? iov_len iov) then Ret (__WASI_ERRNO_FBIG, out, nwritten) else
    write_iovs m out iovs (fun i => room (S i)) (u32 (nwritten + rc))
  end.

Definition wasi_snapshot_preview1_backing_fd_write n (http : option Z) (m : wasm_memory) (room : nat -> Z) (fd : Z)
  (iovs : list __wasi_iovec_t) (nwritten_retptr : Z) : outcome (Z * wasm_memory * net P) :=
  if (fd =? STDOUT_FILENO) || (fd =? STDERR_FILENO) then
    a ← deref http;
    hs ← session_at n a;
    '(rc, out, nwritten) ← write_iovs m (response_body hs) iovs room 0;
    let n := session_put n a (set_response_body hs out) in
    if negb (rc =? __WASI_ERRNO_SUCCESS) then Ret (rc, m, n) else
    m ← mem_store m nwritten_retptr (le_split 4 nwritten);
    Ret (__WASI_ERRNO_SUCCESS, m, n)
  else Ret (wasi_unsupported_syscall, m, n).
End backing.

(** [read] of /dev/urandom: bytes, or an error. *)
Inductive urandom_result := Urandom (l : list Z) | UrandomFailed.

(** The count is unsigned, so the test for an error never succeeds, and every
    read starts at the beginning of the buffer. *)
Fixpoint urandom_loop (reads : list urandom_result) (m : wasm_memory) (buf buf_len nread : Z) : outcome wasm_memory :=
  if nread <? buf_len then
    match reads with
    | [] => Stop Fuel
    | Urandom l :: reads =>
      let l := take (Z.to_nat buf_len) l in
      m ← mem_store m buf l;
      urandom_loop reads m buf buf_len (swrap 64 (nread + Z.of_nat (length l)))
    | UrandomFailed :: reads => urandom_loop reads m buf buf_len (swrap 64 (nread + UINT64_MAX))
    end
  else Ret m.

(** What [random] returns, from the [k]-th call on. *)
Fixpoint random_bytes (random : nat -> Z) (k n : nat) : list Z :=
  match n with O => [] | S n => (random k mod 255) mod 256 :: random_bytes random (S k) n end.

Fixpoint random_words (random : nat -> Z) (k words : nat) : list Z :=
  match words with O => [] | S words => le_split 4 (u32 (random k)) ++ random_words random (S k) words end.

(** [has_udev]: the static flag; [open_ok]: of /dev/urandom. *)
Definition wasi_snapshot_preview1_backing_random_get (has_udev open_ok : bool) (reads : list urandom_result)
  (random : nat -> Z) (m : wasm_memory) (buf buf_len : Z) : outcome (Z * wasm_memory * bool) :=
  if has_udev && open_ok then
    m ← urandom_loop reads m buf buf_len 0;
    Ret (__WASI_ERRNO_SUCCESS, m, has_udev)
  else
    let words := Z.to_nat (buf_len / 4) in
    m ← mem_store m buf (random_words random 0 words ++ random_bytes random words (Z.to_nat (buf_len mod 4)));
    Ret (__WASI_ERRNO_SUCCESS, m, false).

(** ** The calls ([sledge_abi.c]) *)

Section abi.
Context {L : Type} `{SpinLock L} {RQ : Type} `{Runqueue RQ} {P : Type}.
Implicit Types w : world L RQ.
Implicit Types n : net P.

(** [sandbox_syscall], the call's body, [sandbox_return]. *)
Definition in_syscall {A St} w (n : St) (t0 t1 : Z) (body : sandbox -> wasm_memory -> St -> outcome (A * wasm_memory * St))
  : outcome (A * world L RQ * St) :=
  p ← deref (current_sandbox_get w);
  w ← sandbox_syscall w p t0;
  s ← sb_get w p;
  m ← deref (sb_memory s);
  '(r, m, n) ← body s m n;
  w ← sandbox_return (sb_put w p (set_sb_memory s (Some m))) p t1;
  Ret (r, w, n).

Fixpoint store_words (m : wasm_memory) (off : Z) (ws : list Z) : outcome wasm_memory :=
  match ws with
  | [] => Ret m
  | v :: ws => m ← mem_store m off (le_split 4 v); store_words m (off + 4) ws
  end.

(** The vectors of host pointers, as offsets into linear memory. *)
Definition unswizzle (buf_retoffset : Z) (ptrs : list Z) : list Z :=
  match ptrs with
  | [] => []
  | first :: _ => (fun p => u32 (buf_retoffset + u32 (p - first))) <$> ptrs
  end.

(** Without arguments the jump to the end passes over the initialisation of the
    pointer that is freed there; a failing [calloc] is reported as success. *)
Definition sledge_abi__wasi_snapshot_preview1_args_get w n (context : wasi_context_t) (calloc_ok : bool)
  (argv_retoffset argv_buf_retoffset t0 t1 : Z) : outcome (Z * world L RQ * net P) :=
  in_syscall w n t0 t1 (fun _ m n =>
    if argc context =? 0 then Stop Undefined else
    argv_retptr ← get_memory_ptr_for_runtime m argv_retoffset (u32 (4 * argc context));
    argv_buf_retptr ← get_memory_ptr_for_runtime m argv_buf_retoffset (argv_buf_size context);
    if negb calloc_ok then Ret (0, m, n) else
    '(rc, argv_temp, m) ← wasi_snapshot_preview1_backing_args_get context m argv_buf_retptr;
    if negb (rc =? __WASI_ERRNO_SUCCESS) then Ret (rc, m, n) else
    m ← store_words m argv_retptr (unswizzle argv_buf_retoffset argv_temp);
    Ret (rc, m, n)).

Definition sledge_abi__wasi_snapshot_preview1_args_sizes_get w n (context : wasi_context_t)
  (argc_retoffset argv_buf_len_retoffset t0 t1 : Z) : outcome (Z * world L RQ * net P) :=
  in_syscall w n t0 t1 (fun _ m n =>
    argc_retptr ← get_memory_ptr_for_runtime m argc_retoffset 4;
    argv_buf_len_retptr ← get_memory_ptr_for_runtime m argv_buf_len_retoffset 4;
    '(rc, m) ← wasi_snapshot_preview1_backing_args_sizes_get context m argc_retptr argv_buf_len_retptr;
    Ret (rc, m, n)).

Definition sledge_abi__wasi_snapshot_preview1_clock_time_get w n (clock : clock_result) (time_retoffset t0 t1 : Z)
  : outcome (Z * world L RQ * net P) :=
  in_syscall w n t0 t1 (fun _ m n =>
    time_retptr ← get_memory_ptr_for_runtime m time_retoffset 8;
    '(rc, m) ← wasi_snapshot_preview1_backing_clock_time_get m clock time_retptr;
    Ret (rc, m, n)).

Definition sledge_abi__wasi_snapshot_preview1_environ_get w n (context : wasi_context_t) (calloc_ok : bool)
  (env_retoffset env_buf_retoffset t0 t1 : Z) : outcome (Z * world L RQ * net P) :=
  in_syscall w n t0 t1 (fun _ m n =>
    if envc context =? 0 then Stop Undefined else
    assert (envc context <? env_buf_size context) ;;
    if negb calloc_ok then Ret (0, m, n) else
    env_retptr ← get_memory_ptr_for_runtime m env_retoffset (u32 (4 * envc context));
    env_buf_retptr ← get_memory_ptr_for_runtime m env_buf_retoffset (env_buf_size context);
    '(rc, env_temp, m) ← wasi_snapshot_preview1_backing_environ_get context m env_buf_retptr;
    if negb (rc =? __WASI_ERRNO_SUCCESS) then Ret (rc, m, n) else
    m ← store_words m env_retptr (unswizzle env_buf_retoffset env_temp);
    Ret (rc, m, n)).

Definition sledge_abi__wasi_snapshot_preview1_environ_sizes_get w n (context : wasi_context_t)
  (envc_retoffset env_buf_len_retoffset t0 t1 : Z) : outcome (Z * world L RQ * net P) :=
  in_syscall w n t0 t1 (fun _ m n =>
    envc_retptr ← get_memory_ptr_for_runtime m envc_retoffset 4;
    env_buf_len_retptr ← get_memory_ptr_for_runtime m env_buf_len_retoffset 4;
    '(rc, m) ← wasi_snapshot_preview1_backing_environ_sizes_get context m envc_retptr env_buf_len_retptr;
    Ret (rc, m, n)).

Definition sledge_abi__wasi_snapshot_preview1_fd_read w n (calloc_ok : bool) (fd iovs_baseoffset iovs_len nread_retoffset
  t0 t1 : Z) : outcome (Z * world L RQ * net P) :=
  in_syscall w n t0 t1 (fun s m n =>
    nread_retptr ← get_memory_ptr_for_runtime m nread_retoffset 4;
    check_bounds m iovs_baseoffset (u32 (WASI_SERDES_SIZE_iovec_t * iovs_len)) ;;
    if negb calloc_ok then Ret (0, m, n) else
    '(rc, iovs) ← wasi_serdes_readv_iovec_t m (wm_size m) iovs_baseoffset (Z.to_nat iovs_len);
    if negb (rc =? __WASI_ERRNO_SUCCESS) then Ret (rc, m, n) else
    wasi_snapshot_preview1_backing_fd_read n (sb_http s) m fd iovs nread_retptr).

Definition sledge_abi__wasi_snapshot_preview1_fd_write w n (calloc_ok : bool) (room : nat -> Z)
  (fd iovs_baseoffset iovs_len nwritten_retoffset t0 t1 : Z) : outcome (Z * world L RQ * net P) :=
  in_syscall w n t0 t1 (fun s m n =>
    nwritten_retptr ← get_memory_ptr_for_runtime m nwritten_retoffset 4;
    check_bounds m iovs_baseoffset (u32 (WASI_SERDES_SIZE_ciovec_t * iovs_len)) ;;
    if negb calloc_ok then Ret (0, m, n) else
    '(rc, iovs) ← wasi_serdes_readv_ciovec_t m (wm_size m) iovs_baseoffset (Z.to_nat iovs_len);
    if negb (rc =? __WASI_ERRNO_SUCCESS) then Ret (rc, m, n) else
    wasi_snapshot_preview1_backing_fd_write n (sb_http s) m room fd iovs nwritten_retptr).

Definition sledge_abi__wasi_snapshot_preview1_random_get w n (has_udev open_ok : bool) (reads : list urandom_result)
  (random : nat -> Z) (buf_baseretoffset buf_len t0 t1 : Z) : outcome (Z * bool * world L RQ * net P) :=
  in_syscall w n t0 t1 (fun _ m n =>
    buf ← get_memory_ptr_for_runtime m buf_baseretoffset buf_len;
    '(rc, m, has_udev) ← wasi_snapshot_preview1_backing_random_get has_udev open_ok reads random m buf buf_len;
    Ret (rc, has_udev, m, n)).

(** ** Scratch storage *)

(** The bytes of linear memory a runtime function reads through a pointer. *)
Definition memory_bytes (m : wasm_memory) (off len : Z) : outcome (list Z) :=
  b ← deref (wm_buffer m);
  if accessible m off (Z.to_nat len) then Ret (load_bytes b off (Z.to_nat len)) else Stop Segv.

(** [tenant->scratch_storage], of every tenant. *)
Definition stores : Type := gmap Z (map L).

Definition in_storage {A} w n (st : stores) (t0 t1 : Z)
  (body : map L -> wasm_memory -> outcome (A * map L * wasm_memory)) : outcome (A * stores * world L RQ * net P) :=
  '(r, w, n) ← in_syscall w n t0 t1 (fun s m n =>
    kv ← deref (st !! sb_tenant s);
    '(r, kv, m) ← body kv m;
    Ret ((r, <[sb_tenant s := kv]> st), m, n));
  Ret (fst r, snd r, w, n).

(** [t_lock] and [t_unlock]: the cycle counter at the bucket's lock. *)
Definition sledge_abi__scratch_storage_get_size w n (st : stores) (key_offset key_len t_lock t_unlock t0 t1 : Z)
  : outcome (Z * stores * world L RQ * net P) :=
  in_storage w n st t0 t1 (fun kv m =>
    key ← get_memory_ptr_for_runtime m key_offset key_len;
    key ← memory_bytes m key key_len;
    '((_, value_len), kv) ← map_get kv key t_lock t_unlock;
    Ret (value_len, kv, m)).

Definition sledge_abi__scratch_storage_get w n (st : stores) (key_offset key_len buf_offset buf_len t_lock t_unlock
  t0 t1 : Z) : outcome (Z * stores * world L RQ * net P) :=
  in_storage w n st t0 t1 (fun kv m =>
    key ← get_memory_ptr_for_runtime m key_offset key_len;
    buf ← get_memory_ptr_for_runtime m buf_offset buf_len;
    key ← memory_bytes m key key_len;
    '((value, value_len), kv) ← map_get kv key t_lock t_unlock;
    match value with
    | None => Ret (1, kv, m)
    | Some value =>
      if buf_len <? value_len then Ret (2, kv, m) else
      m ← mem_store m buf (take (Z.to_nat value_len) value);
      Ret (0, kv, m)
    end).

Definition sledge_abi__scratch_storage_set w n (st : stores) (key_offset key_len value_offset value_len : Z)
  (node : lock_node_t) (t_lock t_unlock t0 t1 : Z) : outcome (Z * stores * world L RQ * net P) :=
  in_storage w n st t0 t1 (fun kv m =>
    key ← get_memory_ptr_for_runtime m key_offset key_len;
    value ← get_memory_ptr_for_runtime m value_offset value_len;
    key ← memory_bytes m key key_len;
    value ← memory_bytes m value value_len;
    '(did_set, kv) ← map_set kv key value node t_lock t_unlock;
    Ret (if (did_set : bool) then 0 else 1, kv, m)).

Definition sledge_abi__scratch_storage_delete w n (st : stores) (key_offset key_len : Z) (node : lock_node_t)
  (t_lock t_unlock t0 t1 : Z) : outcome (Z * stores * world L RQ * net P) :=
  in_storage w n st t0 t1 (fun kv m =>
    key ← get_memory_ptr_for_runtime m key_offset key_len;
    key ← memory_bytes m key key_len;
    '(did_delete, kv) ← map_delete kv key node t_lock t_unlock;
    Ret (if (did_delete : bool) then 0 else 1, kv, m)).

Definition sledge_abi__scratch_storage_upsert w n (st : stores) (key_offset key_len value_offset value_len : Z)
  (node : lock_node_t) (t_lock t_unlock t0 t1 : Z) : outcome (unit * stores * world L RQ * net P) :=
  in_storage w n st t0 t1 (fun kv m =>
    key ← get_memory_ptr_for_runtime m key_offset key_len;
    value ← get_memory_ptr_for_runtime m value_offset value_len;
    key ← memory_bytes m key key_len;
    value ← memory_bytes m value value_len;
    '(_, kv) ← map_upsert kv key value node t_lock t_unlock;
    Ret (tt, kv, m)).
End abi.
