(* ===== verification/WasiCalls.v ===== *)
(** * WasiCalls: the rest of the system interface

    The calls of [runtime/src/sledge_abi.c] and
    [runtime/src/libc/wasi_impl_serverless.c] the runtime does not support, the end
    of a process, and the functions of [libsledge/src/wasi_snapshot_preview1.c] and
    [libsledge/src/sledge_extensions.c] through which the compiled module makes
    every call.  A call that is not supported only returns its error: it reads no
    memory and does not enter the runtime. *)

From Stdlib Require Import ZArith.
From S2P Require Import Prelude Lock Bytes WasmMemory Map WasiSerdes Globals Module Runqueue Sandbox Scheduler Http HttpSession Wasi.
Local Open Scope Z_scope.

(** ** Not supported: the implementation *)

Definition wasi_snapshot_preview1_backing_clock_res_get (context : wasi_context_t) (id res_retptr : Z) : Z :=
  wasi_unsupported_syscall.
Definition wasi_snapshot_preview1_backing_fd_advise (context : wasi_context_t) (fd offset len advice : Z) : Z :=
  wasi_unsupported_syscall.
Definition wasi_snapshot_preview1_backing_fd_allocate (context : wasi_context_t) (fd offset len : Z) : Z :=
  wasi_unsupported_syscall.
Definition wasi_snapshot_preview1_backing_fd_close (context : wasi_context_t) (fd : Z) : Z :=
  wasi_unsupported_syscall.
Definition wasi_snapshot_preview1_backing_fd_datasync (context : wasi_context_t) (fd : Z) : Z :=
  wasi_unsupported_syscall.
Definition wasi_snapshot_preview1_backing_fd_fdstat_get (context : wasi_context_t) (fd fdstat : Z) : Z :=
  wasi_unsupported_syscall.
Definition wasi_snapshot_preview1_backing_fd_fdstat_set_flags (context : wasi_context_t) (fd fdflags : Z) : Z :=
  wasi_unsupported_syscall.
Definition wasi_snapshot_preview1_backing_fd_fdstat_set_rights (context : wasi_context_t) (fd fs_rights_base
    fs_rights_inheriting : Z) : Z :=
  wasi_unsupported_syscall.
Definition wasi_snapshot_preview1_backing_fd_filestat_get (context : wasi_context_t) (fd filestat : Z) : Z :=
  wasi_unsupported_syscall.
Definition wasi_snapshot_preview1_backing_fd_filestat_set_size (context : wasi_context_t) (fd size : Z) : Z :=
  wasi_unsupported_syscall.
Definition wasi_snapshot_preview1_backing_fd_filestat_set_times (context : wasi_context_t) (fd atim mtim fst_flags :
    Z) : Z :=
  wasi_unsupported_syscall.
Definition wasi_snapshot_preview1_backing_fd_pread (context : wasi_context_t) (fd iovs iovs_len offset nread_retptr
    : Z) : Z :=
  wasi_unsupported_syscall.
(** No descriptor is open. *)
Definition wasi_snapshot_preview1_backing_fd_prestat_get (context : wasi_context_t) (fd prestat_retptr : Z) : Z :=
  __WASI_ERRNO_BADF.
Definition wasi_snapshot_preview1_backing_fd_prestat_dir_name (context : wasi_context_t) (fd path path_len : Z) : Z
    :=
  wasi_unsupported_syscall.
Definition wasi_snapshot_preview1_backing_fd_pwrite (context : wasi_context_t) (fd iovs iovs_len offset
    nwritten_retptr : Z) : Z :=
  wasi_unsupported_syscall.
Definition wasi_snapshot_preview1_backing_fd_readdir (context : wasi_context_t) (fd buf buf_len cookie
    nwritten_retptr : Z) : Z :=
  wasi_unsupported_syscall.
Definition wasi_snapshot_preview1_backing_fd_renumber (context : wasi_context_t) (fd to_ : Z) : Z :=
  wasi_unsupported_syscall.
Definition wasi_snapshot_preview1_backing_fd_seek (context : wasi_context_t) (fd file_offset whence newoffset_retptr
    : Z) : Z :=
  wasi_unsupported_syscall.
Definition wasi_snapshot_preview1_backing_fd_sync (context : wasi_context_t) (fd : Z) : Z := wasi_unsupported_syscall.
Definition wasi_snapshot_preview1_backing_fd_tell (context : wasi_context_t) (fd fileoffset_retptr : Z) : Z :=
  wasi_unsupported_syscall.
Definition wasi_snapshot_preview1_backing_path_create_directory (context : wasi_context_t) (fd path path_len : Z) :
    Z :=
  wasi_unsupported_syscall.
Definition wasi_snapshot_preview1_backing_path_filestat_get (context : wasi_context_t) (fd flags path path_len
    filestat : Z) : Z :=
  wasi_unsupported_syscall.
Definition wasi_snapshot_preview1_backing_path_filestat_set_times (context : wasi_context_t) (fd flags path path_len
    atim mtim fst_flags : Z) : Z :=
  wasi_unsupported_syscall.
Definition wasi_snapshot_preview1_backing_path_link (context : wasi_context_t) (old_fd old_flags old_path
    old_path_len new_fd new_path new_path_len : Z) : Z :=
  wasi_unsupported_syscall.
Definition wasi_snapshot_preview1_backing_path_open (context : wasi_context_t) (dirfd dirflags path path_len oflags
    fs_rights_base fs_rights_inheriting fdflags fd : Z) : Z :=
  wasi_unsupported_syscall.
Definition wasi_snapshot_preview1_backing_path_readlink (context : wasi_context_t) (fd path path_len buf buf_len
    nread_retptr : Z) : Z :=
  wasi_unsupported_syscall.
Definition wasi_snapshot_preview1_backing_path_remove_directory (context : wasi_context_t) (fd path path_len : Z) :
    Z :=
  wasi_unsupported_syscall.
Definition wasi_snapshot_preview1_backing_path_rename (context : wasi_context_t) (fd old_path old_path_len new_fd
    new_path new_path_len : Z) : Z :=
  wasi_unsupported_syscall.
Definition wasi_snapshot_preview1_backing_path_symlink (context : wasi_context_t) (old_path old_path_len fd new_path
    new_path_len : Z) : Z :=
  wasi_unsupported_syscall.
Definition wasi_snapshot_preview1_backing_path_unlink_file (context : wasi_context_t) (fd path path_len : Z) : Z :=
  wasi_unsupported_syscall.
Definition wasi_snapshot_preview1_backing_poll_oneoff (context : wasi_context_t) (in_ out nsubscriptions retptr0 :
    Z) : Z :=
  wasi_unsupported_syscall.
Definition wasi_snapshot_preview1_backing_proc_raise (context : wasi_context_t) (sig : Z) : Z :=
  wasi_unsupported_syscall.
Definition wasi_snapshot_preview1_backing_sched_yield (context : wasi_context_t) : Z := wasi_unsupported_syscall.
Definition wasi_snapshot_preview1_backing_sock_recv (context : wasi_context_t) (fd ri_data ri_data_len ri_flags
    ri_data_nbytes_retptr message_nbytes_retptr : Z) : Z :=
  wasi_unsupported_syscall.
Definition wasi_snapshot_preview1_backing_sock_send (context : wasi_context_t) (fd si_data si_data_len si_flags
    nsent_retptr : Z) : Z :=
  wasi_unsupported_syscall.
Definition wasi_snapshot_preview1_backing_sock_accept (context : wasi_context_t) (fd how : Z) : Z :=
  wasi_unsupported_syscall.
Definition wasi_snapshot_preview1_backing_sock_shutdown (context : wasi_context_t) (fd how : Z) : Z :=
  wasi_unsupported_syscall.

(** ** Not supported: the interface of the runtime *)

Definition sledge_abi__wasi_snapshot_preview1_clock_res_get (id resolution_retoffset : Z) : Z :=
  wasi_unsupported_syscall.
Definition sledge_abi__wasi_snapshot_preview1_fd_advise (fd file_offset len advice_extended : Z) : Z :=
  wasi_unsupported_syscall.
Definition sledge_abi__wasi_snapshot_preview1_fd_allocate (fd offset len : Z) : Z := wasi_unsupported_syscall.
Definition sledge_abi__wasi_snapshot_preview1_fd_close (fd : Z) : Z := wasi_unsupported_syscall.
Definition sledge_abi__wasi_snapshot_preview1_fd_datasync (fd : Z) : Z := wasi_unsupported_syscall.
Definition sledge_abi__wasi_snapshot_preview1_fd_fdstat_get (fd fdstat_retoffset : Z) : Z := wasi_unsupported_syscall.
Definition sledge_abi__wasi_snapshot_preview1_fd_fdstat_set_flags (fd fdflags_extended : Z) : Z :=
  wasi_unsupported_syscall.
Definition sledge_abi__wasi_snapshot_preview1_fd_fdstat_set_rights (fd fs_rights_base fs_rights_inheriting : Z) : Z
    :=
  wasi_unsupported_syscall.
Definition sledge_abi__wasi_snapshot_preview1_fd_filestat_get (fd filestat_retoffset : Z) : Z :=
  wasi_unsupported_syscall.
Definition sledge_abi__wasi_snapshot_preview1_fd_filestat_set_size (fd size : Z) : Z := wasi_unsupported_syscall.
Definition sledge_abi__wasi_snapshot_preview1_fd_filestat_set_times (fd atim mtim fstflags_extended : Z) : Z :=
  wasi_unsupported_syscall.
Definition sledge_abi__wasi_snapshot_preview1_fd_pread (fd iovs_baseoffset iovs_len offset nread_retoffset : Z) : Z
    :=
  wasi_unsupported_syscall.
Definition sledge_abi__wasi_snapshot_preview1_fd_prestat_get (fd prestat_retoffset : Z) : Z := __WASI_ERRNO_BADF.
Definition sledge_abi__wasi_snapshot_preview1_fd_prestat_dir_name (fd dirname_retoffset dirname_len : Z) : Z :=
  wasi_unsupported_syscall.
Definition sledge_abi__wasi_snapshot_preview1_fd_pwrite (fd iovs_baseoffset iovs_len file_offset nwritten_retoffset
    : Z) : Z :=
  wasi_unsupported_syscall.
Definition sledge_abi__wasi_snapshot_preview1_fd_readdir (fd buf_baseoffset buf_len cookie nread_retoffset : Z) : Z
    :=
  wasi_unsupported_syscall.
Definition sledge_abi__wasi_snapshot_preview1_fd_renumber (fd to_ : Z) : Z := wasi_unsupported_syscall.
Definition sledge_abi__wasi_snapshot_preview1_fd_seek (fd file_offset whence_extended newoffset_retoffset : Z) : Z
    :=
  wasi_unsupported_syscall.
Definition sledge_abi__wasi_snapshot_preview1_fd_sync (fd : Z) : Z := wasi_unsupported_syscall.
Definition sledge_abi__wasi_snapshot_preview1_fd_tell (fd fileoffset_retoffset : Z) : Z := wasi_unsupported_syscall.
Definition sledge_abi__wasi_snapshot_preview1_path_create_directory (fd path_baseoffset path_len : Z) : Z :=
  wasi_unsupported_syscall.
Definition sledge_abi__wasi_snapshot_preview1_path_filestat_get (fd flags path_baseoffset path_len
    filestat_retoffset : Z) : Z :=
  wasi_unsupported_syscall.
Definition sledge_abi__wasi_snapshot_preview1_path_filestat_set_times (fd flags path_baseoffset path_len atim mtim
    fstflags_extended : Z) : Z :=
  wasi_unsupported_syscall.
Definition sledge_abi__wasi_snapshot_preview1_path_link (old_fd old_flags old_path_baseoffset old_path_len new_fd
    new_path_baseoffset new_path_len : Z) : Z :=
  wasi_unsupported_syscall.
Definition sledge_abi__wasi_snapshot_preview1_path_open (dirfd lookupflags path_baseoffset path_len oflags_extended
    fs_rights_base fs_rights_inheriting fdflags_extended fd_retoffset : Z) : Z :=
  wasi_unsupported_syscall.
Definition sledge_abi__wasi_snapshot_preview1_path_readlink (fd path_baseoffset path_len buf_baseretoffset buf_len
    nread_retoffset : Z) : Z :=
  wasi_unsupported_syscall.
Definition sledge_abi__wasi_snapshot_preview1_path_remove_directory (fd path_baseoffset path_len : Z) : Z :=
  wasi_unsupported_syscall.
Definition sledge_abi__wasi_snapshot_preview1_path_rename (fd old_path_baseoffset old_path_len new_fd
    new_path_baseoffset new_path_len : Z) : Z :=
  wasi_unsupported_syscall.
Definition sledge_abi__wasi_snapshot_preview1_path_symlink (old_path_baseoffset old_path_len fd new_path_baseoffset
    new_path_len : Z) : Z :=
  wasi_unsupported_syscall.
Definition sledge_abi__wasi_snapshot_preview1_path_unlink_file (fd path_baseoffset path_len : Z) : Z :=
  wasi_unsupported_syscall.
Definition sledge_abi__wasi_snapshot_preview1_poll_oneoff (in_baseoffset out_baseoffset nsubscriptions
    nevents_retoffset : Z) : Z :=
  wasi_unsupported_syscall.
Definition sledge_abi__wasi_snapshot_preview1_proc_raise (sig_extended : Z) : Z := wasi_unsupported_syscall.
Definition sledge_abi__wasi_snapshot_preview1_sched_yield : Z := wasi_unsupported_syscall.
Definition sledge_abi__wasi_snapshot_preview1_sock_recv (fd ri_data_baseretoffset ri_data_len ri_flags_extended
    ri_data_nbytes_retoffset message_nbytes_retoffset : Z) : Z :=
  wasi_unsupported_syscall.
Definition sledge_abi__wasi_snapshot_preview1_sock_send (fd si_data_baseoffset si_data_len si_flags_extended
    nbytes_retoffset : Z) : Z :=
  wasi_unsupported_syscall.
Definition sledge_abi__wasi_snapshot_preview1_sock_shutdown (fd how : Z) : Z := wasi_unsupported_syscall.

(** ** The end of the process *)

Section exit.
Context {L : Type} `{SpinLock L} {RQ : Type} `{Runqueue RQ} {G : Type} `{Policy L RQ G}.
Variable ADMISSIONS_CONTROL : bool.
Variable worker_thread_idx : nat.
Implicit Types w : world L RQ.

(** What follows [current_sandbox_fini], which does not return, is never reached. *)
Definition wasi_snapshot_preview1_backing_proc_exit w (g : G) (env : sched_env) (exitcode : Z) :=
  current_sandbox_fini ADMISSIONS_CONTROL worker_thread_idx w g env.

Definition sledge_abi__wasi_snapshot_preview1_proc_exit w (g : G) (env : sched_env) (exitcode : Z) :=
  wasi_snapshot_preview1_backing_proc_exit w g env exitcode.

Definition wasi_snapshot_preview1_proc_exit w (g : G) (env : sched_env) (exitcode : Z) :=
  sledge_abi__wasi_snapshot_preview1_proc_exit w g env exitcode.
End exit.

(** ** The module's side *)

Definition wasi_snapshot_preview1_clock_res_get (id resolution_retoffset : Z) : Z :=
  sledge_abi__wasi_snapshot_preview1_clock_res_get id resolution_retoffset.
Definition wasi_snapshot_preview1_fd_advise (fd file_offset len advice_extended : Z) : Z :=
  sledge_abi__wasi_snapshot_preview1_fd_advise fd file_offset len advice_extended.
Definition wasi_snapshot_preview1_fd_allocate (fd offset len : Z) : Z :=
  sledge_abi__wasi_snapshot_preview1_fd_allocate fd offset len.
Definition wasi_snapshot_preview1_fd_close (fd : Z) : Z := sledge_abi__wasi_snapshot_preview1_fd_close fd.
Definition wasi_snapshot_preview1_fd_datasync (fd : Z) : Z := sledge_abi__wasi_snapshot_preview1_fd_datasync fd.
Definition wasi_snapshot_preview1_fd_fdstat_get (fd fdstat_retoffset : Z) : Z :=
  sledge_abi__wasi_snapshot_preview1_fd_fdstat_get fd fdstat_retoffset.
Definition wasi_snapshot_preview1_fd_fdstat_set_flags (fd fdflags_extended : Z) : Z :=
  sledge_abi__wasi_snapshot_preview1_fd_fdstat_set_flags fd fdflags_extended.
Definition wasi_snapshot_preview1_fd_fdstat_set_rights (fd fs_rights_base fs_rights_inheriting : Z) : Z :=
  sledge_abi__wasi_snapshot_preview1_fd_fdstat_set_rights fd fs_rights_base fs_rights_inheriting.
Definition wasi_snapshot_preview1_fd_filestat_get (fd filestat_retoffset : Z) : Z :=
  sledge_abi__wasi_snapshot_preview1_fd_filestat_get fd filestat_retoffset.
Definition wasi_snapshot_preview1_fd_filestat_set_size (fd size : Z) : Z :=
  sledge_abi__wasi_snapshot_preview1_fd_filestat_set_size fd size.
Definition wasi_snapshot_preview1_fd_filestat_set_times (fd atim mtim fstflags_extended : Z) : Z :=
  sledge_abi__wasi_snapshot_preview1_fd_filestat_set_times fd atim mtim fstflags_extended.
Definition wasi_snapshot_preview1_fd_pread (fd iovs_baseoffset iovs_len offset nread_retoffset : Z) : Z :=
  sledge_abi__wasi_snapshot_preview1_fd_pread fd iovs_baseoffset iovs_len offset nread_retoffset.
Definition wasi_snapshot_preview1_fd_prestat_get (fd prestat_retoffset : Z) : Z :=
  sledge_abi__wasi_snapshot_preview1_fd_prestat_get fd prestat_retoffset.
Definition wasi_snapshot_preview1_fd_prestat_dir_name (fd dirname_retoffset dirname_len : Z) : Z :=
  sledge_abi__wasi_snapshot_preview1_fd_prestat_dir_name fd dirname_retoffset dirname_len.
Definition wasi_snapshot_preview1_fd_pwrite (fd iovs_baseoffset iovs_len file_offset nwritten_retoffset : Z) : Z :=
  sledge_abi__wasi_snapshot_preview1_fd_pwrite fd iovs_baseoffset iovs_len file_offset nwritten_retoffset.
Definition wasi_snapshot_preview1_fd_readdir (fd buf_baseoffset buf_len cookie nread_retoffset : Z) : Z :=
  sledge_abi__wasi_snapshot_preview1_fd_readdir fd buf_baseoffset buf_len cookie nread_retoffset.
Definition wasi_snapshot_preview1_fd_renumber (fd to_ : Z) : Z :=
  sledge_abi__wasi_snapshot_preview1_fd_renumber fd to_.
Definition wasi_snapshot_preview1_fd_seek (fd file_offset whence_extended newoffset_retoffset : Z) : Z :=
  sledge_abi__wasi_snapshot_preview1_fd_seek fd file_offset whence_extended newoffset_retoffset.
Definition wasi_snapshot_preview1_fd_sync (fd : Z) : Z := sledge_abi__wasi_snapshot_preview1_fd_sync fd.
Definition wasi_snapshot_preview1_fd_tell (fd fileoffset_retoffset : Z) : Z :=
  sledge_abi__wasi_snapshot_preview1_fd_tell fd fileoffset_retoffset.
Definition wasi_snapshot_preview1_path_create_directory (fd path_baseoffset path_len : Z) : Z :=
  sledge_abi__wasi_snapshot_preview1_path_create_directory fd path_baseoffset path_len.
Definition wasi_snapshot_preview1_path_filestat_get (fd flags path_baseoffset path_len filestat_retoffset : Z) : Z
    :=
  sledge_abi__wasi_snapshot_preview1_path_filestat_get fd flags path_baseoffset path_len filestat_retoffset.
Definition wasi_snapshot_preview1_path_filestat_set_times (fd flags path_baseoffset path_len atim mtim
    fstflags_extended : Z) : Z :=
  sledge_abi__wasi_snapshot_preview1_path_filestat_set_times fd flags path_baseoffset path_len atim mtim
    fstflags_extended.
Definition wasi_snapshot_preview1_path_link (old_fd old_flags old_path_baseoffset old_path_len new_fd
    new_path_baseoffset new_path_len : Z) : Z :=
  sledge_abi__wasi_snapshot_preview1_path_link old_fd old_flags old_path_baseoffset old_path_len new_fd
    new_path_baseoffset new_path_len.
Definition wasi_snapshot_preview1_path_open (dirfd lookupflags path_baseoffset path_len oflags_extended
    fs_rights_base fs_rights_inheriting fdflags_extended fd_retoffset : Z) : Z :=
  sledge_abi__wasi_snapshot_preview1_path_open dirfd lookupflags path_baseoffset path_len oflags_extended
    fs_rights_base fs_rights_inheriting fdflags_extended fd_retoffset.
Definition wasi_snapshot_preview1_path_readlink (fd path_baseoffset path_len buf_baseretoffset buf_len
    nread_retoffset : Z) : Z :=
  sledge_abi__wasi_snapshot_preview1_path_readlink fd path_baseoffset path_len buf_baseretoffset buf_len
    nread_retoffset.
Definition wasi_snapshot_preview1_path_remove_directory (fd path_baseoffset path_len : Z) : Z :=
  sledge_abi__wasi_snapshot_preview1_path_remove_directory fd path_baseoffset path_len.
Definition wasi_snapshot_preview1_path_rename (fd old_path_baseoffset old_path_len new_fd new_path_baseoffset
    new_path_len : Z) : Z :=
  sledge_abi__wasi_snapshot_preview1_path_rename fd old_path_baseoffset old_path_len new_fd new_path_baseoffset
    new_path_len.
Definition wasi_snapshot_preview1_path_symlink (old_path_baseoffset old_path_len fd new_path_baseoffset new_path_len
    : Z) : Z :=
  sledge_abi__wasi_snapshot_preview1_path_symlink old_path_baseoffset old_path_len fd new_path_baseoffset
    new_path_len.
Definition wasi_snapshot_preview1_path_unlink_file (fd path_baseoffset path_len : Z) : Z :=
  sledge_abi__wasi_snapshot_preview1_path_unlink_file fd path_baseoffset path_len.
Definition wasi_snapshot_preview1_poll_oneoff (in_baseoffset out_baseoffset nsubscriptions nevents_retoffset : Z) :
    Z :=
  sledge_abi__wasi_snapshot_preview1_poll_oneoff in_baseoffset out_baseoffset nsubscriptions nevents_retoffset.
Definition wasi_snapshot_preview1_proc_raise (sig_extended : Z) : Z :=
  sledge_abi__wasi_snapshot_preview1_proc_raise sig_extended.
Definition wasi_snapshot_preview1_sched_yield : Z := sledge_abi__wasi_snapshot_preview1_sched_yield.
Definition wasi_snapshot_preview1_sock_recv (fd ri_data_baseretoffset ri_data_len ri_flags_extended
    ri_data_nbytes_retoffset message_nbytes_retoffset : Z) : Z :=
  sledge_abi__wasi_snapshot_preview1_sock_recv fd ri_data_baseretoffset ri_data_len ri_flags_extended
    ri_data_nbytes_retoffset message_nbytes_retoffset.
Definition wasi_snapshot_preview1_sock_send (fd si_data_baseoffset si_data_len si_flags_extended nbytes_retoffset :
    Z) : Z :=
  sledge_abi__wasi_snapshot_preview1_sock_send fd si_data_baseoffset si_data_len si_flags_extended nbytes_retoffset.
Definition wasi_snapshot_preview1_sock_shutdown (fd how : Z) : Z :=
  sledge_abi__wasi_snapshot_preview1_sock_shutdown fd how.

Section supported.
Context {L : Type} `{SpinLock L} {RQ : Type} `{Runqueue RQ} {P : Type}.
Implicit Types w : world L RQ.
Implicit Types n : net P.

Definition wasi_snapshot_preview1_args_get w n (context : wasi_context_t) (calloc_ok : bool) (argv_retoffset
    argv_buf_retoffset t0 t1 : Z) :=
  sledge_abi__wasi_snapshot_preview1_args_get w n context calloc_ok argv_retoffset argv_buf_retoffset t0 t1.
Definition wasi_snapshot_preview1_args_sizes_get w n (context : wasi_context_t) (argc_retoffset
    argv_buf_len_retoffset t0 t1 : Z) :=
  sledge_abi__wasi_snapshot_preview1_args_sizes_get w n context argc_retoffset argv_buf_len_retoffset t0 t1.
Definition wasi_snapshot_preview1_clock_time_get w n (clock : clock_result) (time_retoffset t0 t1 : Z) :=
  sledge_abi__wasi_snapshot_preview1_clock_time_get w n clock time_retoffset t0 t1.
Definition wasi_snapshot_preview1_environ_get w n (context : wasi_context_t) (calloc_ok : bool) (env_retoffset
    env_buf_retoffset t0 t1 : Z) :=
  sledge_abi__wasi_snapshot_preview1_environ_get w n context calloc_ok env_retoffset env_buf_retoffset t0 t1.
Definition wasi_snapshot_preview1_environ_sizes_get w n (context : wasi_context_t) (envc_retoffset
    env_buf_len_retoffset t0 t1 : Z) :=
  sledge_abi__wasi_snapshot_preview1_environ_sizes_get w n context envc_retoffset env_buf_len_retoffset t0 t1.
Definition wasi_snapshot_preview1_fd_read w n (calloc_ok : bool) (fd iovs_baseoffset iovs_len nread_retoffset t0 t1
    : Z) :=
  sledge_abi__wasi_snapshot_preview1_fd_read w n calloc_ok fd iovs_baseoffset iovs_len nread_retoffset t0 t1.
Definition wasi_snapshot_preview1_fd_write w n (calloc_ok : bool) (room : nat -> Z) (fd iovs_baseoffset iovs_len
    nwritten_retoffset t0 t1 : Z) :=
  sledge_abi__wasi_snapshot_preview1_fd_write w n calloc_ok room fd iovs_baseoffset iovs_len nwritten_retoffset t0 t1.
Definition wasi_snapshot_preview1_random_get w n (has_udev open_ok : bool) (reads : list urandom_result) (random :
    nat -> Z) (buf_baseretoffset buf_len t0 t1 : Z) :=
  sledge_abi__wasi_snapshot_preview1_random_get w n has_udev open_ok reads random buf_baseretoffset buf_len t0 t1.
Definition scratch_storage_get_size w n (st : stores) (key_offset key_len t_lock t_unlock t0 t1 : Z) :=
  sledge_abi__scratch_storage_get_size w n st key_offset key_len t_lock t_unlock t0 t1.
Definition scratch_storage_get w n (st : stores) (key_offset key_len buf_offset buf_len t_lock t_unlock t0 t1 : Z) :=
  sledge_abi__scratch_storage_get w n st key_offset key_len buf_offset buf_len t_lock t_unlock t0 t1.
Definition scratch_storage_set w n (st : stores) (key_offset key_len value_offset value_len : Z) (node :
    lock_node_t) (t_lock t_unlock t0 t1 : Z) :=
  sledge_abi__scratch_storage_set w n st key_offset key_len value_offset value_len node t_lock t_unlock t0 t1.
Definition scratch_storage_delete w n (st : stores) (key_offset key_len : Z) (node : lock_node_t) (t_lock t_unlock
    t0 t1 : Z) :=
  sledge_abi__scratch_storage_delete w n st key_offset key_len node t_lock t_unlock t0 t1.
Definition scratch_storage_upsert w n (st : stores) (key_offset key_len value_offset value_len : Z) (node :
    lock_node_t) (t_lock t_unlock t0 t1 : Z) :=
  sledge_abi__scratch_storage_upsert w n st key_offset key_len value_offset value_len node t_lock t_unlock t0 t1.
End supported.
