(* ===== verification/WasiSpec.v ===== *)
(** * WasiSpec: what a sandbox sees of its request

    A system call leaves the worker in order and the sandbox running.  The
    arguments a sandbox reads are those of its request, its standard input is
    the body, what it writes is appended to the response. *)

From Stdlib Require Import ZArith Lia.
From S2P Require Import Prelude Lock Bytes WasmMemory WasiSerdes Globals Module Runqueue Sandbox SandboxSpec SandboxSteps Preemption.
From S2P Require Import Http HttpSession HttpSend Wasi.
Local Open Scope Z_scope.

(** ** System calls and the worker *)

Section syscalls.
Context {L : Type} `{SpinLock L} {RQ : Type} `{RunqueueLaws RQ} {P : Type}.
Variable worker_thread_idx : nat.
Implicit Types w : world L RQ.
Implicit Types n : net P.
Abbreviation wf := (wf worker_thread_idx).

(** The sandbox while it is in the call. *)
Definition in_call (s : sandbox) (t0 : Z) : sandbox :=
  accounted (set_sb_state s SANDBOX_RUNNING_SYS) SANDBOX_RUNNING_USER t0.

Lemma enter_ok w l p s t0 :
  wf w l -> sandboxes w !! p = Some s -> last_state_change s < t0 <= UINT64_MAX -> sb_state s = SANDBOX_RUNNING_USER ->
  exists w1, sandbox_syscall w p t0 = Ret w1 /\ wf w1 l /\ sandboxes w1 = <[p := in_call s t0]> (sandboxes w)
    /\ current w1 = Some p.
Proof.
  intros W E Hn Hs. pose proof (wf_sandbox _ _ _ W p s E) as Hok.
  destruct (ok_running _ _ _ Hok) as [Hc Hd]; [by rewrite Hs|].
  unfold sandbox_syscall. rewrite (sb_get_ok _ _ _ E). ostep. rewrite bool_decide_true by done. ostep.
  unfold sandbox_set_as_running_sys.
  pose proof (write_account_ok worker_thread_idx w l p s SANDBOX_RUNNING_SYS SANDBOX_RUNNING_USER t0 W E Hn) as Ewa.
  rewrite (write_state_ok _ _ _ _ E) in Ewa |- *. revert Ewa. ostep. intros Ewa.
  rewrite (assert_current_ok _ p (set_sb_state s SANDBOX_RUNNING_SYS)) by (done || apply lookup_insert_eq).
  ostep. rewrite Ewa. ostep.
  assert (W1 : wf (sb_put w p (in_call s t0)) l) by (unfold in_call; eapply move_ok; eauto; by rewrite Hs).
  destruct (updates_wf worker_thread_idx _ l p (in_call s t0) W1) as (w' & Ew & W' & Es & _ & Ec & _); [apply lookup_insert_eq|].
  exists w'. split; [exact Ew|]. split; [done|]. split; [by rewrite Es|]. by rewrite Ec.
Qed.

(** Writing to linear memory keeps the worker in order. *)
Lemma memory_put_wf w l p s m m' :
  wf w l -> sandboxes w !! p = Some s -> sb_memory s = Some m -> is_Some (wm_buffer m') ->
  wm_size m' = wm_size m -> wm_capacity m' = wm_capacity m -> executing (sb_state s) = true ->
  wf (sb_put w p (set_sb_memory s (Some m'))) l.
Proof.
  intros W E Em Hb Hs Hc He. pose proof (wf_sandbox _ _ _ W p s E) as Hok.
  eapply (wf_put _ w); eauto; [by apply frame_same | apply (wf_modules _ _ _ W) |].
  destruct Hok as [T (mo & Emo & Hmem) G0 ? ? ? ? ?]. split; try done; [by destruct T|]. exists mo. split; [done|]. intros _.
  exists m'. split; [done|]. destruct (Hmem He) as (mem & Emem & Hu1 & Hu2 & Hu3). rewrite Em in Emem. injection Emem as <-.
  split; [done|]. rewrite Hs, Hc. done.
Qed.

Lemma in_syscall_enter {A} w n l p s m t0 t1 (body : sandbox -> wasm_memory -> net P -> outcome (A * wasm_memory * net P)) :
  wf w l -> current w = Some p -> sandboxes w !! p = Some s -> sb_state s = SANDBOX_RUNNING_USER ->
  sb_memory s = Some m -> last_state_change s < t0 <= UINT64_MAX ->
  exists w1, wf w1 l /\ sandboxes w1 = <[p := in_call s t0]> (sandboxes w) /\ current w1 = Some p
    /\ in_syscall w n t0 t1 body
       = '(r, m', n') ← body (in_call s t0) m n;
         w' ← sandbox_return (sb_put w1 p (set_sb_memory (in_call s t0) (Some m'))) p t1;
         Ret (r, w', n').
Proof.
  intros W Hcur E Hs Em Ht. unfold in_syscall, current_sandbox_get. rewrite Hcur. ostep.
  destruct (enter_ok w l p s t0 W E Ht Hs) as (w1 & -> & W1 & Es1 & Hc1). ostep.
  assert (E1 : sandboxes w1 !! p = Some (in_call s t0)) by (rewrite Es1; apply lookup_insert_eq).
  exists w1. do 3 (split; [done|]). rewrite (sb_get_ok _ _ _ E1). ostep.
  change (sb_memory (in_call s t0)) with (sb_memory s). by rewrite Em.
Qed.

(** A call whose body returns leaves the worker in order and the sandbox
    running, with the memory the body left. *)
Lemma in_syscall_ok {A} w n l p s m t0 t1 (body : sandbox -> wasm_memory -> net P -> outcome (A * wasm_memory * net P)) r m' n' :
  wf w l -> current w = Some p -> sandboxes w !! p = Some s -> sb_state s = SANDBOX_RUNNING_USER ->
  sb_memory s = Some m -> last_state_change s < t0 < t1 -> t1 <= UINT64_MAX ->
  body (in_call s t0) m n = Ret (r, m', n') ->
  is_Some (wm_buffer m') -> wm_size m' = wm_size m -> wm_capacity m' = wm_capacity m ->
  exists w' s', in_syscall w n t0 t1 body = Ret (r, w', n') /\ wf w' l
    /\ sandboxes w' = <[p := s']> (sandboxes w) /\ sb_state s' = SANDBOX_RUNNING_USER
    /\ sb_memory s' = Some m' /\ sb_http s' = sb_http s /\ last_state_change s' = t1.
Proof.
  intros W Hcur E Hs Em Ht Ht1 Hbody Hb Hsz Hcap.
  destruct (in_syscall_enter w n l p s m t0 t1 body W Hcur E Hs Em ltac:(lia)) as (w1 & W1 & Es1 & Hc1 & ->).
  assert (E1 : sandboxes w1 !! p = Some (in_call s t0)) by (rewrite Es1; apply lookup_insert_eq). rewrite Hbody. ostep. set (s2 := set_sb_memory (in_call s t0) (Some m')).
  assert (W2 : wf (sb_put w1 p s2) l) by (by apply (memory_put_wf w1 l p (in_call s t0) m m')).
  assert (E2 : sandboxes (sb_put w1 p s2) !! p = Some s2) by apply lookup_insert_eq.
  unfold sandbox_return. rewrite (sb_get_ok _ _ _ E2). ostep. rewrite bool_decide_true by done. ostep.
  pose proof (wf_sandbox _ _ _ W2 p s2 E2) as Hok. destruct (ok_running _ _ _ Hok eq_refl) as [Hc Hd].
  unfold sandbox_set_as_running_user. rewrite (assert_current_ok _ p s2) by done. ostep.
  assert (Hn : last_state_change s2 < t1 <= UINT64_MAX) by (cbn; lia).
  rewrite (bookkeeping_ok _ p s2) by (done || apply Hok). ostep. rewrite decide_True by done.
  set (s3 := accounted s2 SANDBOX_RUNNING_SYS t1).
  assert (W3 : wf (sb_put (sb_put w1 p s2) p s3) l).
  { replace s3 with (accounted (set_sb_state s2 (sb_state s2)) SANDBOX_RUNNING_SYS t1) by (by destruct s). eapply move_ok; eauto. }
  destruct (process_updates_ok (sb_put (sb_put w1 p s2) p s3) p s3 (lookup_insert_eq _ _ _))
    as (w4 & -> & Es4 & Eq4 & Em4 & Er4 & F4); [apply Hok|]. ostep.
  assert (W4 : wf w4 l) by (by apply (wf_same _ _ w4 l W3)).
  destruct (enter_user_ok worker_thread_idx w4 l p s3 W4) as (w' & Ew & W' & Es' & _); try done.
  - rewrite Es4. apply lookup_insert_eq.
  - by rewrite (frame_current _ _ F4).
  - by rewrite (frame_deadline _ _ F4).
  - exists w', (set_sb_state s3 SANDBOX_RUNNING_USER).
    match goal with |- context [write_state w4 p SANDBOX_RUNNING_USER ≫= ?k] =>
      replace (write_state w4 p SANDBOX_RUNNING_USER ≫= k) with (Ret w' : outcome (world L RQ)) by (by rewrite <- Ew) end.
    ostep. split; [done|]. split; [done|]. split; [|done].
    rewrite Es', Es4. cbn. by rewrite !insert_insert_eq, Es1, insert_insert_eq.
Qed.
End syscalls.

(** ** Buffers of the guest *)

(** [l] distributed over the buffers, in order. *)
Fixpoint scatter (buf : bytes) (entries : list (Z * Z)) (l : list Z) : bytes :=
  match entries, l with
  | [], _ | _, [] => buf
  | e :: entries, _ => scatter (store_bytes buf e.1 (take (Z.to_nat e.2) l)) entries (drop (Z.to_nat e.2) l)
  end.

(** The bytes of the buffers, in order. *)
Definition gather (buf : bytes) (entries : list (Z * Z)) : list Z :=
  concat ((fun e => load_bytes buf e.1 (Z.to_nat e.2)) <$> entries).

Definition capacity (entries : list (Z * Z)) : nat := sum_list ((fun e => Z.to_nat e.2) <$> entries).

Definition apart (e f : Z * Z) : Prop := e.1 + e.2 <= f.1 \/ f.1 + f.2 <= e.1.

Definition in_memory (size : Z) (e : Z * Z) : Prop := 0 <= e.1 /\ 0 <= e.2 /\ iovec_in_bounds size e.

Lemma scatter_out size entries : forall buf l e,
  Forall (in_memory size) entries -> 0 <= e.2 -> Forall (apart e) entries ->
  load_bytes (scatter buf entries l) e.1 (Z.to_nat e.2) = load_bytes buf e.1 (Z.to_nat e.2).
Proof.
  induction entries as [|f entries IH]; intros buf l e Hm He Ha; [done|]. destruct l as [|x l]; [done|].
  inversion Hm as [|? ? (H1 & H2 & _) Hm']; subst. inversion Ha as [|? ? Hef Ha']; subst. cbn [scatter]. rewrite IH by done.
  apply load_store_ne. rewrite length_take. unfold apart in Hef. lia.
Qed.

Lemma scatter_byte entries : forall buf l, (forall a, is_byte (buf a)) -> Forall is_byte l -> forall a, is_byte (scatter buf entries l a).
Proof.
  induction entries as [|e entries IH]; intros buf l Hb Hl; [done|]. destruct l as [|x l]; [done|]. cbn [scatter].
  apply IH; [intros a; apply store_bytes_byte; [done|] | by apply Forall_drop]. by apply Forall_take.
Qed.

Lemma load_store_prefix buf off l n : (length l <= n)%nat -> take (length l) (load_bytes (store_bytes buf off l) off n) = l.
Proof.
  intros Hn. transitivity (load_bytes (store_bytes buf off l) off (length l)); [|apply load_store_eq].
  unfold load_bytes. rewrite <- fmap_take. f_equal. rewrite take_seq. f_equal. lia.
Qed.

Lemma load_store_part buf off l k n :
  (k + n <= length l)%nat -> load_bytes (store_bytes buf off l) (off + Z.of_nat k) n = take n (drop k l).
Proof.
  intros Hn. apply list_eq. intros i. destruct (decide (i < n)%nat) as [Hi|Hi].
  - rewrite lookup_load_bytes, lookup_take_lt, lookup_drop by done.
    replace (off + Z.of_nat k + Z.of_nat i) with (off + Z.of_nat (k + i)) by lia. rewrite store_bytes_in by lia.
    destruct (lookup_lt_is_Some_2 l (k + i)) as [x ->]; [lia|done].
  - rewrite !lookup_ge_None_2; rewrite ?length_load_bytes, ?length_take; done || lia.
Qed.

(** What is distributed over separate buffers is found there. *)
Lemma scatter_gather size entries : forall buf l,
  Forall (in_memory size) entries -> ForallOrdPairs apart entries ->
  take (length l) (gather (scatter buf entries l) entries) = take (capacity entries) l.
Proof.
  induction entries as [|e entries IH]; intros buf l Hm Ha; [by destruct l|]. destruct l as [|x l]; [by rewrite take_nil|].
  inversion Hm as [|? ? (H1 & H2 & _) Hm']; subst. inversion Ha as [|? ? Hea Ha']; subst.
  cbn [scatter]. set (l' := x :: l). set (k := Z.to_nat e.2). unfold gather, capacity. rewrite !fmap_cons. cbn [concat sum_list].
  rewrite (scatter_out size) by done. fold k.
  fold (gather (scatter (store_bytes buf e.1 (take k l')) entries (drop k l')) entries). fold (capacity entries).
  destruct (decide (k <= length l')%nat) as [Hk|Hk].
  - pose proof (load_store_eq buf e.1 (take k l')) as El. rewrite length_take, Nat.min_l in El by done. rewrite El.
    rewrite take_app, length_take, Nat.min_l by done. rewrite take_take, Nat.min_r by done.
    rewrite <- (length_drop l' k), IH by done. change (id k) with k. by rewrite take_take_drop.
  - rewrite (take_ge l' k), take_app, length_load_bytes by lia. rewrite load_store_prefix by lia.
    rewrite (take_ge l') by (change (id k) with k; lia). replace (length l' - k)%nat with 0%nat by lia. by rewrite take_0, app_nil_r.
Qed.

Lemma gather_out size entries off l : forall buf,
  Forall (in_memory size) entries -> Forall (apart (off, Z.of_nat (length l))) entries ->
  gather (store_bytes buf off l) entries = gather buf entries.
Proof.
  intros buf Hm Ha. unfold gather. f_equal. apply list_fmap_ext. intros i e Ee.
  pose proof (Forall_lookup_1 _ _ _ _ Hm Ee) as (? & ? & _). pose proof (Forall_lookup_1 _ _ _ _ Ha Ee) as [?|?];
    apply load_store_ne; cbn in *; lia.
Qed.

(** ** Standard input *)

(** The body of the request of a session, and what is left of it. *)
Definition body_bytes {P} (hs : http_session P) : list Z :=
  take (Z.to_nat (body_length (hs_request hs)))
    (drop (Z.to_nat (default 0 (body (hs_request hs)))) (ab_data (request_buffer hs))).

Definition unread (data : list Z) (r : http_request) (b : Z) : list Z :=
  take (Z.to_nat (body_length r - cursor r)) (drop (Z.to_nat (b + cursor r)) data).

Record body_stored (data : list Z) (r : http_request) (b : Z) : Prop := {
  bst_body : body r = Some b;
  bst_cursor : 0 <= cursor r <= body_length r;
  bst_length : body_length r < 2 ^ 31;
  bst_data : 0 <= b /\ b + body_length r <= Z.of_nat (length data);
  bst_bytes : Forall is_byte data;
}.

Lemma length_unread data r b : body_stored data r b -> Z.of_nat (length (unread data r b)) = body_length r - cursor r.
Proof. intros [? ? ? ? ?]. unfold unread. rewrite length_take, length_drop. lia. Qed.

Lemma unread_advance data r b k :
  body_stored data r b -> 0 <= k <= body_length r - cursor r ->
  body_stored data (set_cursor r (cursor r + k)) b
  /\ unread data (set_cursor r (cursor r + k)) b = drop (Z.to_nat k) (unread data r b).
Proof.
  intros [Hb Hc Hl Hd Hy] Hk. split; [split; cbn; done || lia|]. unfold unread. cbn.
  rewrite skipn_firstn_comm, drop_drop. f_equal; [lia|]. f_equal. lia.
Qed.

Lemma set_cursor_same r : set_cursor r (cursor r) = r.
Proof. by destruct r. Qed.

Lemma set_cursor_twice r k k' : set_cursor (set_cursor r k) k' = set_cursor r k'.
Proof. done. Qed.

Lemma set_buffer_same m buf : wm_buffer m = Some buf -> set_buffer m buf = m.
Proof. intros E. unfold set_buffer. rewrite <- E. by destruct m. Qed.

Lemma mem_wf_buffer m buf buf' : mem_wf m buf -> (forall a, is_byte (buf' a)) -> mem_wf (set_buffer m buf') buf'.
Proof. intros [? ? ? ? ?] ?. by split. Qed.

Lemma mem_store_in m buf off l :
  mem_wf m buf -> 0 <= off -> off + Z.of_nat (length l) <= wm_size m ->
  mem_store m off l = Ret (set_buffer m (store_bytes buf off l)).
Proof.
  intros W H0 H1. unfold mem_store. rewrite (wf_buffer _ _ W). ostep. by rewrite (accessible_in m buf).
Qed.

Definition iovec_of (e : Z * Z) : __wasi_iovec_t := mk_iovec (Some e.1) e.2.

(** The loop fills the buffers in order until they or the body run out. *)
Lemma read_iovs_ok data b entries : forall m buf r,
  mem_wf m buf -> body_stored data r b -> Forall (in_memory (wm_size m)) entries ->
  read_iovs data m r (iovec_of <$> entries)
  = Ret (set_buffer m (scatter buf entries (unread data r b)),
         set_cursor r (cursor r + Z.min (Z.of_nat (capacity entries)) (body_length r - cursor r))).
Proof.
  induction entries as [|e entries IH]; intros m buf r W B Hm; cbn [fmap list_fmap read_iovs scatter].
  - cbn [capacity]. pose proof (bst_cursor _ _ _ B). rewrite Z.min_l by (cbn; lia).
    by rewrite Z.add_0_r, set_cursor_same, set_buffer_same by apply W.
  - pose proof (length_unread _ _ _ B) as Hu. destruct (Z.eqb_spec (body_length r - cursor r) 0) as [E|E].
    { rewrite Z.min_r by lia. rewrite E, Z.add_0_r, set_cursor_same.
      destruct (unread data r b); [|cbn in Hu; lia]. by rewrite set_buffer_same by apply W. }
    inversion Hm as [|? ? (H1 & H2 & H3 & H4) Hm']; subst. destruct B as [Hb Hc Hl Hd Hy] eqn:EB.
    cbn [iovec_of iov_len iov_buf]. rewrite u32_small by (unfold UINT32_MAX; lia).
    set (k := if body_length r - cursor r <? e.2 then body_length r - cursor r else swrap 32 e.2).
    assert (Ek : k = Z.min (body_length r - cursor r) e.2).
    { unfold k. destruct (Z.ltb_spec (body_length r - cursor r) e.2); [lia|]. rewrite swrap_small by lia. lia. }
    clearbody k. rewrite Hb. ostep. unfold copy_from.
    rewrite (proj2 (Z.leb_le 0 (b + cursor r))), (proj2 (Z.leb_le 0 k)), (proj2 (Z.leb_le (_ + _) _)) by lia. ostep.
    assert (El : take (Z.to_nat k) (drop (Z.to_nat (b + cursor r)) (data ++ [0])) = take (Z.to_nat e.2) (unread data r b)).
    { unfold unread. rewrite drop_app_le, take_app_le by (rewrite ?length_drop; lia). rewrite take_take. f_equal. lia. }
    rewrite El. cbn [andb]. ostep. rewrite (mem_store_in m buf) by (done || rewrite ?length_take; lia). ostep.
    rewrite swrap_small by lia.
    destruct (unread_advance data r b k B ltac:(lia)) as [B' Eu].
    assert (W' : mem_wf (set_buffer m (store_bytes buf e.1 (take (Z.to_nat e.2) (unread data r b))))
                   (store_bytes buf e.1 (take (Z.to_nat e.2) (unread data r b)))).
    { apply mem_wf_store; [done|]. by apply Forall_take, Forall_take, Forall_drop. }
    rewrite (IH _ _ _ W' B' Hm'), Eu, set_cursor_twice. cbn [cursor body_length set_cursor set_body].
    assert (Ec : (capacity (e :: entries) = Z.to_nat e.2 + capacity entries)%nat) by done. rewrite Ec.
    destruct (unread data r b) as [|x u] eqn:Eun; [cbn in Hu; lia|]. rewrite <- Eun in *.
    f_equal. f_equal; [|f_equal; lia].
    destruct (Z.min_spec (body_length r - cursor r) e.2) as [[? Em]|[? Em]]; rewrite Em in Ek; subst k; [|done].
    rewrite !drop_ge by lia. done.
Qed.

(** ** Arguments *)

(** The strings as they lie in a buffer, each with its terminator. *)
Definition c_strings (strings : list (list Z)) : list Z := concat ((fun s => s ++ [0]) <$> strings).

Fixpoint starts (strings : list (list Z)) (off : Z) : list Z :=
  match strings with
  | [] => []
  | s :: strings => off :: starts strings (off + Z.of_nat (length s) + 1)
  end.

Definition size_of (strings : list (list Z)) : Z := Z.of_nat (length (c_strings strings)).

Lemma c_strings_cons s strings : c_strings (s :: strings) = (s ++ [0]) ++ c_strings strings.
Proof. done. Qed.

Lemma size_of_cons s strings : size_of (s :: strings) = Z.of_nat (length s) + 1 + size_of strings.
Proof. unfold size_of. rewrite c_strings_cons, !length_app. cbn. lia. Qed.

Lemma length_starts strings : forall off, length (starts strings off) = length strings.
Proof. induction strings as [|s strings IH]; intros off; cbn; [done|]. by rewrite IH. Qed.

Lemma string_offsets_ok strings : forall off,
  0 <= off -> off + size_of strings <= UINT32_MAX -> string_offsets strings off = (starts strings off, off + size_of strings).
Proof.
  induction strings as [|s strings IH]; intros off H0 Hs; cbn [string_offsets starts].
  - by rewrite Z.add_0_r.
  - rewrite size_of_cons in *. assert (0 <= size_of strings) by (unfold size_of; lia).
    rewrite u32_small, IH by lia. f_equal. lia.
Qed.

Lemma copy_strings_ok strings : forall done_ off,
  off = Z.of_nat (length done_) ->
  copy_strings (done_ ++ replicate (Z.to_nat (size_of strings)) 0) strings (starts strings off) = Ret (done_ ++ c_strings strings).
Proof.
  induction strings as [|s strings IH]; intros d off Hd; cbn [copy_strings starts].
  - done.
  - rewrite size_of_cons. assert (Hs : 0 <= size_of strings) by (unfold size_of; lia). unfold buf_write.
    rewrite (proj2 (Z.leb_le 0 off)), (proj2 (Z.leb_le (_ + _) _)) by (rewrite ?length_app, ?length_replicate; cbn; lia).
    cbn [andb]. ostep. rewrite Hd, Nat2Z.id, take_app_length, drop_app_add.
    rewrite drop_replicate, c_strings_cons, length_app. cbn [length].
    replace (Z.to_nat (Z.of_nat (length s) + 1 + size_of strings) - (length s + 1))%nat with (Z.to_nat (size_of strings)) by lia.
    rewrite !(assoc_L (++)). apply (IH ((d ++ s) ++ [0])). rewrite !length_app. cbn. lia.
Qed.

(** The string that starts at an offset of the table. *)
Lemma starts_lookup strings : forall off i s,
  strings !! i = Some s ->
  exists k, starts strings off !! i = Some (off + Z.of_nat k)
    /\ take (S (length s)) (drop k (c_strings strings)) = s ++ [0]
    /\ (k + S (length s) <= length (c_strings strings))%nat.
Proof.
  induction strings as [|s' strings IH]; intros off i s E; [done|]. destruct i as [|i]; cbn in E.
  - injection E as ->. exists 0%nat. rewrite c_strings_cons. split; [cbn; f_equal; lia|].
    assert (El : length (s ++ [0]) = S (length s)) by (rewrite length_app; cbn; lia). split.
    + rewrite <- El. apply take_app_length.
    + rewrite length_app, El. lia.
  - destruct (IH (off + Z.of_nat (length s') + 1) i s E) as (k & Ek & Et & Hk).
    assert (El : length (s' ++ [0]) = S (length s')) by (rewrite length_app; cbn; lia).
    exists (S (length s') + k)%nat. split; [transitivity (starts strings (off + Z.of_nat (length s') + 1) !! i); [done|]; rewrite Ek; f_equal; lia|].
    rewrite c_strings_cons. split.
    + rewrite <- El, drop_app_add. done.
    + rewrite length_app, El. lia.
Qed.

Lemma context_arguments strings :
  0 < Z.of_nat (length strings) -> size_of strings <= UINT32_MAX ->
  wasi_context_init (mk_wasi_options (Z.of_nat (length strings)) (Some strings) None) all_allocated
  = Ret (mk_wasi_context (Z.of_nat (length strings)) (Some (starts strings 0)) (Some (c_strings strings)) (size_of strings)
           0 None None 0).
Proof.
  intros H0 Hs. unfold wasi_context_init. cbn [opt_argc opt_argv opt_envp default].
  rewrite (proj2 (Z.ltb_lt 0 (Z.of_nat (length strings)))) by lia. ostep.
  rewrite (proj2 (Z.ltb_ge (Z.of_nat (length strings)) _)) by lia.
  rewrite Nat2Z.id, firstn_all, (string_offsets_ok strings) by lia. rewrite Z.add_0_l. cbn [negb].
  pose proof (copy_strings_ok strings [] 0 eq_refl) as Ec. cbn [app] in Ec. rewrite Ec. by ostep.
Qed.

(** ** The calls *)

(** A guest that is about to make a call between [t0] and [t1]. *)
Record guest {L} `{SpinLock L} {RQ} `{RunqueueLaws RQ} (worker_thread_idx : nat) (w : world L RQ) (l : list Z) (p : Z)
  (s : sandbox) (m : wasm_memory) (buf : bytes) (t0 t1 : Z) : Prop := {
  g_wf : wf worker_thread_idx w l;
  g_current : current w = Some p;
  g_sandbox : sandboxes w !! p = Some s;
  g_state : sb_state s = SANDBOX_RUNNING_USER;
  g_memory : sb_memory s = Some m;
  g_bytes : mem_wf m buf;
  g_times : last_state_change s < t0 < t1 /\ t1 <= UINT64_MAX;
}.

Section calls.
Context {L : Type} `{SpinLock L} {RQ : Type} `{RunqueueLaws RQ} {P : Type}.
Variable worker_thread_idx : nat.
Implicit Types w : world L RQ.
Implicit Types n : net P.
Abbreviation guest := (guest worker_thread_idx).

(** The worker after a call of [p]: in order, the guest running with memory [m]. *)
Definition returned w w' (l : list Z) (p : Z) (s : sandbox) (m : wasm_memory) (t1 : Z) : Prop :=
  wf worker_thread_idx w' l /\ exists s', sandboxes w' = <[p := s']> (sandboxes w) /\ sb_state s' = SANDBOX_RUNNING_USER
    /\ sb_memory s' = Some m /\ sb_http s' = sb_http s /\ last_state_change s' = t1.

Lemma call_returns {A} w n l p s m buf t0 t1 (body : sandbox -> wasm_memory -> net P -> outcome (A * wasm_memory * net P))
  r buf' n' :
  guest w l p s m buf t0 t1 -> body (in_call s t0) m n = Ret (r, set_buffer m buf', n') ->
  exists w', in_syscall w n t0 t1 body = Ret (r, w', n') /\ returned w w' l p s (set_buffer m buf') t1.
Proof.
  intros G Hb. destruct G as [W Hc E Hs Em Wm [Ht Ht1]].
  destruct (in_syscall_ok worker_thread_idx w n l p s m t0 t1 body r _ n' W Hc E Hs Em Ht Ht1 Hb) as (w' & s' & Ew & W' & ?);
    [by eexists|done..|]. exists w'. split; [done|]. split; [done|]. by exists s'.
Qed.

Lemma syscall_stops {A} w n l p s m buf t0 t1 (body : sandbox -> wasm_memory -> net P -> outcome (A * wasm_memory * net P)) e :
  guest w l p s m buf t0 t1 -> body (in_call s t0) m n = Stop e -> in_syscall w n t0 t1 body = Stop e.
Proof.
  intros G Hb. destruct G as [W Hc E Hs Em Wm [Ht Ht1]].
  destruct (in_syscall_enter worker_thread_idx w n l p s m t0 t1 body W Hc E Hs Em ltac:(lia)) as (w1 & _ & _ & _ & ->).
  by rewrite Hb.
Qed.

Lemma get_memory_ptr_ok m off len : off + len < wm_size m -> get_memory_ptr_for_runtime m off len = Ret off.
Proof. intros Hl. unfold get_memory_ptr_for_runtime. by rewrite (proj2 (Z.ltb_lt _ _)). Qed.

Lemma check_bounds_ok m off len :
  0 <= off -> off + len <= wm_size m -> len < wm_size m <= WASM_MEMORY_MAX -> check_bounds m off len = Ret tt.
Proof.
  intros ? ? ?. unfold check_bounds. destruct (Z.ltb_spec len WASM_PAGE_SIZE) as [Hl|Hl]; [done|].
  unfold WASM_PAGE_SIZE, WASM_MEMORY_MAX, UINT32_MAX in *. rewrite u64_small by (unfold UINT64_MAX; lia).
  by rewrite (proj2 (Z.ltb_lt _ _)), (proj2 (Z.leb_le _ _)) by lia.
Qed.

(** The guest's array of buffers: in memory, and read as it stands. *)
Record iovs_ok (m : wasm_memory) (iovs iovs_len : Z) : Prop := {
  io_base : 0 <= iovs;
  io_len : 0 <= iovs_len;
  io_in : iovs + 8 * iovs_len <= wm_size m;
  io_part : 8 * iovs_len < wm_size m;
}.

Lemma iovs_checked m buf iovs iovs_len :
  mem_wf m buf -> iovs_ok m iovs iovs_len -> check_bounds m iovs (u32 (8 * iovs_len)) = Ret tt.
Proof.
  intros W [? ? ? ?]. destruct (wf_size _ _ W). pose proof (wf_capacity _ _ W). unfold WASM_MEMORY_MAX in *.
  rewrite u32_small by lia. apply check_bounds_ok; unfold WASM_MEMORY_MAX; lia.
Qed.

Lemma iovs_read m buf iovs iovs_len :
  mem_wf m buf -> iovs_ok m iovs iovs_len ->
  let entries := iovec_entries buf iovs (Z.to_nat iovs_len) in
  if decide (Forall (iovec_in_bounds (wm_size m)) entries)
  then wasi_serdes_readv_iovec_t m (wm_size m) iovs (Z.to_nat iovs_len) = Ret (__WASI_ERRNO_SUCCESS, iovec_of <$> entries)
       /\ Forall (in_memory (wm_size m)) entries
  else exists l, wasi_serdes_readv_iovec_t m (wm_size m) iovs (Z.to_nat iovs_len) = Ret (__WASI_ERRNO_OVERFLOW, l).
Proof.
  intros W [? ? ? ?] entries. destruct (wf_size _ _ W). pose proof (wf_capacity _ _ W). unfold WASM_MEMORY_MAX, UINT32_MAX in *.
  pose proof (readv_ok m buf (wm_size m) (Z.to_nat iovs_len) iovs (wf_buffer _ _ W) (wf_bytes _ _ W) ltac:(lia)
    ltac:(apply (accessible_in m buf); lia || done)) as R. fold entries in R.
  case_decide as Hf; [|done]. split; [done|]. unfold entries, iovec_entries in *. rewrite Forall_fmap in Hf |- *.
  eapply Forall_impl; [|exact Hf]. intros i Hi. pose proof (load_range buf (iovs + 8 * Z.of_nat i) 4 (wf_bytes _ _ W)).
  pose proof (load_range buf (iovs + 8 * Z.of_nat i + 4) 4 (wf_bytes _ _ W)). cbn. split; [|split]; [cbn in *; lia..|done].
Qed.

Lemma stdin_backing n m buf a hs b entries nread :
  mem_wf m buf -> n_sessions n !! a = Some hs -> body_stored (ab_data (request_buffer hs)) (hs_request hs) b ->
  Forall (in_memory (wm_size m)) entries -> 0 <= nread -> nread + 4 < wm_size m ->
  let r := hs_request hs in
  let rest := unread (ab_data (request_buffer hs)) r b in
  let k := Z.min (Z.of_nat (capacity entries)) (body_length r - cursor r) in
  wasi_snapshot_preview1_backing_fd_read n (Some a) m STDIN_FILENO (iovec_of <$> entries) nread
  = Ret (__WASI_ERRNO_SUCCESS, set_buffer m (store_bytes (scatter buf entries rest) nread (le_split 4 k)),
         session_put n a (set_hs_request hs (set_cursor r (cursor r + k)))).
Proof.
  intros W E B Hm Hn Hn' r rest k. unfold wasi_snapshot_preview1_backing_fd_read. cbn [Z.eqb STDIN_FILENO]. ostep.
  rewrite (session_at_ok n a hs E). ostep. pose proof (bst_cursor _ _ _ B).
  rewrite (proj2 (Z.leb_le 0 _)) by lia. ostep. rewrite (read_iovs_ok _ b entries m buf) by done. ostep.
  assert (W' : mem_wf (set_buffer m (scatter buf entries rest)) (scatter buf entries rest)).
  { apply (mem_wf_buffer m buf); [done|]. apply scatter_byte; [apply W|]. apply Forall_take, Forall_drop, (bst_bytes _ _ _ B). }
  fold r k rest. rewrite (mem_store_in _ (scatter buf entries rest)) by (done || rewrite ?length_le_split; cbn; lia). ostep.
  cbn [cursor set_cursor set_body]. by replace (cursor r + k - cursor r) with k by lia.
Qed.

(** C19: Standard input is the body of the request.  A read of descriptor 0 with
    an array of buffers that lie in linear memory succeeds: the buffers are
    filled in order with the next bytes of the body, as many as fit or are left,
    that number is stored for the guest, the cursor moves by it (so the next
    read goes on there), and nothing else of the session changes.  With separate
    buffers the guest finds exactly these bytes.  When a buffer leaves the memory
    the call reports an overflow and neither memory nor session change.  In both
    cases the worker is in order and the guest goes on running. *)
Theorem fd_read_delivers_body w n l p s m buf a hs b iovs iovs_len nread t0 t1 :
  guest w l p s m buf t0 t1 -> sb_http s = Some a -> n_sessions n !! a = Some hs ->
  body_stored (ab_data (request_buffer hs)) (hs_request hs) b ->
  iovs_ok m iovs iovs_len -> 0 <= nread -> nread + 4 < wm_size m ->
  let r := hs_request hs in
  let rest := unread (ab_data (request_buffer hs)) r b in
  let entries := iovec_entries buf iovs (Z.to_nat iovs_len) in
  let k := Z.min (Z.of_nat (capacity entries)) (body_length r - cursor r) in
  let buf' := store_bytes (scatter buf entries rest) nread (le_split 4 k) in
  let call := sledge_abi__wasi_snapshot_preview1_fd_read w n true STDIN_FILENO iovs iovs_len nread t0 t1 in
  (Forall (iovec_in_bounds (wm_size m)) entries ->
   (exists w', call = Ret (__WASI_ERRNO_SUCCESS, w', session_put n a (set_hs_request hs (set_cursor r (cursor r + k))))
      /\ returned w w' l p s (set_buffer m buf') t1)
   /\ body_stored (ab_data (request_buffer hs)) (set_cursor r (cursor r + k)) b
   /\ unread (ab_data (request_buffer hs)) (set_cursor r (cursor r + k)) b = drop (Z.to_nat k) rest
   /\ (ForallOrdPairs apart ((nread, 4) :: entries) ->
       take (Z.to_nat k) (gather buf' entries) = take (Z.to_nat k) rest
       /\ le_combine (load_bytes buf' nread 4) = k))
  /\ (~ Forall (iovec_in_bounds (wm_size m)) entries ->
      exists w', call = Ret (__WASI_ERRNO_OVERFLOW, w', n) /\ returned w w' l p s m t1).
Proof.
  intros G Hh Hses B Hio Hn Hn' r rest entries k buf' call. pose proof (g_bytes _ _ _ _ _ _ _ _ _ G) as W.
  pose proof (iovs_read m buf iovs iovs_len W Hio) as R. cbv zeta in R. fold entries in R.
  pose proof (bst_cursor _ _ _ B) as Hcur. fold r in Hcur. assert (Hk : 0 <= k <= body_length r - cursor r) by (unfold k; lia).
  split; intros Hf.
  - rewrite decide_True in R by done. destruct R as [R Hm].
    destruct (unread_advance _ _ _ k B Hk) as [B' Eu].
    split; [|split; [done|split; [done|]]].
    + eapply call_returns; [exact G|]. rewrite get_memory_ptr_ok by done. ostep.
      rewrite (iovs_checked m buf) by done. ostep. rewrite R. ostep. cbn [Z.eqb negb].
      change (sb_http (in_call s t0)) with (sb_http s). rewrite Hh. by apply stdin_backing.
    + intros Ha. inversion Ha as [|? ? Hap Hpairs]; subst. split.
      * unfold buf'. rewrite (gather_out (wm_size m)) by done.
        pose proof (scatter_gather (wm_size m) entries buf rest Hm Hpairs) as Eg.
        apply (f_equal (take (Z.to_nat k))) in Eg. rewrite !take_take in Eg.
        pose proof (length_unread _ _ _ B) as Hu. fold r rest in Hu.
        by rewrite !Nat.min_l in Eg by (unfold k; lia).
      * unfold buf'. pose proof (load_store_eq (scatter buf entries rest) nread (le_split 4 k)) as El.
        rewrite length_le_split in El. rewrite El, le_combine_split. apply Z.mod_small.
        pose proof (bst_length _ _ _ B) as Hlen. fold r in Hlen. change (256 ^ Z.of_nat 4) with (2 ^ 32). lia.
  - rewrite decide_False in R by done. destruct R as [lo R].
    assert (Es : set_buffer m buf = m) by (apply set_buffer_same, W). rewrite <- Es.
    eapply call_returns; [exact G|]. rewrite get_memory_ptr_ok by done. ostep.
    rewrite (iovs_checked m buf) by done. ostep. rewrite R. ostep. by rewrite Es.
Qed.

(** ** Standard output *)

Lemma write_iovs_ok m buf entries : forall out room nw,
  mem_wf m buf -> Forall (in_memory (wm_size m)) entries -> ab_handle out = true -> 0 <= nw ->
  (forall i e, entries !! i = Some e -> e.2 <= room i) ->
  write_iovs m out (iovec_of <$> entries) room (u32 nw)
  = Ret (__WASI_ERRNO_SUCCESS, stream_write out (gather buf entries), u32 (nw + Z.of_nat (capacity entries))).
Proof.
  induction entries as [|e entries IH]; intros out room nw W Hm Ho Hw Hr; cbn [fmap list_fmap write_iovs].
  - unfold stream_write. rewrite app_nil_r, Z.add_0_r. by destruct out.
  - inversion Hm as [|? ? (? & ? & _ & ?) Hm']; subst. unfold write_iov. cbn [iov_buf iov_len iovec_of]. ostep.
    rewrite (wf_buffer _ _ W). ostep. rewrite (accessible_in m buf), Ho by (done || lia). ostep.
    rewrite (Z.min_l e.2 (room 0%nat)), Z.eqb_refl by (by apply (Hr 0%nat)). cbn [negb].
    replace (u32 (u32 nw + e.2)) with (u32 (nw + e.2)) by (unfold u32, wrap; by rewrite Zplus_mod_idemp_l).
    rewrite IH by (done || lia || by intros i e' Ei; apply (Hr (S i))). f_equal. f_equal; [f_equal|].
    + unfold stream_write. cbn. by rewrite <- (assoc_L (++)).
    + f_equal. assert (Ec : (capacity (e :: entries) = Z.to_nat e.2 + capacity entries)%nat) by done. rewrite Ec. lia.
Qed.

(** A short write: what it took is in the stream. *)
Lemma write_iovs_short m buf entries : forall out room nw k e,
  mem_wf m buf -> Forall (in_memory (wm_size m)) entries -> ab_handle out = true ->
  entries !! k = Some e -> 0 <= room k < e.2 -> (forall i e', (i < k)%nat -> entries !! i = Some e' -> e'.2 <= room i) ->
  exists nw', write_iovs m out (iovec_of <$> entries) room nw
    = Ret (__WASI_ERRNO_FBIG, stream_write out (gather buf (take k entries) ++ load_bytes buf e.1 (Z.to_nat (room k))), nw').
Proof.
  induction entries as [|e0 entries IH]; intros out room nw k e W Hm Ho Ek Hk Hr; [done|]. cbn [fmap list_fmap write_iovs].
  inversion Hm as [|? ? (? & ? & _ & ?) Hm']; subst. unfold write_iov. cbn [iov_buf iov_len iovec_of]. ostep.
  rewrite (wf_buffer _ _ W). ostep. rewrite (accessible_in m buf), Ho by (done || lia). ostep. destruct k as [|k].
  - injection Ek as ->. rewrite (Z.min_r e.2 (room 0%nat)) by lia. rewrite (proj2 (Z.eqb_neq (room 0%nat) e.2)) by lia. by eexists.
  - rewrite (Z.min_l e0.2 (room 0%nat)), Z.eqb_refl by (apply (Hr 0%nat); [lia|done]). cbn [negb].
    destruct (IH (stream_write out (load_bytes buf e0.1 (Z.to_nat e0.2))) (fun i => room (S i)) (u32 (nw + e0.2)) k e) as [nw' ->]; try done.
    { intros i e' Hi Ei. apply (Hr (S i)); [lia|done]. }
    exists nw'. f_equal. f_equal. f_equal. unfold stream_write, gather. cbn. by rewrite <- !(assoc_L (++)).
Qed.

Lemma readv_ciovec m end_ iovs k : wasi_serdes_readv_ciovec_t m end_ iovs k = wasi_serdes_readv_iovec_t m end_ iovs k.
Proof. done. Qed.

(** C20: Standard output and standard error are the body of the response.  A
    write of descriptor 1 or 2 appends the bytes of the buffers, in order, to
    the body of the response of the guest's own session, stores their number,
    leaves the rest of linear memory and of the session as they were, and
    reports success; a buffer that leaves the memory makes the call report an
    overflow and write nothing.  When the stream takes less than a buffer holds
    ([room] is what it takes of each), the call reports that the file is too big: the
    bytes it took are in the body and the number is not stored.  The worker is in order
    and the guest runs on. *)
Theorem fd_write_appends_response w n l p s m buf a hs fd iovs iovs_len room nwritten t0 t1 :
  guest w l p s m buf t0 t1 -> sb_http s = Some a -> n_sessions n !! a = Some hs -> ab_handle (response_body hs) = true ->
  fd = STDOUT_FILENO \/ fd = STDERR_FILENO ->
  iovs_ok m iovs iovs_len -> 0 <= nwritten -> nwritten + 4 < wm_size m ->
  let entries := iovec_entries buf iovs (Z.to_nat iovs_len) in
  let buf' := store_bytes buf nwritten (le_split 4 (u32 (Z.of_nat (capacity entries)))) in
  let call := sledge_abi__wasi_snapshot_preview1_fd_write w n true room fd iovs iovs_len nwritten t0 t1 in
  (Forall (iovec_in_bounds (wm_size m)) entries -> (forall i e, entries !! i = Some e -> e.2 <= room i) ->
   exists w', call = Ret (__WASI_ERRNO_SUCCESS, w',
                session_put n a (set_response_body hs (stream_write (response_body hs) (gather buf entries))))
     /\ returned w w' l p s (set_buffer m buf') t1)
  /\ (forall k e, Forall (iovec_in_bounds (wm_size m)) entries -> entries !! k = Some e -> 0 <= room k < e.2 ->
        (forall i e', (i < k)%nat -> entries !! i = Some e' -> e'.2 <= room i) ->
        exists w', call = Ret (__WASI_ERRNO_FBIG, w', session_put n a (set_response_body hs
                     (stream_write (response_body hs) (gather buf (take k entries) ++ load_bytes buf e.1 (Z.to_nat (room k))))))
          /\ returned w w' l p s m t1)
  /\ (~ Forall (iovec_in_bounds (wm_size m)) entries ->
      exists w', call = Ret (__WASI_ERRNO_OVERFLOW, w', n) /\ returned w w' l p s m t1).
Proof.
  intros G Hh Hses Ho Hfd Hio Hn Hn' entries buf' call. pose proof (g_bytes _ _ _ _ _ _ _ _ _ G) as W.
  pose proof (iovs_read m buf iovs iovs_len W Hio) as R. cbv zeta in R. fold entries in R.
  assert (Es : set_buffer m buf = m) by (apply set_buffer_same, W).
  assert (Hb : (fd =? STDOUT_FILENO) || (fd =? STDERR_FILENO) = true) by (by destruct Hfd as [-> | ->]).
  split; [intros Hf Hr|split; [intros k e Hf Ek Hk Hr|intros Hf]]; [rewrite decide_True in R by done; destruct R as [R Hm]..|].
  - eapply call_returns; [exact G|]. rewrite get_memory_ptr_ok by done. ostep.
    rewrite (iovs_checked m buf), readv_ciovec by done. ostep. rewrite R. ostep. cbn [Z.eqb negb].
    change (sb_http (in_call s t0)) with (sb_http s). rewrite Hh. unfold wasi_snapshot_preview1_backing_fd_write. rewrite Hb. ostep.
    rewrite (session_at_ok n a hs Hses). ostep. change 0 with (u32 0) at 1. rewrite (write_iovs_ok m buf) by done. ostep.
    cbn [Z.eqb negb __WASI_ERRNO_SUCCESS]. rewrite Z.add_0_l, (mem_store_in m buf) by (done || rewrite ?length_le_split; cbn; lia). done.
  - rewrite <- Es. eapply call_returns; [exact G|]. rewrite get_memory_ptr_ok by done. ostep.
    rewrite (iovs_checked m buf), readv_ciovec by done. ostep. rewrite R. ostep. cbn [Z.eqb negb].
    change (sb_http (in_call s t0)) with (sb_http s). rewrite Hh. unfold wasi_snapshot_preview1_backing_fd_write. rewrite Hb. ostep.
    rewrite (session_at_ok n a hs Hses). ostep.
    destruct (write_iovs_short m buf entries (response_body hs) room 0 k e) as [nw' ->]; try done. ostep. by rewrite Es.
  - rewrite decide_False in R by done. destruct R as [lo R]. rewrite <- Es.
    eapply call_returns; [exact G|]. rewrite get_memory_ptr_ok by done. ostep.
    rewrite (iovs_checked m buf), readv_ciovec by done. ostep. rewrite R. ostep. by rewrite Es.
Qed.

(** ** Arguments, read by the guest *)

Lemma store_words_ok ws : forall m buf off,
  mem_wf m buf -> 0 <= off -> off + 4 * Z.of_nat (length ws) <= wm_size m ->
  exists buf', store_words m off ws = Ret (set_buffer m buf') /\ mem_wf (set_buffer m buf') buf'
    /\ (forall i v, ws !! i = Some v -> load_bytes buf' (off + 4 * Z.of_nat i) 4 = le_split 4 v)
    /\ (forall a, a < off \/ off + 4 * Z.of_nat (length ws) <= a -> buf' a = buf a).
Proof.
  induction ws as [|v ws IH]; intros m buf off W Ho Hl; cbn [store_words length] in *.
  - exists buf. rewrite set_buffer_same by apply W. done.
  - rewrite (mem_store_in m buf) by (done || rewrite ?length_le_split; cbn; lia). ostep.
    set (buf1 := store_bytes buf off (le_split 4 v)).
    assert (W1 : mem_wf (set_buffer m buf1) buf1) by (apply mem_wf_store; [done | apply le_split_bytes]).
    destruct (IH _ buf1 (off + 4) W1) as (buf' & E & W' & Hw & Hout); [lia | cbn; lia |].
    exists buf'. split; [done|]. split; [done|]. split.
    + intros [|i] x Ex; cbn in Ex.
      * injection Ex as <-. rewrite Z.mul_0_r, Z.add_0_r. rewrite (load_bytes_ext buf' buf1) by (intros a Ha; apply Hout; cbn in Ha; lia).
        pose proof (load_store_eq buf off (le_split 4 v)) as El. by rewrite length_le_split in El.
      * rewrite <- (Hw i x Ex). f_equal. lia.
    + intros a Ha. rewrite Hout by lia. unfold buf1. apply store_bytes_out. rewrite length_le_split. cbn. lia.
Qed.

(** The room the guest gives: a vector of [argc] words at [argv_off] and the
    strings at [buf_off]. *)
Record args_room (m : wasm_memory) (strings : list (list Z)) (argv_off buf_off : Z) : Prop := {
  ar_argv : 0 <= argv_off /\ argv_off + 4 * Z.of_nat (length strings) < wm_size m;
  ar_buf : 0 <= buf_off /\ buf_off + size_of strings < wm_size m;
  ar_apart : apart (argv_off, 4 * Z.of_nat (length strings)) (buf_off, size_of strings);
  ar_size : wm_size m <= UINT32_MAX + 1;
  ar_bytes : Forall (Forall is_byte) strings;
  ar_some : strings <> [];
}.

Definition pointers (strings : list (list Z)) (buf_off : Z) : list Z := (fun k => buf_off + k) <$> starts strings 0.

Lemma c_strings_bytes strings : Forall (Forall is_byte) strings -> Forall is_byte (c_strings strings).
Proof.
  intros Hb. unfold c_strings. apply Forall_concat, Forall_fmap. eapply Forall_impl; [|exact Hb].
  intros x Hx. apply Forall_app. split; [done|]. by repeat constructor.
Qed.

Lemma starts_range strings : forall off k, k ∈ starts strings off -> off <= k < off + size_of strings.
Proof.
  induction strings as [|s strings IH]; intros off k Hk; cbn in Hk; [by apply not_elem_of_nil in Hk|].
  rewrite size_of_cons. assert (0 <= size_of strings) by (unfold size_of; lia).
  apply elem_of_cons in Hk as [->|Hk]; [lia|]. apply IH in Hk. lia.
Qed.

Lemma unswizzle_pointers m strings argv_off buf_off :
  args_room m strings argv_off buf_off -> unswizzle buf_off (pointers strings buf_off) = pointers strings buf_off.
Proof.
  intros R. destruct (ar_buf _ _ _ _ R). pose proof (ar_size _ _ _ _ R).
  assert (Hp : Forall (fun k => buf_off <= k < buf_off + size_of strings) (pointers strings buf_off)).
  { unfold pointers. apply Forall_fmap, Forall_forall. intros k Hk. apply list_elem_of_In, starts_range in Hk. cbn. lia. }
  assert (E : exists rest, pointers strings buf_off = buf_off + 0 :: rest).
  { destruct strings; [by destruct (ar_some _ _ _ _ R)|]. by eexists. }
  destruct E as [rest E]. rewrite E in *. cbn [unswizzle]. etransitivity; [|apply list_fmap_id].
  apply list_fmap_ext. intros i k Ek. pose proof (Forall_lookup_1 _ _ _ _ Hp Ek) as Hk. cbn in Hk.
  rewrite (u32_small (_ - _)), u32_small; unfold UINT32_MAX, id in *; lia.
Qed.

(** The two regions, as the guest reads them. *)
Lemma args_laid_out m buf strings argv_off buf_off :
  mem_wf m buf -> args_room m strings argv_off buf_off ->
  exists buf', store_words (set_buffer m (store_bytes buf buf_off (c_strings strings))) argv_off (pointers strings buf_off)
               = Ret (set_buffer m buf')
    /\ (forall i str, strings !! i = Some str ->
          load_bytes buf' (le_combine (load_bytes buf' (argv_off + 4 * Z.of_nat i) 4)) (S (length str)) = str ++ [0])
    /\ (forall a, a < argv_off \/ argv_off + 4 * Z.of_nat (length strings) <= a ->
          a < buf_off \/ buf_off + size_of strings <= a -> buf' a = buf a).
Proof.
  intros W R. destruct R as [[Ha Ha'] [Hb Hb'] Hap Hsz Hby Hne]. unfold pointers.
  set (buf1 := store_bytes buf buf_off (c_strings strings)).
  assert (W1 : mem_wf (set_buffer m buf1) buf1) by (by apply mem_wf_store; [|apply c_strings_bytes]).
  destruct (store_words_ok ((fun k => buf_off + k) <$> starts strings 0) _ buf1 argv_off W1) as (buf' & Es & W' & Hw & Hout);
    rewrite ?length_fmap, ?length_starts in *; [done | cbn; lia |].
  exists buf'. split; [done|]. split.
  - intros i str Ei. destruct (starts_lookup strings 0 i str Ei) as (k & Ek & Et & Hk).
    rewrite (Hw i (buf_off + Z.of_nat k)) by (by rewrite list_lookup_fmap, Ek).
    unfold size_of, apart in *. cbn [fst snd] in *. rewrite le_combine_split, Z.mod_small
      by (change (256 ^ Z.of_nat 4) with (UINT32_MAX + 1); lia).
    rewrite (load_bytes_ext buf' buf1) by (intros a Hra; apply Hout; lia).
    unfold buf1. rewrite load_store_part by done. done.
  - intros a Ha1 Ha2. rewrite Hout by done. by apply store_bytes_out.
Qed.

Definition args_context (strings : list (list Z)) : wasi_context_t :=
  mk_wasi_context (Z.of_nat (length strings)) (Some (starts strings 0)) (Some (c_strings strings)) (size_of strings)
    0 None None 0.

Lemma backing_args_get_ok m buf strings argv_off buf_off :
  mem_wf m buf -> args_room m strings argv_off buf_off ->
  wasi_snapshot_preview1_backing_args_get (args_context strings) m buf_off
  = Ret (__WASI_ERRNO_SUCCESS, pointers strings buf_off, set_buffer m (store_bytes buf buf_off (c_strings strings))).
Proof.
  intros W R. destruct (ar_buf _ _ _ _ R). unfold wasi_snapshot_preview1_backing_args_get, args_context.
  cbn [argc argv_buf_size argv_buf argv]. rewrite (proj2 (Z.ltb_lt 0 _))
    by (destruct strings; [by destruct (ar_some _ _ _ _ R)|cbn; lia]). ostep.
  unfold size_of. rewrite !Nat2Z.id, (take_ge (c_strings strings)), (mem_store_in m buf) by (done || unfold size_of in *; lia). ostep.
  rewrite take_ge by (by rewrite length_starts). done.
Qed.

Lemma args_get_ok w n l p s m buf strings argv_off buf_off t0 t1 buf' :
  guest w l p s m buf t0 t1 -> args_room m strings argv_off buf_off ->
  store_words (set_buffer m (store_bytes buf buf_off (c_strings strings))) argv_off (pointers strings buf_off)
    = Ret (set_buffer m buf') ->
  exists w', sledge_abi__wasi_snapshot_preview1_args_get w n (args_context strings) true argv_off buf_off t0 t1
             = Ret (__WASI_ERRNO_SUCCESS, w', n) /\ returned w w' l p s (set_buffer m buf') t1.
Proof.
  intros G R Es. pose proof (g_bytes _ _ _ _ _ _ _ _ _ G) as W. destruct (ar_argv _ _ _ _ R), (ar_buf _ _ _ _ R).
  pose proof (ar_size _ _ _ _ R). eapply call_returns; [exact G|].
  cbn [argc argv_buf_size args_context]. rewrite (proj2 (Z.eqb_neq _ 0))
    by (destruct strings; [by destruct (ar_some _ _ _ _ R)|cbn; lia]).
  rewrite (u32_small (4 * _)) by lia. rewrite !get_memory_ptr_ok by done. ostep. cbn [negb].
  fold (args_context strings). rewrite (backing_args_get_ok m buf strings argv_off) by done. ostep. cbn [Z.eqb negb].
  by rewrite (unswizzle_pointers m strings argv_off), Es by done.
Qed.

(** C27: A sandbox finds its arguments.  The runtime passes the module's path and
    the values of the query parameters; from them it builds the context; and the
    guest that asks for its arguments, with room for them in two separate parts
    of its memory, reads at the [i]-th word of the vector the address of the
    [i]-th string, terminated.  Nothing else of its memory changes, the call
    reports success, the worker is in order and the guest runs on. *)
Theorem arguments_roundtrip w n l p s m buf path r argv_off buf_off t0 t1 :
  guest w l p s m buf t0 t1 -> 0 <= query_params_count r <= Z.of_nat (length (query_params r)) ->
  let strings := path :: (qp_value <$> take (Z.to_nat (query_params_count r)) (query_params r)) in
  args_room m strings argv_off buf_off ->
  exists options context w' buf',
    sandbox_arguments path r = Ret options /\ wasi_context_init options all_allocated = Ret context
    /\ sledge_abi__wasi_snapshot_preview1_args_get w n context true argv_off buf_off t0 t1 = Ret (__WASI_ERRNO_SUCCESS, w', n)
    /\ returned w w' l p s (set_buffer m buf') t1
    /\ (forall i str, strings !! i = Some str ->
          load_bytes buf' (le_combine (load_bytes buf' (argv_off + 4 * Z.of_nat i) 4)) (S (length str)) = str ++ [0])
    /\ (forall a, a < argv_off \/ argv_off + 4 * Z.of_nat (length strings) <= a ->
          a < buf_off \/ buf_off + size_of strings <= a -> buf' a = buf a).
Proof.
  intros G Hq strings R. pose proof (g_bytes _ _ _ _ _ _ _ _ _ G) as W.
  destruct (ar_argv _ _ _ _ R), (ar_buf _ _ _ _ R). pose proof (ar_size _ _ _ _ R).
  destruct (args_laid_out m buf strings argv_off buf_off W R) as (buf' & Es & Hread & Hout).
  assert (Hl : query_params_count r + 1 = Z.of_nat (length strings)).
  { unfold strings. cbn [length]. rewrite length_fmap, length_take. lia. }
  destruct (args_get_ok w n l p s m buf strings argv_off buf_off t0 t1 buf' G R Es) as (w' & Ew & Hret).
  exists (mk_wasi_options (Z.of_nat (length strings)) (Some strings) None), (args_context strings), w', buf'.
  split; [|split; [|by split; [exact Ew|]]].
  - unfold sandbox_arguments. rewrite decide_True by done. by rewrite Hl.
  - apply context_arguments; lia.
Qed.

(** ** Where the calls fail *)

Lemma urandom_failing m buf_off buf_len k : forall j : nat,
  Z.of_nat (j + k) < 2 ^ 62 -> 0 < buf_len -> urandom_loop (replicate k UrandomFailed) m buf_off buf_len (- Z.of_nat j) = Stop Fuel.
Proof.
  induction k as [|k IH]; intros j Hj Hl; cbn [replicate urandom_loop]; rewrite (proj2 (Z.ltb_lt _ _)) by lia; [done|].
  replace (swrap 64 (- Z.of_nat j + UINT64_MAX)) with (- Z.of_nat (S j)); [apply IH; lia|].
  rewrite <- (swrap_small 64 (- Z.of_nat (S j))) by lia. unfold swrap.
  replace (- Z.of_nat j + UINT64_MAX) with (- Z.of_nat (S j) + 1 * 2 ^ 64) by (unfold UINT64_MAX; lia).
  by rewrite Z.mod_add by lia.
Qed.

Lemma urandom_halves m buf buf_off h1 h2 :
  mem_wf m buf -> length h1 = length h2 -> (0 < length h1)%nat -> Forall is_byte h1 -> Forall is_byte h2 -> 0 <= buf_off ->
  buf_off + Z.of_nat (length (h1 ++ h2)) < wm_size m -> Z.of_nat (length (h1 ++ h2)) < 2 ^ 32 ->
  urandom_loop [Urandom h1; Urandom h2] m buf_off (Z.of_nat (length (h1 ++ h2))) 0
  = Ret (set_buffer m (store_bytes (store_bytes buf buf_off h1) buf_off h2)).
Proof.
  intros W El Hp B1 B2 Ho Hs Hb. rewrite length_app in *. cbn [urandom_loop].
  rewrite (proj2 (Z.ltb_lt 0 _)), !take_ge by lia. rewrite (mem_store_in m buf) by (done || lia). ostep.
  rewrite Z.add_0_l, (swrap_small 64 (Z.of_nat (length h1))) by lia. rewrite (proj2 (Z.ltb_lt _ _)) by lia.
  rewrite (mem_store_in _ (store_bytes buf buf_off h1)) by (by apply mem_wf_store || (cbn; lia)). ostep.
  rewrite (swrap_small 64) by lia. by rewrite (proj2 (Z.ltb_ge _ _)) by lia.
Qed.

Lemma no_environment path r options alloc context :
  sandbox_arguments path r = Ret options -> wasi_context_init options alloc = Ret context -> envc context = 0.
Proof.
  unfold sandbox_arguments. case_decide; [|done]. intros [= <-]. unfold wasi_context_init.
  cbn [opt_argc opt_argv opt_envp wasi_options_init default string_offsets].
  change (0 <? u32 (Z.of_nat (length []))) with false.
  match goal with |- (?x ≫= _) = _ -> _ => destruct x as [[[[? ?] ?] ?]|]; ostep; [|done] end. by intros [= <-].
Qed.

(** C40: Calls that go wrong although the guest did nothing wrong.  A call for the
    environment frees a pointer that was never set, since no sandbox is given an
    environment.  A failing allocation is reported as success with nothing read.  A
    request without a length (its body's length is -1) ends the process when the guest
    reads into any buffers of its memory.  When /dev/urandom fails, the loop
    goes on: no number of failed reads (below 2^62) ends it.  And when it
    delivers its bytes in two halves, both are written at the beginning and the
    rest of the buffer keeps what it had. *)
Theorem wasi_call_defects w n l p s m buf t0 t1 :
  guest w l p s m buf t0 t1 ->
  (forall path r options alloc context ok o1 o2,
     sandbox_arguments path r = Ret options -> wasi_context_init options alloc = Ret context ->
     sledge_abi__wasi_snapshot_preview1_environ_get w n context ok o1 o2 t0 t1 = Stop Undefined)
  /\ (forall fd iovs iovs_len nread, iovs_ok m iovs iovs_len -> nread + 4 < wm_size m ->
        exists w', sledge_abi__wasi_snapshot_preview1_fd_read w n false fd iovs iovs_len nread t0 t1
                   = Ret (__WASI_ERRNO_SUCCESS, w', n) /\ returned w w' l p s m t1)
  /\ (forall a hs iovs iovs_len nread, sb_http s = Some a -> n_sessions n !! a = Some hs -> body_length (hs_request hs) = -1 ->
        iovs_ok m iovs iovs_len -> Forall (iovec_in_bounds (wm_size m)) (iovec_entries buf iovs (Z.to_nat iovs_len)) ->
        nread + 4 < wm_size m ->
        sledge_abi__wasi_snapshot_preview1_fd_read w n true STDIN_FILENO iovs iovs_len nread t0 t1 = Stop AssertFail)
  /\ (forall k random buf_off buf_len, Z.of_nat k < 2 ^ 62 -> 0 < buf_len -> buf_off + buf_len < wm_size m ->
        sledge_abi__wasi_snapshot_preview1_random_get w n true true (replicate k UrandomFailed) random buf_off buf_len t0 t1
        = Stop Fuel)
  /\ (forall h1 h2 random buf_off, length h1 = length h2 -> (0 < length h1)%nat -> Forall is_byte h1 -> Forall is_byte h2 ->
        0 <= buf_off -> buf_off + Z.of_nat (length (h1 ++ h2)) < wm_size m ->
        exists w' buf', sledge_abi__wasi_snapshot_preview1_random_get w n true true [Urandom h1; Urandom h2] random buf_off
                     (Z.of_nat (length (h1 ++ h2))) t0 t1 = Ret (__WASI_ERRNO_SUCCESS, true, w', n)
          /\ returned w w' l p s (set_buffer m buf') t1
          /\ (forall a, buf_off + Z.of_nat (length h2) <= a -> buf' a = buf a)).
Proof.
  intros G. pose proof (g_bytes _ _ _ _ _ _ _ _ _ G) as W.
  assert (Es : set_buffer m buf = m) by (apply set_buffer_same, W).
  split; [|split; [|split; [|split]]].
  - intros path r options alloc context ok o1 o2 Eo Ec. eapply syscall_stops; [exact G|].
    by rewrite (no_environment path r options alloc context Eo Ec).
  - intros fd iovs iovs_len nread Hio Hn. rewrite <- Es. eapply call_returns; [exact G|]. rewrite get_memory_ptr_ok by done. ostep.
    rewrite (iovs_checked m buf) by done. by rewrite Es.
  - intros a hs iovs iovs_len nread Hh Hses Hb Hio Hf Hn. eapply syscall_stops; [exact G|]. rewrite get_memory_ptr_ok by done. ostep.
    pose proof (iovs_read m buf iovs iovs_len W Hio) as R. cbv zeta in R. rewrite decide_True in R by done. destruct R as [R _].
    rewrite (iovs_checked m buf) by done. ostep. cbn [negb]. rewrite R. ostep. cbn [Z.eqb negb].
    change (sb_http (in_call s t0)) with (sb_http s). rewrite Hh. unfold wasi_snapshot_preview1_backing_fd_read.
    cbn [Z.eqb STDIN_FILENO]. ostep. rewrite (session_at_ok n a hs Hses). ostep. by rewrite Hb.
  - intros k random buf_off buf_len Hk Hl Hb. eapply syscall_stops; [exact G|]. rewrite get_memory_ptr_ok by done. ostep.
    unfold wasi_snapshot_preview1_backing_random_get. cbn [andb].
    pose proof (urandom_failing m buf_off buf_len k 0 Hk Hl) as Ef. change (- Z.of_nat 0) with 0 in Ef. by rewrite Ef.
  - intros h1 h2 random buf_off El Hp B1 B2 Ho Hs.
    assert (Hb : wm_size m <= 2 ^ 32) by (destruct (wf_size _ _ W); pose proof (wf_capacity _ _ W); unfold WASM_MEMORY_MAX, UINT32_MAX in *; lia).
    assert (Hc : exists w', sledge_abi__wasi_snapshot_preview1_random_get w n true true [Urandom h1; Urandom h2] random buf_off
                     (Z.of_nat (length (h1 ++ h2))) t0 t1 = Ret (__WASI_ERRNO_SUCCESS, true, w', n)
                   /\ returned w w' l p s (set_buffer m (store_bytes (store_bytes buf buf_off h1) buf_off h2)) t1).
    { eapply call_returns; [exact G|]. rewrite get_memory_ptr_ok by done. ostep.
      unfold wasi_snapshot_preview1_backing_random_get. cbn [andb]. rewrite (urandom_halves m buf) by (done || lia). done. }
    destruct Hc as (w' & Ew & Hret). exists w', (store_bytes (store_bytes buf buf_off h1) buf_off h2).
    split; [done|]. split; [done|]. intros a Ha. rewrite !store_bytes_out by lia. done.
Qed.
End calls.

(** ** A guest with two buffers, and a request with a body of six bytes *)

Definition guest_bytes : bytes :=
  store_bytes zero_bytes 0 (le_split 4 100 ++ le_split 4 3 ++ le_split 4 200 ++ le_split 4 5).

Definition guest_memory : wasm_memory := mk_wasm_memory 65536 65536 1048576 (Some guest_bytes).

Definition guest_sandbox : sandbox := set_sb_memory (demo_in SANDBOX_RUNNING_USER VARIANT_RUNNING) (Some guest_memory).

Definition guest_world : world bool runqueue_list := sb_put (busy busy_list waiting_request) 100 guest_sandbox.

Definition guest_request : http_request :=
  mk_request [47] (replicate HTTP_MAX_HEADER_COUNT zero_header) 0 3
    (mk_param [56; 57] 2 :: replicate 15 (mk_param [] 0)) 1 (Some 3) 6 6 9 true true true true 1.

Definition guest_session : http_session unit :=
  mk_session HTTP_SESSION_EXECUTING 9 tt guest_request (mk_auto_buf true [71; 13; 10; 1; 2; 3; 4; 5; 6] [] 0)
    (mk_auto_buf true [] [] 0) 0 (mk_auto_buf true [] [7] 0) 0 5 (Some 7) 10 11 0 0.

Definition guest_net : net unit := mk_net {[ 900 := guest_session ]} ∅ [] [].

Lemma guest_bytes_byte a : is_byte (guest_bytes a).
Proof. apply store_bytes_byte; [done|]. repeat (constructor; [done|]). constructor. Qed.

Lemma guest_ok : guest 0 guest_world [100; 101] 100 guest_sandbox guest_memory guest_bytes 20 30.
Proof.
  split; try done.
  - apply (memory_put_wf 0 (busy busy_list waiting_request) _ 100 _ demo_memory guest_memory); try done.
    apply busy_wf. change ([100; 101] ≡ₚ [100; 101]). reflexivity.
  - split; try done. apply guest_bytes_byte.
Qed.

Lemma guest_entries : iovec_entries guest_bytes 0 2 = [(100, 3); (200, 5)].
Proof. reflexivity. Qed.

Lemma fd_read_delivers_body_witness :
  exists w', sledge_abi__wasi_snapshot_preview1_fd_read guest_world guest_net true STDIN_FILENO 0 2 300 20 30
    = Ret (__WASI_ERRNO_SUCCESS, w', session_put guest_net 900 (set_hs_request guest_session (set_cursor guest_request 6)))
    /\ returned 0 guest_world w' [100; 101] 100 guest_sandbox
         (set_buffer guest_memory
            (store_bytes (scatter guest_bytes [(100, 3); (200, 5)] [2; 3; 4; 5; 6]) 300 (le_split 4 5))) 30.
Proof.
  apply (fd_read_delivers_body 0 guest_world guest_net [100; 101] 100 guest_sandbox guest_memory guest_bytes 900 guest_session 3
           0 2 300 20 30); try done.
  - apply guest_ok.
  - split; try done. repeat (constructor; [done|]). constructor.
  - change (Z.to_nat 2) with 2%nat. rewrite guest_entries. by repeat constructor.
Defined.

Lemma fd_write_appends_response_witness :
  exists w', sledge_abi__wasi_snapshot_preview1_fd_write guest_world guest_net true (fun _ => 8) STDERR_FILENO 0 2 300 20 30
    = Ret (__WASI_ERRNO_SUCCESS, w',
           session_put guest_net 900 (set_response_body guest_session (mk_auto_buf true [] [7; 0; 0; 0; 0; 0; 0; 0; 0] 0)))
    /\ returned 0 guest_world w' [100; 101] 100 guest_sandbox
         (set_buffer guest_memory (store_bytes guest_bytes 300 (le_split 4 8))) 30.
Proof.
  apply (fd_write_appends_response 0 guest_world guest_net [100; 101] 100 guest_sandbox guest_memory guest_bytes 900 guest_session
           STDERR_FILENO 0 2 (fun _ => 8) 300 20 30); try done.
  - apply guest_ok.
  - by right.
  - change (Z.to_nat 2) with 2%nat. rewrite guest_entries. by repeat constructor.
  - change (Z.to_nat 2) with 2%nat. rewrite guest_entries. intros [|[|i]] e; cbn; [by intros [= <-]..|done].
Defined.

Lemma arguments_roundtrip_witness :
  exists options context w' buf',
    sandbox_arguments [102] guest_request = Ret options /\ wasi_context_init options all_allocated = Ret context
    /\ sledge_abi__wasi_snapshot_preview1_args_get guest_world guest_net context true 400 500 20 30
       = Ret (__WASI_ERRNO_SUCCESS, w', guest_net)
    /\ returned 0 guest_world w' [100; 101] 100 guest_sandbox (set_buffer guest_memory buf') 30
    /\ (forall i str, [[102]; [56; 57]] !! i = Some str ->
          load_bytes buf' (le_combine (load_bytes buf' (400 + 4 * Z.of_nat i) 4)) (S (length str)) = str ++ [0])
    /\ (forall a, a < 400 \/ 408 <= a -> a < 500 \/ 505 <= a -> buf' a = guest_bytes a).
Proof.
  apply (arguments_roundtrip 0 guest_world guest_net [100; 101] 100 guest_sandbox guest_memory guest_bytes [102] guest_request
           400 500 20 30); try done.
  - apply guest_ok.
  - split; try done; [by left|]. by repeat constructor.
Defined.

Lemma wasi_call_defects_witness :
  sledge_abi__wasi_snapshot_preview1_random_get guest_world guest_net true true (replicate 1000 UrandomFailed) (fun _ => 0)
    500 16 20 30 = Stop Fuel.
Proof.
  apply (wasi_call_defects 0 guest_world guest_net [100; 101] 100 guest_sandbox guest_memory guest_bytes 20 30); try done.
  apply guest_ok.
Defined.
