(* ===== verification/ScratchStorage.v ===== *)
(** * ScratchStorage: the storage the sandboxes of a tenant share

    The storage calls of [runtime/src/sledge_abi.c] over the hash map of the
    tenant ([runtime/include/map.h]): what a guest stores, the next guest of the
    same tenant finds, and the storage of other tenants is out of reach. *)

From Stdlib Require Import ZArith Lia.
From S2P Require Import Prelude Lock Bytes WasmMemory Map WasiSerdes Globals Module Runqueue Sandbox SandboxSpec SandboxSteps Preemption.
From S2P Require Import Http HttpSession Wasi WasiSpec.
Local Open Scope Z_scope.

Section storage.
Context {L : Type} `{SpinLock L} {RQ : Type} `{RunqueueLaws RQ} {P : Type}.
Variable worker_thread_idx : nat.
Implicit Types w : world L RQ.
Implicit Types n : net P.
Abbreviation guest := (guest worker_thread_idx).
Abbreviation returned := (returned worker_thread_idx).

(** A region of the guest's memory that the runtime can reach. *)
Record region (m : wasm_memory) (off len : Z) : Prop := {
  rg_off : 0 <= off;
  rg_len : 0 <= len;
  rg_end : off + len < wm_size m;
}.

Definition region_bytes (buf : bytes) (off len : Z) : list Z := load_bytes buf off (Z.to_nat len).

Lemma memory_bytes_ok m buf off len :
  mem_wf m buf -> region m off len ->
  get_memory_ptr_for_runtime m off len = Ret off /\ memory_bytes m off len = Ret (region_bytes buf off len).
Proof.
  intros W [? ? ?]. split; [by apply get_memory_ptr_ok|]. unfold memory_bytes. rewrite (wf_buffer _ _ W). ostep.
  by rewrite (accessible_in m buf) by (done || lia).
Qed.

Lemma storage_ok {A} w n l p s m buf t0 t1 (st : stores) kv (body : map L -> wasm_memory -> outcome (A * map L * wasm_memory))
  r kv' buf' :
  guest w l p s m buf t0 t1 -> st !! sb_tenant s = Some kv -> body kv m = Ret (r, kv', set_buffer m buf') ->
  exists w', in_storage w n st t0 t1 body = Ret (r, <[sb_tenant s := kv']> st, w', n)
    /\ returned w w' l p s (set_buffer m buf') t1.
Proof.
  intros G Est Hb. unfold in_storage.
  destruct (call_returns worker_thread_idx w n l p s m buf t0 t1 (fun s m n =>
    kv ← deref (st !! sb_tenant s);
    '(r, kv, m) ← body kv m;
    Ret ((r, <[sb_tenant s := kv]> st), m, n)) (r, <[sb_tenant s := kv']> st) buf' n G) as (w' & Ew & Hret).
  - change (sb_tenant (in_call s t0)) with (sb_tenant s). rewrite Est. ostep. by rewrite Hb.
  - rewrite Ew. by exists w'.
Qed.

(** What a call reports and leaves: the abstract storage of the guest's tenant
    is [M'], that of every other tenant is untouched. *)
Definition stored w n l p s (st : stores) {A} (call : outcome (A * stores * world L RQ * net P)) (r : A)
  (M' : gmap Z (list Z)) (m' : wasm_memory) (t1 : Z) : Prop :=
  exists kv' w', call = Ret (r, <[sb_tenant s := kv']> st, w', n) /\ map_repr kv' M' /\ returned w w' l p s m' t1.

Section calls.
Context w n (l : list Z) (p : Z) (s : sandbox) (m : wasm_memory) (buf : bytes) (t0 t1 : Z).
Context (st : stores (L:=L)) (kv : map L) (M : gmap Z (list Z)) (tl tu : Z).
Context (G : guest w l p s m buf t0 t1) (Est : st !! sb_tenant s = Some kv) (Rm : map_repr kv M).
Context (Ht : 0 < tl < tu) (Hu : tu <= UINT64_MAX).
Abbreviation after call r M' m' := (stored w n l p s st call r M' m' t1).

Lemma stored_intro {A} (body : map L -> wasm_memory -> outcome (A * map L * wasm_memory)) r kv' M' buf' :
  body kv m = Ret (r, kv', set_buffer m buf') -> map_repr kv' M' ->
  after (in_storage w n st t0 t1 body) r M' (set_buffer m buf').
Proof.
  intros Hb Rm'. destruct (storage_ok w n l p s m buf t0 t1 st kv body r kv' buf' G Est Hb) as (w' & Ew & Hret).
  by exists kv', w'.
Qed.

Lemma get_size_ok key_off key_len :
  region m key_off key_len ->
  after (sledge_abi__scratch_storage_get_size w n st key_off key_len tl tu t0 t1)
    (Z.of_nat (length (default [] (M !! jenkins_hash (region_bytes buf key_off key_len))))) M m.
Proof.
  intros Rk. pose proof (g_bytes _ _ _ _ _ _ _ _ _ G) as W. rewrite <- (set_buffer_same m buf) by apply W.
  destruct (memory_bytes_ok _ _ _ _ W Rk) as [Ek Ekb].
  destruct (map_get_ok kv M (region_bytes buf key_off key_len) tl tu Rm Ht Hu) as (r & kv' & Eg & Rm' & Er).
  apply (stored_intro _ _ kv'); [|done]. rewrite (set_buffer_same m buf), Ek by apply W. ostep. rewrite Ekb. ostep.
  rewrite Eg, Er. by destruct (M !! _).
Qed.

(** [0]: the value was copied, [1]: there is none, [2]: it does not fit. *)
Lemma get_ok key_off key_len buf_off buf_len :
  region m key_off key_len -> region m buf_off buf_len ->
  let call := sledge_abi__scratch_storage_get w n st key_off key_len buf_off buf_len tl tu t0 t1 in
  match M !! jenkins_hash (region_bytes buf key_off key_len) with
  | None => after call 1 M m
  | Some v =>
    if buf_len <? Z.of_nat (length v) then after call 2 M m
    else after call 0 M (set_buffer m (store_bytes buf buf_off v))
  end.
Proof.
  intros Rk Rb call. pose proof (g_bytes _ _ _ _ _ _ _ _ _ G) as W. pose proof (set_buffer_same m buf (wf_buffer _ _ W)) as Es.
  destruct (memory_bytes_ok _ _ _ _ W Rk) as [Ek Ekb], (memory_bytes_ok _ _ _ _ W Rb) as [Eb _].
  destruct (map_get_ok kv M (region_bytes buf key_off key_len) tl tu Rm Ht Hu) as (r & kv' & Eg & Rm' & Er).
  destruct (M !! _) as [v|] eqn:EM; [destruct (Z.ltb_spec buf_len (Z.of_nat (length v))) as [Hlt|Hge]|]; try rewrite <- Es.
  - apply (stored_intro _ _ kv'); [|done]. rewrite Es, Ek, Eb. ostep. rewrite Ekb. ostep. rewrite Eg, Er. ostep.
    by rewrite (proj2 (Z.ltb_lt _ _)).
  - rewrite Es. apply (stored_intro _ _ kv'); [|done]. rewrite Ek, Eb. ostep. rewrite Ekb. ostep. rewrite Eg, Er. ostep.
    rewrite (proj2 (Z.ltb_ge _ _)) by done. rewrite Nat2Z.id, take_ge by done. destruct Rb.
    by rewrite (mem_store_in m buf) by (done || lia).
  - apply (stored_intro _ _ kv'); [|done]. rewrite Es, Ek, Eb. ostep. rewrite Ekb. ostep. by rewrite Eg, Er.
Qed.

(** [0]: stored, [1]: the key was there already. *)
Lemma set_ok key_off key_len value_off value_len :
  region m key_off key_len -> region m value_off value_len ->
  let h := jenkins_hash (region_bytes buf key_off key_len) in
  let v := region_bytes buf value_off value_len in
  let call := sledge_abi__scratch_storage_set w n st key_off key_len value_off value_len lock_node_zero tl tu t0 t1 in
  match M !! h with None => after call 0 (<[h := v]> M) m | Some _ => after call 1 M m end.
Proof.
  intros Rk Rv h v call. pose proof (g_bytes _ _ _ _ _ _ _ _ _ G) as W. pose proof (set_buffer_same m buf (wf_buffer _ _ W)) as Es.
  destruct (memory_bytes_ok _ _ _ _ W Rk) as [Ek Ekb], (memory_bytes_ok _ _ _ _ W Rv) as [Ev Evb].
  destruct (map_write_ok kv M (region_bytes buf key_off key_len) v tl tu Rm Ht Hu) as [(d & kv' & Eg & Ed & Rm') _].
  fold h in Ed, Rm'. rewrite <- Es. destruct (M !! h) eqn:EM; subst d.
  1: rewrite (bool_decide_false (_ = None)) in * by done. 2: rewrite (bool_decide_true (None = None)) in * by done.
  all: apply (stored_intro _ _ kv'); [|done]; rewrite Es, Ek, Ev; ostep; rewrite Ekb, Evb; ostep; fold v; by rewrite Eg.
Qed.

Lemma upsert_ok key_off key_len value_off value_len :
  region m key_off key_len -> region m value_off value_len -> 0 < value_len ->
  let h := jenkins_hash (region_bytes buf key_off key_len) in
  after (sledge_abi__scratch_storage_upsert w n st key_off key_len value_off value_len lock_node_zero tl tu t0 t1) tt
    (<[h := region_bytes buf value_off value_len]> M) m.
Proof.
  intros Rk Rv Hv h. pose proof (g_bytes _ _ _ _ _ _ _ _ _ G) as W. pose proof (set_buffer_same m buf (wf_buffer _ _ W)) as Es.
  destruct (memory_bytes_ok _ _ _ _ W Rk) as [Ek Ekb], (memory_bytes_ok _ _ _ _ W Rv) as [Ev Evb].
  destruct (map_write_ok kv M (region_bytes buf key_off key_len) (region_bytes buf value_off value_len) tl tu Rm Ht Hu)
    as [_ Hup]. destruct Hup as (kv' & Eg & Rm').
  { intros E. apply (f_equal length) in E. unfold region_bytes in E. rewrite length_load_bytes in E. cbn in E. lia. }
  rewrite <- Es. apply (stored_intro _ _ kv'); [|done]. rewrite Es, Ek, Ev. ostep. rewrite Ekb, Evb. ostep. by rewrite Eg.
Qed.

(** A call whose lock node is not zero. *)
Lemma storage_stops {A} (body : map L -> wasm_memory -> outcome (A * map L * wasm_memory)) e :
  body kv m = Stop e -> in_storage w n st t0 t1 body = Stop e.
Proof.
  intros Hb. unfold in_storage. erewrite syscall_stops; [done|exact G|]. change (sb_tenant (in_call s t0)) with (sb_tenant s). rewrite Est. ostep. by rewrite Hb.
Qed.

Lemma garbage_stops node key_off key_len off len :
  region m key_off key_len -> region m off len -> time_locked node <> 0 ->
  sledge_abi__scratch_storage_set w n st key_off key_len off len node tl tu t0 t1 = Stop AssertFail
  /\ sledge_abi__scratch_storage_upsert w n st key_off key_len off len node tl tu t0 t1 = Stop AssertFail
  /\ sledge_abi__scratch_storage_delete w n st key_off key_len node tl tu t0 t1 = Stop AssertFail.
Proof.
  intros Rk Rv Hn. pose proof (g_bytes _ _ _ _ _ _ _ _ _ G) as W.
  destruct (memory_bytes_ok _ _ _ _ W Rk) as [Ek Ekb], (memory_bytes_ok _ _ _ _ W Rv) as [Ev Evb].
  split_and!; apply storage_stops; rewrite Ek, ?Ev; ostep; rewrite Ekb, ?Evb; ostep;
    [unfold map_set|unfold map_upsert|unfold map_delete]; by erewrite with_bucket_garbage.
Qed.
End calls.

(** C28: The storage calls implement a map per tenant, from the hashes of keys to
    values.  With keys, values and buffers inside the guest's memory: the size
    call returns the length of the value (0 when there is none); get copies the
    value into the guest's buffer and returns 0, or returns 1 (no value) or 2
    (it does not fit) and leaves the memory alone; set binds a key that has no
    value and returns 0, and returns 1 and changes nothing when it has one; upsert
    of a non-empty value binds the key.  The storage of every other tenant is
    untouched, the worker is in order and the guest runs on.  The functions that write
    leave their lock node uninitialised ([node] is what the stack held): all this holds
    of set and upsert when its [time_locked] is zero, and otherwise set, upsert and
    delete stop the process at the lock's assertion. *)
Theorem scratch_storage_refines_map w n l p s m buf t0 t1 (st : stores) kv M node tl tu key_off key_len off len :
  guest w l p s m buf t0 t1 -> st !! sb_tenant s = Some kv -> map_repr kv M -> 0 < tl < tu -> tu <= UINT64_MAX ->
  region m key_off key_len -> region m off len ->
  let h := jenkins_hash (region_bytes buf key_off key_len) in
  let v := region_bytes buf off len in
  let get := sledge_abi__scratch_storage_get w n st key_off key_len off len tl tu t0 t1 in
  let set := sledge_abi__scratch_storage_set w n st key_off key_len off len node tl tu t0 t1 in
  let upsert := sledge_abi__scratch_storage_upsert w n st key_off key_len off len node tl tu t0 t1 in
  stored w n l p s st (sledge_abi__scratch_storage_get_size w n st key_off key_len tl tu t0 t1)
    (Z.of_nat (length (default [] (M !! h)))) M m t1
  /\ match M !! h with
     | None => stored w n l p s st get 1 M m t1
     | Some x => if len <? Z.of_nat (length x) then stored w n l p s st get 2 M m t1
                 else stored w n l p s st get 0 M (set_buffer m (store_bytes buf off x)) t1
     end
  /\ (time_locked node = 0 ->
      match M !! h with
      | None => stored w n l p s st set 0 (<[h := v]> M) m t1
      | Some _ => stored w n l p s st set 1 M m t1
      end
      /\ (0 < len -> stored w n l p s st upsert tt (<[h := v]> M) m t1))
  /\ (time_locked node <> 0 -> set = Stop AssertFail /\ upsert = Stop AssertFail
      /\ sledge_abi__scratch_storage_delete w n st key_off key_len node tl tu t0 t1 = Stop AssertFail).
Proof.
  intros G Est Rm Ht Hu Rk Rv h v get set upsert. split; [by eapply get_size_ok|]. split; [by eapply get_ok|].
  split; [|intros Hn; by eapply garbage_stops]. intros Hn. unfold set, upsert. replace node with lock_node_zero by (destruct node; cbn in Hn; by subst).
  split; [by eapply set_ok | intros Hl; by eapply upsert_ok].
Qed.
End storage.

(** The stores of two tenants, both empty. *)
Definition demo_stores : stores (L:=bool) := <[5 := map_init]> {[ 6 := map_init ]}.

Lemma demo_stores_lookup : demo_stores !! sb_tenant guest_sandbox = Some map_init.
Proof. unfold demo_stores, stores. change (sb_tenant guest_sandbox) with 5. by rewrite lookup_insert_eq. Qed.

Lemma scratch_storage_refines_map_witness :
  stored 0 guest_world guest_net [100; 101] 100 guest_sandbox demo_stores
    (sledge_abi__scratch_storage_set guest_world guest_net demo_stores 0 4 4 8 lock_node_zero 1 2 20 30) 0
    (<[jenkins_hash (region_bytes guest_bytes 0 4) := region_bytes guest_bytes 4 8]> ∅) guest_memory 30
  /\ sledge_abi__scratch_storage_set guest_world guest_net demo_stores 0 4 4 8 (mk_lock_node 7) 1 2 20 30 = Stop AssertFail.
Proof.
  assert (R : forall node, _) by (intros node; exact (scratch_storage_refines_map 0 guest_world guest_net [100; 101] 100 guest_sandbox
    guest_memory guest_bytes 20 30 demo_stores map_init ∅ node 1 2 0 4 4 8 guest_ok demo_stores_lookup map_init_repr ltac:(lia) ltac:(done)
    ltac:(by split) ltac:(by split))).
  split.
  - destruct (R lock_node_zero) as (_ & _ & X & _). destruct (X eq_refl) as [Y _]. rewrite lookup_empty in Y. exact Y.
  - destruct (R (mk_lock_node 7)) as (_ & _ & _ & X). apply X. done.
Defined.
