(* ===== verification/Execution.v ===== *)
(** * Execution: guests on a worker

    The rest of [runtime/src/current_sandbox.c]: how a sandbox starts
    ([current_sandbox_start]), how its module is initialised, how traps and faults
    of its code reach the trap handler, and how the pieces the other files model
    make up a worker: the guest on the processor executes, timer signals arrive,
    the listener hands over requests, sandboxes exit and the scheduler goes on.

    The code of a module is generated by aWsm and is a parameter: a tree of the
    things it does ([guest_code]).  Between calls it computes on its linear memory
    and on the cached global; it calls the runtime through the functions of
    [runtime/src/sledge_abi.c], it traps, or it returns.  The calls are the class
    [Calls]; the interface of [Wasi] and [WasiCalls] is its instance. *)

From Stdlib Require Import ZArith Lia.
From S2P Require Import Prelude Lock PriorityQueue Bytes WasmMemory Map WasiSerdes Globals Module Runqueue Sandbox Scheduler Http HttpSession Wasi WasiCalls.
Local Open Scope Z_scope.

(** ** Traps *)

Definition WASM_TRAP_INVALID_INDEX : Z := 1.
Definition WASM_TRAP_MISMATCHED_TYPE : Z := 2.
Definition WASM_TRAP_COUNT : Z := 7.

(** ** Code of a module *)

Inductive globals_op :=
| GetI32 (idx : nat) | GetI64 (idx : nat) | SetI32 (idx : nat) (value : Z) | SetI64 (idx : nat) (value : Z).

(** [Instr]: computation on the linear memory and the cached global
    [wasmg_0], up to the next call; it may fault or trap instead.  [Exit]:
    [proc_exit]. *)
Inductive guest_code (C : Type) :=
| Done (return_value : Z)
| Instr (f : wasm_memory -> Z -> outcome (guest_code C * wasm_memory * Z))
| Globals (op : globals_op) (k : Z -> guest_code C)
| Call (c : C) (k : Z -> guest_code C)
| Exit (exitcode : Z).
Arguments Done {C} _.
Arguments Instr {C} _.
Arguments Globals {C} _ _.
Arguments Call {C} _ _.
Arguments Exit {C} _.

(** The functions of the shared object: the data segments [populate_memory]
    passes to [initialize_region], [populate_globals] and [wasmf__start]. *)
Record module_code (C : Type) := mk_module_code {
  populate_memory : list (Z * list Z);
  populate_globals : guest_code C;
  wasmf__start : guest_code C;
}.
Arguments mk_module_code {C} _ _ _.
Arguments populate_memory {C} _.
Arguments populate_globals {C} _.
Arguments wasmf__start {C} _.

Definition sledge_abi__init_mem {C} (mc : module_code C) : list (Z * list Z) := populate_memory mc.
Definition sledge_abi__init_globals {C} (mc : module_code C) : guest_code C := populate_globals mc.
Definition sledge_abi__entrypoint {C} (mc : module_code C) : guest_code C := wasmf__start mc.

(** The calls a module can make: [A] is what the surroundings answer, [St] the
    state behind the calls, which holds the requests.  The two numbers are the cycle
    counter when the call enters the runtime and when it leaves it. *)
Class Calls (L RQ C A St : Type) := {
  abi_call : C -> A -> wasi_context_t -> world L RQ -> St -> Z -> Z -> outcome (Z * world L RQ * St);
  request_of : St -> option Z -> outcome http_request;
}.

(** What happens around one piece of execution: the cycle counter at each point
    that reads it, and what the allocators answer. *)
Record moment (A : Type) := mk_moment {
  t_enter : Z;        (* entering the runtime, or the timer interrupt *)
  t_leave : Z;        (* going back to the guest *)
  t_trap : Z;         (* in the trap handler *)
  t_completion : Z;
  t_returned : Z;
  t_exit : Z;
  t_lock : Z;         (* around the lock of the admissions estimate *)
  t_unlock : Z;
  t_resume : Z;       (* when the interrupted sandbox goes on *)
  t_preempt : Z;
  t_switch : Z;
  t_usr1 : Z;         (* when SIGUSR1 restores a preempted sandbox *)
  mo_env : sched_env;
  mo_alloc : context_alloc;
  mo_uninit : Z;
  mo_pad : Z;
  mo_realloc : bool;
  mo_answer : A;
}.
Arguments t_enter {A} _.
Arguments t_leave {A} _.
Arguments t_trap {A} _.
Arguments t_completion {A} _.
Arguments t_returned {A} _.
Arguments t_exit {A} _.
Arguments t_lock {A} _.
Arguments t_unlock {A} _.
Arguments t_resume {A} _.
Arguments t_preempt {A} _.
Arguments t_switch {A} _.
Arguments t_usr1 {A} _.
Arguments mo_env {A} _.
Arguments mo_alloc {A} _.
Arguments mo_uninit {A} _.
Arguments mo_pad {A} _.
Arguments mo_realloc {A} _.
Arguments mo_answer {A} _.

(** Before [sigsetjmp] has filled [ctxt.start_buf], or after. *)
Inductive phase := Initializing | Running.

Section execution.
Context {L : Type} `{SpinLock L} {RQ : Type} `{Runqueue RQ} {G : Type} `{Policy L RQ G} `{GlobalScheduler G}.
Context {C A St : Type} `{Calls L RQ C A St}.
Variable ADMISSIONS_CONTROL : bool.
Variable worker_thread_idx : nat.
Variable program : Z -> module_code C.   (* the shared object of each module *)
Abbreviation World := (world L RQ).
Abbreviation code := (guest_code C).
Implicit Types w : World.

(** ** The functions of sledge_abi.c that need the current sandbox *)

(** [siglongjmp] arrives with this number. *)
Definition current_sandbox_trap w (trapno : Z) : outcome Z :=
  assert (negb (trapno =? 0)) ;;
  assert (trapno <? WASM_TRAP_COUNT) ;;
  match current_sandbox_get w with
  | None => Stop AssertFail
  | Some p =>
    s ← sb_get w p;
    assert (bool_decide (sb_state s = SANDBOX_RUNNING_USER) || bool_decide (sb_state s = SANDBOX_RUNNING_SYS)) ;;
    Ret trapno
  end.

Definition sledge_abi__wasm_trap_raise w (trapno : Z) : outcome Z := current_sandbox_trap w trapno.

Definition sledge_abi__wasm_memory_initialize_region w (offset : Z) (region : list Z) : outcome World :=
  p ← deref (current_sandbox_get w);
  s ← sb_get w p;
  assert (bool_decide (sb_state s = SANDBOX_RUNNING_SYS)) ;;
  m ← deref (sb_memory s);
  m ← wasm_memory_initialize_region m offset region;
  Ret (sb_put w p (set_sb_memory s (Some m))).

Definition initialize_region w (offset : Z) (region : list Z) : outcome World :=
  sledge_abi__wasm_memory_initialize_region w offset region.

(** The return code, [*return_val] and the globals after the operation. *)
Definition globals_exec (op : globals_op) (globals : vec wasm_global) (uninit pad : Z) (realloc_ok : bool)
  : outcome (Z * Z * vec wasm_global) :=
  match op with
  | GetI32 idx => '(rc, r) ← wasm_globals_get_i32 globals idx uninit; Ret (rc, r, globals)
  | GetI64 idx => '(rc, r) ← wasm_globals_get_i64 globals idx uninit; Ret (rc, r, globals)
  | SetI32 idx v => '(rc, globals) ← wasm_globals_set_i32 globals idx v true pad realloc_ok; Ret (rc, 0, globals)
  | SetI64 idx v => '(rc, globals) ← wasm_globals_set_i64 globals idx v true pad realloc_ok; Ret (rc, 0, globals)
  end.

(** [sledge_abi__wasm_globals_*] with their state changes, up to the traps. *)
Definition globals_call w (op : globals_op) (mo : moment A) : outcome (Z * Z * World) :=
  p ← deref (current_sandbox_get w);
  w ← sandbox_syscall w p (t_enter mo);
  s ← sb_get w p;
  '(rc, r, globals) ← globals_exec op (sb_globals s) (mo_uninit mo) (mo_pad mo) (mo_realloc mo);
  w ← sandbox_return (sb_put w p (set_sb_globals s globals)) p (t_leave mo);
  Ret (rc, r, w).

(** ** module.h: the calls into the shared object *)

Fixpoint module_initialize_memory w (regions : list (Z * list Z)) : outcome World :=
  match regions with
  | [] => Ret w
  | (offset, region) :: regions => w ← initialize_region w offset region; module_initialize_memory w regions
  end.

Definition module_initialize_globals (module : Z) : code := sledge_abi__init_globals (program module).
Definition module_entrypoint (module : Z) : code := sledge_abi__entrypoint (program module).

(** ** The worker *)

Record worker := mk_worker {
  wk_world : World;
  wk_global : G;
  wk_state : St;
  wk_contexts : gmap Z wasi_context_t;   (* sandbox->wasi_context *)
  wk_code : gmap Z (phase * code);       (* what each guest has left to do *)
}.
Implicit Types x : worker.

Definition wk_set x w (g : G) : worker := mk_worker w g (wk_state x) (wk_contexts x) (wk_code x).
Definition wk_continue x w (st : St) (p : Z) (ph : phase) (c : code) : worker :=
  mk_worker w (wk_global x) st (wk_contexts x) (<[p := (ph, c)]> (wk_code x)).

(** A context switch to a preempted sandbox ends in SIGUSR1. *)
Definition switched (mo : moment A) (r : World * bool * G) : outcome (World * G) :=
  let '(w, usr1, g) := r in
  if usr1 then
    h ← software_interrupt_handle_signals ADMISSIONS_CONTROL worker_thread_idx w g SIGUSR1 (mo_env mo)
          (t_enter mo) (t_resume mo) (t_preempt mo) (t_usr1 mo);
    match h with HReturn w g => Ret (w, g) | HTrap _ => Stop Undefined end
  else Ret (w, g).

(** [current_sandbox_init] up to the globals, which are user code. *)
Definition current_sandbox_init x (mo : moment A) : outcome worker :=
  let w := wk_world x in
  match current_sandbox_get w with
  | None => Stop AssertFail
  | Some p =>
    s ← sb_get w p;
    assert (bool_decide (sb_state s = SANDBOX_RUNNING_SYS)) ;;
    m ← module_at w (sb_module s);
    w ← module_initialize_memory w (sledge_abi__init_mem (program (sb_module s)));
    r ← request_of (wk_state x) (sb_http s);
    options ← sandbox_arguments (mod_path m) r;
    context ← wasi_context_init options (mo_alloc mo);
    w ← sandbox_return w p (t_leave mo);
    Ret (mk_worker w (wk_global x) (wk_state x) (<[p := context]> (wk_contexts x))
           (<[p := (Initializing, module_initialize_globals (sb_module s))]> (wk_code x)))
  end.

(** The second return of [sigsetjmp]; a jump before the first one goes through
    a buffer that was never filled. *)
Definition trapped x (ph : phase) (trapno : Z) (mo : moment A) : outcome worker :=
  match ph with
  | Initializing => Stop Undefined
  | Running =>
    r ← current_sandbox_wasm_trap_handler ADMISSIONS_CONTROL worker_thread_idx (wk_world x) (wk_global x) (mo_env mo)
          (t_trap mo) (t_exit mo) (t_lock mo) (t_unlock mo) (t_switch mo);
    '(w, g) ← switched mo r;
    Ret (wk_set x w g)
  end.

Definition finished x (mo : moment A) : outcome worker :=
  r ← current_sandbox_fini ADMISSIONS_CONTROL worker_thread_idx (wk_world x) (wk_global x) (mo_env mo)
        (t_enter mo) (t_completion mo) (t_returned mo) (t_exit mo) (t_lock mo) (t_unlock mo) (t_switch mo);
  '(w, g) ← switched mo r;
  Ret (wk_set x w g).

(** A fault of the guest's code: the signal handler jumps to the trap handler. *)
Definition faulted x (ph : phase) (sig : signal) (mo : moment A) : outcome worker :=
  h ← software_interrupt_handle_signals ADMISSIONS_CONTROL worker_thread_idx (wk_world x) (wk_global x) sig (mo_env mo)
        (t_enter mo) (t_resume mo) (t_preempt mo) (t_switch mo);
  match h with
  | HTrap trapno => trapno ← current_sandbox_trap (wk_world x) trapno; trapped x ph trapno mo
  | HReturn _ _ => Stop Undefined
  end.

(** One piece of the guest's code.  When the globals are initialised,
    [current_sandbox_start] goes on with the entry point; when that returns, with
    [current_sandbox_fini]. *)
Definition guest_step x (p : Z) (s : sandbox) (ph : phase) (c : code) (mo : moment A) : outcome worker :=
  let w := wk_world x in
  match c with
  | Done _ =>
    match ph with
    | Initializing => Ret (wk_continue x w (wk_state x) p Running (module_entrypoint (sb_module s)))
    | Running => finished x mo
    end
  | Exit _ => finished x mo
  | Instr f =>
    m ← deref (sb_memory s);
    match f m (wasmg_0 w) with
    | Ret (k, m, g0) =>
      Ret (wk_continue x (sb_put (set_wasmg_0 w g0) p (set_sb_memory s (Some m))) (wk_state x) p ph k)
    | Stop Segv => faulted x ph SIGSEGV mo
    | Stop Fpe => faulted x ph SIGFPE mo
    | Stop (Trap trapno) => trapno ← sledge_abi__wasm_trap_raise w trapno; trapped x ph trapno mo
    | Stop f => Stop f
    end
  | Globals op k =>
    '(rc, r, w') ← globals_call w op mo;
    let x := wk_set x w' (wk_global x) in
    if rc =? -1 then trapno ← sledge_abi__wasm_trap_raise w' WASM_TRAP_INVALID_INDEX; trapped x ph trapno mo else
    if rc =? -2 then trapno ← sledge_abi__wasm_trap_raise w' WASM_TRAP_MISMATCHED_TYPE; trapped x ph trapno mo else
    Ret (wk_continue x w' (wk_state x) p ph (k r))
  | Call c k =>
    context ← deref (wk_contexts x !! p);
    '(r, w, st) ← abi_call c (mo_answer mo) context w (wk_state x) (t_enter mo) (t_leave mo);
    Ret (wk_continue x w st p ph (k r))
  end.

(** The processor of the worker: the idle loop, the start of a sandbox, or a
    piece of its code.  Back in the base context the loop goes on behind the switch,
    where it frees the cleanup queue, which is empty at its first iteration. *)
Definition processor_step x (mo : moment A) : outcome worker :=
  let w := wk_world x in
  match current_sandbox_get w with
  | None =>
    w ← local_cleanup_queue_free worker_thread_idx w;
    r ← scheduler_idle_iteration ADMISSIONS_CONTROL worker_thread_idx w (wk_global x) (mo_env mo) (t_switch mo);
    '(w, g) ← switched mo r;
    Ret (wk_set x w g)
  | Some p =>
    s ← sb_get w p;
    match sb_state s with
    | SANDBOX_RUNNING_SYS => current_sandbox_init x mo
    | SANDBOX_RUNNING_USER => '(ph, c) ← deref (wk_code x !! p); guest_step x p s ph c mo
    | _ => Stop Undefined
    end
  end.

(** A timer signal; the guest resumes where it was, or another one does. *)
Definition timer_step x (mo : moment A) : outcome worker :=
  h ← software_interrupt_handle_signals ADMISSIONS_CONTROL worker_thread_idx (wk_world x) (wk_global x) SIGALRM (mo_env mo)
        (t_enter mo) (t_resume mo) (t_preempt mo) (t_switch mo);
  match h with
  | HReturn w g => Ret (wk_set x w g)
  | HTrap _ => Stop Undefined
  end.

(** What the listener hands over ([on_client_request_received]). *)
Record request := mk_new_request {
  rq_address : Z;     (* where the sandbox is allocated *)
  rq_module : Z;
  rq_session : Z;
  rq_route : Z;
  rq_tenant : Z;
  rq_estimate : Z;
  rq_allocated : Z;
  rq_initialized : Z;
  rq_locked : Z;
  rq_unlocked : Z;
}.

(** The sandbox is allocated and queued; a full queue ends in [sandbox_free]. *)
Definition request_step x (r : request) : outcome worker :=
  '(p, w) ← sandbox_alloc (wk_world x) (Some (rq_address r)) (rq_module r) (rq_session r) (rq_route r) (rq_tenant r)
              (rq_estimate r) (rq_allocated r) (rq_initialized r);
  p ← deref p;
  '(added, g) ← global_request_scheduler_add (sandbox_get_priority w) true (rq_locked r) (rq_unlocked r) (wk_global x) p;
  match added with
  | Some _ => Ret (wk_set x w g)
  | None => w ← sandbox_free worker_thread_idx w p; Ret (wk_set x w g)
  end.

Inductive event := EProcessor (mo : moment A) | ETimer (mo : moment A) | ERequest (r : request).

Definition worker_step x (e : event) : outcome worker :=
  match e with
  | EProcessor mo => processor_step x mo
  | ETimer mo => timer_step x mo
  | ERequest r => request_step x r
  end.

Fixpoint worker_run x (es : list event) : outcome worker :=
  match es with
  | [] => Ret x
  | e :: es => x ← worker_step x e; worker_run x es
  end.
End execution.

(** ** The system interface as the calls of a module *)

Inductive wasi_call :=
| MemoryGrow (page_count : Z)
| ArgsGet (argv_retoffset argv_buf_retoffset : Z)
| ArgsSizesGet (argc_retoffset argv_buf_len_retoffset : Z)
| ClockTimeGet (time_retoffset : Z)
| EnvironGet (env_retoffset env_buf_retoffset : Z)
| EnvironSizesGet (envc_retoffset env_buf_len_retoffset : Z)
| FdRead (fd iovs_baseoffset iovs_len nread_retoffset : Z)
| FdWrite (fd iovs_baseoffset iovs_len nwritten_retoffset : Z)
| RandomGet (buf_baseretoffset buf_len : Z)
| StorageGetSize (key_offset key_len : Z)
| StorageGet (key_offset key_len buf_offset buf_len : Z)
| StorageSet (key_offset key_len value_offset value_len : Z)
| StorageDelete (key_offset key_len : Z)
| StorageUpsert (key_offset key_len value_offset value_len : Z).

(** What the kernel and the allocators answer. *)
Record call_answer := mk_call_answer {
  an_mprotect : bool;
  an_calloc : bool;
  an_fwrite : nat -> Z;
  an_clock : clock_result;
  an_urandom : bool;
  an_reads : list urandom_result;
  an_random : nat -> Z;
  an_node : lock_node_t;
  an_lock : Z;
  an_unlock : Z;
}.

(** The sessions, the scratch storage of the tenants, and the static flag of
    [random_get]. *)
Record system (L P : Type) := mk_system {
  sy_net : net P;
  sy_stores : gmap Z (map L);
  sy_udev : bool;
}.
Arguments mk_system {L P} _ _ _.
Arguments sy_net {L P} _.
Arguments sy_stores {L P} _.
Arguments sy_udev {L P} _.

Section wasi.
Context {L : Type} `{SpinLock L} {RQ : Type} `{Runqueue RQ} {P : Type}.
Abbreviation Sys := (system L P).
Implicit Types w : world L RQ.

Definition with_net (sy : Sys) (r : outcome (Z * world L RQ * net P)) : outcome (Z * world L RQ * Sys) :=
  '(r, w, n) ← r; Ret (r, w, mk_system n (sy_stores sy) (sy_udev sy)).

Definition with_storage {B} (result : B -> Z) (sy : Sys) (r : outcome (B * stores * world L RQ * net P))
  : outcome (Z * world L RQ * Sys) :=
  '(r, st, w, n) ← r; Ret (result r, w, mk_system n st (sy_udev sy)).

Definition wasi_abi_call (c : wasi_call) (an : call_answer) (context : wasi_context_t) w (sy : Sys) (t0 t1 : Z)
  : outcome (Z * world L RQ * Sys) :=
  let n := sy_net sy in
  let st := sy_stores sy in
  match c with
  | MemoryGrow page_count =>
    in_syscall w sy t0 t1 (fun _ m sy => '(r, m) ← instruction_memory_grow m page_count (an_mprotect an); Ret (r, m, sy))
  | ArgsGet a b => with_net sy (wasi_snapshot_preview1_args_get w n context (an_calloc an) a b t0 t1)
  | ArgsSizesGet a b => with_net sy (wasi_snapshot_preview1_args_sizes_get w n context a b t0 t1)
  | ClockTimeGet a => with_net sy (wasi_snapshot_preview1_clock_time_get w n (an_clock an) a t0 t1)
  | EnvironGet a b => with_net sy (wasi_snapshot_preview1_environ_get w n context (an_calloc an) a b t0 t1)
  | EnvironSizesGet a b => with_net sy (wasi_snapshot_preview1_environ_sizes_get w n context a b t0 t1)
  | FdRead fd a b c => with_net sy (wasi_snapshot_preview1_fd_read w n (an_calloc an) fd a b c t0 t1)
  | FdWrite fd a b c => with_net sy (wasi_snapshot_preview1_fd_write w n (an_calloc an) (an_fwrite an) fd a b c t0 t1)
  | RandomGet a b =>
    '(r, udev, w, n) ← wasi_snapshot_preview1_random_get w n (sy_udev sy) (an_urandom an) (an_reads an) (an_random an) a b t0 t1;
    Ret (r, w, mk_system n st udev)
  | StorageGetSize a b => with_storage id sy (scratch_storage_get_size w n st a b (an_lock an) (an_unlock an) t0 t1)
  | StorageGet a b c d => with_storage id sy (scratch_storage_get w n st a b c d (an_lock an) (an_unlock an) t0 t1)
  | StorageSet a b c d => with_storage id sy (scratch_storage_set w n st a b c d (an_node an) (an_lock an) (an_unlock an) t0 t1)
  | StorageDelete a b => with_storage id sy (scratch_storage_delete w n st a b (an_node an) (an_lock an) (an_unlock an) t0 t1)
  | StorageUpsert a b c d =>
    with_storage (fun _ => 0) sy (scratch_storage_upsert w n st a b c d (an_node an) (an_lock an) (an_unlock an) t0 t1)
  end.

#[export] Instance wasi_calls : Calls L RQ wasi_call call_answer Sys := {|
  abi_call := wasi_abi_call;
  request_of := fun sy http => a ← deref http; hs ← session_at (sy_net sy) a; Ret (hs_request hs);
|}.
End wasi.
