(* ===== verification/Spared.v ===== *)
(** * Spared: what a failed preparation changes

    [sandbox_prepare_execution_environment] can fail at five allocations.  A step of
    a worker whose allocations fail does what it would have done had they succeeded,
    or stops at an assertion, and it stops only when the policy takes a request from
    the global queue.  [ExecutionSpec] proves the steps with succeeding allocations and
    carries them over with this. *)

From Stdlib Require Import ZArith Lia.
From S2P Require Import Prelude Lock PriorityQueue HeapTheory PriorityQueueSpec Deque Bytes Admissions.
From S2P Require Import WasmMemory Globals Module Runqueue Sandbox Scheduler SandboxSpec SandboxSteps SchedulerSpec Conservation.
From S2P Require Import Http HttpSession Wasi WasiCalls Execution.
Local Open Scope Z_scope.

(** [r] is the result [r'], if that is one, or an assertion that stopped because of [P]. *)
Definition spared {T} (P : Prop) (r r' : outcome T) : Prop :=
  forall v, r' = Ret v -> r = Ret v \/ r = Stop AssertFail /\ P.

Lemma spared_refl {T} P (r : outcome T) : spared P r r.
Proof. intros v E. by left. Qed.

Lemma spared_stop {T} (P : Prop) (r' : outcome T) : P -> spared P (Stop AssertFail) r'.
Proof. intros HP v _. by right. Qed.

Lemma spared_bind {T U} P (r r' : outcome T) (k k' : T -> outcome U) :
  spared P r r' -> (forall v, spared P (k v) (k' v)) -> spared P (r ≫= k) (r' ≫= k').
Proof.
  intros Hr Hk u E. apply bind_Ret_inv in E as (v & Ev & Eu).
  destruct (Hr v Ev) as [->|[-> HP]]; [by apply Hk|by right].
Qed.

Lemma spared_with {T U} P (r : outcome T) (k k' : T -> outcome U) :
  (forall v, r = Ret v -> spared P (k v) (k' v)) -> spared P (r ≫= k) (r ≫= k').
Proof. intros Hk u E. apply bind_Ret_inv in E as (v & Ev & Eu). rewrite Ev. by eapply Hk. Qed.

(** Go on to where two runs of the same code can differ. *)
Ltac spare :=
  repeat match goal with
  | |- spared _ ?r ?r => apply spared_refl
  | |- spared _ (?r ≫= _) (?r ≫= _) => apply spared_with; intros ? _
  end.

(** The same allocations, all successful. *)
Definition repair (env : prepare_env) : prepare_env :=
  mk_prepare_env true true true true true (Some (default PAGE_SIZE (env_stack_mmap env))) true.

Definition repair_env (env : sched_env) : sched_env :=
  mk_sched_env (se_lock env) (se_unlock env) (repair (se_prepare env)) (se_fail env) (se_dispatch env) (se_pad env)
    (se_timeout env) (se_promotions env) (se_clock env) (se_kernel env) (se_global env) (se_turns env).

Definition repair_moment {A} (mo : moment A) : moment A :=
  mk_moment A (t_enter mo) (t_leave mo) (t_trap mo) (t_completion mo) (t_returned mo) (t_exit mo) (t_lock mo) (t_unlock mo)
    (t_resume mo) (t_preempt mo) (t_switch mo) (t_usr1 mo) (repair_env (mo_env mo)) (mo_alloc mo) (mo_uninit mo) (mo_pad mo)
    (mo_realloc mo) (mo_answer mo).

Lemma repair_succeeds env : prepare_succeeds (repair env).
Proof. by eexists. Qed.

#[export] Instance prepare_succeeds_dec env : Decision (prepare_succeeds env).
Proof.
  destruct env as [[] [] [] [] [] [b|] []]; first [left; by exists b | right; intros [? [=]]].
Defined.

(** ** The preparation *)

Section preparation.
Context {L : Type} `{SpinLock L} {RQ : Type} `{Runqueue RQ}.
Variable worker_thread_idx : nat.
Implicit Types w : world L RQ.

(** What the schedulers do with a prepared request. *)
Definition launch (p t : Z) (r : outcome (Z * world L RQ)) : outcome (world L RQ) :=
  '(_, w) ← r; s ← sb_get w p; assert (bool_decide (sb_state s = SANDBOX_INITIALIZED)) ;;
  sandbox_set_as_runnable w p SANDBOX_INITIALIZED t.

Lemma launch_bind {T} p t (k : world L RQ -> outcome T) r :
  ('(_, w) ← r; s ← sb_get w p; assert (bool_decide (sb_state s = SANDBOX_INITIALIZED)) ;;
   w ← sandbox_set_as_runnable w p SANDBOX_INITIALIZED t; k w) = launch p t r ≫= k.
Proof.
  unfold launch. destruct r as [[rc w]|f]; ostep; [|done]. destruct (sb_get w p) as [s|]; ostep; [|done]. by destruct (assert _).
Qed.

(** The request and its durations, which have an entry for [SANDBOX_INITIALIZED]. *)
Definition timed w (p : Z) : Prop :=
  exists s, sandboxes w !! p = Some s /\ (2 < length (duration_of_state s))%nat.

Lemma launch_timed w p t rc w' : launch p t (Ret (rc, w)) = Ret w' -> timed w p.
Proof.
  unfold launch, sandbox_set_as_runnable, write_state, runqueue_add, bookkeeping, account. ostep. intros E. kept_steps. puts.
  eexists. split; [done|]. eapply lookup_lt_Some. eassumption.
Qed.

(** A failed preparation ends at the assertion on the state. *)
Lemma failed_launch w p now t : timed w p -> launch p t (prepare_failed false worker_thread_idx w p now) = Stop AssertFail.
Proof.
  intros (s & E & Hl). unfold launch, prepare_failed, sandbox_set_as_error. rewrite (write_state_ok _ _ _ _ E). ostep.
  unfold bookkeeping. rewrite sb_get_put. ostep. unfold account. cbn [last_state_change set_sb_state].
  destruct (last_state_change s <? now); ostep; [|done].
  destruct (lookup_lt_is_Some_2 (duration_of_state s) 1) as [d Ed]; [lia|]. cbn [duration_of_state set_sb_state state_index]. rewrite Ed. ostep.
  rewrite sb_get_put. ostep. unfold admissions_control_subtract. ostep. unfold respond. cbn [sb_get].
  unfold sb_get. cbn. rewrite lookup_insert_eq. cbn. destruct (sb_http s); cbn; [|done]. by rewrite lookup_insert_eq.
Qed.

(** Preparing changes no times. *)
Lemma launched_timed w p env t w' : forall now,
  launch p t (sandbox_prepare_execution_environment false worker_thread_idx w p env now) = Ret w' -> timed w p.
Proof.
  intros now E. destruct (sandbox_prepare_execution_environment _ _ _ _ _ _) as [[rc w1]|] eqn:Ep; [|done].
  apply launch_timed in E as (s1 & E1 & Hl). unfold sandbox_prepare_execution_environment, prepare_failed, sandbox_set_as_error, respond,
    write_state, bookkeeping, account, admissions_control_subtract in Ep. kept_steps; puts; eexists; (split; [done|]); cbn in *;
    by rewrite ?length_insert in Hl.
Qed.

Lemma memory_alloc_cases initial max a b c :
  wasm_memory_alloc initial max a b c = wasm_memory_alloc initial max true true true
  \/ wasm_memory_alloc initial max a b c = Stop AssertFail \/ wasm_memory_alloc initial max a b c = Ret None.
Proof.
  unfold wasm_memory_alloc, wasm_memory_init. destruct a; [|by auto]. cbn [negb].
  destruct (0 <? initial), (initial <=? _), (0 <? max), (max <=? _), b, c; ostep; auto.
Qed.

Lemma stack_alloc_cases capacity mmap mprotect :
  wasm_stack_alloc capacity mmap mprotect = wasm_stack_alloc capacity (Some (default PAGE_SIZE mmap)) true
  \/ wasm_stack_alloc capacity mmap mprotect = Stop AssertFail.
Proof. unfold wasm_stack_alloc, wasm_stack_init. destruct mmap, mprotect; cbn; auto. Qed.

Lemma memory_cases m a b c :
  module_allocate_linear_memory m worker_thread_idx a b c = module_allocate_linear_memory m worker_thread_idx true true true
  \/ module_allocate_linear_memory m worker_thread_idx a b c = Stop AssertFail
  \/ exists m' : module L, module_allocate_linear_memory m worker_thread_idx a b c = Ret (None, m').
Proof.
  unfold module_allocate_linear_memory. destruct (assert _); ostep; [|auto]. destruct (assert _); ostep; [|auto].
  destruct (pools m !! worker_thread_idx) as [mp|]; ostep; [|auto]. destruct (pool_remove_nolock _) as [[[mem|] ?]|]; ostep; auto.
  destruct (memory_alloc_cases (u64 (starting_pages (abi m) * WASM_PAGE_SIZE)) (u64 (max_pages (abi m) * WASM_PAGE_SIZE)) a b c)
    as [->|[->| ->]]; ostep; eauto.
Qed.

Lemma stack_cases (m : module L) mmap mprotect :
  module_allocate_stack m worker_thread_idx mmap mprotect = module_allocate_stack m worker_thread_idx (Some (default PAGE_SIZE mmap)) true
  \/ module_allocate_stack m worker_thread_idx mmap mprotect = Stop AssertFail.
Proof.
  unfold module_allocate_stack. destruct (pools m !! worker_thread_idx) as [mp|]; ostep; [|auto].
  destruct (pool_remove_nolock _) as [[[stack|] ?]|]; ostep; auto.
  cbn [stack_size set_pools]. destruct (stack_alloc_cases (stack_size m) mmap mprotect) as [->| ->]; ostep; auto.
Qed.

(** The request is there, whatever its equipment. *)
Lemma timed_put w p s : (2 < length (duration_of_state s))%nat -> timed (sb_put w p s) p.
Proof. intros Hl. exists s. split; [apply lookup_insert_eq|done]. Qed.

Lemma prepare_spared w p env now t :
  spared True (launch p t (sandbox_prepare_execution_environment false worker_thread_idx w p env now))
    (launch p t (sandbox_prepare_execution_environment false worker_thread_idx w p (repair env) now)).
Proof.
  intros w' Ew. destruct (launched_timed _ _ _ _ _ _ Ew) as (s & E & Hl). revert w' Ew.
  change (spared True (launch p t (sandbox_prepare_execution_environment false worker_thread_idx w p env now))
    (launch p t (sandbox_prepare_execution_environment false worker_thread_idx w p (repair env) now))).
  assert (Hf : forall w s', duration_of_state s' = duration_of_state s ->
    launch p t (prepare_failed false worker_thread_idx (sb_put w p s') p now) = Stop AssertFail).
  { intros w1 s' Hd. apply failed_launch, timed_put. by rewrite Hd. }
  unfold sandbox_prepare_execution_environment. rewrite (sb_get_ok _ _ _ E). ostep.
  cbn [repair env_response env_globals env_aligned env_mmap env_mprotect env_stack_mmap env_stack_mprotect negb].
  destruct (env_response env); cbn [negb]; [|rewrite failed_launch by (by exists s); by apply spared_stop].
  destruct (module_at w (sb_module s)) as [m|f]; ostep; [|done]. unfold wasm_globals_init, vec_init.
  destruct (decide _); [|destruct (env_globals env)]; cbn [negb]; [| |change (-1 <? 0) with true; cbn iota; rewrite Hf by done; by apply spared_stop].
  all: change (0 <? 0) with false; cbn iota.
  all: destruct (memory_cases m (env_aligned env) (env_mmap env) (env_mprotect env)) as [->|[->|[m1 ->]]]; ostep; [|by apply spared_stop|].
  all: try (rewrite bool_decide_false by (by intros []); cbn [negb]; rewrite Hf by done; by apply spared_stop).
  all: destruct (module_allocate_linear_memory _ _ _ _ _) as [[memory m1]|]; ostep; [|done].
  all: destruct (negb (bool_decide (is_Some memory))); [apply spared_refl|].
  all: destruct (stack_cases m1 (env_stack_mmap env) (env_stack_mprotect env)) as [->| ->]; ostep; [apply spared_refl|by apply spared_stop].
Qed.
End preparation.

(** ** The policy and the steps that ask it *)

Section steps.
Context {L : Type} `{SpinLock L}.
Variable worker_thread_idx : nat.
Abbreviation heap := (priority_queue L Z).
Implicit Types w : world L heap.
Implicit Types g : heap.

(** A request can be taken from the global queue. *)
Definition takes g (env : sched_env) : Prop :=
  exists prio d p g', global_request_scheduler_remove_if_earlier prio false (se_lock env) (se_unlock env) g d = Ret (0, Some p, g').

Lemma spared_weaken {T} (P Q : Prop) (r r' : outcome T) : (P -> Q) -> spared P r r' -> spared Q r r'.
Proof. intros HPQ Hr v E. destruct (Hr v E) as [?|[? ?]]; auto. Qed.

Lemma edf_spared w g env :
  spared (takes g env) (scheduler_edf_get_next false worker_thread_idx w g env)
    (scheduler_edf_get_next false worker_thread_idx w g (repair_env env)).
Proof.
  unfold scheduler_edf_get_next. cbn [repair_env se_lock se_unlock se_prepare se_fail se_dispatch].
  apply spared_with. intros local _. apply spared_with. intros d _. apply spared_with. intros d' _. apply spared_bind; [|intros; spare].
  destruct (d' <? d); [|apply spared_refl]. apply spared_with. intros [[rc global] g'] Et.
  destruct (rc =? 0) eqn:Hrc; [|apply spared_refl]. destruct global as [p|]; [|apply spared_refl].
  apply Z.eqb_eq in Hrc as ->. apply spared_with. intros s _. apply spared_with. intros _ _.
  apply (spared_weaken True); [intros _; by eexists _, _, _, _|].
  rewrite !(launch_bind p (se_dispatch env) (fun w => Ret (w, g'))).
  apply spared_bind; [apply prepare_spared|]. intros. apply spared_refl.
Qed.

Lemma preemptive_spared w g env t1 t2 t3 :
  spared (takes g env) (scheduler_preemptive_sched false worker_thread_idx w g env t1 t2 t3)
    (scheduler_preemptive_sched false worker_thread_idx w g (repair_env env) t1 t2 t3).
Proof.
  unfold scheduler_preemptive_sched. cbn [scheduler_process_policy_specific_updates_on_interrupts edf_policy]. change (se_pad (repair_env env)) with (se_pad env). destruct (current_sandbox_get w); spare.
  apply spared_bind; [apply edf_spared|intros; spare].
Qed.

Lemma alarm_spared w g env t0 t1 t2 t3 :
  spared (takes g env) (software_interrupt_handle_signals false worker_thread_idx w g SIGALRM env t0 t1 t2 t3)
    (software_interrupt_handle_signals false worker_thread_idx w g SIGALRM (repair_env env) t0 t1 t2 t3).
Proof.
  assert (Hk : forall w1, kernel_promotions w1 g (repair_env env) = kernel_promotions w1 g env) by done.
  unfold software_interrupt_handle_signals. destruct (current_sandbox_get w); [|rewrite Hk; spare].
  destruct (current_sandbox_is_preemptable w); [|rewrite Hk; spare]. apply spared_with. intros w1 _.
  rewrite Hk. apply spared_with. intros [w2 g2] Ek.
  assert (g2 = g) as ->. { unfold kernel_promotions in Ek. destruct (se_kernel env); cbn in Ek; congruence. }
  apply spared_bind; [apply preemptive_spared|intros; spare].
Qed.

Lemma idle_spared w g env t :
  spared (takes g env) (scheduler_idle_iteration false worker_thread_idx w g env t)
    (scheduler_idle_iteration false worker_thread_idx w g (repair_env env) t).
Proof. unfold scheduler_idle_iteration. spare. apply spared_bind; [apply edf_spared|intros; spare]. Qed.

Lemma cooperative_spared w g add env t :
  spared (takes g env) (scheduler_cooperative_sched false worker_thread_idx w g add env t)
    (scheduler_cooperative_sched false worker_thread_idx w g add (repair_env env) t).
Proof.
  unfold scheduler_cooperative_sched. change (se_pad (repair_env env)) with (se_pad env). destruct (current_sandbox_get w); spare.
  apply spared_bind; [apply edf_spared|intros; spare].
Qed.

Lemma exit_spared w g env t_exit t0 t1 t :
  spared (takes g env) (current_sandbox_exit false worker_thread_idx w g env t_exit t0 t1 t)
    (current_sandbox_exit false worker_thread_idx w g (repair_env env) t_exit t0 t1 t).
Proof. unfold current_sandbox_exit. destruct (current_sandbox_get w); spare. apply spared_bind; [apply cooperative_spared|intros; spare]. Qed.

Lemma trap_handler_spared w g env t_trap t_exit t0 t1 t :
  spared (takes g env) (current_sandbox_wasm_trap_handler false worker_thread_idx w g env t_trap t_exit t0 t1 t)
    (current_sandbox_wasm_trap_handler false worker_thread_idx w g (repair_env env) t_trap t_exit t0 t1 t).
Proof. unfold current_sandbox_wasm_trap_handler. destruct (current_sandbox_get w); spare. apply exit_spared. Qed.

Lemma fini_spared w g env t_enter t_completion t_returned t_exit t0 t1 t :
  spared (takes g env) (current_sandbox_fini false worker_thread_idx w g env t_enter t_completion t_returned t_exit t0 t1 t)
    (current_sandbox_fini false worker_thread_idx w g (repair_env env) t_enter t_completion t_returned t_exit t0 t1 t).
Proof. unfold current_sandbox_fini. destruct (current_sandbox_get w); spare. apply exit_spared. Qed.

(** An empty global queue gives nothing. *)
Lemma takes_waiting prio g bag env :
  gs_repr prio g bag -> 0 < se_lock env < se_unlock env -> se_unlock env <= UINT64_MAX -> takes g env -> exists p, p ∈ bag.
Proof.
  intros [R Hlk] [H0 H1] H2 (prio' & d & p & g' & E). destruct bag as [|b bag]; [|exists b; constructor].
  assert (G' : gs_repr prio' g []) by (apply (gs_repr_ext prio); [by intros q ?%not_elem_of_nil|by split]). destruct G' as [R' _].
  destruct (locked_dequeue_ok prio' (se_lock env) (se_unlock env) g [] d R' Hlk H0 H1 H2) as (rc & e & q' & E' & _ & Hd).
  change (priority_queue_dequeue_if_earlier prio' false (se_lock env) (se_unlock env) g d = Ret (0, Some p, g')) in E.
  rewrite E in E'. injection E' as <- <- <-. destruct Hd as (_ & _ & _ & bag' & Pb & _). by apply Permutation_nil_l in Pb.
Qed.
End steps.
