(* ===== verification/ExecutionSpec.v ===== *)
(** * ExecutionSpec: a worker executes its guests, and answers every one once

    The steps of [Execution] keep a worker in order, whatever the guests do with
    their own memory and whatever the allocators answer: each step returns, or stops
    for one of the reasons of [excuse].  A session is answered exactly when its sandbox ends, with 200 if its
    code returned and 500 if it trapped, and never twice. *)

From Stdlib Require Import ZArith Lia.
From S2P Require Import Prelude Lock PriorityQueue HeapTheory PriorityQueueSpec Deque Bytes Admissions.
From S2P Require Import WasmMemory Map WasiSerdes Globals Module Runqueue Sandbox Scheduler SandboxSpec SandboxSteps SchedulerSpec Conservation Preemption Lifecycle Worker Exits.
From S2P Require Import Http HttpSession Wasi WasiCalls Execution Spared.
Local Open Scope Z_scope.

(** The memory stays usable by every module that could use it. *)
Definition still_usable (L : Type) (m m' : wasm_memory) : Prop :=
  forall md : module L, memory_usable md m -> memory_usable md m'.

(** What a worker relies on of the calls: between entering and leaving the
    runtime they change the guest's memory and their own state. *)
Definition call_is {L RQ C A St} `{SpinLock L} `{Runqueue RQ} `{Calls L RQ C A St} (c : C) (a : A) (context : wasi_context_t)
  (body : sandbox -> wasm_memory -> St -> outcome (Z * wasm_memory * St)) : Prop :=
  forall w st t0 t1, abi_call c a context w st t0 t1 = in_syscall w st t0 t1 body.

Class CallsLaws (L C A St : Type) `{SpinLock L} `{Calls L (priority_queue L Z) C A St} : Prop :=
  call_law (c : C) (a : A) (context : wasi_context_t) : exists body : sandbox -> wasm_memory -> St -> _, call_is c a context body
    /\ forall s m st r m' st', body s m st = Ret (r, m', st') -> still_usable L m m'.

(** What a worker relies on of the generated code: it touches nothing but its
    memory and the cached global, and its faults are the ones the runtime catches. *)
Fixpoint tame (L : Type) {C} (c : guest_code C) : Prop :=
  match c with
  | Done _ | Exit _ => True
  | Instr f =>
    forall m g0,
      match f m g0 with
      | Ret (k, m', _) => still_usable L m m' /\ tame L k
      | Stop Segv | Stop Fpe => True
      | Stop (Trap trapno) => 0 < trapno < WASM_TRAP_COUNT
      | Stop _ => False
      end
  | Globals _ k | Call _ k => forall r, tame L (k r)
  end.

Lemma usable_refl L m : still_usable L m m.
Proof. by intros md. Qed.

Lemma usable_trans L m1 m2 m3 : still_usable L m1 m2 -> still_usable L m2 m3 -> still_usable L m1 m3.
Proof. intros U1 U2 md Hm. auto. Qed.

Lemma store_usable L m off bs m' : mem_store m off bs = Ret m' -> still_usable L m m'.
Proof. unfold mem_store. intros E md (Hb & Hs & Hc). kept_steps. split; [by eexists|done]. Qed.

Section execution_spec.
Context {L : Type} `{SpinLock L} {C A St : Type} `{Calls L (priority_queue L Z) C A St} `{!CallsLaws L C A St}.
Variable worker_thread_idx : nat.
Variable program : Z -> module_code C.
Hypothesis program_tame : forall k, tame L (populate_globals (program k)) /\ tame L (wasmf__start (program k)).
Abbreviation heap := (priority_queue L Z).
Abbreviation Worker := (@worker L heap heap C St).
Implicit Types w : world L heap.
Implicit Types x : Worker.
Implicit Types mo : moment A.
Abbreviation core := (core worker_thread_idx).
Abbreviation at_work := (at_work worker_thread_idx).
Abbreviation step := (worker_step false worker_thread_idx program).

(** ** The invariant *)

(** Every sandbox in the middle of its code has code left, and its arguments. *)
Definition coded x : Prop :=
  forall q s, sandboxes (wk_world x) !! q = Some s -> started (sb_state s) = true ->
    exists ph c, wk_code x !! q = Some (ph, c) /\ tame L c /\ is_Some (wk_contexts x !! q).

Record inv x (now : Z) : Prop := {
  inv_core : exists l bag, core (wk_world x) (wk_global x) l bag (cleanup_queue (wk_world x));
  inv_seat : seat (wk_world x);
  inv_clock : clock_before (wk_world x) now;
  inv_code : coded x;
}.

(** ** The schedule *)

Definition lock_times (env : sched_env) : Prop := 0 < se_lock env < se_unlock env /\ se_unlock env <= UINT64_MAX.

(** The cycle counter increases from each point that reads it to the next one.
    What the allocators answer is not constrained. *)
Definition moment_good (now : Z) (mo : moment A) : Prop :=
  now <= t_enter mo /\ t_enter mo < t_leave mo < t_trap mo /\ t_trap mo < t_returned mo < t_exit mo
  /\ t_exit mo < se_dispatch (mo_env mo) < t_resume mo /\ t_resume mo < t_preempt mo < t_switch mo
  /\ t_switch mo < t_usr1 mo <= UINT64_MAX /\ lock_times (mo_env mo).

(** A request for a module that is loaded, on a route and of a tenant that
    exist, over a session that was not seen before. *)
Definition request_good x (now : Z) (r : request) : Prop :=
  let w := wk_world x in
  sandboxes w !! rq_address r = None /\ (rq_session r ∉ sessions w)
  /\ (exists m, modules w !! rq_module r = Some m /\ reference_count m < UINT32_MAX /\ 0 < globals_len (abi m))
  /\ (exists rt, routes w !! rq_route r = Some rt /\ 0 <= rq_allocated r + relative_deadline rt < UINT64_MAX)
  /\ is_Some (tenants w !! rq_tenant r) /\ rq_estimate r <> 0
  /\ 0 < rq_allocated r < rq_initialized r /\ now <= rq_initialized r <= UINT64_MAX
  /\ 0 < rq_locked r < rq_unlocked r /\ rq_unlocked r <= UINT64_MAX.

Definition event_good x (now : Z) (e : event) : Prop :=
  match e with
  | EProcessor mo | ETimer mo => moment_good now mo
  | ERequest r => request_good x now r
  end.

Definition event_end (e : @event A) : Z :=
  match e with
  | EProcessor mo | ETimer mo => t_usr1 mo + 1
  | ERequest r => rq_initialized r + 1
  end.

Fixpoint scheduled x (now : Z) (es : list event) : Prop :=
  match es with
  | [] => True
  | e :: es => event_good x now e /\ match step x e with Ret x' => scheduled x' (event_end e) es | Stop _ => True end
  end.
(** ** What an event answers *)

Definition code_status x (s : sandbox) (ph : phase) (c : guest_code C) (mo : moment A) : option Z :=
  match c with
  | Exit _ => Some 200
  | Done _ => match ph with Running => Some 200 | Initializing => None end
  | Instr f => m ← sb_memory s; match f m (wasmg_0 (wk_world x)) with Stop _ => Some 500 | Ret _ => None end
  | Globals op _ =>
    match globals_exec op (sb_globals s) (mo_uninit mo) (mo_pad mo) (mo_realloc mo) with
    | Ret (rc, _, _) => if (rc =? -1) || (rc =? -2) then Some 500 else None
    | Stop _ => None
    end
  | Call _ _ => None
  end.

Definition verdict x (e : event) : list (Z * Z) :=
  match e with
  | EProcessor mo => option_list (
      p ← current (wk_world x);
      s ← sandboxes (wk_world x) !! p;
      if decide (sb_state s = SANDBOX_RUNNING_USER) then
        '(ph, c) ← wk_code x !! p;
        session ← sb_http s;
        status ← code_status x s ph c mo;
        Some (session, status)
      else None)
  | _ => []
  end.

(** The sessions it brings. *)
Definition accepted (e : @event A) : list Z := match e with ERequest r => [rq_session r] | _ => [] end.

(** ** Why a step can stop the process *)

(** Preparing the module: a data segment beyond the memory, a session whose
    arguments the runtime does not copy, no memory left. *)
Definition start_stops x (s : sandbox) (mo : moment A) (f : fault) : Prop :=
  module_initialize_memory (wk_world x) (sledge_abi__init_mem (program (sb_module s))) = Stop f
  \/ exists m, modules (wk_world x) !! sb_module s = Some m
     /\ (r ← request_of (wk_state x) (sb_http s); options ← sandbox_arguments (mod_path m) r;
         wasi_context_init options (mo_alloc mo)) = Stop f.

(** The code: a call that stops, a global out of range, or a trap before
    [sigsetjmp]. *)
Definition code_stops x (p : Z) (s : sandbox) (ph : phase) (c : guest_code C) (mo : moment A) (f : fault) : Prop :=
  match c with
  | Done _ | Exit _ => False
  | Instr _ => ph = Initializing /\ f = Undefined /\ code_status x s ph c mo = Some 500
  | Globals op _ =>
    globals_exec op (sb_globals s) (mo_uninit mo) (mo_pad mo) (mo_realloc mo) = Stop f
    \/ ph = Initializing /\ f = Undefined /\ code_status x s ph c mo = Some 500
  | Call c _ =>
    exists context body w' s' m, wk_contexts x !! p = Some context /\ call_is c (mo_answer mo) context body
      /\ sandbox_syscall (wk_world x) p (t_enter mo) = Ret w' /\ sandboxes w' !! p = Some s' /\ sb_memory s' = Some m
      /\ body s' m (wk_state x) = Stop f
  end.

(** The policy took a request whose preparation failed: an allocation did not
    succeed, and a request was waiting. *)
Definition preparation_stops x (mo : moment A) (f : fault) : Prop :=
  f = AssertFail /\ ~ prepare_succeeds (se_prepare (mo_env mo))
  /\ exists q sq, sandboxes (wk_world x) !! q = Some sq /\ sb_state sq = SANDBOX_INITIALIZED.

Definition excuse x (e : event) (f : fault) : Prop :=
  match e with
  | EProcessor mo =>
    (exists p s, current (wk_world x) = Some p /\ sandboxes (wk_world x) !! p = Some s /\
      match sb_state s with
      | SANDBOX_RUNNING_SYS => start_stops x s mo f
      | SANDBOX_RUNNING_USER => exists ph c, wk_code x !! p = Some (ph, c) /\ code_stops x p s ph c mo f
      | _ => False
      end)
    (* the worker is idle, or the sandbox on the processor ended *)
    \/ (current (wk_world x) = None \/ verdict x e <> []) /\ preparation_stops x mo f
  | ETimer mo =>
    (exists p s, current (wk_world x) = Some p /\ sandboxes (wk_world x) !! p = Some s /\ sb_state s = SANDBOX_RUNNING_USER)
    /\ preparation_stops x mo f
  | ERequest r =>     (* the global queue is full *)
    f = AssertFail /\ exists w g',
      sandbox_alloc (wk_world x) (Some (rq_address r)) (rq_module r) (rq_session r) (rq_route r) (rq_tenant r)
        (rq_estimate r) (rq_allocated r) (rq_initialized r) = Ret (Some (rq_address r), w)
      /\ global_request_scheduler_add (sandbox_get_priority w) true (rq_locked r) (rq_unlocked r) (wk_global x) (rq_address r)
         = Ret (None, g')
  end.

(** What every event must do. *)
Definition step_done x (e : event) x' : Prop :=
  inv x' (event_end e) /\ responses (wk_world x') = responses (wk_world x) ++ verdict x e
  /\ sessions (wk_world x') ≡ₚ accepted e ++ sessions (wk_world x).

Definition step_good x (e : event) : Prop :=
  match step x e with
  | Ret x' => step_done x e x'
  | Stop f => excuse x e f
  end.

(** ** Lemmas *)

Lemma inv_at_work x now p :
  inv x now -> current (wk_world x) = Some p ->
  exists l bag s, sandboxes (wk_world x) !! p = Some s /\ at_work (wk_world x) (wk_global x) l bag p s (sb_state s)
    /\ (sb_state s = SANDBOX_RUNNING_USER \/ sb_state s = SANDBOX_RUNNING_SYS).
Proof.
  intros [(l & bag & Co) Hse _ _] Hc. unfold seat in Hse. rewrite Hc in Hse. destruct Hse as (Hb & (_ & s & E & Hs) & Ht).
  exists l, bag, s. split; [done|]. split; [|done]. split; try done. by destruct Hs as [-> | ->].
Qed.

Lemma coded_later x w' (g' : heap) t : later t (wk_world x) w' -> coded x -> coded (wk_set x w' g').
Proof.
  intros Lt Hco q s E Hst. destruct (Lt q s E) as [(s0 & E0 & _ & Est)|(_ & Hs)].
  - apply (Hco q s0 E0). congruence.
  - destruct (Hs Hst) as (s0 & E0 & Hs0). by apply (Hco q s0).
Qed.

Lemma inv_next x now w' (g' : heap) t :
  inv x now -> (exists l bag, core w' g' l bag (cleanup_queue w')) -> seat w' -> later t (wk_world x) w' -> now <= t ->
  inv (wk_set x w' g') (t + 1).
Proof.
  intros [_ _ Hk Hco] Co Hse Lt Ht. split; [done|done| |by eapply coded_later]. eapply later_clock; eauto; lia.
Qed.

Lemma switched_ok mo r w' (g' : heap) :
  delivered worker_thread_idx (mo_env mo) (t_enter mo) (t_resume mo) (t_preempt mo) (t_usr1 mo) r w' g' ->
  switched (A := A) false worker_thread_idx mo r = Ret (w', g').
Proof.
  unfold delivered, switched. destruct r as [[w usr1] g]. cbn. destruct usr1.
  - intros ->. done.
  - by intros [= -> ->].
Qed.

(** ** Failing allocations *)

(** An allocation failed, and the global queue has a request. *)
Definition starved x (mo : moment A) : Prop := ~ prepare_succeeds (se_prepare (mo_env mo)) /\ takes (wk_global x) (mo_env mo).

Lemma starved_stops x now mo : inv x now -> moment_good now mo -> starved x mo -> preparation_stops x mo AssertFail.
Proof.
  intros [(l & bag & Co) _ _ _] Hmo [Hp Ht]. split; [done|]. split; [done|].
  destruct (takes_waiting _ _ bag (mo_env mo) (co_global _ _ _ _ _ _ Co)) as [q Hq]; [apply Hmo..|done|].
  destruct (co_bag _ _ _ _ _ _ Co q Hq) as (sq & m & E & Hs & _). by exists q, sq.
Qed.

Lemma served_env env : lock_times env -> prepare_succeeds (se_prepare env) -> env_good env.
Proof. intros [H1 H2] Hp. by split. Qed.

(** What the run with succeeding allocations does this one does too, or it is
    starved. *)
Lemma starved_or {T} x mo (r : moment A -> outcome T) (Q : T -> Prop) :
  (forall mo', mo' = mo \/ mo' = repair_moment mo -> prepare_succeeds (se_prepare (mo_env mo')) -> exists v, r mo' = Ret v /\ Q v) ->
  spared (takes (wk_global x) (mo_env mo)) (r mo) (r (repair_moment mo)) ->
  (exists v, r mo = Ret v /\ Q v) \/ r mo = Stop AssertFail /\ starved x mo.
Proof.
  intros Hr Hsp. destruct (decide (prepare_succeeds (se_prepare (mo_env mo)))) as [Hp|Hp]; [left; by apply Hr; [left|]|].
  destruct (Hr (repair_moment mo)) as (v & Ev & Hv); [by right|apply repair_succeeds|].
  destruct (Hsp v Ev) as [->|[-> Ht]]; [left; by exists v|by right].
Qed.

(** ** The worker's own loop *)

Lemma freed_later t w w' (qs : list Z) :
  (forall q s, sandboxes w' !! q = Some s <-> sandboxes w !! q = Some s /\ q ∉ qs) -> later (L := L) t w w'.
Proof. intros Es q s E. left. exists s. split; [|done]. by apply Es in E as [E _]. Qed.

Lemma idle_served x now mo :
  inv x now -> moment_good now mo -> prepare_succeeds (se_prepare (mo_env mo)) -> current (wk_world x) = None ->
  exists x', step x (EProcessor mo) = Ret x' /\ step_done x (EProcessor mo) x'.
Proof.
  intros I Hmo Hp Hc. destruct Hmo as (Hn & H1 & H2 & H3 & H4 & H5 & Hlk). pose proof (served_env _ Hlk Hp) as Henv.
  pose proof I as [(l & bag & Co) Hse Hk _]. unfold seat in Hse. rewrite Hc in Hse.
  destruct Hse as [Hb Hd]. unfold step_done. cbn [worker_step]. unfold processor_step, current_sandbox_get, verdict. rewrite Hc.
  destruct (core_cleanup_free worker_thread_idx (wk_world x) (wk_global x) l bag []) as (w0 & Ew0 & C0 & Hcl0 & Hc0 & Hb0 & Hd0 & Er0 & Ps0 & Es0);
    [by rewrite app_nil_r|done|]. rewrite Ew0. ostep. rewrite Hb in Hb0. rewrite Hd in Hd0.
  assert (Hk0 : clock_before w0 now) by (intros q s [E _]%Es0; by eapply Hk).
  unfold scheduler_idle_iteration, current_sandbox_get. rewrite Hc0, Hd0, bool_decide_true, Z.eqb_refl by done. ostep.
  destruct (core_next worker_thread_idx _ _ l bag _ (mo_env mo) now C0 Henv Hk0 ltac:(lia))
    as (next & w1 & g1 & l1 & bag1 & En & C1 & He & Htop & K1 & Adv & Hk1). cbn [scheduler_get_next edf_policy]. rewrite En. ostep.
  assert (Lt1 : later (t_usr1 mo) (wk_world x) w1).
  { apply (later_trans _ (t_usr1 mo) (se_dispatch (mo_env mo)) _ w0 w1); [by eapply freed_later|by apply later_stirred, stirred_advanced|lia..]. }
  assert (Hc1 : current w1 = None) by (by rewrite (adv_current _ _ _ Adv)).
  rewrite <- Hcl0, <- (kp_cleanup _ _ (kept_conserved _ _ K1)) in C1. destruct K1 as [[K1 Hb1] Er1].
  assert (Ps1 : sessions w1 ≡ₚ sessions (wk_world x)) by (by rewrite (kp_sessions _ _ K1)). rewrite Er0 in Er1.
  destruct next as [n|].
  - destruct (cooperative_ok worker_thread_idx w1 g1 l1 bag1 Base n (mo_env mo) (t_enter mo) (t_resume mo) (t_preempt mo)
      (t_switch mo) (t_usr1 mo)) as (r & Ew & _ & w' & Hdel & Hset); try done; try lia.
    { cbn. by rewrite Hb1. }
    { apply He. }
    { intros q s E. specialize (Hk1 q s E). lia. }
    rewrite Ew. destruct r as [w2 usr1]. ostep. rewrite (switched_ok mo _ w' g1) by done. ostep.
    apply (settled_trans _ (wk_world x)) in Hset as (Co' & Hse & Lt & Er & Ps); [|done..].
    eexists. split; [done|]. split; [|by rewrite app_nil_r]. apply (inv_next x now); try done. lia.
  - destruct (core_cleanup_free worker_thread_idx w1 g1 l1 bag1 []) as (w2 & Ew2 & C2 & Hcl2 & Hc2 & Hb2 & Hd2 & Er2 & Ps2 & Es2);
      [by rewrite app_nil_r|done|]. rewrite Ew2. ostep. unfold switched. ostep.
    eexists. split; [done|]. split; [|split; [cbn; by rewrite Er2, Er1, app_nil_r|exact (transitivity Ps2 Ps1)]].
    apply (inv_next x now); try done; [exists l1, bag1; by rewrite Hcl2| | |lia].
    + unfold seat. rewrite Hc2, Hb2, Hb1, Hd2. split; [done|]. by apply (kp_deferred _ _ K1).
    + apply (later_trans _ (t_usr1 mo) (t_usr1 mo) _ w1 w2); [done|by eapply freed_later|done..].
Qed.

Lemma idle_step x now mo : inv x now -> moment_good now mo -> current (wk_world x) = None -> step_good x (EProcessor mo).
Proof.
  intros I Hmo Hc. unfold step_good.
  destruct (starved_or x mo (fun mo => step x (EProcessor mo)) (step_done x (EProcessor mo))) as [(x' & E & Hx)|[E Hs]]; cbn beta in *.
  - intros mo' [-> | ->] Hp; [by apply (idle_served x now)|exact (idle_served x now (repair_moment mo) I Hmo Hp Hc)].
  - cbn [worker_step]. unfold processor_step, current_sandbox_get. rewrite Hc. spare. apply spared_bind; [apply idle_spared|intros; apply spared_refl].
  - by rewrite E.
  - rewrite E. right. split; [by left|]. by eapply starved_stops.
Qed.

(** ** The timer *)

Lemma at_work_seat w (g : heap) l bag p s :
  at_work w g l bag p s (sb_state s) -> sb_state s = SANDBOX_RUNNING_USER \/ sb_state s = SANDBOX_RUNNING_SYS -> seat w.
Proof. intros [Co Hc Hb E _ _ Ht] Hs. unfold seat. rewrite Hc. split; [done|]. split; [|done]. split; [done|]. by exists s. Qed.

Lemma deferred_ok w (g : heap) l bag fin n : core w g l bag fin -> core (set_deferred_sigalrm w n) g l bag fin.
Proof.
  intros Co. pose proof (co_wf _ _ _ _ _ _ Co) as W.
  assert (W' : SandboxSpec.wf worker_thread_idx (set_deferred_sigalrm w n) l)
    by (by apply (wf_same worker_thread_idx w); [..|apply frame_same]).
  destruct Co. by split.
Qed.

Lemma tick_served x now mo :
  inv x now -> moment_good now mo -> prepare_succeeds (se_prepare (mo_env mo)) ->
  exists x', step x (ETimer mo) = Ret x' /\ step_done x (ETimer mo) x'.
Proof.
  intros I Hmo Hp. destruct Hmo as (Hn & H1 & H2 & H3 & H4 & H5 & Hlk). pose proof (served_env _ Hlk Hp) as Henv.
  pose proof I as [(l & bag & Co) Hse Hk Hco]. unfold step_done. cbn [worker_step verdict].
  unfold timer_step. destruct (current (wk_world x)) as [p|] eqn:Hc.
  2: { cbn. unfold current_sandbox_get. rewrite Hc. unfold kernel_promotions, process_global_promotions. cbn.
       destruct (se_kernel _); ostep; (eexists; split; [done|]; split; [|by rewrite app_nil_r]);
         (apply (inv_next x now); [done|by exists l, bag|done|by apply later_same|lia]). }
  destruct (inv_at_work x now p I Hc) as (l0 & bag0 & s & E & Aw & [Hs|Hs]).
  - destruct (edf_tick_ok worker_thread_idx (wk_world x) l (wk_global x) bag (mo_env mo) p s (t_enter mo) (t_resume mo) (t_preempt mo) (t_switch mo))
      as (w' & g' & l' & bag' & n & Ew & W' & Hcx & Hh & R & Hmove & Hon & _ & Htop & K & Sti); try done; try lia; try apply Co.
    { intros q Hq. eapply core_waiting; eauto; lia. }
    { intros q sq Eq. specialize (Hk q sq Eq). lia. }
    rewrite Ew. ostep. destruct K as [[K Hb] Er]. eexists. split; [done|]. split; [|cbn; rewrite Er, app_nil_r; split; [done|apply K]].
    apply (inv_next x now); [done| | | |lia].
    + exists l', bag'. rewrite (kp_cleanup _ _ K). eapply core_stirred; eauto.
    + unfold seat. destruct Hon as [Hcur Hs']. rewrite Hcur. split; [|done]. rewrite Hb. apply Aw.
    + apply (later_trans _ (Z.max (t_resume mo) (t_switch mo)) (t_usr1 mo) _ w' w'); [by apply later_stirred|by apply later_same|lia..].
  - cbn. unfold current_sandbox_get, current_sandbox_is_preemptable, current_sandbox_get. rewrite Hc, E, Hs.
    rewrite bool_decide_false by done. unfold kernel_promotions, process_global_promotions. cbn.
    assert (Co' : core (set_deferred_sigalrm (wk_world x) (deferred_sigalrm (wk_world x) + 1)) (wk_global x) l bag (cleanup_queue (wk_world x)))
      by (by apply deferred_ok).
    destruct (se_kernel _); ostep; (eexists; split; [done|]; split; [|by rewrite app_nil_r]);
      (apply (inv_next x now); [done|by exists l, bag| |by apply later_same|lia]; unfold seat in *; cbn; by rewrite Hc in *).
Qed.

(** The handler asks the policy only when it interrupts user code. *)
Lemma timer_ignored x mo :
  (forall p s, current (wk_world x) = Some p -> sandboxes (wk_world x) !! p = Some s -> sb_state s <> SANDBOX_RUNNING_USER) ->
  step x (ETimer mo) = step x (ETimer (repair_moment mo)).
Proof.
  intros Hn. cbn [worker_step]. unfold timer_step, software_interrupt_handle_signals, current_sandbox_is_preemptable, current_sandbox_get.
  destruct (current (wk_world x)) as [p|]; [|done]. destruct (sandboxes (wk_world x) !! p) as [s|] eqn:E; [|done].
  by rewrite bool_decide_false by (by eapply Hn).
Qed.

Lemma tick_step x now mo : inv x now -> moment_good now mo -> step_good x (ETimer mo).
Proof.
  intros I Hmo. unfold step_good.
  destruct (starved_or x mo (fun mo => step x (ETimer mo)) (step_done x (ETimer mo))) as [(x' & E & Hx)|[E Hs]]; cbn beta in *.
  - intros mo' [-> | ->] Hp; [by apply (tick_served x now)|exact (tick_served x now (repair_moment mo) I Hmo Hp)].
  - cbn [worker_step]. unfold timer_step. apply spared_bind; [apply alarm_spared|intros; apply spared_refl].
  - by rewrite E.
  - assert (Hu : exists p s, current (wk_world x) = Some p /\ sandboxes (wk_world x) !! p = Some s /\ sb_state s = SANDBOX_RUNNING_USER).
    { destruct (tick_served x now (repair_moment mo) I Hmo (repair_succeeds _)) as (x' & E' & _).
      destruct (current (wk_world x)) as [p|] eqn:Hc; [destruct (sandboxes (wk_world x) !! p) as [s|] eqn:Es;
        [destruct (decide (sb_state s = SANDBOX_RUNNING_USER)); [by exists p, s|]|]|].
      all: rewrite timer_ignored, E' in E by (intros; congruence); done. }
    rewrite E. split; [done|]. by eapply starved_stops.
Qed.

(** ** The ends of a sandbox *)

Lemma finished_served x now mo l bag p s session :
  inv x now -> moment_good now mo -> prepare_succeeds (se_prepare (mo_env mo)) -> at_work (wk_world x) (wk_global x) l bag p s SANDBOX_RUNNING_USER -> sb_http s = Some session ->
  exists x', finished false worker_thread_idx x mo = Ret x' /\ inv x' (t_usr1 mo + 1)
    /\ responses (wk_world x') = responses (wk_world x) ++ [(session, 200)] /\ sessions (wk_world x') ≡ₚ sessions (wk_world x).
Proof.
  intros I (Hn & H1 & H2 & H3 & H4 & H5 & Hlk) Hp Aw Eh. pose proof I as [_ _ Hk _]. pose proof (served_env _ Hlk Hp) as Henv.
  destruct (fini_ok worker_thread_idx (wk_world x) (wk_global x) l bag p s session (mo_env mo) (t_enter mo) (t_completion mo) (t_returned mo)
    (t_exit mo) (t_enter mo) (t_resume mo) (t_preempt mo) (t_lock mo) (t_unlock mo) (t_switch mo) (t_usr1 mo) Aw Eh)
    as (r & g' & Ew & w' & Hdel & Co & Hse & Lt & Er & Ps); try done; try lia.
  { intros q sq Eq. specialize (Hk q sq Eq). lia. }
  exists (wk_set x w' g'). unfold finished. rewrite Ew. ostep. rewrite (switched_ok mo _ w' g') by done. split; [done|]. split; [|done].
  apply (inv_next x now); try done. lia.
Qed.

Lemma finished_step x now mo l bag p s session :
  inv x now -> moment_good now mo -> at_work (wk_world x) (wk_global x) l bag p s SANDBOX_RUNNING_USER -> sb_http s = Some session ->
  (exists x', finished false worker_thread_idx x mo = Ret x' /\ inv x' (t_usr1 mo + 1)
    /\ responses (wk_world x') = responses (wk_world x) ++ [(session, 200)] /\ sessions (wk_world x') ≡ₚ sessions (wk_world x))
  \/ finished false worker_thread_idx x mo = Stop AssertFail /\ starved x mo.
Proof.
  intros I Hmo Aw Eh. apply (starved_or x mo (fun mo => finished false worker_thread_idx x mo)).
  - intros mo' [-> | ->] Hp; [by apply (finished_served x now _ l bag p s)|].
    exact (finished_served x now (repair_moment mo) l bag p s session I Hmo Hp Aw Eh).
  - apply spared_bind; [apply fini_spared|intros; apply spared_refl].
Qed.

Definition trap_times (now : Z) (mo : moment A) : Prop :=
  now <= t_trap mo /\ t_trap mo < t_exit mo < se_dispatch (mo_env mo)
  /\ se_dispatch (mo_env mo) < t_switch mo < t_usr1 mo /\ t_usr1 mo <= UINT64_MAX /\ lock_times (mo_env mo).

Lemma trapped_served x now mo l bag p s session trapno :
  inv x now -> trap_times now mo -> prepare_succeeds (se_prepare (mo_env mo)) ->
  at_work (wk_world x) (wk_global x) l bag p s SANDBOX_RUNNING_USER -> sb_http s = Some session ->
  exists x', trapped false worker_thread_idx x Running trapno mo = Ret x' /\ inv x' (t_usr1 mo + 1)
    /\ responses (wk_world x') = responses (wk_world x) ++ [(session, 500)] /\ sessions (wk_world x') ≡ₚ sessions (wk_world x).
Proof.
  intros I (Hn & H1 & H2 & H3 & Hlk) Hp Aw Eh. pose proof I as [_ _ Hk _]. pose proof (served_env _ Hlk Hp) as Henv.
  destruct (trap_ok worker_thread_idx (wk_world x) (wk_global x) l bag p s session (mo_env mo) (t_trap mo)
    (t_exit mo) (t_enter mo) (t_resume mo) (t_preempt mo) (t_lock mo) (t_unlock mo) (t_switch mo) (t_usr1 mo) Aw Eh)
    as (r & g' & Ew & w' & Hdel & Co & Hse & Lt & Er & Ps); try done; try lia.
  { intros q sq Eq. specialize (Hk q sq Eq). lia. }
  exists (wk_set x w' g'). unfold trapped. rewrite Ew. ostep. rewrite (switched_ok mo _ w' g') by done. split; [done|]. split; [|done].
  apply (inv_next x now); try done. lia.
Qed.

Lemma trapped_step x now mo l bag p s session trapno :
  inv x now -> trap_times now mo -> at_work (wk_world x) (wk_global x) l bag p s SANDBOX_RUNNING_USER -> sb_http s = Some session ->
  (exists x', trapped false worker_thread_idx x Running trapno mo = Ret x' /\ inv x' (t_usr1 mo + 1)
    /\ responses (wk_world x') = responses (wk_world x) ++ [(session, 500)] /\ sessions (wk_world x') ≡ₚ sessions (wk_world x))
  \/ trapped false worker_thread_idx x Running trapno mo = Stop AssertFail /\ starved x mo.
Proof.
  intros I Hmo Aw Eh. apply (starved_or x mo (fun mo => trapped false worker_thread_idx x Running trapno mo)).
  - intros mo' [-> | ->] Hp; [by apply (trapped_served x now _ l bag p s)|].
    exact (trapped_served x now (repair_moment mo) l bag p s session trapno I Hmo Hp Aw Eh).
  - apply spared_bind; [apply trap_handler_spared|intros; apply spared_refl].
Qed.

(** ** The start of a sandbox *)

(** The sandbox on the processor goes on with this code. *)
Lemma inv_continue x now w' st' contexts ph c t l bag p s' :
  inv x now -> at_work w' (wk_global x) l bag p s' SANDBOX_RUNNING_USER -> sandboxes w' = <[p := s']> (sandboxes (wk_world x)) ->
  last_state_change s' <= t -> now <= t -> tame L c -> is_Some (contexts !! p) ->
  (forall q, q <> p -> contexts !! q = wk_contexts x !! q) ->
  inv (mk_worker w' (wk_global x) st' contexts (<[p := (ph, c)]> (wk_code x))) (t + 1).
Proof.
  intros [_ _ Hk Hco] Aw Es Hl Ht Hc Hx Hxs. pose proof Aw as [Co _ _ E' Hs _ _]. split; cbn.
  - by exists l, bag.
  - eapply (at_work_seat w' _ l bag p s'); [by rewrite Hs|by left].
  - intros q sq. rewrite Es. destruct (decide (q = p)) as [->|Hne].
    + rewrite lookup_insert_eq. intros [= <-]. lia.
    + rewrite lookup_insert_ne by done. intros Eq. specialize (Hk q sq Eq). lia.
  - intros q sq. cbn. rewrite Es. destruct (decide (q = p)) as [->|Hne].
    + intros _ _. exists ph, c. rewrite lookup_insert_eq. done.
    + rewrite !lookup_insert_ne by done. rewrite Hxs by done. apply Hco.
Qed.

Lemma same_account_trans s1 s2 s3 : same_account s1 s2 -> same_account s2 s3 -> same_account s1 s3.
Proof. unfold same_account. intuition congruence. Qed.

(** Another memory for the sandbox on the processor. *)
Lemma at_work_memory w (g : heap) l bag p s st m m' :
  at_work w g l bag p s st -> sb_memory s = Some m -> still_usable L m m' ->
  at_work (sb_put w p (set_sb_memory s (Some m'))) g l bag p (set_sb_memory s (Some m')) st
  /\ kept w (sb_put w p (set_sb_memory s (Some m'))).
Proof.
  intros Aw Em U. apply (at_work_touch _ w g l bag p s); [done|by repeat split|].
  destruct (at_work_equipped _ _ _ _ _ _ _ _ Aw) as [Hm Hg]. split; [|done]. intros md Emd. cbn in Emd.
  destruct (Hm md Emd) as (mem & Emem & Hu). exists m'. split; [done|]. apply U. by simplify_eq.
Qed.

Lemma init_memory_ok (g : heap) l bag p regions : forall w s,
  at_work w g l bag p s SANDBOX_RUNNING_SYS ->
  match module_initialize_memory w regions with
  | Ret w' => exists s', at_work w' g l bag p s' SANDBOX_RUNNING_SYS /\ kept w w'
      /\ sandboxes w' = <[p := s']> (sandboxes w) /\ same_account s s'
  | Stop _ => True
  end.
Proof.
  induction regions as [|[off region] regions IH]; intros w s Aw; cbn [module_initialize_memory].
  - exists s. split; [done|]. split; [done|]. split; [|by repeat split]. symmetry. apply insert_id, Aw.
  - unfold initialize_region, sledge_abi__wasm_memory_initialize_region, current_sandbox_get. rewrite (aw_current _ _ _ _ _ _ _ _ Aw). ostep.
    rewrite (sb_get_ok _ _ _ (aw_sandbox _ _ _ _ _ _ _ _ Aw)). ostep. rewrite bool_decide_true by apply Aw. ostep.
    destruct (sb_memory s) as [m|] eqn:Em; ostep; [|done].
    destruct (wasm_memory_initialize_region m off region) as [m'|] eqn:Er; ostep; [|done].
    assert (U : still_usable L m m').
    { unfold wasm_memory_initialize_region in Er. kept_steps. by eapply store_usable. }
    destruct (at_work_memory w g l bag p s _ m m' Aw Em U) as [Aw1 K1]. specialize (IH _ _ Aw1).
    destruct (module_initialize_memory _ regions) as [w'|]; [|done]. destruct IH as (s' & Aw' & K' & Es' & Hs'). exists s'.
    split; [done|]. split; [by etrans|]. split; [rewrite Es'; cbn; by rewrite insert_insert_eq|].
    eapply same_account_trans; [|exact Hs']. by repeat split.
Qed.

Lemma start_step x now mo p l bag s :
  inv x now -> moment_good now mo -> at_work (wk_world x) (wk_global x) l bag p s SANDBOX_RUNNING_SYS -> step_good x (EProcessor mo).
Proof.
  intros I (Hn & H1 & H2 & H3 & H4 & H5 & Henv) Aw. pose proof Aw as [Co Hc _ E Hs _ _]. pose proof I as [_ _ Hk _].
  unfold step_good, step_done. cbn [worker_step]. unfold processor_step, verdict, current_sandbox_get. rewrite Hc, (sb_get_ok _ _ _ E). ostep.
  rewrite Hs. unfold current_sandbox_init, current_sandbox_get. rewrite Hc, (sb_get_ok _ _ _ E). ostep. rewrite bool_decide_true by done. ostep.
  destruct (ok_module _ _ _ (wf_sandbox _ _ _ (co_wf _ _ _ _ _ _ Co) p s E)) as (m & Em & _). unfold module_at. rewrite Em. ostep.
  pose proof (init_memory_ok (wk_global x) l bag p (sledge_abi__init_mem (program (sb_module s))) (wk_world x) s Aw) as Him.
  destruct (module_initialize_memory (wk_world x) _) as [w1|f] eqn:Ei; ostep.
  2: { left. exists p, s. rewrite Hs. split; [done|]. split; [done|]. by left. }
  assert (Hst : forall f, (r ← request_of (wk_state x) (sb_http s); options ← sandbox_arguments (mod_path m) r;
         wasi_context_init options (mo_alloc mo)) = Stop f -> excuse x (EProcessor mo) f).
  { intros f Hf. left. exists p, s. rewrite Hs. split; [done|]. split; [done|]. right. by exists m. }
  destruct (request_of (wk_state x) (sb_http s)) as [r|f]; revert Hst; ostep; intros Hst; [|by apply Hst].
  destruct (sandbox_arguments (mod_path m) r) as [options|f]; revert Hst; ostep; intros Hst; [|by apply Hst].
  destruct (wasi_context_init options (mo_alloc mo)) as [context|f]; revert Hst; ostep; intros Hst; [|by apply Hst].
  destruct Him as (s1 & Aw1 & K1 & Es1 & Hs1). assert (El1 : last_state_change s1 = last_state_change s) by apply Hs1. pose proof (Hk p s E).
  destruct (runtime_left worker_thread_idx w1 (wk_global x) l bag p s1 (t_leave mo) Aw1 ltac:(lia)) as (w2 & s2 & Ew2 & Aw2 & K2 & Es2 & El2 & _).
  rewrite Ew2. ostep. split.
  - apply (inv_continue x now w2 _ _ _ _ (t_usr1 mo) l bag p s2); try done; try lia.
    + by rewrite Es2, Es1, insert_insert_eq.
    + apply program_tame.
    + rewrite lookup_insert_eq. by eexists.
    + intros q Hne. by rewrite lookup_insert_ne.
  - cbn. rewrite E. cbn. rewrite decide_False by (by rewrite Hs). cbn. rewrite app_nil_r. split; [destruct K2 as [_ ->]; by destruct K1 as [_ ->]|].
    rewrite (kp_sessions _ _ (kept_conserved _ _ K2)). apply K1.
Qed.
(** ** The guest's code *)

Definition guest_good x (p : Z) (s : sandbox) (session : Z) (ph : phase) (c : guest_code C) (mo : moment A) : Prop :=
  match guest_step false worker_thread_idx program x p s ph c mo with
  | Ret x' => inv x' (t_usr1 mo + 1)
      /\ responses (wk_world x') = responses (wk_world x) ++ option_list ((fun st => (session, st)) <$> code_status x s ph c mo)
      /\ sessions (wk_world x') ≡ₚ sessions (wk_world x)
  | Stop f => code_stops x p s ph c mo f \/ f = AssertFail /\ starved x mo /\ code_status x s ph c mo <> None
  end.

Lemma guest_step_good x now p s session ph c mo :
  inv x now -> moment_good now mo -> current (wk_world x) = Some p -> sandboxes (wk_world x) !! p = Some s -> sb_state s = SANDBOX_RUNNING_USER ->
  sb_http s = Some session -> wk_code x !! p = Some (ph, c) -> guest_good x p s session ph c mo -> step_good x (EProcessor mo).
Proof.
  intros I Hmo Hc E Hs Eh Ec. unfold guest_good, step_good, step_done, excuse. cbn [worker_step]. unfold processor_step, verdict, current_sandbox_get.
  rewrite Hc, (sb_get_ok _ _ _ E). ostep. rewrite Hs, Ec. ostep. destruct (guest_step _ _ _ _ _ _ _ _ _) as [x'|f].
  - cbn. rewrite E. cbn. rewrite decide_True, Ec, Eh by done. cbn. by destruct (code_status x s ph c mo).
  - intros [Hst|(-> & Hst & Hcs)]; [left; exists p, s; rewrite Hs; do 2 (split; [done|]); by exists ph, c|].
    right. split; [right|by eapply starved_stops]. cbn. rewrite E. cbn. rewrite decide_True, Ec, Eh by done. cbn.
    by destruct (code_status x s ph c mo).
Qed.

(** The guest goes on, with the world as it is. *)
Lemma inv_same_continue x now p l bag s ph c t :
  inv x now -> at_work (wk_world x) (wk_global x) l bag p s SANDBOX_RUNNING_USER -> now <= t -> tame L c ->
  is_Some (wk_contexts x !! p) -> inv (wk_continue x (wk_world x) (wk_state x) p ph c) (t + 1).
Proof.
  intros I Aw Ht Hc Hx. pose proof (inv_clock _ _ I p s (aw_sandbox _ _ _ _ _ _ _ _ Aw)).
  apply (inv_continue x now _ _ _ _ _ t l bag p s); try done; [|lia]. symmetry. apply insert_id, Aw.
Qed.

(** A fault or a trap of the guest's code reaches the trap handler. *)
Lemma trap_raised w (g : heap) l bag p s trapno :
  at_work w g l bag p s SANDBOX_RUNNING_USER -> 0 < trapno < WASM_TRAP_COUNT -> current_sandbox_trap w trapno = Ret trapno.
Proof.
  intros Aw Ht. unfold current_sandbox_trap, current_sandbox_get. rewrite (proj2 (Z.eqb_neq trapno 0)) by lia.
  rewrite (proj2 (Z.ltb_lt trapno WASM_TRAP_COUNT)) by lia. ostep. cbn [negb]. ostep. rewrite (aw_current _ _ _ _ _ _ _ _ Aw), (sb_get_ok _ _ _ (aw_sandbox _ _ _ _ _ _ _ _ Aw)).
  ostep. rewrite bool_decide_true by apply Aw. done.
Qed.

Lemma faulted_trapped x ph sig mo l bag p s :
  at_work (wk_world x) (wk_global x) l bag p s SANDBOX_RUNNING_USER -> sig = SIGSEGV \/ sig = SIGFPE ->
  exists trapno, faulted false worker_thread_idx x ph sig mo = trapped false worker_thread_idx x ph trapno mo.
Proof.
  intros Aw Hsig. unfold faulted, software_interrupt_handle_signals, current_sandbox_is_preemptable, current_sandbox_get.
  rewrite (aw_current _ _ _ _ _ _ _ _ Aw), (aw_sandbox _ _ _ _ _ _ _ _ Aw), bool_decide_true by apply Aw.
  destruct Hsig as [-> | ->]; ostep; rewrite (trap_raised _ _ _ _ _ _ _ Aw) by done; ostep; by eexists.
Qed.

(** ... which answers 500, unless nothing was there to jump to. *)
Lemma trapped_good x x0 now mo l bag p s s0 session ph c trapno f0 :
  inv x now -> trap_times now mo -> wk_global x = wk_global x0 ->
  at_work (wk_world x) (wk_global x) l bag p s SANDBOX_RUNNING_USER -> sb_http s = Some session ->
  code_status x0 s0 ph c mo = Some 500 -> responses (wk_world x) = responses (wk_world x0) ->
  sessions (wk_world x) ≡ₚ sessions (wk_world x0) -> (ph = Initializing /\ Undefined = Undefined /\ code_status x0 s0 ph c mo = Some 500 -> f0 Undefined) ->
  match trapped false worker_thread_idx x ph trapno mo with
  | Ret x' => inv x' (t_usr1 mo + 1)
      /\ responses (wk_world x') = responses (wk_world x0) ++ option_list ((fun st => (session, st)) <$> code_status x0 s0 ph c mo)
      /\ sessions (wk_world x') ≡ₚ sessions (wk_world x0)
  | Stop f => f0 f \/ f = AssertFail /\ starved x0 mo /\ code_status x0 s0 ph c mo <> None
  end.
Proof.
  intros I Hmo Eg Aw Eh Hst Er Ps Hf. destruct ph.
  - cbn. left. by apply Hf.
  - destruct (trapped_step x now mo l bag p s session trapno I Hmo Aw Eh) as [(x' & -> & I' & Er' & Ps')|[-> Hsv]].
    2: { right. split; [done|]. unfold starved in *. rewrite Eg in Hsv. by rewrite Hst. }
    split; [done|].
    split; [by rewrite Hst, Er', Er|by rewrite Ps'].
Qed.

Lemma instr_step x now mo p l bag s session ph f :
  inv x now -> moment_good now mo -> at_work (wk_world x) (wk_global x) l bag p s SANDBOX_RUNNING_USER -> sb_http s = Some session ->
  tame L (Instr f) -> is_Some (wk_contexts x !! p) -> guest_good x p s session ph (Instr f) mo.
Proof.
  intros I (Hn & H1 & H2 & H3 & H4 & H5 & Henv) Aw Eh Ht Hx. pose proof Aw as [Co _ _ E _ _ _]. pose proof (inv_clock _ _ I p s E).
  destruct (ok_module _ _ _ (wf_sandbox _ _ _ (co_wf _ _ _ _ _ _ Co) p s E)) as (md & Emd & _).
  destruct (at_work_equipped _ _ _ _ _ _ _ _ Aw) as [Hm _]. destruct (Hm md Emd) as (m & Em & _).
  unfold guest_good. cbn [guest_step]. rewrite Em. ostep. specialize (Ht m (wasmg_0 (wk_world x))).
  assert (Hst : forall e, f m (wasmg_0 (wk_world x)) = Stop e -> code_status x s ph (Instr f) mo = Some 500).
  { intros e Ee. cbn. by rewrite Em; cbn; rewrite Ee. }
  assert (Hmo : trap_times now mo) by (split_and!; try lia; done).
  destruct (f m (wasmg_0 (wk_world x))) as [[[k m'] g0]|e] eqn:Ef.
  - destruct Ht as [U Hk]. destruct (at_work_wasmg _ _ _ _ _ _ _ _ g0 Aw) as [Aw1 K1].
    destruct (at_work_memory _ _ _ _ _ _ _ m m' Aw1 Em U) as [Aw2 K2]. split.
    + apply (inv_continue x now _ _ _ _ _ (t_usr1 mo) l bag p (set_sb_memory s (Some m'))); try done; cbn; lia.
    + cbn [code_status]. rewrite Em. cbn. rewrite Ef. cbn. rewrite app_nil_r. split; [done|]. apply (kp_sessions _ _ (kept_conserved _ _ K2)).
  - specialize (Hst e eq_refl). destruct e; try done.
    + destruct (faulted_trapped x ph SIGSEGV mo l bag p s Aw) as [n ->]; [by left|]. eapply trapped_good; done.
    + destruct (faulted_trapped x ph SIGFPE mo l bag p s Aw) as [n ->]; [by right|]. eapply trapped_good; done.
    + unfold sledge_abi__wasm_trap_raise. rewrite (trap_raised _ _ _ _ _ _ _ Aw) by done. ostep. eapply trapped_good; done.
Qed.
(** The globals: every operation on well-formed globals leaves them so. *)
Lemma globals_exec_ok op globals gs uninit pad realloc :
  globals_wf globals gs ->
  match globals_exec op globals uninit pad realloc with
  | Ret (_, _, globals') => exists gs', globals_wf globals' gs'
  | Stop _ => True
  end.
Proof.
  intros W.
  assert (Hget : forall type value idx, match wasm_globals_get type value globals idx uninit with Ret _ => exists gs', globals_wf globals gs' | Stop _ => True end)
    by (intros type value idx; destruct (wasm_globals_get _ _ _ _ _); [by exists gs|done]).
  assert (Hset : forall type idx v, match wasm_globals_set type globals idx v true pad realloc with
    | Ret (_, globals') => exists gs', globals_wf globals' gs' | Stop _ => True end).
  { intros type idx v. destruct (gs !! idx) as [g|] eqn:Eg.
    - destruct (decide (g_type g = WASM_GLOBAL_TYPE_UNUSED \/ g_mut g = true)) as [Hg|Hg].
      + destruct (globals_set_ok type globals gs idx g v true pad realloc W Eg Hg) as (globals' & -> & W'). eauto.
      + destruct (global_read_ok _ _ _ _ W Eg) as [Egt Erd]. unfold wasm_globals_set, global_at. rewrite Egt, Erd. ostep.
        rewrite bool_decide_false by tauto. destruct (g_mut g); [tauto|]. cbn. eauto.
    - unfold wasm_globals_set, global_at, vec_get. apply lookup_ge_None in Eg. destruct W as (_ & _ & Hl & _).
      by rewrite decide_True by lia. }
  destruct op as [idx|idx|idx v|idx v]; cbn; unfold wasm_globals_get_i32, wasm_globals_get_i64, wasm_globals_set_i32, wasm_globals_set_i64.
  - specialize (Hget WASM_GLOBAL_TYPE_I32 global_i32 idx). by destruct (wasm_globals_get _ _ _ _ _) as [[]|].
  - specialize (Hget WASM_GLOBAL_TYPE_I64 global_i64 idx). by destruct (wasm_globals_get _ _ _ _ _) as [[]|].
  - specialize (Hset WASM_GLOBAL_TYPE_I32 idx v). by destruct (wasm_globals_set _ _ _ _ _ _ _) as [[]|].
  - specialize (Hset WASM_GLOBAL_TYPE_I64 idx v). by destruct (wasm_globals_set _ _ _ _ _ _ _) as [[]|].
Qed.

(** Entering the runtime leaves the memory and the globals. *)
Lemma syscall_equipment w p now w' s s' :
  sandbox_syscall w p now = Ret w' -> sandboxes w !! p = Some s -> sandboxes w' !! p = Some s' ->
  sb_globals s' = sb_globals s /\ sb_memory s' = sb_memory s.
Proof.
  unfold sandbox_syscall, sandbox_set_as_running_sys, write_state, bookkeeping, account, sandbox_process_scheduler_updates.
  intros Ew E E'. kept_steps. all: puts. all: done.
Qed.

Lemma globals_step x now mo p l bag s session ph op k :
  inv x now -> moment_good now mo -> at_work (wk_world x) (wk_global x) l bag p s SANDBOX_RUNNING_USER -> sb_http s = Some session ->
  tame L (Globals op k) -> is_Some (wk_contexts x !! p) -> guest_good x p s session ph (Globals op k) mo.
Proof.
  intros I (Hn & H1 & H2 & H3 & H4 & H5 & Henv) Aw Eh Ht Hx. pose proof Aw as [Co Hc _ E _ _ _]. pose proof (inv_clock _ _ I p s E).
  destruct (runtime_entered worker_thread_idx (wk_world x) (wk_global x) l bag p s (t_enter mo) Aw ltac:(lia)) as (w1 & s1 & Ew1 & Aw1 & K1 & Es1 & El1 & Eh1).
  pose proof (aw_sandbox _ _ _ _ _ _ _ _ Aw1) as E1. destruct (syscall_equipment _ _ _ _ _ _ Ew1 E E1) as [Eg1 _].
  destruct (at_work_equipped _ _ _ _ _ _ _ _ Aw1) as [Hm1 (gs & Hgs)].
  unfold guest_good. cbn [guest_step]. unfold globals_call, current_sandbox_get. rewrite Hc. ostep. rewrite Ew1. ostep. rewrite (sb_get_ok _ _ _ E1). ostep.
  pose proof (globals_exec_ok op _ gs (mo_uninit mo) (mo_pad mo) (mo_realloc mo) Hgs) as Hex. rewrite Eg1 in Hex |- *.
  destruct (globals_exec op (sb_globals s) (mo_uninit mo) (mo_pad mo) (mo_realloc mo)) as [[[rc r] globals]|f] eqn:Ex; ostep; [|by left; left].
  destruct (at_work_touch _ _ _ _ _ _ _ (set_sb_globals s1 globals) _ Aw1 ltac:(by repeat split)) as [Aw2 K2]; [by split|].
  destruct (runtime_left worker_thread_idx _ _ _ _ _ _ (t_leave mo) Aw2 ltac:(cbn; lia)) as (w3 & s3 & Ew3 & Aw3 & K3 & Es3 & El3 & Eh3).
  rewrite Ew3. ostep.
  assert (Es : sandboxes w3 = <[p := s3]> (sandboxes (wk_world x))) by (rewrite Es3; cbn; by rewrite Es1, !insert_insert_eq).
  assert (Er : responses w3 = responses (wk_world x)) by (destruct K3 as [_ ->]; cbn; by destruct K1 as [_ ->]).
  assert (Ps : sessions w3 ≡ₚ sessions (wk_world x)).
  { rewrite (kp_sessions _ _ (kept_conserved _ _ K3)), (kp_sessions _ _ (kept_conserved _ _ K2)). apply K1. }
  assert (I3 : inv (wk_set x w3 (wk_global x)) (t_leave mo + 1)).
  { apply (inv_next x now); [done|exists l, bag; apply Aw3| |by eapply later_insert; eauto; [lia|by rewrite (aw_state _ _ _ _ _ _ _ _ Aw)]|lia].
    eapply (at_work_seat w3); [by rewrite (aw_state _ _ _ _ _ _ _ _ Aw3)|left; apply Aw3]. }
  cbn in Eh3. rewrite Eh1, Eh in Eh3.
  assert (Hmo : trap_times (t_leave mo + 1) mo) by (split_and!; try lia; done).
  destruct (rc =? -1) eqn:R1; [|destruct (rc =? -2) eqn:R2].
  - unfold sledge_abi__wasm_trap_raise. rewrite (trap_raised _ _ _ _ _ _ _ Aw3) by done. ostep.
    eapply (trapped_good (wk_set x w3 (wk_global x))); try done; [cbn; by rewrite Ex, R1|]. intros Hi. by right.
  - unfold sledge_abi__wasm_trap_raise. rewrite (trap_raised _ _ _ _ _ _ _ Aw3) by done. ostep.
    eapply (trapped_good (wk_set x w3 (wk_global x))); try done; [cbn; by rewrite Ex, R1, R2|]. intros Hi. by right.
  - split; [|cbn; by rewrite Ex, R1, R2; cbn; rewrite app_nil_r].
    apply (inv_continue x now w3 _ _ _ _ (t_usr1 mo) l bag p s3); try done; lia.
Qed.
Lemma call_step x now mo p l bag s session ph c k :
  inv x now -> moment_good now mo -> at_work (wk_world x) (wk_global x) l bag p s SANDBOX_RUNNING_USER -> sb_http s = Some session ->
  tame L (Call c k) -> is_Some (wk_contexts x !! p) -> guest_good x p s session ph (Call c k) mo.
Proof.
  intros I (Hn & H1 & H2 & H3 & H4 & H5 & Henv) Aw Eh Ht [context Ex]. pose proof Aw as [Co Hc _ E _ _ _]. pose proof (inv_clock _ _ I p s E).
  destruct (runtime_entered worker_thread_idx (wk_world x) (wk_global x) l bag p s (t_enter mo) Aw ltac:(lia)) as (w1 & s1 & Ew1 & Aw1 & K1 & Es1 & El1 & Eh1).
  pose proof (aw_sandbox _ _ _ _ _ _ _ _ Aw1) as E1.
  destruct (ok_module _ _ _ (wf_sandbox _ _ _ (co_wf _ _ _ _ _ _ (aw_core _ _ _ _ _ _ _ _ Aw1)) p s1 E1)) as (md & Emd & _).
  destruct (at_work_equipped _ _ _ _ _ _ _ _ Aw1) as [Hm _]. destruct (Hm md Emd) as (m & Em & _).
  unfold guest_good. cbn [guest_step]. rewrite Ex. ostep.
  destruct (call_law c (mo_answer mo) context) as (body & Hb & Hu). rewrite Hb. unfold in_syscall, current_sandbox_get. rewrite Hc. ostep.
  rewrite Ew1. ostep. rewrite (sb_get_ok _ _ _ E1). ostep. rewrite Em. ostep.
  destruct (body s1 m (wk_state x)) as [[[r m'] st']|f] eqn:Eb; ostep.
  2: { left. by exists context, body, w1, s1, m. }
  destruct (at_work_memory _ _ _ _ _ _ _ m m' Aw1 Em) as [Aw2 K2]; [by eapply Hu|].
  destruct (runtime_left worker_thread_idx _ _ _ _ _ _ (t_leave mo) Aw2 ltac:(cbn; lia)) as (w3 & s3 & Ew3 & Aw3 & K3 & Es3 & El3 & _).
  rewrite Ew3. ostep. split.
  - apply (inv_continue x now w3 _ _ _ _ (t_usr1 mo) l bag p s3); try done; try lia.
    + rewrite Es3. cbn. by rewrite Es1, !insert_insert_eq.
  - cbn. rewrite app_nil_r. split; [destruct K3 as [_ ->]; cbn; by destruct K1 as [_ ->]|].
    rewrite (kp_sessions _ _ (kept_conserved _ _ K3)), (kp_sessions _ _ (kept_conserved _ _ K2)). apply K1.
Qed.

Lemma processor_ok x now mo : inv x now -> moment_good now mo -> step_good x (EProcessor mo).
Proof.
  intros I Hmo. destruct (current (wk_world x)) as [p|] eqn:Hc; [|by eapply idle_step].
  destruct (inv_at_work x now p I Hc) as (l & bag & s & E & Aw & [Hs|Hs]); rewrite Hs in Aw; [|by eapply start_step].
  destruct (at_work_session _ _ _ _ _ _ _ _ Aw) as [session Eh].
  destruct (inv_code _ _ I p s E ltac:(by rewrite Hs)) as (ph & c & Ec & Ht & Hx).
  apply (guest_step_good x now p s session ph c); try done. destruct c as [r|f|op k|c k|code].
  - destruct ph; unfold guest_good; cbn.
    + split; [|by rewrite app_nil_r]. eapply inv_same_continue; eauto; [destruct Hmo; lia|apply program_tame].
    + destruct (finished_step x now mo l bag p s session I Hmo Aw Eh) as [(x' & -> & ? & ? & ?)|[-> ?]]; [done|by right].
  - by eapply instr_step.
  - by eapply globals_step.
  - by eapply call_step.
  - unfold guest_good. cbn. destruct (finished_step x now mo l bag p s session I Hmo Aw Eh) as [(x' & -> & ? & ? & ?)|[-> ?]]; [done|by right].
Qed.
(** ** A request *)

Lemma request_step_ok x now r : inv x now -> request_good x now r -> step_good x (ERequest r).
Proof.
  intros I (Ep & Hses & (m & Em & Href & Hgl) & (rt & Ert & Hdl) & Hten & Hest & Ht & Ht1 & Hlk & Hul).
  pose proof I as [(l & bag & Co) Hse Hk Hco].
  destruct (core_request worker_thread_idx (wk_world x) (wk_global x) l bag _ _ _ m (rq_session r) (rq_route r) rt (rq_tenant r) (rq_estimate r)
    (rq_allocated r) (rq_initialized r) Co Ep Hses Em Href Hgl Ert Hdl Hten Hest Ht ltac:(lia))
    as (w' & s & Ew & Rs & Es & Hst & Hl & W' & Rg & Ps & Hcore).
  destruct (gs_add_ok _ (rq_locked r) (rq_unlocked r) (wk_global x) bag (rq_address r) (wf_deadlines _ _ _ W') Rg Logic.I Hlk Hul)
    as (added & g' & bag' & Ea & Rg' & Hadd).
  unfold step_good, step_done. cbn [worker_step]. unfold request_step. rewrite Ew. ostep. rewrite Ea. ostep. destruct added as [q|].
  - destruct Hadd as [-> Pb]. split; [|cbn; rewrite app_nil_r; split; [apply Rs|done]]. apply (inv_next x now); [done| | | |lia].
    + exists l, bag'. destruct Rs as (_ & _ & _ & _ & _ & -> & _). by apply Hcore.
    + destruct Rs as (Erq & _ & Ec & Eb & Ed & _). unfold seat in *. rewrite Ec, Eb, Ed, Erq.
      destruct (current (wk_world x)) as [n|] eqn:Hc; [|done]. destruct Hse as (? & (_ & sn & En & Hsn) & ?). split; [done|]. split; [|done].
      split; [done|]. exists sn. split; [|done]. rewrite Es, lookup_insert_ne; [done|]. congruence.
    + intros q sq. rewrite Es. destruct (decide (q = rq_address r)) as [->|Hne].
      * rewrite lookup_insert_eq. intros [= <-]. right. rewrite Hst. split; [lia|done].
      * rewrite lookup_insert_ne by done. left. by exists sq.
  - unfold sandbox_free. assert (E' : sandboxes w' !! rq_address r = Some s) by (rewrite Es; apply lookup_insert_eq).
    assert (Hx : excuse x (ERequest r) AssertFail) by (split; [done|]; by exists w', g').
    case_bool_decide; cbn; [done|]. rewrite (sb_get_ok _ _ _ E'). ostep. rewrite Hst. done.
Qed.

Lemma worker_step_ok x now e : inv x now -> event_good x now e -> step_good x e.
Proof. destruct e; cbn; intros I He; [by eapply processor_ok | by eapply tick_step | by eapply request_step_ok]. Qed.

(** ** Runs *)

Abbreviation run := (worker_run false worker_thread_idx program).

(** The answers of a run, in order. *)
Fixpoint verdicts x (es : list event) : list (Z * Z) :=
  match es with
  | [] => []
  | e :: es => verdict x e ++ match step x e with Ret x' => verdicts x' es | Stop _ => [] end
  end.

Definition arrivals (es : list event) : list Z := es ≫= accepted.

Lemma worker_run_ok x now es :
  inv x now -> scheduled x now es ->
  match run x es with
  | Ret x' => (exists now', inv x' now') /\ responses (wk_world x') = responses (wk_world x) ++ verdicts x es
      /\ sessions (wk_world x') ≡ₚ arrivals es ++ sessions (wk_world x) /\ NoDup (sessions (wk_world x'))
  | Stop f => exists es1 e es2 x1, es = es1 ++ e :: es2 /\ run x es1 = Ret x1 /\ excuse x1 e f
  end.
Proof.
  revert x now. induction es as [|e es IH]; intros x now I Hsch; cbn.
  - split; [by exists now|]. split; [by rewrite app_nil_r|]. destruct I as [(l & bag & Co) _ _ _].
    split; [done|apply Co].
  - destruct Hsch as [He Hrest]. pose proof (worker_step_ok x now e I He) as Hstep. unfold step_good in Hstep.
    cbn [worker_run].
    destruct (step x e) as [x1|f] eqn:Est; ostep.
    + destruct Hstep as (I1 & Er1 & Ps1). specialize (IH x1 _ I1 Hrest). destruct (worker_run _ _ _ x1 es) as [x'|f].
      * destruct IH as (I' & Er' & Ps' & Hn). split; [done|]. split; [by rewrite Er', Er1, app_assoc|]. split; [|done].
        rewrite Ps', Ps1. unfold arrivals. cbn. by rewrite !app_assoc, (Permutation_app_comm (es ≫= accepted)).
      * destruct IH as (es1 & e1 & es2 & x2 & -> & Er & Hex). exists (e :: es1), e1, es2, x2. split; [done|]. split; [|done].
        cbn [worker_run]. by rewrite Est.
    + exists [], e, es, x. done.
Qed.
(** A worker as [scheduler_runqueue_initialize] and the loader of modules leave it. *)
Definition fresh x : Prop :=
  let w := wk_world x in
  sandboxes w = ∅ /\ runqueue w = local_runqueue_minheap_initialize
  /\ wk_global x = global_request_scheduler_minheap_initialize /\ modules_wf worker_thread_idx w
  /\ (forall k m, modules w !! k = Some m -> 0 <= reference_count m <= UINT32_MAX)
  /\ current w = None /\ base_variant w = VARIANT_RUNNING /\ deferred_sigalrm w = 0 /\ cleanup_queue w = [] /\ responses w = [].

Lemma fresh_inv x now : fresh x -> inv x now.
Proof.
  intros (Es & Eq & Eg & Hm & Hr & Hc & Hb & Hd & Hcl & Hre).
  assert (Hno : forall q s, sandboxes (wk_world x) !! q = Some s -> False) by (intros q s; by rewrite Es).
  assert (R : forall dl, pq_repr dl (runqueue (wk_world x)) []) by (intros dl; rewrite Eq; apply initialize_ok).
  split; [exists [], []; split|..].
  - split; try done.
    + split; [apply pq_repr_bag, R|by rewrite Eq].
    + apply base.NoDup_nil_2.
    + intros q. split; [by intros ?%not_elem_of_nil|]. intros (s & E & _). by apply Hno in E.
    + intros q s E. by apply Hno in E.
  - intros q s E. by apply Hno in E.
  - by destruct (R (sandbox_get_priority (wk_world x))) as (_ & Hh & _).
  - split; [rewrite Eg; apply initialize_ok|rewrite Eg; apply mcs_init_unlocked].
  - apply base.NoDup_nil_2.
  - intros q s E. by apply Hno in E.
  - by intros q ?%not_elem_of_nil.
  - rewrite Hcl. apply base.NoDup_nil_2.
  - intros q. rewrite Hcl. by intros ?%not_elem_of_nil.
  - intros q s E. by apply Hno in E.
  - intros k m Em. unfold module_of, refs. rewrite Es, fmap_empty, map_filter_empty, map_size_empty. apply (Hr k m Em).
  - unfold sessions, held. rewrite Hre, Es, map_to_list_empty. apply base.NoDup_nil_2.
  - unfold seat. by rewrite Hc.
  - intros q s E. by apply Hno in E.
  - intros q s E. by apply Hno in E.
Qed.

(** C1: a worker executes its guests and answers every request once.  From its
    start, under EDF, through any schedule of requests, timer signals and pieces of
    guest code that touch only their own memory, whatever the allocators answer, a
    worker stays in order.  The schedule has an increasing cycle counter, and its
    requests are for loaded modules with globals, on routes and of tenants that exist,
    over sessions not seen before.  The responses are the verdicts on the guests, in
    order: 200 when the code returned or exited, 500 when it trapped or faulted.
    Every request that arrived has been answered, or is held by exactly one sandbox;
    none is answered twice.  Only an [excuse] stops the process: a module that cannot
    be started, a call or an access to a global that stops, a trap while the globals
    are initialised, a request for a full global queue, or, when the policy is asked for
    the next sandbox while a request waits, an allocation of that request's preparation
    that fails. *)
Theorem worker_run_safe x es :
  fresh x -> scheduled x 0 es ->
  match run x es with
  | Ret x' => (exists now, inv x' now) /\ responses (wk_world x') = verdicts x es
      /\ (responses (wk_world x')).*1 ++ held (sandboxes (wk_world x')) ≡ₚ arrivals es /\ NoDup (arrivals es)
  | Stop f => exists es1 e es2 x1, es = es1 ++ e :: es2 /\ run x es1 = Ret x1 /\ excuse x1 e f
  end.
Proof.
  intros F Hsch. pose proof (worker_run_ok x 0 es (fresh_inv x 0 F) Hsch) as R. destruct (run x es) as [x'|f]; [|done].
  destruct F as (Es & _ & _ & _ & _ & _ & _ & _ & _ & Hre). destruct R as (Hi & Er & Ps & Hn).
  assert (Hnil : sessions (wk_world x) = []) by (unfold sessions, held; by rewrite Hre, Es, map_to_list_empty).
  rewrite Hnil, app_nil_r in Ps. rewrite Hre in Er. split; [done|]. split; [done|]. split; [exact Ps|]. by rewrite <- Ps.
Qed.
End execution_spec.
