(* ===== verification/CallsSpec.v ===== *)
(** * CallsSpec: the system interface keeps its part

    Every call of [Wasi] and [WasiCalls] is a syscall in the sense of
    [ExecutionSpec]: it enters the runtime, works on the memory, the session and the
    storage, and leaves; and the memory stays usable.  So the theorem on runs of a
    worker holds of guests that use the system interface. *)

From Stdlib Require Import ZArith Lia.
From S2P Require Import Prelude Lock PriorityQueue Bytes WasmMemory Map WasiSerdes Globals Module Runqueue Sandbox Scheduler SandboxSpec Conservation.
From S2P Require Import Http HttpSession Wasi WasiCalls Admissions SandboxSteps SchedulerSpec Preemption WasiSpec Execution ExecutionSpec.
Local Open Scope Z_scope.

Section lift.
Context {L : Type} `{SpinLock L} {RQ : Type} `{Runqueue RQ}.
Implicit Types w : world L RQ.

(** A syscall on a part of the state is one on the state. *)
Lemma syscall_map {R1 R2 S1 S2} (part : S2 -> S1) (k : S2 -> R1 -> S1 -> R2 * S2)
  (body : S2 -> sandbox -> wasm_memory -> S1 -> outcome (R1 * wasm_memory * S1)) w (st : S2) t0 t1 :
  ('(r, w, n) ← in_syscall w (part st) t0 t1 (body st); Ret ((k st r n).1, w, (k st r n).2))
  = in_syscall w st t0 t1 (fun s m st => '(r, m, n) ← body st s m (part st); Ret ((k st r n).1, m, (k st r n).2)).
Proof.
  unfold in_syscall. destruct (deref (current_sandbox_get w)) as [p|]; ostep; [|done].
  destruct (sandbox_syscall w p t0) as [w1|]; ostep; [|done]. destruct (sb_get w1 p) as [s|]; ostep; [|done].
  destruct (deref (sb_memory s)) as [m|]; ostep; [|done]. destruct (body st s m (part st)) as [[[r m'] n]|]; ostep; [|done].
  by destruct (sandbox_return _ p t1).
Qed.
End lift.

(** ** The memory *)

Section usable.
Variable L : Type.

Lemma usable_words ws : forall m off m', store_words m off ws = Ret m' -> still_usable L m m'.
Proof.
  induction ws as [|v ws IH]; intros m off m' E; cbn in E; kept_steps; [apply usable_refl|].
  eapply usable_trans; [by eapply store_usable|eauto].
Qed.

Lemma usable_iovs data iovs : forall m r m' r', read_iovs data m r iovs = Ret (m', r') -> still_usable L m m'.
Proof.
  induction iovs as [|iov iovs IH]; intros m r m' r' E; cbn in E; kept_steps; try apply usable_refl.
  all: eapply usable_trans; [by eapply store_usable|eauto].
Qed.

Lemma usable_urandom reads : forall m buf len nread m', urandom_loop reads m buf len nread = Ret m' -> still_usable L m m'.
Proof.
  induction reads as [|[bs|] reads IH]; intros m buf len nread m' E; cbn in E; kept_steps; try apply usable_refl; [|eauto].
  eapply usable_trans; [by eapply store_usable|eauto].
Qed.

Lemma usable_expand m n ok rc m' : wasm_memory_expand m n ok = Ret (rc, m') -> still_usable L m m'.
Proof.
  unfold wasm_memory_expand. intros E md (Hb & Hs & Hc). destruct (wm_max m <? _); [by injection E as _ <-|].
  destruct (Z.ltb_spec (wm_capacity m) (u64 (wm_size m + n))); [destruct ok|]; injection E as _ <-; [|done|]; split_and!;
    cbn [wm_buffer wm_size wm_capacity]; try done; lia.
Qed.
End usable.

(** Follow a body to the memories it made. *)
Ltac usable_via m' lem := apply (usable_trans _ _ m'); [eapply lem; eassumption|].

Ltac usable_steps :=
  repeat match goal with
  | E : mem_store ?m _ _ = Ret ?m' |- still_usable _ ?m _ => usable_via m' store_usable; clear E
  | E : store_words ?m _ _ = Ret ?m' |- still_usable _ ?m _ => usable_via m' usable_words; clear E
  | E : read_iovs _ ?m _ _ = Ret (?m', _) |- still_usable _ ?m _ => usable_via m' usable_iovs; clear E
  | E : urandom_loop _ ?m _ _ _ = Ret ?m' |- still_usable _ ?m _ => usable_via m' usable_urandom; clear E
  | E : wasm_memory_expand ?m _ _ = Ret (_, ?m') |- still_usable _ ?m _ => usable_via m' usable_expand; clear E
  end;
  apply usable_refl.

Ltac usable_body_tac :=
  intros; repeat match goal with E : _ = Ret _ |- _ => progress cbv beta in E end;
  unfold instruction_memory_grow, sledge_abi__wasm_memory_expand, wasi_snapshot_preview1_backing_args_get,
    wasi_snapshot_preview1_backing_args_sizes_get, wasi_snapshot_preview1_backing_clock_time_get,
    wasi_snapshot_preview1_backing_environ_get, wasi_snapshot_preview1_backing_environ_sizes_get,
    wasi_snapshot_preview1_backing_fd_read, wasi_snapshot_preview1_backing_fd_write,
    wasi_snapshot_preview1_backing_random_get in *;
  kept_steps; usable_steps.

(** ** The calls *)

Section wasi_laws.
Context {L : Type} `{SpinLock L} {P : Type}.
Abbreviation RQ := (priority_queue L Z).
Abbreviation Sys := (system L P).
Abbreviation usable_body body :=
  (forall (s : sandbox) m st r m' st', body s m st = Ret (r, m', st') -> still_usable L m m').

(** A call on the sessions alone. *)
Lemma net_call (c : wasi_call) (an : call_answer) context (body : sandbox -> wasm_memory -> net P -> outcome (Z * wasm_memory * net P)) :
  (forall w (sy : Sys) t0 t1, wasi_abi_call (RQ := RQ) c an context w sy t0 t1 = with_net sy (in_syscall w (sy_net sy) t0 t1 body)) ->
  usable_body body -> exists body : sandbox -> wasm_memory -> Sys -> _, call_is (RQ := RQ) c an context body /\ usable_body body.
Proof.
  intros E U. eexists. split.
  - intros w sy t0 t1. cbn [abi_call wasi_calls]. rewrite E.
    exact (syscall_map sy_net (fun sy r n => (r, mk_system n (sy_stores sy) (sy_udev sy))) (fun _ => body) w sy t0 t1).
  - intros s m sy r m' sy' Eb. cbn in Eb. kept_steps. eauto.
Qed.

(** A call on the storage of the tenant. *)
Lemma storage_call {B} (c : wasi_call) (an : call_answer) context (result : B -> Z)
  (body : map L -> wasm_memory -> outcome (B * map L * wasm_memory)) :
  (forall w (sy : Sys) t0 t1, wasi_abi_call (RQ := RQ) c an context w sy t0 t1
     = with_storage result sy (in_storage w (sy_net sy) (sy_stores sy) t0 t1 body)) ->
  (forall kv m r kv' m', body kv m = Ret (r, kv', m') -> still_usable L m m') ->
  exists body : sandbox -> wasm_memory -> Sys -> _, call_is (RQ := RQ) c an context body /\ usable_body body.
Proof.
  intros E U. eexists. split.
  - intros w sy t0 t1. cbn [abi_call wasi_calls]. rewrite E.
    etrans; [|exact (syscall_map sy_net (fun sy r n => (result r.1, mk_system n r.2 (sy_udev sy)))
      (fun sy s m n => kv ← deref (sy_stores sy !! sb_tenant s); '(r, kv, m) ← body kv m; Ret ((r, <[sb_tenant s := kv]> (sy_stores sy)), m, n)) w sy t0 t1)].
    unfold with_storage, in_storage. by destruct (in_syscall w (sy_net sy) t0 t1 _) as [[[[] ?] ?]|].
  - intros s m sy r m' sy' Eb. cbn in Eb. kept_steps. eauto.
Qed.

#[export] Instance wasi_calls_laws : CallsLaws L wasi_call call_answer Sys.
Proof.
  intros c an context. destruct c.
  all: try (eapply net_call; [intros w sy t0 t1; reflexivity|]).
  all: try (eapply storage_call; [intros w sy t0 t1; reflexivity|]).
  1: eexists; split; [intros w sy t0 t1; reflexivity|].
  9: { eexists. split.
    - intros w sy t0 t1. cbn [abi_call wasi_calls wasi_abi_call].
      etrans; [|exact (syscall_map sy_net (fun sy r n => (r.1, mk_system n (sy_stores sy) r.2))
        (fun sy _ m n => buf ← get_memory_ptr_for_runtime m buf_baseretoffset buf_len;
           '(rc, m, has_udev) ← wasi_snapshot_preview1_backing_random_get (sy_udev sy) (an_urandom an) (an_reads an) (an_random an) m buf buf_len;
           Ret ((rc, has_udev), m, n)) w sy t0 t1)].
      unfold wasi_snapshot_preview1_random_get, sledge_abi__wasi_snapshot_preview1_random_get.
      by destruct (in_syscall w (sy_net sy) t0 t1 _) as [[[[] ?] ?]|].
    - usable_body_tac. }
  all: usable_body_tac.
Qed.
End wasi_laws.

(** ** A run *)

(** Module 3 reads the clock and returns; module 4 faults at once. *)
Definition demo_program (k : Z) : module_code wasi_call :=
  if k =? 3 then mk_module_code [(0, [1; 2])] (Globals (SetI32 0 7) (fun _ => Done 0)) (Call (ClockTimeGet 16) (fun _ => Done 0))
  else mk_module_code [] (Done 0) (Instr (fun _ _ => Stop Segv)).

Lemma demo_program_tame k : tame bool (populate_globals (demo_program k)) /\ tame bool (wasmf__start (demo_program k)).
Proof. unfold demo_program. by destruct (k =? 3). Qed.

Definition demo_worker : worker (L := bool) (RQ := priority_queue bool Z) (G := priority_queue bool Z) (C := wasi_call) (St := system bool unit) :=
  mk_worker
    (mk_world ∅ local_runqueue_minheap_initialize (<[3 := demo_module]> {[ 4 := demo_module ]})
       (<[7 := mk_route 9000 demo_info]> {[ 8 := mk_route 500 demo_info ]}) {[ 5 := mk_tenant 0 0 0 ]} 0 [] None UINT64_MAX 0 0 false 0 []
       VARIANT_RUNNING)
    global_request_scheduler_minheap_initialize
    (mk_system (mk_net (<[900 := guest_session]> {[ 901 := guest_session ]}) ∅ [] []) ∅ false) ∅ ∅.

(** Everything between [t] and [t + 20]. *)
Definition demo_moment (t : Z) : moment call_answer :=
  mk_moment _ (t + 1) (t + 2) (t + 3) (t + 4) (t + 5) (t + 6) 0 0 (t + 10) (t + 11) (t + 12) (t + 13)
    (mk_sched_env 1 2 (mk_prepare_env true true true true true (Some 4096) true) 0 (t + 8) 0 0 0 (fun _ => 0) false 0 [])
    all_allocated 0 0 true (mk_call_answer true true (fun _ => UINT32_MAX) (Clock 1 2) true [] (fun _ => 0) lock_node_zero 1 2).

(** The second request has the earlier deadline: the timer gives it the
    processor, and the first one resumes when it has faulted. *)
Definition demo_events : list event :=
  [ERequest (mk_new_request 100 3 900 7 5 1 10 11 1 2);
   EProcessor (demo_moment 20);      (* idle loop: to 100 *)
   EProcessor (demo_moment 40);      (* its start *)
   EProcessor (demo_moment 60);      (* its globals *)
   ERequest (mk_new_request 101 4 901 8 5 1 80 81 1 2);
   EProcessor (demo_moment 100);
   ETimer (demo_moment 120);         (* 101 preempts it *)
   EProcessor (demo_moment 140);
   EProcessor (demo_moment 160);
   EProcessor (demo_moment 180);     (* the fault *)
   EProcessor (demo_moment 200);     (* 100 reads the clock *)
   EProcessor (demo_moment 220)].    (* and returns *)

Abbreviation demo_step := (worker_step false 0 demo_program).

Definition demo_after (n : nat) : worker (L := bool) (RQ := priority_queue bool Z) (G := priority_queue bool Z) (C := wasi_call) (St := system bool unit) :=
  match worker_run false 0 demo_program demo_worker (take n demo_events) with Ret x => x | Stop _ => demo_worker end.

Lemma demo_fresh : fresh 0 demo_worker.
Proof.
  unfold fresh. split_and!; try done.
  - intros k m. cbn. intros [[_ <-]|[_ [_ <-]%lookup_singleton_Some]]%lookup_insert_Some; (split; [apply demo_module_wf|vm_compute; lia]).
  - intros k m. cbn. intros [[_ <-]|[_ [_ <-]%lookup_singleton_Some]]%lookup_insert_Some; vm_compute; split; discriminate.
Qed.

Lemma demo_moment_good now t : now <= t + 1 -> 0 <= t <= 1000 -> moment_good now (demo_moment t).
Proof.
  intros Hn Ht. unfold moment_good, lock_times, UINT64_MAX. cbn. repeat split; lia.
Qed.

Lemma scheduled_cons {L C A St} `{SpinLock L} `{Calls L (priority_queue L Z) C A St} idx (program : Z -> module_code C)
  (x x' : @worker L (priority_queue L Z) (priority_queue L Z) C St) now (e : @event A) es :
  event_good x now e -> worker_step false idx program x e = Ret x' -> scheduled idx program x' (event_end e) es ->
  scheduled idx program x now (e :: es).
Proof. intros He E Hs. cbn. by rewrite E. Qed.

(** Only requests are conditions on the state. *)
Lemma scheduled_any {L C A St} `{SpinLock L} `{Calls L (priority_queue L Z) C A St} idx (program : Z -> module_code C)
  (x : @worker L (priority_queue L Z) (priority_queue L Z) C St) now (e : @event A) es :
  event_good x now e -> (forall x', scheduled idx program x' (event_end e) es) -> scheduled idx program x now (e :: es).
Proof. intros He Hs. cbn. split; [done|]. by destruct (worker_step _ _ _ x e). Qed.

(** The conditions on a request, evaluated. *)
Ltac request_check :=
  unfold event_good, request_good; split_and!;
  [ vm_compute; reflexivity | refine (bool_decide_unpack _ _); vm_compute; exact Logic.I
  | exists demo_module; split_and!; vm_compute; reflexivity
  | eexists; split_and!; [vm_compute; reflexivity|vm_compute; discriminate|vm_compute; reflexivity]
  | eexists; vm_compute; reflexivity | discriminate
  | cbn; unfold UINT64_MAX; lia.. ].

Ltac next_event n := eapply (scheduled_cons _ _ _ (demo_after n)); [ | vm_compute; reflexivity|].

Ltac moment_check := apply demo_moment_good; cbn; lia.

Lemma demo_scheduled : scheduled 0 demo_program demo_worker 0 demo_events.
Proof.
  change demo_worker with (demo_after 0).
  next_event 1%nat; [request_check|]. next_event 2%nat; [moment_check|]. next_event 3%nat; [moment_check|].
  next_event 4%nat; [moment_check|]. next_event 5%nat; [request_check|]. generalize (demo_after 5). intros x.
  repeat (apply scheduled_any; [moment_check|clear x; intros x]). exact Logic.I.
Qed.

Lemma worker_run_safe_witness :
  fresh 0 demo_worker /\ scheduled 0 demo_program demo_worker 0 demo_events
  /\ exists x', worker_run false 0 demo_program demo_worker demo_events = Ret x'
     /\ (exists now, inv 0 x' now) /\ responses (wk_world x') = [(901, 500); (900, 200)].
Proof.
  split; [apply demo_fresh|]. split; [apply demo_scheduled|].
  pose proof (worker_run_safe 0 demo_program demo_program_tame demo_worker demo_events demo_fresh demo_scheduled) as S.
  assert (E : match worker_run false 0 demo_program demo_worker demo_events with Ret _ => true | Stop _ => false end = true)
    by (vm_compute; reflexivity).
  assert (V : verdicts 0 demo_program demo_worker demo_events = [(901, 500); (900, 200)]) by (vm_compute; reflexivity).
  destruct (worker_run false 0 demo_program demo_worker demo_events) as [x'|f]; [|discriminate E].
  exists x'. destruct S as (Hi & Er & _). split; [reflexivity|]. split; [exact Hi|]. by rewrite Er.
Defined.

(** A trap while the globals are initialised, which is before [sigsetjmp] has
    filled the buffer, jumps through whatever the buffer holds. *)
Theorem start_trap_undefined :
  worker_run false 0 (fun _ => mk_module_code [] (Globals (GetI32 9) (fun _ => Done 0)) (Done 0)) demo_worker (take 4 demo_events)
  = Stop Undefined.
Proof. vm_compute. reflexivity. Qed.
