(* ===== verification/Config.v ===== *)
(** * Config: reading the configuration

    [runtime/include/json.h], [json_parse.h], [route_config.h],
    [route_config_parse.h], [tenant_config.h] and [tenant_config_parse.h].  The
    tokenizer (jsmn, a submodule) is a parameter: it turns the text into an array
    of tokens, each with its type, the part of the text it covers and the number
    of its children.  The parsers walk that array by index.

    The text is the content of the file; [load_file_into_buffer] allocates exactly
    its size, so a read at its end is out of bounds.  [alloc i] says whether the
    allocation made for the token at index [i] succeeds.  Messages are left out,
    except the one that prints the text as a C string. *)

From Stdlib Require Import ZArith Lia.
From stdpp Require Import strings.
From S2P Require Import Prelude Lock PerfWindow Admissions Http Listener.
Local Open Scope Z_scope.

Inductive jsmntype := JSMN_UNDEFINED | JSMN_OBJECT | JSMN_ARRAY | JSMN_STRING | JSMN_PRIMITIVE.

#[export] Instance jsmntype_eq_dec : EqDecision jsmntype.
Proof. solve_decision. Defined.

Record jsmntok := mk_tok { tok_type : jsmntype; tok_start : Z; tok_end : Z; tok_size : Z }.

(** ** Text *)

Definition buf_at (buf : list Z) (i : Z) : outcome Z :=
  if i <? 0 then Stop Undefined else deref (buf !! Z.to_nat i).

(** The C string of at most [n] bytes at [i], as [strndup] and [%.*s] read it. *)
Fixpoint text_upto (buf : list Z) (i : Z) (n : nat) : outcome (list Z) :=
  match n with
  | O => Ret []
  | S n => b ← buf_at buf i; if b =? 0 then Ret [] else l ← text_upto buf (i + 1) n; Ret (b :: l)
  end.

Definition token_text (buf : list Z) (tok : jsmntok) : outcome (list Z) :=
  text_upto buf (tok_start tok) (Z.to_nat (tok_end tok - tok_start tok)).

Definition isspace (b : Z) : bool := (b =? 32) || ((9 <=? b) && (b <=? 13)).
Definition isdigit (b : Z) : bool := (48 <=? b) && (b <=? 57).

(** [l] is the text from index [i] on. *)
Fixpoint skip_spaces (l : list Z) (i : Z) : outcome (list Z * Z) :=
  match l with
  | [] => Stop Undefined
  | b :: l' => if isspace b then skip_spaces l' (i + 1) else Ret (l, i)
  end.

Fixpoint read_digits (l : list Z) (i acc : Z) : outcome (Z * Z) :=
  match l with
  | [] => Stop Undefined
  | b :: l' => if isdigit b then read_digits l' (i + 1) (10 * acc + (b - 48)) else Ret (acc, i)
  end.

(** Sign and digits of the decimal number at [start], with the index behind it;
    [None] if there is none. *)
Definition scan_number (buf : list Z) (start : Z) : outcome (option (bool * Z * Z)) :=
  if start <? 0 then Stop Undefined else
  '(l, i) ← skip_spaces (drop (Z.to_nat start) buf) start;
  let '(negative, l, i) :=
    match l with
    | b :: l' => if b =? 45 then (true, l', i + 1) else if b =? 43 then (false, l', i + 1) else (false, l, i)
    | [] => (false, l, i)
    end in
  match l with
  | [] => Stop Undefined
  | b :: _ => if isdigit b then '(n, i) ← read_digits l i 0; Ret (Some (negative, n, i)) else Ret None
  end.

Definition INTMAX_MAX : Z := 2 ^ 63 - 1.
Definition INTMAX_MIN : Z := - 2 ^ 63.

(** The value and the end. *)
Definition strtoimax (buf : list Z) (start : Z) : outcome (Z * Z) :=
  r ← scan_number buf start;
  match r with
  | None => Ret (0, start)
  | Some (negative, n, i) => Ret (if (negative : bool) then Z.max INTMAX_MIN (- n) else Z.min INTMAX_MAX n, i)
  end.

(** The value, whether it was out of range, and the end. *)
Definition strtoumax (buf : list Z) (start : Z) : outcome (Z * bool * Z) :=
  r ← scan_number buf start;
  match r with
  | None => Ret (0, false, start)
  | Some (negative, n, i) =>
    if UINT64_MAX <? n then Ret (UINT64_MAX, true, i) else Ret (if (negative : bool) then u64 (- n) else n, false, i)
  end.

(** ** Tokens ([json.h]) *)

Definition has_valid_size (tok : jsmntok) (expected_size : Z) : bool := tok_size tok =? expected_size.

Definition has_valid_type (tok : jsmntok) (expected_type : jsmntype) : bool := bool_decide (tok_type tok = expected_type).

Definition is_nonempty_string (tok : jsmntok) : bool :=
  has_valid_type tok JSMN_STRING && negb (tok_end tok - tok_start tok <? 1).

Definition is_nonempty_object (tok : jsmntok) : bool := has_valid_type tok JSMN_OBJECT && negb (tok_size tok =? 0).

Definition is_nonempty_array (tok : jsmntok) : bool := has_valid_type tok JSMN_ARRAY && negb (tok_size tok =? 0).

Definition is_valid_key (tok : jsmntok) : bool := has_valid_type tok JSMN_STRING && negb (tok_end tok - tok_start tok <? 1).

(** The three signed parsers; [None] is the result -1. *)
Definition parse_uint (max : Z) (tok : jsmntok) (buf : list Z) : outcome (option Z) :=
  '(temp, end_) ← strtoimax buf (tok_start tok);
  if negb (end_ =? tok_end tok) || (temp <? 0) || (max <? temp) then Ret None else Ret (Some temp).

Definition parse_uint8_t := parse_uint UINT8_MAX.
Definition parse_uint16_t := parse_uint UINT16_MAX.
Definition parse_uint32_t := parse_uint UINT32_MAX.

(** A leading minus is reported, and parsing goes on. *)
Definition parse_uint64_t (tok : jsmntok) (buf : list Z) : outcome (option Z) :=
  _ ← buf_at buf (tok_start tok);
  '(temp, erange, end_) ← strtoumax buf (tok_start tok);
  if negb (end_ =? tok_end tok) || ((temp =? UINT64_MAX) && erange) then Ret None else Ret (Some temp).

(** ** Objects *)

Section parsers.
Variable json_buf : list Z.
Variable tokens : list jsmntok.
Variable alloc : Z -> bool.

Definition tok_at (i : Z) : outcome jsmntok := if i <? 0 then Stop Undefined else deref (tokens !! Z.to_nat i).

Definition strndup_token (i : Z) (tok : jsmntok) : outcome (option (list Z)) :=
  s ← token_text json_buf tok; Ret (if alloc i then Some s else None).

(** [sprintf(key, ...)] into a buffer of 32 bytes *)
Definition copy_key (tok : jsmntok) : outcome (list Z) :=
  s ← token_text json_buf tok; if Z.of_nat (length s) <? 32 then Ret s else Stop Undefined.

(** The loop over the members of an object, which both parsers have: [body key i s]
    reads the value at index [i] and returns the index of its last token, or -1. *)
Fixpoint members_loop {S} (body : list Z -> Z -> S -> outcome (Z * S)) (n : nat) (i : Z) (s : S) : outcome (Z * S) :=
  match n with
  | O => Ret (i, s)
  | Datatypes.S n =>
    tok ← tok_at (i + 1);
    if negb (is_valid_key tok) then Ret (-1, s) else
    if negb (has_valid_size tok 1) then Ret (-1, s) else
    key ← copy_key tok;
    '(i, s) ← body key (i + 2) s;
    if i =? -1 then Ret (-1, s) else members_loop body n i s
  end.
End parsers.

(** ** Routes *)

Inductive SCHEDULER := SCHEDULER_FIFO | SCHEDULER_EDF | SCHEDULER_MTDS | SCHEDULER_MTDBF.

#[export] Instance SCHEDULER_eq_dec : EqDecision SCHEDULER.
Proof. solve_decision. Defined.

Definition RUNTIME_RELATIVE_DEADLINE_US_MAX : Z := 3600000000.

Inductive route_config_member :=
| route_config_member_route
| route_config_member_path
| route_config_member_admissions_percentile
| route_config_member_expected_execution_us
| route_config_member_relative_deadline_us
| route_config_member_http_resp_content_type.

#[export] Instance route_config_member_eq_dec : EqDecision route_config_member.
Proof. solve_decision. Defined.

(** The order in which the parser compares the key. *)
Definition route_config_members : list route_config_member :=
  [route_config_member_route; route_config_member_path; route_config_member_admissions_percentile;
   route_config_member_expected_execution_us; route_config_member_relative_deadline_us; route_config_member_http_resp_content_type].

Definition route_config_json_keys (m : route_config_member) : list Z :=
  bytes_of_string
    (match m with
     | route_config_member_route => "route"
     | route_config_member_path => "path"
     | route_config_member_admissions_percentile => "admissions-percentile"
     | route_config_member_expected_execution_us => "expected-execution-us"
     | route_config_member_relative_deadline_us => "relative-deadline-us"
     | route_config_member_http_resp_content_type => "http-resp-content-type"
     end)%string.

(** The first member whose key [strcmp] finds equal. *)
Definition member_of {M} (json_keys : M -> list Z) (members : list M) (key : list Z) : option M :=
  head (filter (fun m => json_keys m = key) members).

(** [set_key_once]: the marks afterwards, or [None] if the member was set. *)
Definition set_key_once {M} `{EqDecision M} (did_set : M -> bool) (m : M) : option (M -> bool) :=
  if did_set m then None else Some (fun m' => if decide (m' = m) then true else did_set m').

Definition route_config_set_key_once (did_set : route_config_member -> bool) (m : route_config_member) := set_key_once did_set m.

Definition zero_route_config : route_config := mk_route_config None None 0 0 0 None.

Definition set_rc_content_type (c : route_config) (s : option (list Z)) : route_config :=
  mk_route_config (rc_route c) (rc_path c) (rc_admissions_percentile c) (rc_expected_execution_us c) (rc_relative_deadline_us c) s.

(** ** Tenants *)

Inductive tenant_config_member :=
| tenant_config_member_name
| tenant_config_member_port
| tenant_config_member_replenishment_period_us
| tenant_config_member_max_budget_us
| tenant_config_member_routes.

#[export] Instance tenant_config_member_eq_dec : EqDecision tenant_config_member.
Proof. solve_decision. Defined.

Definition tenant_config_members : list tenant_config_member :=
  [tenant_config_member_name; tenant_config_member_port; tenant_config_member_replenishment_period_us;
   tenant_config_member_max_budget_us; tenant_config_member_routes].

Definition tenant_config_json_keys (m : tenant_config_member) : list Z :=
  bytes_of_string
    (match m with
     | tenant_config_member_name => "name"
     | tenant_config_member_port => "port"
     | tenant_config_member_replenishment_period_us => "replenishment-period-us"
     | tenant_config_member_max_budget_us => "max-budget-us"
     | tenant_config_member_routes => "routes"
     end)%string.

Definition tenant_config_set_key_once (did_set : tenant_config_member -> bool) (m : tenant_config_member) := set_key_once did_set m.

(** [None] is NULL. *)
Record tenant_config := mk_tenant_config {
  tc_name : option (list Z);
  tc_port : Z;
  tc_replenishment_period_us : Z;
  tc_max_budget_us : Z;
  tc_routes : option (list route_config);
  tc_routes_len : Z;
}.

Definition zero_tenant_config : tenant_config := mk_tenant_config None 0 0 0 None 0.

(** What [*tenant_config_vec] holds: nothing yet, NULL, or an array. *)
Inductive config_vec := VecUnset | VecNull | Vec (l : list tenant_config).

(** [fprintf("%s", json_buf)] reads up to a zero byte. *)
Definition print_text (buf : list Z) : outcome unit := if bool_decide (0 ∈ buf) then Ret tt else Stop Undefined.

(** The loop over the elements of an array, for routes and for tenants: [done] are
    those parsed so far; the elements behind a failure stay zero. *)
Fixpoint objects_loop {C} (parse : C -> Z -> outcome (Z * C)) (zero : C) (n : nat) (i : Z) (done : list C) : outcome (Z * list C) :=
  match n with
  | O => Ret (i, done)
  | S n =>
    '(i, config) ← parse zero (i + 1);
    if i =? -1 then Ret (-1, done ++ config :: replicate n zero) else objects_loop parse zero n i (done ++ [config])
  end.

Section config.
Variable ADMISSIONS_CONTROL : bool.
Variable scheduler : SCHEDULER.

(** 0 or -1, and the route with its defaults.  The division is a hardware one. *)
Definition route_config_validate (config : route_config) (did_set : route_config_member -> bool) : outcome (Z * route_config) :=
  if negb (did_set route_config_member_route) then Ret (-1, config) else
  if negb (did_set route_config_member_path) then Ret (-1, config) else
  let config := if did_set route_config_member_http_resp_content_type then config
                else set_rc_content_type config (Some (bytes_of_string "text/plain"%string)) in
  if decide (scheduler = SCHEDULER_FIFO) then Ret (0, config) else
  if negb (did_set route_config_member_relative_deadline_us) then Ret (-1, config) else
  if RUNTIME_RELATIVE_DEADLINE_US_MAX <? rc_relative_deadline_us config then Ret (-1, config) else
  if negb ADMISSIONS_CONTROL then Ret (0, config) else
  if negb (did_set route_config_member_expected_execution_us) then Ret (-1, config) else
  if negb (did_set route_config_member_admissions_percentile) then Ret (-1, config) else
  if (99 <? rc_admissions_percentile config) || (rc_admissions_percentile config <? 50) then Ret (-1, config) else
  if rc_expected_execution_us config =? 0 then Stop Fpe else
  let ratio := rc_relative_deadline_us config / rc_expected_execution_us config in
  if ADMISSIONS_CONTROL_GRANULARITY <? ratio then Ret (-1, config) else Ret (0, config).

(** [strlen] of a NULL name is undefined. *)
Definition tenant_config_validate (config : tenant_config) (did_set : tenant_config_member -> bool) : outcome Z :=
  if negb (did_set tenant_config_member_name) then Ret (-1) else
  name ← deref (tc_name config);
  if decide (name = []) then Ret (-1) else
  if negb (did_set tenant_config_member_port) then Ret (-1) else
  let routes := if tc_routes_len config =? 0 then Ret (-1) else Ret 0 in
  if decide (scheduler = SCHEDULER_MTDS) then
    if negb (did_set tenant_config_member_replenishment_period_us) then Ret (-1) else
    if RUNTIME_RELATIVE_DEADLINE_US_MAX <? tc_replenishment_period_us config then Ret (-1) else
    if negb (did_set tenant_config_member_max_budget_us) then Ret (-1) else
    if RUNTIME_RELATIVE_DEADLINE_US_MAX <? tc_max_budget_us config then Ret (-1) else routes
  else routes.

Section parse.
Variable json_buf : list Z.
Variable tokens : list jsmntok.
Variable alloc : Z -> bool.

Abbreviation route_state := ((route_config_member -> bool) * route_config)%type.

(** The fields of a route by the value at index [i]; [None] is a return of -1. *)
Definition route_config_value (m : route_config_member) (i : Z) (tok : jsmntok) (c : route_config) : outcome (option route_config) :=
  match m with
  | route_config_member_route =>
    s ← strndup_token json_buf alloc i tok;
    Ret (Some (mk_route_config s (rc_path c) (rc_admissions_percentile c) (rc_expected_execution_us c)
                 (rc_relative_deadline_us c) (rc_http_resp_content_type c)))
  | route_config_member_path =>
    s ← strndup_token json_buf alloc i tok;
    Ret (Some (mk_route_config (rc_route c) s (rc_admissions_percentile c) (rc_expected_execution_us c)
                 (rc_relative_deadline_us c) (rc_http_resp_content_type c)))
  | route_config_member_admissions_percentile =>
    r ← parse_uint8_t tok json_buf;
    Ret (option_map (fun v => mk_route_config (rc_route c) (rc_path c) v (rc_expected_execution_us c)
                     (rc_relative_deadline_us c) (rc_http_resp_content_type c)) r)
  | route_config_member_expected_execution_us =>
    r ← parse_uint32_t tok json_buf;
    Ret (option_map (fun v => mk_route_config (rc_route c) (rc_path c) (rc_admissions_percentile c) v
                     (rc_relative_deadline_us c) (rc_http_resp_content_type c)) r)
  | route_config_member_relative_deadline_us =>
    r ← parse_uint32_t tok json_buf;
    Ret (option_map (fun v => mk_route_config (rc_route c) (rc_path c) (rc_admissions_percentile c) (rc_expected_execution_us c)
                     v (rc_http_resp_content_type c)) r)
  | route_config_member_http_resp_content_type =>
    s ← strndup_token json_buf alloc i tok;
    Ret (Some (set_rc_content_type c s))
  end.

Definition route_value_type (m : route_config_member) (tok : jsmntok) : bool :=
  match m with
  | route_config_member_route | route_config_member_path | route_config_member_http_resp_content_type => is_nonempty_string tok
  | _ => has_valid_type tok JSMN_PRIMITIVE
  end.

(** One member: the key is known, its value has the right type, it is the first
    with this key, and its value can be read. *)
Definition route_config_member_parse (key : list Z) (i : Z) (s : route_state) : outcome (Z * route_state) :=
  let '(did_set, config) := s in
  match member_of route_config_json_keys route_config_members key with
  | None => Ret (-1, s)
  | Some m =>
    tok ← tok_at tokens i;
    if negb (route_value_type m tok) then Ret (-1, s) else
    match route_config_set_key_once did_set m with
    | None => Ret (-1, s)
    | Some did_set =>
      r ← route_config_value m i tok config;
      match r with Some config => Ret (i, (did_set, config)) | None => Ret (-1, (did_set, config)) end
    end
  end.

(** The index of the last token of the route, or -1. *)
Definition route_config_parse (config : route_config) (tokens_base : Z) : outcome (Z * route_config) :=
  tok ← tok_at tokens tokens_base;
  if negb (has_valid_type tok JSMN_OBJECT) then Ret (-1, config) else
  if negb (is_nonempty_object tok) then Ret (-1, config) else
  '(i, (did_set, config)) ← members_loop json_buf tokens route_config_member_parse (Z.to_nat (tok_size tok)) tokens_base
                              (fun _ => false, config);
  if i =? -1 then Ret (-1, config) else
  '(rc, config) ← route_config_validate config did_set;
  if rc <? 0 then Ret (-1, config) else Ret (i, config).

Abbreviation tenant_state := ((tenant_config_member -> bool) * tenant_config)%type.

Definition routes_loop := objects_loop route_config_parse zero_route_config.

Definition tenant_value_type (m : tenant_config_member) (tok : jsmntok) : bool :=
  match m with
  | tenant_config_member_name => is_nonempty_string tok
  | tenant_config_member_routes => has_valid_type tok JSMN_ARRAY
  | _ => has_valid_type tok JSMN_PRIMITIVE
  end.

Definition set_tc_routes (c : tenant_config) (routes : option (list route_config)) (len : Z) : tenant_config :=
  mk_tenant_config (tc_name c) (tc_port c) (tc_replenishment_period_us c) (tc_max_budget_us c) routes len.

(** The value at index [i]: the index of its last token or -1, and the tenant. *)
Definition tenant_config_value (m : tenant_config_member) (i : Z) (tok : jsmntok) (c : tenant_config) : outcome (Z * tenant_config) :=
  match m with
  | tenant_config_member_name =>
    s ← strndup_token json_buf alloc i tok;
    Ret (i, mk_tenant_config s (tc_port c) (tc_replenishment_period_us c) (tc_max_budget_us c) (tc_routes c) (tc_routes_len c))
  | tenant_config_member_port =>
    r ← parse_uint16_t tok json_buf;
    match r with
    | None => Ret (-1, c)
    | Some v => Ret (i, mk_tenant_config (tc_name c) v (tc_replenishment_period_us c) (tc_max_budget_us c) (tc_routes c) (tc_routes_len c))
    end
  | tenant_config_member_replenishment_period_us =>
    r ← parse_uint32_t tok json_buf;
    match r with
    | None => Ret (-1, c)
    | Some v => Ret (i, mk_tenant_config (tc_name c) (tc_port c) v (tc_max_budget_us c) (tc_routes c) (tc_routes_len c))
    end
  | tenant_config_member_max_budget_us =>
    r ← parse_uint32_t tok json_buf;
    match r with
    | None => Ret (-1, c)
    | Some v => Ret (i, mk_tenant_config (tc_name c) (tc_port c) (tc_replenishment_period_us c) v (tc_routes c) (tc_routes_len c))
    end
  | tenant_config_member_routes =>
    let routes_len := tok_size tok in
    if alloc i then
      '(j, routes) ← routes_loop (Z.to_nat routes_len) i [];
      Ret (j, set_tc_routes c (Some routes) routes_len)
    else if routes_len =? 0 then Ret (i, set_tc_routes c None 0) else Stop Undefined
  end.

Definition tenant_config_member_parse (key : list Z) (i : Z) (s : tenant_state) : outcome (Z * tenant_state) :=
  let '(did_set, config) := s in
  match member_of tenant_config_json_keys tenant_config_members key with
  | None => Ret (-1, s)
  | Some m =>
    tok ← tok_at tokens i;
    if negb (tenant_value_type m tok) then Ret (-1, s) else
    match tenant_config_set_key_once did_set m with
    | None => Ret (-1, s)
    | Some did_set => '(j, config) ← tenant_config_value m i tok config; Ret (j, (did_set, config))
    end
  end.

Definition tenant_config_parse (config : tenant_config) (tokens_base : Z) : outcome (Z * tenant_config) :=
  tok ← tok_at tokens tokens_base;
  if negb (has_valid_type tok JSMN_OBJECT) then Ret (-1, config) else
  if negb (is_nonempty_object tok) then Ret (-1, config) else
  '(i, (did_set, config)) ← members_loop json_buf tokens tenant_config_member_parse (Z.to_nat (tok_size tok)) tokens_base
                              (fun _ => false, config);
  if i =? -1 then Ret (-1, config) else
  rc ← tenant_config_validate config did_set;
  if rc <? 0 then Ret (-1, config) else Ret (i, config).

Definition tenants_loop := objects_loop tenant_config_parse zero_tenant_config.

(** The index of the last token or -1, the array, and its length.  The test for an
    empty array compares a pointer with 0 and is never true. *)
Definition tenant_config_vec_parse (tokens_base : Z) : outcome (Z * config_vec * Z) :=
  tok ← tok_at tokens tokens_base;
  if negb (has_valid_type tok JSMN_ARRAY) then Ret (-1, VecUnset, 0) else
  let tenant_config_vec_len := tok_size tok in
  if negb (alloc tokens_base) then Ret (-1, VecNull, tenant_config_vec_len) else
  '(i, l) ← tenants_loop (Z.to_nat tenant_config_vec_len) tokens_base [];
  Ret (i, Vec l, tenant_config_vec_len).
End parse.

(** The number of tenants or -1, and the array.  [total_tokens] is the result of the
    tokenizer. *)
Definition parse_json (json_buf : list Z) (total_tokens : Z) (tokens : list jsmntok) (alloc : Z -> bool) : outcome (Z * config_vec) :=
  assert (0 <? Z.of_nat (length json_buf)) ;;
  if total_tokens <? 0 then _ ← print_text json_buf; Ret (-1, VecUnset) else
  '(i, vec, len) ← tenant_config_vec_parse json_buf tokens alloc 0;
  if negb (i =? total_tokens - 1) then
    match vec with
    | VecUnset => Stop Undefined   (* free of an indeterminate pointer *)
    | _ => _ ← print_text json_buf; Ret (-1, vec)
    end
  else Ret (len, vec).
End config.
