(* ===== verification/ConfigSpec.v ===== *)
(** * ConfigSpec: the configuration is read as it is written

    The parsers walk the tokenizer's array by index; the reference reads the
    JSON document as a tree.  On the tokens of any document both agree: the same
    documents are accepted, with the same tenants and routes. *)

From Stdlib Require Import ZArith Lia.
From stdpp Require Import strings.
From S2P Require Import Prelude Lock PerfWindow Admissions Http Listener Config.
Local Open Scope Z_scope.

(** ** Text *)

(** A C string ends at the first zero byte. *)
Fixpoint cut (l : list Z) : list Z :=
  match l with
  | [] => []
  | b :: l => if b =? 0 then [] else b :: cut l
  end.

Definition slice (buf : list Z) (s e : Z) : list Z := take (Z.to_nat (e - s)) (drop (Z.to_nat s) buf).

Definition within (buf : list Z) (s e : Z) : Prop := 0 <= s <= e /\ e <= Z.of_nat (length buf).

Lemma text_upto_ok buf n : forall i, 0 <= i -> (Z.to_nat i + n <= length buf)%nat ->
  text_upto buf i n = Ret (cut (take n (drop (Z.to_nat i) buf))).
Proof.
  induction n as [|n IH]; intros i Hi Hn; [done|]. cbn [text_upto]. unfold buf_at. rewrite (proj2 (Z.ltb_ge i 0)) by lia.
  destruct (lookup_lt_is_Some_2 buf (Z.to_nat i)) as [b Eb]; [lia|]. rewrite Eb. cbn [deref]. ostep.
  rewrite (drop_S buf b (Z.to_nat i) Eb). cbn [take cut]. destruct (b =? 0); [done|].
  rewrite (IH (i + 1)) by lia. replace (Z.to_nat (i + 1)) with (S (Z.to_nat i)) by lia. done.
Qed.

Lemma token_text_ok buf tok :
  within buf (tok_start tok) (tok_end tok) -> token_text buf tok = Ret (cut (slice buf (tok_start tok) (tok_end tok))).
Proof. intros [H1 H2]. apply text_upto_ok; lia. Qed.

(** ** Numbers *)

Definition digits_value (acc : Z) (l : list Z) : Z := fold_left (fun a b => 10 * a + (b - 48)) l acc.

(** The decimal number a text is, with an optional sign. *)
Definition unsigned_decimal (l : list Z) : option Z :=
  match l with [] => None | _ => if forallb isdigit l then Some (digits_value 0 l) else None end.

Definition decimal (l : list Z) : option Z :=
  match l with
  | [] => None
  | b :: l' => if b =? 45 then Z.opp <$> unsigned_decimal l' else if b =? 43 then unsigned_decimal l' else unsigned_decimal l
  end.

(** A number of at most [max]. *)
Definition number (max : Z) (l : list Z) : option Z :=
  match decimal l with
  | Some v => if (0 <=? v) && (v <=? max) then Some v else None
  | None => None
  end.

(** How a primitive lies in the text: not empty, not starting with a space, and
    followed by a byte that is not a digit. *)
Definition delimited (buf : list Z) (s e : Z) : bool :=
  (0 <=? s) && (s <? e) &&
  match drop (Z.to_nat s) buf, drop (Z.to_nat e) buf with
  | b :: _, d :: _ => negb (isspace b) && negb (isdigit d)
  | _, _ => false
  end.

Lemma delimited_split buf s e :
  delimited buf s e = true ->
  0 <= s < e /\ within buf s e /\
  exists b l d post, slice buf s e = b :: l /\ isspace b = false /\ isdigit d = false /\ drop (Z.to_nat s) buf = b :: l ++ d :: post
    /\ Z.of_nat (length (b :: l)) = e - s.
Proof.
  unfold delimited. intros [[H1%Z.leb_le H2%Z.ltb_lt]%andb_prop H3]%andb_prop.
  destruct (drop (Z.to_nat s) buf) as [|b l0] eqn:Es; [done|].
  destruct (drop (Z.to_nat e) buf) as [|d post] eqn:Ee; [done|]. apply andb_prop in H3 as [H3%negb_true_iff H4%negb_true_iff].
  assert (Hlen : (Z.to_nat e < length buf)%nat).
  { apply (f_equal length) in Ee. rewrite length_drop in Ee. cbn in Ee. lia. }
  split; [lia|]. split; [split; lia|].
  assert (Hsl : slice buf s e = take (Z.to_nat (e - s)) (b :: l0)) by (unfold slice; by rewrite Es).
  assert (Hl0 : length (b :: l0) = (length buf - Z.to_nat s)%nat) by (rewrite <- Es; apply length_drop).
  destruct (Z.to_nat (e - s)) as [|n] eqn:En; [lia|]. cbn [take] in Hsl.
  exists b, (take n l0), d, post. split; [done|]. split; [done|]. split; [done|]. split.
  - f_equal. rewrite <- (take_drop n l0) at 1. f_equal.
    transitivity (drop (S n) (b :: l0)); [done|]. rewrite <- Es, drop_drop, <- Ee. f_equal. lia.
  - cbn [length] in Hl0 |- *. rewrite length_take_le by lia. lia.
Qed.

(** Reading digits stops at the end of [l] exactly if it is all digits. *)
Lemma read_digits_ok l d post : isdigit d = false -> forall i acc,
  (forallb isdigit l = true -> read_digits (l ++ d :: post) i acc = Ret (digits_value acc l, i + Z.of_nat (length l)))
  /\ (forallb isdigit l = false -> exists v j, read_digits (l ++ d :: post) i acc = Ret (v, j) /\ j < i + Z.of_nat (length l)).
Proof.
  intros Hd. induction l as [|b l IH]; intros i acc; cbn.
  - split; [|done]. intros _. rewrite Hd. do 2 f_equal. lia.
  - destruct (isdigit b) eqn:Eb; cbn.
    + destruct (IH (i + 1) (10 * acc + (b - 48))) as [IH1 IH2]. split.
      * intros Hl. rewrite IH1 by done. do 2 f_equal. lia.
      * intros Hl. destruct (IH2 Hl) as (v & j & E & Hj). exists v, j. split; [done|]. lia.
    + split; [done|]. intros _. exists acc, i. split; [done|]. lia.
Qed.

(** What [scan_number] finds behind the sign, in terms of the text [l] that is left
    of the token, which ends at [e]. *)
Lemma scan_digits_ok l d post i e :
  isdigit d = false -> i + Z.of_nat (length l) = e ->
  match unsigned_decimal l with
  | Some v => (exists b l', l ++ d :: post = b :: l' /\ isdigit b = true) /\ read_digits (l ++ d :: post) i 0 = Ret (v, e) /\ 0 <= v
  | None => (exists b l', l ++ d :: post = b :: l' /\ isdigit b = false)
            \/ (exists b l' v j, l ++ d :: post = b :: l' /\ isdigit b = true /\ read_digits (l ++ d :: post) i 0 = Ret (v, j) /\ j < e)
  end.
Proof.
  intros Hd He. destruct l as [|b l]; cbn [unsigned_decimal app]; [left; by exists d, post|].
  destruct (read_digits_ok (b :: l) d post Hd i 0) as [R1 R2]. destruct (forallb isdigit (b :: l)) eqn:El.
  - split; [|split].
    + exists b, (l ++ d :: post). split; [done|]. cbn in El. by apply andb_prop in El as [? _].
    + cbn [app] in R1. rewrite R1 by done. by rewrite He.
    + clear R1 R2 He. assert (Hge : forall k acc, 0 <= acc -> forallb isdigit k = true -> 0 <= digits_value acc k).
      { induction k as [|c k IHk]; intros acc Ha Hk; [done|]. cbn in Hk |- *. apply andb_prop in Hk as [Hc Hk].
        unfold isdigit in Hc. apply andb_prop in Hc as [?%Z.leb_le ?%Z.leb_le]. apply IHk; [lia|done]. }
      by apply Hge.
  - destruct (isdigit b) eqn:Eb; [|left; by exists b, (l ++ d :: post)]. right.
    destruct (R2 eq_refl) as (v & j & E & Hj). exists b, (l ++ d :: post), v, j. split; [done|]. split; [done|]. split; [done|]. lia.
Qed.

Lemma scan_number_ok buf s e :
  delimited buf s e = true ->
  match decimal (slice buf s e) with
  | Some v => exists negative n, scan_number buf s = Ret (Some (negative, n, e)) /\ v = (if (negative : bool) then - n else n) /\ 0 <= n
  | None => scan_number buf s = Ret None \/ exists negative n j, scan_number buf s = Ret (Some (negative, n, j)) /\ j <> e
  end.
Proof.
  intros (Hse & Hw & b & l & d & post & Esl & Hb & Hd & Ed & Hlen)%delimited_split.
  unfold scan_number. rewrite (proj2 (Z.ltb_ge s 0)) by lia. rewrite Ed, Esl. cbn [skip_spaces]. rewrite Hb. ostep. cbn [decimal].
  cbn [length] in Hlen.
  assert (Hfin : forall (negative : bool) k i, i + Z.of_nat (length k) = e ->
    let r := (match k ++ d :: post with
              | [] => Stop Undefined
              | c :: _ => if isdigit c then '(n, j) ← read_digits (k ++ d :: post) i 0; Ret (Some (negative, n, j)) else Ret None
              end : outcome (option (bool * Z * Z))) in
    match unsigned_decimal k with
    | Some v => r = Ret (Some (negative, v, e)) /\ 0 <= v
    | None => r = Ret None \/ exists n j, r = Ret (Some (negative, n, j)) /\ j <> e
    end).
  { intros negative k i Hi r. pose proof (scan_digits_ok k d post i e Hd Hi) as S. unfold r.
    destruct (unsigned_decimal k) as [v|].
    - destruct S as ((c & l' & E & Ec) & Er & Hv). rewrite Er. rewrite E, Ec. by ostep.
    - destruct S as [(c & l' & E & Ec)|(c & l' & v & j & E & Ec & Er & Hj)]; [left; by rewrite E, Ec|].
      right. exists v, j. rewrite Er. rewrite E, Ec. ostep. split; [done|]. lia. }
  destruct (b =? 45) eqn:E45; [|destruct (b =? 43) eqn:E43].
  - specialize (Hfin true l (s + 1) ltac:(lia)). cbn zeta in Hfin. destruct (unsigned_decimal l) as [v|]; cbn.
    + destruct Hfin as [-> Hv]. by exists true, v.
    + destruct Hfin as [->|(n & j & -> & Hj)]; [by left|]. right. by exists true, n, j.
  - specialize (Hfin false l (s + 1) ltac:(lia)). cbn zeta in Hfin. destruct (unsigned_decimal l) as [v|]; cbn.
    + destruct Hfin as [-> Hv]. by exists false, v.
    + destruct Hfin as [->|(n & j & -> & Hj)]; [by left|]. right. by exists false, n, j.
  - specialize (Hfin false (b :: l) s ltac:(cbn [length]; lia)). cbn zeta in Hfin. cbn [app] in Hfin. cbn iota in Hfin. destruct (unsigned_decimal (b :: l)) as [v|]; cbn iota.
    + destruct Hfin as [-> Hv]. by exists false, v.
    + destruct Hfin as [->|(n & j & -> & Hj)]; [by left|]. right. by exists false, n, j.
Qed.

Lemma parse_uint_ok max buf tok :
  max < INTMAX_MAX -> delimited buf (tok_start tok) (tok_end tok) = true ->
  parse_uint max tok buf = Ret (number max (slice buf (tok_start tok) (tok_end tok))).
Proof.
  intros Hmax Hd. pose proof (delimited_split _ _ _ Hd) as (Hse & _ & _). pose proof (scan_number_ok _ _ _ Hd) as S.
  unfold parse_uint, strtoimax, number. unfold INTMAX_MAX, INTMAX_MIN in *. destruct (decimal _) as [v|].
  - destruct S as (negative & n & -> & -> & Hn). ostep. rewrite Z.eqb_refl. cbn [negb orb].
    set (m := if negative then Z.max (- 2 ^ 63) (- n) else Z.min (2 ^ 63 - 1) n).
    assert (Hm : ((m <? 0) || (max <? m)) = negb ((0 <=? (if negative then - n else n)) && ((if negative then - n else n) <=? max))
                 /\ ((m <? 0) || (max <? m) = false -> m = if negative then - n else n)).
    { subst m. destruct negative;
        repeat match goal with |- context [?x <? ?y] => destruct (Z.ltb_spec x y) | |- context [?x <=? ?y] => destruct (Z.leb_spec x y) end;
        cbn; split; intros; lia || done. }
    destruct Hm as [Hm1 Hm2]. destruct (_ || _) eqn:Eo.
    + symmetry in Hm1. apply negb_true_iff in Hm1. by rewrite Hm1.
    + symmetry in Hm1. apply negb_false_iff in Hm1. rewrite Hm1. by rewrite Hm2.
  - destruct S as [->|(negative & n & j & -> & Hj)]; ostep.
    + by rewrite (proj2 (Z.eqb_neq _ _)) by lia.
    + by rewrite (proj2 (Z.eqb_neq _ _)) by lia.
Qed.

(** ** Documents *)

(** A JSON document; the numbers say which part of the text a value covers (a
    string without its quotes).  The members of an object have their keys. *)
Unset Elimination Schemes.
Inductive json :=
| JString (s e : Z)
| JPrimitive (s e : Z)
| JArray (s e : Z) (l : list json)
| JObject (s e : Z) (l : list ((Z * Z) * json)).
Set Elimination Schemes.

(** The tokens of a document: every value before its children, a key with its
    value as its child. *)
Fixpoint tokens_of (j : json) : list jsmntok :=
  match j with
  | JString s e => [mk_tok JSMN_STRING s e 0]
  | JPrimitive s e => [mk_tok JSMN_PRIMITIVE s e 0]
  | JArray s e l => mk_tok JSMN_ARRAY s e (Z.of_nat (length l)) :: flat_map tokens_of l
  | JObject s e l => mk_tok JSMN_OBJECT s e (Z.of_nat (length l))
                       :: flat_map (fun '(k, v) => mk_tok JSMN_STRING k.1 k.2 1 :: tokens_of v) l
  end.

Definition member_tokens (kv : (Z * Z) * json) : list jsmntok := mk_tok JSMN_STRING kv.1.1 kv.1.2 1 :: tokens_of kv.2.

Lemma tokens_of_object s e l : tokens_of (JObject s e l) = mk_tok JSMN_OBJECT s e (Z.of_nat (length l)) :: flat_map member_tokens l.
Proof. cbn. f_equal. apply flat_map_ext. by intros [k v]. Qed.

(** The first token of a value. *)
Definition head_token (j : json) : jsmntok :=
  match j with
  | JString s e => mk_tok JSMN_STRING s e 0
  | JPrimitive s e => mk_tok JSMN_PRIMITIVE s e 0
  | JArray s e l => mk_tok JSMN_ARRAY s e (Z.of_nat (length l))
  | JObject s e l => mk_tok JSMN_OBJECT s e (Z.of_nat (length l))
  end.

Lemma tokens_of_head j : exists l, tokens_of j = head_token j :: l.
Proof. destruct j; eexists; cbn; done. Qed.

Definition width (j : json) : Z := Z.of_nat (length (tokens_of j)).

Lemma width_pos j : 0 < width j.
Proof. unfold width. destruct (tokens_of_head j) as [l ->]. cbn. lia. Qed.

(** The tokens [l] are at index [i]. *)
Definition tokens_at (tokens : list jsmntok) (i : Z) (l : list jsmntok) : Prop :=
  exists pre post, tokens = pre ++ l ++ post /\ i = Z.of_nat (length pre).

Lemma tokens_at_nonneg tokens i l : tokens_at tokens i l -> 0 <= i.
Proof. intros (pre & post & _ & ->). lia. Qed.

Lemma tokens_at_head tokens i t l : tokens_at tokens i (t :: l) -> tok_at tokens i = Ret t /\ tokens_at tokens (i + 1) l.
Proof.
  intros (pre & post & -> & ->). split.
  - unfold tok_at. rewrite (proj2 (Z.ltb_ge _ _)) by lia. rewrite Nat2Z.id, lookup_app_r by lia.
    by rewrite Nat.sub_diag.
  - exists (pre ++ [t]), post. rewrite <- app_assoc, length_app. cbn. split; [done|]. lia.
Qed.

Lemma tokens_at_app tokens i l1 l2 :
  tokens_at tokens i (l1 ++ l2) -> tokens_at tokens i l1 /\ tokens_at tokens (i + Z.of_nat (length l1)) l2.
Proof.
  intros (pre & post & -> & ->). split.
  - exists pre, (l2 ++ post). by rewrite <- !app_assoc.
  - exists (pre ++ l1), post. rewrite <- !app_assoc, length_app. split; [done|]. lia.
Qed.

Lemma tokens_at_value tokens i j : tokens_at tokens i (tokens_of j) -> tok_at tokens i = Ret (head_token j).
Proof. destruct (tokens_of_head j) as [l ->]. intros H. by apply tokens_at_head in H as [? _]. Qed.

(** A list of objects, parsed one after the other. *)
Definition parses {C} (tokens : list jsmntok) (parse : Z -> outcome (Z * C)) (decode : json -> option C) (j : json) : Prop :=
  forall i, tokens_at tokens i (tokens_of j) ->
  exists k c, parse i = Ret (k, c) /\ match decode j with Some c' => k = i + width j - 1 /\ c = c' | None => k = -1 end.

Lemma objects_loop_ok {C} tokens (parse : C -> Z -> outcome (Z * C)) zero decode l : forall i done_,
  0 <= i -> Forall (parses tokens (parse zero) decode) l -> tokens_at tokens (i + 1) (flat_map tokens_of l) ->
  exists k rs, objects_loop parse zero (length l) i done_ = Ret (k, rs)
    /\ match mapM decode l with
       | Some cs => k = i + Z.of_nat (length (flat_map tokens_of l)) /\ rs = done_ ++ cs
       | None => k = -1
       end.
Proof.
  induction l as [|j l IH]; intros i done_ Hi Hl Ht; cbn [objects_loop length].
  { exists i, done_. split; [done|]. cbn. rewrite app_nil_r. split; [lia|done]. }
  cbn [flat_map] in *. apply list.Forall_cons in Hl as [Hj Hl]. apply tokens_at_app in Ht as [Ht1 Ht2].
  destruct (Hj (i + 1) Ht1) as (k & c & -> & Hk). ostep.
  cbn [mapM mbind option_bind]. destruct (decode j) as [c'|]; cbn; [|subst k; by eexists _, _].
  destruct Hk as [-> ->]. pose proof (width_pos j) as Hw. rewrite (proj2 (Z.eqb_neq _ _)) by lia.
  destruct (IH (i + 1 + width j - 1) (done_ ++ [c'])) as (k & rs & E & Hr); [lia | done..| |].
  { unfold width. by replace (i + 1 + Z.of_nat (length (tokens_of j)) - 1 + 1) with (i + 1 + Z.of_nat (length (tokens_of j))) by lia. }
  exists k, rs. split; [done|]. destruct (mapM decode l) as [cs|]; cbn; [|done]. destruct Hr as [-> ->].
  rewrite <- app_assoc. split; [|done]. rewrite length_app. unfold width. lia.
Qed.

(** ** Objects *)

Section spec.
Variable buf : list Z.

(** The text of the member's key. *)
Definition member_key (kv : (Z * Z) * json) : list Z := cut (slice buf kv.1.1 kv.1.2).

Definition in_text (s e : Z) : bool := (0 <=? s) && (s <=? e) && (e <=? Z.of_nat (length buf)).

(** Where the tokens of a document lie, and that keys fit the buffer they are
    copied to. *)
Fixpoint well_placed (j : json) : bool :=
  match j with
  | JString s e => in_text s e
  | JPrimitive s e => delimited buf s e
  | JArray _ _ l => forallb well_placed l
  | JObject _ _ l => forallb (fun '(k, v) => in_text k.1 k.2 && (k.1 <? k.2) && (Z.of_nat (length (cut (slice buf k.1 k.2))) <? 32) && well_placed v) l
  end.

Definition member_placed (kv : (Z * Z) * json) : bool :=
  in_text kv.1.1 kv.1.2 && (kv.1.1 <? kv.1.2) && (Z.of_nat (length (member_key kv)) <? 32) && well_placed kv.2.

Lemma well_placed_object s e l : well_placed (JObject s e l) = forallb member_placed l.
Proof. cbn. induction l as [|[k v] l IH]; [done|]. cbn. by rewrite IH. Qed.

Lemma in_text_within s e : in_text s e = true -> within buf s e.
Proof. unfold in_text, within. intros [[?%Z.leb_le ?%Z.leb_le]%andb_prop ?%Z.leb_le]%andb_prop. lia. Qed.

(** The members before [l] have the keys [seen]; [ok] judges a member by its key
    and its value. *)
Fixpoint members_ok (ok : list Z -> json -> bool) (seen : list (list Z)) (l : list ((Z * Z) * json)) : bool :=
  match l with
  | [] => true
  | kv :: l => bool_decide (member_key kv ∉ seen) && ok (member_key kv) kv.2 && members_ok ok (member_key kv :: seen) l
  end.

Lemma members_ok_spec ok seen l :
  members_ok ok seen l = true <->
  NoDup (member_key <$> l) /\ (forall kv, kv ∈ l -> (member_key kv ∉ seen) /\ ok (member_key kv) kv.2 = true).
Proof.
  revert seen. induction l as [|kv l IH]; intros seen; cbn [members_ok].
  - split; [intros _; split; [constructor | by intros kv ?%not_elem_of_nil] | done].
  - rewrite fmap_cons, list.NoDup_cons, !andb_true_iff, bool_decide_eq_true, IH. split.
    + intros [[H1 H2] [H3 H4]]. split.
      * split; [|done]. intros (kv' & E & Hin)%list_elem_of_fmap. destruct (H4 kv' Hin) as [Hn _]. rewrite <- E in Hn. apply Hn. by left.
      * intros kv' [->|Hin]%elem_of_cons; [done|]. destruct (H4 kv' Hin) as [Hn ?]. split; [|done]. intros Hs. apply Hn. by right.
    + intros [[H1 H2] H3]. destruct (H3 kv) as [H4 H5]; [by left|]. split; [done|]. split; [done|].
      intros kv' Hin. destruct (H3 kv') as [H6 H7]; [by right|]. split; [|done].
      intros [E|Hs]%elem_of_cons; [|done]. apply H1. rewrite <- E. by apply list_elem_of_fmap_2.
Qed.

(** A parser of one member meets its specification: [inv l s] says that the state
    [s] holds what the members [l] say. *)
Definition member_spec {St} (tokens : list jsmntok) (body : list Z -> Z -> St -> outcome (Z * St)) (ok : list Z -> json -> bool)
  (inv : list ((Z * Z) * json) -> St -> Prop) (l : list ((Z * Z) * json)) : Prop :=
  forall before kv s i, kv ∈ l -> inv before s -> member_placed kv = true -> tokens_at tokens i (tokens_of kv.2) ->
  exists j s', body (member_key kv) i s = Ret (j, s')
    /\ if bool_decide (member_key kv ∉ (member_key <$> before)) && ok (member_key kv) kv.2
       then j = i + width kv.2 - 1 /\ inv (before ++ [kv]) s' else j = -1.

Lemma members_loop_ok {St} tokens (body : list Z -> Z -> St -> outcome (Z * St)) ok inv all :
  member_spec tokens body ok inv all ->
  forall l before s i seen, (forall kv, kv ∈ l -> kv ∈ all) -> inv before s -> forallb member_placed l = true ->
  (forall k, k ∈ seen <-> k ∈ (member_key <$> before)) -> 0 <= i ->
  tokens_at tokens (i + 1) (flat_map member_tokens l) ->
  exists j s', members_loop buf tokens body (length l) i s = Ret (j, s')
    /\ if members_ok ok seen l then j = i + Z.of_nat (length (flat_map member_tokens l)) /\ inv (before ++ l) s' else j = -1.
Proof.
  intros Hspec. induction l as [|kv l IH]; intros before s i seen Hall Hinv Hp Hseen Hi Ht; cbn [members_loop length members_ok].
  { exists i, s. split; [done|]. rewrite app_nil_r. split; [cbn; lia|done]. }
  cbn [forallb] in Hp. apply andb_prop in Hp as [Hkv Hl]. cbn [flat_map] in Ht.
  apply tokens_at_app in Ht as [Hm Hrest]. unfold member_tokens at 1 in Hm. apply tokens_at_head in Hm as [Etok Hv].
  rewrite Etok. ostep. pose proof Hkv as Hkv'. unfold member_placed in Hkv'.
  apply andb_prop in Hkv' as [[[Hin%in_text_within Hne%Z.ltb_lt]%andb_prop H32]%andb_prop _].
  unfold is_valid_key, has_valid_type, has_valid_size. cbn [tok_type tok_start tok_end tok_size].
  rewrite bool_decide_true by done. rewrite (proj2 (Z.ltb_ge _ _)) by lia. cbn [negb andb]. rewrite Z.eqb_refl. cbn [negb].
  unfold copy_key. rewrite token_text_ok by done. cbn [tok_start tok_end]. ostep. fold (member_key kv). rewrite H32. ostep.
  replace (i + 1 + 1) with (i + 2) in Hv by lia.
  destruct (Hspec before kv s (i + 2)) as (j & s' & Eb & Hj); [apply Hall; by left | done..|]. rewrite Eb. ostep.
  assert (Eseen : bool_decide (member_key kv ∉ seen) = bool_decide (member_key kv ∉ (member_key <$> before))).
  { apply bool_decide_ext. split; intros Hn Hk; apply Hn, Hseen, Hk. }
  rewrite Eseen. destruct (bool_decide _ && ok _ _) eqn:Eok; cbn [andb].
  2: { rewrite Hj. cbn. by exists (-1), s'. }
  destruct Hj as [-> Hinv']. pose proof (width_pos kv.2) as Hw. rewrite (proj2 (Z.eqb_neq _ _)) by lia.
  destruct (IH (before ++ [kv]) s' (i + 2 + width kv.2 - 1) (member_key kv :: seen)) as (j' & s'' & E & Hr); try done.
  - intros kv' Hin'. apply Hall. by right.
  - intros k. rewrite elem_of_cons, fmap_app, elem_of_app, Hseen. cbn. rewrite list_elem_of_singleton. tauto.
  - lia.
  - unfold member_tokens at 1 in Hrest. cbn [length] in Hrest. unfold width.
    replace (i + 2 + Z.of_nat (length (tokens_of kv.2)) - 1 + 1) with (i + 1 + Z.of_nat (S (length (tokens_of kv.2)))) by lia. done.
  - exists j', s''. split; [done|]. destruct (members_ok _ _ l); [|done]. destruct Hr as [-> Hinv2].
    rewrite <- app_assoc in Hinv2. split; [|done]. cbn [flat_map]. rewrite length_app. unfold member_tokens at 2, width. cbn [length]. lia.
Qed.

(** ** The reference: fields of an object by their keys *)

Definition field (l : list ((Z * Z) * json)) (key : list Z) : option json :=
  snd <$> head (filter (fun kv => member_key kv = key) l).

Definition has_key (l : list ((Z * Z) * json)) (key : list Z) : bool := bool_decide (key ∈ (member_key <$> l)).

Lemma field_snoc l kv key :
  (member_key kv ∉ (member_key <$> l)) ->
  field (l ++ [kv]) key = if decide (member_key kv = key) then Some kv.2 else field l key.
Proof.
  intros Hn. unfold field. rewrite list.filter_app. destruct (decide (member_key kv = key)) as [E|E].
  - assert (El : filter (fun kv => member_key kv = key) l = []).
    { destruct (filter _ l) as [|a k] eqn:El; [done|]. assert (Ha : a ∈ filter (fun kv => member_key kv = key) l) by (rewrite El; by left).
      apply list_elem_of_filter in Ha as [Ha Hl]. destruct Hn. rewrite E, <- Ha. by apply list_elem_of_fmap_2. }
    rewrite El, filter_cons_True by done. done.
  - rewrite (filter_cons_False _ kv) by done. cbn. by rewrite app_nil_r.
Qed.

Lemma has_key_snoc l kv key : has_key (l ++ [kv]) key = bool_decide (member_key kv = key) || has_key l key.
Proof.
  unfold has_key. rewrite fmap_app. cbn. rewrite <- bool_decide_or. apply bool_decide_ext.
  rewrite elem_of_app, list_elem_of_singleton. split; intros [?|?]; auto.
Qed.

Definition string_of (j : json) : option (list Z) :=
  match j with JString s e => if s <? e then Some (cut (slice buf s e)) else None | _ => None end.

Definition number_of (max : Z) (j : json) : option Z :=
  match j with JPrimitive s e => number max (slice buf s e) | _ => None end.

Definition is_some {A} (o : option A) : bool := match o with Some _ => true | None => false end.

Definition string_field l key : option (list Z) := field l key ≫= string_of.
Definition number_field max l key : Z := default 0 (field l key ≫= number_of max).

(** The members of a configuration are told apart by their keys. *)
Lemma member_of_inv {M} (json_keys : M -> list Z) members key m : member_of json_keys members key = Some m -> json_keys m = key.
Proof.
  unfold member_of. intros E. assert (Hin : m ∈ filter (fun m => json_keys m = key) members).
  { destruct (filter _ members); [done|]. injection E as ->. apply list_elem_of_here. }
  by apply list_elem_of_filter in Hin as [? _].
Qed.

(** *** Routes *)

Variable ADMISSIONS_CONTROL : bool.
Variable scheduler : SCHEDULER.
Abbreviation rk := route_config_json_keys.

Definition route_member_ok (key : list Z) (j : json) : bool :=
  match member_of rk route_config_members key with
  | None => false
  | Some m =>
    match m with
    | route_config_member_route | route_config_member_path | route_config_member_http_resp_content_type => is_some (string_of j)
    | route_config_member_admissions_percentile => is_some (number_of UINT8_MAX j)
    | _ => is_some (number_of UINT32_MAX j)
    end
  end.

Definition route_of (l : list ((Z * Z) * json)) : route_config :=
  mk_route_config (string_field l (rk route_config_member_route)) (string_field l (rk route_config_member_path))
    (number_field UINT8_MAX l (rk route_config_member_admissions_percentile))
    (number_field UINT32_MAX l (rk route_config_member_expected_execution_us))
    (number_field UINT32_MAX l (rk route_config_member_relative_deadline_us))
    (string_field l (rk route_config_member_http_resp_content_type)).

(** The route and the path are required, under every policy but FIFO a deadline
    of at most an hour, with admissions control an estimate and a percentile. *)
Definition route_valid (l : list ((Z * Z) * json)) : bool :=
  let c := route_of l in let has m := has_key l (rk m) in
  has route_config_member_route && has route_config_member_path
  && (bool_decide (scheduler = SCHEDULER_FIFO)
      || has route_config_member_relative_deadline_us && (rc_relative_deadline_us c <=? RUNTIME_RELATIVE_DEADLINE_US_MAX)
         && (negb ADMISSIONS_CONTROL
             || has route_config_member_expected_execution_us && has route_config_member_admissions_percentile
                && (50 <=? rc_admissions_percentile c) && (rc_admissions_percentile c <=? 99)
                && (rc_relative_deadline_us c / rc_expected_execution_us c <=? ADMISSIONS_CONTROL_GRANULARITY))).

Definition text_plain : list Z := bytes_of_string "text/plain"%string.

Definition decode_route (j : json) : option route_config :=
  match j with
  | JObject _ _ l =>
    if bool_decide (l <> []) && members_ok route_member_ok [] l && route_valid l
    then Some (set_rc_content_type (route_of l) (Some (default text_plain (rc_http_resp_content_type (route_of l)))))
    else None
  | _ => None
  end.

(** No estimate of 0, by which admissions control would divide. *)
Definition estimate_ok (j : json) : bool :=
  match j with
  | JObject _ _ l => negb ADMISSIONS_CONTROL || negb (has_key l (rk route_config_member_expected_execution_us))
                     || negb (rc_expected_execution_us (route_of l) =? 0)
  | _ => true
  end.

Variable tokens : list jsmntok.
Abbreviation always := (fun _ : Z => true).

Definition route_inv (l : list ((Z * Z) * json)) (s : (route_config_member -> bool) * route_config) : Prop :=
  (forall m, s.1 m = has_key l (rk m)) /\ s.2 = route_of l.

(** *** Values *)

Lemma string_typed j : is_nonempty_string (head_token j) = is_some (string_of j).
Proof.
  unfold is_nonempty_string, has_valid_type. destruct j as [s e| | |]; cbn; try done.
  destruct (Z.ltb_spec (e - s) 1), (Z.ltb_spec s e); done || lia.
Qed.

Lemma string_dup j i : well_placed j = true -> is_some (string_of j) = true -> strndup_token buf always i (head_token j) = Ret (string_of j).
Proof.
  destruct j as [s e| | |]; try done. cbn. intros Hp%in_text_within. destruct (s <? e); [|done]. intros _.
  unfold strndup_token. rewrite token_text_ok by done. by ostep.
Qed.

Lemma string_width j : is_some (string_of j) = true -> width j = 1.
Proof. by destruct j. Qed.

Lemma number_width max j : is_some (number_of max j) = true -> width j = 1.
Proof. by destruct j. Qed.

(** Not a primitive, or read as the number it is. *)
Lemma number_typed max j :
  max < INTMAX_MAX -> well_placed j = true ->
  (has_valid_type (head_token j) JSMN_PRIMITIVE = false /\ number_of max j = None)
  \/ (has_valid_type (head_token j) JSMN_PRIMITIVE = true /\ parse_uint max (head_token j) buf = Ret (number_of max j)).
Proof.
  intros Hm. destruct j as [|s e| |]; cbn; try (intros _; by left). intros Hp. right. split; [done|].
  by apply parse_uint_ok.
Qed.

(** The marks after one more member. *)
Lemma marks_snoc {M} `{EqDecision M} (json_keys : M -> list Z) (did : M -> bool) l kv m :
  Inj (=) (=) json_keys -> (forall m', did m' = has_key l (json_keys m')) -> json_keys m = member_key kv ->
  (if decide (member_key kv ∈ (member_key <$> l)) then set_key_once did m = None
   else exists did', set_key_once did m = Some did' /\ forall m', did' m' = has_key (l ++ [kv]) (json_keys m')).
Proof.
  intros Hinj Hd Ek. unfold set_key_once. rewrite Hd, Ek.
  assert (Eh : has_key l (member_key kv) = bool_decide (member_key kv ∈ (member_key <$> l))) by done. rewrite Eh. case_decide as Hin.
  - by rewrite bool_decide_true.
  - rewrite bool_decide_false by done. eexists. split; [done|]. intros m'. rewrite has_key_snoc. case_decide as Em.
    + subst m'. by rewrite bool_decide_true.
    + rewrite bool_decide_false; [by rewrite Hd|]. intros E. apply Em, Hinj. congruence.
Qed.

#[local] Instance rk_inj : Inj (=) (=) rk.
Proof. intros [] []; done. Qed.

Lemma bind_some {A B} (f : A -> option B) a : (Some a ≫= f) = f a.
Proof. done. Qed.

Ltac fields_snoc Hn Ek :=
  unfold string_field, number_field; rewrite !(field_snoc _ _ _ Hn); rewrite <- !Ek;
  repeat first [rewrite decide_True by done | rewrite decide_False by done]; rewrite ?bind_some.

Lemma route_member_parse_ok l : member_spec tokens (route_config_member_parse buf tokens always) route_member_ok route_inv l.
Proof.
  intros before kv [did c] i _ [Hd Hc] Hp Ht. cbn in Hd, Hc. subst c. unfold route_config_member_parse, route_member_ok.
  destruct (member_of rk route_config_members (member_key kv)) as [m|] eqn:Em;
    [|exists (-1); eexists; split; [done|]; by rewrite andb_false_r].
  apply member_of_inv in Em as Ek. rewrite (tokens_at_value _ _ _ Ht). ostep.
  assert (Hv : well_placed kv.2 = true) by (unfold member_placed in Hp; by apply andb_prop in Hp as [_ ?]).
  pose proof (marks_snoc rk did before kv m _ Hd Ek) as Hm. unfold route_config_set_key_once.
  destruct (decide (member_key kv ∈ (member_key <$> before))) as [Hin|Hn].
  { rewrite Hm, bool_decide_false by (intros Hno; by apply Hno). cbn [andb].
    exists (-1), (did, route_of before). split; [|done]. by destruct (negb _). }
  destruct Hm as (did' & -> & Hd'). rewrite bool_decide_true by done. cbn [andb].
  destruct m; cbn [route_value_type route_config_value];
    first [ rewrite string_typed; destruct (is_some (string_of kv.2)) eqn:Es; cbn [negb];
              [rewrite (string_dup _ _ Hv Es); ostep; eexists i, _; split; [done|]; split;
                [rewrite (string_width _ Es); lia | split; [done|]; cbn; unfold route_of; fields_snoc Hn Ek; done]
              |by eexists (-1), _]
          | unfold parse_uint8_t; destruct (number_typed UINT8_MAX kv.2 ltac:(done) Hv) as [[-> Es]|[-> Es]]; cbn [negb];
              [eexists (-1), _; by rewrite Es|]
          | unfold parse_uint32_t; destruct (number_typed UINT32_MAX kv.2 ltac:(done) Hv) as [[-> Es]|[-> Es]]; cbn [negb];
              [eexists (-1), _; by rewrite Es|] ].
  all: rewrite Es; ostep; destruct (number_of _ kv.2) as [v|] eqn:Ev; cbn [option_map is_some]; [|by eexists (-1), _];
    eexists i, _; split; [done|]; split;
    [erewrite number_width by (by rewrite Ev); lia | split; [done|]; cbn [snd]; unfold route_of; fields_snoc Hn Ek; by rewrite Ev].
Qed.

(** The defaults and the checks. *)
Lemma route_validate_ok l did :
  (forall m, did m = has_key l (rk m)) -> (forall m, has_key l (rk m) = is_some (field l (rk m))) ->
  (has_key l (rk route_config_member_http_resp_content_type) = true -> is_some (string_field l (rk route_config_member_http_resp_content_type)) = true) ->
  ADMISSIONS_CONTROL && has_key l (rk route_config_member_expected_execution_us) && (rc_expected_execution_us (route_of l) =? 0) = false ->
  exists rc c, route_config_validate ADMISSIONS_CONTROL scheduler (route_of l) did = Ret (rc, c)
    /\ if route_valid l then rc = 0 /\ c = set_rc_content_type (route_of l) (Some (default text_plain (rc_http_resp_content_type (route_of l))))
       else rc = -1.
Proof.
  intros Hd Hf Hct Hz. unfold route_config_validate, route_valid. rewrite !Hd.
  destruct (has_key l (rk route_config_member_route)); cbn [negb andb]; [|by eexists _, _].
  destruct (has_key l (rk route_config_member_path)); cbn [negb andb]; [|by eexists _, _].
  set (c0 := if has_key l (rk route_config_member_http_resp_content_type) then _ else _).
  assert (Ec : c0 = set_rc_content_type (route_of l) (Some (default text_plain (rc_http_resp_content_type (route_of l))))).
  { subst c0. cbn [route_of rc_http_resp_content_type] in *. destruct (has_key l _) eqn:Eh.
    - specialize (Hct eq_refl). destruct (string_field l _) eqn:Es; [|done]. cbn [default id]. by rewrite <- Es.
    - rewrite Hf in Eh. unfold string_field. destruct (field l _); [done|]. done. }
  case_decide as Es; [rewrite bool_decide_true by done; by eexists _, _|]. rewrite bool_decide_false by done. cbn [orb].
  destruct (has_key l (rk route_config_member_relative_deadline_us)); cbn [negb andb]; [|by eexists _, _].
  replace (rc_relative_deadline_us c0) with (rc_relative_deadline_us (route_of l)) by (by rewrite Ec).
  replace (rc_admissions_percentile c0) with (rc_admissions_percentile (route_of l)) by (by rewrite Ec).
  replace (rc_expected_execution_us c0) with (rc_expected_execution_us (route_of l)) by (by rewrite Ec).
  rewrite (Z.ltb_antisym _ RUNTIME_RELATIVE_DEADLINE_US_MAX).
  destruct (rc_relative_deadline_us (route_of l) <=? RUNTIME_RELATIVE_DEADLINE_US_MAX); cbn [negb andb]; [|by eexists _, _].
  destruct ADMISSIONS_CONTROL; cbn [negb orb]; [|by eexists _, _]. cbn [andb] in Hz.
  destruct (has_key l (rk route_config_member_expected_execution_us)); cbn [negb andb]; [|by eexists _, _]. cbn [andb] in Hz.
  destruct (has_key l (rk route_config_member_admissions_percentile)); cbn [negb andb]; [|by eexists _, _].
  rewrite Hz. rewrite (Z.ltb_antisym _ 99), (Z.ltb_antisym 50).
  destruct (rc_admissions_percentile (route_of l) <=? 99), (50 <=? rc_admissions_percentile (route_of l)); cbn [negb andb orb];
    try (by eexists _, _).
  rewrite (Z.ltb_antisym _ ADMISSIONS_CONTROL_GRANULARITY). destruct (_ <=? ADMISSIONS_CONTROL_GRANULARITY); cbn [negb]; by eexists _, _.
Qed.

Lemma field_in l key j : field l key = Some j -> exists kv, kv ∈ l /\ member_key kv = key /\ kv.2 = j.
Proof.
  unfold field. destruct (filter (fun kv => member_key kv = key) l) as [|kv k] eqn:E; [done|]. intros [= <-]. exists kv.
  assert (Hin : kv ∈ filter (fun kv => member_key kv = key) l) by (rewrite E; by left).
  apply list_elem_of_filter in Hin as [? ?]. done.
Qed.

Lemma has_key_field l key : has_key l key = is_some (field l key).
Proof.
  unfold has_key. destruct (field l key) as [j|] eqn:E.
  - apply field_in in E as (kv & Hin & <- & _). apply bool_decide_true. by apply list_elem_of_fmap_2.
  - apply bool_decide_false. intros (kv & -> & Hin)%list_elem_of_fmap. unfold field in E.
    destruct (filter (fun kv' => member_key kv' = member_key kv) l) as [|a k] eqn:Ef; [|done].
    assert (Hk : kv ∈ filter (fun kv' => member_key kv' = member_key kv) l) by (by apply list_elem_of_filter).
    rewrite Ef in Hk. by apply not_elem_of_nil in Hk.
Qed.

(** A field that is there has been judged. *)
Lemma field_ok ok l key j : members_ok ok [] l = true -> field l key = Some j -> ok key j = true.
Proof. intros [_ H]%members_ok_spec (kv & Hin & <- & <-)%field_in. by apply H. Qed.

Lemma route_parse_ok j :
  well_placed j = true -> estimate_ok j = true ->
  parses tokens (route_config_parse ADMISSIONS_CONTROL scheduler buf tokens always zero_route_config) decode_route j.
Proof.
  intros Hp He i Ht. pose proof (tokens_at_nonneg _ _ _ Ht) as Hi. unfold route_config_parse. rewrite (tokens_at_value _ _ _ Ht). ostep.
  unfold is_nonempty_object, has_valid_type. destruct j as [| | |s e l]; cbn [head_token tok_type tok_size];
    try (by rewrite bool_decide_false by done; eexists _, _).
  rewrite bool_decide_true by done. cbn [negb andb]. destruct (decide (l = [])) as [->|Hne]; [by eexists _, _|].
  rewrite (proj2 (Z.eqb_neq _ _)) by (destruct l; [done | cbn [length]; lia]). cbn [negb].
  assert (Edec : decode_route (JObject s e l) = if members_ok route_member_ok [] l && route_valid l
    then Some (set_rc_content_type (route_of l) (Some (default text_plain (rc_http_resp_content_type (route_of l))))) else None).
  { cbn [decode_route]. by rewrite bool_decide_true. }
  rewrite tokens_of_object in Ht. apply tokens_at_head in Ht as [_ Ht]. rewrite well_placed_object in Hp. rewrite Nat2Z.id.
  destruct (members_loop_ok tokens _ _ _ l (route_member_parse_ok l) l [] (fun _ => false, zero_route_config) i []) as (k & [did c] & E & Hk);
    try done.
  rewrite E. ostep. rewrite Edec. destruct (members_ok route_member_ok [] l) eqn:Eok; cbn [andb];
    [|subst k; by eexists _, _].
  destruct Hk as [-> [Hd Hc]]. cbn [fst snd app] in Hd, Hc. subst c. rewrite (proj2 (Z.eqb_neq _ _)) by lia.
  destruct (route_validate_ok l did Hd (fun m => has_key_field l (rk m))) as (rc & c & Ev & Hv).
  - rewrite has_key_field. unfold string_field. destruct (field l _) as [v|] eqn:Ef; [|done]. intros _.
    apply (field_ok _ _ _ _ Eok) in Ef. done.
  - unfold estimate_ok in He. destruct ADMISSIONS_CONTROL, (has_key l _), (_ =? 0); done.
  - rewrite Ev. ostep. destruct (route_valid l).
    + destruct Hv as [-> ->]. cbn [Z.ltb Z.compare]. eexists _, _. split; [done|]. split; [|done].
      unfold width. rewrite tokens_of_object. cbn [length]. lia.
    + subst rc. by eexists _, _.
Qed.

(** *** Tenants *)

Abbreviation tk := tenant_config_json_keys.

Definition routes_of (j : json) : option (list route_config) :=
  match j with JArray _ _ l => mapM decode_route l | _ => None end.

Definition tenant_member_ok (key : list Z) (j : json) : bool :=
  match member_of tk tenant_config_members key with
  | None => false
  | Some m =>
    match m with
    | tenant_config_member_name => is_some (string_of j)
    | tenant_config_member_port => is_some (number_of UINT16_MAX j)
    | tenant_config_member_routes => is_some (routes_of j)
    | _ => is_some (number_of UINT32_MAX j)
    end
  end.

Definition tenant_of (l : list ((Z * Z) * json)) : tenant_config :=
  let routes := field l (tk tenant_config_member_routes) ≫= routes_of in
  mk_tenant_config (string_field l (tk tenant_config_member_name))
    (number_field UINT16_MAX l (tk tenant_config_member_port))
    (number_field UINT32_MAX l (tk tenant_config_member_replenishment_period_us))
    (number_field UINT32_MAX l (tk tenant_config_member_max_budget_us))
    routes (Z.of_nat (length (default [] routes))).

(** A name, a port and routes are required; under the multi-tenant policy a
    replenishment period and a budget, of at most an hour each. *)
Definition tenant_valid (l : list ((Z * Z) * json)) : bool :=
  let c := tenant_of l in let has m := has_key l (tk m) in
  has tenant_config_member_name && bool_decide (tc_name c <> Some []) && has tenant_config_member_port
  && (negb (bool_decide (scheduler = SCHEDULER_MTDS))
      || has tenant_config_member_replenishment_period_us && (tc_replenishment_period_us c <=? RUNTIME_RELATIVE_DEADLINE_US_MAX)
         && has tenant_config_member_max_budget_us && (tc_max_budget_us c <=? RUNTIME_RELATIVE_DEADLINE_US_MAX))
  && negb (tc_routes_len c =? 0).

Definition decode_tenant (j : json) : option tenant_config :=
  match j with
  | JObject _ _ l => if bool_decide (l <> []) && members_ok tenant_member_ok [] l && tenant_valid l then Some (tenant_of l) else None
  | _ => None
  end.

Definition estimates_ok (j : json) : bool :=
  match j with
  | JObject _ _ l => forallb (fun kv => match kv.2 with JArray _ _ rs => forallb estimate_ok rs | _ => true end) l
  | _ => true
  end.

Definition tenant_inv (l : list ((Z * Z) * json)) (s : (tenant_config_member -> bool) * tenant_config) : Prop :=
  (forall m, s.1 m = has_key l (tk m)) /\ s.2 = tenant_of l.

#[local] Instance tk_inj : Inj (=) (=) tk.
Proof. intros [] []; done. Qed.

Lemma forallb_both {A} (p q : A -> bool) (P : A -> Prop) l :
  forallb p l = true -> forallb q l = true -> (forall a, p a = true -> q a = true -> P a) -> Forall P l.
Proof.
  intros Hp Hq HP. apply List.Forall_forall. intros a Ha. rewrite !forallb_forall in *. by apply HP; [apply Hp|apply Hq].
Qed.

Lemma routes_value_ok c i j :
  0 <= i -> well_placed j = true -> (match j with JArray _ _ rs => forallb estimate_ok rs = true | _ => True end) ->
  tokens_at tokens i (tokens_of j) -> has_valid_type (head_token j) JSMN_ARRAY = true ->
  exists k c', tenant_config_value ADMISSIONS_CONTROL scheduler buf tokens always tenant_config_member_routes i (head_token j) c = Ret (k, c')
    /\ match routes_of j with
       | Some rs => k = i + width j - 1 /\ c' = set_tc_routes c (Some rs) (Z.of_nat (length rs))
       | None => k = -1
       end.
Proof.
  intros Hi Hp He Ht Hty. destruct j as [| |s e l|]; try done. cbn in Ht. apply tokens_at_head in Ht as [_ Ht].
  cbn [tenant_config_value head_token tok_size routes_of]. rewrite Nat2Z.id.
  destruct (objects_loop_ok tokens (route_config_parse ADMISSIONS_CONTROL scheduler buf tokens always) zero_route_config decode_route l i [] Hi)
    as (k & rs & E & Hr); [|done|].
  { apply (forallb_both _ _ _ l Hp He). apply route_parse_ok. }
  unfold routes_loop. rewrite E. ostep.
  destruct (mapM decode_route l) as [cs|] eqn:Em; [|by eexists _, _]. destruct Hr as [-> ->]. eexists _, _. split; [done|]. split.
  - unfold width. cbn [tokens_of length]. lia.
  - by rewrite (length_mapM _ _ _ Em).
Qed.

Ltac number_member max Hv Hn Ek :=
  cbn [tenant_config_value]; unfold parse_uint16_t, parse_uint32_t;
  match type of Hv with well_placed ?v = true =>
    let Es := fresh in let Ev := fresh in let x := fresh in
    destruct (number_typed max v ltac:(done) Hv) as [[-> Es]|[-> Es]]; cbn [negb]; [eexists (-1), _; by rewrite Es|];
    rewrite Es; ostep; destruct (number_of max v) as [x|] eqn:Ev; cbn [is_some]; [|by eexists (-1), _];
    eexists _, _; split; [done|]; split; [erewrite number_width by (by rewrite Ev); lia|]; split; [done|];
    cbn [snd]; unfold tenant_of; fields_snoc Hn Ek; by rewrite Ev
  end.

Lemma tenant_member_parse_ok s e l :
  estimates_ok (JObject s e l) = true ->
  member_spec tokens (tenant_config_member_parse ADMISSIONS_CONTROL scheduler buf tokens always) tenant_member_ok tenant_inv l.
Proof.
  intros He before kv [did c] i Hkv [Hd Hc] Hp Ht. cbn in Hd, Hc. subst c. unfold tenant_config_member_parse, tenant_member_ok.
  destruct (member_of tk tenant_config_members (member_key kv)) as [m|] eqn:Em;
    [|exists (-1); eexists; split; [done|]; by rewrite andb_false_r].
  apply member_of_inv in Em as Ek. rewrite (tokens_at_value _ _ _ Ht). ostep.
  assert (Hv : well_placed kv.2 = true) by (unfold member_placed in Hp; by apply andb_prop in Hp as [_ ?]).
  pose proof (marks_snoc tk did before kv m _ Hd Ek) as Hm. unfold tenant_config_set_key_once.
  destruct (decide (member_key kv ∈ (member_key <$> before))) as [Hin|Hn].
  { rewrite Hm, bool_decide_false by (intros Hno; by apply Hno). cbn [andb].
    exists (-1), (did, tenant_of before). split; [|done]. by destruct (negb _). }
  destruct Hm as (did' & -> & Hd'). rewrite bool_decide_true by done. cbn [andb].
  destruct m; cbn [tenant_value_type].
  - rewrite string_typed. destruct (is_some (string_of kv.2)) eqn:Es; cbn [negb]; [|by eexists (-1), _].
    cbn [tenant_config_value]. rewrite (string_dup _ _ Hv Es). ostep. eexists i, _. split; [done|].
    split; [rewrite (string_width _ Es); lia|]. split; [done|]. cbn [snd]. unfold tenant_of. fields_snoc Hn Ek. done.
  - number_member UINT16_MAX Hv Hn Ek.
  - number_member UINT32_MAX Hv Hn Ek.
  - number_member UINT32_MAX Hv Hn Ek.
  - destruct (has_valid_type (head_token kv.2) JSMN_ARRAY) eqn:Ety; cbn [negb];
      [|exists (-1); eexists; split; [done|]; destruct kv.2; done].
    destruct (routes_value_ok (tenant_of before) i kv.2) as (k & c' & -> & Hk); try done.
    { by eapply tokens_at_nonneg. }
    { cbn in He. rewrite forallb_forall in He. specialize (He kv). apply list_elem_of_In in Hkv. specialize (He Hkv). by destruct kv.2. }
    ostep. destruct (routes_of kv.2) as [rs|] eqn:Er; cbn [is_some]; [|by subst k; eexists _, _].
    destruct Hk as [-> ->]. eexists _, _. split; [done|]. split; [done|]. split; [done|].
    cbn [snd]. unfold tenant_of. fields_snoc Hn Ek. by rewrite Er.
Qed.

Lemma tenant_validate_ok l did :
  (forall m, did m = has_key l (tk m)) ->
  (has_key l (tk tenant_config_member_name) = true -> is_some (tc_name (tenant_of l)) = true) ->
  tenant_config_validate scheduler (tenant_of l) did = Ret (if tenant_valid l then 0 else -1).
Proof.
  intros Hd Hname. unfold tenant_config_validate, tenant_valid. rewrite !Hd.
  destruct (has_key l (tk tenant_config_member_name)); cbn [negb andb]; [|done]. specialize (Hname eq_refl).
  destruct (tc_name (tenant_of l)) as [name|]; [|done]. cbn [deref]. ostep. destruct (decide (name = [])) as [->|Hne].
  { by rewrite bool_decide_false by (intros Hn; by apply Hn). }
  rewrite bool_decide_true by congruence. cbn [andb].
  destruct (has_key l (tk tenant_config_member_port)); cbn [negb andb]; [|done].
  assert (Hr : (if tc_routes_len (tenant_of l) =? 0 then Ret (-1) else Ret 0) = Ret (if negb (tc_routes_len (tenant_of l) =? 0) then 0 else -1))
    by (by destruct (_ =? 0)).
  case_decide as Es; [rewrite bool_decide_true by done | rewrite bool_decide_false by done; exact Hr]. cbn [negb orb].
  destruct (has_key l (tk tenant_config_member_replenishment_period_us)); cbn [negb andb]; [|done].
  rewrite !(Z.ltb_antisym _ RUNTIME_RELATIVE_DEADLINE_US_MAX).
  destruct (tc_replenishment_period_us (tenant_of l) <=? RUNTIME_RELATIVE_DEADLINE_US_MAX); cbn [negb andb]; [|done].
  destruct (has_key l (tk tenant_config_member_max_budget_us)); cbn [negb andb]; [|done].
  destruct (tc_max_budget_us (tenant_of l) <=? RUNTIME_RELATIVE_DEADLINE_US_MAX); cbn [negb andb]; [exact Hr|done].
Qed.

Lemma tenant_parse_ok j :
  well_placed j = true -> estimates_ok j = true ->
  parses tokens (tenant_config_parse ADMISSIONS_CONTROL scheduler buf tokens always zero_tenant_config) decode_tenant j.
Proof.
  intros Hp He i Ht. pose proof (tokens_at_nonneg _ _ _ Ht) as Hi. unfold tenant_config_parse. rewrite (tokens_at_value _ _ _ Ht). ostep.
  unfold is_nonempty_object, has_valid_type. destruct j as [| | |s e l]; cbn [head_token tok_type tok_size];
    try (by rewrite bool_decide_false by done; eexists _, _).
  rewrite bool_decide_true by done. cbn [negb andb]. destruct (decide (l = [])) as [->|Hne]; [by eexists _, _|].
  rewrite (proj2 (Z.eqb_neq _ _)) by (destruct l; [done | cbn [length]; lia]). cbn [negb].
  rewrite tokens_of_object in Ht. apply tokens_at_head in Ht as [_ Ht]. rewrite well_placed_object in Hp. rewrite Nat2Z.id.
  destruct (members_loop_ok tokens _ _ _ l (tenant_member_parse_ok s e l He) l [] (fun _ => false, zero_tenant_config) i [])
    as (k & [did c] & E & Hk); try done.
  rewrite E. ostep. cbn [decode_tenant]. rewrite bool_decide_true by done. cbn [andb].
  destruct (members_ok tenant_member_ok [] l) eqn:Eok; cbn [andb]; [|subst k; by eexists _, _].
  destruct Hk as [-> [Hd Hc]]. cbn [fst snd app] in Hd, Hc. subst c. rewrite (proj2 (Z.eqb_neq _ _)) by lia.
  rewrite (tenant_validate_ok l did Hd).
  - ostep. destruct (tenant_valid l); cbn [Z.ltb Z.compare]; [|by eexists _, _]. eexists _, _. split; [done|]. split; [|done].
    unfold width. rewrite tokens_of_object. cbn [length]. lia.
  - rewrite has_key_field. cbn [tenant_of tc_name]. unfold string_field. destruct (field l _) as [v|] eqn:Ef; [|done]. intros _.
    by apply (field_ok _ _ _ _ Eok) in Ef.
Qed.

(** The tenants of a document. *)
Definition decode_config (j : json) : option (list tenant_config) :=
  match j with JArray _ _ l => mapM decode_tenant l | _ => None end.

Definition all_estimates_ok (j : json) : bool :=
  match j with JArray _ _ l => forallb estimates_ok l | _ => true end.
End spec.

(** ** Claims *)
Section claims.
Variable ADMISSIONS_CONTROL : bool.
Variable scheduler : SCHEDULER.
Variable buf : list Z.
Abbreviation always := (fun _ : Z => true).

Definition is_array (j : json) : bool := match j with JArray _ _ _ => true | _ => false end.

Lemma tokens_at_all j : tokens_at (tokens_of j) 0 (tokens_of j).
Proof. exists [], []. by rewrite app_nil_r. Qed.

Lemma vec_parse_ok j :
  well_placed buf j = true -> all_estimates_ok buf ADMISSIONS_CONTROL j = true ->
  exists i vec len, tenant_config_vec_parse ADMISSIONS_CONTROL scheduler buf (tokens_of j) always 0 = Ret (i, vec, len)
    /\ match decode_config buf ADMISSIONS_CONTROL scheduler j with
       | Some cs => i = width j - 1 /\ vec = Vec cs /\ len = Z.of_nat (length cs)
       | None => i = -1 /\ (vec = VecUnset <-> is_array j = false)
       end.
Proof.
  intros Hp He. pose proof (tokens_at_all j) as Ht. unfold tenant_config_vec_parse. rewrite (tokens_at_value _ _ _ Ht). ostep.
  unfold has_valid_type. destruct j as [| |s e l|]; cbn [head_token tok_type tok_size];
    try (rewrite bool_decide_false by done; by eexists _, _, _).
  rewrite bool_decide_true by done. cbn [negb]. rewrite Nat2Z.id. apply tokens_at_head in Ht as [_ Ht].
  destruct (objects_loop_ok (tokens_of (JArray s e l))
              (tenant_config_parse ADMISSIONS_CONTROL scheduler buf (tokens_of (JArray s e l)) always) zero_tenant_config
              (decode_tenant buf ADMISSIONS_CONTROL scheduler) l 0 [] ltac:(lia)) as (k & ts & E & Hk); [|exact Ht|].
  { apply (forallb_both _ _ _ l Hp He). apply tenant_parse_ok. }
  unfold tenants_loop. rewrite E. ostep. eexists _, _, _. split; [done|]. cbn [decode_config].
  destruct (mapM (decode_tenant buf ADMISSIONS_CONTROL scheduler) l) as [cs|] eqn:Em; [|by subst k].
  destruct Hk as [-> ->]. split; [unfold width; cbn [tokens_of length]; lia|]. split; [done|]. by rewrite (length_mapM _ _ _ Em).
Qed.

Lemma nonempty_checked : buf <> [] -> assert (0 <? Z.of_nat (length buf)) = Ret tt.
Proof. intros Hb. apply assert_true, Z.ltb_lt. destruct buf; [done | cbn [length]; lia]. Qed.

(** A document that decodes is read as such. *)
Lemma parse_json_decoded j cs :
  buf <> [] -> well_placed buf j = true -> all_estimates_ok buf ADMISSIONS_CONTROL j = true ->
  decode_config buf ADMISSIONS_CONTROL scheduler j = Some cs ->
  parse_json ADMISSIONS_CONTROL scheduler buf (width j) (tokens_of j) always = Ret (Z.of_nat (length cs), Vec cs).
Proof.
  intros Hbuf Hp He Hd. pose proof (width_pos j) as Hw. destruct (vec_parse_ok j Hp He) as (i & vec & len & E & Hv). unfold parse_json.
  rewrite nonempty_checked by done. ostep. rewrite (proj2 (Z.ltb_ge (width j) 0)) by lia. rewrite E. ostep.
  rewrite Hd in Hv. destruct Hv as (-> & -> & ->). by rewrite Z.eqb_refl.
Qed.

(** C21: the configuration is read as it is written.  For the tokens of any JSON
    document (positions in the text, keys of fewer than 32 bytes, no estimate of
    0 under admissions control), the index-walking parsers agree with the
    reference that reads the document as a tree: they accept exactly the arrays
    of tenant objects with known, unrepeated, well-typed members, every required
    member and every number in range, and yield the tenants and routes the
    document says, in its order and with the default content type; the walk ends
    at the last token.  Any other document is refused: the walk returns -1, and
    reading the file as a whole then reports the text, which is out of bounds
    unless it contains a zero byte, or frees an array that was never made. *)
Theorem config_parse_spec j :
  buf <> [] -> well_placed buf j = true -> all_estimates_ok buf ADMISSIONS_CONTROL j = true ->
  match decode_config buf ADMISSIONS_CONTROL scheduler j with
  | Some cs =>
      tenant_config_vec_parse ADMISSIONS_CONTROL scheduler buf (tokens_of j) always 0 = Ret (width j - 1, Vec cs, Z.of_nat (length cs))
      /\ parse_json ADMISSIONS_CONTROL scheduler buf (width j) (tokens_of j) always = Ret (Z.of_nat (length cs), Vec cs)
  | None =>
      (exists vec len, tenant_config_vec_parse ADMISSIONS_CONTROL scheduler buf (tokens_of j) always 0 = Ret (-1, vec, len))
      /\ if is_array j && bool_decide (0 ∈ buf)
         then exists vec, parse_json ADMISSIONS_CONTROL scheduler buf (width j) (tokens_of j) always = Ret (-1, vec)
         else parse_json ADMISSIONS_CONTROL scheduler buf (width j) (tokens_of j) always = Stop Undefined
  end.
Proof.
  intros Hbuf Hp He. pose proof (width_pos j) as Hw. destruct (vec_parse_ok j Hp He) as (i & vec & len & E & Hd). unfold parse_json.
  rewrite nonempty_checked by done. ostep.
  rewrite (proj2 (Z.ltb_ge (width j) 0)) by lia. rewrite E. ostep.
  destruct (decode_config buf ADMISSIONS_CONTROL scheduler j) as [cs|].
  - destruct Hd as (-> & -> & ->). split; [done|]. by rewrite Z.eqb_refl.
  - destruct Hd as [-> Hv]. split; [by eexists _, _|]. rewrite (proj2 (Z.eqb_neq _ _)) by lia. cbn [negb].
    destruct (is_array j); cbn [andb].
    + unfold print_text. destruct vec as [| |l]; [discriminate (proj1 Hv eq_refl) | |]; destruct (bool_decide (0 ∈ buf)); ostep; by try eexists.
    + by rewrite (proj2 Hv eq_refl).
Qed.

(** C38: where reading a configuration goes wrong.  An empty array of tenants is
    accepted, although the code means to refuse it; a key of 32 bytes or more
    overflows the buffer it is copied to; under admissions control an estimate of
    0 divides by zero; a document that is not an array frees an indeterminate
    pointer, and a file without tokens reads one that does not exist; the parser
    of 64-bit numbers reports a negative number and goes on to accept it. *)
Theorem config_defects :
  (forall s e, buf <> [] -> parse_json ADMISSIONS_CONTROL scheduler buf 1 [mk_tok JSMN_ARRAY s e 0] always = Ret (0, Vec []))
  /\ (forall c s e n ks ke rest, 0 < n -> ks < ke -> within buf ks ke -> (32 <= length (cut (slice buf ks ke)))%nat ->
      route_config_parse ADMISSIONS_CONTROL scheduler buf (mk_tok JSMN_OBJECT s e n :: mk_tok JSMN_STRING ks ke 1 :: rest) always c 0
      = Stop Undefined)
  /\ (forall c, rc_relative_deadline_us c <= RUNTIME_RELATIVE_DEADLINE_US_MAX -> 50 <= rc_admissions_percentile c <= 99 ->
      rc_expected_execution_us c = 0 -> route_config_validate true SCHEDULER_EDF c (fun _ => true) = Stop Fpe)
  /\ (forall j, is_array j = false -> buf <> [] ->
      parse_json ADMISSIONS_CONTROL scheduler buf (width j) (tokens_of j) always = Stop Undefined)
  /\ parse_json ADMISSIONS_CONTROL scheduler buf 0 [] always = (if decide (buf = []) then Stop AssertFail else Stop Undefined)
  /\ (parse_uint64_t (mk_tok JSMN_PRIMITIVE 0 2 0) [45; 49; 44] = Ret (Some UINT64_MAX)).
Proof.
  pose proof nonempty_checked as Hbuf.
  split; [|split; [|split; [|split; [|split]]]].
  - intros s e Hb. unfold parse_json. rewrite Hbuf by done. by ostep.
  - intros c s e n ks ke rest Hn Hk Hw H32. set (tks := _ :: _ :: rest).
    assert (T0 : tok_at tks 0 = Ret (mk_tok JSMN_OBJECT s e n)) by done.
    assert (T1 : tok_at tks (0 + 1) = Ret (mk_tok JSMN_STRING ks ke 1)) by done.
    unfold route_config_parse. rewrite T0. ostep. unfold is_nonempty_object, has_valid_type. cbn [tok_type tok_size].
    rewrite bool_decide_true by done. cbn [negb andb]. rewrite (proj2 (Z.eqb_neq _ _)) by lia. cbn [negb].
    destruct (Z.to_nat n) as [|m] eqn:En; [lia|]. cbn [members_loop]. rewrite T1. ostep.
    unfold is_valid_key, has_valid_type, has_valid_size. cbn [tok_type tok_start tok_end tok_size].
    rewrite bool_decide_true by done. rewrite (proj2 (Z.ltb_ge _ _)) by lia. cbn [negb andb].
    unfold copy_key. rewrite token_text_ok by done. cbn [tok_start tok_end]. ostep. by rewrite (proj2 (Z.ltb_ge _ _)) by lia.
  - intros c Hd Hp He. unfold route_config_validate. cbn [negb]. rewrite decide_False by done.
    rewrite (proj2 (Z.ltb_ge _ _)) by lia. rewrite (proj2 (Z.ltb_ge 99 _)) by lia. rewrite (proj2 (Z.ltb_ge _ 50)) by lia.
    cbn [orb]. by rewrite He.
  - intros j Hj Hb. unfold parse_json. rewrite Hbuf by done. ostep. pose proof (width_pos j). rewrite (proj2 (Z.ltb_ge _ 0)) by lia.
    unfold tenant_config_vec_parse. rewrite (tokens_at_value _ _ _ (tokens_at_all j)). ostep. unfold has_valid_type.
    assert (Hty : tok_type (head_token j) <> JSMN_ARRAY) by (by destruct j). rewrite bool_decide_false by done. cbn [negb]. ostep.
    by rewrite (proj2 (Z.eqb_neq _ _)) by lia.
  - unfold parse_json. case_decide as Hb; [by rewrite Hb|]. rewrite Hbuf by done. by ostep.
  - by vm_compute.
Qed.
End claims.

(** ** A document *)

(** Quotes are written as apostrophes here. *)
Definition demo_text : list Z :=
  (fun b => if b =? 39 then 34 else b) <$>
  bytes_of_string "[{'name':'a','port':80,'routes':[{'route':'/x','path':'m.so','relative-deadline-us':50}]}]"%string.

Definition demo_json : json :=
  JArray 0 90
    [JObject 1 89
       [((3, 7), JString 10 11);
        ((14, 18), JPrimitive 20 22);
        ((24, 30), JArray 32 88
           [JObject 33 87 [((35, 40), JString 43 45); ((48, 52), JString 55 59); ((62, 82), JPrimitive 84 86)]])]].

Definition demo_tenant : tenant_config :=
  mk_tenant_config (Some [97]) 80 0 0
    (Some [mk_route_config (Some (bytes_of_string "/x"%string)) (Some (bytes_of_string "m.so"%string)) 0 0 50 (Some text_plain)]) 1.

(** The same document, with the routes emptied. *)
Definition demo_refused : json :=
  JArray 0 90 [JObject 1 89 [((3, 7), JString 10 11); ((14, 18), JPrimitive 20 22); ((24, 30), JArray 32 88 [])]].

Lemma config_parse_spec_witness :
  parse_json false SCHEDULER_EDF demo_text (width demo_json) (tokens_of demo_json) (fun _ => true) = Ret (1, Vec [demo_tenant])
  /\ parse_json false SCHEDULER_EDF demo_text (width demo_refused) (tokens_of demo_refused) (fun _ => true) = Stop Undefined.
Proof.
  pose proof (config_parse_spec false SCHEDULER_EDF demo_text demo_json) as H1.
  pose proof (config_parse_spec false SCHEDULER_EDF demo_text demo_refused) as H2.
  assert (E1 : decode_config demo_text false SCHEDULER_EDF demo_json = Some [demo_tenant]) by (vm_compute; reflexivity).
  assert (E2 : decode_config demo_text false SCHEDULER_EDF demo_refused = None) by (vm_compute; reflexivity).
  assert (E3 : bool_decide (0 ∈ demo_text) = false) by (vm_compute; reflexivity).
  rewrite E1 in H1. rewrite E2, E3, andb_false_r in H2. split.
  - apply H1; [discriminate | vm_compute; reflexivity | vm_compute; reflexivity].
  - apply H2; [discriminate | vm_compute; reflexivity | vm_compute; reflexivity].
Defined.

Lemma config_defects_witness :
  parse_json false SCHEDULER_EDF demo_text 1 [mk_tok JSMN_ARRAY 0 90 0] (fun _ => true) = Ret (0, Vec [])
  /\ route_config_validate true SCHEDULER_EDF (mk_route_config None None 70 0 1000 None) (fun _ => true) = Stop Fpe
  /\ route_config_parse false SCHEDULER_EDF demo_text [mk_tok JSMN_OBJECT 0 90 1; mk_tok JSMN_STRING 0 40 1] (fun _ => true) zero_route_config 0
     = Stop Undefined
  /\ parse_json false SCHEDULER_EDF demo_text 1 (tokens_of (JString 3 7)) (fun _ => true) = Stop Undefined.
Proof.
  destruct (config_defects false SCHEDULER_EDF demo_text) as (Hempty & Hkey & Hzero & Hroot & _).
  split; [by apply Hempty|]. split; [apply Hzero; cbn; done || lia|]. split; [|by apply (Hroot (JString 3 7))].
  apply Hkey; [done | done | split; [lia | by vm_compute] | apply Nat.leb_le; by vm_compute].
Defined.
