(* ===== verification/Tenants.v ===== *)
(** * Tenants: from configurations to listening tenants

    [runtime/src/tenant_database.c], [runtime/src/module_database.c],
    [runtime/include/tenant_functions.h], [runtime/src/tenant.c],
    [runtime/include/tcp_server.h], and the loop of [main] that starts a tenant
    for each configuration.  What the allocator, the dynamic linker and the
    sockets answer are the records [module_env], [route_env] and [tenant_env]. *)

From Stdlib Require Import ZArith Lia.
From S2P Require Import Prelude Lock PriorityQueue PerfWindow Admissions Map Globals Module Runqueue Mtds MtdsGlobal Sandbox Http HttpSession Listener Config.
Local Open Scope Z_scope.

Definition MODULE_DATABASE_CAPACITY : nat := 128.

(** [struct tcp_server]; a socket of -1 is none. *)
Record tcp_server := mk_tcp_server { ts_port : Z; ts_socket_descriptor : Z }.

(** [struct tenant], with the databases of modules as lists of addresses. *)
Record tenant_t (L : Type) := mk_tenant_t {
  tn_name : list Z;
  tn_tcp_server : tcp_server;
  tn_router : vec (route_t L);
  tn_module_db : list Z;
  tn_scratch_storage : map L;
  tn_budget : tenant;   (* replenishment_period, max_budget, remaining_budget *)
  tn_pwt_sandboxes : option (list (perworker_tenant_sandbox_queue L));
  tn_tgrq_requests : option (tenant_global_request_queue L);
}.
Arguments mk_tenant_t {L} _ _ _ _ _ _ _ _.
Arguments tn_name {L} _.
Arguments tn_tcp_server {L} _.
Arguments tn_router {L} _.
Arguments tn_module_db {L} _.
Arguments tn_scratch_storage {L} _.
Arguments tn_budget {L} _.
Arguments tn_pwt_sandboxes {L} _.
Arguments tn_tgrq_requests {L} _.

(** Modules and tenants by address, and the database of tenants. *)
Record registry (L : Type) := mk_registry {
  rg_modules : gmap Z (module L);
  rg_tenants : gmap Z (tenant_t L);
  tenant_database : list Z;
}.
Arguments mk_registry {L} _ _ _.
Arguments rg_modules {L} _.
Arguments rg_tenants {L} _.
Arguments tenant_database {L} _.

Record module_env (L : Type) := mk_module_env {
  me_address : option Z;
  me_symbols : option abi_symbols;
  me_blank : list (module_pool L);
  me_tables : wasm_table -> outcome wasm_table;
  me_table_ok : bool;
  me_cells_ok : bool;
}.
Arguments mk_module_env {L} _ _ _ _ _ _.
Arguments me_address {L} _.
Arguments me_symbols {L} _.
Arguments me_blank {L} _.
Arguments me_tables {L} _.
Arguments me_table_ok {L} _.
Arguments me_cells_ok {L} _.

Record route_env (L : Type) := mk_route_env { re_module : module_env L; re_info : admissions_info L; re_realloc : bool }.
Arguments mk_route_env {L} _ _ _.
Arguments re_module {L} _.
Arguments re_info {L} _.
Arguments re_realloc {L} _.

(** The results of [socket], the two [setsockopt], [bind] and [listen]. *)
Record socket_env := mk_socket_env { so_socket : Z; so_reuseport : Z; so_reuseaddr : Z; so_bind : Z; so_listen : Z }.

Record tenant_env (L : Type) := mk_tenant_env {
  tv_address : option Z;
  tv_router : bool;
  tv_pwt : bool;
  tv_tgrq : bool;
  tv_uninit : Z;     (* what the memory of the request queue held where its timeout is *)
  tv_routes : list (route_env L);
  tv_socket : socket_env;
  tv_epoll_ctl : Z;
}.
Arguments mk_tenant_env {L} _ _ _ _ _ _ _ _.
Arguments tv_address {L} _.
Arguments tv_router {L} _.
Arguments tv_pwt {L} _.
Arguments tv_tgrq {L} _.
Arguments tv_uninit {L} _.
Arguments tv_routes {L} _.
Arguments tv_socket {L} _.
Arguments tv_epoll_ctl {L} _.

(** ** Servers *)

Definition tcp_server_init (port : Z) : tcp_server := mk_tcp_server port (-1).

Definition tcp_server_listen (server : tcp_server) (env : socket_env) : outcome (Z * tcp_server) :=
  let fd := so_socket env in
  if fd <? 0 then Ret (-1, server) else
  assert (negb (fd =? 0)) ;;
  assert (negb (fd =? 1)) ;;
  assert (negb (fd =? 2)) ;;
  if so_reuseport env <? 0 then Ret (-1, server) else
  if so_reuseaddr env <? 0 then Ret (-1, server) else
  if so_bind env <? 0 then Ret (-1, mk_tcp_server (ts_port server) (-1)) else
  if so_listen env <? 0 then Ret (-1, mk_tcp_server (ts_port server) (-1)) else
  Ret (0, mk_tcp_server (ts_port server) fd).

Section tenants.
Context {L : Type} `{SpinLock L}.
Variable ADMISSIONS_CONTROL : bool.
Variable scheduler : SCHEDULER.
Variable runtime_processor_speed_MHz : Z.
Variable runtime_worker_threads_count : nat.
Variable listener_thread_epoll_file_descriptor : Z.
Abbreviation Registry := (registry L).
Implicit Types rg : Registry.

(** ** The databases *)

Definition module_database_init : list Z := [].

Definition module_database_add (db : list Z) (m : Z) : outcome (Z * list Z) :=
  assert (bool_decide (length db <= MODULE_DATABASE_CAPACITY)%nat) ;;
  if decide (length db = MODULE_DATABASE_CAPACITY) then Stop Panic else Ret (0, db ++ [m]).

Fixpoint module_database_find_by_path (modules : gmap Z (module L)) (db : list Z) (path : list Z) : outcome (option Z) :=
  match db with
  | [] => Ret None
  | a :: db => m ← deref (modules !! a); if decide (mod_path m = path) then Ret (Some a) else module_database_find_by_path modules db path
  end.

Definition tenant_database_add rg (t : Z) : outcome (Z * Registry) :=
  assert (bool_decide (length (tenant_database rg) <= RUNTIME_MAX_TENANT_COUNT)%nat) ;;
  if decide (length (tenant_database rg) = RUNTIME_MAX_TENANT_COUNT) then Stop Panic
  else Ret (0, mk_registry (rg_modules rg) (rg_tenants rg) (tenant_database rg ++ [t])).

(** The loop of the four searches. *)
Fixpoint tenant_find (tenants : gmap Z (tenant_t L)) (db : list Z) (p : Z -> tenant_t L -> bool) : outcome (option Z) :=
  match db with
  | [] => Ret None
  | a :: db => t ← deref (tenants !! a); if p a t then Ret (Some a) else tenant_find tenants db p
  end.

Definition tenant_database_find_by_name rg (name : list Z) : outcome (option Z) :=
  tenant_find (rg_tenants rg) (tenant_database rg) (fun _ t => bool_decide (tn_name t = name)).

Definition tenant_database_find_by_socket_descriptor rg (fd : Z) : outcome (option Z) :=
  tenant_find (rg_tenants rg) (tenant_database rg) (fun _ t => ts_socket_descriptor (tn_tcp_server t) =? fd).

Definition tenant_database_find_by_port rg (port : Z) : outcome (option Z) :=
  tenant_find (rg_tenants rg) (tenant_database rg) (fun _ t => ts_port (tn_tcp_server t) =? port).

Definition tenant_database_find_by_ptr rg (ptr : Z) : outcome (option Z) :=
  tenant_find (rg_tenants rg) (tenant_database rg) (fun a _ => a =? ptr).

(** ** Tenants *)

Definition module_alloc (modules : gmap Z (module L)) (path : list Z) (env : module_env L) : outcome (option Z * gmap Z (module L)) :=
  match me_address env with
  | None => Ret (None, modules)
  | Some a =>
    '(rc, m) ← module_init path (me_symbols env) (me_blank env) (me_tables env) (me_table_ok env) (me_cells_ok env);
    if rc <? 0 then Ret (None, modules) else m ← deref m; Ret (Some a, <[a := m]> modules)
  end.

(** The budget, the queues of the workers and the queue of requests; -1 when the
    first allocation fails, and NULL is written through when the second does. *)
Definition tenant_policy_specific_init (config : tenant_config) (env : tenant_env L)
  : outcome (Z * (tenant * option (list (perworker_tenant_sandbox_queue L)) * option (tenant_global_request_queue L))) :=
  match scheduler with
  | SCHEDULER_MTDS =>
    let period := u64 (tc_replenishment_period_us config * runtime_processor_speed_MHz) in
    let budget := u64 (tc_max_budget_us config * runtime_processor_speed_MHz) in
    let t := mk_tenant period budget (swrap 64 budget) in
    if negb (tv_pwt env) then Ret (-1, (t, None, None)) else
    if negb (tv_tgrq env) then Stop Undefined else
    Ret (0, (t, Some (replicate runtime_worker_threads_count (pwt_init period)), Some (tgrq_init (tv_uninit env) period)))
  | _ => Ret (0, (mk_tenant 0 0 0, None, None))
  end.

(** One route: its module is looked up or loaded, and it joins the router.  The
    strings move out of the configuration. *)
Definition tenant_add_route (modules : gmap Z (module L)) (router : vec (route_t L)) (db : list Z) (c : route_config) (env : route_env L)
  : outcome (gmap Z (module L) * vec (route_t L) * list Z * route_config) :=
  path ← deref (rc_path c);
  found ← module_database_find_by_path modules db path;
  '(m, modules, db, left_path) ←
    match found with
    | Some m => Ret (Some m, modules, db, None)
    | None =>
      '(m, modules) ← module_alloc modules path (re_module env);
      match m with
      | Some m => '(_, db) ← module_database_add db m; Ret (Some m, modules, db, None)
      | None => Ret (None, modules, db, Some path)
      end
    end;
  match m with
  | None => Stop AssertFail
  | Some m =>
    '(rc, router) ← http_router_add_route ADMISSIONS_CONTROL runtime_processor_speed_MHz router c m (re_info env) (re_realloc env);
    if negb (rc =? 0) then Stop Panic else
    Ret (modules, router, db, mk_route_config None left_path (rc_admissions_percentile c) (rc_expected_execution_us c) (rc_relative_deadline_us c) None)
  end.

Fixpoint tenant_add_routes (modules : gmap Z (module L)) (router : vec (route_t L)) (db : list Z) (cs : list route_config) (envs : list (route_env L))
  : outcome (gmap Z (module L) * vec (route_t L) * list Z * list route_config) :=
  match cs, envs with
  | [], _ => Ret (modules, router, db, [])
  | c :: cs, env :: envs =>
    '(modules, router, db, c) ← tenant_add_route modules router db c env;
    '(modules, router, db, cs) ← tenant_add_routes modules router db cs envs;
    Ret (modules, router, db, c :: cs)
  | _ :: _, [] => Stop Fuel
  end.

(** [zeroed]: a route of zero bytes.  The result of the policy's part is not looked at. *)
Definition tenant_alloc (zeroed : route_t L) rg (config : tenant_config) (env : tenant_env L) : outcome (Z * Registry * tenant_config) :=
  name ← deref (tc_name config);
  existing ← tenant_database_find_by_name rg name;
  if bool_decide (existing <> None) then Stop Panic else
  existing ← tenant_database_find_by_port rg (tc_port config);
  if bool_decide (existing <> None) then Stop Panic else
  a ← deref (tv_address env);
  let router := http_router_init zeroed (mk_vec 0 0 None) (Z.to_nat (tc_routes_len config)) (tv_router env) in
  '(_, (budget, pwt, tgrq)) ← tenant_policy_specific_init config env;
  '(modules, router, db, routes) ←
    tenant_add_routes (rg_modules rg) router module_database_init (default [] (tc_routes config)) (tv_routes env);
  let t := mk_tenant_t name (tcp_server_init (tc_port config)) router db map_init budget pwt tgrq in
  Ret (a, mk_registry modules (<[a := t]> (rg_tenants rg)) (tenant_database rg),
       mk_tenant_config None (tc_port config) (tc_replenishment_period_us config) (tc_max_budget_us config)
         (option_map (fun _ => routes) (tc_routes config)) (tc_routes_len config)).

Definition listener_thread_register_tenant (epoll_ctl : Z) : outcome Z :=
  if listener_thread_epoll_file_descriptor =? 0 then Stop Panic else Ret epoll_ctl.

Definition set_server (t : tenant_t L) (server : tcp_server) : tenant_t L :=
  mk_tenant_t (tn_name t) server (tn_router t) (tn_module_db t) (tn_scratch_storage t) (tn_budget t) (tn_pwt_sandboxes t) (tn_tgrq_requests t).

(** A socket that could not be registered is closed, and its number kept. *)
Definition tenant_listen rg (a : Z) (env : tenant_env L) : outcome (Z * Registry) :=
  t ← deref (rg_tenants rg !! a);
  '(rc, server) ← tcp_server_listen (tn_tcp_server t) (tv_socket env);
  let rg := mk_registry (rg_modules rg) (<[a := set_server t server]> (rg_tenants rg)) (tenant_database rg) in
  if rc <? 0 then Ret (-1, rg) else
  rc ← listener_thread_register_tenant (tv_epoll_ctl env);
  if rc <? 0 then Ret (-1, rg) else Ret (rc, rg).

Definition route_config_deinit (c : route_config) : outcome unit :=
  assert (bool_decide (rc_route c = None)) ;;
  assert (bool_decide (rc_http_resp_content_type c = None)) ;;
  assert (bool_decide (rc_path c = None)).

Definition tenant_config_deinit (c : tenant_config) : outcome tenant_config :=
  _ ← foldr (fun r k => _ ← route_config_deinit r; k) (Ret tt) (default [] (tc_routes c));
  Ret (mk_tenant_config None (tc_port c) 0 0 None 0).

(** The loop of [main]: -1 is [exit(-1)]. *)
Fixpoint load_tenants (zeroed : route_t L) rg (configs : list tenant_config) (envs : list (tenant_env L)) : outcome (Z * Registry * list tenant_config) :=
  match configs, envs with
  | [], _ => Ret (0, rg, [])
  | c :: configs, env :: envs =>
    '(a, rg, c) ← tenant_alloc zeroed rg c env;
    '(rc, rg) ← tenant_database_add rg a;
    if rc <? 0 then Stop Panic else
    '(rc, rg) ← tenant_listen rg a env;
    if rc <? 0 then Ret (-1, rg, c :: configs) else
    '(rc, rg, configs) ← load_tenants zeroed rg configs envs;
    Ret (rc, rg, c :: configs)
  | _ :: _, [] => Stop Fuel
  end.

(** All configurations are released at the end. *)
Fixpoint deinit_all (configs : list tenant_config) : outcome unit :=
  match configs with
  | [] => Ret tt
  | c :: configs => _ ← tenant_config_deinit c; deinit_all configs
  end.

Definition start_tenants (zeroed : route_t L) rg (configs : list tenant_config) (envs : list (tenant_env L)) : outcome (Z * Registry) :=
  '(rc, rg, configs) ← load_tenants zeroed rg configs envs;
  if rc <? 0 then Ret (-1, rg) else
  _ ← deinit_all configs;
  Ret (0, rg).

(** [main] from the text of the configuration to the end of the loops; what the
    tokenizer found are [total_tokens] and [tokens]. *)
Definition configure_tenants (zeroed : route_t L) rg (json_buf : list Z) (total_tokens : Z) (tokens : list jsmntok) (alloc : Z -> bool)
    (envs : list (tenant_env L)) : outcome (Z * Registry) :=
  if decide (json_buf = []) then Stop Panic else
  '(tenant_config_vec_len, vec) ← parse_json ADMISSIONS_CONTROL scheduler json_buf total_tokens tokens alloc;
  if tenant_config_vec_len <? 0 then Ret (-1, rg) else
  match vec with
  | Vec configs => start_tenants zeroed rg (take (Z.to_nat tenant_config_vec_len) configs) envs
  | _ => Stop Undefined
  end.
End tenants.
