(* ===== verification/TenantsSpec.v ===== *)
(** * TenantsSpec: every configured tenant is started

    From configurations with distinct names and ports and an environment that
    grants what is asked for, the start-up loop makes one listening tenant per
    configuration, whose router has the configured routes with the modules of
    their paths; a repeated name or port stops it. *)

From Stdlib Require Import ZArith Lia.
From S2P Require Import Prelude Lock PriorityQueue PerfWindow Admissions Map Globals Module Runqueue Mtds MtdsGlobal Sandbox Http HttpSession Listener ListenerSpec Config ConfigSpec Tenants.
Local Open Scope Z_scope.

Section spec.
Context {L : Type} `{SpinLock L}.
Variable scheduler : SCHEDULER.
Variable runtime_processor_speed_MHz : Z.
Variable runtime_worker_threads_count : nat.
Variable epoll_fd : Z.
Hypothesis epoll_ready : epoll_fd <> 0.
Abbreviation Registry := (registry L).
Abbreviation Modules := (gmap Z (module L)).
Implicit Types rg : Registry.

(** ** Modules *)

Definition mpath (modules : Modules) (a : Z) : option (list Z) := mod_path <$> modules !! a.

(** The database holds modules with the paths [ps], each once. *)
Definition db_ok (modules : Modules) (db : list Z) (ps : list (list Z)) : Prop :=
  NoDup ps /\ (mpath modules <$> db) = Some <$> ps.

Lemma db_ok_length modules db ps : db_ok modules db ps -> length db = length ps.
Proof. intros [_ E]. apply (f_equal length) in E. by rewrite !length_fmap in E. Qed.

Lemma find_by_path_ok modules path : forall db ps, (mpath modules <$> db) = Some <$> ps ->
  (exists k a, db !! k = Some a /\ ps !! k = Some path /\ module_database_find_by_path modules db path = Ret (Some a))
  \/ ((path ∉ ps) /\ module_database_find_by_path modules db path = Ret None).
Proof.
  induction db as [|a db IH]; intros [|p ps]; cbn; try done; [right; split; [apply not_elem_of_nil|done]|].
  intros [= Ea Edb]. unfold mpath in Ea. destruct (modules !! a) as [m|]; [|done]. cbn in Ea. injection Ea as <-. ostep. case_decide as Hp.
  - left. exists 0%nat, a. by subst.
  - destruct (IH ps Edb) as [(k & b & E1 & E2 & E3)|[Hn E]]; [left; by exists (S k), b|]. right. split; [|done].
    apply not_elem_of_cons. split; [congruence|done].
Qed.

(** An allocation for a module that succeeds. *)
Definition module_env_ok (env : module_env L) (a : Z) : Prop :=
  me_address env = Some a /\ is_Some (me_symbols env) /\ me_table_ok env = true /\ me_cells_ok env = true
  /\ forall t, exists t', me_tables env t = Ret t'.

Lemma module_alloc_ok (modules : Modules) path env a :
  module_env_ok env a -> path <> [] ->
  exists m, module_alloc modules path env = Ret (Some a, <[a := m]> modules) /\ mod_path m = path.
Proof.
  intros (Ea & [sy Es] & Et & Ec & Htab) Hp. unfold module_alloc. rewrite Ea. unfold module_init.
  rewrite assert_true by (by rewrite bool_decide_false). ostep. rewrite Es. unfold module_alloc_table. rewrite Et, Ec.
  destruct (wasm_table_alloc INDIRECT_TABLE_SIZE true true) as [t|].
  - destruct (Htab t) as [t' ->]. ostep. by eexists.
  - ostep. by eexists.
Qed.

(** ** Routes *)

(** A configured route that can be added. *)
Definition route_loadable (c : route_config) (path : list Z) : Prop :=
  is_Some (rc_route c) /\ rc_path c = Some path /\ path <> [] /\ is_Some (rc_http_resp_content_type c).

(** The route of a tenant as configured, with a module of its path. *)
Definition route_started (modules : Modules) (db : list Z) (r : route_t L) (c : route_config) : Prop :=
  rc_route c = Some (r_route r) /\ rc_http_resp_content_type c = Some (r_response_content_type r)
  /\ r_relative_deadline_us r = rc_relative_deadline_us c
  /\ relative_deadline (r_worker r) = u64 (rc_relative_deadline_us c * runtime_processor_speed_MHz)
  /\ (exists path, rc_path c = Some path /\ mpath modules (r_module r) = Some path) /\ r_module r ∈ db.

Definition route_env_ok (env : route_env L) (a : Z) : Prop := module_env_ok (re_module env) a /\ re_realloc env = true.

(** Nothing left that the release of the configuration would refuse. *)
Definition released (c : route_config) : Prop := rc_route c = None /\ rc_path c = None /\ rc_http_resp_content_type c = None.

Lemma router_add_ok router rs c m info :
  vec_repr router rs -> is_Some (rc_route c) -> is_Some (rc_http_resp_content_type c) ->
  exists router' r, http_router_add_route false runtime_processor_speed_MHz router c m info true = Ret (0, router')
    /\ vec_repr router' (rs ++ [r]) /\ r_module r = m
    /\ rc_route c = Some (r_route r) /\ rc_http_resp_content_type c = Some (r_response_content_type r)
    /\ r_relative_deadline_us r = rc_relative_deadline_us c
    /\ relative_deadline (r_worker r) = u64 (rc_relative_deadline_us c * runtime_processor_speed_MHz).
Proof.
  intros R [path Er] [ct Ec]. unfold http_router_add_route. rewrite Er, Ec. cbn [admissions_info_initialize]. ostep.
  match goal with |- context [vec_push router ?x true] => set (r := x) end.
  destruct (vec_push_ok router rs r R) as (router' & -> & R'). ostep. by exists router', r.
Qed.

Lemma mpath_insert (modules : Modules) a m b : modules !! a = None -> mpath modules b <> None -> mpath (<[a := m]> modules) b = mpath modules b.
Proof.
  intros Ha Hb. unfold mpath in *. destruct (decide (b = a)) as [->|Hne]; [by rewrite Ha in Hb|]. by rewrite lookup_insert_ne.
Qed.

Lemma db_ok_insert (modules : Modules) db ps a m :
  modules !! a = None -> db_ok modules db ps -> db_ok (<[a := m]> modules) db ps.
Proof.
  intros Ha [Hnd E]. split; [done|]. rewrite <- E. apply list_fmap_ext. intros k b Hb. apply mpath_insert; [done|].
  apply (f_equal (fun l => l !! k)) in E. rewrite !list_lookup_fmap, Hb in E. cbn in E.
  destruct (ps !! k); [|done]. cbn in E. injection E as ->. done.
Qed.

(** The modules of one route later: those before are kept, and at most [a] is new. *)
Definition grown (modules modules' : Modules) (new : list Z) : Prop :=
  modules ⊆ modules' /\ forall b, is_Some (modules' !! b) -> is_Some (modules !! b) \/ b ∈ new.

Lemma add_route_started modules router rs db ps c path env a :
  db_ok modules db ps -> vec_repr router rs -> route_loadable c path -> route_env_ok env a -> modules !! a = None ->
  (size (list_to_set (path :: ps) : gset (list Z)) <= MODULE_DATABASE_CAPACITY)%nat ->
  exists modules' router' db' ps' r c', tenant_add_route false runtime_processor_speed_MHz modules router db c env = Ret (modules', router', db', c')
    /\ db_ok modules' db' ps' /\ (list_to_set ps' : gset (list Z)) = list_to_set (path :: ps) /\ db `prefix_of` db'
    /\ vec_repr router' (rs ++ [r]) /\ route_started modules' db' r c /\ released c' /\ grown modules modules' [a].
Proof.
  intros Hdb Hr (Hro & Hpa & Hne & Hct) [Hm Hre] Ha Hsz. unfold tenant_add_route. rewrite Hpa. ostep. pose proof Hdb as [Hnd Eps].
  destruct (find_by_path_ok modules path db ps Eps) as [(k & b & Eb & Ep & ->)|[Hnp ->]]; ostep.
  - destruct (router_add_ok router rs c b (re_info env) Hr Hro Hct) as (router' & r & E & Hr' & Em & H1 & H2 & H3 & H4).
    rewrite Hre, E. ostep. cbn [negb Z.eqb]. eexists modules, router', db, ps, r, _. split; [done|]. split; [done|].
    split; [|split; [done|]; split; [done|]; split; [|split; [done|]]].
    + cbn. apply list_elem_of_lookup_2 in Ep. assert (Hin : path ∈ (list_to_set ps : gset (list Z))) by (by apply elem_of_list_to_set).
      symmetry. apply subseteq_union_1_L. by intros x ->%elem_of_singleton.
    + split; [done|]. split; [done|]. split; [done|]. split; [done|]. rewrite Em. split; [exists path; split; [done|]|by eapply list_elem_of_lookup_2].
      apply (f_equal (fun l => l !! k)) in Eps. rewrite !list_lookup_fmap, Eb, Ep in Eps. cbn in Eps. congruence.
    + split; [done|]. by left.
  - destruct (module_alloc_ok modules path (re_module env) a Hm Hne) as (m & -> & Emp). ostep.
    assert (Hlen : (length ps < MODULE_DATABASE_CAPACITY)%nat).
    { rewrite size_list_to_set in Hsz by (by constructor). cbn in Hsz. lia. }
    unfold module_database_add. rewrite (db_ok_length _ _ _ Hdb). rewrite assert_true by (apply bool_decide_true; lia). ostep.
    rewrite decide_False by lia. ostep.
    destruct (router_add_ok router rs c a (re_info env) Hr Hro Hct) as (router' & r & E & Hr' & Em & H1 & H2 & H3 & H4).
    rewrite Hre, E. ostep. cbn [negb Z.eqb]. eexists _, router', (db ++ [a]), (ps ++ [path]), r, _. split; [done|].
    split; [|split; [|split; [by apply prefix_app_r|]; split; [done|]; split; [|split; [done|]]]].
    + destruct (db_ok_insert modules db ps a m Ha Hdb) as [_ E']. split.
      * apply list.NoDup_app. split; [done|]. split; [|by apply list.NoDup_singleton]. intros x Hx ->%list_elem_of_singleton. done.
      * rewrite !fmap_app, E'. cbn. unfold mpath. rewrite lookup_insert_eq. cbn. by rewrite Emp.
    + rewrite list_to_set_app_L. cbn. rewrite (right_id_L ∅ (∪)). apply (comm_L (∪)).
    + split; [done|]. split; [done|]. split; [done|]. split; [done|]. rewrite Em. split.
      * exists path. split; [done|]. unfold mpath. rewrite lookup_insert_eq. cbn. congruence.
      * apply elem_of_app. right. by left.
    + split; [by apply insert_subseteq|]. intros b Hb. destruct (decide (b = a)) as [->|Hne']; [right; by left|].
      rewrite lookup_insert_ne in Hb by done. by left.
Qed.

Lemma mpath_mono (modules modules' : Modules) a p : modules ⊆ modules' -> mpath modules a = Some p -> mpath modules' a = Some p.
Proof.
  intros Hm. unfold mpath. destruct (modules !! a) as [m|] eqn:E; [|done]. by rewrite (lookup_weaken _ _ _ _ E Hm).
Qed.

Lemma route_started_mono (modules modules' : Modules) db db' r c :
  modules ⊆ modules' -> db `prefix_of` db' -> route_started modules db r c -> route_started modules' db' r c.
Proof.
  intros Hm [k ->] (H1 & H2 & H3 & H4 & (p & Hp & H5) & H6). do 4 (split; [done|]). split.
  - exists p. split; [done|]. by eapply mpath_mono.
  - apply elem_of_app. by left.
Qed.

Lemma add_routes_started cs : forall modules router rs db ps paths envs addrs,
  db_ok modules db ps -> vec_repr router rs -> Forall2 route_loadable cs paths -> Forall2 route_env_ok envs addrs ->
  length cs = length envs -> NoDup addrs -> Forall (fun a => modules !! a = None) addrs ->
  (size (list_to_set (paths ++ ps) : gset (list Z)) <= MODULE_DATABASE_CAPACITY)%nat ->
  exists modules' router' db' ps' rs' cs', tenant_add_routes false runtime_processor_speed_MHz modules router db cs envs = Ret (modules', router', db', cs')
    /\ db_ok modules' db' ps' /\ db `prefix_of` db' /\ vec_repr router' (rs ++ rs') /\ Forall2 (route_started modules' db') rs' cs
    /\ Forall released cs' /\ grown modules modules' addrs.
Proof.
  induction cs as [|c cs IH]; intros modules router rs db ps paths envs addrs Hdb Hr Hcs Henv Hlen Hnd Hfresh Hsz.
  { exists modules, router, db, ps, [], []. split; [by destruct envs|]. split; [done|]. split; [done|]. rewrite app_nil_r.
    split; [done|]. split; [constructor|]. split; [constructor|]. split; [done|]. by left. }
  destruct envs as [|env envs]; [done|]. inversion Hcs as [|? path ? paths' Hc Hcs']; subst. inversion Henv as [|? a ? addrs' He Henv']; subst.
  inversion Hnd as [|? ? Hni Hnd']; subst. inversion Hfresh as [|? ? Ha Hfresh']; subst.
  cbn [tenant_add_routes]. cbn [app] in Hsz. rewrite list_to_set_cons, list_to_set_app_L in Hsz.
  destruct (add_route_started modules router rs db ps c path env a Hdb Hr Hc He Ha) as
    (modules1 & router1 & db1 & ps1 & r & c' & -> & Hdb1 & Eps & Hpre & Hr1 & Hst & Hrel & [Hsub Hnew]).
  { etrans; [|exact Hsz]. apply subseteq_size. rewrite list_to_set_cons. apply union_mono_l, union_subseteq_r. }
  assert (Hfresh1 : Forall (fun b => modules1 !! b = None) addrs').
  { apply List.Forall_forall. intros b Hb. rewrite List.Forall_forall in Hfresh'. specialize (Hfresh' b Hb).
    destruct (modules1 !! b) as [m|] eqn:E; [|done]. destruct (Hnew b ltac:(eauto)) as [[m' E']|Hin]; [congruence|].
    apply list_elem_of_singleton in Hin as ->. apply list_elem_of_In in Hb. done. }
  ostep. destruct (IH modules1 router1 (rs ++ [r]) db1 ps1 paths' envs addrs' Hdb1 Hr1 Hcs' Henv' ltac:(by injection Hlen) Hnd' Hfresh1)
    as (modules2 & router2 & db2 & ps2 & rs2 & cs2 & -> & Hdb2 & Hpre2 & Hr2 & Hst2 & Hrel2 & [Hsub2 Hnew2]).
  { etrans; [|exact Hsz]. apply subseteq_size. rewrite list_to_set_app_L, Eps, list_to_set_cons.
    intros x. rewrite !elem_of_union. tauto. }
  ostep. exists modules2, router2, db2, ps2, (r :: rs2), (c' :: cs2). split; [done|]. split; [done|]. split; [by etrans|].
  rewrite <- app_assoc in Hr2. split; [done|]. split; [constructor; [|done]|].
  - by eapply route_started_mono.
  - split; [by constructor|]. split; [by etrans|]. intros b Hb. destruct (Hnew2 b Hb) as [Hb1|Hin]; [|right; by right].
    destruct (Hnew b Hb1) as [?|Hin]; [by left|]. right. apply list_elem_of_singleton in Hin as ->. by left.
Qed.

(** ** Tenants *)

Definition socket_ok (so : socket_env) : Prop :=
  3 <= so_socket so /\ 0 <= so_reuseport so /\ 0 <= so_reuseaddr so /\ 0 <= so_bind so /\ 0 <= so_listen so.

(** Everything a tenant asks for is granted: itself at the address [x.1], modules
    at the addresses [x.2], if they are needed. *)
Definition tenant_env_ok (c : tenant_config) (env : tenant_env L) (x : Z * list Z) : Prop :=
  tv_address env = Some x.1 /\ tv_router env = true /\ tv_pwt env = true /\ tv_tgrq env = true
  /\ Forall2 route_env_ok (tv_routes env) x.2 /\ length (default [] (tc_routes c)) = length (tv_routes env)
  /\ socket_ok (tv_socket env) /\ 0 <= tv_epoll_ctl env.

Definition config_loadable (c : tenant_config) : Prop :=
  is_Some (tc_name c) /\ exists routes paths, tc_routes c = Some routes /\ Forall2 route_loadable routes paths
    /\ (size (list_to_set paths : gset (list Z)) <= MODULE_DATABASE_CAPACITY)%nat.

Definition policy_started (t : tenant_t L) (c : tenant_config) : Prop :=
  scheduler = SCHEDULER_MTDS ->
  let period := u64 (tc_replenishment_period_us c * runtime_processor_speed_MHz) in
  let budget := u64 (tc_max_budget_us c * runtime_processor_speed_MHz) in
  tn_budget t = mk_tenant period budget (swrap 64 budget)
  /\ tn_pwt_sandboxes t = Some (replicate runtime_worker_threads_count (pwt_init period)) /\ exists uninit, tn_tgrq_requests t = Some (tgrq_init uninit period).

(** A tenant as configured, with the socket [fd]. *)
Definition tenant_started (modules : Modules) (fd : Z -> Prop) (t : tenant_t L) (c : tenant_config) : Prop :=
  tc_name c = Some (tn_name t) /\ ts_port (tn_tcp_server t) = tc_port c /\ fd (ts_socket_descriptor (tn_tcp_server t))
  /\ tn_scratch_storage t = map_init /\ policy_started t c
  /\ exists rs ps, vec_repr (tn_router t) rs /\ Forall2 (route_started modules (tn_module_db t)) rs (default [] (tc_routes c))
     /\ db_ok modules (tn_module_db t) ps.

Definition tenant_released (c : tenant_config) : Prop := Forall released (default [] (tc_routes c)).

Definition listening (fd : Z) : Prop := 3 <= fd.

(** The tenants of the database, in the order of their configurations. *)
Definition started rg (cs : list tenant_config) : Prop :=
  Forall2 (fun a c => exists t, rg_tenants rg !! a = Some t /\ tenant_started (rg_modules rg) listening t c) (tenant_database rg) cs.

Lemma db_ok_mono modules modules' db ps : modules ⊆ modules' -> db_ok modules db ps -> db_ok modules' db ps.
Proof.
  intros Hm [Hnd E]. split; [done|]. rewrite <- E. apply list_fmap_ext. intros k b Hb.
  apply (f_equal (fun l => l !! k)) in E. rewrite !list_lookup_fmap, Hb in E. cbn in E. destruct (ps !! k) as [p|]; [|done].
  cbn in E. injection E as E. rewrite E. by eapply mpath_mono.
Qed.

Lemma tenant_started_mono modules modules' fd t c : modules ⊆ modules' -> tenant_started modules fd t c -> tenant_started modules' fd t c.
Proof.
  intros Hm (H1 & H2 & H3 & H4 & H5 & rs & ps & R & Hrs & Hdb). do 5 (split; [done|]). exists rs, ps. split; [done|].
  split; [|by eapply db_ok_mono]. eapply list.Forall2_impl; [exact Hrs|]. intros r c' Hs. by eapply route_started_mono.
Qed.

Lemma policy_init_ok c env x :
  tenant_env_ok c env x ->
  exists budget pwt tgrq, tenant_policy_specific_init scheduler runtime_processor_speed_MHz runtime_worker_threads_count c env
      = Ret (0, (budget, pwt, tgrq))
    /\ forall name server router db storage, policy_started (mk_tenant_t name server router db storage budget pwt tgrq) c.
Proof.
  intros (_ & _ & Hp & Hg & _). unfold tenant_policy_specific_init, policy_started.
  destruct scheduler; [by eexists _, _, _ | by eexists _, _, _ | | by eexists _, _, _]. rewrite Hp, Hg. cbn [negb].
  eexists _, _, _. split; [done|]. intros name server router db storage _. do 2 (split; [done|]). by exists (tv_uninit env).
Qed.

(** A search finds the first tenant with the property. *)
Lemma tenant_find_ok (tenants : gmap Z (tenant_t L)) p : forall db, Forall (fun a => is_Some (tenants !! a)) db ->
  (exists k a t, db !! k = Some a /\ tenants !! a = Some t /\ p a t = true /\ tenant_find tenants db p = Ret (Some a))
  \/ (tenant_find tenants db p = Ret None /\ forall k a t, db !! k = Some a -> tenants !! a = Some t -> p a t = false).
Proof.
  induction db as [|a db IH]; intros Hall; cbn [tenant_find]; [by right|]. apply list.Forall_cons in Hall as [[t Et] Hall].
  rewrite Et. cbn [deref]. ostep. destruct (p a t) eqn:Ep; [left; by exists 0%nat, a, t|].
  destruct (IH Hall) as [(k & b & u & E1 & E2 & E3 & E4)|[E Hno]]; [left; by exists (S k), b, u|]. right. split; [done|].
  intros [|k] b u; cbn; [|by apply Hno]. intros [= <-] Eu. rewrite Et in Eu. by injection Eu as <-.
Qed.

Lemma started_known rg cs : started rg cs -> Forall (fun a => is_Some (rg_tenants rg !! a)) (tenant_database rg).
Proof. intros S. unfold started in S. induction S as [|a c db cs (t & Et & _)]; constructor; eauto. Qed.

(** Looking for a value of [f], which all started tenants have as their
    configuration says. *)
Lemma search_ok {A} `{EqDecision A} rg cs (f : tenant_t L -> A) (g : tenant_config -> A) (v : A) (p : Z -> tenant_t L -> bool) :
  started rg cs -> (forall t c, tenant_started (rg_modules rg) listening t c -> f t = g c) ->
  (forall a t, p a t = bool_decide (f t = v)) ->
  (exists k a, (g <$> cs) !! k = Some v /\ tenant_database rg !! k = Some a
     /\ tenant_find (rg_tenants rg) (tenant_database rg) p = Ret (Some a))
  \/ ((v ∉ (g <$> cs)) /\ tenant_find (rg_tenants rg) (tenant_database rg) p = Ret None).
Proof.
  intros S Hfg Hp. destruct (tenant_find_ok (rg_tenants rg) p (tenant_database rg) (started_known rg cs S)) as [(k & a & t & E1 & E2 & E3 & E4)|[E Hno]].
  - left. exists k, a. split; [|done]. destruct (Forall2_lookup_l _ _ _ _ _ S E1) as (c & Ec & u & Eu & Hs).
    rewrite list_lookup_fmap, Ec. cbn. rewrite Hp, bool_decide_eq_true in E3. rewrite E2 in Eu. injection Eu as <-. rewrite <- (Hfg t c Hs). by rewrite E3.
  - right. split; [|done]. intros (c & -> & (k & Ec)%list_elem_of_lookup)%list_elem_of_fmap.
    destruct (Forall2_lookup_r _ _ _ _ _ S Ec) as (a & Ea & t & Et & Hs). pose proof (Hno k a t Ea Et) as Hf.
    rewrite Hp, bool_decide_eq_false in Hf. by apply Hf, Hfg.
Qed.

Lemma find_name_ok rg cs name :
  started rg cs ->
  (exists k a, (tc_name <$> cs) !! k = Some (Some name) /\ tenant_database rg !! k = Some a /\ tenant_database_find_by_name rg name = Ret (Some a))
  \/ ((Some name ∉ (tc_name <$> cs)) /\ tenant_database_find_by_name rg name = Ret None).
Proof.
  intros S. apply (search_ok rg cs (fun t => Some (tn_name t)) tc_name (Some name) _ S).
  - by intros t c (-> & _).
  - intros _ t. apply bool_decide_ext. split; congruence.
Qed.

Lemma find_port_ok rg cs port :
  started rg cs ->
  (exists k a, (tc_port <$> cs) !! k = Some port /\ tenant_database rg !! k = Some a /\ tenant_database_find_by_port rg port = Ret (Some a))
  \/ ((port ∉ (tc_port <$> cs)) /\ tenant_database_find_by_port rg port = Ret None).
Proof.
  intros S. apply (search_ok rg cs (fun t => ts_port (tn_tcp_server t)) tc_port port _ S).
  - by intros t c (_ & -> & _).
  - intros _ t. destruct (Z.eqb_spec (ts_port (tn_tcp_server t)) port); symmetry; [by apply bool_decide_true | by apply bool_decide_false].
Qed.

Variable zeroed : route_t L.
Abbreviation alloc := (tenant_alloc false scheduler runtime_processor_speed_MHz runtime_worker_threads_count zeroed).

Definition fresh_addresses rg (x : Z * list Z) : Prop :=
  rg_tenants rg !! x.1 = None /\ NoDup x.2 /\ Forall (fun a => rg_modules rg !! a = None) x.2.

Definition distinct_from (cs : list tenant_config) (c : tenant_config) : Prop :=
  (tc_name c ∉ (tc_name <$> cs)) /\ (tc_port c ∉ (tc_port <$> cs)).

Lemma alloc_started rg cs c env x :
  started rg cs -> config_loadable c -> tenant_env_ok c env x -> fresh_addresses rg x -> distinct_from cs c ->
  exists modules t c', alloc rg c env = Ret (x.1, mk_registry modules (<[x.1 := t]> (rg_tenants rg)) (tenant_database rg), c')
    /\ grown (rg_modules rg) modules x.2 /\ tenant_started modules (eq (-1)) t c /\ tenant_released c'.
Proof.
  intros S ([name En] & routes & paths & Er & Hl & Hsz) Henv (Hfa & Hnd & Hfm) [Hn Hp]. unfold tenant_alloc. rewrite En. ostep.
  destruct (find_name_ok rg cs name S) as [(k & a & Ek & _)|[_ ->]]; [destruct Hn; rewrite En; by eapply list_elem_of_lookup_2|]. ostep.
  rewrite bool_decide_false by (by intros ?).
  destruct (find_port_ok rg cs (tc_port c) S) as [(k & a & Ek & _)|[_ ->]]; [destruct Hp; by eapply list_elem_of_lookup_2|]. ostep.
  rewrite bool_decide_false by (by intros ?).
  destruct (policy_init_ok c env x Henv) as (budget & pwt & tgrq & Epol & Hpol).
  destruct Henv as (Ea & Hro & _ & _ & Hroutes & Hlen & _). rewrite Ea. ostep. rewrite Epol. ostep. rewrite Hro, Er. cbn [default id].
  rewrite Er in Hlen. cbn [default id] in Hlen.
  destruct (add_routes_started routes (rg_modules rg) (http_router_init zeroed (mk_vec 0 0 None) (Z.to_nat (tc_routes_len c)) true) []
              module_database_init [] paths (tv_routes env) x.2) as (modules & router & db & ps & rs & routes' & -> & Hdb & _ & R & Hrs & Hrel & Hg);
    try done.
  { split; [constructor|done]. }
  { unfold http_router_init. destruct (vec_init _ _ _ true) as [rc v'] eqn:E. apply (vec_init_repr zeroed (mk_vec 0 0 None) (Z.to_nat (tc_routes_len c)) true).
    rewrite E. unfold vec_init in E. case_decide; by injection E as <- <-. }
  { by rewrite app_nil_r. }
  ostep. eexists modules, _, _. split; [done|]. split; [done|]. split; [|done].
  split; [done|]. split; [done|]. split; [done|]. split; [done|]. split; [apply Hpol|]. exists rs, ps. by rewrite Er.
Qed.

Lemma alloc_refused rg cs c env x :
  started rg cs -> config_loadable c -> tenant_env_ok c env x -> ~ distinct_from cs c -> alloc rg c env = Stop Panic.
Proof.
  intros S ([name En] & _) Henv Hd. unfold tenant_alloc. rewrite En. ostep.
  destruct (find_name_ok rg cs name S) as [(k & a & _ & _ & ->)|[Hn ->]]; ostep; [by rewrite bool_decide_true|].
  rewrite bool_decide_false by (by intros ?).
  destruct (find_port_ok rg cs (tc_port c) S) as [(k & a & _ & _ & ->)|[Hp _]]; ostep; [by rewrite bool_decide_true|].
  destruct Hd. split; [by rewrite En | done].
Qed.

Lemma listen_started rg c env x t :
  tenant_env_ok c env x -> rg_tenants rg !! x.1 = Some t -> tenant_started (rg_modules rg) (eq (-1)) t c ->
  exists rc t', tenant_listen epoll_fd rg x.1 env = Ret (rc, mk_registry (rg_modules rg) (<[x.1 := t']> (rg_tenants rg)) (tenant_database rg))
    /\ 0 <= rc /\ tenant_started (rg_modules rg) listening t' c.
Proof.
  intros (_ & _ & _ & _ & _ & _ & (H0 & H1 & H2 & H3 & H4) & Hep) Et (S1 & S2 & S3 & S4). unfold tenant_listen. rewrite Et. ostep.
  unfold tcp_server_listen. rewrite (proj2 (Z.ltb_ge _ _)) by lia.
  rewrite !assert_true by (apply negb_true_iff, Z.eqb_neq; lia). ostep.
  rewrite (proj2 (Z.ltb_ge (so_reuseport _) _)), (proj2 (Z.ltb_ge (so_reuseaddr _) _)), (proj2 (Z.ltb_ge (so_bind _) _)),
    (proj2 (Z.ltb_ge (so_listen _) _)) by lia. ostep. cbn [Z.ltb Z.compare].
  unfold listener_thread_register_tenant. rewrite (proj2 (Z.eqb_neq _ _)) by done. ostep. rewrite (proj2 (Z.ltb_ge _ _)) by lia.
  eexists _, _. split; [done|]. split; [done|]. by split; [|split; [|split]].
Qed.

(** ** The loop *)

Definition xs_fresh rg (xs : list (Z * list Z)) : Prop :=
  NoDup xs.*1 /\ NoDup (concat xs.*2) /\ Forall (fun a => rg_tenants rg !! a = None) xs.*1
  /\ Forall (fun a => rg_modules rg !! a = None) (concat xs.*2).

Definition distinct (cs : list tenant_config) : Prop := NoDup (tc_name <$> cs) /\ NoDup (tc_port <$> cs).

#[local] Instance distinct_dec cs : Decision (distinct cs).
Proof. unfold distinct. apply _. Defined.

#[local] Instance distinct_from_dec cs c : Decision (distinct_from cs c).
Proof. unfold distinct_from. apply _. Defined.

Lemma distinct_snoc cs c : distinct (cs ++ [c]) <-> distinct cs /\ distinct_from cs c.
Proof.
  unfold distinct, distinct_from. rewrite !fmap_app. cbn. rewrite !list.NoDup_app. setoid_rewrite list_elem_of_singleton. split.
  - intros [(H1 & H2 & _) (H3 & H4 & _)]. split; [done|]. split; intros Hin; [by apply (H2 _ Hin) | by apply (H4 _ Hin)].
  - intros [[H1 H2] [H3 H4]]. split; (split; [done|]; split; [intros x Hx ->; done | by apply list.NoDup_singleton]).
Qed.

Lemma distinct_prefix cs cs' : distinct (cs ++ cs') -> distinct cs.
Proof. unfold distinct. rewrite !fmap_app, !list.NoDup_app. tauto. Qed.

Lemma started_next rg cs c modules t t' a :
  started rg cs -> rg_tenants rg !! a = None -> rg_modules rg ⊆ modules -> tenant_started modules listening t' c ->
  started (mk_registry modules (<[a := t']> (<[a := t]> (rg_tenants rg))) (tenant_database rg ++ [a])) (cs ++ [c]).
Proof.
  intros S Ha Hm Ht. unfold started. cbn. apply Forall2_app.
  - eapply list.Forall2_impl; [exact S|]. intros b c0 (u & Eu & Hu). exists u. split; [|by eapply tenant_started_mono].
    assert (b <> a) by congruence. by rewrite !lookup_insert_ne.
  - constructor; [|constructor]. exists t'. by rewrite lookup_insert_eq.
Qed.

Lemma xs_fresh_next rg x xs modules t t' :
  xs_fresh rg (x :: xs) -> grown (rg_modules rg) modules x.2 ->
  xs_fresh (mk_registry modules (<[x.1 := t']> (<[x.1 := t]> (rg_tenants rg))) (tenant_database rg ++ [x.1])) xs.
Proof.
  intros (H1 & H2 & H3 & H4) [_ Hg]. cbn in H1, H2, H3, H4. inversion H1 as [|? ? Hn1 Hnd1]; subst. apply list.NoDup_app in H2 as (_ & Hdis & Hnd2).
  inversion H3 as [|? ? _ Hf]; subst. apply Forall_app in H4 as [_ Hfm]. split; [done|]. split; [done|]. cbn. split.
  - apply List.Forall_forall. intros a Ha. rewrite List.Forall_forall in Hf.
    assert (a <> x.1) by (intros ->; apply Hn1; by apply list_elem_of_In). rewrite !lookup_insert_ne by done. by apply Hf.
  - apply List.Forall_forall. intros a Ha. rewrite List.Forall_forall in Hfm. destruct (modules !! a) as [m|] eqn:E; [|done].
    destruct (Hg a ltac:(eauto)) as [[m' Em]|Hin]; [by rewrite Hfm in Em|]. apply list_elem_of_In in Ha. by destruct (Hdis a Hin).
Qed.

Abbreviation load := (load_tenants false scheduler runtime_processor_speed_MHz runtime_worker_threads_count epoll_fd zeroed).

Lemma load_started cs : forall rg cs0 envs xs,
  started rg cs0 -> Forall config_loadable cs -> Forall3 tenant_env_ok cs envs xs -> xs_fresh rg xs -> distinct cs0 ->
  (length (cs0 ++ cs) <= RUNTIME_MAX_TENANT_COUNT)%nat ->
  if decide (distinct (cs0 ++ cs))
  then exists rg' cs', load rg cs envs = Ret (0, rg', cs') /\ started rg' (cs0 ++ cs) /\ Forall tenant_released cs'
  else load rg cs envs = Stop Panic.
Proof.
  induction cs as [|c cs IH]; intros rg cs0 envs xs S Hl Henv Hx Hd Hlen.
  { rewrite app_nil_r, decide_True by done. exists rg, []. split; [by destruct envs|]. split; [done|constructor]. }
  inversion Henv as [|? env x ? envs' xs' He Henv']; subst. inversion Hl as [|? ? Hc Hl']; subst. cbn [load_tenants].
  destruct (decide (distinct_from cs0 c)) as [Hdc|Hdc].
  - pose proof Hx as (_ & Hnd & Hft & Hfm). cbn in Hnd, Hft, Hfm. apply list.NoDup_app in Hnd as (Hnd & _). apply Forall_app in Hfm as [Hfm _].
    inversion Hft as [|? ? Hfa _]; subst.
    destruct (alloc_started rg cs0 c env x S Hc He ltac:(by split) Hdc) as (modules & t & c' & -> & Hg & Ht & Hrel). ostep.
    unfold tenant_database_add. cbn [tenant_database rg_modules rg_tenants]. pose proof (Forall2_length S) as Hdb.
    rewrite length_app in Hlen. cbn in Hlen. rewrite assert_true by (apply bool_decide_true; lia). ostep.
    rewrite (decide_False (P := length (tenant_database rg) = RUNTIME_MAX_TENANT_COUNT)) by lia. ostep. cbn [Z.ltb Z.compare].
    destruct (listen_started (mk_registry modules (<[x.1 := t]> (rg_tenants rg)) (tenant_database rg ++ [x.1])) c env x t He
                ltac:(cbn; apply lookup_insert_eq) Ht) as (rc & t' & -> & Hrc & Ht'). ostep.
    rewrite (proj2 (Z.ltb_ge rc 0)) by lia. cbn [rg_modules rg_tenants tenant_database] in *.
    specialize (IH _ (cs0 ++ [c]) envs' xs' (started_next rg cs0 c modules t t' x.1 S Hfa (proj1 Hg) Ht') Hl' Henv' (xs_fresh_next rg x xs' modules t t' Hx Hg)
             (proj2 (distinct_snoc cs0 c) (conj Hd Hdc)) ltac:(rewrite !length_app; cbn; lia)).
    rewrite <- app_assoc in IH. cbn [app] in IH. case_decide.
    + destruct IH as (rg' & cs' & -> & S' & Hrel'). ostep. exists rg', (c' :: cs'). split; [done|]. split; [done|]. by constructor.
    + by rewrite IH.
  - rewrite decide_False.
    + by rewrite (alloc_refused rg cs0 c env x S Hc He Hdc).
    + intros Hall. apply Hdc. apply (distinct_snoc cs0 c). apply (distinct_prefix _ cs). by rewrite <- app_assoc.
Qed.

Lemma route_deinit_ok r : released r -> route_config_deinit r = Ret tt.
Proof. intros (H1 & H2 & H3). unfold route_config_deinit. rewrite H1, H2, H3, !assert_true by (by apply bool_decide_true). done. Qed.

Lemma deinit_released cs : Forall tenant_released cs -> deinit_all cs = Ret tt.
Proof.
  induction 1 as [|c cs Hc _ IH]; [done|]. cbn [deinit_all]. unfold tenant_config_deinit, tenant_released in *.
  assert (E : foldr (fun r k => _ ← route_config_deinit r; k) (Ret tt) (default [] (tc_routes c)) = Ret tt).
  { induction Hc as [|r rs Hr _ IHr]; [done|]. cbn [foldr]. rewrite (route_deinit_ok r Hr). ostep. exact IHr. }
  rewrite E. ostep. exact IH.
Qed.

Definition empty_registry : Registry := mk_registry ∅ ∅ [].

Abbreviation start := (start_tenants false scheduler runtime_processor_speed_MHz runtime_worker_threads_count epoll_fd zeroed).

(** A started tenant is found by its name and by its port. *)
Lemma started_found rg cs i c name :
  started rg cs -> distinct cs -> cs !! i = Some c -> tc_name c = Some name ->
  exists a, tenant_database rg !! i = Some a /\ tenant_database_find_by_name rg name = Ret (Some a)
    /\ tenant_database_find_by_port rg (tc_port c) = Ret (Some a).
Proof.
  intros S [Hn Hp] Ec En. destruct (Forall2_lookup_r _ _ _ _ _ S Ec) as (a & Ea & _). exists a. split; [done|].
  assert (En' : (tc_name <$> cs) !! i = Some (Some name)) by (by rewrite list_lookup_fmap, Ec, <- En).
  assert (Ep' : (tc_port <$> cs) !! i = Some (tc_port c)) by (by rewrite list_lookup_fmap, Ec).
  split.
  - destruct (find_name_ok rg cs name S) as [(k & b & Ek & Eb & ->)|[Hno _]]; [|destruct Hno; by eapply list_elem_of_lookup_2].
    rewrite (NoDup_lookup _ _ _ _ Hn Ek En') in Eb. congruence.
  - destruct (find_port_ok rg cs (tc_port c) S) as [(k & b & Ek & Eb & ->)|[Hno _]]; [|destruct Hno; by eapply list_elem_of_lookup_2].
    rewrite (NoDup_lookup _ _ _ _ Hp Ek Ep') in Eb. congruence.
Qed.

Lemma start_ok cs envs xs :
  Forall config_loadable cs -> Forall3 tenant_env_ok cs envs xs -> NoDup xs.*1 -> NoDup (concat xs.*2) ->
  (length cs <= RUNTIME_MAX_TENANT_COUNT)%nat ->
  if decide (distinct cs) then exists rg, start empty_registry cs envs = Ret (0, rg) /\ started rg cs else start empty_registry cs envs = Stop Panic.
Proof.
  intros Hl Henv Hx Hm Hlen. unfold start_tenants.
  pose proof (load_started cs empty_registry [] envs xs) as Hload. cbn [app] in Hload.
  assert (S0 : started empty_registry []) by constructor.
  assert (D0 : distinct []) by (split; constructor).
  assert (F0 : xs_fresh empty_registry xs) by (split; [done|]; split; [done|]; split; apply List.Forall_forall; intros a _; apply lookup_empty).
  specialize (Hload S0 Hl Henv F0 D0 Hlen). case_decide.
  - destruct Hload as (rg & cs' & -> & S & Hrel). ostep. cbn [Z.ltb Z.compare]. rewrite (deinit_released cs' Hrel). ostep. by exists rg.
  - by rewrite Hload.
Qed.

(** ** From the document *)

(** The modules a tenant needs fit in its database. *)
Definition few_modules (c : tenant_config) : Prop :=
  (size (list_to_set (omap rc_path (default [] (tc_routes c))) : gset (list Z)) <= MODULE_DATABASE_CAPACITY)%nat.

Lemma loadable_paths routes paths : Forall2 route_loadable routes paths -> omap rc_path routes = paths.
Proof. induction 1 as [|r p rs ps (_ & E & _) _ IH]; [done|]. cbn. by rewrite E, IH. Qed.

Lemma cut_nonempty buf s e : within buf s e -> s < e -> (0 ∉ buf) -> cut (slice buf s e) <> [].
Proof.
  intros [Hse Hb] Hlt Hz. unfold slice. destruct (drop (Z.to_nat s) buf) as [|b l] eqn:E.
  { apply (f_equal length) in E. rewrite length_drop in E. cbn in E. lia. }
  destruct (Z.to_nat (e - s)) as [|n] eqn:En; [lia|]. cbn. destruct (Z.eqb_spec b 0) as [->|]; [|done]. destruct Hz.
  rewrite <- (take_drop (Z.to_nat s) buf), E. apply elem_of_app. right. by left.
Qed.

Variable buf : list Z.
Hypothesis no_zero : 0 ∉ buf.

Lemma string_field_ok ok l key :
  members_ok buf ok [] l = true -> forallb (member_placed buf) l = true -> has_key buf l key = true ->
  (forall j, ok key j = true -> is_some (string_of buf j) = true) ->
  exists txt, string_field buf l key = Some txt /\ txt <> [].
Proof.
  intros Hok Hp Hk Hs. rewrite has_key_field in Hk. unfold string_field. destruct (field buf l key) as [j|] eqn:Ef; [|done].
  pose proof (field_ok buf ok l key j Hok Ef) as Hj%Hs. apply field_in in Ef as (kv & Hin & _ & <-).
  destruct (kv.2) as [s e| | |] eqn:Ev; try done. cbn in Hj |- *. destruct (Z.ltb_spec s e); [|done]. eexists. split; [done|].
  apply cut_nonempty; [|done|done]. rewrite forallb_forall in Hp. apply list_elem_of_In in Hin. specialize (Hp kv Hin).
  unfold member_placed in Hp. apply andb_prop in Hp as [_ Hp]. rewrite Ev in Hp. by apply in_text_within.
Qed.

Lemma decode_route_loadable j c :
  well_placed buf j = true -> decode_route buf false scheduler j = Some c -> exists path, route_loadable c path.
Proof.
  destruct j as [| | |s e l]; try done. rewrite well_placed_object. cbn [decode_route]. intros Hp.
  destruct (bool_decide (l <> []) && _ && _) eqn:E; [|done]. intros [= <-]. apply andb_prop in E as [[_ Hok]%andb_prop Hv].
  unfold route_valid in Hv. apply andb_prop in Hv as [[Hr Hpa]%andb_prop _].
  destruct (string_field_ok _ l _ Hok Hp Hr) as (r & Er & _); [by intros j ?|].
  destruct (string_field_ok _ l _ Hok Hp Hpa) as (path & Ep & Hne); [by intros j ?|].
  exists path. unfold route_loadable, set_rc_content_type, route_of. cbn [rc_route rc_path rc_http_resp_content_type]. rewrite Er. eauto.
Qed.

Lemma decode_tenant_loadable j c :
  well_placed buf j = true -> decode_tenant buf false scheduler j = Some c ->
  is_Some (tc_name c) /\ exists routes paths, tc_routes c = Some routes /\ Forall2 route_loadable routes paths.
Proof.
  destruct j as [| | |s e l]; try done. rewrite well_placed_object. cbn [decode_tenant]. intros Hp.
  destruct (bool_decide (l <> []) && _ && _) eqn:E; [|done]. intros [= <-]. apply andb_prop in E as [[_ Hok]%andb_prop Hv].
  unfold tenant_valid in Hv. apply andb_prop in Hv as [[[[Hn _]%andb_prop _]%andb_prop _]%andb_prop Hlen].
  destruct (string_field_ok _ l _ Hok Hp Hn) as (name & En & _); [by intros j ?|].
  split; [cbn [tenant_of tc_name]; rewrite En; eauto|]. cbn [tenant_of tc_routes tc_routes_len] in *.
  destruct (field buf l (tenant_config_json_keys tenant_config_member_routes)) as [j|] eqn:Ef; [|done]. rewrite bind_some in Hlen |- *.
  destruct j as [| |s' e' js|]; try done. cbn [routes_of] in *.
  destruct (mapM (decode_route buf false scheduler) js) as [cs|] eqn:Em; [|done].
  assert (Hjs : forallb (well_placed buf) js = true).
  { apply field_in in Ef as (kv & Hin & _ & Ev). rewrite forallb_forall in Hp. apply list_elem_of_In in Hin. specialize (Hp kv Hin).
    unfold member_placed in Hp. apply andb_prop in Hp as [_ Hp]. by rewrite Ev in Hp. }
  apply mapM_Some in Em. clear -Em Hjs no_zero. exists cs.
  assert (Hex : exists paths, Forall2 route_loadable cs paths); [|destruct Hex as [paths ?]; by exists paths].
  induction Em as [|j c js cs Hc _ IH]; [exists []; constructor|]. cbn in Hjs. apply andb_prop in Hjs as [Hj Hjs].
  destruct (IH Hjs) as [paths Hps]. destruct (decode_route_loadable j c Hj Hc) as [path Hpath]. exists (path :: paths). by constructor.
Qed.

Lemma no_estimates j : all_estimates_ok buf false j = true.
Proof.
  destruct j as [| |s e l|]; try done. cbn. apply forallb_forall. intros [| | |s' e' l'] _; try done. cbn. apply forallb_forall.
  intros [k [| |s'' e'' rs|]] _; try done. cbn. apply forallb_forall. by intros [] _.
Qed.

Lemma decode_config_loadable j cs :
  well_placed buf j = true -> decode_config buf false scheduler j = Some cs -> Forall few_modules cs -> Forall config_loadable cs.
Proof.
  destruct j as [| |s e l|]; try done. intros Hp. cbn [decode_config]. intros Hm%mapM_Some.
  induction Hm as [|j c l cs Hj _ IH]; [constructor|]. cbn in Hp. apply andb_prop in Hp as [Hpj Hp]. intros Hf. inversion Hf as [|? ? Hfc Hf']; subst.
  constructor; [|by apply IH]. destruct (decode_tenant_loadable j c Hpj Hj) as (Hn & routes & paths & Er & Hl). split; [done|].
  exists routes, paths. split; [done|]. split; [done|]. unfold few_modules in Hfc. rewrite Er in Hfc. cbn [default id] in Hfc.
  by rewrite (loadable_paths routes paths Hl) in Hfc.
Qed.

(** C22: a configuration file starts the tenants it describes.  When the document
    decodes, asks for no more tenants than the database holds and no more modules
    per tenant than a tenant's database holds, and memory, libraries and sockets are granted, then
    the start-up ends with one listening tenant per tenant of the document, in its
    order, with its name, port, budget and queues, a router with exactly the
    configured routes in order, each with the module of its path, which routes with
    the same path share; and the tenant is found by its name and by its port.  If
    two tenants have the same name or the same port, the start-up panics instead. *)
Theorem configuration_started j cs envs xs :
  buf <> [] -> well_placed buf j = true -> decode_config buf false scheduler j = Some cs ->
  (length cs <= RUNTIME_MAX_TENANT_COUNT)%nat -> Forall few_modules cs ->
  Forall3 tenant_env_ok cs envs xs -> NoDup xs.*1 -> NoDup (concat xs.*2) ->
  let run := configure_tenants false scheduler runtime_processor_speed_MHz runtime_worker_threads_count epoll_fd
               zeroed empty_registry buf (width j) (tokens_of j) (fun _ => true) envs in
  if decide (distinct cs) then
    exists rg, run = Ret (0, rg) /\ started rg cs
      /\ forall i c name, cs !! i = Some c -> tc_name c = Some name ->
         exists a, tenant_database rg !! i = Some a /\ tenant_database_find_by_name rg name = Ret (Some a)
           /\ tenant_database_find_by_port rg (tc_port c) = Ret (Some a)
  else run = Stop Panic.
Proof.
  intros Hb Hp Hd Hlen Hf Henv Hx Hm. cbv zeta. unfold configure_tenants. rewrite (decide_False (P := buf = [])) by done.
  rewrite (parse_json_decoded false scheduler buf j cs Hb Hp (no_estimates j) Hd). ostep.
  rewrite (proj2 (Z.ltb_ge _ 0)) by lia. rewrite Nat2Z.id, take_ge by lia.
  pose proof (start_ok cs envs xs (decode_config_loadable j cs Hp Hd Hf) Henv Hx Hm Hlen) as Hs. case_decide; [|done].
  destruct Hs as (rg & -> & S). exists rg. split; [done|]. split; [done|]. intros i c name Ec En. by apply (started_found rg cs).
Qed.
End spec.

(** ** A tenant *)

Definition demo_route_env (a : Z) : route_env bool :=
  mk_route_env (mk_module_env (Some a) (Some (mk_abi_symbols 1 2 0)) [] Ret true true) demo_info true.

Definition demo_tenant_env (a m : Z) : tenant_env bool :=
  mk_tenant_env (Some a) true true true 17 [demo_route_env m] (mk_socket_env 9 0 0 0 0) 0.

Definition demo_zero_route : route_t bool := mk_route_t [] 0 0 [] (mk_route 0 demo_info).

(** The document of one tenant, twice. *)
Definition demo_object (d : Z) : json :=
  JObject (d + 1) (d + 89)
    [((d + 3, d + 7), JString (d + 10) (d + 11));
     ((d + 14, d + 18), JPrimitive (d + 20) (d + 22));
     ((d + 24, d + 30), JArray (d + 32) (d + 88)
        [JObject (d + 33) (d + 87)
           [((d + 35, d + 40), JString (d + 43) (d + 45)); ((d + 48, d + 52), JString (d + 55) (d + 59)); ((d + 62, d + 82), JPrimitive (d + 84) (d + 86))]])].

Definition demo_text_twice : list Z := take 89 demo_text ++ [44] ++ drop 1 demo_text.
Definition demo_json_twice : json := JArray 0 179 [demo_object 0; demo_object 89].

Lemma demo_route_env_ok a : route_env_ok (demo_route_env a) a.
Proof. repeat split; eauto. Qed.

Lemma demo_env_ok a m : tenant_env_ok demo_tenant (demo_tenant_env a m) (a, [m]).
Proof. do 4 (split; [done|]). split; [|split; [done|]]; [|split; [unfold socket_ok; cbn; lia | done]]. constructor; [apply demo_route_env_ok|constructor]. Qed.

Lemma demo_few_modules : few_modules demo_tenant.
Proof. apply Nat.leb_le. by vm_compute. Qed.

Lemma configuration_started_witness :
  (exists rg, configure_tenants false SCHEDULER_EDF 2000 2 5 demo_zero_route empty_registry demo_text (width demo_json) (tokens_of demo_json) (fun _ => true)
      [demo_tenant_env 1000 2000] = Ret (0, rg)
    /\ started SCHEDULER_EDF 2000 2 rg [demo_tenant]
    /\ exists a, tenant_database rg !! 0%nat = Some a /\ tenant_database_find_by_name rg [97] = Ret (Some a)
         /\ tenant_database_find_by_port rg 80 = Ret (Some a))
  /\ configure_tenants false SCHEDULER_EDF 2000 2 5 demo_zero_route empty_registry demo_text_twice (width demo_json_twice) (tokens_of demo_json_twice)
       (fun _ => true) [demo_tenant_env 1000 2000; demo_tenant_env 1001 2001] = Stop Panic.
Proof.
  split.
  - pose proof (configuration_started SCHEDULER_EDF 2000 2 5 ltac:(done) demo_zero_route demo_text ltac:(apply (bool_decide_unpack _); by vm_compute)
      demo_json [demo_tenant] [demo_tenant_env 1000 2000] [(1000, [2000])]) as Hs.
    rewrite decide_True in Hs by (split; apply list.NoDup_singleton).
    destruct Hs as (rg & E & S & Hf); [done | by vm_compute | by vm_compute | apply Nat.leb_le; by vm_compute
      | repeat first [apply demo_few_modules | constructor] | repeat first [apply demo_env_ok | constructor] | apply list.NoDup_singleton | apply list.NoDup_singleton |].
    exists rg. split; [exact E|]. split; [exact S|]. by apply (Hf 0%nat demo_tenant [97]).
  - pose proof (configuration_started SCHEDULER_EDF 2000 2 5 ltac:(done) demo_zero_route demo_text_twice ltac:(apply (bool_decide_unpack _); by vm_compute)
      demo_json_twice [demo_tenant; demo_tenant] [demo_tenant_env 1000 2000; demo_tenant_env 1001 2001] [(1000, [2000]); (1001, [2001])]) as Hs.
    rewrite decide_False in Hs by (intros [Hn _]; apply list.NoDup_cons in Hn as [Hn _]; apply Hn; by left).
    apply Hs; [done | by vm_compute | by vm_compute | apply Nat.leb_le; by vm_compute
      | repeat first [apply demo_few_modules | constructor] | repeat first [apply demo_env_ok | constructor] | apply (bool_decide_unpack _); by vm_compute | apply (bool_decide_unpack _); by vm_compute].
Defined.
