(* ===== verification/Startup.v ===== *)
(** * Startup: from the command line to a serving process

    [runtime/src/main.c], the initialization of [runtime/src/runtime.c],
    [runtime/src/worker_thread.c], [runtime/src/software_interrupt.c] and
    [runtime/include/software_interrupt.h], [listener_thread_initialize], the
    choice of queues in [runtime/include/scheduler.h], and the set-up of the
    performance logs.  Each function returns the globals it writes.  What the
    operating system answers is the record [os]; an environment variable is a C
    string without its NUL. *)

From Stdlib Require Import ZArith Lia SpecFloat.
From S2P Require Import Prelude Lock PriorityQueue Deque Bytes Admissions Numeric Globals Module Runqueue Mtds MtdsGlobal Sandbox Http HttpSession Listener Config Tenants.
From stdpp Require Import strings.
Local Open Scope Z_scope.

(** A call during start-up returns, or leaves with [exit(status)], or stops the
    process in another way. *)
Inductive boot (A : Type) :=
| Up (a : A)
| Exit (status : Z)
| Down (f : fault).
Arguments Up {A} a.
Arguments Exit {A} status.
Arguments Down {A} f.

#[export] Instance boot_ret : MRet boot := @Up.

#[export] Instance boot_bind : MBind boot :=
  fun A B (f : A -> boot B) (m : boot A) =>
    match m with
    | Up a => f a
    | Exit n => Exit n
    | Down e => Down e
    end.

Definition lift {A} (m : outcome A) : boot A :=
  match m with
  | Ret a => Up a
  | Stop f => Down f
  end.

Definition exit_unless {A} (b : bool) (status : Z) (k : boot A) : boot A := if b then k else Exit status.

(** ** Numbers in text *)

Definition INT_MIN : Z := - 2 ^ 31.
Definition INT_MAX : Z := 2 ^ 31 - 1.

(** [atoi], which has no meaning for a number that is no [int]. *)
Definition atoi (text : list Z) : outcome Z :=
  r ← scan_number (text ++ [0]) 0;
  match r with
  | None => Ret 0
  | Some (negative, n, _) =>
    let v := if (negative : bool) then - n else n in
    if (INT_MIN <=? v) && (v <=? INT_MAX) then Ret v else Stop Undefined
  end.

Definition digit_of (base b : Z) : option Z :=
  let d := if isdigit b then b - 48 else if (97 <=? b) && (b <=? 102) then b - 87
           else if (65 <=? b) && (b <=? 70) then b - 55 else base in
  if d <? base then Some d else None.

(** The value of the digits in front, their number, and the rest. *)
Fixpoint take_digits (base : Z) (l : list Z) (acc : Z) (n : Z) : Z * Z * list Z :=
  match l with
  | b :: l' =>
    match digit_of base b with
    | Some d => take_digits base l' (base * acc + d) (n + 1)
    | None => (acc, n, l)
    end
  | [] => (acc, n, [])
  end.

Definition take_sign (l : list Z) : bool * list Z :=
  match l with
  | b :: l' => if b =? 45 then (true, l') else if b =? 43 then (false, l') else (false, l)
  | [] => (false, [])
  end.

Definition tolower (b : Z) : Z := if (65 <=? b) && (b <=? 90) then b + 32 else b.

(** [text], in letters of either case, is in front of [l]. *)
Definition starts (text : String.string) (l : list Z) : bool :=
  bool_decide (tolower <$> take (length (bytes_of_string text)) l = bytes_of_string text).

(** The float nearest to [m * base ^ - frac * expbase ^ e]. *)
Definition float_of_digits (s : bool) (m base frac expbase e : Z) : spec_float :=
  let num := m * (if 0 <=? e then expbase ^ e else 1) in
  let den := base ^ frac * (if 0 <=? e then 1 else expbase ^ (- e)) in
  match num, den with
  | Zpos n, Zpos d => SFdiv 24 128 (S754_finite s n 0) (S754_finite false d 0)
  | _, _ => S754_zero s
  end.

(** An exponent with the letter [e] or, in hexadecimal, [p]; a letter without
    digits fails the match. *)
Definition take_exponent (letter : Z) (l : list Z) : option Z :=
  match l with
  | b :: l' =>
    if tolower b =? letter then
      let '(negative, l') := take_sign l' in
      let '(e, n, _) := take_digits 10 l' 0 0 in
      if n =? 0 then None else Some (if negative then - e else e)
    else Some 0
  | [] => Some 0
  end.

(** Digits with an optional point, and the exponent. *)
Definition scan_digits (s : bool) (base expbase letter : Z) (l : list Z) : option spec_float :=
  let '(m, n, l) := take_digits base l 0 0 in
  let '(m, f, l) :=
    match l with
    | b :: l' => if b =? 46 then take_digits base l' m 0 else (m, 0, l)
    | [] => (m, 0, [])
    end in
  if n + f =? 0 then None else
  e ← take_exponent letter l;
  Some (float_of_digits s m base f expbase e).

Fixpoint drop_spaces (l : list Z) : list Z :=
  match l with
  | b :: l' => if isspace b then drop_spaces l' else l
  | [] => []
  end.

(** [sscanf(buff, "%f", ...)] in the C locale; [None] when it matches nothing. *)
Definition sscanf_float (buff : list Z) : option spec_float :=
  let '(s, l) := take_sign (drop_spaces buff) in
  if starts "infi" l then if starts "infinity" l then Some (S754_infinity s) else None else
  if starts "inf" l then Some (S754_infinity s) else
  if starts "nan" l then Some S754_nan else
  if starts "0x" l then scan_digits s 16 2 112 (drop 2 l) else
  scan_digits s 10 10 101 l.

(** [nearbyintf] in the default rounding mode, as an integer. *)
Definition nearbyint_of (s : bool) (m : positive) (e : Z) : Z :=
  let a :=
    if 0 <=? e then Zpos m * 2 ^ e else
    let d := 2 ^ (- e) in
    let q := Zpos m / d in
    let r := Zpos m mod d in
    if 2 * r <? d then q else if d <? 2 * r then q + 1 else if Z.even q then q else q + 1 in
  if s then - a else a.

(** [(uint32_t)nearbyintf(f)] *)
Definition nearest_uint32 (f : spec_float) : outcome Z :=
  match f with
  | S754_zero _ => Ret 0
  | S754_finite s m e =>
    let z := nearbyint_of s m e in
    if (0 <=? z) && (z <=? UINT32_MAX) then Ret z else Stop Undefined
  | _ => Stop Undefined
  end.

(** ** What the operating system answers *)

(** [stat], [fopen], [calloc], [fread] and [fclose] on the file with the
    configuration; [fs_bytes] is what [fread] delivers of it. *)
Record file_env := mk_file_env {
  fs_stat : Z;
  fs_size : Z;
  fs_regular : bool;
  fs_fopen : bool;
  fs_calloc : bool;
  fs_bytes : list Z;
  fs_fclose : bool;
}.

Record os := mk_os {
  os_getenv : String.string -> option (list Z);
  os_getrlimit : Z -> option (Z * Z);   (* soft and hard limit *)
  os_setrlimit : Z -> bool;
  os_sysconf : Z;
  os_fopen : list Z -> bool;
  os_alloc : nat -> bool;
  os_pthread_sigmask : bool -> Z -> Z;   (* true: SIG_BLOCK *)
  os_sigaction : Z -> Z;
  os_epoll_create1 : Z;
  os_listener : Z * Z;   (* result of pthread_create and the thread *)
  os_setaffinity : list Z -> Z;
  os_worker : nat -> Z * Z;
  os_popen : option (list Z);
  os_setitimer : Z;
  os_file : file_env;
}.

Section startup.
Variable sys : os.
Abbreviation getenv := (os_getenv sys).

(** [strcmp(value, text) == 0] *)
Definition streq (value : list Z) (text : String.string) : bool := bool_decide (value = bytes_of_string text).

(** ** Resource limits *)

Definition RLIMIT_DATA : Z := 2.
Definition RLIMIT_NOFILE : Z := 7.

(** The soft limits afterwards. *)
Fixpoint raise_limits (resources : list Z) : outcome (list (Z * Z)) :=
  match resources with
  | [] => Ret []
  | r :: resources =>
    match os_getrlimit sys r with
    | None => Stop Panic
    | Some (rlim_cur, rlim_max) =>
      cur ← (if rlim_cur =? rlim_max then Ret rlim_cur
             else if os_setrlimit sys r then Ret rlim_max else Stop Panic);
      rest ← raise_limits resources;
      Ret ((r, cur) :: rest)
    end
  end.

Definition runtime_set_resource_limits_to_max : outcome (list (Z * Z)) := raise_limits [RLIMIT_DATA; RLIMIT_NOFILE].

(** ** Cores *)

Definition LISTENER_THREAD_CORE_ID : Z := 1.

Record cores := mk_cores {
  runtime_total_online_processors : Z;
  runtime_first_worker_processor : Z;
  runtime_worker_threads_count : Z;
}.

Definition runtime_allocate_available_cores : outcome cores :=
  let total := u32 (os_sysconf sys) in
  '(first, max_possible_workers) ←
    (if 2 <? total then Ret (2, total - 2)
     else if total =? 2 then Ret (1, total - 1)
     else Stop Panic);
  match getenv "SLEDGE_NWORKERS" with
  | Some worker_count_raw =>
    worker_count ← atoi worker_count_raw;
    if (worker_count <=? 0) || (max_possible_workers <? worker_count) then Stop Panic
    else Ret (mk_cores total first worker_count)
  | None => Ret (mk_cores total first max_possible_workers)
  end.

(** The bytes of [buff] up to its first NUL. *)
Fixpoint c_string (l : list Z) : list Z :=
  match l with
  | [] => []
  | b :: l => if b =? 0 then [] else b :: c_string l
  end.

(** The command is closed on every way out: [pclose] of NULL has no meaning. *)
Definition runtime_get_processor_speed_MHz : outcome Z :=
  match getenv "PROC_MHZ" with
  | Some proc_mhz_raw =>
    _ ← atoi proc_mhz_raw;
    Stop Undefined
  | None =>
    match os_popen sys with
    | None => Stop Undefined
    | Some output =>
      let buff := take 15 output in
      match sscanf_float (c_string buff) with
      | None => Ret 0
      | Some processor_speed_MHz =>
        if SFltb processor_speed_MHz (S754_zero false) then Ret 0
        else nearest_uint32 processor_speed_MHz
      end
    end
  end.

(** ** Settings *)

Inductive RUNTIME_SIGALRM_HANDLER := RUNTIME_SIGALRM_HANDLER_BROADCAST | RUNTIME_SIGALRM_HANDLER_TRIAGED.

#[export] Instance sigalrm_handler_eq_dec : EqDecision RUNTIME_SIGALRM_HANDLER.
Proof. solve_decision. Defined.

Definition scheduler_print (variant : SCHEDULER) : String.string :=
  match variant with
  | SCHEDULER_FIFO => "FIFO"
  | SCHEDULER_EDF => "EDF"
  | SCHEDULER_MTDS => "MTDS"
  | SCHEDULER_MTDBF => "MTDBF"
  end.

Definition runtime_print_sigalrm_handler (variant : RUNTIME_SIGALRM_HANDLER) : String.string :=
  match variant with
  | RUNTIME_SIGALRM_HANDLER_BROADCAST => "BROADCAST"
  | RUNTIME_SIGALRM_HANDLER_TRIAGED => "TRIAGED"
  end.

(** A log that was opened, with what was written to it; [fprintf] to a log that
    could not be opened has no meaning. *)
Definition perf_log_init (variable : String.string) (header : String.string) : outcome (option (list Z)) :=
  match getenv variable with
  | Some path => if os_fopen sys path then Ret (Some (bytes_of_string header ++ [10])) else Stop Undefined
  | None => Ret None
  end.

Definition sandbox_perf_log_init : outcome (option (list Z)) :=
  perf_log_init "SLEDGE_SANDBOX_PERF_LOG"
    "id,tenant,route,state,deadline,actual,queued,uninitialized,allocated,initialized,runnable,interrupted,preempted,running_sys,running_user,asleep,returned,complete,error,proc_MHz,memory".

Definition http_session_perf_log_init : outcome (option (list Z)) :=
  perf_log_init "SLEDGE_HTTP_SESSION_PERF_LOG"
    "tenant,route,state,header_len,resp_body_len,receive_duration,sent_duration,total_lifetime,proc_MHz".

Record settings := mk_settings {
  scheduler : SCHEDULER;
  runtime_sigalrm_handler : RUNTIME_SIGALRM_HANDLER;
  runtime_preemption_enabled : bool;
  runtime_quantum_us : Z;
  sandbox_perf_log : option (list Z);
  http_session_perf_log : option (list Z);
}.

Variable TRAFFIC_CONTROL : bool.

Definition runtime_configure : outcome settings :=
  let scheduler_policy := default (bytes_of_string "EDF") (getenv "SLEDGE_SCHEDULER") in
  scheduler ←
    (if streq scheduler_policy "MTDBF" then if TRAFFIC_CONTROL then Ret SCHEDULER_MTDBF else Stop Panic
     else if streq scheduler_policy "MTDS" then Ret SCHEDULER_MTDS
     else if streq scheduler_policy "EDF" then Ret SCHEDULER_EDF
     else if streq scheduler_policy "FIFO" then Ret SCHEDULER_FIFO
     else Stop Panic);
  let sigalrm_policy := default (bytes_of_string "BROADCAST") (getenv "SLEDGE_SIGALRM_HANDLER") in
  handler ←
    (if streq sigalrm_policy "BROADCAST" then Ret RUNTIME_SIGALRM_HANDLER_BROADCAST
     else if streq sigalrm_policy "TRIAGED" then
       if decide (scheduler = SCHEDULER_EDF) then Ret RUNTIME_SIGALRM_HANDLER_TRIAGED else Stop Panic
     else Stop Panic);
  let preemption :=
    match getenv "SLEDGE_DISABLE_PREEMPTION" with
    | Some preempt_disable => streq preempt_disable "false"
    | None => true
    end in
  quantum ←
    match getenv "SLEDGE_QUANTUM_US" with
    | Some quantum_raw =>
      quantum ← atoi quantum_raw;
      if quantum <=? 0 then Stop Panic else
      if 999999 <? quantum then Stop Panic else Ret (u32 quantum)
    | None => Ret 5000
    end;
  sandbox_log ← sandbox_perf_log_init;
  http_log ← http_session_perf_log_init;
  Ret (mk_settings scheduler handler preemption quantum sandbox_log http_log).

Definition runtime_configure_worker_spinloop_pause : bool :=
  match getenv "SLEDGE_SPINLOOP_PAUSE_ENABLED" with
  | Some pause_enable => streq pause_enable "true"
  | None => false
  end.

(** ** Signals *)

Definition SIGFPE : Z := 8.
Definition SIGUSR1 : Z := 10.
Definition SIGSEGV : Z := 11.
Definition SIGALRM : Z := 14.
Definition supported_signals : list Z := [SIGALRM; SIGUSR1; SIGFPE; SIGSEGV].

(** The masks of threads are the sets of signals they block. *)
Definition software_interrupt_mask_signal (mask : gset Z) (signal : Z) : boot (gset Z) :=
  _ ← lift (assert (bool_decide (signal ∈ supported_signals)));
  exit_unless (os_pthread_sigmask sys true signal =? 0) (-1) (Up (mask ∪ {[ signal ]})).

Definition software_interrupt_unmask_signal (mask : gset Z) (signal : Z) : boot (gset Z) :=
  _ ← lift (assert (bool_decide (signal ∈ supported_signals)));
  exit_unless (os_pthread_sigmask sys false signal =? 0) (-1) (Up (mask ∖ {[ signal ]})).

(** A handler is registered with the signals that are blocked while it runs. *)
Fixpoint register_signals (signals : list Z) (sa_mask mask : gset Z) (handlers : gmap Z (gset Z))
    : boot (gset Z * gmap Z (gset Z)) :=
  match signals with
  | [] => Up (mask, handlers)
  | signal :: signals =>
    mask ← software_interrupt_mask_signal mask signal;
    exit_unless (os_sigaction sys signal =? 0) 1
      (register_signals signals sa_mask mask (<[signal := sa_mask]> handlers))
  end.

Definition software_interrupt_initialize (mask : gset Z) : boot (gset Z * gmap Z (gset Z)) :=
  register_signals supported_signals {[ SIGALRM; SIGUSR1; SIGFPE; SIGSEGV ]} mask ∅.

(** The interval timer: the first expiry and the interval, in microseconds. *)
Definition software_interrupt_arm_timer (c : settings) (timer : Z * Z) : boot (Z * Z) :=
  if runtime_preemption_enabled c then
    exit_unless (os_setitimer sys =? 0) 1 (Up (runtime_quantum_us c, runtime_quantum_us c))
  else Up timer.

Definition software_interrupt_disarm_timer : boot (Z * Z) :=
  exit_unless (os_setitimer sys =? 0) 1 (Up (0, 0)).

(** ** Threads *)

(** [CPU_SET] on an empty set; processors beyond the set are left out. *)
Definition CPU_SETSIZE : Z := 1024.
Definition CPU_SET (cpu : Z) : list Z := if cpu <? CPU_SETSIZE then [cpu] else [].

(** A thread starts with the mask of the thread that creates it. *)
Record thread := mk_thread { th_id : Z; th_argument : Z; th_cpus : list Z; th_mask : gset Z }.

Definition listener_thread_initialize (mask : gset Z) : outcome (Z * thread) :=
  let cs := CPU_SET LISTENER_THREAD_CORE_ID in
  let epfd := os_epoll_create1 sys in
  assert (0 <=? epfd) ;;
  let '(ret, id) := os_listener sys in
  assert (ret =? 0) ;;
  assert (os_setaffinity sys cs =? 0) ;;
  assert (os_setaffinity sys cs =? 0) ;;
  Ret (epfd, mk_thread id 0 cs mask).

Fixpoint start_workers (c : cores) (mask : gset Z) (i : nat) (n : nat) : boot (list thread) :=
  match n with
  | O => Up []
  | S n =>
    let '(ret, id) := os_worker sys i in
    exit_unless (ret =? 0) (-1) (
      let cs := CPU_SET (runtime_first_worker_processor c + Z.of_nat i) in
      _ ← lift (assert (os_setaffinity sys cs =? 0));
      rest ← start_workers c mask (S i) n;
      Up (mk_thread id (Z.of_nat i) cs mask :: rest))
  end.

Definition runtime_start_runtime_worker_threads (c : cores) (mask : gset Z) : boot (list thread) :=
  start_workers c mask 0 (Z.to_nat (runtime_worker_threads_count c)).

(** ** Queues *)

Section queues.
Context {L : Type} `{SpinLock L}.

(** The record of function pointers that is installed, with its queue; the
    policy MTDBF installs none. *)
Inductive local_runqueue :=
| runqueue_list_installed (q : runqueue_list)
| runqueue_minheap_installed (q : priority_queue L Z)
| runqueue_mtds_installed (q : mtds_runqueue L)
| runqueue_not_installed.

Inductive global_request_scheduler :=
| scheduler_deque_installed (g : deque Z)
| scheduler_minheap_installed (g : priority_queue L Z)
| scheduler_mtds_installed (g : mtds_scheduler L)
| scheduler_not_installed.

Definition scheduler_initialize (c : settings) : outcome global_request_scheduler :=
  match scheduler c with
  | SCHEDULER_MTDBF => Ret scheduler_not_installed
  | SCHEDULER_MTDS => Ret (scheduler_mtds_installed (global_request_scheduler_mtds_initialize ∅ ∅))
  | SCHEDULER_EDF => Ret (scheduler_minheap_installed global_request_scheduler_minheap_initialize)
  | SCHEDULER_FIFO => g ← global_request_scheduler_deque_initialize; Ret (scheduler_deque_installed g)
  end.

(** With the timeout heap that the multi-tenant policy gets in [worker_thread_main]. *)
Definition scheduler_runqueue_initialize (c : settings) : local_runqueue :=
  match scheduler c with
  | SCHEDULER_MTDBF => runqueue_not_installed
  | SCHEDULER_MTDS => runqueue_mtds_installed (local_runqueue_mtds_initialize ∅)
  | SCHEDULER_EDF => runqueue_minheap_installed local_runqueue_minheap_initialize
  | SCHEDULER_FIFO => runqueue_list_installed local_runqueue_list_initialize
  end.

(** A worker as it enters [scheduler_idle_loop]. *)
Record worker := mk_worker {
  worker_thread_idx : Z;
  wk_base_variant : context_variant;
  wk_runqueue : local_runqueue;
  wk_cleanup_queue : list Z;
  wk_mask : gset Z;
}.

Definition worker_thread_main (c : settings) (argument : Z) (mask : gset Z) : boot worker :=
  let q := scheduler_runqueue_initialize c in
  mask ← software_interrupt_unmask_signal mask SIGFPE;
  mask ← software_interrupt_unmask_signal mask SIGSEGV;
  mask ← (if runtime_preemption_enabled c then
            mask ← software_interrupt_unmask_signal mask SIGALRM;
            software_interrupt_unmask_signal mask SIGUSR1
          else Up mask);
  Up (mk_worker argument VARIANT_RUNNING q [] mask).

(** ** Shared state *)

Record shared := mk_shared {
  runtime_worker_threads_argument : list Z;
  runtime_worker_threads_deadline : list Z;
  sh_scheduler : global_request_scheduler;
  sh_sandbox_total : Z;
  sh_admissions : Z * Z;   (* admitted, capacity *)
}.

Variable ADMISSIONS_CONTROL : bool.

(** [memset(deadlines, UINT8_MAX, count * sizeof(uint64_t))] *)
Definition deadlines_memset (n : nat) : list Z := replicate n (le_combine (replicate 8 UINT8_MAX)).

Definition runtime_initialize (c : cores) (s : settings) : outcome shared :=
  let n := Z.to_nat (runtime_worker_threads_count c) in
  assert (os_alloc sys 0) ;;
  assert (os_alloc sys 1) ;;
  assert (os_alloc sys 2) ;;
  g ← scheduler_initialize s;
  Ret (mk_shared (replicate n 0) (deadlines_memset n) g 0
         (admissions_control_initialize ADMISSIONS_CONTROL (runtime_worker_threads_count c))).

(** What the worker's code can reach then: its thread-local state, and the modules,
    routes and tenants of the process. *)
Definition worker_world {RQ} (q : RQ) (w : worker) (sh : shared) (ms : gmap Z (module L)) (rs : gmap Z (route L)) (ts : gmap Z tenant)
    : outcome (world L RQ) :=
  deadline ← deref (runtime_worker_threads_deadline sh !! Z.to_nat (worker_thread_idx w));
  Ret (mk_world ∅ q ms rs ts (sh_admissions sh).1 [] None deadline 0 0 false (sh_sandbox_total sh)
         (wk_cleanup_queue w) (wk_base_variant w)).

(** ** The file with the configuration *)

(** The number of bytes read, 0 for an error, and the buffer.  A failed
    [fclose] leads to a second one on the same stream, which has no meaning. *)
Definition load_file_into_buffer (f : file_env) : outcome (Z * option (list Z)) :=
  if fs_stat f <? 0 then Ret (0, None) else
  if fs_size f =? 0 then Ret (0, None) else
  if negb (fs_regular f) then Ret (0, None) else
  if negb (fs_fopen f) then Ret (0, None) else
  if negb (fs_calloc f) then
    if fs_fclose f then Ret (0, None) else Stop Panic
  else
  let total_chars_read := Z.of_nat (length (fs_bytes f)) in
  if negb (total_chars_read =? fs_size f) then
    if fs_fclose f then Ret (0, None) else Stop Panic
  else
  if fs_fclose f then Ret (total_chars_read, Some (fs_bytes f)) else Stop Undefined.

(** ** [main] *)

(** The process when [main] waits for its workers. *)
Record process := mk_process {
  ps_limits : list (Z * Z);
  ps_cores : cores;
  ps_settings : settings;
  ps_shared : shared;
  ps_mask : gset Z;
  ps_handlers : gmap Z (gset Z);
  listener_thread_epoll_file_descriptor : Z;
  ps_listener : thread;
  ps_threads : list thread;
  ps_workers : list worker;
  runtime_processor_speed_MHz : Z;
  runtime_worker_spinloop_pause_enabled : bool;
  ps_timer : Z * Z;
  ps_registry : registry L;
}.

Fixpoint run_workers (c : settings) (threads : list thread) : boot (list worker) :=
  match threads with
  | [] => Up []
  | t :: threads => w ← worker_thread_main c (th_argument t) (th_mask t); rest ← run_workers c threads; Up (w :: rest)
  end.

(** [tokenize] is the JSON tokenizer: the result of [jsmn_parse] and the tokens.
    Nothing is masked and no timer runs when the process starts. *)
Definition main (argc : Z) (tokenize : list Z -> Z * list jsmntok) (alloc : Z -> bool) (zeroed : route_t L) (envs : list (tenant_env L))
    : boot process :=
  exit_unless (argc =? 2) (-1) (
  limits ← lift runtime_set_resource_limits_to_max;
  c ← lift runtime_allocate_available_cores;
  s ← lift runtime_configure;
  sh ← lift (runtime_initialize c s);
  '(mask, handlers) ← software_interrupt_initialize ∅;
  '(epfd, listener) ← lift (listener_thread_initialize mask);
  threads ← runtime_start_runtime_worker_threads c mask;
  workers ← run_workers s threads;
  speed ← lift runtime_get_processor_speed_MHz;
  let pause := runtime_configure_worker_spinloop_pause in
  timer ← software_interrupt_arm_timer s (0, 0);
  '(json_buf_len, json_buf) ← lift (load_file_into_buffer (os_file sys));
  if json_buf_len =? 0 then Down Panic else
  json_buf ← lift (deref json_buf);
  let '(total_tokens, tokens) := tokenize json_buf in
  '(rc, rg) ← lift (configure_tenants ADMISSIONS_CONTROL (scheduler s) speed (Z.to_nat (runtime_worker_threads_count c)) epfd
                      zeroed (mk_registry ∅ ∅ []) json_buf total_tokens tokens alloc envs);
  exit_unless (0 <=? rc) (-1)
    (Up (mk_process limits c s sh mask handlers epfd listener threads workers speed pause timer rg))).

(** ** Interrupts of the other workers *)

Definition SI_KERNEL : Z := 128.
Definition SI_TKILL : Z := -6.

(** [scheduler_worker_would_preempt] *)
Definition worker_would_preempt {G} `{GlobalScheduler G} (c : settings) (deadlines : list Z) (g : G) (worker_idx : nat) : outcome bool :=
  assert (bool_decide (scheduler c = SCHEDULER_EDF)) ;;
  local_deadline ← deref (deadlines !! worker_idx);
  global_deadline ← global_request_scheduler_peek g;
  Ret (global_deadline <? local_deadline).

(** Whether the thread [t] of worker [i] is signalled. *)
Definition forward {G} `{GlobalScheduler G} (c : settings) (deadlines : list Z) (g : G) (i : nat) (t : Z) : outcome (list Z) :=
  match runtime_sigalrm_handler c with
  | RUNTIME_SIGALRM_HANDLER_TRIAGED => b ← worker_would_preempt c deadlines g i; Ret (if (b : bool) then [t] else [])
  | RUNTIME_SIGALRM_HANDLER_BROADCAST => Ret [t]
  end.

(** The threads that get a SIGALRM, in order; a thread 0 was never started. *)
Fixpoint propagate {G} `{GlobalScheduler G} (c : settings) (deadlines : list Z) (g : G) (self : Z) (i : nat) (threads : list Z)
    : outcome (list Z) :=
  match threads with
  | [] => Ret []
  | t :: threads =>
    assert (negb (t =? 0)) ;;
    if t =? self then propagate c deadlines g self (S i) threads else
    killed ← forward c deadlines g i t;
    rest ← propagate c deadlines g self (S i) threads;
    Ret (killed ++ rest)
  end.

Definition propagate_sigalrm {G} `{GlobalScheduler G} (c : settings) (deadlines : list Z) (g : G) (self : Z) (threads : list Z)
    (si_code : Z) : outcome (list Z) :=
  if si_code =? SI_KERNEL then propagate c deadlines g self 0 threads
  else assert (si_code =? SI_TKILL) ;; Ret [].
End queues.
End startup.
