(* ===== verification/StartupSpec.v ===== *)
(** * StartupSpec: what holds of a process that serves

    A process that gets through its start-up has its workers on processors of
    their own, a timer exactly when preemption is on, signals where they are
    handled, and workers that start from the invariant of the scheduler; timer
    signals reach the workers the configured handler is meant to reach. *)

From Stdlib Require Import ZArith Lia SpecFloat.
From S2P Require Import Prelude Lock PriorityQueue Deque PriorityQueueSpec Bytes Admissions Numeric Globals Module Runqueue Mtds MtdsSpec MtdsGlobal Sandbox SandboxSpec MtdsPolicy MtdsPolicySpec Http HttpSession Listener ListenerSpec Config ConfigSpec Tenants TenantsSpec Startup.
From stdpp Require Import strings.
Local Open Scope Z_scope.

(** ** Calls that came back *)

Lemma bind_Up_inv {A B} (m : boot A) (f : A -> boot B) b : m ≫= f = Up b -> exists a, m = Up a /\ f a = Up b.
Proof. destruct m; [eauto | done..]. Qed.

Lemma lift_Up_inv {A} (m : outcome A) a : lift m = Up a -> m = Ret a.
Proof. destruct m; cbn; congruence. Qed.

Lemma exit_unless_Up_inv {A} b status (k : boot A) a : exit_unless b status k = Up a -> b = true /\ k = Up a.
Proof. by destruct b. Qed.

Ltac inv_boot_step :=
  match goal with
  | H : Up _ = Up _ |- _ => injection H as H; subst
  | H : Exit _ = Up _ |- _ => discriminate H
  | H : Down _ = Up _ |- _ => discriminate H
  | H : lift _ = Up _ |- _ => apply lift_Up_inv in H
  | H : exit_unless _ _ _ = Up _ |- _ => let E := fresh "E" in apply exit_unless_Up_inv in H as [E H]
  | H : _ ≫= _ = Up _ |- _ =>
      let a := fresh "a" in let E := fresh "E" in
      apply bind_Up_inv in H as (a & E & H)
  end.

Ltac inv_boot := repeat first [inv_boot_step | inv_outcome_step].

(** ** Cores *)

Section spec.
Variable sys : os.
Variable TRAFFIC_CONTROL : bool.

Record cores_ok (c : cores) : Prop := {
  co_online : 2 <= runtime_total_online_processors c <= UINT32_MAX;
  co_workers : 1 <= runtime_worker_threads_count c;
  co_first : runtime_first_worker_processor c = if runtime_total_online_processors c =? 2 then 1 else 2;
  co_fit : runtime_first_worker_processor c + runtime_worker_threads_count c <= runtime_total_online_processors c;
}.

Lemma cores_allocated c : runtime_allocate_available_cores sys = Ret c -> cores_ok c.
Proof.
  unfold runtime_allocate_available_cores. pose proof (u32_range (os_sysconf sys)) as Hr. set (total := u32 (os_sysconf sys)) in *.
  intros E. inv_outcome. destruct a as [first max].
  assert (Hs : 2 <= total /\ first = (if total =? 2 then 1 else 2) /\ max = total - first).
  { destruct (Z.ltb_spec 2 total); [injection E0 as <- <-; rewrite (proj2 (Z.eqb_neq _ _)) by lia; lia|].
    destruct (Z.eqb_spec total 2); [injection E0 as <- <-; lia | done]. }
  destruct Hs as (Ht & Hf & Hm). assert (1 <= max) by (rewrite Hm, Hf; destruct (Z.eqb_spec total 2); lia).
  destruct (os_getenv sys "SLEDGE_NWORKERS") as [raw|]; inv_outcome.
  - destruct ((a <=? 0) || (max <? a)) eqn:Eb; [done|]. reflect_bools. inv_outcome. split; cbn; try done; lia.
  - split; cbn; try done; lia.
Qed.

Record settings_ok (s : settings) : Prop := {
  so_quantum : 1 <= runtime_quantum_us s <= 999999;
  so_triaged : runtime_sigalrm_handler s = RUNTIME_SIGALRM_HANDLER_TRIAGED -> scheduler s = SCHEDULER_EDF;
  so_traffic : scheduler s = SCHEDULER_MTDBF -> TRAFFIC_CONTROL = true;
}.

Lemma settings_configured s : runtime_configure sys TRAFFIC_CONTROL = Ret s -> settings_ok s.
Proof.
  unfold runtime_configure. intros E. inv_outcome. rename a into sch, a0 into handler, a1 into quantum, E0 into Es, E1 into Eh, E2 into Eq.
  split; cbn.
  - destruct (os_getenv sys "SLEDGE_QUANTUM_US"); inv_outcome; [|lia].
    destruct (Z.leb_spec a 0); [done|]. destruct (Z.ltb_spec 999999 a); [done|]. inv_outcome.
    rewrite u32_small by (unfold UINT32_MAX; lia). lia.
  - intros ->. destruct (streq _ "BROADCAST"); [done|]. destruct (streq _ "TRIAGED"); [|done]. by case_decide.
  - intros ->. destruct (streq _ "MTDBF"); [by destruct TRAFFIC_CONTROL|].
    destruct (streq _ "MTDS"); [done|]. destruct (streq _ "EDF"); [done|]. by destruct (streq _ "FIFO").
Qed.

(** ** Signals *)

Definition all_signals : gset Z := {[ SIGALRM; SIGUSR1; SIGFPE; SIGSEGV ]}.

Lemma signals_registered sa_mask : forall signals mask handlers mask' handlers',
  register_signals sys signals sa_mask mask handlers = Up (mask', handlers') ->
  mask' = mask ∪ list_to_set signals /\ (forall x, x ∈ signals -> handlers' !! x = Some sa_mask)
  /\ (forall x, x ∉ signals -> handlers' !! x = handlers !! x).
Proof.
  induction signals as [|x signals IH]; intros mask handlers mask' handlers' E; cbn in E; inv_boot.
  - split; [set_solver|]. split; [set_solver | done].
  - unfold software_interrupt_mask_signal in E0. inv_boot. destruct (IH _ _ _ _ E) as (-> & Hin & Hout).
    split; [cbn; set_solver|]. split.
    + intros y. rewrite elem_of_cons. destruct (decide (y ∈ signals)) as [Hy|Hy]; [auto|]. intros [->|Hy']; [|done].
      rewrite (Hout _ Hy). apply lookup_insert_eq.
    + intros y [Hne Hy]%not_elem_of_cons. rewrite (Hout _ Hy). by apply lookup_insert_ne.
Qed.

Lemma interrupts_initialized mask' handlers :
  software_interrupt_initialize sys ∅ = Up (mask', handlers) ->
  mask' = all_signals /\ forall x, x ∈ supported_signals -> handlers !! x = Some all_signals.
Proof.
  intros E. apply signals_registered in E as (-> & Hin & _). split; [|exact Hin]. unfold all_signals, supported_signals. cbn. set_solver.
Qed.

(** ** Threads *)

(** [pthread_setaffinity_np] refuses a set without a processor. *)
Hypothesis affinity_nonempty : os_setaffinity sys [] <> 0.

(** The threads [i], [i + 1], ... have their index as argument and a processor each. *)
Lemma workers_started c mask : forall n i threads,
  start_workers sys c mask i n = Up threads ->
  threads = zip_with (fun id k => mk_thread id (Z.of_nat k) [runtime_first_worker_processor c + Z.of_nat k] mask)
              (th_id <$> threads) (seq i n)
  /\ length threads = n.
Proof.
  induction n as [|n IH]; intros i threads E; cbn in E.
  - inv_boot. done.
  - destruct (os_worker sys i) as [ret id]. inv_boot. reflect_bools. destruct (IH _ _ E2) as [Hz Hl]. cbn. rewrite Hl. split; [|done].
    f_equal; [|exact Hz]. f_equal. unfold CPU_SET in *. by destruct (_ <? CPU_SETSIZE).
Qed.

Lemma workers_pinned c mask threads i t :
  cores_ok c -> runtime_start_runtime_worker_threads sys c mask = Up threads -> threads !! i = Some t ->
  th_argument t = Z.of_nat i /\ th_cpus t = [runtime_first_worker_processor c + Z.of_nat i]
  /\ runtime_first_worker_processor c + Z.of_nat i < runtime_total_online_processors c /\ th_mask t = mask.
Proof.
  intros C E Ht. apply workers_started in E as [Hz Hl]. pose proof (lookup_lt_Some _ _ _ Ht) as Hi. rewrite Hz in Ht.
  apply lookup_zip_with_Some in Ht as (id & k & -> & _ & Hk). apply lookup_seq in Hk as [-> _]. cbn.
  pose proof (co_fit _ C). pose proof (co_workers _ C). repeat split. lia.
Qed.

Lemma listener_started mask epfd t :
  listener_thread_initialize sys mask = Ret (epfd, t) -> th_cpus t = [LISTENER_THREAD_CORE_ID] /\ th_mask t = mask.
Proof. unfold listener_thread_initialize. destruct (os_listener sys). intros E. inv_outcome_step. inv_outcome. by simplify_eq. Qed.

Section queues.
Context {L : Type} `{SpinLock L}.
Variable ADMISSIONS_CONTROL : bool.

(** The signals a worker still blocks. *)
Definition blocked_on_worker (s : settings) : gset Z :=
  if runtime_preemption_enabled s then ∅ else {[ SIGALRM; SIGUSR1 ]}.

Lemma unmasked mask signal mask' : software_interrupt_unmask_signal sys mask signal = Up mask' -> mask' = mask ∖ {[ signal ]}.
Proof. unfold software_interrupt_unmask_signal. intros E. by inv_boot. Qed.

Lemma all_but_faults : all_signals ∖ {[ SIGFPE ]} ∖ {[ SIGSEGV ]} = {[ SIGALRM; SIGUSR1 ]}.
Proof. vm_compute. reflexivity. Qed.

Lemma worker_ready s argument (w : worker (L := L)) :
  worker_thread_main sys s argument all_signals = Up w ->
  w = mk_worker argument VARIANT_RUNNING (scheduler_runqueue_initialize s) [] (blocked_on_worker s).
Proof.
  unfold worker_thread_main. intros E. inv_boot. rename a into m1, a0 into m2, a1 into m3. apply unmasked in E0, E1. subst. f_equal.
  unfold blocked_on_worker. rewrite all_but_faults in E2. destruct (runtime_preemption_enabled s); inv_boot; [|done].
  apply unmasked in E, E2. subst. vm_compute. reflexivity.
Qed.

Lemma workers_ready s : forall threads (workers : list (worker (L := L))),
  Forall (fun t => th_mask t = all_signals) threads -> run_workers sys s threads = Up workers ->
  workers = (fun t => mk_worker (th_argument t) VARIANT_RUNNING (scheduler_runqueue_initialize s) [] (blocked_on_worker s)) <$> threads.
Proof.
  induction threads as [|t threads IH]; intros workers Hm E; cbn in E; inv_boot; [done|].
  apply list.Forall_cons in Hm as [Ht Hm]. rewrite Ht in E0. rewrite (worker_ready _ _ _ E0). cbn. f_equal. by apply IH.
Qed.

Lemma deadlines_unset n : deadlines_memset n = replicate n UINT64_MAX.
Proof. done. Qed.

Lemma shared_initialized c s (sh : shared (L := L)) :
  runtime_initialize sys ADMISSIONS_CONTROL c s = Ret sh ->
  runtime_worker_threads_deadline sh = replicate (Z.to_nat (runtime_worker_threads_count c)) UINT64_MAX.
Proof. unfold runtime_initialize. intros E. inv_outcome. apply deadlines_unset. Qed.

(** ** The invariant of a new worker *)

Section worlds.
Variables (ms : gmap Z (module L)) (rs : gmap Z (route L)) (ts : gmap Z tenant).

(** The modules have a pool for the worker. *)
Definition modules_fit (idx : nat) : Prop := forall k m, ms !! k = Some m -> module_wf m /\ (idx < length (pools m))%nat.

Lemma world_wf {RQ} `{RunqueueLaws RQ} (q : RQ) idx admitted deadline total cleanup variant :
  (forall dl, rq_repr dl q []) -> modules_fit idx ->
  wf idx (mk_world ∅ q ms rs ts admitted [] None deadline 0 0 false total cleanup variant) [].
Proof.
  intros Hq Hm. split; cbn.
  - apply Hq.
  - constructor.
  - intros p. split; [by intros ?%elem_of_nil | intros (s & E & _); by rewrite lookup_empty in E].
  - intros p s E. by rewrite lookup_empty in E.
  - exact Hm.
Qed.

(** The invariant holds in the new world of a worker, for the queue of its policy. *)
Definition starts_wf (w : worker (L := L)) (sh : shared (L := L)) : Prop :=
  let idx := Z.to_nat (worker_thread_idx w) in
  match wk_runqueue w with
  | runqueue_list_installed q => exists wd, worker_world q w sh ms rs ts = Ret wd /\ wf idx wd [] /\ worker_deadline wd = UINT64_MAX
  | runqueue_minheap_installed q => exists wd, worker_world q w sh ms rs ts = Ret wd /\ wf idx wd [] /\ worker_deadline wd = UINT64_MAX
  | runqueue_mtds_installed q => forall statics clock, exists wd, worker_world q w sh ms rs ts = Ret wd
      /\ @wf L _ _ (mtds_laws statics clock) idx wd [] /\ worker_deadline wd = UINT64_MAX
  | runqueue_not_installed => TRAFFIC_CONTROL = true
  end.

Lemma new_world {RQ} (q : RQ) (w : worker (L := L)) sh :
  (Z.to_nat (worker_thread_idx w) < length (runtime_worker_threads_deadline sh))%nat ->
  (forall i d, runtime_worker_threads_deadline sh !! i = Some d -> d = UINT64_MAX) ->
  worker_world q w sh ms rs ts
  = Ret (mk_world ∅ q ms rs ts (sh_admissions sh).1 [] None UINT64_MAX 0 0 false (sh_sandbox_total sh)
           (wk_cleanup_queue w) (wk_base_variant w)).
Proof.
  intros [d Ed]%lookup_lt_is_Some Hd. unfold worker_world. rewrite Ed. ostep. by rewrite (Hd _ _ Ed).
Qed.

Lemma worker_starts_wf (w : worker (L := L)) s sh :
  settings_ok s -> wk_runqueue w = scheduler_runqueue_initialize s -> modules_fit (Z.to_nat (worker_thread_idx w)) ->
  (Z.to_nat (worker_thread_idx w) < length (runtime_worker_threads_deadline sh))%nat ->
  (forall i d, runtime_worker_threads_deadline sh !! i = Some d -> d = UINT64_MAX) ->
  starts_wf w sh.
Proof.
  intros S Eq Hm Hi Hd. unfold starts_wf. rewrite Eq. unfold scheduler_runqueue_initialize.
  pose proof (fun RQ (q : RQ) => new_world q w sh Hi Hd) as Hw. destruct (scheduler s) eqn:Es.
  - eexists. split; [apply Hw|]. split; [|done]. apply world_wf; [intros dl; apply perm_nil | done].
  - eexists. split; [apply Hw|]. split; [|done]. apply world_wf; [|done]. intros dl. split; [apply pq_repr_bag, initialize_ok | done].
  - intros statics clock. eexists. split; [apply Hw|]. split; [|done]. apply world_wf; [|done]. intros dl. split; [constructor|].
    exists (fun _ => []). split; [|done]. apply initialize_wf; [apply Nat.le_0_l | done].
  - by apply (so_traffic s S).
Qed.
End worlds.

(** ** Timer signals *)

Section propagation.
Variables (s : settings) (dl : Z -> Z) (g : priority_queue L Z) (waiting : list Z) (self : Z).
Hypothesis settings_valid : settings_ok s.
Hypothesis requests : pq_repr dl g waiting.

(** Worker [i] is to be interrupted: always, or if an earlier request waits. *)
Definition interrupts (deadlines : list Z) (i : nat) : Prop :=
  match runtime_sigalrm_handler s with
  | RUNTIME_SIGALRM_HANDLER_BROADCAST => True
  | RUNTIME_SIGALRM_HANDLER_TRIAGED => exists p d, p ∈ waiting /\ deadlines !! i = Some d /\ dl p < d
  end.

Lemma would_preempt deadlines i d :
  runtime_sigalrm_handler s = RUNTIME_SIGALRM_HANDLER_TRIAGED -> deadlines !! i = Some d -> d <= UINT64_MAX ->
  exists b, worker_would_preempt s deadlines g i = Ret b /\ (b = true <-> interrupts deadlines i).
Proof.
  intros Ht Ed Hd. unfold worker_would_preempt. rewrite (bool_decide_true (scheduler s = SCHEDULER_EDF)) by by apply so_triaged.
  ostep. rewrite Ed. ostep. change (global_request_scheduler_peek g) with (Ret (priority_queue_peek g)). ostep. eexists. split; [done|].
  rewrite Z.ltb_lt, (peek_lt dl g waiting d requests Hd). unfold interrupts. rewrite Ht, Ed. split.
  - intros (p & Hp & Hlt). by exists p, d.
  - intros (p & d' & Hp & [= <-] & Hlt). by exists p.
Qed.

(** What the loop does for one thread. *)
Lemma kill_one deadlines i t d :
  deadlines !! i = Some d -> d <= UINT64_MAX ->
  exists killed, forward s deadlines g i t = Ret killed
    /\ (killed = [t] /\ interrupts deadlines i \/ killed = [] /\ ~ interrupts deadlines i).
Proof.
  intros Ed Hd. unfold forward. destruct (runtime_sigalrm_handler s) eqn:Eh.
  - exists [t]. split; [done|]. left. split; [done|]. unfold interrupts. by rewrite Eh.
  - destruct (would_preempt deadlines i d Eh Ed Hd) as (b & -> & Hb). ostep. eexists. split; [done|]. destruct b; [left|right].
    + split; [done|]. by apply Hb.
    + split; [done|]. intros Hi. by apply Hb in Hi.
Qed.

Lemma propagate_ok deadlines : Forall (fun d => d <= UINT64_MAX) deadlines -> forall threads i,
  Forall (fun t => t <> 0) threads -> (i + length threads <= length deadlines)%nat ->
  exists out, propagate s deadlines g self i threads = Ret out /\ sublist out threads
    /\ forall k t, threads !! k = Some t -> NoDup threads -> (t ∈ out <-> t <> self /\ interrupts deadlines (i + k)).
Proof.
  intros Hd. induction threads as [|t threads IH]; intros i Hn Hl; cbn.
  - exists []. by split.
  - apply list.Forall_cons in Hn as [Ht Hn]. cbn in Hl. destruct (IH (S i) Hn ltac:(lia)) as (out & E & Hsub & Hout).
    rewrite (proj2 (Z.eqb_neq t 0) Ht). ostep. rewrite E.
    assert (Hlater : forall k x, threads !! k = Some x -> NoDup (t :: threads) -> x <> t /\ (x ∈ out <-> x <> self /\ interrupts deadlines (i + S k))).
    { intros k x Hx [Hnt Hnd]%list.NoDup_cons. split; [intros ->; apply Hnt; by eapply list_elem_of_lookup_2|].
      rewrite Nat.add_succ_r. by apply (Hout k). }
    destruct (Z.eqb_spec t self) as [->|Hself].
    + exists out. split; [done|]. split; [by constructor|]. intros [|k] x; cbn; [intros [= <-] [Hnt _]%list.NoDup_cons | by intros Hx Hnd; apply Hlater].
      split; [intros Hx; exfalso; by apply Hnt, (sublist_subseteq _ _ Hsub) | by intros []].
    + destruct (lookup_lt_is_Some_2 deadlines i) as [d Ed]; [lia|]. pose proof (Forall_lookup_1 _ _ _ _ Hd Ed) as Hdd.
      destruct (kill_one deadlines i t d Ed Hdd) as (killed & -> & Hk). ostep. exists (killed ++ out). split; [done|]. split.
      { destruct Hk as [[-> _]|[-> _]]; [by apply sublist_skip | by apply sublist_cons]. }
      intros [|k] x; cbn.
      * intros [= <-] [Hnt _]%list.NoDup_cons. rewrite Nat.add_0_r, elem_of_app. assert (t ∉ out) by (intros Hx; by apply Hnt, (sublist_subseteq _ _ Hsub)).
        destruct Hk as [[-> Hi]|[-> Hi]]; [rewrite list_elem_of_singleton; tauto | rewrite elem_of_nil; tauto].
      * intros Hx Hnd. destruct (Hlater k x Hx Hnd) as [Hne Hiff]. rewrite elem_of_app, Hiff.
        destruct Hk as [[-> _]|[-> _]]; [rewrite list_elem_of_singleton | rewrite elem_of_nil]; tauto.
Qed.
End propagation.

(** C25: a timer signal is forwarded to exactly the workers it should reach.
    The thread the kernel picked signals every other worker under the handler
    BROADCAST, and under TRIAGED every other worker that runs a later deadline than some waiting
    request has, each once and never itself; a
    forwarded signal is not forwarded again.  No assertion fails. *)
Theorem propagate_sigalrm_spec s dl g waiting self threads deadlines :
  settings_ok s -> pq_repr dl g waiting -> NoDup threads -> Forall (fun t => t <> 0) threads ->
  length deadlines = length threads -> Forall (fun d => d <= UINT64_MAX) deadlines ->
  (exists out, propagate_sigalrm s deadlines g self threads SI_KERNEL = Ret out /\ sublist out threads
     /\ forall i t, threads !! i = Some t -> (t ∈ out <-> t <> self /\ interrupts s dl waiting deadlines i))
  /\ propagate_sigalrm s deadlines g self threads SI_TKILL = Ret [].
Proof.
  intros S R Hnd Hn Hl Hd. split; [|done].
  destruct (propagate_ok s dl g waiting self S R deadlines Hd threads 0 Hn ltac:(lia)) as (out & E & Hsub & Hout).
  exists out. split; [exact E|]. split; [done|]. intros i t Ht. by apply (Hout i).
Qed.

(** ** The whole start-up *)

Record serving (p : process (L := L)) : Prop := {
  sv_cores : cores_ok (ps_cores p);
  sv_settings : settings_ok (ps_settings p);
  sv_threads : length (ps_threads p) = Z.to_nat (runtime_worker_threads_count (ps_cores p));
  sv_pinned i t : ps_threads p !! i = Some t -> th_argument t = Z.of_nat i /\
    exists core, th_cpus t = [core] /\ core = runtime_first_worker_processor (ps_cores p) + Z.of_nat i
      /\ 0 < core < runtime_total_online_processors (ps_cores p)
      /\ (core = LISTENER_THREAD_CORE_ID <-> runtime_total_online_processors (ps_cores p) = 2);
  sv_listener : th_cpus (ps_listener p) = [LISTENER_THREAD_CORE_ID] /\ th_mask (ps_listener p) = all_signals;
  sv_handlers x : x ∈ supported_signals -> ps_handlers p !! x = Some all_signals;
  sv_timer : ps_timer p = if runtime_preemption_enabled (ps_settings p)
                          then (runtime_quantum_us (ps_settings p), runtime_quantum_us (ps_settings p)) else (0, 0);
  sv_deadlines : runtime_worker_threads_deadline (ps_shared p) = replicate (length (ps_threads p)) UINT64_MAX;
  sv_workers : length (ps_workers p) = length (ps_threads p);
  sv_masks i w : ps_workers p !! i = Some w ->
    worker_thread_idx w = Z.of_nat i /\ wk_mask w = blocked_on_worker (ps_settings p);
  sv_wf i w ms rs ts : ps_workers p !! i = Some w -> modules_fit ms i -> starts_wf ms rs ts w (ps_shared p);
}.

Variable tokenize : list Z -> Z * list jsmntok.

Lemma thread_core c mask threads i t :
  cores_ok c -> runtime_start_runtime_worker_threads sys c mask = Up threads -> threads !! i = Some t ->
  exists core, th_cpus t = [core] /\ core = runtime_first_worker_processor c + Z.of_nat i
    /\ 0 < core < runtime_total_online_processors c
    /\ (core = LISTENER_THREAD_CORE_ID <-> runtime_total_online_processors c = 2).
Proof.
  intros C E Ht. destruct (workers_pinned c mask threads i t C E Ht) as (_ & Hc & Hb & _). eexists. split; [exact Hc|]. split; [done|].
  pose proof (co_first c C) as Hf. pose proof (co_workers c C). pose proof (co_online c C). unfold LISTENER_THREAD_CORE_ID.
  destruct (Z.eqb_spec (runtime_total_online_processors c) 2); lia.
Qed.

Lemma main_parts argc alloc zeroed envs p :
  main sys TRAFFIC_CONTROL ADMISSIONS_CONTROL argc tokenize alloc zeroed envs = Up p ->
  (runtime_allocate_available_cores sys = Ret (ps_cores p) /\ runtime_configure sys TRAFFIC_CONTROL = Ret (ps_settings p)
   /\ runtime_initialize sys ADMISSIONS_CONTROL (ps_cores p) (ps_settings p) = Ret (ps_shared p))
  /\ (software_interrupt_initialize sys ∅ = Up (ps_mask p, ps_handlers p)
   /\ listener_thread_initialize sys (ps_mask p) = Ret (listener_thread_epoll_file_descriptor p, ps_listener p)
   /\ runtime_start_runtime_worker_threads sys (ps_cores p) (ps_mask p) = Up (ps_threads p)
   /\ run_workers sys (ps_settings p) (ps_threads p) = Up (ps_workers p)
   /\ software_interrupt_arm_timer sys (ps_settings p) (0, 0) = Up (ps_timer p)).
Proof.
  unfold main. intros E. inv_boot. destruct a3 as [mask handlers]. inv_boot. destruct a3 as [epfd listener]. inv_boot.
  destruct a7 as [len buf]. destruct (len =? 0); [done|]. inv_boot. destruct (tokenize a7) as [total tokens]. inv_boot.
  destruct a8 as [rc rg]. inv_boot. cbn. eauto 10.
Qed.

Lemma started_serving argc alloc zeroed envs p :
  main sys TRAFFIC_CONTROL ADMISSIONS_CONTROL argc tokenize alloc zeroed envs = Up p -> serving p.
Proof.
  intros ((Ec & Es & Esh) & Em & El & Et & Ew & Eti)%main_parts.
  apply cores_allocated in Ec as C. apply settings_configured in Es as S. apply shared_initialized in Esh as Hd.
  apply interrupts_initialized in Em as [Em Hh]. rewrite Em in *. pose proof (workers_started _ _ _ _ _ Et) as [_ Hl].
  assert (Hm : Forall (fun t => th_mask t = all_signals) (ps_threads p)).
  { apply List.Forall_forall. intros t Ht. apply list_elem_of_In, list_elem_of_lookup in Ht as [i Ht].
    by destruct (workers_pinned _ _ _ _ _ C Et Ht) as (_ & _ & _ & ?). }
  pose proof (workers_ready _ _ _ Hm Ew) as Hw.
  assert (Hidx : forall i w, ps_workers p !! i = Some w -> worker_thread_idx w = Z.of_nat i
            /\ wk_mask w = blocked_on_worker (ps_settings p) /\ wk_runqueue w = scheduler_runqueue_initialize (ps_settings p)).
  { intros i w. rewrite Hw, list_lookup_fmap. destruct (ps_threads p !! i) as [t|] eqn:Ht; [|done]. intros [= <-].
    by destruct (workers_pinned _ _ _ _ _ C Et Ht) as (-> & _). }
  split; try done.
  - intros i t Ht. split; [by destruct (workers_pinned _ _ _ _ _ C Et Ht)|]. by apply (thread_core _ _ _ _ _ C Et).
  - apply (listener_started _ _ _ El).
  - unfold software_interrupt_arm_timer in Eti. destruct (runtime_preemption_enabled _); inv_boot; done.
  - by rewrite Hd, Hl.
  - by rewrite Hw, length_fmap.
  - intros i w Hi. destruct (Hidx i w Hi) as (? & ? & _). done.
  - intros i w ms rs ts Hi Hf. destruct (Hidx i w Hi) as (Ei & _ & Eq). apply (worker_starts_wf _ _ _ w (ps_settings p)); try done.
    + by rewrite Ei, Nat2Z.id.
    + rewrite Ei, Nat2Z.id, Hd, length_replicate, <- Hl. apply lookup_lt_Some in Hi. by rewrite Hw, length_fmap in Hi.
    + intros k d. rewrite Hd. by intros [-> _]%lookup_replicate.
Qed.

(** ** Starting *)

(** The system grants what is asked for, and the frequency can be read. *)
Record granted (speed : Z) : Prop := {
  gr_limits r : r ∈ [RLIMIT_DATA; RLIMIT_NOFILE] -> is_Some (os_getrlimit sys r) /\ os_setrlimit sys r = true;
  gr_processors : 2 <= os_sysconf sys <= CPU_SETSIZE;
  gr_logs path : os_fopen sys path = true;
  gr_alloc i : os_alloc sys i = true;
  gr_signals block x : os_pthread_sigmask sys block x = 0 /\ os_sigaction sys x = 0;
  gr_epoll : 0 <= os_epoll_create1 sys;
  gr_listener : (os_listener sys).1 = 0;
  gr_workers i : (os_worker sys i).1 = 0;
  gr_affinity core : 0 <= core < os_sysconf sys -> os_setaffinity sys [core] = 0;
  gr_timer : os_setitimer sys = 0;
  gr_speed : os_getenv sys "PROC_MHZ" = None /\ exists output f,
    os_popen sys = Some output /\ sscanf_float (c_string (take 15 output)) = Some f
    /\ SFltb f (S754_zero false) = false /\ nearest_uint32 f = Ret speed;
}.

(** The variables that choose numbers and names have values the runtime knows. *)
Record known_variables : Prop := {
  kv_workers raw : os_getenv sys "SLEDGE_NWORKERS" = Some raw ->
    exists n, atoi raw = Ret n /\ 1 <= n <= os_sysconf sys - (if os_sysconf sys =? 2 then 1 else 2);
  kv_scheduler : default (bytes_of_string "EDF") (os_getenv sys "SLEDGE_SCHEDULER")
    ∈ bytes_of_string <$> (["MTDS"; "EDF"; "FIFO"] ++ if TRAFFIC_CONTROL then ["MTDBF"] else []);
  kv_handler : default (bytes_of_string "BROADCAST") (os_getenv sys "SLEDGE_SIGALRM_HANDLER")
    ∈ bytes_of_string <$> (["BROADCAST"] ++
        if decide (default (bytes_of_string "EDF") (os_getenv sys "SLEDGE_SCHEDULER") = bytes_of_string "EDF") then ["TRIAGED"] else []);
  kv_quantum raw : os_getenv sys "SLEDGE_QUANTUM_US" = Some raw -> exists n, atoi raw = Ret n /\ 1 <= n <= 999999;
}.

Section starts.
Variable speed : Z.
Hypothesis grants : granted speed.
Hypothesis variables : known_variables.

Lemma limits_raised : exists l, runtime_set_resource_limits_to_max sys = Ret l.
Proof.
  unfold runtime_set_resource_limits_to_max. assert (Hr : forall r, r ∈ [RLIMIT_DATA; RLIMIT_NOFILE] -> r ∈ [RLIMIT_DATA; RLIMIT_NOFILE]) by done.
  revert Hr. generalize [RLIMIT_DATA; RLIMIT_NOFILE] at 1 3. induction l as [|r l IH]; intros Hr; cbn; [by eexists|].
  destruct (gr_limits _ grants r (Hr r ltac:(left))) as [[[cur max] ->] ->]. destruct IH as [l' ->]; [intros r' Hr'; apply Hr; by right|].
  destruct (cur =? max); ostep; eauto.
Qed.

Lemma cores_found : exists c, runtime_allocate_available_cores sys = Ret c /\ runtime_total_online_processors c = os_sysconf sys.
Proof.
  unfold runtime_allocate_available_cores. pose proof (gr_processors _ grants) as Hp. unfold CPU_SETSIZE in Hp.
  rewrite u32_small by (unfold UINT32_MAX; lia). pose proof (kv_workers variables) as Hw. set (total := os_sysconf sys) in *.
  assert (E : (if 2 <? total then Ret (2, total - 2) else if total =? 2 then Ret (1, total - 1) else Stop Panic)
              = Ret (if total =? 2 then 1 else 2, total - (if total =? 2 then 1 else 2))).
  { destruct (Z.ltb_spec 2 total), (Z.eqb_spec total 2); try lia; done. }
  rewrite E. ostep. destruct (os_getenv sys "SLEDGE_NWORKERS") as [raw|]; [|by eexists].
  destruct (Hw raw eq_refl) as (n & -> & Hn). ostep. rewrite (proj2 (Z.leb_gt n 0)), (proj2 (Z.ltb_ge _ n)) by lia. by eexists.
Qed.

Lemma log_opened variable header : exists log, perf_log_init sys variable header = Ret log.
Proof. unfold perf_log_init. destruct (os_getenv sys variable) as [path|]; [rewrite (gr_logs _ grants)|]; by eexists. Qed.

(** The settings that were chosen are the ones that are printed. *)
Lemma configured : exists s, runtime_configure sys TRAFFIC_CONTROL = Ret s
  /\ bytes_of_string (scheduler_print (scheduler s)) = default (bytes_of_string "EDF") (os_getenv sys "SLEDGE_SCHEDULER")
  /\ bytes_of_string (runtime_print_sigalrm_handler (runtime_sigalrm_handler s))
     = default (bytes_of_string "BROADCAST") (os_getenv sys "SLEDGE_SIGALRM_HANDLER").
Proof.
  unfold runtime_configure. pose proof (kv_scheduler variables) as Hs. pose proof (kv_handler variables) as Hh.
  set (policy := default (bytes_of_string "EDF") _) in *. set (technique := default (bytes_of_string "BROADCAST") _) in *. cbv zeta.
  assert (Es : exists sch, (if streq policy "MTDBF" then if TRAFFIC_CONTROL then Ret SCHEDULER_MTDBF else Stop Panic
     else if streq policy "MTDS" then Ret SCHEDULER_MTDS else if streq policy "EDF" then Ret SCHEDULER_EDF
     else if streq policy "FIFO" then Ret SCHEDULER_FIFO else Stop Panic) = Ret sch /\ bytes_of_string (scheduler_print sch) = policy).
  { rewrite fmap_app, elem_of_app in Hs. destruct Hs as [Hs|Hs].
    - repeat (apply elem_of_cons in Hs as [->|Hs]; [by eexists|]). by apply elem_of_nil in Hs.
    - destruct TRAFFIC_CONTROL; [|by apply elem_of_nil in Hs]. apply elem_of_cons in Hs as [->|Hs]; [by eexists | by apply elem_of_nil in Hs]. }
  destruct Es as (sch & -> & Esch). ostep.
  assert (Eh : exists h, (if streq technique "BROADCAST" then Ret RUNTIME_SIGALRM_HANDLER_BROADCAST
     else if streq technique "TRIAGED" then
       if decide (sch = SCHEDULER_EDF) then Ret RUNTIME_SIGALRM_HANDLER_TRIAGED else Stop Panic
     else Stop Panic) = Ret h /\ bytes_of_string (runtime_print_sigalrm_handler h) = technique).
  { rewrite fmap_app, elem_of_app in Hh. destruct Hh as [Hh|Hh].
    - apply elem_of_cons in Hh as [->|Hh]; [by eexists | by apply elem_of_nil in Hh].
    - case_decide as Hedf; [|by apply elem_of_nil in Hh]. apply elem_of_cons in Hh as [->|Hh]; [|by apply elem_of_nil in Hh].
      assert (sch = SCHEDULER_EDF) as -> by (rewrite <- Esch in Hedf; destruct sch; by vm_compute in Hedf).
      rewrite decide_True by done. by eexists. }
  destruct Eh as (h & -> & Ehd). ostep.
  assert (exists q, match os_getenv sys "SLEDGE_QUANTUM_US" with
    | Some raw => quantum ← atoi raw; if quantum <=? 0 then Stop Panic else if 999999 <? quantum then Stop Panic else Ret (u32 quantum)
    | None => Ret 5000 end = Ret q) as [q ->].
  { destruct (os_getenv sys "SLEDGE_QUANTUM_US") as [raw|] eqn:Er; [|by eexists]. destruct (kv_quantum variables raw Er) as (n & -> & Hn).
    ostep. rewrite (proj2 (Z.leb_gt n 0)), (proj2 (Z.ltb_ge _ n)) by lia. by eexists. }
  ostep. unfold sandbox_perf_log_init, http_session_perf_log_init. do 2 (edestruct log_opened as [? ->]; ostep). by eexists.
Qed.

Lemma mask_granted mask x : x ∈ supported_signals -> software_interrupt_mask_signal sys mask x = Up (mask ∪ {[ x ]}).
Proof.
  intros Hx. unfold software_interrupt_mask_signal. rewrite (bool_decide_true (x ∈ supported_signals)) by done.
  by rewrite (proj1 (gr_signals _ grants true x)).
Qed.

Lemma unmask_granted mask x : x ∈ supported_signals -> software_interrupt_unmask_signal sys mask x = Up (mask ∖ {[ x ]}).
Proof.
  intros Hx. unfold software_interrupt_unmask_signal. rewrite (bool_decide_true (x ∈ supported_signals)) by done.
  by rewrite (proj1 (gr_signals _ grants false x)).
Qed.

Lemma register_granted sa_mask : forall signals mask handlers, Forall (fun x => x ∈ supported_signals) signals ->
  exists r, register_signals sys signals sa_mask mask handlers = Up r.
Proof.
  induction signals as [|x signals IH]; intros mask handlers Hs; cbn; [by eexists|]. apply list.Forall_cons in Hs as [Hx Hs].
  rewrite (mask_granted mask x Hx), (proj2 (gr_signals _ grants true x)). cbn. by apply IH.
Qed.

Lemma workers_granted c mask : cores_ok c -> runtime_total_online_processors c = os_sysconf sys ->
  forall n i, runtime_first_worker_processor c + Z.of_nat i + Z.of_nat n <= os_sysconf sys ->
  exists threads, start_workers sys c mask i n = Up threads.
Proof.
  intros C Ec. pose proof (gr_processors _ grants) as Hp. assert (0 <= runtime_first_worker_processor c).
  { rewrite (co_first c C). by destruct (_ =? 2). }
  induction n as [|n IH]; intros i Hb; cbn; [by eexists|].
  pose proof (gr_workers _ grants i) as Hw. destruct (os_worker sys i) as [ret id]. cbn in Hw. subst. cbn.
  unfold CPU_SET. rewrite (proj2 (Z.ltb_lt _ _)) by lia. rewrite (gr_affinity _ grants) by lia. cbn.
  destruct (IH (S i) ltac:(lia)) as [threads ->]. by eexists.
Qed.

Lemma threads_granted c mask : cores_ok c -> runtime_total_online_processors c = os_sysconf sys ->
  exists threads, runtime_start_runtime_worker_threads sys c mask = Up threads.
Proof.
  intros C Ec. apply workers_granted; [done..|]. pose proof (co_fit c C). pose proof (co_workers c C). lia.
Qed.

Ltac supported := apply (bool_decide_unpack _); vm_compute; exact I.

Lemma run_granted s : forall threads, exists workers : list (worker (L := L)), run_workers sys s threads = Up workers.
Proof.
  induction threads as [|t threads [workers IH]]; cbn [run_workers]; [by eexists|]. unfold worker_thread_main.
  do 2 (rewrite unmask_granted by supported; cbn [mbind boot_bind]). destruct (runtime_preemption_enabled s).
  - do 2 (rewrite unmask_granted by supported; cbn [mbind boot_bind]). rewrite IH. by eexists.
  - cbn [mbind boot_bind]. rewrite IH. by eexists.
Qed.

(** The configuration file, and the tenants it starts. *)
Definition configures (s : settings) (c : cores) alloc zeroed envs (rg : registry L) : Prop :=
  exists buf total tokens, load_file_into_buffer (os_file sys) = Ret (Z.of_nat (length buf), Some buf) /\ buf <> []
    /\ tokenize buf = (total, tokens)
    /\ configure_tenants ADMISSIONS_CONTROL (scheduler s) speed (Z.to_nat (runtime_worker_threads_count c)) (os_epoll_create1 sys)
         zeroed (mk_registry ∅ ∅ []) buf total tokens alloc envs = Ret (0, rg).

Lemma main_granted alloc zeroed envs rg :
  (forall s c, runtime_configure sys TRAFFIC_CONTROL = Ret s -> runtime_allocate_available_cores sys = Ret c ->
     configures s c alloc zeroed envs rg) ->
  exists p, main sys TRAFFIC_CONTROL ADMISSIONS_CONTROL 2 tokenize alloc zeroed envs = Up p
    /\ ps_registry p = rg /\ runtime_processor_speed_MHz p = speed
    /\ bytes_of_string (scheduler_print (scheduler (ps_settings p))) = default (bytes_of_string "EDF") (os_getenv sys "SLEDGE_SCHEDULER").
Proof.
  intros Hconf. unfold main. cbn [exit_unless Z.eqb Pos.eqb].
  destruct limits_raised as [l ->]. destruct cores_found as (c & Ec & Eon). rewrite Ec. destruct configured as (s & Es & Hs & _). rewrite Es.
  destruct (Hconf s c Es Ec) as (buf & total & tokens & Ef & Hb & Et & Ecf). apply cores_allocated in Ec as C. cbn [lift mbind boot_bind].
  assert (exists sh : shared (L := L), runtime_initialize sys ADMISSIONS_CONTROL c s = Ret sh) as [sh ->].
  { unfold runtime_initialize. rewrite !(gr_alloc _ grants). ostep. unfold scheduler_initialize. destruct (scheduler s); by eexists. }
  assert (exists r, software_interrupt_initialize sys ∅ = Up r) as [[mask handlers] ->] by by apply register_granted; repeat constructor; supported.
  cbn [lift mbind boot_bind]. unfold listener_thread_initialize. rewrite (proj2 (Z.leb_le 0 _) (gr_epoll _ grants)).
  pose proof (gr_listener _ grants) as Hl. destruct (os_listener sys) as [ret id]. cbn in Hl. subst ret.
  change (CPU_SET LISTENER_THREAD_CORE_ID) with [LISTENER_THREAD_CORE_ID]. rewrite (gr_affinity _ grants) by (pose proof (gr_processors _ grants); unfold LISTENER_THREAD_CORE_ID; lia).
  destruct (threads_granted c mask C Eon) as [threads Eth]. destruct (run_granted s threads) as [workers Ewk].
  cbn [Z.eqb lift mbind outcome_bind assert boot_bind]. rewrite Eth. cbn [mbind boot_bind]. rewrite Ewk. cbn [mbind boot_bind].
  destruct (gr_speed _ grants) as (Em & output & f & Eo & Esc & Elt & Esp).
  assert (Espd : runtime_get_processor_speed_MHz sys = Ret speed).
  { unfold runtime_get_processor_speed_MHz. rewrite Em, Eo. cbv zeta. by rewrite Esc, Elt. }
  rewrite Espd. cbn [lift mbind boot_bind].
  assert (exists timer, software_interrupt_arm_timer sys s (0, 0) = Up timer) as [timer ->].
  { unfold software_interrupt_arm_timer. rewrite (gr_timer _ grants). destruct (runtime_preemption_enabled s); by eexists. }
  cbn [mbind boot_bind]. rewrite Ef. cbn [lift mbind boot_bind deref].
  rewrite (proj2 (Z.eqb_neq _ 0)) by (destruct buf; [done | cbn [length]; lia]). rewrite Et, Ecf. cbn. by eexists.
Qed.
End starts.

(** C24: start-up.  A process that gets as far as waiting for its workers is set
    up correctly, whatever the environment variables say: it has at least one
    worker; worker [i] is pinned to the processor [first + i], which is online,
    is never processor 0, and is the listener's only on a machine with two
    processors; the quantum is between 1 and 999999 microseconds, the timer runs
    with it exactly when preemption is on, and interrupts are triaged only under
    EDF; the listener blocks all four signals, a worker blocks none, or the two
    of preemption when that is off, and all four stay blocked while a handler
    runs; no worker has a deadline yet, and each starts in a world with an empty
    queue that satisfies the scheduler's invariant.  And when the system grants
    what is asked for, the variables have values the runtime knows and the
    configuration starts its tenants, the process does get there, with these
    tenants and the chosen policy. *)
Theorem startup_spec argc alloc zeroed envs :
  (forall p, main sys TRAFFIC_CONTROL ADMISSIONS_CONTROL argc tokenize alloc zeroed envs = Up p -> serving p)
  /\ (forall speed rg, granted speed -> known_variables ->
      (forall s c, runtime_configure sys TRAFFIC_CONTROL = Ret s -> runtime_allocate_available_cores sys = Ret c ->
         configures speed s c alloc zeroed envs rg) ->
      exists p, main sys TRAFFIC_CONTROL ADMISSIONS_CONTROL 2 tokenize alloc zeroed envs = Up p
        /\ ps_registry p = rg /\ runtime_processor_speed_MHz p = speed
        /\ bytes_of_string (scheduler_print (scheduler (ps_settings p)))
           = default (bytes_of_string "EDF") (os_getenv sys "SLEDGE_SCHEDULER")).
Proof. split; [apply started_serving|]. intros speed rg Hg Hv. by apply main_granted. Qed.
End queues.
End spec.

(** ** A machine *)

(** Four processors at 2.4 GHz, and a document with one tenant; two workers are
    asked for, with triaged interrupts. *)
Definition demo_getenv (name : String.string) : option (list Z) :=
  if decide (name = "SLEDGE_NWORKERS"%string) then Some (bytes_of_string "2")
  else if decide (name = "SLEDGE_SIGALRM_HANDLER"%string) then Some (bytes_of_string "TRIAGED")
  else None.

Definition demo_os : os :=
  mk_os demo_getenv (fun _ => Some (1024, 4096)) (fun _ => true) 4 (fun _ => true) (fun _ => true) (fun _ _ => 0) (fun _ => 0) 5 (0, 100)
    (fun cs => if decide (cs = []) then 22 else 0) (fun i => (0, 101 + Z.of_nat i)) (Some (bytes_of_string "2399.98" ++ [10])) 0
    (mk_file_env 0 90 true true true demo_text true).

Definition demo_main : boot (process (L := bool)) :=
  main demo_os false false 2 (fun _ => (width demo_json, tokens_of demo_json)) (fun _ => true) demo_zero_route [demo_tenant_env 1000 2000].

Definition demo_registry : registry bool :=
  match configure_tenants false SCHEDULER_EDF 2400 2 5 demo_zero_route (mk_registry ∅ ∅ []) demo_text (width demo_json) (tokens_of demo_json)
          (fun _ => true) [demo_tenant_env 1000 2000] with
  | Ret (_, rg) => rg
  | Stop _ => mk_registry ∅ ∅ []
  end.

Lemma demo_granted : granted demo_os 2400.
Proof.
  split; try done. split; [done|]. exists (bytes_of_string "2399.98" ++ [10]). eexists. split; [done|]. split; [vm_compute; reflexivity|]. by split; vm_compute.
Qed.

Lemma demo_variables : known_variables demo_os false.
Proof.
  split.
  - intros raw [= <-]. exists 2. split; [by vm_compute | cbn; lia].
  - apply (bool_decide_unpack _). by vm_compute.
  - apply (bool_decide_unpack _). by vm_compute.
  - done.
Qed.

Lemma startup_spec_witness :
  exists p, demo_main = Up p /\ serving false p /\ ps_registry p = demo_registry /\ runtime_processor_speed_MHz p = 2400.
Proof.
  destruct (startup_spec demo_os false ltac:(done) false (fun _ => (width demo_json, tokens_of demo_json)) 2 (fun _ => true) demo_zero_route
              [demo_tenant_env 1000 2000]) as [Hserving Hstarts].
  destruct (Hstarts 2400 demo_registry demo_granted demo_variables) as (p & E & Hr & Hs & _).
  - intros s c [= <-] [= <-]. exists demo_text, (width demo_json), (tokens_of demo_json).
    split; [by vm_compute|]. split; [done|]. split; [done|]. by vm_compute.
  - exists p. split; [exact E|]. split; [by apply Hserving|]. by split.
Defined.

Definition demo_triaged : settings := mk_settings SCHEDULER_EDF RUNTIME_SIGALRM_HANDLER_TRIAGED true 5000 None None.

Lemma propagate_sigalrm_spec_witness :
  exists out, propagate_sigalrm demo_triaged [10; 2; 4] demo_pq 103 [101; 102; 103] SI_KERNEL = Ret out
    /\ (101 ∈ out) /\ (102 ∉ out) /\ (103 ∉ out).
Proof.
  destruct (propagate_sigalrm_spec false demo_triaged u64 demo_pq [3; 5; 4]%Z 103 [101; 102; 103] [10; 2; 4]) as [(out & E & _ & Hout) _].
  - split; done.
  - exact demo_repr.
  - apply (bool_decide_unpack _). by vm_compute.
  - by repeat constructor.
  - done.
  - by repeat constructor.
  - exists out. split; [exact E|]. rewrite (Hout 0%nat 101), (Hout 1%nat 102), (Hout 2%nat 103) by done.
    split; [|split; [|by intros []]].
    + split; [done|]. exists 3, 10. split; [by left|]. by split.
    + intros (_ & p & d & Hp & [= <-] & Hlt). do 2 (apply elem_of_cons in Hp as [->|Hp]; [by vm_compute in Hlt|]).
      apply list_elem_of_singleton in Hp as ->. by vm_compute in Hlt.
Defined.

(** ** Defects *)

Lemma speed_override sys raw : os_getenv sys "PROC_MHZ" = Some raw -> is_Ret (runtime_get_processor_speed_MHz sys) = false.
Proof. intros E. unfold runtime_get_processor_speed_MHz. rewrite E. by destruct (atoi raw). Qed.

(** With the frequency given in PROC_MHZ no process gets to its tenants, since the command that was not
    run is closed; an unreadable frequency is not an error but 0 MHz; a log that
    cannot be opened is written to; a configuration that is read but whose file
    cannot be closed is closed again. *)
Theorem startup_defects sys :
  (forall raw TC AC argc tokenize alloc (zeroed : route_t bool) envs p, os_getenv sys "PROC_MHZ" = Some raw ->
     main sys TC AC argc tokenize alloc zeroed envs <> Up p)
  /\ (os_getenv sys "PROC_MHZ" = None -> os_popen sys = Some [] -> runtime_get_processor_speed_MHz sys = Ret 0)
  /\ (forall path, os_getenv sys "SLEDGE_SANDBOX_PERF_LOG" = Some path -> os_fopen sys path = false ->
      sandbox_perf_log_init sys = Stop Undefined)
  /\ load_file_into_buffer (mk_file_env 0 2 true true true [91; 93] false) = Stop Undefined.
Proof.
  split; [|split; [|split]].
  - intros raw TC AC argc tokenize alloc zeroed envs p Er E. unfold main in E. inv_boot. destruct a3 as [mask handlers]. inv_boot.
    destruct a3 as [epfd listener]. inv_boot. pose proof (speed_override sys raw Er) as Hf.
    match goal with Hs : runtime_get_processor_speed_MHz sys = Ret _ |- _ => by rewrite Hs in Hf end.
  - intros Em Eo. unfold runtime_get_processor_speed_MHz. by rewrite Em, Eo.
  - intros path Ep Ef. unfold sandbox_perf_log_init, perf_log_init. by rewrite Ep, Ef.
  - done.
Qed.
