(* ===== verification/Metrics.v ===== *)
(** * Metrics: counters, the metrics server and the performance logs

    [runtime/include/http_total.h], [http_route_total.h], [route_latency.h],
    [proc_stat.h], [sandbox_state.h], [runtime/src/metrics_server.c],
    [metrics_server_route_level_metrics.c], and the entries of
    [sandbox_perf_log.h] and [http_session_perf_log.c].  The feature toggles are
    variables; a stream is the list of the bytes written to it. *)

From Stdlib Require Import ZArith Lia SpecFloat.
From S2P Require Import Prelude Lock PriorityQueue HeapTheory PerfWindow Admissions Numeric Globals Module Runqueue Mtds Sandbox Http HttpSession Listener Config Tenants Startup.
From stdpp Require Import strings pretty.
Local Open Scope Z_scope.

(** ** Numbers *)

(** [%lu] and [%u] *)
Definition print_unsigned (n : Z) : list Z := bytes_of_string (pretty (Z.to_N n)).

(** [%d] of a 32-bit argument: its two's complement reading. *)
Definition print_int (n : Z) : list Z :=
  let v := swrap 32 n in
  if v <? 0 then 45 :: print_unsigned (- v) else print_unsigned v.

(** The six digits after the point. *)
Definition six_digits (n : Z) : list Z := (fun k => 48 + (n / 10 ^ (5 - k)) mod 10) <$> [0; 1; 2; 3; 4; 5].

(** [%f] of a double. *)
Definition print_double (d : spec_float) : list Z :=
  match d with
  | S754_nan => bytes_of_string "nan"
  | S754_infinity s => bytes_of_string (if (s : bool) then "-inf" else "inf")
  | S754_zero s => bytes_of_string (if (s : bool) then "-0.000000" else "0.000000")
  | S754_finite s m e =>
    let n := nearbyint_of false (m * 10 ^ 6) e in
    (if s then [45] else []) ++ print_unsigned (n / 10 ^ 6) ++ [46] ++ six_digits (n mod 10 ^ 6)
  end.

(** ** Counters of requests and responses *)

(** The globals of [http_total.c], and [struct http_route_total]. *)
Record http_totals := mk_http_totals { total_requests : Z; total_2XX : Z; total_4XX : Z; total_5XX : Z }.

Section counters.
Variables (HTTP_TOTAL_COUNTERS HTTP_ROUTE_TOTAL_COUNTERS SANDBOX_STATE_TOTALS : bool).

Definition http_total_init (t : http_totals) : http_totals :=
  if HTTP_TOTAL_COUNTERS then mk_http_totals 0 0 0 0 else t.

Definition http_total_increment_request (t : http_totals) : http_totals :=
  if HTTP_TOTAL_COUNTERS then mk_http_totals (u32 (total_requests t + 1)) (total_2XX t) (total_4XX t) (total_5XX t) else t.

Definition http_total_increment_response (t : http_totals) (status_code : Z) : http_totals :=
  if HTTP_TOTAL_COUNTERS then
    if (200 <=? status_code) && (status_code <=? 299) then
      mk_http_totals (total_requests t) (u32 (total_2XX t + 1)) (total_4XX t) (total_5XX t)
    else if (400 <=? status_code) && (status_code <=? 499) then
      mk_http_totals (total_requests t) (total_2XX t) (u32 (total_4XX t + 1)) (total_5XX t)
    else if (500 <=? status_code) && (status_code <=? 599) then
      mk_http_totals (total_requests t) (total_2XX t) (total_4XX t) (u32 (total_5XX t + 1))
    else t
  else t.

Definition http_route_total_init (rm : http_totals) : http_totals :=
  if HTTP_ROUTE_TOTAL_COUNTERS then mk_http_totals 0 0 0 0 else rm.

Definition http_route_total_increment_request (rm : http_totals) : http_totals :=
  if HTTP_ROUTE_TOTAL_COUNTERS then mk_http_totals (u64 (total_requests rm + 1)) (total_2XX rm) (total_4XX rm) (total_5XX rm) else rm.

Definition http_route_total_increment (rm : http_totals) (status_code : Z) : http_totals :=
  if HTTP_ROUTE_TOTAL_COUNTERS then
    if (200 <=? status_code) && (status_code <=? 299) then
      mk_http_totals (total_requests rm) (u64 (total_2XX rm + 1)) (total_4XX rm) (total_5XX rm)
    else if (400 <=? status_code) && (status_code <=? 499) then
      mk_http_totals (total_requests rm) (total_2XX rm) (u64 (total_4XX rm + 1)) (total_5XX rm)
    else if (500 <=? status_code) && (status_code <=? 599) then
      mk_http_totals (total_requests rm) (total_2XX rm) (total_4XX rm) (u64 (total_5XX rm + 1))
    else rm
  else rm.

(** ** Counters of sandboxes in each state *)

Definition sandbox_state_totals_initialize (totals : list Z) : list Z :=
  if SANDBOX_STATE_TOTALS then replicate SANDBOX_STATE_COUNT 0 else totals.

Definition sandbox_state_totals_increment (totals : list Z) (state : nat) : outcome (list Z) :=
  if SANDBOX_STATE_TOTALS then n ← deref (totals !! state); Ret (<[state := u32 (n + 1)]> totals) else Ret totals.

Definition sandbox_state_totals_decrement (totals : list Z) (state : nat) : outcome (list Z) :=
  if SANDBOX_STATE_TOTALS then
    n ← deref (totals !! state);
    if n =? 0 then Stop Panic else Ret (<[state := u32 (n - 1)]> totals)
  else Ret totals.
End counters.

(** ** Latencies of a route *)

Section latency.
Context {L : Type} `{SpinLock L}.
Variable ROUTE_LATENCY : bool.

Definition route_latency_init (w : perf_window L) : perf_window L := if ROUTE_LATENCY then perf_window_initialize else w.

Definition set_window_lock (w : perf_window L) (l : lock_t L) : perf_window L :=
  mk_perf_window (by_duration w) (by_termination w) (pw_count w) l.

Definition route_latency_get (w : perf_window L) (percentile precomputed_index now later : Z) : outcome (Z * perf_window L) :=
  if ROUTE_LATENCY then
    '(l, node) ← lock_lock (pw_lock w) lock_node_zero now;
    let w := set_window_lock w l in
    res ← perf_window_get_percentile w percentile precomputed_index;
    '(l, _) ← lock_unlock (pw_lock w) node later;
    Ret (res, set_window_lock w l)
  else Ret (0, w).

Definition route_latency_add (w : perf_window L) (value now later : Z) : outcome (perf_window L) :=
  if ROUTE_LATENCY then
    '(l, node) ← lock_lock (pw_lock w) lock_node_zero now;
    w ← perf_window_add (set_window_lock w l) value;
    '(l, _) ← lock_unlock (pw_lock w) node later;
    Ret (set_window_lock w l)
  else Ret w.
End latency.

(** ** The process in procfs *)

Definition PROC_STAT_COUNT : nat := 40.
Definition PROC_STAT_MINFLT : nat := 9.
Definition PROC_STAT_CMINFLT : nat := 10.
Definition PROC_STAT_MAJFLT : nat := 11.
Definition PROC_STAT_CMAJFLT : nat := 12.
Definition PROC_STAT_UTIME : nat := 13.
Definition PROC_STAT_STIME : nat := 14.
Definition PROC_STAT_GUEST_TIME : nat := 38.

Record proc_stat_metrics := mk_proc_stat_metrics {
  minor_page_faults : Z;
  major_page_faults : Z;
  child_minor_page_faults : Z;
  child_major_page_faults : Z;
  user_time : Z;
  system_time : Z;
  guest_time : Z;
}.

(** What [strtok_r] with the delimiter space returns one after the other; [cur]
    is the token being read. *)
Fixpoint tokens_from (cur : list Z) (text : list Z) : list (list Z) :=
  match text with
  | [] => if decide (cur = []) then [] else [cur]
  | b :: text =>
    if b =? 32 then (if decide (cur = []) then tokens_from [] text else cur :: tokens_from [] text)
    else tokens_from (cur ++ [b]) text
  end.

(** [strtoul(proc_stat_values[i], NULL, 10)]; a token that is not there is NULL. *)
Definition stat_value (values : list (list Z)) (i : nat) : outcome Z :=
  tok ← deref (values !! i);
  '(v, _, _) ← strtoumax (tok ++ [0]) 0;
  Ret v.

(** [fgets(buf, n, stream)]: the bytes stored before the NUL. *)
Fixpoint fgets_bytes (n : nat) (input : list Z) : list Z :=
  match n, input with
  | S n, b :: input => if b =? 10 then [b] else b :: fgets_bytes n input
  | _, _ => []
  end.

Definition BUFSIZ : nat := Z.to_nat 8192.

(** [text] is what the file holds; [None] if it cannot be opened. *)
Definition proc_stat_metrics_init (runtime_pid : Z) (text : option (list Z)) : outcome proc_stat_metrics :=
  assert (0 <? runtime_pid) ;;
  text ← deref text;
  if decide (text = []) then Stop Undefined else
  let values := take PROC_STAT_COUNT (tokens_from [] (c_string (fgets_bytes (BUFSIZ - 1) text))) in
  minflt ← stat_value values PROC_STAT_MINFLT;
  majflt ← stat_value values PROC_STAT_MAJFLT;
  cminflt ← stat_value values PROC_STAT_CMINFLT;
  cmajflt ← stat_value values PROC_STAT_CMAJFLT;
  utime ← stat_value values PROC_STAT_UTIME;
  stime ← stat_value values PROC_STAT_STIME;
  gtime ← stat_value values PROC_STAT_GUEST_TIME;
  Ret (mk_proc_stat_metrics minflt majflt cminflt cmajflt utime stime gtime).

(** ** The page *)

Record metric := mk_metric { mt_name : list Z; mt_type : list Z; mt_value : list Z }.

(** The two lines of a metric. *)
Definition fprint_metric (m : metric) : list Z :=
  bytes_of_string "# TYPE " ++ mt_name m ++ [32] ++ mt_type m ++ [10] ++ mt_name m ++ [58; 32] ++ mt_value m ++ [10].

Definition counter (name : String.string) (value : list Z) : metric :=
  mk_metric (bytes_of_string name) (bytes_of_string "counter") value.
Definition gauge (name : String.string) (value : list Z) : metric :=
  mk_metric (bytes_of_string name) (bytes_of_string "gauge") value.

Section server.
Context {L : Type} `{SpinLock L}.
Variables (HTTP_TOTAL_COUNTERS HTTP_ROUTE_TOTAL_COUNTERS ROUTE_LATENCY SANDBOX_STATE_TOTALS ADMISSIONS_CONTROL PROC_STAT_METRICS : bool).
Variable runtime_processor_speed_MHz : Z.

(** A route, with what is measured of it. *)
Record route_measured := mk_route_measured { rm_route : list Z; rm_metrics : http_totals; rm_latency : perf_window L }.

Record tenant_measured := mk_tenant_measured { tm_name : list Z; tm_routes : list route_measured }.

(** [%s_%s_suffix] *)
Definition route_metric (tenant label : list Z) (suffix type : String.string) (value : Z) : metric :=
  mk_metric (tenant ++ [95] ++ label ++ [95] ++ bytes_of_string suffix) (bytes_of_string type) (print_unsigned value).

(** A path has at least its terminating NUL; [&route->route[1]] is behind it
    if the path is empty. *)
Definition render_routes (tenant : list Z) (route : route_measured) (now later : Z) : outcome (list metric) :=
  if HTTP_ROUTE_TOTAL_COUNTERS then
    '(latency_p50, latency_p90) ←
      (if ROUTE_LATENCY then
         '(p50, w) ← route_latency_get ROUTE_LATENCY (rm_latency route) 50 0 now later;
         '(p90, _) ← route_latency_get ROUTE_LATENCY w 90 0 now later;
         Ret (p50, p90)
       else Ret (0, 0));
    label ← match rm_route route with [] => Stop Undefined | _ :: label => Ret label end;
    let t := rm_metrics route in
    let totals := [route_metric tenant label "total_requests" "counter" (total_requests t);
                   route_metric tenant label "total_2XX" "counter" (total_2XX t);
                   route_metric tenant label "total_4XX" "counter" (total_4XX t);
                   route_metric tenant label "total_5XX" "counter" (total_5XX t)] in
    if ROUTE_LATENCY then
      if runtime_processor_speed_MHz =? 0 then Stop Fpe else
      Ret (totals ++ [route_metric tenant label "latency_us_p50" "gauge" (latency_p50 / runtime_processor_speed_MHz);
                      route_metric tenant label "latency_us_p90" "gauge" (latency_p90 / runtime_processor_speed_MHz)])
    else Ret totals
  else Ret [].

(** [http_router_foreach] with [render_routes] *)
Fixpoint render_router (tenant : list Z) (routes : list route_measured) (now later : Z) : outcome (list metric) :=
  match routes with
  | [] => Ret []
  | r :: routes => ms ← render_routes tenant r now later; rest ← render_router tenant routes now later; Ret (ms ++ rest)
  end.

Definition render_tenant_routers (t : tenant_measured) (now later : Z) : outcome (list metric) :=
  render_router (tm_name t) (tm_routes t) now later.

(** [tenant_database_foreach] with [render_tenant_routers].  The function is defined
    with two parameters and calls back with two arguments, where the caller and
    [render_tenant_routers] have three: without a meaning in C.  [callback_ok]: the
    platform's calling convention lets such a call through; the missing argument is
    not read. *)
Variable callback_ok : bool.

Fixpoint render_tenants (tenants : list tenant_measured) (now later : Z) : outcome (list metric) :=
  match tenants with
  | [] => Ret []
  | t :: tenants =>
    if negb callback_ok then Stop Undefined else
    ms ← render_tenant_routers t now later; rest ← render_tenants tenants now later; Ret (ms ++ rest)
  end.

Definition metrics_server_route_level_metrics_render (tenants : list tenant_measured) (now later : Z) : outcome (list metric) :=
  if HTTP_ROUTE_TOTAL_COUNTERS then render_tenants tenants now later else Ret [].

(** What the handler reads of the rest of the process. *)
Record measured := mk_measured {
  ms_totals : http_totals;
  ms_sandbox_total : Z;
  ms_state_totals : list Z;
  ms_admitted : Z;
  ms_capacity : Z;
  ms_pid : Z;
  ms_stat : option (list Z);
  ms_tenants : list tenant_measured;
}.

Definition proc_stat_page (s : measured) : outcome (list metric) :=
  if PROC_STAT_METRICS then
    st ← proc_stat_metrics_init (ms_pid s) (ms_stat s);
    Ret [counter "os_proc_major_page_faults" (print_unsigned (major_page_faults st));
         counter "os_proc_minor_page_faults" (print_unsigned (minor_page_faults st));
         counter "os_proc_child_major_page_faults" (print_unsigned (child_major_page_faults st));
         counter "os_proc_child_minor_page_faults" (print_unsigned (child_minor_page_faults st));
         counter "os_proc_user_time" (print_unsigned (user_time st));
         counter "os_proc_sys_time" (print_unsigned (system_time st));
         counter "os_proc_guest_time" (print_unsigned (guest_time st))]
  else Ret [].

(** The admitted work is stored in 32 bits first. *)
Definition admissions_page (s : measured) : list metric :=
  if ADMISSIONS_CONTROL then
    let work_admitted := u32 (ms_admitted s) in
    let percentile := double_mul (SFdiv 53 1024 (double_of_Z work_admitted) (double_of_Z (ms_capacity s))) (double_of_Z 100) in
    [gauge "work_admitted_percentile" (print_double percentile)]
  else [].

Definition totals_page (s : measured) : list metric :=
  if HTTP_TOTAL_COUNTERS then
    [counter "total_requests" (print_int (total_requests (ms_totals s)));
     counter "total_2XX" (print_int (total_2XX (ms_totals s)));
     counter "total_4XX" (print_int (total_4XX (ms_totals s)));
     counter "total_5XX" (print_int (total_5XX (ms_totals s)))]
  else [].

Definition state_metric (s : measured) (name : String.string) (state : sandbox_state_t) : outcome metric :=
  n ← deref (ms_state_totals s !! state_index state);
  Ret (gauge name (print_int n)).

Definition states_page (s : measured) : outcome (list metric) :=
  if SANDBOX_STATE_TOTALS then
    m0 ← state_metric s "total_sandboxes_uninitialized" SANDBOX_UNINITIALIZED;
    m1 ← state_metric s "total_sandboxes_allocated" SANDBOX_ALLOCATED;
    m2 ← state_metric s "total_sandboxes_initialized" SANDBOX_INITIALIZED;
    m3 ← state_metric s "total_sandboxes_runnable" SANDBOX_RUNNABLE;
    m4 ← state_metric s "total_sandboxes_preempted" SANDBOX_PREEMPTED;
    m5 ← state_metric s "total_sandboxes_running_sys" SANDBOX_RUNNING_SYS;
    m6 ← state_metric s "total_sandboxes_running_user" SANDBOX_RUNNING_USER;
    m7 ← state_metric s "total_sandboxes_interrupted" SANDBOX_INTERRUPTED;
    m8 ← state_metric s "total_sandboxes_asleep" SANDBOX_ASLEEP;
    m9 ← state_metric s "total_sandboxes_returned" SANDBOX_RETURNED;
    m10 ← state_metric s "total_sandboxes_complete" SANDBOX_COMPLETE;
    m11 ← state_metric s "total_sandboxes_error" SANDBOX_ERROR;
    Ret [m0; m1; m2; m3; m4; m5; m6; m7; m8; m9; m10; m11]
  else Ret [].

(** All that the page holds, in order. *)
Definition page_metrics (s : measured) (now later : Z) : outcome (list metric) :=
  stat ← proc_stat_page s;
  routes ← metrics_server_route_level_metrics_render (ms_tenants s) now later;
  states ← states_page s;
  Ret (stat ++ admissions_page s ++ totals_page s ++ routes ++ [counter "total_sandboxes" (print_unsigned (ms_sandbox_total s))] ++ states).

(** A connection to the metrics server: whether the stream and the memory
    stream can be opened, what the client sent, and how many bytes of a
    response the socket takes. *)
Record connection := mk_connection { cn_stream : bool; cn_input : list Z; cn_memstream : bool; cn_write : list Z -> Z }.

(** [strncmp(line, "GET /metrics HTTP", 10) == 0] *)
Definition is_metrics_request (line : list Z) : bool :=
  bool_decide (take 10 (c_string line) = take 10 (bytes_of_string "GET /metrics HTTP")).

(** The response that was written; the socket is closed afterwards.  The buffer
    for the first line is uninitialised if nothing comes. *)
Definition metrics_server_handler (s : measured) (cn : connection) (now later : Z) : outcome (list Z) :=
  if negb (cn_stream cn) then Stop Undefined else
  if decide (cn_input cn = []) then Stop Undefined else
  let line := fgets_bytes 255 (cn_input cn) in
  if negb (is_metrics_request line) then
    header ← http_header_build 404;
    len ← http_header_len 404;
    Ret (take (Z.to_nat len) header)
  else
    assert (cn_memstream cn) ;;
    ms ← page_metrics s now later;
    header ← http_header_build 200;
    let ostream := header ++ crlf ++ concat (fprint_metric <$> ms) in
    assert (0 <? Z.of_nat (length ostream)) ;;
    assert (cn_write cn ostream =? Z.of_nat (length ostream)) ;;
    Ret ostream.
End server.

(** ** The server *)

Definition METRICS_SERVER_CORE_ID : Z := 0.
Definition METRICS_SERVER_PORT : Z := 1776.

(** The server and the processors of the threads that answer. *)
Definition metrics_server_init (env : socket_env) : outcome (tcp_server * list Z) :=
  '(rc, tcp) ← tcp_server_listen (tcp_server_init METRICS_SERVER_PORT) env;
  assert (rc =? 0) ;;
  Ret (tcp, CPU_SET METRICS_SERVER_CORE_ID).

(** The sockets handed to threads, and those closed because no thread started. *)
Definition metrics_server_thread_spawn (client_socket pthread_create : Z) (st : list Z * list Z) : list Z * list Z :=
  let '(spawned, closed) := st in
  if pthread_create =? 0 then (spawned ++ [client_socket], closed) else (spawned, closed ++ [client_socket]).

(** What [accept4] returns: a socket, with the result of the following
    [pthread_create], or an error number; a list that ends has none waiting. *)
Inductive metrics_accept := MetricsAccepted (client_socket : nat) (pthread_create : Z) | MetricsErrno (errno : Z).

Fixpoint metrics_accept_loop (accepts : list metrics_accept) (st : list Z * list Z) : outcome (list Z * list Z) :=
  match accepts with
  | [] => Ret st
  | MetricsErrno e :: _ => if e =? EAGAIN then Ret st else Stop Panic
  | MetricsAccepted fd rc :: accepts => metrics_accept_loop accepts (metrics_server_thread_spawn (Z.of_nat fd) rc st)
  end.

Definition on_metrics_server_epoll_event (events : Z) (accepts : list metrics_accept) (st : list Z * list Z) : outcome (list Z * list Z) :=
  assert (has_event events EPOLLIN) ;;
  metrics_accept_loop accepts st.

(** ** Entries of the performance logs *)

Definition sandbox_state_stringify (state : sandbox_state_t) : String.string :=
  match state with
  | SANDBOX_UNINITIALIZED => "Uninitialized"
  | SANDBOX_ALLOCATED => "Allocated"
  | SANDBOX_INITIALIZED => "Initialized"
  | SANDBOX_RUNNABLE => "Runnable"
  | SANDBOX_INTERRUPTED => "Interrupted"
  | SANDBOX_PREEMPTED => "Preempted"
  | SANDBOX_RUNNING_SYS => "Running Sys"
  | SANDBOX_RUNNING_USER => "Running User"
  | SANDBOX_ASLEEP => "Asleep"
  | SANDBOX_RETURNED => "Returned"
  | SANDBOX_COMPLETE => "Complete"
  | SANDBOX_ERROR => "Error"
  end.

(** Fields separated by commas. *)
Fixpoint csv (fields : list (list Z)) : list Z :=
  match fields with
  | [] => []
  | [f] => f
  | f :: fields => f ++ [44] ++ csv fields
  end.

Fixpoint print_durations (durations : list Z) (states : list sandbox_state_t) : outcome (list (list Z)) :=
  match states with
  | [] => Ret []
  | state :: states => n ← deref (durations !! state_index state); rest ← print_durations durations states; Ret (print_unsigned n :: rest)
  end.

(** The fields of an entry; [relative_deadline] is the route's, in cycles. *)
Definition sandbox_entry (s : sandbox) (tenant_name route_path : list Z) (relative_deadline runtime_processor_speed_MHz : Z) : outcome (list (list Z)) :=
  let queued_duration := u64 (dispatched s - allocation s) in
  durations ← print_durations (duration_of_state s)
    [SANDBOX_UNINITIALIZED; SANDBOX_ALLOCATED; SANDBOX_INITIALIZED; SANDBOX_RUNNABLE; SANDBOX_INTERRUPTED; SANDBOX_PREEMPTED;
     SANDBOX_RUNNING_SYS; SANDBOX_RUNNING_USER; SANDBOX_ASLEEP; SANDBOX_RETURNED; SANDBOX_COMPLETE; SANDBOX_ERROR];
  Ret ([print_unsigned (sb_id s); tenant_name; route_path; bytes_of_string (sandbox_state_stringify (sb_state s));
        print_unsigned relative_deadline; print_unsigned (total_time s); print_unsigned queued_duration] ++ durations
       ++ [print_unsigned runtime_processor_speed_MHz]).

Definition sandbox_perf_log_print_entry (log : option (list Z)) (s : sandbox) (tenant_name route_path : list Z)
    (relative_deadline runtime_processor_speed_MHz : Z) : outcome (option (list Z)) :=
  match log with
  | None => Ret None
  | Some l => fields ← sandbox_entry s tenant_name route_path relative_deadline runtime_processor_speed_MHz; Ret (Some (l ++ csv fields ++ [10]))
  end.

(** The value of the enumerator. *)
Definition session_state_index (state : http_session_state) : Z :=
  match state with
  | HTTP_SESSION_UNINITIALIZED => 0 | HTTP_SESSION_INITIALIZED => 1 | HTTP_SESSION_RECEIVING_REQUEST => 2
  | HTTP_SESSION_RECEIVE_REQUEST_BLOCKED => 3 | HTTP_SESSION_RECEIVED_REQUEST => 4 | HTTP_SESSION_EXECUTING => 5
  | HTTP_SESSION_EXECUTION_COMPLETE => 6 | HTTP_SESSION_SENDING_RESPONSE_HEADER => 7
  | HTTP_SESSION_SEND_RESPONSE_HEADER_BLOCKED => 8 | HTTP_SESSION_SENT_RESPONSE_HEADER => 9
  | HTTP_SESSION_SENDING_RESPONSE_BODY => 10 | HTTP_SESSION_SEND_RESPONSE_BODY_BLOCKED => 11
  | HTTP_SESSION_SENT_RESPONSE_BODY => 12
  end.

Definition http_session_entry {P} (s : http_session P) (tenant_name : list Z) (runtime_processor_speed_MHz : Z) : list (list Z) :=
  let receive_duration := u64 (request_downloaded_timestamp s - request_arrival_timestamp s) in
  let sent_duration := u64 (response_sent_timestamp s - response_takeoff_timestamp s) in
  let total_lifetime := u64 (response_sent_timestamp s - request_arrival_timestamp s) in
  [tenant_name; full_url (hs_request s); print_unsigned (session_state_index (hs_state s)); print_unsigned (response_header_written s);
   print_unsigned (response_body_written s); print_unsigned receive_duration; print_unsigned sent_duration;
   print_unsigned total_lifetime; print_unsigned runtime_processor_speed_MHz].

Definition http_session_perf_log_print_entry {P} (log : option (list Z)) (s : http_session P) (tenant_name : list Z)
    (runtime_processor_speed_MHz : Z) : option (list Z) :=
  match log with
  | None => None
  | Some l => Some (l ++ csv (http_session_entry s tenant_name runtime_processor_speed_MHz) ++ [10])
  end.
