(* ===== verification/MetricsSpec.v ===== *)
(** * MetricsSpec: what a scraper reads is what was counted *)

From Stdlib Require Import ZArith Lia SpecFloat.
From S2P Require Import Prelude Lock PriorityQueue HeapTheory PerfWindow Admissions Numeric Globals Module Runqueue Mtds Sandbox Http HttpSession Listener Config Tenants Startup Metrics.
From stdpp Require Import strings pretty.
Local Open Scope Z_scope.

(** ** Reading numbers back *)

Definition digits_value (l : list Z) : Z := foldl (fun a b => 10 * a + (b - 48)) 0 l.

(** The number a text consists of. *)
Definition read_number (l : list Z) : option Z := if forallb isdigit l && negb (bool_decide (l = [])) then Some (digits_value l) else None.

Lemma digit_char (x : N) : (x < 10)%N -> Z.of_nat (Ascii.nat_of_ascii (pretty_N_char x)) = 48 + Z.of_N x.
Proof.
  intros Hx. assert (x = 0 \/ x = 1 \/ x = 2 \/ x = 3 \/ x = 4 \/ x = 5 \/ x = 6 \/ x = 7 \/ x = 8 \/ x = 9)%N as H by lia.
  by repeat destruct H as [->|H]; [..|rewrite H].
Qed.

Lemma bytes_cons a s : bytes_of_string (String.String a s) = Z.of_nat (Ascii.nat_of_ascii a) :: bytes_of_string s.
Proof. done. Qed.

Lemma digits_fold l : forall a, foldl (fun a b => 10 * a + (b - 48)) a l = a * 10 ^ Z.of_nat (length l) + digits_value l.
Proof.
  unfold digits_value. induction l as [|b l IH]; intros a; cbn [foldl length]; [cbn; lia|].
  rewrite IH, (IH (10 * 0 + _)). rewrite Nat2Z.inj_succ, Z.pow_succ_r by lia. lia.
Qed.

Lemma digits_cons b l : digits_value (b :: l) = (b - 48) * 10 ^ Z.of_nat (length l) + digits_value l.
Proof. unfold digits_value at 1. cbn [foldl]. rewrite digits_fold. lia. Qed.

(** Printing writes the digits in front of what is there. *)
Lemma pretty_go (n : N) : forall s, forallb isdigit (bytes_of_string s) = true ->
  let t := bytes_of_string (pretty_N_go n s) in
  forallb isdigit t = true /\ digits_value t = Z.of_N n * 10 ^ Z.of_nat (length (bytes_of_string s)) + digits_value (bytes_of_string s)
  /\ (n <> 0%N \/ bytes_of_string s <> [] -> t <> []).
Proof.
  induction (N.lt_wf_0 n) as [n _ IH]. intros s Hs. destruct (decide (n = 0%N)) as [->|Hn].
  - rewrite pretty_N_go_0. cbv zeta. split; [done|]. split; [lia|]. by intros [?|?].
  - rewrite pretty_N_go_step by lia. assert (Hm : (n `mod` 10 < 10)%N) by (apply N.mod_lt; lia). pose proof (digit_char _ Hm) as Hc.
    destruct (IH (n `div` 10)%N (N.div_lt n 10 ltac:(lia) eq_refl) (String.String (pretty_N_char (n `mod` 10)) s)) as (H1 & H2 & H3).
    + rewrite bytes_cons. cbn [forallb]. rewrite Hc, Hs, andb_true_r. unfold isdigit.
      clear - Hm. generalize dependent (n `mod` 10)%N. intros d Hd.
      by rewrite (proj2 (Z.leb_le 48 _)), (proj2 (Z.leb_le _ 57)) by lia.
    + cbv zeta. split; [exact H1|]. split; [|intros _; apply H3; right; by rewrite bytes_cons].
      rewrite H2, bytes_cons, digits_cons, Hc. cbn [length]. rewrite Nat2Z.inj_succ, Z.pow_succ_r by lia.
      pose proof (N.div_mod n 10 ltac:(lia)) as Hd. apply (f_equal Z.of_N) in Hd. rewrite N2Z.inj_add, N2Z.inj_mul in Hd. cbn in Hd. nia.
Qed.

Lemma print_digits n : forallb isdigit (print_unsigned n) = true /\ print_unsigned n <> [] /\ (0 <= n -> digits_value (print_unsigned n) = n).
Proof.
  unfold print_unsigned, pretty, pretty_N. case_decide as Hn.
  - split; [done|]. split; [done|]. intros H. transitivity 0; [done | lia].
  - destruct (pretty_go (Z.to_N n) "" eq_refl) as (H1 & H2 & H3). split; [exact H1|]. split; [apply H3; by left|].
    intros H. rewrite H2. cbn. lia.
Qed.

Lemma read_print n : 0 <= n -> read_number (print_unsigned n) = Some n.
Proof.
  intros H. destruct (print_digits n) as (H1 & H2 & H3). unfold read_number. rewrite H1, bool_decide_false, H3 by done. done.
Qed.

Lemma print_int_small n : 0 <= n < 2 ^ 31 -> print_int n = print_unsigned n.
Proof. intros H. unfold print_int. rewrite Bytes.swrap_small by lia. by rewrite (proj2 (Z.ltb_ge n 0)) by lia. Qed.

Lemma digits_clean l : forallb isdigit l = true -> 10 ∉ l.
Proof.
  intros H Hin. rewrite forallb_forall in H. apply list_elem_of_In, H in Hin. done.
Qed.

(** ** Lines *)

Fixpoint split_lines (cur text : list Z) : list (list Z) :=
  match text with
  | [] => [cur]
  | b :: text => if b =? 10 then cur :: split_lines [] text else split_lines (cur ++ [b]) text
  end.

Lemma split_line l t : forall cur, 10 ∉ l -> split_lines cur (l ++ 10 :: t) = (cur ++ l) :: split_lines [] t.
Proof.
  induction l as [|b l IH]; intros cur Hl; cbn; [by rewrite app_nil_r|]. apply not_elem_of_cons in Hl as [Hb Hl].
  rewrite (proj2 (Z.eqb_neq b 10)) by done. rewrite IH by done. by rewrite <- app_assoc.
Qed.

(** A scraper: the value of the first line [name: value]. *)
Fixpoint find_value (key : list Z) (ls : list (list Z)) : option Z :=
  match ls with
  | [] => None
  | l :: ls => if decide (take (length key) l = key) then read_number (drop (length key) l) else find_value key ls
  end.

Definition key_of (name : String.string) : list Z := bytes_of_string name ++ [58; 32].
Definition scrape (page : list Z) (name : String.string) : option Z := find_value (key_of name) (split_lines [] page).

(** A line that is not about the key. *)
Definition other (key l : list Z) : Prop := take (length key) l <> key.

Definition clean (m : metric) : Prop := (10 ∉ mt_name m) /\ (10 ∉ mt_type m) /\ (10 ∉ mt_value m).

Definition type_line (m : metric) : list Z := bytes_of_string "# TYPE " ++ mt_name m ++ [32] ++ mt_type m.
Definition value_line (m : metric) : list Z := mt_name m ++ [58; 32] ++ mt_value m.

Lemma metric_lines m t : clean m -> split_lines [] (fprint_metric m ++ t) = type_line m :: value_line m :: split_lines [] t.
Proof.
  intros (Hn & Ht & Hv). unfold fprint_metric.
  replace ((bytes_of_string "# TYPE " ++ mt_name m ++ [32] ++ mt_type m ++ [10] ++ mt_name m ++ [58; 32] ++ mt_value m ++ [10]) ++ t)
    with (type_line m ++ 10 :: (value_line m ++ 10 :: t)) by (unfold type_line, value_line; rewrite <- !app_assoc; done).
  rewrite split_line.
  - cbn [app]. f_equal. rewrite split_line; [done|]. unfold value_line. rewrite !not_elem_of_app. split; [done|]. split; [|done].
    apply (bool_decide_unpack _). by vm_compute.
  - unfold type_line. rewrite !not_elem_of_app. split; [apply (bool_decide_unpack _); by vm_compute|]. split; [done|]. split; [|done].
    apply (bool_decide_unpack _). by vm_compute.
Qed.

Lemma skip_metric key m t : clean m -> other key (type_line m) -> other key (value_line m) ->
  find_value key (split_lines [] (fprint_metric m ++ t)) = find_value key (split_lines [] t).
Proof. intros Hc H1 H2. rewrite metric_lines by done. cbn. by rewrite !decide_False. Qed.

Lemma skip_metrics key ms t :
  Forall (fun m => clean m /\ other key (type_line m) /\ other key (value_line m)) ms ->
  find_value key (split_lines [] (concat (fprint_metric <$> ms) ++ t)) = find_value key (split_lines [] t).
Proof.
  induction 1 as [|m ms (Hc & H1 & H2) _ IH]; [done|]. rewrite fmap_cons. cbn [concat]. rewrite <- app_assoc, skip_metric by done. exact IH.
Qed.

Lemma take_metric name m t n : clean m -> mt_name m = bytes_of_string name -> other (key_of name) (type_line m) -> mt_value m = print_unsigned n -> 0 <= n ->
  find_value (key_of name) (split_lines [] (fprint_metric m ++ t)) = Some n.
Proof.
  intros Hc En Ho Ev Hn. rewrite metric_lines by done. cbn. rewrite decide_False by done.
  assert (E : value_line m = key_of name ++ print_unsigned n) by (unfold value_line, key_of; by rewrite En, Ev, <- app_assoc).
  rewrite E, take_app_length, decide_True, drop_app_length by done. by apply read_print.
Qed.

Lemma other_take k key l : (k <= length key)%nat -> take k l <> take k key -> other key l.
Proof. intros Hk Hne E. apply Hne. apply (f_equal (take k)) in E. by rewrite take_take, Nat.min_l in E. Qed.

(** ** What was counted *)

Inductive http_event := Requested | Responded (status_code : Z).

Definition count_event (t : http_totals) (e : http_event) : http_totals :=
  match e with
  | Requested => http_total_increment_request true t
  | Responded status_code => http_total_increment_response true t status_code
  end.

Definition counted (es : list http_event) : http_totals := foldl count_event (http_total_init true (mk_http_totals 0 0 0 0)) es.

Definition is_request (e : http_event) : bool := match e with Requested => true | _ => false end.
Definition in_class (k : Z) (e : http_event) : bool := match e with Responded c => (100 * k <=? c) && (c <=? 100 * k + 99) | _ => false end.

Definition count (p : http_event -> bool) (es : list http_event) : Z := Z.of_nat (length (List.filter p es)).

Lemma count_snoc p es e : count p (es ++ [e]) = count p es + if p e then 1 else 0.
Proof. unfold count. rewrite List.filter_app, length_app. cbn. destruct (p e); cbn; lia. Qed.

Lemma u32_succ n : u32 (u32 n + 1) = u32 (n + 1).
Proof. unfold u32, wrap. by rewrite Zplus_mod_idemp_l. Qed.

Lemma counted_ok es : counted es = mk_http_totals (u32 (count is_request es)) (u32 (count (in_class 2) es)) (u32 (count (in_class 4) es)) (u32 (count (in_class 5) es)).
Proof.
  unfold counted. induction es as [|e es IH] using rev_ind; [done|]. rewrite foldl_snoc, IH, !count_snoc. clear IH.
  destruct e as [|code]; cbn; rewrite ?Z.add_0_r, ?u32_succ; [done|].
  change (100 * 2) with 200. change (100 * 4) with 400. change (100 * 5) with 500.
  change (200 + 99) with 299. change (400 + 99) with 499. change (500 + 99) with 599.
  destruct (Z.leb_spec 200 code), (Z.leb_spec code 299); cbn; rewrite ?u32_succ, ?Z.add_0_r;
  destruct (Z.leb_spec 400 code), (Z.leb_spec code 499); cbn; rewrite ?u32_succ, ?Z.add_0_r; try lia;
  destruct (Z.leb_spec 500 code), (Z.leb_spec code 599); cbn; rewrite ?u32_succ, ?Z.add_0_r; try lia; done.
Qed.

(** ** The page *)

Section page.
Context {L : Type} `{SpinLock L}.
Variables (HTTP_ROUTE_TOTAL_COUNTERS SANDBOX_STATE_TOTALS ADMISSIONS_CONTROL PROC_STAT_METRICS : bool).
Variables (speed : Z) (callback_ok : bool).
Abbreviation page_metrics := (page_metrics (L := L) true HTTP_ROUTE_TOTAL_COUNTERS false SANDBOX_STATE_TOTALS ADMISSIONS_CONTROL PROC_STAT_METRICS speed callback_ok).
Abbreviation handler := (metrics_server_handler (L := L) true HTTP_ROUTE_TOTAL_COUNTERS false SANDBOX_STATE_TOTALS ADMISSIONS_CONTROL PROC_STAT_METRICS speed callback_ok).

Lemma print_unsigned_clean n : 10 ∉ print_unsigned n.
Proof. apply digits_clean. apply print_digits. Qed.

Lemma six_digits_clean n : 10 ∉ six_digits n.
Proof.
  unfold six_digits. intros (k & E & _)%list_elem_of_fmap. pose proof (Z.mod_pos_bound (n / 10 ^ (5 - k)) 10 ltac:(lia)). lia.
Qed.

Lemma print_double_clean d : 10 ∉ print_double d.
Proof.
  destruct d as [s|s| |s m e].
  - destruct s; apply (bool_decide_unpack _); by vm_compute.
  - destruct s; apply (bool_decide_unpack _); by vm_compute.
  - apply (bool_decide_unpack _); by vm_compute.
  - unfold print_double. cbv zeta. generalize (nearbyint_of false (m * 10 ^ 6) e). intros n. rewrite !not_elem_of_app.
    split; [destruct s; [by intros ?%list_elem_of_singleton | apply not_elem_of_nil]|]. split; [apply print_unsigned_clean|].
    split; [by intros ?%list_elem_of_singleton | apply six_digits_clean].
Qed.

Definition named (name type : String.string) (m : metric) : Prop :=
  mt_name m = bytes_of_string name /\ mt_type m = bytes_of_string type /\ (10 ∉ mt_value m).

(** A metric whose name differs from the key in its first seven bytes is skipped. *)
Lemma named_other key name type m :
  named name type m -> (7 <= length key)%nat -> (7 <= length (bytes_of_string name))%nat ->
  take 7 (bytes_of_string name) <> take 7 key -> take 1 key <> [35] -> 10 ∉ bytes_of_string name -> 10 ∉ bytes_of_string type ->
  clean m /\ other key (type_line m) /\ other key (value_line m).
Proof.
  intros (En & Et & Hv) Hk Hl Hne Hh Cn Ct. split; [unfold clean; by rewrite En, Et|]. split.
  - apply (other_take 1); [lia|]. intros E. apply Hh. by rewrite <- E.
  - apply (other_take 7); [lia|]. unfold value_line. by rewrite En, take_app_le by lia.
Qed.

(** What is written in front of the totals. *)
Definition stat_names : list String.string :=
  ["os_proc_major_page_faults"; "os_proc_minor_page_faults"; "os_proc_child_major_page_faults"; "os_proc_child_minor_page_faults";
   "os_proc_user_time"; "os_proc_sys_time"; "os_proc_guest_time"]%string.

Lemma stat_named s ms : proc_stat_page PROC_STAT_METRICS (s : measured (L := L)) = Ret ms ->
  Forall (fun m => exists name, name ∈ stat_names /\ named name "counter" m) ms.
Proof.
  unfold proc_stat_page. destruct PROC_STAT_METRICS; intros E; inv_outcome; [|constructor].
  repeat constructor; unfold stat_names, counter, named; cbn [mt_name mt_type mt_value];
    (eexists; split; [|split; [reflexivity|]; split; [done | apply print_unsigned_clean]]); apply (bool_decide_unpack _); by vm_compute.
Qed.

(** The keys of the totals. *)
Definition total_names : list String.string := ["total_requests"; "total_2XX"; "total_4XX"; "total_5XX"]%string.

(** A name of which a key of the totals can be told by seven bytes. *)
Definition far (name key : String.string) : bool :=
  (7 <=? length (key_of key))%nat && (7 <=? length (bytes_of_string name))%nat
  && bool_decide (take 7 (bytes_of_string name) <> take 7 (key_of key)) && bool_decide (take 1 (key_of key) <> [35])
  && bool_decide (10 ∉ bytes_of_string name).

Lemma far_other name key type m : far name key = true -> named name type m -> 10 ∉ bytes_of_string type ->
  clean m /\ other (key_of key) (type_line m) /\ other (key_of key) (value_line m).
Proof.
  unfold far. intros [[[[H1 H2]%andb_prop H3]%andb_prop H4]%andb_prop H5]%andb_prop Hm Ht.
  apply (named_other (key_of key) name type m Hm); try done.
  - by apply Nat.leb_le.
  - by apply Nat.leb_le.
  - by apply bool_decide_eq_true in H3.
  - by apply bool_decide_eq_true in H4.
  - by apply bool_decide_eq_true in H5.
Qed.

Lemma front_other key s ms : key ∈ total_names -> proc_stat_page PROC_STAT_METRICS (s : measured (L := L)) = Ret ms ->
  Forall (fun m => clean m /\ other (key_of key) (type_line m) /\ other (key_of key) (value_line m)) (ms ++ admissions_page ADMISSIONS_CONTROL s).
Proof.
  intros Hk Hs. apply Forall_app. split.
  - apply (list.Forall_impl _ _ _ (stat_named s ms Hs)). intros m (name & Hn & Hm). apply (far_other name key "counter"); [|done | apply (bool_decide_unpack _); by vm_compute].
    assert (Hall : forallb (fun n => forallb (far n) total_names) stat_names = true) by by vm_compute.
    rewrite forallb_forall in Hall. specialize (Hall name ltac:(by apply list_elem_of_In)). rewrite forallb_forall in Hall. apply Hall. by apply list_elem_of_In.
  - unfold admissions_page. destruct ADMISSIONS_CONTROL; [|constructor]. constructor; [|constructor].
    apply (far_other "work_admitted_percentile" key "gauge").
    + assert (Hall : forallb (far "work_admitted_percentile") total_names = true) by by vm_compute.
      rewrite forallb_forall in Hall. apply Hall. by apply list_elem_of_In.
    + split; [done|]. split; [done|]. apply print_double_clean.
    + apply (bool_decide_unpack _). by vm_compute.
Qed.

(** The lines of the header are not about a key. *)
Lemma header_skipped key t : key ∈ total_names ->
  find_value (key_of key) (split_lines [] (status_lines "200 OK" ++ crlf ++ t)) = find_value (key_of key) (split_lines [] t).
Proof.
  intros Hk. repeat (apply elem_of_cons in Hk as [->|Hk]; [reflexivity|]). by apply elem_of_nil in Hk.
Qed.

(** ** The handler *)

(** What the page needs: a readable stat file, all state counters, paths that are not
    empty, and, for the metrics of routes, a call back that goes through. *)
Definition renders (s : measured (L := L)) : Prop :=
  (PROC_STAT_METRICS = true -> exists st, proc_stat_metrics_init (ms_pid s) (ms_stat s) = Ret st)
  /\ length (ms_state_totals s) = SANDBOX_STATE_COUNT
  /\ (forall t r, t ∈ ms_tenants s -> r ∈ tm_routes t -> rm_route r <> [])
  /\ (HTTP_ROUTE_TOTAL_COUNTERS = true -> callback_ok = true).

Lemma states_rendered s : renders s -> exists ms, states_page SANDBOX_STATE_TOTALS s = Ret ms.
Proof.
  intros (_ & Hl & _). unfold states_page. destruct SANDBOX_STATE_TOTALS; [|by eexists]. unfold state_metric.
  destruct (ms_state_totals s) as [|? [|? [|? [|? [|? [|? [|? [|? [|? [|? [|? [|? [|]]]]]]]]]]]]]; try done. by eexists.
Qed.

Lemma router_rendered tenant routes now later : (forall r, r ∈ routes -> rm_route r <> []) ->
  exists ms, render_router (L := L) HTTP_ROUTE_TOTAL_COUNTERS false speed tenant routes now later = Ret ms.
Proof.
  induction routes as [|r routes IH]; intros Hr; cbn; [by eexists|]. destruct IH as [ms E]; [intros r' Hr'; apply Hr; by right|].
  unfold render_routes. destruct HTTP_ROUTE_TOTAL_COUNTERS; ostep; [|rewrite E; by eexists].
  pose proof (Hr r ltac:(left)) as Hn. destruct (rm_route r) as [|b label]; [done|]. ostep. rewrite E. by eexists.
Qed.

Lemma tenants_rendered now later : forall ts : list (tenant_measured (L := L)), (forall t r, t ∈ ts -> r ∈ tm_routes t -> rm_route r <> []) ->
  (HTTP_ROUTE_TOTAL_COUNTERS = true -> callback_ok = true) ->
  exists ms, metrics_server_route_level_metrics_render HTTP_ROUTE_TOTAL_COUNTERS false speed callback_ok ts now later = Ret ms.
Proof.
  intros ts Ht Hcb. unfold metrics_server_route_level_metrics_render. pose proof router_rendered as Hr. destruct HTTP_ROUTE_TOTAL_COUNTERS; [|by eexists].
  rewrite Hcb by done. clear Hcb. induction ts as [|t ts IH]; cbn; [by eexists|]. destruct IH as [ms E]; [intros t' r Ht' Hr'; apply (Ht t' r); [by right | done]|].
  unfold render_tenant_routers. destruct (Hr (tm_name t) (tm_routes t) now later) as [m Em]; [intros r Hr'; apply (Ht t r); [left | done]|].
  rewrite Em. ostep. rewrite E. by eexists.
Qed.

Lemma page_rendered s now later : renders s -> exists front rest, proc_stat_page PROC_STAT_METRICS s = Ret front
  /\ page_metrics s now later = Ret ((front ++ admissions_page ADMISSIONS_CONTROL s) ++ totals_page true s ++ rest).
Proof.
  intros R. pose proof R as (Hs & _ & Hr & Hcb). assert (exists front, proc_stat_page PROC_STAT_METRICS s = Ret front) as [front Ef].
  { unfold proc_stat_page. destruct PROC_STAT_METRICS; [|by eexists]. destruct (Hs eq_refl) as [st ->]. by eexists. }
  destruct (states_rendered s R) as [states Es]. destruct (tenants_rendered now later (ms_tenants s) Hr Hcb) as [routes Er].
  unfold Metrics.page_metrics. rewrite Ef, Er, Es. ostep. eexists front, _. split; [done|]. f_equal. rewrite <- !app_assoc. reflexivity.
Qed.

(** The four totals behind the front of a page. *)
Lemma totals_found key front rest n0 n2 n4 n5 :
  key ∈ total_names -> 0 <= n0 -> 0 <= n2 -> 0 <= n4 -> 0 <= n5 ->
  Forall (fun m => clean m /\ other (key_of key) (type_line m) /\ other (key_of key) (value_line m)) front ->
  find_value (key_of key) (split_lines [] (concat (fprint_metric <$> front ++
      [counter "total_requests" (print_unsigned n0); counter "total_2XX" (print_unsigned n2);
       counter "total_4XX" (print_unsigned n4); counter "total_5XX" (print_unsigned n5)] ++ rest)))
  = Some (if decide (key = "total_requests"%string) then n0 else if decide (key = "total_2XX"%string) then n2
          else if decide (key = "total_4XX"%string) then n4 else n5).
Proof.
  intros Hk H0 H2 H4 H5 Hf. rewrite fmap_app, concat_app, skip_metrics by done. cbn [app]. rewrite !fmap_cons. cbn [concat].
  assert (Hnamed : forall name n, named name "counter" (counter name (print_unsigned n))).
  { intros name n. split; [done|]. split; [done|]. apply print_unsigned_clean. }
  assert (Hct : 10 ∉ bytes_of_string "counter") by (apply (bool_decide_unpack _); by vm_compute).
  assert (Hskip : forall name n t, far name key = true ->
    find_value (key_of key) (split_lines [] (fprint_metric (counter name (print_unsigned n)) ++ t)) = find_value (key_of key) (split_lines [] t)).
  { intros name n t Hfar. destruct (far_other name key "counter" _ Hfar (Hnamed name n) Hct) as (Hc & Ht & Hv). by apply skip_metric. }
  assert (Htake : forall n t, 0 <= n -> 10 ∉ bytes_of_string key -> take 1 (key_of key) <> [35] ->
    find_value (key_of key) (split_lines [] (fprint_metric (counter key (print_unsigned n)) ++ t)) = Some n).
  { intros n t Hn Hc Hh. apply take_metric; try done.
    - split; [done|]. split; [done|]. apply print_unsigned_clean.
    - apply (other_take 1); [unfold key_of; rewrite length_app; cbn; lia|]. intros E. apply Hh. by rewrite <- E. }
  repeat (apply elem_of_cons in Hk as [->|Hk]; [rewrite ?Hskip by (by vm_compute); apply Htake; [done | apply (bool_decide_unpack _); by vm_compute | done]|]).
  by apply elem_of_nil in Hk.
Qed.

(** A text without line ends and NULs starts the line exactly when it starts the
    input. *)
Lemma line_prefix pre : forall n input, (length pre <= n)%nat -> 10 ∉ pre -> 0 ∉ pre ->
  pre `prefix_of` c_string (fgets_bytes n input) <-> pre `prefix_of` input.
Proof.
  induction pre as [|b pre IH]; intros n input Hn H10 H0; [by split; intros _; apply prefix_nil|].
  apply not_elem_of_cons in H10 as [Hb10 H10], H0 as [Hb0 H0]. cbn in Hn. destruct n as [|n]; [lia|].
  destruct input as [|c input]; [by split; intros ?%prefix_nil_inv|]. cbn [fgets_bytes].
  destruct (Z.eqb_spec c 10) as [->|Hc]; cbn [c_string].
  - split; intros Hp%prefix_cons_inv_1; congruence.
  - destruct (Z.eqb_spec c 0) as [->|Hc0]; [split; [by intros ?%prefix_nil_inv|intros Hp%prefix_cons_inv_1; congruence]|].
    specialize (IH n input ltac:(lia) H10 H0). split; intros Hp; pose proof (prefix_cons_inv_1 _ _ _ _ Hp); subst c;
      apply prefix_cons_inv_2 in Hp; by apply prefix_cons, IH.
Qed.

Lemma metrics_request_iff input :
  is_metrics_request (fgets_bytes 255 input) = bool_decide (bytes_of_string "GET /metri" `prefix_of` input).
Proof.
  unfold is_metrics_request. apply bool_decide_ext. rewrite <- (line_prefix (bytes_of_string "GET /metri") 255 input);
    [|cbn; lia|apply (bool_decide_unpack _); by vm_compute..].
  change (take 10 (bytes_of_string "GET /metrics HTTP")) with (bytes_of_string "GET /metri"). generalize (c_string (fgets_bytes 255 input)). intros l.
  split; [intros <-; eexists; symmetry; apply take_drop|]. intros [k ->]. by rewrite take_app_length'.
Qed.

(** C26: the metrics server tells what was counted.  After any history of
    requests and responses with fewer than 2^31 of each kind, a client whose request
    starts with the ten bytes GET /metri, as one for /metrics does, gets a page with
    the status 200 from which a scraper that looks for the first line
    [name: value] reads exactly the number of requests, and of responses with
    codes in the 200s, 400s and 500s, whatever else the page holds; every other
    client that sends something gets the 404 header.  The streams can be opened and
    the page is written at once.  (Built with HTTP_TOTAL_COUNTERS and without
    ROUTE_LATENCY; with HTTP_ROUTE_TOTAL_COUNTERS the calling convention must let the
    call back of [tenant_database_foreach] through; the other toggles are arbitrary.) *)
Theorem metrics_page_spec es (s : measured (L := L)) cn now later :
  ms_totals s = counted es -> renders s ->
  (forall p, p ∈ [is_request; in_class 2; in_class 4; in_class 5] -> count p es < 2 ^ 31) ->
  cn_stream cn = true -> cn_memstream cn = true -> cn_input cn <> [] -> (forall page, cn_write cn page = Z.of_nat (length page)) ->
  if decide (bytes_of_string "GET /metri" `prefix_of` cn_input cn) then
    exists page, handler s cn now later = Ret page
      /\ take 15 page = bytes_of_string "HTTP/1.1 200 OK"
      /\ scrape page "total_requests" = Some (count is_request es)
      /\ scrape page "total_2XX" = Some (count (in_class 2) es)
      /\ scrape page "total_4XX" = Some (count (in_class 4) es)
      /\ scrape page "total_5XX" = Some (count (in_class 5) es)
  else handler s cn now later = http_header_build 404.
Proof.
  intros Et R Hsmall Hstr Hmem Hin Hw. unfold metrics_server_handler. rewrite Hstr, (decide_False (P := cn_input cn = [])) by done. cbn [negb].
  rewrite metrics_request_iff. case_decide as Hreq; [rewrite bool_decide_true by done|by rewrite bool_decide_false by done]. cbn [negb]. rewrite Hmem. ostep.
  destruct (page_rendered s now later R) as (front & rest & Ef & Ep). rewrite Ep.
  change (http_header_build 200) with (Ret (status_lines "200 OK")). ostep. rewrite Hw, Z.eqb_refl. rewrite (proj2 (Z.ltb_lt 0 _)) by (rewrite length_app; cbn; lia). ostep. eexists. split; [done|]. split; [done|].
  assert (Hn : forall p, p ∈ [is_request; in_class 2; in_class 4; in_class 5] -> 0 <= count p es /\ print_int (u32 (count p es)) = print_unsigned (count p es)).
  { intros p Hp. pose proof (Hsmall p Hp) as Hc. assert (0 <= count p es) by (unfold count; lia). split; [done|].
    rewrite u32_small by (unfold UINT32_MAX; lia). by apply print_int_small. }
  unfold totals_page. rewrite Et, counted_ok. cbn [total_requests total_2XX total_4XX total_5XX].
  destruct (Hn is_request) as [H0 ->]; [left|]. destruct (Hn (in_class 2)) as [H2 ->]; [right; left|].
  destruct (Hn (in_class 4)) as [H4 ->]; [do 2 right; left|]. destruct (Hn (in_class 5)) as [H5 ->]; [do 3 right; left|].
  unfold scrape. repeat split.
  all: rewrite header_skipped by (apply (bool_decide_unpack _); by vm_compute);
       rewrite totals_found; [done | apply (bool_decide_unpack _); by vm_compute | done.. | apply front_other; [|done]];
       apply (bool_decide_unpack _); by vm_compute.
Qed.
End page.

(** ** A page *)

Definition demo_state : measured (L := bool) :=
  mk_measured (counted [Requested; Requested; Responded 200; Requested; Responded 404; Responded 200]) 3 (replicate 12 0) 0 1 1 None
    [mk_tenant_measured [97] [mk_route_measured (bytes_of_string "/x") (mk_http_totals 0 2 1 0) perf_window_initialize]].

Definition demo_connection (line : String.string) : connection :=
  mk_connection true (bytes_of_string line ++ crlf) true (fun page => Z.of_nat (length page)).

Lemma metrics_page_spec_witness :
  (exists page, metrics_server_handler true true false true true false 2400 true demo_state (demo_connection "GET /metrics HTTP/1.1") 1 2 = Ret page
     /\ scrape page "total_requests" = Some 3 /\ scrape page "total_2XX" = Some 2 /\ scrape page "total_4XX" = Some 1)
  /\ metrics_server_handler true true false true true false 2400 true demo_state (demo_connection "GET /favicon.ico HTTP/1.1") 1 2 = http_header_build 404.
Proof.
  assert (R : renders true false true demo_state).
  { split; [done|]. split; [done|]. split; [|done]. intros t r ->%list_elem_of_singleton ->%list_elem_of_singleton. done. }
  assert (Hsmall : forall p, p ∈ [is_request; in_class 2; in_class 4; in_class 5] ->
    count p [Requested; Requested; Responded 200; Requested; Responded 404; Responded 200] < 2 ^ 31).
  { intros p Hp. unfold count. pose proof (List.filter_length_le p [Requested; Requested; Responded 200; Requested; Responded 404; Responded 200]). cbn in *. lia. }
  split.
  - destruct (metrics_page_spec true true true false 2400 true _ demo_state (demo_connection "GET /metrics HTTP/1.1") 1 2 eq_refl R Hsmall
                eq_refl eq_refl ltac:(done) ltac:(done)) as (page & E & _ & H0 & H2 & H4 & _).
    exists page. split; [exact E|]. rewrite H0, H2, H4. done.
  - exact (metrics_page_spec true true true false 2400 true _ demo_state (demo_connection "GET /favicon.ico HTTP/1.1") 1 2 eq_refl R Hsmall
                eq_refl eq_refl ltac:(done) ltac:(done)).
Defined.

(** ** Defects *)

(** A line of /proc/PID/stat in which field [i] has the value [100 + i]. *)
Definition demo_stat : list Z := concat ((fun i => print_unsigned (100 + i) ++ [32]) <$> seqZ 0 52) ++ [10].

(** The columns of the header of a log. *)
Definition columns (header : list Z) : nat := S (length (List.filter (fun b => b =? 44) header)).

Lemma durations_length d : forall states fields, print_durations d states = Ret fields -> length fields = length states.
Proof.
  induction states as [|st states IH]; cbn; intros fields E; inv_outcome; [done|]. cbn. f_equal. by apply IH.
Qed.

(** Where the page and the logs do not say what they mean: only ten bytes of the
    request are compared; a counter from 2^31 on is printed as a negative number;
    the field read as the guest time is the 39th of the line, the number of the processor (the guest
    time is the 43rd); the header of the sandbox log names 21 columns and an entry
    has 20 fields, without the memory; with the frequency that start-up
    leaves when it cannot read it, rendering latencies divides by zero. *)
Theorem metrics_defects :
  is_metrics_request (bytes_of_string "GET /metrixyz HTTP/1.1") = true
  /\ print_int (2 ^ 31) = bytes_of_string "-2147483648"
  /\ (exists st, proc_stat_metrics_init 1 (Some demo_stat) = Ret st /\ guest_time st = 138 /\ user_time st = 113)
  /\ (forall sys path log s tenant route deadline speed fields, os_getenv sys "SLEDGE_SANDBOX_PERF_LOG" = Some path ->
        sandbox_perf_log_init sys = Ret (Some log) -> sandbox_entry s tenant route deadline speed = Ret fields ->
        columns log = 21%nat /\ length fields = 20%nat)
  /\ render_routes (L := bool) true true 0 [97] (mk_route_measured (bytes_of_string "/x") (mk_http_totals 0 0 0 0) perf_window_initialize) 1 2 = Stop Fpe.
Proof.
  split; [by vm_compute|]. split; [by vm_compute|]. split; [by eexists; split; [vm_compute; reflexivity|]|]. split; [|by vm_compute].
  intros sys path log s tenant route deadline speed fields Ep El Ef. split.
  - unfold sandbox_perf_log_init, perf_log_init in El. rewrite Ep in El. destruct (os_fopen sys path); [|done]. injection El as <-. by vm_compute.
  - unfold sandbox_entry in Ef. inv_outcome. cbn [app length]. rewrite length_app. match goal with E : print_durations _ _ = _ |- _ => rewrite (durations_length _ _ _ E) end. done.
Qed.
